(* ===== verification/_CoqProject ===== *)
-Q . S2P
Prelude.v
Tendermint.v
TendermintFacts.v
TendermintSpec.v
TendermintHandlers.v
TendermintLock.v
TendermintSafety.v
TendermintTheorems.v
Escrow.v
EscrowFacts.v
EscrowTheorems.v
Crypto.v
Blocks.v
NodeAccount.v
NodeTx.v
NodeState.v
NodeFacts.v
NodeRuns.v
NodeTheorems.v
NodeDemo.v
ForkChoice.v
Bft.v
BftFacts.v
BftRules.v
BftTheorems.v
SparseMerkle.v
SparseMerkleTheorems.v
Ledger.v
LedgerFacts.v
History.v
HistoryFacts.v
HistoryTheorems.v
RuleText.v
Totals.v
StorageProof.v
Vault.v
VaultFacts.v
VaultGuard.v
VaultHelpers.v
VaultTheorems.v
Hold.v
HoldChain.v
HoldTrace.v
HoldFacts.v
HoldSteps.v
HoldRuns.v
HoldTheorems.v
Balances.v
BalancesFacts.v
BalancesSim.v
BalancesReorg.v
BalancesTheorems.v
Mempool.v
MempoolSpec.v
MempoolTheorems.v
Abi.v
AbiTheorems.v
Vm.v
VmExec.v
VmFacts.v
Parallel.v
ParallelFacts.v
VmTheorems.v
MarketData.v
MarketChecks.v
MarketPlan.v
MarketFacts.v
MarketSteps.v
MarketRuns.v
MarketBooks.v
MarketUndo.v
MarketTheorems.v
MarketDemo.v
Dao.v
DaoFacts.v
DaoSteps.v
DaoRuns.v
DaoChain.v
DaoTheorems.v
DaoDemo.v
