(* ===== verification/Prelude.v ===== *)
(** * Verification of the Ego blockchain

    ** The program and its parts

    The repository holds a proof-of-stake chain and what is built around it.
    This library models the parts that carry its own logic, one group of files
    for each, and leaves servers, user interfaces, databases and cryptographic
    primitives outside.  Paths below are under [src/].

    - Consensus.  [crates/ego-consensus-core/src/tendermint.rs] decides one
      value for each height: [Tendermint] (data, handlers, the [progress] loop),
      [TendermintFacts], [TendermintHandlers], [TendermintLock] (one validator),
      [TendermintSpec] (what agreement needs of every honest validator, the class
      [LockedVoting]), [TendermintSafety] (a network with Byzantine members,
      message loss and crashes), [TendermintTheorems].
      [crates/ego-consensus-core/src/bft.rs] and [fork_choice.rs] are the older
      engine: [Blocks] (headers, votes, certificates), [ForkChoice], [Bft], and
      [BftFacts], [BftRules], [BftTheorems].  Both engines use keys,
      hashes and signatures of [crates/ego-core/src/{types,crypto}.rs]: [Crypto].
    - State commitments.  [crates/ego-core/src/sparse_merkle.rs]: [SparseMerkle],
      [SparseMerkleTheorems].
    - The ledger of the desktop node, [ego-desktop/src-tauri/src/].  [Ledger]
      has the transactions and signing bytes of [ledger.rs], the overlay [Ov] of
      [drs.rs] through which every chain rule reads and writes the database, and
      its undo records; [LedgerFacts].  [history.rs], the index
      of block hashes: [History], [HistoryFacts], [HistoryTheorems].
    - Chain rules over that overlay.  Each judges the transactions of a block
      ([Planner], [validate]) before it is accepted and applies its effects
      ([apply_block]) after.  [vault_chain.rs], a wallet's own limits: [Vault],
      [VaultFacts], [VaultGuard], [VaultHelpers], [VaultTheorems].
      [hold_chain.rs], holds on stolen coins: [Hold], [HoldChain], [HoldTrace],
      [HoldFacts], [HoldSteps], [HoldRuns], [HoldTheorems].
      [market_chain.rs], the market for trades against money, with the checks of
      [escrow/{solana,cardano}.rs] it calls: [MarketData] (records, keys),
      [MarketChecks] (texts, addresses, signatures, shapes), [MarketPlan] (every
      operation, the plan of a block, journals), [MarketFacts], [MarketSteps] (the
      rules of a trade as a relation), [MarketRuns] (blocks, and that the judgement
      does not depend on the order), [MarketBooks] (the escrow, together with the
      balances), [MarketUndo], [MarketTheorems]; [MarketDemo] runs it on a market of
      its own.
      [dao_chain.rs], proposals and votes: [Dao], [DaoFacts] (keys, sums, the book
      of a proposal and its rules), [DaoSteps] (every operation follows a rule),
      [DaoRuns], [DaoChain] (together with the stakes of the balances),
      [DaoTheorems], [DaoDemo].
      What they share is in [RuleText].
    - Balances.  [chain_db.rs] checks the coins of a block
      ([validate_block_protocol_txs_inner]), computes the balances it writes with
      the books of [invariants.rs] ([write_block_batch]) and takes them back in a
      reorganisation ([truncate_from]): [Balances], [BalancesFacts] (the books),
      [BalancesSim] (the check and the write agree), [BalancesReorg],
      [BalancesTheorems].  Sums of maps, shared with the tracing of holds, are in
      [Totals].
    - Proofs of storage, [proof.rs] and [storage_proof.rs]: the tree over the pieces
      of a file, the answers to the challenge of a block, the transaction that
      carries them and whether it earns pay ([chain_db.rs]): [StorageProof].
    - The account state of the standalone node, [crates/ego-core/src/].
      [account.rs]: [NodeAccount] (every kind of account, its balance, nonces,
      credits, storage provider's books).  [transaction.rs]: [NodeTx] (payloads,
      signing bytes, the check of a transaction against its account).  [state.rs]:
      [NodeState] (the [StateManager], every handler of [execute_transaction],
      receipts between shards, validators, slices, pruning, the files).
      [NodeFacts] has rules for computations that keep their state when they fail
      and what each handler does to the coins, [NodeRuns] sequences of operations,
      [NodeTheorems] the properties, [NodeDemo] examples.
    - The transaction pool of the node, [bins/ego-node/src/mempool.rs]: [Mempool],
      [MempoolSpec] (the abstract pool and its simulation), [MempoolTheorems].
    - Contracts, [crates/ego-vm/src/].  [abi.rs]: [Abi], [AbiTheorems].
      [state.rs], [host.rs], [executor.rs]: [Vm], [VmExec], [VmFacts].
      [parallel.rs]: [Parallel], [ParallelFacts].  Theorems: [VmTheorems].
    - The escrow program on Solana, [contracts/p2p-solana/src/lib.rs]: [Escrow],
      [EscrowFacts], [EscrowTheorems].

    This file has what all of them share: machine integers, bytes, the [result]
    type with its notation, the iteration order of hash maps, stable sorting and
    generic lemmas.

    ** How the code is modelled

    A Rust function is a Rocq function of the same name and a struct or an enum
    is a record or an inductive type with the source's fields or constructors.
    A method that takes [&mut self] returns the new state, one that can fail
    returns [result], and the state it leaves when it fails is kept where the
    code keeps it.  Integers are [Z] with the saturating, wrapping or checked
    operation of the source written out; plain arithmetic wraps in the account state
    of the node, as in a release build, and its floats are the binary64 of [SpecFloat].  A [HashMap] is a [gmap] whose iteration
    order is a parameter ([HashOrder]) and a [BTreeMap] one with the order of its
    keys.  A reading of the clock is an argument; the readings within one call
    are one instant.  A method behind a lock is one step, except for the
    contract calls of one parallel group, whose reads and writes interleave.

    Recursion that is not structural takes fuel, and the lemmas show it is
    enough: [PROGRESS_FUEL] is 5 turns of [progress]; [merkle_loop] and the like
    take the length of the list; [extends_walk] the 64 ancestors the code walks;
    [carry] 65 steps for a 64-bit count; [tree_root] the 12 levels of a chunk;
    [read_undo] one more than the length of the record; [pop_loop] one more than
    the size of the heap; [schedule_loop] one more than the number of calls;
    [chunks] the length of the data and [siblings] the position of the leaf;
    [rounds] the 7 rounds of cross-contract calls after which the code stops.

    ** Parameters and hypotheses

    Code of other crates is a parameter: hash functions and signatures
    ([CryptoPrims], [Bls]), [hex], [bech32] and [ed25519_dalek] ([ChainPrims]),
    base58, curves and CBOR of other chains ([MarketPrims]), [bincode], the JSON of
    messages, events and files, and the file system of the account state ([NodePrims],
    [TxPrims], [EventPrims], [DiskPrims], [Os]),
    [serde_json] ([Json], with the law [JsonRoundTrip] where a theorem needs what
    was written to be read back and [JsonBytes] that it wrote bytes; [ProofLaws] has what
    proofs of storage need of BLAKE3 and hex), the binary heap ([MaxHeap]), wasmtime
    ([WasmRuntime], [VmPrims]), UTF-8 ([Utf8Text]), the Solana runtime and system
    program ([SolanaRuntime], [SystemProgram]).  What a chain rule asks of a part
    that is not modelled yet is a parameter too ([NodePool], the balances a hold
    reads; [ChainRules]: the block reward, which settlements the market's plan lets through, what nodes are due);
    [MarketTheorems.escrow_solvent] takes the plan of [MarketPlan] for it.  A
    theorem about a commitment ends in "or here is a collision", so no hash
    function is assumed to be injective.  Every property with hypotheses has a
    witness: the same statement on a concrete input, with the parameters
    replaced by concrete functions.

    ** What the theorems show

    - Tendermint: agreement of honest validators, no equivocation, locking,
      termination of [progress] and that it misses no decision, well-formed vote
      books, saving and restoring.
    - The older engine: a fair proposer schedule, accountability for conflicting
      certificates, one vote a round, view changes need a quorum, Merkle roots.
    - Commitments: completeness, soundness and binding of the sparse trie; the
      hash index equals a reference tree and its paths are exact; undo records
      restore the database.
    - Vault: nothing loosens before its delay, the daily limit, what helpers can
      do.  Holds: held coins stay, the phases of a hold, one settlement, tracing
      never finds more than was stolen.
    - Market: the coins of the escrow are those of the open trades, in its books
      and in its balance; an accepted block takes effect as a whole; trades follow
      the rules and keep their terms; a settlement pays by the terms and is admitted
      when the rules allow it; rolling back restores the market.
    - DAO: the stored tallies are those of the votes, stake that voted stays until
      the vote ends, a closed vote stays as it is, answers are committed before they
      are known, five proposals a month, and builders and judges of blocks agree.
    - Balances: the books of a block always balance; an accepted block is written
      without going below zero and does not add to the sum of all balances;
      removing it gives the balances back.
    - Account state: coins leave an account only by its own signed transaction with
      the next nonce; a transaction succeeds once; where all coins go, also between
      two shards and when a transaction fails; a receipt is applied once; a transfer
      that is paid for is executed; what a signature is of; active validators are
      bonded; the books of storage providers; accounts survive a restart.
    - Proofs of storage: whoever holds a file is accepted, and answers with full
      paths are the pieces the chain asked for.
    - Pool: it refines a plain map of pending transactions; exact refusals.
    - Contracts: exact decoding and true errors of the ABI, storage limits,
      effects of failed and successful calls, the scheduler's partition, and a
      batch that does not depend on the interleaving.
    - Escrow: who may act, where every lamport goes, that it settles once, that
      a release succeeds, fair terms on opening.

    Where the code does less than it means to, a lemma shows it on an example
    (for instance [BftTheorems.outsiders_reach_quorum],
    [VaultTheorems.sweep_fee_uncounted], [HoldTheorems.bond_spent_in_block],
    [VmTheorems.VmDemo.overlapping_calls_lose_a_write],
    [BalancesTheorems.BalancesDemo.unpaid_fee_mints], [MarketDemo.wild_margin_passes],
    [DaoDemo.dust_reports_lift_ban], [NodeDemo.failed_transfer_mints],
    [NodeDemo.unstake_of_another], [NodeDemo.claim_drains_pool],
    [NodeDemo.state_root_of_order] and the lemmas around them;
    [NodeTheorems.new_account_frozen], [StorageProof.short_paths_accepted] and
    [StorageProof.two_hashes_earn] in general); where that is a condition
    of a theorem, such as that every fee has a payer, the theorem names it.

    ** Not modelled

    Network and process code (p2p, RPC, gateways, relays, command lines, the
    drivers of the engines), which is input and output around the parts above;
    the network of [TendermintSafety] stands for what the driver [tm_live.rs] can
    do to the engine.  RocksDB and, of [chain_db.rs], the indices, registrations
    and synchronisation; node weights, the pay of hosts and the loop that
    challenges the files of the own node; the shards,
    rollup and light client of [ego-core]; the rollup crate; the Urego compiler; shielded transactions and the
    other cryptographic circuits; user interfaces and code in other languages.
    The queries of the market that build JSON views change nothing.
    The mempool checks [admit] of the chain rules read the clock and the
    database of the process and change nothing.  What could come next is
    node weights and the contract compiler. *)
From stdpp Require Export base tactics list gmap sorting strings.
From Stdlib Require Export ZArith Lia.

Declare Scope ego_scope.
Delimit Scope ego_scope with ego.
Local Open Scope Z_scope.

(** ** Machine integers

    A Rust integer of width [w] is a [Z]; the operations below write out the
    saturating, wrapping and checked arithmetic the sources use.  A [usize]
    that is the length of a collection or an index into one is a [nat]: such a
    value is bounded by the address space, so its arithmetic cannot wrap. *)

Definition u8_max : Z := 255.
Definition u32_max : Z := 4294967295.
Definition u64_max : Z := 18446744073709551615.
Definition i64_max : Z := 9223372036854775807.
Definition i64_min : Z := -9223372036854775808.

Definition in_u8 (x : Z) : Prop := 0 <= x <= u8_max.
Definition in_u32 (x : Z) : Prop := 0 <= x <= u32_max.
Definition in_u64 (x : Z) : Prop := 0 <= x <= u64_max.
Definition in_i64 (x : Z) : Prop := i64_min <= x <= i64_max.

#[export] Instance in_u8_dec x : Decision (in_u8 x).
Proof. unfold in_u8. apply _. Defined.
#[export] Instance in_u32_dec x : Decision (in_u32 x).
Proof. unfold in_u32. apply _. Defined.
#[export] Instance in_u64_dec x : Decision (in_u64 x).
Proof. unfold in_u64. apply _. Defined.
#[export] Instance in_i64_dec x : Decision (in_i64 x).
Proof. unfold in_i64. apply _. Defined.

(** [saturating_add], [saturating_sub] and [saturating_mul] of unsigned values. *)
Definition sat_add (max a b : Z) : Z := Z.min max (a + b).
Definition sat_sub (a b : Z) : Z := Z.max 0 (a - b).
Definition sat_mul (max a b : Z) : Z := Z.min max (a * b).

(** [wrapping_add] at 64 bits. *)
Definition wrapping_add64 (a b : Z) : Z := (a + b) mod (u64_max + 1).

(** [checked_add] and [checked_sub] at 64 bits. *)
Definition checked_add64 (a b : Z) : option Z :=
  if bool_decide (a + b <= u64_max) then Some (a + b) else None.
Definition checked_sub64 (a b : Z) : option Z :=
  if bool_decide (b <= a) then Some (a - b) else None.

(** Unfold the machine arithmetic and decide the linear goal left. *)
Ltac machine_lia :=
  unfold in_u8, in_u32, in_u64, in_i64, sat_add, sat_sub, sat_mul,
    u8_max, u32_max, u64_max, i64_max, i64_min in *; lia.

(** ** Bytes *)

(** A byte is a [Z] in [0, 255]; [[u8; N]] and [Vec<u8>] are lists of them. *)
Abbreviation bytes := (list Z).

(** [to_le_bytes] of a value of [n] bytes. *)
Fixpoint to_le_bytes (n : nat) (x : Z) : bytes :=
  match n with
  | O => []
  | S n => x mod 256 :: to_le_bytes n (x / 256)
  end.

(** [from_le_bytes]. *)
Fixpoint from_le_bytes (l : bytes) : Z :=
  match l with
  | [] => 0
  | b :: l => b + 256 * from_le_bytes l
  end.

Definition u32_le : Z -> bytes := to_le_bytes 4.
Definition u64_le : Z -> bytes := to_le_bytes 8.

(** The lexicographic order of byte slices ([Ord for [u8]]). *)
Fixpoint bytes_compare (a b : bytes) : comparison :=
  match a, b with
  | [], [] => Eq
  | [], _ :: _ => Lt
  | _ :: _, [] => Gt
  | x :: a, y :: b =>
      match Z.compare x y with
      | Eq => bytes_compare a b
      | c => c
      end
  end.

(** The bytes of an ASCII literal. *)
Fixpoint ascii_bytes (s : string) : bytes :=
  match s with
  | EmptyString => []
  | String c s => Z.of_nat (Ascii.nat_of_ascii c) :: ascii_bytes s
  end.

Lemma bytes_compare_eq a b : bytes_compare a b = Eq <-> a = b.
Proof.
  revert b; induction a as [|x a IH]; intros [|y b]; simpl; try done.
  destruct (Z.compare_spec x y) as [->|Hlt|Hgt].
  - rewrite IH. naive_solver.
  - split; [done|]. intros [= -> _]. lia.
  - split; [done|]. intros [= -> _]. lia.
Qed.

Lemma bytes_compare_antisym a b : bytes_compare b a = CompOpp (bytes_compare a b).
Proof.
  revert b; induction a as [|x a IH]; intros [|y b]; simpl; try done.
  rewrite (Z.compare_antisym x y). destruct (Z.compare x y); simpl; auto.
Qed.

Lemma bytes_compare_trans a b c :
  bytes_compare a b = Lt -> bytes_compare b c = Lt -> bytes_compare a c = Lt.
Proof.
  revert b c; induction a as [|x a IH]; intros [|y b] [|z c]; simpl; try done.
  destruct (Z.compare_spec x y), (Z.compare_spec y z), (Z.compare_spec x z); subst; try done; try lia; eauto.
Qed.

Lemma length_to_le_bytes n x : length (to_le_bytes n x) = n.
Proof. revert x; induction n as [|n IH]; intros x; simpl; [done|]. by rewrite IH. Qed.

Lemma length_u32_le x : length (u32_le x) = 4%nat.
Proof. apply length_to_le_bytes. Qed.

Lemma length_u64_le x : length (u64_le x) = 8%nat.
Proof. apply length_to_le_bytes. Qed.

Lemma from_to_le_bytes n x :
  0 <= x < 256 ^ Z.of_nat n -> from_le_bytes (to_le_bytes n x) = x.
Proof.
  revert x; induction n as [|n IH]; intros x Hx.
  - simpl in *. lia.
  - rewrite Nat2Z.inj_succ, Z.pow_succ_r in Hx by lia. simpl.
    rewrite IH.
    + pose proof (Z.div_mod x 256). lia.
    + split; [apply Z.div_pos; lia|]. apply Z.div_lt_upper_bound; lia.
Qed.

Lemma to_le_bytes_inj n x y :
  0 <= x < 256 ^ Z.of_nat n -> 0 <= y < 256 ^ Z.of_nat n ->
  to_le_bytes n x = to_le_bytes n y -> x = y.
Proof.
  intros Hx Hy E. rewrite <-(from_to_le_bytes n x), <-(from_to_le_bytes n y) by done.
  by rewrite E.
Qed.

Lemma to_le_bytes_byte n x : Forall in_u8 (to_le_bytes n x).
Proof.
  revert x; induction n as [|n IH]; intros x; simpl; constructor; [|done].
  pose proof (Z.mod_pos_bound x 256). machine_lia.
Qed.

Lemma to_from_le_bytes l : Forall in_u8 l -> to_le_bytes (length l) (from_le_bytes l) = l.
Proof.
  induction 1 as [|b l Hb _ IH]; [done|]. cbn [length to_le_bytes from_le_bytes].
  assert (0 <= b < 256) by machine_lia.
  rewrite (Z.mul_comm 256), Z_mod_plus_full, Z.div_add, Z.mod_small, Z.div_small by lia.
  by rewrite Z.add_0_l, IH.
Qed.

Lemma from_le_bytes_bound l :
  Forall in_u8 l -> 0 <= from_le_bytes l < 256 ^ Z.of_nat (length l).
Proof.
  induction 1 as [|b l Hb _ IH]; [simpl; lia|].
  cbn [from_le_bytes length]. rewrite Nat2Z.inj_succ, Z.pow_succ_r by lia. machine_lia.
Qed.

(** Only the value modulo [256 ^ n] is stored. *)
Lemma to_le_bytes_mod n x : to_le_bytes n (x mod 256 ^ Z.of_nat n) = to_le_bytes n x.
Proof.
  revert x; induction n as [|n IH]; intros x; [done|].
  rewrite Nat2Z.inj_succ, Z.pow_succ_r by lia.
  assert (0 < 256 ^ Z.of_nat n) by (apply Z.pow_pos_nonneg; lia).
  rewrite Z.rem_mul_r by lia. simpl. f_equal.
  - rewrite Z.mul_comm, Z_mod_plus_full, Z.mod_mod by lia. done.
  - rewrite Z.mul_comm, Z.div_add by lia.
    rewrite (Z.div_small (x mod 256)) by (apply Z.mod_pos_bound; lia). apply IH.
Qed.

Lemma from_to_le_bytes_mod n x : from_le_bytes (to_le_bytes n x) = x mod 256 ^ Z.of_nat n.
Proof.
  rewrite <-to_le_bytes_mod. apply from_to_le_bytes, Z.mod_pos_bound.
  apply Z.pow_pos_nonneg; lia.
Qed.

(** ** Errors as values *)

(** Rust's [Result]. *)
Inductive result (T E : Type) : Type :=
| Ok (t : T)
| Err (e : E).
Arguments Ok {T E} t.
Arguments Err {T E} e.

Definition result_bind {T U E} (r : result T E) (f : T -> result U E) : result U E :=
  match r with
  | Ok t => f t
  | Err e => Err e
  end.

(** The [?] operator: [let? x := r in k] is [let x = r?; k]. *)
Notation "'let?' x := r 'in' k" := (result_bind r (fun x => k))
  (at level 10, x name, r at level 100, k at level 200) : ego_scope.
Notation "'let?' ' p := r 'in' k" := (result_bind r (fun p => k))
  (at level 10, p strict pattern, r at level 100, k at level 200) : ego_scope.

(** [Option::ok_or]. *)
Definition ok_or {T E} (o : option T) (e : E) : result T E :=
  match o with
  | Some t => Ok t
  | None => Err e
  end.

Lemma result_bind_Ok {T U E} (r : result T E) (f : T -> result U E) u :
  result_bind r f = Ok u <-> exists t, r = Ok t /\ f t = Ok u.
Proof. destruct r; simpl; naive_solver. Qed.

(** [Option::map_or(true, f)], the guard idiom of the consensus code. *)
Definition map_or_true {A} (o : option A) (f : A -> bool) : bool :=
  match o with
  | None => true
  | Some a => f a
  end.

(** To name the result of a computation that succeeds. *)
Lemma is_Some_default {A} (d : A) (o : option A) :
  bool_decide (is_Some o) = true -> o = Some (default d o).
Proof. destruct o; [done|]. by rewrite bool_decide_false by (by intros [? ?]). Qed.

(** ** Hash maps

    A [HashMap] or [HashSet] is a [gmap] or [gset].  The order in which Rust
    iterates one is unspecified and differs from process to process, so it is
    a parameter: [hash_iter] lists the entries in some order, and nothing but
    that it lists them all once is known of it.  Every theorem holds for every
    order. *)
Class HashOrder : Type := {
  hash_iter : forall {K A : Type} `{Countable K}, gmap K A -> list (K * A);
  hash_iter_perm : forall {K A : Type} `{Countable K} (m : gmap K A),
    hash_iter m ≡ₚ map_to_list m;
}.

(** The order used to evaluate closed examples. *)
Definition list_order : HashOrder :=
  {| hash_iter _ _ _ _ m := map_to_list m; hash_iter_perm _ _ _ _ _ := Permutation_refl _ |}.

(** ** Sorting

    [slice::sort_by] is stable: elements that compare equal keep their order. *)
Section StableSort.
Context {A : Type} (leb : A -> A -> bool).

Fixpoint sorted_insert (x : A) (l : list A) : list A :=
  match l with
  | [] => [x]
  | y :: l => if leb x y then x :: y :: l else y :: sorted_insert x l
  end.

Definition stable_sort (l : list A) : list A := foldr sorted_insert [] l.

Lemma sorted_insert_perm x l : sorted_insert x l ≡ₚ x :: l.
Proof.
  induction l as [|y l IH]; simpl; [done|].
  destruct (leb x y); [done|]. rewrite IH. constructor.
Qed.

Lemma stable_sort_perm l : stable_sort l ≡ₚ l.
Proof. induction l as [|x l IH]; simpl; [done|]. by rewrite sorted_insert_perm, IH. Qed.

Context (leb_total : forall x y, leb x y = false -> leb y x = true).
Context (leb_trans : forall x y z, leb x y = true -> leb y z = true -> leb x z = true).

Lemma stable_sort_sorted l : StronglySorted (fun x y => leb x y = true) (stable_sort l).
Proof.
  induction l as [|x l IH]; simpl; [constructor|].
  induction IH as [|y k Hk IHk Hall]; simpl; [repeat constructor|].
  destruct (leb x y) eqn:E.
  - constructor; [by constructor|]. constructor; [done|].
    eapply Forall_impl; [done|]. simpl. eauto.
  - constructor; [done|]. rewrite sorted_insert_perm. constructor; auto.
Qed.
End StableSort.

(** Sorting forgets the order of the input when no two elements tie. *)
Lemma stable_sort_unique {A} (leb : A -> A -> bool) (l k : list A) :
  (forall x y, leb x y = false -> leb y x = true) ->
  (forall x y z, leb x y = true -> leb y z = true -> leb x z = true) ->
  (forall x y, x ∈ l -> y ∈ l -> leb x y = true -> leb y x = true -> x = y) ->
  l ≡ₚ k -> stable_sort leb l = stable_sort leb k.
Proof.
  intros Htot Htr Hanti Hp.
  apply (StronglySorted_unique_strong (fun x y => leb x y = true)).
  - intros x y. rewrite !stable_sort_perm, <-Hp. apply Hanti.
  - by apply stable_sort_sorted.
  - by apply stable_sort_sorted.
  - by rewrite !stable_sort_perm.
Qed.

(** The entries of a [BTreeMap] whose keys are integers, in ascending order. *)
Definition btree_iter {A} (m : gmap Z A) : list (Z * A) :=
  stable_sort (fun x y => x.1 <=? y.1) (map_to_list m).

Section HashOrderFacts.
Context `{HashOrder}.
Context {K A : Type} `{Countable K}.
Implicit Types m : gmap K A.

Lemma elem_of_hash_iter m k a : (k, a) ∈ hash_iter m <-> m !! k = Some a.
Proof. rewrite hash_iter_perm. apply elem_of_map_to_list. Qed.

Lemma NoDup_hash_iter_keys m : NoDup (hash_iter m).*1.
Proof. rewrite hash_iter_perm. apply NoDup_fst_map_to_list. Qed.

Lemma NoDup_hash_iter m : NoDup (hash_iter m).
Proof. rewrite hash_iter_perm. apply NoDup_map_to_list. Qed.

Lemma length_hash_iter m : length (hash_iter m) = size m.
Proof. rewrite hash_iter_perm. apply length_map_to_list. Qed.
End HashOrderFacts.

Lemma elem_of_btree_iter {A} (m : gmap Z A) k a :
  (k, a) ∈ btree_iter m <-> m !! k = Some a.
Proof. unfold btree_iter. rewrite stable_sort_perm. apply elem_of_map_to_list. Qed.

Lemma sublist_fmap {A B} (f : A -> B) (l k : list A) :
  l `sublist_of` k -> f <$> l `sublist_of` f <$> k.
Proof. induction 1; simpl; by constructor. Qed.

Lemma map_to_list_filter_perm {K A} `{Countable K} (P : K * A -> Prop)
    `{forall x, Decision (P x)} (m : gmap K A) :
  map_to_list (filter P m) ≡ₚ filter P (map_to_list m).
Proof.
  rewrite map_filter_alt. apply map_to_list_to_map.
  eapply sublist_NoDup; [apply (NoDup_fst_map_to_list m)|].
  apply sublist_fmap, sublist_filter.
Qed.

(** ** Filtering lists *)

Section Filter.
Context {A : Type} (P Q : A -> Prop) `{!forall x, Decision (P x)} `{!forall x, Decision (Q x)}.

Lemma filter_none (l : list A) : (forall x, x ∈ l -> ~ P x) -> filter P l = [].
Proof.
  induction l as [|x l IH]; [done|]. intros Hl.
  rewrite filter_cons_False by (apply Hl; set_solver). apply IH. set_solver.
Qed.

Lemma filter_all (l : list A) : (forall x, x ∈ l -> P x) -> filter P l = l.
Proof.
  induction l as [|x l IH]; [done|]. intros Hl.
  rewrite filter_cons_True by (apply Hl; set_solver). f_equal. apply IH. set_solver.
Qed.

Lemma filter_ext_in (l : list A) : (forall x, x ∈ l -> P x <-> Q x) -> filter P l = filter Q l.
Proof.
  induction l as [|x l IH]; [done|]. intros Hl. rewrite !filter_cons, IH by set_solver.
  pose proof (Hl x ltac:(set_solver)). repeat case_decide; tauto.
Qed.

Lemma length_filter_fmap {B} (f : B -> A) (l : list B) :
  length (filter P (f <$> l)) = length (filter (fun x => P (f x)) l).
Proof.
  induction l as [|x l IH]; [done|]. rewrite fmap_cons, !filter_cons.
  case_decide; simpl; auto.
Qed.
End Filter.

(** ** Sums of integers *)

Definition zsum (l : list Z) : Z := foldr Z.add 0 l.

Lemma zsum_app l k : zsum (l ++ k) = zsum l + zsum k.
Proof. induction l as [|x l IH]; simpl; [done|]. rewrite IH. lia. Qed.

Lemma zsum_perm l k : l ≡ₚ k -> zsum l = zsum k.
Proof. induction 1; simpl; lia. Qed.

Lemma zsum_nonneg l : Forall (fun x => 0 <= x) l -> 0 <= zsum l.
Proof. induction 1; simpl; lia. Qed.

Lemma zsum_cons x l : zsum (x :: l) = x + zsum l.
Proof. done. Qed.

Lemma zsum_const {A} (l : list A) c : zsum ((fun _ => c) <$> l) = c * Z.of_nat (length l).
Proof.
  induction l as [|x l IH]; [simpl; lia|]. rewrite fmap_cons, zsum_cons, IH.
  cbn [length]. lia.
Qed.

(** Saturating addition saturates the sum. *)
Lemma foldl_sat_add max l a :
  0 <= a <= max -> Forall (fun x => 0 <= x) l -> foldl (sat_add max) a l = Z.min max (a + zsum l).
Proof.
  intros Ha Hl. revert a Ha. induction Hl as [|x l Hx Hl IH]; intros a Ha; simpl; [lia|].
  pose proof (zsum_nonneg l Hl). rewrite IH by (unfold sat_add; lia). unfold sat_add, zsum in *. lia.
Qed.

(** ** Quorum arithmetic *)

(** Members of a committee of size [n] are the indices below [n]. *)
Definition committee (n : nat) : gset nat := set_seq 0 n.

Lemma elem_of_committee n i : i ∈ committee n <-> (i < n)%nat.
Proof. unfold committee. rewrite elem_of_set_seq. lia. Qed.

Lemma size_committee n : size (committee n) = n.
Proof. unfold committee. apply size_set_seq. Qed.

(** Two sets of more than two thirds of a committee share a member outside any
    set of less than a third of it. *)
Lemma quorum_intersection (n q : nat) (A B Byz : gset nat) :
  A ⊆ committee n -> B ⊆ committee n ->
  (2 * n < 3 * q)%nat -> (q <= size A)%nat -> (q <= size B)%nat ->
  (3 * size Byz < n)%nat ->
  exists i, i ∈ A /\ i ∈ B /\ i ∉ Byz.
Proof.
  intros HA HB Hq HqA HqB Hbyz.
  assert (HU : (size (A ∪ B) <= n)%nat).
  { transitivity (size (committee n)); [|by rewrite size_committee].
    apply subseteq_size. set_solver. }
  assert (HI : (size A + size B = size (A ∪ B) + size (A ∩ B))%nat).
  { assert (size (A ∪ B) = size A + size (B ∖ A))%nat as ->.
    { rewrite <-size_union by set_solver. f_equal.
      apply leibniz_equiv. intros x. destruct (decide (x ∈ A)); set_solver. }
    assert (size B = size (B ∖ A) + size (A ∩ B))%nat as ->; [|lia].
    rewrite <-size_union by set_solver. f_equal.
    apply leibniz_equiv. intros x. destruct (decide (x ∈ A)); set_solver. }
  destruct (decide ((A ∩ B) ⊆ Byz)) as [Hsub|Hnsub].
  - apply subseteq_size in Hsub. lia.
  - destruct (set_choose_L ((A ∩ B) ∖ Byz)) as [i Hi]; [|set_solver].
    contradict Hnsub. intros x Hx. destruct (decide (x ∈ Byz)); set_solver.
Qed.
