(* ===== verification/Tendermint.v ===== *)
(** * The Tendermint state machine of one validator

    Model of [crates/ego-consensus-core/src/tendermint.rs]: the data, the
    message and timer handlers and the [progress] loop, one definition per
    function of the source.  The theorems about a single validator are in
    [TendermintFacts]; the ones about a network of validators are in
    [TendermintSafety]. *)
From S2P Require Import Prelude.
Local Open Scope Z_scope.

(** ** Data *)

(** [ValueId = [u8; 32]]. *)
Abbreviation ValueId := (list Z).

Definition ROUND_WINDOW : Z := 64.
Definition VALUES_PER_VOTER : nat := 4.

Inductive Step : Type :=
| StepPropose
| StepPrevote
| StepPrecommit.

Inductive VoteKind : Type :=
| Prevote
| Precommit.

Inductive Timer : Type :=
| TimerPropose
| TimerPrevote
| TimerPrecommit.

Inductive Action : Type :=
| ActPropose (round : Z) (pol_round : option Z) (value : option ValueId)
| ActVote (kind : VoteKind) (round : Z) (value : option ValueId)
| ActDecide (round : Z) (value : ValueId).

#[export] Instance Step_eq_dec : EqDecision Step.
Proof. solve_decision. Defined.
#[export] Instance VoteKind_eq_dec : EqDecision VoteKind.
Proof. solve_decision. Defined.
#[export] Instance Timer_eq_dec : EqDecision Timer.
Proof. solve_decision. Defined.
#[export] Instance Action_eq_dec : EqDecision Action.
Proof. solve_decision. Defined.

#[export] Instance VoteKind_countable : Countable VoteKind.
Proof.
  refine (inj_countable' (fun k => match k with Prevote => true | Precommit => false end)
            (fun b => if b : bool then Prevote else Precommit) _).
  by intros [].
Defined.
#[export] Instance Timer_countable : Countable Timer.
Proof.
  refine (inj_countable'
            (fun t => match t with
                      | TimerPropose => 0%nat | TimerPrevote => 1%nat | TimerPrecommit => 2%nat
                      end)
            (fun i => match i with
                      | 0%nat => TimerPropose | 1%nat => TimerPrevote | _ => TimerPrecommit
                      end) _).
  by intros [].
Defined.

Record Timeouts : Type := MkTimeouts {
  first_propose_ms : Z;
  propose_ms : Z;
  prevote_ms : Z;
  precommit_ms : Z;
  per_round_ms : Z;
  cap_ms : Z;
}.

(** [impl Default for Timeouts]. *)
Definition Timeouts_default : Timeouts :=
  {| first_propose_ms := 15000;
     propose_ms := 6000;
     prevote_ms := 3000;
     precommit_ms := 3000;
     per_round_ms := 1000;
     cap_ms := 60000 |}.

(** The [base] of [Timeouts::of]. *)
Definition timeouts_base (t : Timeouts) (timer : Timer) (round : Z) : Z :=
  match timer with
  | TimerPropose => if bool_decide (round = 0) then t.(first_propose_ms) else t.(propose_ms)
  | TimerPrevote => t.(prevote_ms)
  | TimerPrecommit => t.(precommit_ms)
  end.

(** [Timeouts::of]. *)
Definition timeouts_of (t : Timeouts) (timer : Timer) (round : Z) : Z :=
  let base := timeouts_base t timer round in
  Z.min (sat_add u64_max base (sat_mul u64_max t.(per_round_ms) round))
        (Z.max t.(cap_ms) base).

(** What a validator writes to disk and reads back after a restart. *)
Record Saved : Type := MkSaved {
  sv_height : Z;
  sv_round : Z;
  sv_step : Step;
  sv_locked : option (Z * ValueId);
  sv_valid : option (Z * ValueId);
  sv_sent : list (Z * VoteKind * option ValueId);
}.

Definition quorum (n : nat) : nat := (2 * n) `div` 3 + 1.
Definition skip_threshold (n : nat) : nat := (n - quorum n) + 1.

(** [Book = BTreeMap<u32, HashMap<usize, Vec<Option<ValueId>>>>]: per round, the
    values each voter has been seen to vote for. *)
Abbreviation Book := (gmap Z (gmap nat (list (option ValueId)))).

(** [record]: note a vote, at most [VALUES_PER_VOTER] distinct ones per voter. *)
Definition record (book : Book) (round : Z) (from : nat) (value : option ValueId) : Book :=
  let voters := default ∅ (book !! round) in
  let list := default [] (voters !! from) in
  let list' :=
    if bool_decide (value ∉ list) && bool_decide (length list < VALUES_PER_VOTER)%nat
    then list ++ [value] else list in
  <[round := <[from := list']> voters]> book.

(** The engine of one validator at one height. *)
Record Tendermint : Type := MkTendermint {
  tm_height : Z;
  tm_n : nat;
  tm_me : option nat;
  tm_timeouts : Timeouts;
  tm_round : Z;
  tm_step : Step;
  tm_locked : option (Z * ValueId);
  tm_valid : option (Z * ValueId);
  tm_proposals : gmap Z (ValueId * option Z);
  tm_validity : gmap ValueId bool;
  tm_prevotes : Book;
  tm_precommits : Book;
  tm_highest : gmap nat Z;
  tm_sent : gmap (Z * VoteKind) (option ValueId);
  tm_timers : list (Timer * Z * Z);
  tm_armed : gset (Timer * Z);
  tm_polka_done : gset Z;
  tm_decision : option (Z * ValueId);
  tm_started : bool;
  tm_resumed : bool;
  tm_carried : option ValueId;
}.

Definition set_round (v : Z) (s : Tendermint) : Tendermint :=
  MkTendermint (s.(tm_height)) (s.(tm_n)) (s.(tm_me)) (s.(tm_timeouts)) v (s.(tm_step))
    (s.(tm_locked)) (s.(tm_valid)) (s.(tm_proposals)) (s.(tm_validity)) (s.(tm_prevotes))
    (s.(tm_precommits)) (s.(tm_highest)) (s.(tm_sent)) (s.(tm_timers)) (s.(tm_armed))
    (s.(tm_polka_done)) (s.(tm_decision)) (s.(tm_started)) (s.(tm_resumed))
    (s.(tm_carried)).
Definition set_step (v : Step) (s : Tendermint) : Tendermint :=
  MkTendermint (s.(tm_height)) (s.(tm_n)) (s.(tm_me)) (s.(tm_timeouts)) (s.(tm_round)) v
    (s.(tm_locked)) (s.(tm_valid)) (s.(tm_proposals)) (s.(tm_validity)) (s.(tm_prevotes))
    (s.(tm_precommits)) (s.(tm_highest)) (s.(tm_sent)) (s.(tm_timers)) (s.(tm_armed))
    (s.(tm_polka_done)) (s.(tm_decision)) (s.(tm_started)) (s.(tm_resumed))
    (s.(tm_carried)).
Definition set_locked (v : option (Z * ValueId)) (s : Tendermint) : Tendermint :=
  MkTendermint (s.(tm_height)) (s.(tm_n)) (s.(tm_me)) (s.(tm_timeouts)) (s.(tm_round))
    (s.(tm_step)) v (s.(tm_valid)) (s.(tm_proposals)) (s.(tm_validity)) (s.(tm_prevotes))
    (s.(tm_precommits)) (s.(tm_highest)) (s.(tm_sent)) (s.(tm_timers)) (s.(tm_armed))
    (s.(tm_polka_done)) (s.(tm_decision)) (s.(tm_started)) (s.(tm_resumed))
    (s.(tm_carried)).
Definition set_valid (v : option (Z * ValueId)) (s : Tendermint) : Tendermint :=
  MkTendermint (s.(tm_height)) (s.(tm_n)) (s.(tm_me)) (s.(tm_timeouts)) (s.(tm_round))
    (s.(tm_step)) (s.(tm_locked)) v (s.(tm_proposals)) (s.(tm_validity)) (s.(tm_prevotes))
    (s.(tm_precommits)) (s.(tm_highest)) (s.(tm_sent)) (s.(tm_timers)) (s.(tm_armed))
    (s.(tm_polka_done)) (s.(tm_decision)) (s.(tm_started)) (s.(tm_resumed))
    (s.(tm_carried)).
Definition set_proposals (v : gmap Z (ValueId * option Z)) (s : Tendermint) : Tendermint :=
  MkTendermint (s.(tm_height)) (s.(tm_n)) (s.(tm_me)) (s.(tm_timeouts)) (s.(tm_round))
    (s.(tm_step)) (s.(tm_locked)) (s.(tm_valid)) v (s.(tm_validity)) (s.(tm_prevotes))
    (s.(tm_precommits)) (s.(tm_highest)) (s.(tm_sent)) (s.(tm_timers)) (s.(tm_armed))
    (s.(tm_polka_done)) (s.(tm_decision)) (s.(tm_started)) (s.(tm_resumed))
    (s.(tm_carried)).
Definition set_validity (v : gmap ValueId bool) (s : Tendermint) : Tendermint :=
  MkTendermint (s.(tm_height)) (s.(tm_n)) (s.(tm_me)) (s.(tm_timeouts)) (s.(tm_round))
    (s.(tm_step)) (s.(tm_locked)) (s.(tm_valid)) (s.(tm_proposals)) v (s.(tm_prevotes))
    (s.(tm_precommits)) (s.(tm_highest)) (s.(tm_sent)) (s.(tm_timers)) (s.(tm_armed))
    (s.(tm_polka_done)) (s.(tm_decision)) (s.(tm_started)) (s.(tm_resumed))
    (s.(tm_carried)).
Definition set_prevotes (v : Book) (s : Tendermint) : Tendermint :=
  MkTendermint (s.(tm_height)) (s.(tm_n)) (s.(tm_me)) (s.(tm_timeouts)) (s.(tm_round))
    (s.(tm_step)) (s.(tm_locked)) (s.(tm_valid)) (s.(tm_proposals)) (s.(tm_validity)) v
    (s.(tm_precommits)) (s.(tm_highest)) (s.(tm_sent)) (s.(tm_timers)) (s.(tm_armed))
    (s.(tm_polka_done)) (s.(tm_decision)) (s.(tm_started)) (s.(tm_resumed))
    (s.(tm_carried)).
Definition set_precommits (v : Book) (s : Tendermint) : Tendermint :=
  MkTendermint (s.(tm_height)) (s.(tm_n)) (s.(tm_me)) (s.(tm_timeouts)) (s.(tm_round))
    (s.(tm_step)) (s.(tm_locked)) (s.(tm_valid)) (s.(tm_proposals)) (s.(tm_validity))
    (s.(tm_prevotes)) v (s.(tm_highest)) (s.(tm_sent)) (s.(tm_timers)) (s.(tm_armed))
    (s.(tm_polka_done)) (s.(tm_decision)) (s.(tm_started)) (s.(tm_resumed))
    (s.(tm_carried)).
Definition set_highest (v : gmap nat Z) (s : Tendermint) : Tendermint :=
  MkTendermint (s.(tm_height)) (s.(tm_n)) (s.(tm_me)) (s.(tm_timeouts)) (s.(tm_round))
    (s.(tm_step)) (s.(tm_locked)) (s.(tm_valid)) (s.(tm_proposals)) (s.(tm_validity))
    (s.(tm_prevotes)) (s.(tm_precommits)) v (s.(tm_sent)) (s.(tm_timers)) (s.(tm_armed))
    (s.(tm_polka_done)) (s.(tm_decision)) (s.(tm_started)) (s.(tm_resumed))
    (s.(tm_carried)).
Definition set_sent (v : gmap (Z * VoteKind) (option ValueId)) (s : Tendermint) : Tendermint :=
  MkTendermint (s.(tm_height)) (s.(tm_n)) (s.(tm_me)) (s.(tm_timeouts)) (s.(tm_round))
    (s.(tm_step)) (s.(tm_locked)) (s.(tm_valid)) (s.(tm_proposals)) (s.(tm_validity))
    (s.(tm_prevotes)) (s.(tm_precommits)) (s.(tm_highest)) v (s.(tm_timers)) (s.(tm_armed))
    (s.(tm_polka_done)) (s.(tm_decision)) (s.(tm_started)) (s.(tm_resumed))
    (s.(tm_carried)).
Definition set_timers (v : list (Timer * Z * Z)) (s : Tendermint) : Tendermint :=
  MkTendermint (s.(tm_height)) (s.(tm_n)) (s.(tm_me)) (s.(tm_timeouts)) (s.(tm_round))
    (s.(tm_step)) (s.(tm_locked)) (s.(tm_valid)) (s.(tm_proposals)) (s.(tm_validity))
    (s.(tm_prevotes)) (s.(tm_precommits)) (s.(tm_highest)) (s.(tm_sent)) v (s.(tm_armed))
    (s.(tm_polka_done)) (s.(tm_decision)) (s.(tm_started)) (s.(tm_resumed))
    (s.(tm_carried)).
Definition set_armed (v : gset (Timer * Z)) (s : Tendermint) : Tendermint :=
  MkTendermint (s.(tm_height)) (s.(tm_n)) (s.(tm_me)) (s.(tm_timeouts)) (s.(tm_round))
    (s.(tm_step)) (s.(tm_locked)) (s.(tm_valid)) (s.(tm_proposals)) (s.(tm_validity))
    (s.(tm_prevotes)) (s.(tm_precommits)) (s.(tm_highest)) (s.(tm_sent)) (s.(tm_timers)) v
    (s.(tm_polka_done)) (s.(tm_decision)) (s.(tm_started)) (s.(tm_resumed))
    (s.(tm_carried)).
Definition set_polka_done (v : gset Z) (s : Tendermint) : Tendermint :=
  MkTendermint (s.(tm_height)) (s.(tm_n)) (s.(tm_me)) (s.(tm_timeouts)) (s.(tm_round))
    (s.(tm_step)) (s.(tm_locked)) (s.(tm_valid)) (s.(tm_proposals)) (s.(tm_validity))
    (s.(tm_prevotes)) (s.(tm_precommits)) (s.(tm_highest)) (s.(tm_sent)) (s.(tm_timers))
    (s.(tm_armed)) v (s.(tm_decision)) (s.(tm_started)) (s.(tm_resumed)) (s.(tm_carried)).
Definition set_decision (v : option (Z * ValueId)) (s : Tendermint) : Tendermint :=
  MkTendermint (s.(tm_height)) (s.(tm_n)) (s.(tm_me)) (s.(tm_timeouts)) (s.(tm_round))
    (s.(tm_step)) (s.(tm_locked)) (s.(tm_valid)) (s.(tm_proposals)) (s.(tm_validity))
    (s.(tm_prevotes)) (s.(tm_precommits)) (s.(tm_highest)) (s.(tm_sent)) (s.(tm_timers))
    (s.(tm_armed)) (s.(tm_polka_done)) v (s.(tm_started)) (s.(tm_resumed)) (s.(tm_carried)).
Definition set_started (v : bool) (s : Tendermint) : Tendermint :=
  MkTendermint (s.(tm_height)) (s.(tm_n)) (s.(tm_me)) (s.(tm_timeouts)) (s.(tm_round))
    (s.(tm_step)) (s.(tm_locked)) (s.(tm_valid)) (s.(tm_proposals)) (s.(tm_validity))
    (s.(tm_prevotes)) (s.(tm_precommits)) (s.(tm_highest)) (s.(tm_sent)) (s.(tm_timers))
    (s.(tm_armed)) (s.(tm_polka_done)) (s.(tm_decision)) v (s.(tm_resumed))
    (s.(tm_carried)).
Definition set_resumed (v : bool) (s : Tendermint) : Tendermint :=
  MkTendermint (s.(tm_height)) (s.(tm_n)) (s.(tm_me)) (s.(tm_timeouts)) (s.(tm_round))
    (s.(tm_step)) (s.(tm_locked)) (s.(tm_valid)) (s.(tm_proposals)) (s.(tm_validity))
    (s.(tm_prevotes)) (s.(tm_precommits)) (s.(tm_highest)) (s.(tm_sent)) (s.(tm_timers))
    (s.(tm_armed)) (s.(tm_polka_done)) (s.(tm_decision)) (s.(tm_started)) v
    (s.(tm_carried)).
Definition set_carried (v : option ValueId) (s : Tendermint) : Tendermint :=
  MkTendermint (s.(tm_height)) (s.(tm_n)) (s.(tm_me)) (s.(tm_timeouts)) (s.(tm_round))
    (s.(tm_step)) (s.(tm_locked)) (s.(tm_valid)) (s.(tm_proposals)) (s.(tm_validity))
    (s.(tm_prevotes)) (s.(tm_precommits)) (s.(tm_highest)) (s.(tm_sent)) (s.(tm_timers))
    (s.(tm_armed)) (s.(tm_polka_done)) (s.(tm_decision)) (s.(tm_started)) (s.(tm_resumed))
    v.

(** ** Construction, restart and queries *)

Definition new (height : Z) (n : nat) (me : option nat) (timeouts : Timeouts) : Tendermint :=
  {| tm_height := height;
     tm_n := n;
     tm_me := i ← me; if bool_decide (i < n)%nat then Some i else None;
     tm_timeouts := timeouts;
     tm_round := 0;
     tm_step := StepPropose;
     tm_locked := None;
     tm_valid := None;
     tm_proposals := ∅;
     tm_validity := ∅;
     tm_prevotes := ∅;
     tm_precommits := ∅;
     tm_highest := ∅;
     tm_sent := ∅;
     tm_timers := [];
     tm_armed := ∅;
     tm_polka_done := ∅;
     tm_decision := None;
     tm_started := false;
     tm_resumed := false;
     tm_carried := None |}.

Definition carry (value : ValueId) (s : Tendermint) : Tendermint :=
  if s.(tm_started) then s else set_carried (Some value) s.

(** [book] and the write through [book_mut]. *)
Definition book (kind : VoteKind) (s : Tendermint) : Book :=
  match kind with
  | Prevote => s.(tm_prevotes)
  | Precommit => s.(tm_precommits)
  end.

Definition book_mut (kind : VoteKind) (f : Book -> Book) (s : Tendermint) : Tendermint :=
  match kind with
  | Prevote => set_prevotes (f s.(tm_prevotes)) s
  | Precommit => set_precommits (f s.(tm_precommits)) s
  end.

(** One iteration of the loop of [restore]. *)
Definition restore_sent (s : Tendermint) (e : Z * VoteKind * option ValueId) : Tendermint :=
  let '(round, kind, value) := e in
  let s := set_sent (<[(round, kind) := value]> s.(tm_sent)) s in
  match s.(tm_me) with
  | Some me => book_mut kind (fun b => record b round me value) s
  | None => s
  end.

Definition restore (saved : Saved) (s : Tendermint) : Tendermint :=
  if bool_decide (saved.(sv_height) <> s.(tm_height)) || s.(tm_started) then s
  else
    let s := set_round saved.(sv_round) s in
    let s := set_step saved.(sv_step) s in
    let s := set_locked saved.(sv_locked) s in
    let s := set_valid saved.(sv_valid) s in
    let s := foldl restore_sent s saved.(sv_sent) in
    set_resumed true s.

Definition kind_index (k : VoteKind) : Z :=
  match k with
  | Prevote => 0
  | Precommit => 1
  end.

(** The derived order of [(u32, VoteKind)]. *)
Definition sent_leb (a b : Z * VoteKind * option ValueId) : bool :=
  let '(ra, ka, _) := a in
  let '(rb, kb, _) := b in
  (ra <? rb) || ((ra =? rb) && (kind_index ka <=? kind_index kb)).

Section Engine.
Context `{HashOrder}.

Definition saved (s : Tendermint) : Saved :=
  let sent := map (fun '((r, k), v) => (r, k, v)) (hash_iter s.(tm_sent)) in
  let sent := stable_sort sent_leb sent in
  {| sv_height := s.(tm_height);
     sv_round := s.(tm_round);
     sv_step := s.(tm_step);
     sv_locked := s.(tm_locked);
     sv_valid := s.(tm_valid);
     sv_sent := sent |}.

Definition proposer (round : Z) (s : Tendermint) : nat :=
  if bool_decide (s.(tm_n) = 0%nat) then 0%nat
  else Z.to_nat (wrapping_add64 s.(tm_height) round mod Z.of_nat s.(tm_n)).

(** [iter().min()]. *)
Definition list_min (l : list Z) : option Z :=
  match l with
  | [] => None
  | x :: l => Some (foldl Z.min x l)
  end.

Definition next_deadline (s : Tendermint) : option Z :=
  list_min (map (fun '(_, _, at_) => at_) s.(tm_timers)).

(** [count]: how many voters have been seen to vote for [value]. *)
Definition count (kind : VoteKind) (round : Z) (value : option ValueId) (s : Tendermint) : nat :=
  match book kind s !! round with
  | None => 0
  | Some m => length (filter (fun '(_, l) => value ∈ l) (hash_iter m))
  end.

Definition count_any (kind : VoteKind) (round : Z) (s : Tendermint) : nat :=
  match book kind s !! round with
  | None => 0
  | Some m => size m
  end.

Definition votes_for (kind : VoteKind) (round : Z) (value : option ValueId) (s : Tendermint) : nat :=
  count kind round value s.

Definition voters_for (kind : VoteKind) (round : Z) (value : option ValueId) (s : Tendermint)
    : list nat :=
  let out :=
    match book kind s !! round with
    | None => []
    | Some m => (filter (fun '(_, l) => value ∈ l) (hash_iter m)).*1
    end in
  stable_sort Nat.leb out.

(** The inner loops of [value_with_quorum]: [*tally.entry(v).or_default() += 1]. *)
Definition tally_add (tally : gmap ValueId nat) (v : ValueId) : gmap ValueId nat :=
  <[v := S (default 0%nat (tally !! v))]> tally.

Definition tally_of (m : gmap nat (list (option ValueId))) : gmap ValueId nat :=
  foldl (fun tally l => foldl tally_add tally (omap id l)) ∅ (hash_iter m).*2.

Definition value_with_quorum (kind : VoteKind) (round : Z) (s : Tendermint) : option ValueId :=
  m ← book kind s !! round;
  let q := quorum s.(tm_n) in
  fst <$> (list_find (fun '(_, c) => q <= c)%nat (hash_iter (tally_of m)) ≫= fun '(_, e) => Some e).

(** The guard [validity.get(&v) == Some(&true) && carried.map_or(true, |c| c == v)]. *)
Definition acceptable (v : ValueId) (s : Tendermint) : bool :=
  bool_decide (s.(tm_validity) !! v = Some true) &&
  map_or_true s.(tm_carried) (fun c => bool_decide (c = v)).

(** [find_decision]: the first precommit round, in ascending order, whose value
    has a quorum and is acceptable. *)
Fixpoint find_decision_in (rounds : list Z) (s : Tendermint) : option (Z * ValueId) :=
  match rounds with
  | [] => None
  | round :: rounds =>
      match value_with_quorum Precommit round s with
      | Some v => if acceptable v s then Some (round, v) else find_decision_in rounds s
      | None => find_decision_in rounds s
      end
  end.

Definition find_decision (s : Tendermint) : option (Z * ValueId) :=
  find_decision_in (btree_iter s.(tm_precommits)).*1 s.

Definition skip_target (s : Tendermint) : option Z :=
  let rounds := (filter (fun '(who, _) => Some who <> s.(tm_me)) (hash_iter s.(tm_highest))).*2 in
  let rounds := stable_sort (fun a b => b <=? a) rounds in
  target ← rounds !! (skip_threshold s.(tm_n) - 1)%nat;
  if bool_decide (s.(tm_round) < target) then Some target else None.

(** ** The moves of the state machine *)

Definition note_round (from : nat) (round : Z) (s : Tendermint) : Tendermint :=
  let e := default round (s.(tm_highest) !! from) in
  set_highest (<[from := if bool_decide (e < round) then round else e]> s.(tm_highest)) s.

Definition arm (timer : Timer) (round now : Z) (s : Tendermint) : Tendermint :=
  if bool_decide ((timer, round) ∈ s.(tm_armed)) then s
  else
    let s := set_armed ({[(timer, round)]} ∪ s.(tm_armed)) s in
    let at_ := sat_add u64_max now (timeouts_of s.(tm_timeouts) timer round) in
    set_timers (s.(tm_timers) ++ [(timer, round, at_)]) s.

Definition start_round (now round : Z) (s : Tendermint) (out : list Action)
    : Tendermint * list Action :=
  let s := set_round round s in
  let s := set_step StepPropose s in
  let out :=
    if bool_decide (Some (proposer round s) = s.(tm_me)) &&
       bool_decide (s.(tm_sent) !! (round, Prevote) = None)
    then out ++ [ActPropose round (fst <$> s.(tm_valid))
                   (match snd <$> s.(tm_valid) with Some v => Some v | None => s.(tm_carried) end)]
    else out in
  (arm TimerPropose round now s, out).

Definition cast (kind : VoteKind) (value : option ValueId) (s : Tendermint) (out : list Action)
    : Tendermint * list Action :=
  match s.(tm_me) with
  | None => (s, out)
  | Some me =>
      let round := s.(tm_round) in
      if bool_decide (s.(tm_sent) !! (round, kind) <> None) then (s, out)
      else
        let s := set_sent (<[(round, kind) := value]> s.(tm_sent)) s in
        let s := book_mut kind (fun b => record b round me value) s in
        (s, out ++ [ActVote kind round value])
  end.

(** ** The [progress] loop *)

(** What an iteration of a loop ends in. *)
Inductive Flow : Type :=
| Continue (s : Tendermint) (out : list Action)
| Return (s : Tendermint) (out : list Action).

(** Lines 456-462: take a decision if there is one. *)
Definition try_decide (s : Tendermint) (out : list Action) : Tendermint * list Action :=
  match s.(tm_decision) with
  | Some _ => (s, out)
  | None =>
      match find_decision s with
      | None => (s, out)
      | Some d => (set_timers [] (set_decision (Some d) s), out ++ [ActDecide d.1 d.2])
      end
  end.

(** Lines 472-490: the verdict on the proposal of the current round, [None]
    while there is nothing to vote on. *)
Definition proposal_verdict (s : Tendermint) : option (ValueId * bool) :=
  let q := quorum s.(tm_n) in
  '(v, pol) ← s.(tm_proposals) !! s.(tm_round);
  ok ← s.(tm_validity) !! v;
  let ok := ok && map_or_true s.(tm_carried) (fun c => bool_decide (c = v)) in
  match pol with
  | None => Some (v, ok && map_or_true s.(tm_locked) (fun '(_, lv) => bool_decide (lv = v)))
  | Some vr =>
      if bool_decide (q <= count Prevote vr (Some v) s)%nat
      then Some (v, ok && map_or_true s.(tm_locked)
                            (fun '(lr, lv) => bool_decide (lr <= vr) || bool_decide (lv = v)))
      else None
  end.

(** Lines 494-507: the value of a quorum of prevotes of the current round,
    if it is new and acceptable. *)
Definition polka_value (s : Tendermint) : option ValueId :=
  if bool_decide (s.(tm_step) <> StepPropose) && bool_decide (s.(tm_round) ∉ s.(tm_polka_done))
  then
    v ← value_with_quorum Prevote s.(tm_round) s;
    if acceptable v s then Some v else None
  else None.

(** Lines 497-503. *)
Definition on_polka (v : ValueId) (s : Tendermint) (out : list Action)
    : Tendermint * list Action :=
  let round := s.(tm_round) in
  let s := set_polka_done ({[round]} ∪ s.(tm_polka_done)) s in
  let '(s, out) :=
    if bool_decide (s.(tm_step) = StepPrevote) then
      let s := set_locked (Some (round, v)) s in
      let '(s, out) := cast Precommit (Some v) s out in
      (set_step StepPrecommit s, out)
    else (s, out) in
  (set_valid (Some (round, v)) s, out).

(** Lines 491-516, once the vote on the proposal is out of the way. *)
Definition progress_votes (now : Z) (s : Tendermint) (out : list Action) : Flow :=
  let q := quorum s.(tm_n) in
  let round := s.(tm_round) in
  let s :=
    if bool_decide (s.(tm_step) = StepPrevote) && bool_decide (q <= count_any Prevote round s)%nat
    then arm TimerPrevote round now s else s in
  match polka_value s with
  | Some v => let '(s, out) := on_polka v s out in Continue s out
  | None =>
      if bool_decide (s.(tm_step) = StepPrevote) &&
         bool_decide (q <= count Prevote round None s)%nat
      then
        let '(s, out) := cast Precommit None s out in
        Continue (set_step StepPrecommit s) out
      else
        let s :=
          if bool_decide (q <= count_any Precommit round s)%nat
          then arm TimerPrecommit round now s else s in
        Return s out
  end.

(** One iteration of the loop of [progress]. *)
Definition progress_body (now : Z) (s : Tendermint) (out : list Action) : Flow :=
  let '(s, out) := try_decide s out in
  if bool_decide (s.(tm_decision) <> None) || bool_decide (s.(tm_me) = None) ||
     negb s.(tm_started) || bool_decide (s.(tm_n) = 0%nat)
  then Return s out
  else
    match skip_target s with
    | Some r => let '(s, out) := start_round now r s out in Continue s out
    | None =>
        match (if bool_decide (s.(tm_step) = StepPropose) then proposal_verdict s else None) with
        | Some (v, accept) =>
            let '(s, out) := cast Prevote (if accept : bool then Some v else None) s out in
            Continue (set_step StepPrevote s) out
        | None => progress_votes now s out
        end
    end.

Fixpoint progress_loop (fuel : nat) (now : Z) (s : Tendermint) (out : list Action)
    : option (Tendermint * list Action) :=
  match fuel with
  | O => None
  | S fuel =>
      match progress_body now s out with
      | Continue s out => progress_loop fuel now s out
      | Return s out => Some (s, out)
      end
  end.

(** Five iterations are enough from every state ([progress_terminates]). *)
Definition PROGRESS_FUEL : nat := 5.

Definition progress (now : Z) (s : Tendermint) (out : list Action) : Tendermint * list Action :=
  default (s, out) (progress_loop PROGRESS_FUEL now s out).

(** ** Handlers *)

Definition start (now : Z) (s : Tendermint) : Tendermint * list Action :=
  let out := [] in
  if s.(tm_started) then (s, out)
  else
    let s := set_started true s in
    let '(s, out) :=
      if bool_decide (s.(tm_me) <> None) && bool_decide (0 < s.(tm_n))%nat then
        match s.(tm_resumed), s.(tm_step) with
        | false, _ | true, StepPropose => start_round now s.(tm_round) s out
        | true, StepPrevote => (arm TimerPrevote s.(tm_round) now s, out)
        | true, StepPrecommit => (arm TimerPrecommit s.(tm_round) now s, out)
        end
      else (s, out) in
    progress now s out.

(** [entry(k).or_insert(v)]. *)
Definition or_insert {K A} `{Countable K} (k : K) (a : A) (m : gmap K A) : gmap K A :=
  match m !! k with
  | Some _ => m
  | None => <[k := a]> m
  end.

Definition in_window (round : Z) (s : Tendermint) : bool :=
  bool_decide (round <= sat_add u32_max s.(tm_round) ROUND_WINDOW).

Definition on_proposal (now round : Z) (from : nat) (value : ValueId) (pol_round : option Z)
    (valid : bool) (s : Tendermint) : Tendermint * list Action :=
  let out := [] in
  let s :=
    if bool_decide (from < s.(tm_n))%nat && bool_decide (from = proposer round s) &&
       map_or_true pol_round (fun p => bool_decide (p < round)) && in_window round s
    then
      let s := set_proposals (or_insert round (value, pol_round) s.(tm_proposals)) s in
      let s := set_validity (or_insert value valid s.(tm_validity)) s in
      note_round from round s
    else s in
  progress now s out.

Definition on_value (now : Z) (value : ValueId) (valid : bool) (s : Tendermint)
    : Tendermint * list Action :=
  let s := set_validity (or_insert value valid s.(tm_validity)) s in
  progress now s [].

Definition on_vote (now : Z) (kind : VoteKind) (round : Z) (from : nat) (value : option ValueId)
    (s : Tendermint) : Tendermint * list Action :=
  let s :=
    if bool_decide (from < s.(tm_n))%nat && bool_decide (Some from <> s.(tm_me)) then
      let s := note_round from round s in
      if in_window round s then book_mut kind (fun b => record b round from value) s else s
    else s in
  progress now s [].

(** The [match] of the loop of [tick]. *)
Definition fire (now : Z) (timer : Timer) (round : Z) (s : Tendermint) (out : list Action)
    : Tendermint * list Action :=
  match timer with
  | TimerPropose =>
      if bool_decide (s.(tm_round) = round) && bool_decide (s.(tm_step) = StepPropose) then
        let '(s, out) := cast Prevote None s out in (set_step StepPrevote s, out)
      else (s, out)
  | TimerPrevote =>
      if bool_decide (s.(tm_round) = round) && bool_decide (s.(tm_step) = StepPrevote) then
        let '(s, out) := cast Precommit None s out in (set_step StepPrecommit s, out)
      else (s, out)
  | TimerPrecommit =>
      if bool_decide (s.(tm_round) = round) then
        start_round now (sat_add u32_max round 1) s out
      else (s, out)
  end.

(** The loop of [tick] over the timers that are due. *)
Fixpoint fire_due (now : Z) (due : list (Timer * Z * Z)) (s : Tendermint) (out : list Action)
    : Tendermint * list Action :=
  match due with
  | [] => (s, out)
  | (timer, round, _) :: due =>
      if bool_decide (s.(tm_decision) <> None) then (s, out)
      else
        let '(s, out) := fire now timer round s out in
        let '(s, out) := progress now s out in
        fire_due now due s out
  end.

(** The order of [sort_by_key(|t| (t.2, t.1))]. *)
Definition timer_leb (a b : Timer * Z * Z) : bool :=
  let '(_, ra, ta) := a in
  let '(_, rb, tb) := b in
  (ta <? tb) || ((ta =? tb) && (ra <=? rb)).

Definition tick (now : Z) (s : Tendermint) : Tendermint * list Action :=
  let due := filter (fun '(_, _, at_) => at_ <= now) s.(tm_timers) in
  let keep := filter (fun '(_, _, at_) => ~ at_ <= now) s.(tm_timers) in
  let s := set_timers keep s in
  let '(s, out) := fire_due now (stable_sort timer_leb due) s [] in
  progress now s out.

End Engine.
