(* ===== verification/TendermintFacts.v ===== *)
(** * One validator: facts about the Tendermint engine

    Counting of votes, the moves the handlers are made of, termination and
    idempotence of [progress], and the round trip through [Saved]. *)
From S2P Require Import Prelude Tendermint.
Local Open Scope Z_scope.

(** ** Vote books *)

(** The values [from] has been seen to vote for in [round]. *)
Definition book_list (b : Book) (round : Z) (from : nat) : list (option ValueId) :=
  default [] (default ∅ (b !! round) !! from).

(** A book holds at most [VALUES_PER_VOTER] distinct values per voter, and only
    members of the committee vote. *)
Definition book_ok (n : nat) (b : Book) : Prop :=
  forall r m i l, b !! r = Some m -> m !! i = Some l ->
    (i < n)%nat /\ NoDup l /\ (length l <= VALUES_PER_VOTER)%nat.

Lemma book_list_record b r i v r' i' :
  book_list (record b r i v) r' i' =
    if bool_decide (r = r' /\ i = i') then
      let l := book_list b r i in
      if bool_decide (v ∉ l) && bool_decide (length l < VALUES_PER_VOTER)%nat
      then l ++ [v] else l
    else book_list b r' i'.
Proof.
  unfold book_list, record. destruct (decide (r = r')) as [<-|Hr].
  - rewrite lookup_insert_eq. simpl. destruct (decide (i = i')) as [<-|Hi].
    + rewrite lookup_insert_eq. simpl. by rewrite (bool_decide_true (r = r /\ i = i)).
    + rewrite lookup_insert_ne, bool_decide_false by naive_solver. done.
  - rewrite lookup_insert_ne, bool_decide_false by naive_solver. done.
Qed.

(** A value in a list after [record] was there before, or is the one recorded. *)
Lemma elem_of_book_record b r i v r' i' v' :
  v' ∈ book_list (record b r i v) r' i' ->
  v' ∈ book_list b r' i' \/ (r' = r /\ i' = i /\ v' = v).
Proof.
  rewrite book_list_record. case_bool_decide as E; [|naive_solver].
  destruct E as [<- <-]. simpl. destruct (_ && _); [|naive_solver].
  rewrite elem_of_app, list_elem_of_singleton. naive_solver.
Qed.

Lemma elem_of_book_record_mono b r i v r' i' v' :
  v' ∈ book_list b r' i' -> v' ∈ book_list (record b r i v) r' i'.
Proof.
  rewrite book_list_record. case_bool_decide as E; [|done].
  destruct E as [<- <-]. simpl. destruct (_ && _); [|done]. set_solver.
Qed.

Lemma book_list_ok n b r i :
  book_ok n b ->
  NoDup (book_list b r i) /\ (length (book_list b r i) <= VALUES_PER_VOTER)%nat.
Proof.
  intros Hb. unfold book_list.
  destruct (b !! r) as [m|] eqn:Em; simpl; [destruct (m !! i) as [l|] eqn:El; simpl|].
  - by destruct (Hb _ _ _ _ Em El) as (_ & ? & ?).
  - split; [constructor|simpl; lia].
  - rewrite lookup_empty. split; [constructor|simpl; lia].
Qed.

Lemma record_ok n b r i v :
  book_ok n b -> (i < n)%nat -> book_ok n (record b r i v).
Proof.
  intros Hb Hi r' m i' l. unfold record.
  rewrite lookup_insert. case_decide as Er; [|apply Hb].
  intros [= <-]. subst r'. rewrite lookup_insert. case_decide as Ei.
  - subst i'. intros [= <-]. split; [done|].
    destruct (book_list_ok n b r i Hb) as [Hnd Hlen]. unfold book_list in *.
    case_bool_decide as Hnin; simpl; [|done].
    case_bool_decide as Hlt; simpl; [|done]. split.
    + apply NoDup_app. split_and!; [done| |apply NoDup_singleton].
      intros x Hx. rewrite list_elem_of_singleton. naive_solver.
    + rewrite length_app. simpl. unfold VALUES_PER_VOTER in *. lia.
  - intros Hl. destruct (b !! r) as [m'|] eqn:Em; simpl in Hl; [by eapply Hb|].
    by rewrite lookup_empty in Hl.
Qed.

(** ** Counting *)

Section Counting.
Context `{HashOrder}.

(** The voters seen to vote for [v] in [round]. *)
Definition voter_set (b : Book) (round : Z) (v : option ValueId) : gset nat :=
  dom (filter (fun e : nat * list (option ValueId) => let '(_, l) := e in v ∈ l)
         (default ∅ (b !! round))).

Lemma elem_of_voter_set b r v i : i ∈ voter_set b r v <-> v ∈ book_list b r i.
Proof.
  unfold voter_set, book_list. rewrite elem_of_dom. unfold is_Some.
  destruct (default ∅ (b !! r) !! i) as [l|] eqn:E; simpl; split.
  - intros [x [Hx1 Hx2]%map_lookup_filter_Some]. simplify_eq. done.
  - intros Hv. exists l. apply map_lookup_filter_Some.
    split; [exact E|exact Hv].
  - intros [x [Hx1 Hx2]%map_lookup_filter_Some]. simplify_eq.
  - intros Hv. by apply not_elem_of_nil in Hv.
Qed.

Lemma voter_set_committee n b r v : book_ok n b -> voter_set b r v ⊆ committee n.
Proof.
  intros Hb i. rewrite elem_of_voter_set, elem_of_committee. unfold book_list.
  destruct (b !! r) as [m|] eqn:Em; simpl; [|rewrite lookup_empty; set_solver].
  destruct (m !! i) as [l|] eqn:El; simpl; [|set_solver].
  intros _. by destruct (Hb _ _ _ _ Em El).
Qed.

(** [count] is the number of those voters. *)
Lemma count_voter_set kind r v s : count kind r v s = size (voter_set (book kind s) r v).
Proof.
  unfold count, voter_set. destruct (book kind s !! r) as [m|]; simpl.
  - rewrite size_dom, <-length_map_to_list.
    by rewrite hash_iter_perm, map_to_list_filter_perm.
  - by rewrite map_filter_empty, dom_empty_L, size_empty.
Qed.

(** *** The tally of [value_with_quorum] *)

Definition tally_get (t : gmap ValueId nat) (v : ValueId) : nat := default 0%nat (t !! v).

Lemma tally_get_add t v v' :
  tally_get (tally_add t v) v' = (tally_get t v' + if decide (v' = v) then 1 else 0)%nat.
Proof.
  unfold tally_get, tally_add. case_decide as E; [subst v'|].
  - rewrite lookup_insert_eq. simpl. lia.
  - rewrite lookup_insert_ne by done. lia.
Qed.

(** A voter's list adds one to a value it contains, and nothing to another. *)
Lemma tally_get_list t (l : list (option ValueId)) v :
  NoDup l ->
  tally_get (foldl tally_add t (omap id l)) v =
    (tally_get t v + if decide (Some v ∈ l) then 1 else 0)%nat.
Proof.
  intros Hl. revert t; induction Hl as [|o l Hnin _ IH]; intros t; [simpl; lia|].
  destruct o as [w|]; cbn [omap list_omap id foldl]; rewrite IH.
  - rewrite tally_get_add. repeat case_decide; set_solver by lia.
  - repeat case_decide; set_solver by lia.
Qed.

Lemma tally_get_lists (ls : list (list (option ValueId))) t v :
  Forall NoDup ls ->
  tally_get (foldl (fun t l => foldl tally_add t (omap id l)) t ls) v =
    (tally_get t v + length (filter (fun l => Some v ∈ l) ls))%nat.
Proof.
  intros Hls. revert t; induction Hls as [|l ls Hl _ IH]; intros t; simpl; [lia|].
  rewrite IH, tally_get_list by done. rewrite filter_cons.
  destruct (decide (Some v ∈ l)); simpl; lia.
Qed.

Lemma length_filter_snd {K A} (P : A -> Prop) `{forall x, Decision (P x)} (l : list (K * A)) :
  length (filter (fun e : K * A => let '(_, a) := e in P a) l) = length (filter P l.*2).
Proof.
  induction l as [|[k a] l IH]; simpl; [done|]. rewrite !filter_cons.
  repeat case_decide; simpl; by rewrite ?IH.
Qed.

Lemma tally_of_count kind r m v s n :
  book_ok n (book kind s) -> book kind s !! r = Some m ->
  tally_get (tally_of m) v = count kind r (Some v) s.
Proof.
  intros Hb Hm. unfold tally_of, count. rewrite Hm, tally_get_lists.
  - rewrite length_filter_snd. unfold tally_get at 1. by rewrite lookup_empty.
  - apply Forall_forall. intros l [[i l'] [-> Hl]]%list_elem_of_fmap.
    apply elem_of_hash_iter in Hl. simpl. by destruct (Hb _ _ _ _ Hm Hl) as (_ & ? & _).
Qed.

(** [value_with_quorum] returns a value a quorum voted for, and returns one
    whenever there is one. *)
Lemma value_with_quorum_Some n kind r v s :
  book_ok n (book kind s) ->
  value_with_quorum kind r s = Some v -> (quorum (tm_n s) <= count kind r (Some v) s)%nat.
Proof.
  intros Hb. unfold value_with_quorum.
  destruct (book kind s !! r) as [m|] eqn:Hm; simpl; [|done].
  destruct (list_find _ _) as [[j [v' c]]|] eqn:Hf; simpl; [|done].
  intros [= <-]. apply list_find_Some in Hf as (Hj & Hc & _).
  apply list_elem_of_lookup_2, elem_of_hash_iter in Hj.
  rewrite <-(tally_of_count kind r m v' s n) by done. unfold tally_get. by rewrite Hj.
Qed.

Lemma value_with_quorum_None n kind r v s :
  book_ok n (book kind s) ->
  value_with_quorum kind r s = None -> (count kind r (Some v) s < quorum (tm_n s))%nat.
Proof.
  intros Hb. unfold value_with_quorum.
  destruct (book kind s !! r) as [m|] eqn:Hm; simpl.
  - rewrite <-(tally_of_count kind r m v s n) by done.
    destruct (list_find _ _) as [[j e]|] eqn:Hf; simpl; [done|]. intros _.
    apply list_find_None in Hf. unfold tally_get.
    destruct (tally_of m !! v) as [c|] eqn:Hc; simpl; [|unfold quorum; lia].
    apply elem_of_hash_iter in Hc. rewrite Forall_forall in Hf.
    specialize (Hf _ Hc). simpl in Hf. lia.
  - intros _. unfold count. rewrite Hm. unfold quorum. lia.
Qed.

End Counting.

(** ** Well-formed engines

    The invariant every handler keeps: the vote books are bounded and hold only
    members of the committee, rounds fit their [u32], and a proposal's
    proof-of-lock round lies below the proposal's round. *)
Record tm_ok (s : Tendermint) : Prop := {
  ok_me : forall i, s.(tm_me) = Some i -> (i < s.(tm_n))%nat;
  ok_books : forall kind, book_ok s.(tm_n) (book kind s);
  ok_proposals : forall r v p, s.(tm_proposals) !! r = Some (v, Some p) -> p < r;
  ok_round : in_u32 s.(tm_round);
  ok_highest : forall i r, s.(tm_highest) !! i = Some r -> in_u32 r;
}.

Create HintDb tm discriminated.
#[export] Hint Resolve ok_me ok_books ok_proposals ok_round ok_highest : tm.

(** [tm_ok] only looks at a few fields. *)
Lemma tm_ok_change s s' :
  tm_ok s -> s'.(tm_me) = s.(tm_me) -> s'.(tm_n) = s.(tm_n) ->
  s'.(tm_proposals) = s.(tm_proposals) -> s'.(tm_highest) = s.(tm_highest) ->
  (forall kind, book_ok s.(tm_n) (book kind s')) -> in_u32 s'.(tm_round) -> tm_ok s'.
Proof.
  intros [] Hme Hn Hp Hh Hb Hr. constructor; rewrite ?Hme, ?Hn, ?Hp, ?Hh; auto.
Qed.

(** Close [tm_ok s'] when [s'] differs from the well-formed [s] elsewhere. *)
Ltac keep_ok s Hok :=
  apply (tm_ok_change s);
  [ exact Hok | reflexivity | reflexivity | reflexivity | reflexivity
  | try exact (ok_books s Hok) | try exact (ok_round s Hok) ].

(** ** Moves

    Every handler is a sequence of the moves below; each move has the guard
    under which the code makes it.  Properties of the handlers are proved by
    induction over the moves. *)

(** [self.cast(kind, value, out); self.step = step]. *)
Definition cast_then (kind : VoteKind) (value : option ValueId) (step : Step)
    (s : Tendermint) (out : list Action) : Tendermint * list Action :=
  let '(s, out) := cast kind value s out in (set_step step s, out).

Section Moves.
Context `{HashOrder}.

Inductive move : Tendermint * list Action -> Tendermint * list Action -> Prop :=
| move_decide s out r v :
    s.(tm_decision) = None ->
    value_with_quorum Precommit r s = Some v -> acceptable v s = true ->
    move (s, out) (set_timers [] (set_decision (Some (r, v)) s), out ++ [ActDecide r v])
| move_round s out now r :
    s.(tm_round) <= r -> in_u32 r ->
    move (s, out) (start_round now r s out)
| move_prevote s out v :
    s.(tm_step) = StepPropose -> proposal_verdict s = Some (v, true) ->
    move (s, out) (cast_then Prevote (Some v) StepPrevote s out)
| move_prevote_nil s out :
    s.(tm_step) = StepPropose ->
    move (s, out) (cast_then Prevote None StepPrevote s out)
| move_polka s out v :
    polka_value s = Some v ->
    move (s, out) (on_polka v s out)
| move_precommit_nil s out :
    s.(tm_step) = StepPrevote ->
    move (s, out) (cast_then Precommit None StepPrecommit s out)
| move_arm s out timer r now :
    move (s, out) (arm timer r now s, out).

Abbreviation moves := (rtc move).

(** The parts of the state no move touches. *)
Record same_setting (s s' : Tendermint) : Prop := {
  same_height : s'.(tm_height) = s.(tm_height);
  same_n : s'.(tm_n) = s.(tm_n);
  same_me : s'.(tm_me) = s.(tm_me);
  same_timeouts : s'.(tm_timeouts) = s.(tm_timeouts);
  same_carried : s'.(tm_carried) = s.(tm_carried);
  same_proposals : s'.(tm_proposals) = s.(tm_proposals);
  same_validity : s'.(tm_validity) = s.(tm_validity);
  same_highest : s'.(tm_highest) = s.(tm_highest);
  same_started : s'.(tm_started) = s.(tm_started);
}.

(** [cast] either changes nothing, the vote of the round being out already (or
    the node not voting at all), or records and sends one vote. *)
Lemma cast_cases kind v s out :
  cast kind v s out = (s, out) /\
    (s.(tm_me) = None \/ is_Some (s.(tm_sent) !! (s.(tm_round), kind))) \/
  exists i, s.(tm_me) = Some i /\ s.(tm_sent) !! (s.(tm_round), kind) = None /\
    cast kind v s out =
      (book_mut kind (fun b => record b s.(tm_round) i v)
         (set_sent (<[(s.(tm_round), kind) := v]> s.(tm_sent)) s),
       out ++ [ActVote kind s.(tm_round) v]).
Proof.
  unfold cast. destruct (tm_me s) as [i|]; [|naive_solver].
  case_bool_decide as E.
  - left. split; [done|]. right. by apply not_eq_None_Some.
  - right. exists i. split_and!; [done| |done].
    destruct (tm_sent s !! _); [by destruct E|done].
Qed.

Lemma move_setting c c' : move c c' -> same_setting c.1 c'.1.
Proof.
  destruct 1; simpl; try done.
  all: unfold start_round, arm, cast_then, on_polka, cast, book_mut.
  all: repeat (case_match; simplify_eq/=); done.
Qed.

(** Book of one kind after a write to a book. *)
Lemma book_book_mut kind kind' f s :
  book kind (book_mut kind' f s) = if decide (kind = kind') then f (book kind s) else book kind s.
Proof. by destruct kind, kind'. Qed.

Lemma arm_ok timer r now s : tm_ok s -> tm_ok (arm timer r now s).
Proof.
  intros Hok. unfold arm. case_bool_decide; [done|].
  keep_ok s Hok.
Qed.

Lemma cast_ok kind v s out : tm_ok s -> tm_ok (cast kind v s out).1.
Proof.
  intros Hok. destruct (cast_cases kind v s out) as [[-> _]|(i & Hi & _ & ->)]; [done|].
  cbn [fst]. apply (tm_ok_change s); try by destruct kind.
  - intros kind'. rewrite book_book_mut. pose proof (ok_books s Hok kind') as Hb.
    case_decide; [|by destruct kind']. apply record_ok; [by destruct kind'|]. eauto with tm.
  - destruct kind; apply (ok_round s Hok).
Qed.

Lemma set_step_ok st s : tm_ok s -> tm_ok (set_step st s).
Proof. intros Hok. keep_ok s Hok. Qed.

Lemma cast_then_ok kind v st s out : tm_ok s -> tm_ok (cast_then kind v st s out).1.
Proof.
  intros Hok. unfold cast_then. pose proof (cast_ok kind v s out Hok) as Hc.
  destruct (cast kind v s out). by apply set_step_ok.
Qed.

(** The polka move, with the cast brought to the front. *)
Lemma on_polka_alt v s out :
  on_polka v s out =
    let s1 := set_polka_done ({[s.(tm_round)]} ∪ s.(tm_polka_done)) s in
    let c := if bool_decide (s.(tm_step) = StepPrevote)
             then cast_then Precommit (Some v) StepPrecommit
                    (set_locked (Some (s.(tm_round), v)) s1) out
             else (s1, out) in
    (set_valid (Some (s.(tm_round), v)) c.1, c.2).
Proof.
  unfold on_polka, cast_then. simpl. case_bool_decide; [|done].
  by destruct (cast Precommit (Some v) _ out).
Qed.

Lemma move_ok c c' : move c c' -> tm_ok c.1 -> tm_ok c'.1.
Proof.
  destruct 1 as [| | | |s out v| |]; simpl; intros Hok; auto using cast_then_ok, arm_ok.
  - keep_ok s Hok.
  - apply arm_ok. keep_ok s Hok. done.
  - rewrite on_polka_alt. simpl.
    assert (Hs1 : tm_ok (set_polka_done ({[s.(tm_round)]} ∪ s.(tm_polka_done)) s)).
    { keep_ok s Hok. }
    set (s1 := set_polka_done _ s) in *.
    assert (Hc : tm_ok (if bool_decide (tm_step s = StepPrevote)
                        then cast_then Precommit (Some v) StepPrecommit
                               (set_locked (Some (tm_round s, v)) s1) out
                        else (s1, out)).1).
    { case_bool_decide; [|done]. apply cast_then_ok.
      keep_ok s1 Hs1. }
    set (c := if bool_decide _ then _ else _) in *.
    keep_ok (c.1) Hc.
Qed.

Lemma moves_ok c c' : moves c c' -> tm_ok c.1 -> tm_ok c'.1.
Proof. induction 1; eauto using move_ok. Qed.

Lemma moves_setting c c' : moves c c' -> same_setting c.1 c'.1.
Proof.
  induction 1 as [c|c1 c2 c3 H12 _ IH]; [done|].
  destruct (move_setting _ _ H12), IH. constructor; congruence.
Qed.

(** A target of [skip_target] is a round some other member was heard in. *)
Lemma skip_target_Some s r :
  skip_target s = Some r ->
  s.(tm_round) < r /\ exists i, s.(tm_highest) !! i = Some r /\ Some i <> s.(tm_me).
Proof.
  unfold skip_target. destruct (_ !! _) as [t|] eqn:E; simpl; [|done].
  case_bool_decide as Hr; [|done]. intros [= <-]. split; [done|].
  apply list_elem_of_lookup_2 in E. rewrite stable_sort_perm in E.
  apply list_elem_of_fmap in E as ([i t'] & -> & Hi).
  apply list_elem_of_filter in Hi as [Hne Hi]. apply elem_of_hash_iter in Hi. eauto.
Qed.

Lemma find_decision_in_Some rounds s r v :
  find_decision_in rounds s = Some (r, v) ->
  r ∈ rounds /\ value_with_quorum Precommit r s = Some v /\ acceptable v s = true.
Proof.
  induction rounds as [|r0 rounds IH]; simpl; [done|].
  destruct (value_with_quorum Precommit r0 s) as [v0|] eqn:E.
  - destruct (acceptable v0 s) eqn:Ea; [intros [= <- <-]; set_solver|]. set_solver.
  - set_solver.
Qed.

Lemma try_decide_moves s out : moves (s, out) (try_decide s out).
Proof.
  unfold try_decide. destruct (tm_decision s) eqn:Ed; [done|].
  destruct (find_decision s) as [[r v]|] eqn:E; [|done].
  apply find_decision_in_Some in E as (_ & Hq & Ha). by apply rtc_once, move_decide.
Qed.

(** *** One iteration of [progress] is a sequence of moves *)

Definition flow_state (f : Flow) : Tendermint * list Action :=
  match f with Continue s out | Return s out => (s, out) end.

Lemma progress_votes_moves now s out : moves (s, out) (flow_state (progress_votes now s out)).
Proof.
  unfold progress_votes.
  set (s1 := if _ && _ then arm _ _ _ s else s).
  assert (H1 : moves (s, out) (s1, out)).
  { subst s1. destruct (_ && _); [apply rtc_once; constructor|done]. }
  etrans; [exact H1|].
  assert (Hr : tm_round s1 = tm_round s).
  { subst s1. destruct (_ && _); [|done]. unfold arm. by case_bool_decide. }
  destruct (polka_value s1) as [v|] eqn:Ep.
  - destruct (on_polka v s1 out) as [s2 out2] eqn:E2. simpl. rewrite <-E2.
    by apply rtc_once, move_polka.
  - case_bool_decide as Hst; simpl.
    + case_bool_decide; simpl.
      * pose proof (move_precommit_nil s1 out Hst) as Hm. unfold cast_then in Hm.
        destruct (cast Precommit None s1 out). by apply rtc_once.
      * case_bool_decide; [apply rtc_once; constructor|done].
    + case_bool_decide; [apply rtc_once; constructor|done].
Qed.

Lemma progress_body_moves now s out :
  tm_ok s -> moves (s, out) (flow_state (progress_body now s out)).
Proof.
  intros Hok. unfold progress_body. pose proof (try_decide_moves s out) as H1.
  destruct (try_decide s out) as [s1 out1]. apply (moves_ok _ _ H1) in Hok. simpl in Hok.
  etrans; [exact H1|]. destruct (_ || _ || _ || _); [done|].
  destruct (skip_target s1) as [r|] eqn:Es.
  - apply skip_target_Some in Es as (Hlt & i & Hi & _).
    destruct (start_round now r s1 out1) as [s2 out2] eqn:E2. simpl. rewrite <-E2.
    apply rtc_once, move_round; [lia|]. by eapply ok_highest.
  - case_bool_decide as Hst; [|apply progress_votes_moves].
    destruct (proposal_verdict s1) as [[v accept]|] eqn:Ev; [|apply progress_votes_moves].
    destruct accept.
    + pose proof (move_prevote s1 out1 v Hst Ev) as Hm. unfold cast_then in Hm.
      destruct (cast Prevote (Some v) s1 out1). by apply rtc_once.
    + pose proof (move_prevote_nil s1 out1 Hst) as Hm. unfold cast_then in Hm.
      destruct (cast Prevote None s1 out1). by apply rtc_once.
Qed.

Lemma progress_loop_moves fuel now s out c :
  tm_ok s -> progress_loop fuel now s out = Some c -> moves (s, out) c.
Proof.
  revert s out; induction fuel as [|fuel IH]; intros s out Hok; simpl; [done|].
  pose proof (progress_body_moves now s out Hok) as Hm.
  destruct (progress_body now s out) as [s1 out1|s1 out1]; simpl in Hm.
  - intros Hc. etrans; [exact Hm|]. apply IH; [|done]. by apply (moves_ok _ _ Hm).
  - by intros [= <-].
Qed.

Lemma progress_moves now s out : tm_ok s -> moves (s, out) (progress now s out).
Proof.
  intros Hok. unfold progress. destruct (progress_loop _ _ _ _) eqn:E; simpl; [|done].
  by eapply progress_loop_moves.
Qed.

End Moves.

Abbreviation moves := (rtc move).

(** ** Termination and quiescence of [progress] *)

Section Progress.
Context `{HashOrder}.

(** How many more times the loop can go around. *)
Definition progress_measure (s : Tendermint) : nat :=
  match skip_target s with
  | Some _ => 4
  | None =>
      match s.(tm_step) with
      | StepPropose => 3
      | StepPrevote => if bool_decide (s.(tm_round) ∈ s.(tm_polka_done)) then 1 else 2
      | StepPrecommit => if bool_decide (s.(tm_round) ∈ s.(tm_polka_done)) then 0 else 1
      end
  end.

Lemma skip_target_ext s s' :
  s'.(tm_highest) = s.(tm_highest) -> s'.(tm_me) = s.(tm_me) -> s'.(tm_n) = s.(tm_n) ->
  s'.(tm_round) = s.(tm_round) -> skip_target s' = skip_target s.
Proof. intros Hh Hm Hn Hr. unfold skip_target. by rewrite Hh, Hm, Hn, Hr. Qed.

(** What the parts of a move do to the fields the loop is controlled by. *)
Ltac solve_fields :=
  unfold start_round, on_polka, cast_then, arm, cast, book_mut;
  repeat (case_match; simplify_eq/=); split_and?; done.

Lemma arm_fields timer r now s :
  let s' := arm timer r now s in
  s'.(tm_round) = s.(tm_round) /\ s'.(tm_step) = s.(tm_step) /\
  s'.(tm_polka_done) = s.(tm_polka_done) /\ skip_target s' = skip_target s.
Proof. solve_fields. Qed.

Lemma cast_then_fields kind v st s out :
  let s' := (cast_then kind v st s out).1 in
  s'.(tm_round) = s.(tm_round) /\ s'.(tm_step) = st /\
  s'.(tm_polka_done) = s.(tm_polka_done) /\ skip_target s' = skip_target s.
Proof. solve_fields. Qed.

Lemma on_polka_fields v s out :
  let s' := (on_polka v s out).1 in
  s'.(tm_round) = s.(tm_round) /\
  s'.(tm_step) = (if bool_decide (s.(tm_step) = StepPrevote) then StepPrecommit else s.(tm_step)) /\
  s'.(tm_polka_done) = {[s.(tm_round)]} ∪ s.(tm_polka_done) /\ skip_target s' = skip_target s.
Proof. solve_fields. Qed.

(** A skip lands on the highest round the rule can give. *)
Lemma skip_target_start_round now r s out :
  skip_target s = Some r -> skip_target (start_round now r s out).1 = None.
Proof.
  unfold start_round. cbn [fst]. intros Hs.
  destruct (arm_fields TimerPropose r now (set_step StepPropose (set_round r s)))
    as (_ & _ & _ & ->). revert Hs. unfold skip_target. simpl.
  destruct (_ !! _) as [t|]; simpl; [|done].
  case_bool_decide; [|done]. intros [= ->]. by rewrite bool_decide_false by lia.
Qed.

Lemma try_decide_undecided s out s1 out1 :
  try_decide s out = (s1, out1) -> s1.(tm_decision) = None -> s1 = s /\ out1 = out.
Proof.
  unfold try_decide. repeat case_match; intros; simplify_eq/=; done.
Qed.

Lemma polka_value_guard s v :
  polka_value s = Some v -> s.(tm_step) <> StepPropose /\ s.(tm_round) ∉ s.(tm_polka_done).
Proof.
  unfold polka_value. do 2 case_bool_decide; simpl; done.
Qed.

Lemma progress_votes_decreases now s out s' out' :
  skip_target s = None ->
  progress_votes now s out = Continue s' out' ->
  (progress_measure s' < progress_measure s)%nat.
Proof.
  intros Hskip. unfold progress_votes, progress_measure. rewrite Hskip.
  set (s1 := if _ && _ then arm _ _ _ s else s).
  assert (s1.(tm_round) = s.(tm_round) /\ s1.(tm_step) = s.(tm_step) /\
          s1.(tm_polka_done) = s.(tm_polka_done) /\ skip_target s1 = skip_target s)
    as (Hr & Hst & Hp & Hsk).
  { subst s1. destruct (_ && _); [apply arm_fields|done]. }
  clearbody s1. rewrite <-Hr, <-Hst, <-Hp. rewrite Hskip in Hsk.
  destruct (polka_value s1) as [v|] eqn:Ep.
  - apply polka_value_guard in Ep as [Hne Hnin].
    pose proof (on_polka_fields v s1 out) as Hf.
    destruct (on_polka v s1 out) as [s2 out2]; simpl in Hf.
    destruct Hf as (Hr2 & Hst2 & Hp2 & Hsk2). intros [= <- <-].
    rewrite Hsk2, Hsk, Hst2, Hp2, Hr2.
    rewrite (bool_decide_false (_ ∈ tm_polka_done s1)) by done.
    rewrite (bool_decide_true (tm_round s1 ∈ {[tm_round s1]} ∪ tm_polka_done s1)) by set_solver.
    destruct (tm_step s1); simpl; [done|lia|lia].
  - case_bool_decide as Hpv; simpl; [|by case_bool_decide].
    case_bool_decide; [|by case_bool_decide].
    pose proof (cast_then_fields Precommit None StepPrecommit s1 out) as Hf.
    unfold cast_then in Hf. destruct (cast Precommit None s1 out) as [s2 out2]; simpl in Hf.
    destruct Hf as (Hr2 & _ & Hp2 & Hsk2). intros [= <- <-].
    simpl. rewrite Hsk2, Hsk, Hr2, Hp2, Hpv. case_bool_decide; lia.
Qed.

Lemma progress_body_decreases now s out s' out' :
  progress_body now s out = Continue s' out' ->
  (progress_measure s' < progress_measure s)%nat.
Proof.
  unfold progress_body. destruct (try_decide s out) as [s1 out1] eqn:Et.
  case_bool_decide as Hd; simpl; [done|].
  assert (Hd' : tm_decision s1 = None) by (destruct (tm_decision s1); naive_solver).
  destruct (try_decide_undecided _ _ _ _ Et Hd') as [-> ->].
  destruct (_ || _); [done|].
  destruct (skip_target s) as [r|] eqn:Es.
  - pose proof (skip_target_start_round now r s out Es) as Hn.
    intros [= <- <-]. unfold start_round in Hn. simpl in Hn.
    unfold progress_measure. rewrite Hn, Es. repeat case_match; lia.
  - case_bool_decide as Hst; [|by apply progress_votes_decreases].
    destruct (proposal_verdict s) as [[v accept]|]; [|by apply progress_votes_decreases].
    set (o := if accept then Some v else None).
    pose proof (cast_then_fields Prevote o StepPrevote s out) as Hf.
    unfold cast_then in Hf. destruct (cast Prevote o s out) as [s2 out2]; simpl in Hf.
    destruct Hf as (Hr2 & _ & Hp2 & Hsk2). intros [= <- <-].
    unfold progress_measure. rewrite Hsk2, Es, Hst. simpl. case_bool_decide; lia.
Qed.

Lemma progress_loop_enough fuel now s out :
  (progress_measure s < fuel)%nat -> is_Some (progress_loop fuel now s out).
Proof.
  revert s out; induction fuel as [|fuel IH]; intros s out Hlt; [lia|]. simpl.
  destruct (progress_body now s out) as [s' out'|s' out'] eqn:E; [|done].
  apply IH. apply progress_body_decreases in E. lia.
Qed.

Lemma progress_measure_bound s : (progress_measure s < PROGRESS_FUEL)%nat.
Proof. unfold progress_measure, PROGRESS_FUEL. repeat case_match; lia. Qed.

(** More fuel does not change the result. *)
Lemma progress_loop_mono fuel fuel' now s out c :
  progress_loop fuel now s out = Some c -> (fuel <= fuel')%nat ->
  progress_loop fuel' now s out = Some c.
Proof.
  revert fuel' s out; induction fuel as [|fuel IH]; intros fuel' s out; simpl; [done|].
  destruct fuel' as [|fuel']; [lia|]. simpl.
  destruct (progress_body now s out); [|done]. intros Hc Hle. apply IH; [done|lia].
Qed.

(** The loop of [progress] always ends, within five iterations, and [progress]
    is its result under any larger bound. *)
Lemma progress_loop_progress fuel now s out :
  (PROGRESS_FUEL <= fuel)%nat -> progress_loop fuel now s out = Some (progress now s out).
Proof.
  intros Hf. unfold progress.
  destruct (progress_loop_enough PROGRESS_FUEL now s out) as [c Hc];
    [apply progress_measure_bound|].
  rewrite Hc. simpl. by eapply progress_loop_mono.
Qed.

(** [progress] stops at a state from which one more iteration does nothing. *)
Lemma progress_stops now s out :
  exists s0 out0, progress_body now s0 out0 = Return (progress now s out).1 (progress now s out).2.
Proof.
  assert (Hl := progress_loop_progress PROGRESS_FUEL now s out (le_n _)).
  revert Hl. generalize (progress now s out) as c. generalize PROGRESS_FUEL.
  intros fuel. revert s out; induction fuel as [|fuel IH]; intros s out c; simpl; [done|].
  destruct (progress_body now s out) as [s' out'|s' out'] eqn:E; [apply IH|].
  intros [= <-]. eauto.
Qed.

(** *** Quiescence *)

(** Arming a timer if a condition holds, as the loop does twice. *)
Definition arm_if (b : bool) (timer : Timer) (r now : Z) (s : Tendermint) : Tendermint :=
  if b then arm timer r now s else s.

(** Timers are invisible to everything else the loop tests. *)
Lemma arm_if_frame b timer r now s :
  exists a t, arm_if b timer r now s = set_timers t (set_armed a s) /\
    s.(tm_armed) ⊆ a /\ (b = true -> (timer, r) ∈ a).
Proof.
  unfold arm_if, arm. destruct b; [case_bool_decide|].
  - exists s.(tm_armed), s.(tm_timers). split; [by destruct s|done].
  - eexists _, _. split; [done|]. set_solver.
  - exists s.(tm_armed), s.(tm_timers). split; [by destruct s|done].
Qed.

Lemma arm_if_armed b timer r now s :
  (b = true -> (timer, r) ∈ s.(tm_armed)) -> arm_if b timer r now s = s.
Proof. unfold arm_if, arm. destruct b; [|done]. intros Hb. by rewrite bool_decide_true by auto. Qed.

Lemma find_decision_frame a t s :
  find_decision (set_timers t (set_armed a s)) = find_decision s.
Proof.
  unfold find_decision. cbn [tm_precommits set_timers set_armed].
  induction (btree_iter (tm_precommits s)).*1 as [|r l IH]; simpl; [done|].
  rewrite IH. done.
Qed.

Lemma progress_votes_return now s out s' out' :
  progress_votes now s out = Return s' out' ->
  out' = out /\ (exists a t, s' = set_timers t (set_armed a s)) /\
  forall now' out2, progress_votes now' s' out2 = Return s' out2.
Proof.
  unfold progress_votes.
  set (c1 := bool_decide (tm_step s = _) && _).
  change (if c1 then arm _ _ _ s else s) with (arm_if c1 TimerPrevote (tm_round s) now s).
  destruct (arm_if_frame c1 TimerPrevote (tm_round s) now s) as (a1 & t1 & -> & Hs1 & Ha1).
  set (s1 := set_timers t1 (set_armed a1 s)).
  destruct (polka_value s1) eqn:Ep; [by destruct (on_polka _ _ _)|].
  destruct (bool_decide (tm_step s1 = StepPrevote) && _) eqn:Enil; [by destruct (cast _ _ _ _)|].
  set (c2 := bool_decide (_ <= count_any Precommit _ _)%nat).
  change (if c2 then arm _ _ _ s1 else s1) with (arm_if c2 TimerPrecommit (tm_round s) now s1).
  destruct (arm_if_frame c2 TimerPrecommit (tm_round s) now s1) as (a2 & t2 & -> & Hs2 & Ha2).
  intros [= <- <-]. split; [done|]. split; [by exists a2, t2|]. intros now' out2.
  set (s2 := set_timers t2 (set_armed a2 s1)).
  change (bool_decide (tm_step s2 = StepPrevote) && _) with c1.
  change (if c1 then arm _ _ _ s2 else s2) with (arm_if c1 TimerPrevote (tm_round s) now' s2).
  rewrite arm_if_armed by (intros; apply Hs2, Ha1; done).
  change (polka_value s2) with (polka_value s1). rewrite Ep.
  change (bool_decide (tm_step s2 = StepPrevote) && _) with
    (bool_decide (tm_step s1 = StepPrevote) &&
     bool_decide (quorum (tm_n s) <= count Prevote (tm_round s) None s1)%nat).
  rewrite Enil. f_equal. by apply (arm_if_armed c2 TimerPrecommit (tm_round s) now' s2).
Qed.

Lemma progress_body_return now s out s' out' :
  progress_body now s out = Return s' out' ->
  forall now' out2, progress_body now' s' out2 = Return s' out2.
Proof.
  unfold progress_body. destruct (try_decide s out) as [s1 out1] eqn:Et.
  case_bool_decide as Hd; simpl.
  { intros [= -> ->] now' out2. unfold try_decide.
    destruct (tm_decision s') eqn:Ed; [|done]. by rewrite bool_decide_true by (by rewrite Ed). }
  assert (Hd' : tm_decision s1 = None) by (destruct (tm_decision s1); naive_solver).
  destruct (try_decide_undecided _ _ _ _ Et Hd') as [-> ->].
  assert (Ht : forall out2, try_decide s out2 = (s, out2)).
  { intros out2. revert Et. unfold try_decide. rewrite Hd'. destruct (find_decision s); [|done].
    intros [= E _]. by rewrite <-E in Hd'. }
  destruct (bool_decide (tm_me s = None) || _ || _) eqn:Eg.
  { intros [= <- <-] now' out2. rewrite Ht.
    rewrite (bool_decide_false (tm_decision s <> None)) by (rewrite Hd'; naive_solver).
    cbn [orb]. by rewrite Eg. }
  destruct (skip_target s) as [r|] eqn:Es; [done|].
  assert (Hv : forall v0 : option (ValueId * bool), (v0 = if bool_decide (tm_step s = StepPropose)
                   then proposal_verdict s else None) -> v0 = None ->
    progress_votes now s out = Return s' out' ->
    forall now' out2, progress_body now' s' out2 = Return s' out2).
  { intros v0 -> Hv0 Hr now' out2. apply progress_votes_return in Hr as (_ & (a & t & ->) & Hq).
    specialize (Hq now' out2). unfold progress_body.
    set (s2 := set_timers t (set_armed a s)) in *.
    assert (Ht2 : try_decide s2 out2 = (s2, out2)).
    { specialize (Ht out2). unfold try_decide in Ht |- *. change (tm_decision s2) with (tm_decision s).
      rewrite Hd' in Ht |- *. unfold s2. rewrite find_decision_frame. fold s2.
      destruct (find_decision s) as [d|]; [|done]. exfalso.
      assert (E : tm_decision (set_timers [] (set_decision (Some d) s)) = tm_decision s) by congruence.
      rewrite Hd' in E. done. }
    rewrite Ht2. change (tm_decision s2) with (tm_decision s).
    rewrite bool_decide_false by (rewrite Hd'; naive_solver). cbn [orb].
    change (bool_decide (tm_me s2 = None) || _ || _) with
      (bool_decide (tm_me s = None) || negb (tm_started s) || bool_decide (tm_n s = 0%nat)).
    rewrite Eg. change (skip_target s2) with (skip_target s). rewrite Es.
    change (if bool_decide (tm_step s2 = _) then _ else _) with
      (if bool_decide (tm_step s = StepPropose) then proposal_verdict s else None).
    by rewrite Hv0. }
  destruct (if bool_decide _ then proposal_verdict s else None) as [[v acc]|] eqn:Ev.
  - by destruct (cast _ _ _ _).
  - by apply (Hv _ eq_refl).
Qed.

(** Running [progress] again changes nothing and sends nothing. *)
Lemma progress_again now now' s out out2 :
  progress now' (progress now s out).1 out2 = ((progress now s out).1, out2).
Proof.
  destruct (progress_stops now s out) as (s0 & out0 & Hb).
  pose proof (progress_body_return _ _ _ _ _ Hb now' out2) as Hr.
  unfold progress at 1. simpl. by rewrite Hr.
Qed.

End Progress.
