(* ===== verification/TendermintSpec.v ===== *)
(** * What a network of validators must promise for agreement

    The contract between the Tendermint engine and the safety argument.  A
    voting history says who cast which vote; [LockedVoting] lists the three
    rules honest members keep.  Agreement follows from the rules alone, so the
    engine only has to show that its votes keep them ([TendermintSafety]). *)
From S2P Require Import Prelude Tendermint.
Local Open Scope Z_scope.

(** [cast i kind r v]: member [i] voted for the value [v] in round [r]. *)
Definition History : Type := nat -> VoteKind -> Z -> ValueId -> Prop.

(** A quorum of the committee, whose honest members all cast the vote. *)
Definition supported (n : nat) (byz : gset nat) (cast : History)
    (kind : VoteKind) (r : Z) (v : ValueId) : Prop :=
  exists A : gset nat, A ⊆ committee n /\ (quorum n <= size A)%nat /\
    forall i, i ∈ A -> i ∉ byz -> cast i kind r v.

(** The rules an honest member keeps: one value per round and kind of vote, a
    precommit only on top of a quorum of prevotes, and after a precommit in
    round [r] a prevote for another round only for a value that has gathered a
    quorum of prevotes in [r] or since. *)
Class LockedVoting (n : nat) (byz : gset nat) (cast : History) : Prop := {
  cast_unique : forall i kind r v v', i ∉ byz ->
    cast i kind r v -> cast i kind r v' -> v = v';
  precommit_supported : forall i r v, i ∉ byz ->
    cast i Precommit r v -> supported n byz cast Prevote r v;
  prevote_justified : forall i r v r' v', i ∉ byz ->
    cast i Precommit r v -> cast i Prevote r' v' -> r < r' ->
    exists vr, r <= vr < r' /\ supported n byz cast Prevote vr v';
}.

Lemma quorum_two_thirds n : (2 * n < 3 * quorum n)%nat.
Proof.
  unfold quorum. pose proof (Nat.div_mod_eq (2 * n) 3).
  pose proof (Nat.mod_upper_bound (2 * n) 3). lia.
Qed.

Section Agreement.
Context {n : nat} {byz : gset nat} {cast : History}.
Context `{LV : !LockedVoting n byz cast}.
Context (few_byz : (3 * size byz < n)%nat).

Abbreviation supp := (supported n byz cast).

(** Two supported votes have an honest member in common. *)
Lemma supported_common kind kind' r r' v v' :
  supp kind r v -> supp kind' r' v' ->
  exists i, i ∉ byz /\ cast i kind r v /\ cast i kind' r' v'.
Proof.
  intros (A & HA & HqA & HcA) (B & HB & HqB & HcB).
  destruct (quorum_intersection n (quorum n) A B byz) as (i & ? & ? & ?);
    try done; [apply quorum_two_thirds|]. exists i. auto.
Qed.

(** Once a value has a quorum of precommits, no other value can gather a quorum
    of prevotes in that round or later. *)
Lemma precommitted_stays r v r' v' :
  supp Precommit r v -> r <= r' -> supp Prevote r' v' -> v' = v.
Proof.
  intros Hpc Hle. remember (Z.to_nat (r' - r)) as d eqn:Ed.
  revert r' v' Hle Ed. induction (lt_wf d) as [d _ IH]. intros r' v' Hle -> Hpv.
  destruct (decide (r = r')) as [->|Hne].
  - destruct (supported_common _ _ _ _ _ _ Hpc Hpc) as (i & Hi & Hci & _).
    pose proof (precommit_supported i r' v Hi Hci) as Hpv'.
    destruct (supported_common _ _ _ _ _ _ Hpv Hpv') as (j & Hj & H1 & H2).
    by eapply cast_unique.
  - destruct (supported_common _ _ _ _ _ _ Hpc Hpv) as (i & Hi & H1 & H2).
    destruct (prevote_justified i r v r' v' Hi H1 H2) as (vr & Hvr & Hs); [lia|].
    apply (IH (Z.to_nat (vr - r)) ltac:(lia) vr v'); [lia|done|done].
Qed.

Lemma precommitted_agree r v r' v' :
  supp Precommit r v -> supp Precommit r' v' -> v = v'.
Proof.
  assert (Hlift : forall r v, supp Precommit r v -> supp Prevote r v).
  { intros r0 v0 Hs. destruct (supported_common _ _ _ _ _ _ Hs Hs) as (i & Hi & Hc & _).
    by apply precommit_supported in Hc. }
  intros H1 H2. destruct (Z.le_ge_cases r r').
  - symmetry. by eapply (precommitted_stays r v r' v'); auto.
  - eapply (precommitted_stays r' v' r v); auto.
Qed.

End Agreement.
