(* ===== verification/TendermintHandlers.v ===== *)
(** * One validator: what the handlers do

    The public operations of the engine as events, their decomposition into an
    input and a sequence of moves, the votes they send, and the locking rule
    they keep. *)
From S2P Require Import Prelude Tendermint TendermintFacts.
Local Open Scope Z_scope.

(** ** Events *)

(** A call of one of the engine's public operations. *)
Inductive Event : Type :=
| EvCarry (value : ValueId)
| EvStart
| EvProposal (round : Z) (from : nat) (value : ValueId) (pol_round : option Z) (valid : bool)
| EvValue (value : ValueId) (valid : bool)
| EvVote (kind : VoteKind) (round : Z) (from : nat) (value : option ValueId)
| EvTick.

(** The [u32] arguments are in range. *)
Definition event_typed (e : Event) : Prop :=
  match e with
  | EvProposal round _ _ _ _ | EvVote _ round _ _ => in_u32 round
  | _ => True
  end.

#[export] Instance event_typed_dec e : Decision (event_typed e).
Proof. destruct e; simpl; apply _. Defined.

Definition votes_in (out : list Action) : list (VoteKind * Z * option ValueId) :=
  omap (fun a => match a with ActVote k r v => Some (k, r, v) | _ => None end) out.

Section Handlers.
Context `{HashOrder}.

Definition handle (now : Z) (e : Event) (s : Tendermint) : Tendermint * list Action :=
  match e with
  | EvCarry value => (carry value s, [])
  | EvStart => start now s
  | EvProposal round from value pol valid => on_proposal now round from value pol valid s
  | EvValue value valid => on_value now value valid s
  | EvVote kind round from value => on_vote now kind round from value s
  | EvTick => tick now s
  end.

(** What an event itself changes, before the moves it sets off: messages and
    verdicts are noted, nothing of the voting state is touched. *)
Record input (e : Event) (s s1 : Tendermint) : Prop := {
  in_height : s1.(tm_height) = s.(tm_height);
  in_n : s1.(tm_n) = s.(tm_n);
  in_me : s1.(tm_me) = s.(tm_me);
  in_timeouts : s1.(tm_timeouts) = s.(tm_timeouts);
  in_round : s1.(tm_round) = s.(tm_round);
  in_step : s1.(tm_step) = s.(tm_step);
  in_locked : s1.(tm_locked) = s.(tm_locked);
  in_valid : s1.(tm_valid) = s.(tm_valid);
  in_sent : s1.(tm_sent) = s.(tm_sent);
  in_decision : s1.(tm_decision) = s.(tm_decision);
  in_books : forall kind, book kind s1 = book kind s \/
    exists r from v, e = EvVote kind r from v /\ Some from <> s.(tm_me) /\
      book kind s1 = record (book kind s) r from v;
}.

Lemma note_round_ok from r s : tm_ok s -> in_u32 r -> tm_ok (note_round from r s).
Proof.
  intros Hok Hr. constructor; try apply Hok.
  intros i r'. unfold note_round. simpl. rewrite lookup_insert. case_decide; [|apply (ok_highest s Hok)].
  intros [= <-]. destruct (tm_highest s !! from) eqn:E; simpl; case_bool_decide; try done.
  by apply (ok_highest s Hok) in E.
Qed.

Lemma fire_moves now timer r s out : tm_ok s -> moves (s, out) (fire now timer r s out).
Proof.
  intros Hok. destruct timer; simpl; case_bool_decide as Hr; simpl; try done.
  - case_bool_decide as Hst; [|done]. by apply rtc_once, move_prevote_nil.
  - case_bool_decide as Hst; [|done]. by apply rtc_once, move_precommit_nil.
  - pose proof (ok_round s Hok). apply rtc_once, move_round; subst; machine_lia.
Qed.

Lemma fire_due_moves now due s out : tm_ok s -> moves (s, out) (fire_due now due s out).
Proof.
  revert s out; induction due as [|[[timer r] at_] due IH]; intros s out Hok; simpl; [done|].
  case_bool_decide; [done|].
  pose proof (fire_moves now timer r s out Hok) as H1.
  destruct (fire now timer r s out) as [s1 out1]. pose proof (moves_ok _ _ H1 Hok) as Hok1.
  pose proof (progress_moves now s1 out1 Hok1) as H2.
  destruct (progress now s1 out1) as [s2 out2]. pose proof (moves_ok _ _ H2 Hok1) as Hok2.
  etrans; [exact H1|]. etrans; [exact H2|]. by apply IH.
Qed.

Lemma start_moves now s :
  tm_ok s -> s.(tm_started) = false -> moves (set_started true s, []) (start now s).
Proof.
  intros Hok Hs. unfold start. rewrite Hs.
  set (s1 := set_started true s). assert (Hok1 : tm_ok s1) by keep_ok s Hok.
  assert (H1 : moves (s1, [])
    (if bool_decide (tm_me s1 <> None) && bool_decide (0 < tm_n s1)%nat then
       match tm_resumed s1, tm_step s1 with
       | false, _ | true, StepPropose => start_round now (tm_round s1) s1 []
       | true, StepPrevote => (arm TimerPrevote (tm_round s1) now s1, [])
       | true, StepPrecommit => (arm TimerPrecommit (tm_round s1) now s1, [])
       end
     else (s1, []))).
  { destruct (_ && _); [|done]. pose proof (ok_round s1 Hok1).
    destruct (tm_resumed s1); [destruct (tm_step s1)|];
      apply rtc_once; constructor; done || lia. }
  etrans; [exact H1|]. destruct (if _ && _ then _ else _) as [s2 out2].
  apply progress_moves. by apply (moves_ok _ _ H1).
Qed.

(** Every operation notes its input and then makes moves. *)
Lemma handle_moves now e s :
  tm_ok s -> event_typed e ->
  exists s1, input e s s1 /\ tm_ok s1 /\ moves (s1, []) (handle now e s).
Proof.
  intros Hok Hty.
  assert (Hsame : input e s s) by (constructor; auto).
  destruct e as [v| |r from v pol valid|v valid|kind r from v|]; simpl.
  - exists (carry v s). unfold carry. destruct (tm_started s) eqn:E.
    + done.
    + split; [by constructor; auto|]. split; [keep_ok s Hok|]. done.
  - destruct (tm_started s) eqn:E.
    + exists s. split; [done|]. split; [done|]. unfold start. by rewrite E.
    + exists (set_started true s). split; [by constructor; auto|].
      split; [keep_ok s Hok|]. by apply start_moves.
  - unfold on_proposal. case_match eqn:Eg; [|by exists s; eauto using progress_moves].
    apply andb_prop in Eg as [[[_ _]%andb_prop Hpol]%andb_prop _].
    match goal with |- context [progress now ?x []] => exists x end.
    split; [by constructor; auto|].
    match goal with |- tm_ok ?s1 /\ _ => assert (Hok1 : tm_ok s1) end.
    { apply note_round_ok; [|done]. constructor; try apply Hok.
      intros r' v' p. simpl. unfold or_insert. case_match; [apply (ok_proposals s Hok)|].
      rewrite lookup_insert. destruct (decide (r = r')); [|apply (ok_proposals s Hok)].
      intros [= -> ->]. subst r'. simpl in *. by apply bool_decide_eq_true in Hpol. }
    eauto using progress_moves.
  - exists (set_validity (or_insert v valid s.(tm_validity)) s).
    assert (Hok1 : tm_ok (set_validity (or_insert v valid s.(tm_validity)) s)) by keep_ok s Hok.
    split; [by constructor; auto|]. unfold on_value. eauto using progress_moves.
  - unfold on_vote. case_match eqn:Eg; [|by exists s; eauto using progress_moves].
    apply andb_prop in Eg as [Hfrom Hme]. case_bool_decide; [|done]. case_bool_decide; [|done].
    assert (Hok1 : tm_ok (note_round from r s)) by by apply note_round_ok.
    destruct (in_window r (note_round from r s)).
    + set (s1 := book_mut kind _ _). exists s1.
      assert (tm_ok s1).
      { apply (tm_ok_change (note_round from r s)); try (by destruct kind); [|by destruct kind; apply Hok1].
        intros k. unfold s1. rewrite book_book_mut. case_decide; [|apply (ok_books _ Hok1 k)].
        apply record_ok; [apply (ok_books _ Hok1 k)|done]. }
      split; [|eauto using progress_moves].
      constructor; try (by destruct kind). intros k. unfold s1. rewrite book_book_mut.
      case_decide; [|by left; destruct k]. subst. right. exists r, from, v.
      split_and!; [done|done|by destruct kind].
    + exists (note_round from r s). split; [|eauto using progress_moves].
      constructor; auto.
  - set (s1 := set_timers (filter (fun '(_, _, at_) => ~ at_ <= now) (tm_timers s)) s).
    assert (Hok1 : tm_ok s1) by keep_ok s Hok. exists s1.
    split; [by constructor; auto|]. split; [done|]. unfold tick. fold s1.
    pose proof (fire_due_moves now (stable_sort timer_leb
      (filter (fun '(_, _, at_) => at_ <= now) (tm_timers s))) s1 [] Hok1) as H1.
    destruct (fire_due _ _ _ _) as [s2 out2]. etrans; [exact H1|].
    apply progress_moves. by apply (moves_ok _ _ H1).
Qed.

(** ** The effect of a move on the votes *)

(** Nothing is voted. *)
Definition no_vote (c c' : Tendermint * list Action) : Prop :=
  c'.1.(tm_sent) = c.1.(tm_sent) /\ votes_in c'.2 = votes_in c.2 /\
  forall kind, book kind c'.1 = book kind c.1.

(** One vote of the current round is recorded and sent. *)
Definition one_vote (kind : VoteKind) (v : option ValueId) (c c' : Tendermint * list Action) : Prop :=
  exists i, c.1.(tm_me) = Some i /\ c.1.(tm_sent) !! (c.1.(tm_round), kind) = None /\
    c'.1.(tm_sent) = <[(c.1.(tm_round), kind) := v]> c.1.(tm_sent) /\
    votes_in c'.2 = votes_in c.2 ++ [(kind, c.1.(tm_round), v)] /\
    forall kind', book kind' c'.1 =
      if decide (kind' = kind) then record (book kind c.1) c.1.(tm_round) i v else book kind' c.1.

Lemma votes_in_app out out' : votes_in (out ++ out') = votes_in out ++ votes_in out'.
Proof. unfold votes_in. apply omap_app. Qed.

Lemma cast_then_effect kind v st s out :
  (is_Some s.(tm_me) -> is_Some (s.(tm_sent) !! (s.(tm_round), kind))) /\
    no_vote (s, out) (cast_then kind v st s out) \/
  one_vote kind v (s, out) (cast_then kind v st s out).
Proof.
  unfold cast_then. destruct (cast_cases kind v s out) as [[-> Hs]|(i & Hi & Hn & ->)].
  - left. split; [|done]. destruct Hs as [Hs|Hs]; [rewrite Hs; by intros []|done].
  - right. exists i. simpl. split_and!; [done|done|by destruct kind|by rewrite votes_in_app|].
    intros kind'. destruct kind, kind'; done.
Qed.

Lemma on_polka_effect v s out :
  no_vote (s, out) (on_polka v s out) \/ one_vote Precommit (Some v) (s, out) (on_polka v s out).
Proof.
  rewrite on_polka_alt. simpl. case_bool_decide; [|by left].
  match goal with |- context [cast_then ?k ?v ?st ?s ?o] =>
    destruct (cast_then_effect k v st s o) as [[_ Hv]|Hv] end; [left|right]; exact Hv.
Qed.

Lemma start_round_effect now r s out : no_vote (s, out) (start_round now r s out).
Proof.
  unfold start_round, no_vote, arm. simpl.
  destruct (bool_decide (Some _ = _) && _); rewrite ?votes_in_app; simpl;
    rewrite ?app_nil_r; case_bool_decide; done.
Qed.

Lemma move_effect c c' : move c c' -> no_vote c c' \/ exists kind v, one_vote kind v c c'.
Proof.
  destruct 1; try (left; apply start_round_effect).
  - left. unfold no_vote. simpl. rewrite votes_in_app, app_nil_r. done.
  - destruct (cast_then_effect Prevote (Some v) StepPrevote s out) as [[_ ?]|?]; eauto.
  - destruct (cast_then_effect Prevote None StepPrevote s out) as [[_ ?]|?]; eauto.
  - destruct (on_polka_effect v s out); eauto.
  - destruct (cast_then_effect Precommit None StepPrecommit s out) as [[_ ?]|?]; eauto.
  - left. unfold no_vote, arm. simpl. case_bool_decide; done.
Qed.

(** *** Votes along a sequence of moves *)

(** [sends before vs after]: [vs] are the votes sent between two states, each for
    a round and kind not voted before. *)
Record sends (before : gmap (Z * VoteKind) (option ValueId))
    (vs : list (VoteKind * Z * option ValueId))
    (after : gmap (Z * VoteKind) (option ValueId)) : Prop := {
  sends_keep : before ⊆ after;
  sends_new : forall k r v, (k, r, v) ∈ vs -> before !! (r, k) = None /\ after !! (r, k) = Some v;
  sends_all : forall k r v, after !! (r, k) = Some v -> before !! (r, k) = Some v \/ (k, r, v) ∈ vs;
  sends_once : NoDup vs.*1;
}.

Lemma sends_nil m : sends m [] m.
Proof. constructor; [done|set_solver|auto|constructor]. Qed.

Lemma sends_nil_eq m m' : sends m [] m' -> m' = m.
Proof.
  intros [Hk _ Hall _]. apply (anti_symm (⊆)); [|done]. apply map_subseteq_spec.
  intros [r k] v Hv. apply Hall in Hv as [Hv|Hv]; [done|]. by apply not_elem_of_nil in Hv.
Qed.

Lemma sends_cons m k r v vs m' :
  m !! (r, k) = None -> sends (<[(r, k) := v]> m) vs m' -> sends m ((k, r, v) :: vs) m'.
Proof.
  intros Hn [Hk Hnew Hall Honce].
  assert (Hrk : m' !! (r, k) = Some v).
  { eapply lookup_weaken; [apply lookup_insert_eq|exact Hk]. }
  constructor.
  - etrans; [by apply insert_subseteq|done].
  - intros k' r' v' [[= -> -> ->]|Hin]%elem_of_cons; [done|].
    apply Hnew in Hin as [Hin1 Hin2]. apply lookup_insert_None in Hin1 as [? ?]. done.
  - intros k' r' v' Hv. apply Hall in Hv as [Hv|Hv]; [|set_solver].
    apply lookup_insert_Some in Hv as [[[= <- <-] <-]|[_ Hv]]; set_solver.
  - simpl. constructor; [|done]. intros ([[k' r'] v'] & [= <- <-] & Hin)%list_elem_of_fmap.
    apply Hnew in Hin as [Hin _]. by rewrite lookup_insert_eq in Hin.
Qed.

Lemma moves_sends c c' :
  moves c c' -> exists vs, votes_in c'.2 = votes_in c.2 ++ vs /\
    sends c.1.(tm_sent) vs c'.1.(tm_sent).
Proof.
  induction 1 as [c|c1 c2 c3 H12 _ (vs & Hvs & Hs)].
  - exists []. rewrite app_nil_r. split; [done|apply sends_nil].
  - destruct (move_effect _ _ H12) as [(Hsent & Hv & _)|(k & v & i & _ & Hn & Hsent & Hv & _)].
    + exists vs. by rewrite <-Hv, <-Hsent.
    + exists ((k, c1.1.(tm_round), v) :: vs). rewrite Hvs, Hv, <-app_assoc. split; [done|].
      apply sends_cons; [done|]. by rewrite <-Hsent.
Qed.

(** *** Vote books along a sequence of moves *)

Lemma moves_book_mono c c' kind r i v :
  moves c c' -> v ∈ book_list (book kind c.1) r i -> v ∈ book_list (book kind c'.1) r i.
Proof.
  induction 1 as [c|c1 c2 c3 H12 _ IH]; [done|]. intros Hv. apply IH.
  destruct (move_effect _ _ H12) as [(_ & _ & Hb)|(k & w & j & _ & _ & _ & _ & Hb)]; rewrite Hb; [done|].
  case_decide; [|done]. subst. by apply elem_of_book_record_mono.
Qed.

Lemma moves_count_mono c c' kind r v :
  moves c c' -> (count kind r v c.1 <= count kind r v c'.1)%nat.
Proof.
  intros Hm. rewrite !count_voter_set. apply subseteq_size. intros i.
  rewrite !elem_of_voter_set. by apply moves_book_mono.
Qed.

(** What the moves add to the books are the validator's own votes. *)
Lemma moves_book_own c c' kind r i v :
  moves c c' -> v ∈ book_list (book kind c'.1) r i ->
  v ∈ book_list (book kind c.1) r i \/
  (c.1.(tm_me) = Some i /\ c'.1.(tm_sent) !! (r, kind) = Some v).
Proof.
  induction 1 as [c|c1 c2 c3 H12 H23 IH]; [auto|]. intros Hv.
  pose proof (same_me _ _ (move_setting _ _ H12)) as Hme.
  apply IH in Hv as [Hv|[Hi Hv]]; [|right; by rewrite <-Hme].
  destruct (move_effect _ _ H12) as [(_ & _ & Hb)|(k & w & j & Hj & _ & Hsent & _ & Hb)];
    rewrite Hb in Hv; [auto|].
  case_decide; [|auto]. subst k. apply elem_of_book_record in Hv as [Hv|(-> & -> & ->)]; [auto|].
  right. split; [done|]. destruct (moves_sends _ _ H23) as (vs & _ & Hs).
  eapply lookup_weaken; [|apply (sends_keep _ _ _ Hs)]. rewrite Hsent. apply lookup_insert_eq.
Qed.

(** *** Decisions along a sequence of moves *)

Lemma move_decision c c' :
  move c c' -> c'.1.(tm_decision) = c.1.(tm_decision) \/
    c.1.(tm_decision) = None /\ exists r v, c'.1.(tm_decision) = Some (r, v) /\
      value_with_quorum Precommit r c.1 = Some v /\ acceptable v c.1 = true.
Proof.
  destruct 1; simpl; eauto 10; left.
  all: unfold start_round, arm, cast_then, on_polka, cast, book_mut.
  all: repeat (case_match; simplify_eq/=); done.
Qed.

Lemma moves_decision c c' :
  tm_ok c.1 -> moves c c' -> c'.1.(tm_decision) = c.1.(tm_decision) \/
    c.1.(tm_decision) = None /\ exists r v, c'.1.(tm_decision) = Some (r, v) /\
      (quorum c'.1.(tm_n) <= count Precommit r (Some v) c'.1)%nat /\ acceptable v c'.1 = true.
Proof.
  intros Hok. induction 1 as [c|c1 c2 c3 H12 H23 IH]; [auto|].
  specialize (IH (move_ok _ _ H12 Hok)).
  destruct (move_decision _ _ H12) as [Hd|(Hn & r & v & Hd & Hq & Ha)].
  - by rewrite <-Hd.
  - right. split; [done|]. exists r, v.
    assert (H13 : moves c1 c3) by (eapply rtc_l; done).
    destruct IH as [IH|[IH _]]; [|congruence]. rewrite IH. split; [done|].
    pose proof (moves_setting _ _ H13) as Hset. split.
    + rewrite (same_n _ _ Hset). transitivity (count Precommit r (Some v) c1.1).
      * eapply value_with_quorum_Some; [apply (ok_books _ Hok)|done].
      * by apply moves_count_mono.
    + unfold acceptable in *. by rewrite (same_validity _ _ Hset), (same_carried _ _ Hset).
Qed.

(** ** Saving and restoring *)

(** A list of votes as written to disk: exactly the votes sent. *)
Definition lists_sent (l : list (Z * VoteKind * option ValueId))
    (sent : gmap (Z * VoteKind) (option ValueId)) : Prop :=
  forall r k v, (r, k, v) ∈ l <-> sent !! (r, k) = Some v.

Lemma saved_lists_sent s : lists_sent (saved s).(sv_sent) s.(tm_sent).
Proof.
  intros r k v. unfold saved. simpl. rewrite stable_sort_perm, list_elem_of_In, in_map_iff.
  rewrite <-elem_of_hash_iter. setoid_rewrite <-list_elem_of_In. split.
  - intros ([[r' k'] v'] & [= -> -> ->] & Hin). done.
  - intros Hin. by exists ((r, k), v).
Qed.

Lemma restore_sent_setting s e :
  let s' := restore_sent s e in
  s'.(tm_height) = s.(tm_height) /\ s'.(tm_n) = s.(tm_n) /\ s'.(tm_me) = s.(tm_me) /\
  s'.(tm_timeouts) = s.(tm_timeouts) /\ s'.(tm_round) = s.(tm_round) /\
  s'.(tm_step) = s.(tm_step) /\ s'.(tm_locked) = s.(tm_locked) /\ s'.(tm_valid) = s.(tm_valid) /\
  s'.(tm_decision) = s.(tm_decision) /\ s'.(tm_started) = s.(tm_started).
Proof.
  destruct e as [[r k] v]. unfold restore_sent. simpl.
  destruct (tm_me s) eqn:E; [destruct k|]; split_and!; try done; exact E.
Qed.

Lemma restore_sent_ok s e : tm_ok s -> tm_ok (restore_sent s e).
Proof.
  destruct e as [[r k] v]. intros Hok. unfold restore_sent. simpl.
  destruct (tm_me s) as [i|] eqn:Ei; [|keep_ok s Hok].
  apply (tm_ok_change s); try (by destruct k); [|by destruct k; apply Hok].
  intros k'. rewrite book_book_mut. pose proof (ok_books s Hok k').
  case_decide; [|by destruct k']. apply record_ok; [by destruct k'|]. by apply (ok_me s Hok).
Qed.

Lemma restore_sent_books s e k r i v :
  v ∈ book_list (book k (restore_sent s e)) r i ->
  v ∈ book_list (book k s) r i \/ (s.(tm_me) = Some i /\ e = (r, k, v)).
Proof.
  destruct e as [[r' k'] v']. unfold restore_sent. simpl.
  destruct (tm_me s) as [j|]; [|by destruct k; left].
  rewrite book_book_mut. case_decide; [|by left; destruct k]. subst k'.
  intros [Hv|(-> & -> & ->)]%elem_of_book_record; [|by right]. left. by destruct k.
Qed.

Lemma foldl_restore s l :
  let s' := foldl restore_sent s l in
  (s'.(tm_height) = s.(tm_height) /\ s'.(tm_n) = s.(tm_n) /\ s'.(tm_me) = s.(tm_me) /\
   s'.(tm_timeouts) = s.(tm_timeouts) /\ s'.(tm_round) = s.(tm_round) /\
   s'.(tm_step) = s.(tm_step) /\ s'.(tm_locked) = s.(tm_locked) /\ s'.(tm_valid) = s.(tm_valid) /\
   s'.(tm_decision) = s.(tm_decision) /\ s'.(tm_started) = s.(tm_started)) /\
  (tm_ok s -> tm_ok s') /\
  (forall k r i v, v ∈ book_list (book k s') r i ->
     v ∈ book_list (book k s) r i \/ (s.(tm_me) = Some i /\ (r, k, v) ∈ l)).
Proof.
  revert s; induction l as [|e l IH]; intros s; simpl; [split_and!; auto|].
  specialize (IH (restore_sent s e)). simpl in IH.
  destruct IH as ((H1 & H2 & H3 & H4 & H5 & H6 & H7 & H8 & H9 & H10) & Hok & Hb).
  destruct (restore_sent_setting s e) as (E1 & E2 & E3 & E4 & E5 & E6 & E7 & E8 & E9 & E10).
  split_and!; try congruence; [by eauto using restore_sent_ok|].
  intros k r i v Hv. apply Hb in Hv as [Hv|[Hi Hv]].
  - apply restore_sent_books in Hv as [Hv|[Hi ->]]; [by left|]. right. set_solver.
  - right. rewrite E3 in Hi. set_solver.
Qed.

Lemma foldl_restore_sent s l sent :
  s.(tm_sent) = ∅ -> lists_sent l sent -> (foldl restore_sent s l).(tm_sent) = sent.
Proof.
  intros Hs Hl.
  assert (Hfold : forall l s, (forall r k v, (r, k, v) ∈ l -> sent !! (r, k) = Some v) ->
    s.(tm_sent) ⊆ sent -> (foldl restore_sent s l).(tm_sent) ⊆ sent /\
      s.(tm_sent) ⊆ (foldl restore_sent s l).(tm_sent) /\
      forall r k v, (r, k, v) ∈ l -> (foldl restore_sent s l).(tm_sent) !! (r, k) = Some v).
  { clear. intros l. induction l as [|[[r k] v] l IH]; intros s Hl Hs; simpl.
    { split_and!; [done|done|]. intros r k v Hin. by apply not_elem_of_nil in Hin. }
    assert (E : tm_sent (restore_sent s (r, k, v)) = <[(r, k) := v]> (tm_sent s)).
    { unfold restore_sent. simpl. destruct (tm_me s); [destruct k|]; done. }
    assert (Hrk : sent !! (r, k) = Some v) by (apply Hl; set_solver).
    assert (Hsub : tm_sent s ⊆ tm_sent (restore_sent s (r, k, v))).
    { rewrite E. apply map_subseteq_spec. intros x w Hw. rewrite lookup_insert.
      case_decide; [|done]. subst. pose proof (lookup_weaken _ _ _ _ Hw Hs). congruence. }
    destruct (IH (restore_sent s (r, k, v))) as (IH1 & IH2 & IH3).
    - intros. apply Hl. set_solver.
    - rewrite E. by apply insert_subseteq_l.
    - split_and!; [done|by etrans|]. intros r' k' v' [[= -> -> ->]|Hin]%elem_of_cons; [|by apply IH3].
      eapply lookup_weaken; [|exact IH2]. rewrite E. apply lookup_insert_eq. }
  destruct (Hfold l s) as (H1 & _ & H3); [by intros; apply Hl|rewrite Hs; apply map_empty_subseteq|].
  apply (anti_symm (⊆)); [done|]. apply map_subseteq_spec. intros [r k] v Hv. by apply H3, Hl.
Qed.

End Handlers.
