(* ===== verification/TendermintLock.v ===== *)
(** * One validator: the locking rule

    The invariant that makes the votes of an honest validator safe, for an
    arbitrary notion [polka r v] of "a quorum prevoted [v] in round [r]" that
    covers what the validator has seen itself.  It speaks of the round, the
    step, the lock and the votes sent only, so it applies alike to a running
    engine and to the state written to disk. *)
From S2P Require Import Prelude Tendermint TendermintFacts TendermintHandlers.
Local Open Scope Z_scope.

Record lock_inv (polka : Z -> ValueId -> Prop) (round : Z) (step : Step)
    (locked : option (Z * ValueId)) (sent : gmap (Z * VoteKind) (option ValueId)) : Prop := {
  lk_past : forall r k v, sent !! (r, k) = Some v -> r <= round;
  lk_covers : forall r v, sent !! (r, Precommit) = Some (Some v) ->
    exists lr lv, locked = Some (lr, lv) /\ r <= lr;
  lk_lock : forall lr lv, locked = Some (lr, lv) ->
    lr <= round /\ polka lr lv /\ (lr = round -> is_Some (sent !! (round, Prevote)));
  lk_step : step <> StepPropose -> is_Some (sent !! (round, Prevote));
  lk_justified : forall r v r' v', sent !! (r, Precommit) = Some (Some v) ->
    sent !! (r', Prevote) = Some (Some v') -> r < r' ->
    exists vr, r <= vr < r' /\ polka vr v';
  lk_polka : forall r v, sent !! (r, Precommit) = Some (Some v) -> polka r v;
}.

(** The invariant of a running engine. *)
Definition tm_lock (polka : Z -> ValueId -> Prop) (s : Tendermint) : Prop :=
  lock_inv polka s.(tm_round) s.(tm_step) s.(tm_locked) s.(tm_sent).

Lemma lock_inv_weaken (polka polka' : Z -> ValueId -> Prop) round step locked sent :
  (forall r v, polka r v -> polka' r v) ->
  lock_inv polka round step locked sent -> lock_inv polka' round step locked sent.
Proof.
  intros Hp []. constructor; try done; naive_solver.
Qed.

Section Lock.
Context `{HashOrder}.
Context (polka : Z -> ValueId -> Prop).

(** The quorums of prevotes the engine has seen are covered by [polka]. *)
Definition sees (s : Tendermint) : Prop :=
  forall r v, (quorum s.(tm_n) <= count Prevote r (Some v) s)%nat -> polka r v.

(** Entering a later round, or the same one again. *)
Lemma lock_round round step locked sent r :
  lock_inv polka round step locked sent -> round <= r ->
  lock_inv polka r StepPropose locked sent.
Proof.
  intros [] Hle. constructor; try done.
  - intros r' k v Hv. apply lk_past0 in Hv. lia.
  - intros lr lv Hl. apply lk_lock0 in Hl as (? & ? & Hp). split_and!; [lia|done|].
    intros ->. assert (round = r) as <- by lia. auto.
Qed.

(** Leaving a step once the prevote of the round is out. *)
Lemma lock_set_step round step step' locked sent :
  lock_inv polka round step locked sent -> is_Some (sent !! (round, Prevote)) ->
  lock_inv polka round step' locked sent.
Proof. intros [] Hs. by constructor. Qed.

(** A prevote, for nothing or for a value the lock allows. *)
Lemma lock_prevote round step locked sent vo :
  lock_inv polka round step locked sent -> sent !! (round, Prevote) = None ->
  (forall v lr lv, vo = Some v -> locked = Some (lr, lv) ->
     lv = v \/ exists vr, lr <= vr < round /\ polka vr v) ->
  lock_inv polka round StepPrevote locked (<[(round, Prevote) := vo]> sent).
Proof.
  intros [Hpast Hcov Hlock Hstep Hjust Hpol] Hn Hsafe.
  assert (Hpc : forall r v, <[(round, Prevote) := vo]> sent !! (r, Precommit) = Some (Some v) ->
    sent !! (r, Precommit) = Some (Some v)).
  { intros r v. by rewrite lookup_insert_ne by done. }
  constructor.
  - intros r k v. rewrite lookup_insert. case_decide; [naive_solver lia|]. apply Hpast.
  - eauto.
  - intros lr lv Hl. destruct (Hlock _ _ Hl) as (? & ? & _). split_and!; [done|done|].
    intros _. rewrite lookup_insert_eq. eauto.
  - intros _. rewrite lookup_insert_eq. eauto.
  - intros r v r' v' Hr%Hpc. rewrite lookup_insert. case_decide as E; [|by eauto].
    injection E as <-. intros [= ->] Hlt.
    destruct (Hcov _ _ Hr) as (lr & lv & Hl & Hle).
    destruct (Hlock _ _ Hl) as (Hlr & Hlp & Hlne).
    assert (lr <> round). { intros ->. destruct (Hlne eq_refl) as [x Hx]. congruence. }
    destruct (Hsafe v' lr lv eq_refl Hl) as [->|(vr & ? & ?)]; [exists lr|exists vr]; split; done || lia.
  - eauto.
Qed.

(** A precommit: for nothing, or for the value just locked. *)
Lemma lock_precommit_nil round locked sent :
  lock_inv polka round StepPrevote locked sent -> sent !! (round, Precommit) = None ->
  lock_inv polka round StepPrecommit locked (<[(round, Precommit) := None]> sent).
Proof.
  intros [Hpast Hcov Hlock Hstep Hjust Hpol] Hn.
  assert (Hpc : forall r v, <[(round, Precommit) := None]> sent !! (r, Precommit) = Some (Some v) ->
    sent !! (r, Precommit) = Some (Some v)).
  { intros r v. rewrite lookup_insert. by case_decide. }
  assert (Hpv : forall r, <[(round, Precommit) := None]> sent !! (r, Prevote) = sent !! (r, Prevote)).
  { intros r. by rewrite lookup_insert_ne by done. }
  constructor.
  - intros r k v. rewrite lookup_insert. case_decide; [naive_solver lia|]. apply Hpast.
  - eauto.
  - intros lr lv. rewrite Hpv. apply Hlock.
  - intros _. rewrite Hpv. by apply Hstep.
  - intros r v r' v' Hr%Hpc. rewrite Hpv. by eauto.
  - eauto.
Qed.

Lemma lock_relock round locked sent v :
  lock_inv polka round StepPrevote locked sent -> polka round v ->
  lock_inv polka round StepPrecommit (Some (round, v)) sent.
Proof.
  intros [Hpast Hcov Hlock Hstep Hjust Hpol] Hp. constructor; eauto.
  intros lr lv [= <- <-]. split_and!; [lia|done|]. intros _. by apply Hstep.
Qed.

Lemma lock_precommit round locked sent v :
  lock_inv polka round StepPrevote locked sent -> polka round v ->
  sent !! (round, Precommit) = None ->
  lock_inv polka round StepPrecommit (Some (round, v)) (<[(round, Precommit) := Some v]> sent).
Proof.
  intros [Hpast Hcov Hlock Hstep Hjust Hpol] Hp Hn.
  assert (Hpv : forall r, <[(round, Precommit) := Some v]> sent !! (r, Prevote) = sent !! (r, Prevote)).
  { intros r. by rewrite lookup_insert_ne by done. }
  constructor.
  - intros r k w. rewrite lookup_insert. case_decide; [naive_solver lia|]. apply Hpast.
  - intros r w Hw. exists round, v. split; [done|]. revert Hw. rewrite lookup_insert.
    case_decide; [naive_solver lia|]. apply Hpast.
  - intros lr lv [= <- <-]. split_and!; [lia|done|]. intros _. rewrite Hpv. by apply Hstep.
  - intros _. rewrite Hpv. by apply Hstep.
  - intros r w r' w'. rewrite Hpv, lookup_insert. case_decide as E; [|by eauto].
    injection E as <-. intros _ Hw Hlt. apply Hpast in Hw. lia.
  - intros r w. rewrite lookup_insert. case_decide as E; [|by eauto].
    injection E as <-. by intros [= <-].
Qed.

(** The lock test of a proposal's verdict. *)
Lemma verdict_safe s v :
  tm_ok s -> sees s -> proposal_verdict s = Some (v, true) ->
  forall lr lv, s.(tm_locked) = Some (lr, lv) ->
    lv = v \/ exists vr, lr <= vr < s.(tm_round) /\ polka vr v.
Proof.
  intros Hok Hsee. unfold proposal_verdict.
  destruct (tm_proposals s !! tm_round s) as [[v0 pol]|] eqn:Ep; simpl; [|done].
  destruct (tm_validity s !! v0) as [ok|]; simpl; [|done].
  destruct pol as [vr|].
  - case_bool_decide as Hq; [|done]. intros [= -> Ha] lr lv Hl.
    rewrite Hl in Ha. simpl in Ha. apply andb_prop in Ha as [_ Ha].
    apply orb_prop in Ha as [Ha|Ha]; apply bool_decide_eq_true in Ha; [|by left].
    right. exists vr. split; [|by apply Hsee]. pose proof (ok_proposals s Hok _ _ _ Ep). lia.
  - intros [= -> Ha] lr lv Hl. rewrite Hl in Ha. simpl in Ha.
    apply andb_prop in Ha as [_ Ha]. apply bool_decide_eq_true in Ha. by left.
Qed.

(** A prevote or nil precommit, whether it is sent or was sent before. *)
Lemma cast_then_lock kind v st s out :
  is_Some s.(tm_me) -> tm_lock polka s ->
  (kind = Prevote /\ st = StepPrevote /\
     (forall w lr lv, v = Some w -> s.(tm_locked) = Some (lr, lv) ->
       lv = w \/ exists vr, lr <= vr < s.(tm_round) /\ polka vr w) \/
   kind = Precommit /\ st = StepPrecommit /\ v = None /\ s.(tm_step) = StepPrevote) ->
  tm_lock polka (cast_then kind v st s out).1.
Proof.
  intros Hme Hlk Hcase. pose proof (cast_then_fields kind v st s out) as (Hr & Hst & _).
  assert (Hl : tm_locked (cast_then kind v st s out).1 = tm_locked s).
  { unfold cast_then, cast, book_mut. repeat (case_match; simplify_eq/=); done. }
  unfold tm_lock in *. rewrite Hr, Hst, Hl.
  destruct (cast_then_effect kind v st s out) as [[Hs (Hsent & _)]|(i & _ & Hn & Hsent & _)];
    simpl in Hsent; rewrite Hsent.
  - eapply lock_set_step; [exact Hlk|].
    destruct Hcase as [(-> & _)|(_ & _ & _ & Hpv)]; [by apply Hs|].
    apply (lk_step _ _ _ _ _ Hlk). by rewrite Hpv.
  - destruct Hcase as [(-> & -> & Hsafe)|(-> & -> & -> & Hpv)].
    + by eapply lock_prevote.
    + apply lock_precommit_nil; [|done]. by rewrite Hpv in Hlk.
Qed.

Lemma on_polka_lock v s out :
  is_Some s.(tm_me) -> tm_lock polka s -> polka s.(tm_round) v ->
  tm_lock polka (on_polka v s out).1.
Proof.
  intros Hme Hlk Hp. rewrite on_polka_alt. simpl. case_bool_decide as Hst; [|done].
  unfold tm_lock in Hlk. rewrite Hst in Hlk.
  set (s1 := set_locked _ _). unfold tm_lock. simpl.
  pose proof (cast_then_fields Precommit (Some v) StepPrecommit s1 out) as (Hr & Hst' & _).
  assert (Hl : tm_locked (cast_then Precommit (Some v) StepPrecommit s1 out).1 = tm_locked s1).
  { unfold cast_then, cast, book_mut. repeat (case_match; simplify_eq/=); done. }
  rewrite Hr, Hst', Hl. simpl.
  destruct (cast_then_effect Precommit (Some v) StepPrecommit s1 out)
    as [[Hs (Hsent & _)]|(i & _ & Hn & Hsent & _)]; simpl in Hsent; rewrite Hsent.
  - by eapply lock_relock.
  - by eapply lock_precommit.
Qed.

Lemma move_lock c c' :
  tm_ok c.1 -> is_Some c.1.(tm_me) -> sees c.1 ->
  move c c' -> tm_lock polka c.1 -> tm_lock polka c'.1.
Proof.
  intros Hok Hme Hsee. destruct 1 as [|s out now r Hle Hr|s out v Hst Hv|s out Hst|s out v Hp|s out Hst|];
    simpl in *; intros Hlk; try done.
  - unfold start_round. simpl. unfold tm_lock. destruct (arm_fields TimerPropose r now
      (set_step StepPropose (set_round r s))) as (Er & Est & _). rewrite Er, Est.
    assert (Hf : forall t r' n' s', tm_locked (arm t r' n' s') = tm_locked s' /\
                                   tm_sent (arm t r' n' s') = tm_sent s').
    { intros. unfold arm. by case_bool_decide. }
    destruct (Hf TimerPropose r now (set_step StepPropose (set_round r s))) as [-> ->].
    by eapply lock_round.
  - apply cast_then_lock; [done|done|]. left. split_and!; [done|done|].
    intros w lr lv [= <-] Hl. by eapply verdict_safe.
  - apply cast_then_lock; [done|done|]. left. done.
  - apply on_polka_lock; [done|done|]. apply Hsee.
    unfold polka_value in Hp. destruct (_ && _); [|done].
    destruct (value_with_quorum Prevote (tm_round s) s) as [v0|] eqn:Eq; simpl in Hp; [|done].
    destruct (acceptable v0 s); [|done]. injection Hp as <-.
    eapply value_with_quorum_Some; [apply (ok_books s Hok)|done].
  - apply cast_then_lock; [done|done|]. by right.
  - unfold tm_lock, arm. by case_bool_decide.
Qed.

(** The rule is kept along a sequence of moves that ends in a state whose
    quorums of prevotes are covered by [polka]. *)
Lemma moves_lock c c' :
  tm_ok c.1 -> is_Some c.1.(tm_me) -> sees c'.1 ->
  moves c c' -> tm_lock polka c.1 -> tm_lock polka c'.1.
Proof.
  intros Hok Hme Hsee Hm. induction Hm as [c|c1 c2 c3 H12 H23 IH]; [done|]. intros Hlk.
  assert (Hsee1 : sees c1.1).
  { assert (H13 : moves c1 c3) by (eapply rtc_l; done). intros r v Hq. apply Hsee.
    rewrite (same_n _ _ (moves_setting _ _ H13)).
    etransitivity; [exact Hq|]. by apply moves_count_mono. }
  apply IH; [by apply (move_ok _ _ H12)| |done|by apply (move_lock _ _ Hok Hme Hsee1 H12)].
  by rewrite (same_me _ _ (move_setting _ _ H12)).
Qed.

End Lock.
