(* ===== verification/TendermintSafety.v ===== *)
(** * A network of validators: agreement

    Validators running the engine of [Tendermint] at one height, some of them
    Byzantine, over a network that delivers votes late, repeatedly, out of
    order or not at all.  Honest validators may crash at any moment and resume
    from what they wrote to disk.  No two honest validators decide different
    values as long as fewer than a third of the committee is Byzantine. *)
From stdpp Require Import functions.
From S2P Require Import Prelude Tendermint TendermintFacts TendermintSpec.
From S2P Require Import TendermintHandlers TendermintLock.
Local Open Scope Z_scope.

(** A vote as it travels: sender, kind, round, value. *)
Abbreviation VoteMsg := (nat * (VoteKind * Z * option ValueId))%type.

Record World : Type := MkWorld {
  w_node : nat -> Tendermint;
  w_wal : nat -> option Saved;
  w_votes : list VoteMsg;
}.

(** What happens next: an operation is called at an honest validator, with a
    choice of whether the driver writes the state to disk even though no vote
    was sent, or an honest validator restarts. *)
Inductive Label : Type :=
| LEvent (order : HashOrder) (i : nat) (now : Z) (e : Event) (persist : bool)
| LRestart (i : nat).

Section Network.
Context (height : Z) (n : nat) (timeouts : Timeouts) (byz : gset nat).

Definition fresh (i : nat) : Tendermint := new height n (Some i) timeouts.

Definition w_init : World :=
  {| w_node := fresh; w_wal := fun _ => None; w_votes := [] |}.

(** Signatures: a vote that claims to be from an honest validator was sent by it. *)
Definition authentic (w : World) (e : Event) : bool :=
  match e with
  | EvVote kind round from value =>
      bool_decide (from ∈ byz) || bool_decide ((from, (kind, round, value)) ∈ w.(w_votes))
  | _ => true
  end.

(** [Driver::build]: a new engine, restored from the write-ahead log if there is one. *)
Definition reboot (w : World) (i : nat) : Tendermint :=
  match w.(w_wal) i with
  | None => fresh i
  | Some sv => restore sv (fresh i)
  end.

(** [Driver::apply]: the log is written before votes leave the node. *)
Definition exec (w : World) (l : Label) : option World :=
  match l with
  | LEvent order i now e persist =>
      if bool_decide (i < n)%nat && bool_decide (i ∉ byz) && bool_decide (event_typed e) &&
         authentic w e
      then
        let '(s, out) := handle now e (w.(w_node) i) in
        let vs := votes_in out in
        Some {| w_node := <[i := s]> w.(w_node);
                w_wal := if bool_decide (vs = []) && negb persist then w.(w_wal)
                         else <[i := Some (saved s)]> w.(w_wal);
                w_votes := w.(w_votes) ++ (pair i <$> vs) |}
      else None
  | LRestart i =>
      if bool_decide (i < n)%nat && bool_decide (i ∉ byz) then
        Some {| w_node := <[i := reboot w i]> w.(w_node);
                w_wal := w.(w_wal);
                w_votes := w.(w_votes) |}
      else None
  end.

Inductive reachable : World -> Prop :=
| reach_init : reachable w_init
| reach_step w l w' : reachable w -> exec w l = Some w' -> reachable w'.

(** ** The invariant *)

(** The votes for a value that a world records. *)
Definition history (w : World) : History :=
  fun i kind r v => (i < n)%nat /\ (w.(w_node) i).(tm_sent) !! (r, kind) = Some (Some v).

Definition polka (w : World) (r : Z) (v : ValueId) : Prop :=
  supported n byz (history w) Prevote r v.

Definition honest (i : nat) : Prop := (i < n)%nat /\ i ∉ byz.

(** A state on disk from which a restart is safe. *)
Record saved_ok (w : World) (i : nat) (sv : Saved) : Prop := {
  so_height : sv.(sv_height) = height;
  so_round : in_u32 sv.(sv_round);
  so_sent : lists_sent sv.(sv_sent) (w.(w_node) i).(tm_sent);
  so_lock : lock_inv (polka w) sv.(sv_round) sv.(sv_step) sv.(sv_locked)
              (w.(w_node) i).(tm_sent);
}.

Record node_ok (w : World) (i : nat) : Prop := {
  no_ok : tm_ok (w.(w_node) i);
  no_height : (w.(w_node) i).(tm_height) = height;
  no_n : (w.(w_node) i).(tm_n) = n;
  no_me : (w.(w_node) i).(tm_me) = Some i;
  no_books : forall kind r j v, j ∉ byz ->
    v ∈ book_list (book kind (w.(w_node) i)) r j ->
    (w.(w_node) j).(tm_sent) !! (r, kind) = Some v;
  no_lock : tm_lock (polka w) (w.(w_node) i);
  no_wal : match w.(w_wal) i with
           | None => (w.(w_node) i).(tm_sent) = ∅
           | Some sv => saved_ok w i sv
           end;
  no_votes : forall k r v, (i, (k, r, v)) ∈ w.(w_votes) ->
    (w.(w_node) i).(tm_sent) !! (r, k) = Some v;
  no_decision : forall r v, (w.(w_node) i).(tm_decision) = Some (r, v) ->
    supported n byz (history w) Precommit r v;
}.

Definition world_ok (w : World) : Prop := forall i, honest i -> node_ok w i.

(** ** Votes only accumulate *)

(** The votes sent in [w] are still sent in [w']. *)
Definition grows (w w' : World) : Prop :=
  forall i, (w.(w_node) i).(tm_sent) ⊆ (w'.(w_node) i).(tm_sent).

Lemma supported_grows w w' kind r v :
  grows w w' -> supported n byz (history w) kind r v -> supported n byz (history w') kind r v.
Proof.
  intros Hg (A & HA & Hq & Hc). exists A. split_and!; [done|done|]. intros i Hi Hb.
  destruct (Hc i Hi Hb) as [Hin Hs]. split; [done|]. eapply lookup_weaken; [exact Hs|apply Hg].
Qed.

(** A quorum counted by an honest validator is a quorum of the network. *)
Lemma counted_supported `{HashOrder} w s kind r v :
  tm_ok s -> s.(tm_n) = n ->
  (forall kind r j v, j ∉ byz -> v ∈ book_list (book kind s) r j ->
     (w.(w_node) j).(tm_sent) !! (r, kind) = Some v) ->
  (quorum n <= count kind r (Some v) s)%nat ->
  supported n byz (history w) kind r v.
Proof.
  intros Hok Hn Hb Hq. rewrite count_voter_set in Hq.
  assert (HA : voter_set (book kind s) r (Some v) ⊆ committee n).
  { rewrite <-Hn. apply voter_set_committee. by apply ok_books. }
  exists (voter_set (book kind s) r (Some v)). split_and!; [done|done|].
  intros j Hj Hbyz. split; [apply elem_of_committee; set_solver|].
  apply Hb; [done|]. by apply elem_of_voter_set.
Qed.

(** A node that a step does not touch. *)
Lemma node_ok_other w w' i :
  grows w w' -> w'.(w_node) i = w.(w_node) i -> w'.(w_wal) i = w.(w_wal) i ->
  (forall m, (i, m) ∈ w'.(w_votes) -> (i, m) ∈ w.(w_votes)) ->
  node_ok w i -> node_ok w' i.
Proof.
  intros Hg Hi Hw Hv [Hok Hh Hn Hme Hb Hl Hwal Hvo Hd].
  assert (Hp : forall r v, polka w r v -> polka w' r v) by (intros r v; by apply supported_grows).
  constructor; rewrite ?Hi, ?Hw; try done.
  - intros kind r j v Hj Hin. eapply lookup_weaken; [by apply Hb|apply Hg].
  - by eapply lock_inv_weaken.
  - destruct (w_wal w i) as [sv|]; [|done]. destruct Hwal as [? ? Hs Hlk].
    constructor; rewrite ?Hi; try done. by eapply lock_inv_weaken.
  - intros k r v Hin. by apply Hvo, Hv.
  - intros r v Hdec. eapply supported_grows; [exact Hg|]. by apply Hd.
Qed.

(** ** The invariant holds in every reachable world *)

Lemma fresh_ok i : (i < n)%nat -> tm_ok (fresh i).
Proof.
  intros Hi. constructor; simpl.
  - intros j. rewrite bool_decide_true by done. by intros [= <-].
  - intros kind r m j l Hr. destruct kind; simpl in Hr; by rewrite lookup_empty in Hr.
  - intros r v p. by rewrite lookup_empty.
  - machine_lia.
  - intros j r. by rewrite lookup_empty.
Qed.

Lemma fresh_me i : (i < n)%nat -> (fresh i).(tm_me) = Some i.
Proof. intros Hi. simpl. by rewrite bool_decide_true. Qed.

Lemma fresh_lock P i : tm_lock P (fresh i).
Proof. constructor; simpl; try done; intros *; rewrite ?lookup_empty; done. Qed.

Lemma fresh_books kind i r j : book_list (book kind (fresh i)) r j = [].
Proof. destruct kind; unfold book_list; simpl; by rewrite !lookup_empty. Qed.

Lemma init_ok : world_ok w_init.
Proof.
  intros i [Hi Hb]. constructor; try done.
  - by apply fresh_ok.
  - by apply fresh_me.
  - intros kind r j v _. cbn [w_init w_node]. rewrite fresh_books. by intros ?%not_elem_of_nil.
  - by intros k r v ?%not_elem_of_nil.
Qed.

(** ** One operation at an honest validator *)

Section Operation.
Context {order : HashOrder} (w w' : World) (i : nat) (e : Event) (s1 : Tendermint)
  (out : list Action).
Hypothesis Hworld : world_ok w.
Hypothesis Hhonest : honest i.
Hypothesis Hauth : authentic w e = true.
Hypothesis Hin : input e (w.(w_node) i) s1.
Hypothesis Hok1 : tm_ok s1.
Hypothesis Hmoves : moves (s1, []) (w'.(w_node) i, out).
Hypothesis Hothers : forall j, j <> i -> w'.(w_node) j = w.(w_node) j.

Lemma op_ok : tm_ok (w'.(w_node) i).
Proof. by apply (moves_ok _ _ Hmoves). Qed.

Lemma op_setting :
  let s' := w'.(w_node) i in
  s1.(tm_me) = Some i /\ s'.(tm_height) = height /\ s'.(tm_n) = n /\ s'.(tm_me) = Some i.
Proof.
  pose proof (moves_setting _ _ Hmoves) as Hs. pose proof (Hworld _ Hhonest) as [].
  destruct Hin, Hs; simpl in *. split_and!; congruence.
Qed.

Lemma op_n : (w'.(w_node) i).(tm_n) = n.
Proof. apply op_setting. Qed.

Lemma op_me : s1.(tm_me) = Some i.
Proof. apply op_setting. Qed.

Lemma op_sends : sends (w.(w_node) i).(tm_sent) (votes_in out) (w'.(w_node) i).(tm_sent).
Proof.
  destruct (moves_sends _ _ Hmoves) as (vs & Hvs & Hs). simpl in Hvs, Hs. subst vs.
  by rewrite (in_sent _ _ _ Hin) in Hs.
Qed.

Lemma op_grows : grows w w'.
Proof.
  intros j. destruct (decide (j = i)) as [->|Hj]; [|by rewrite Hothers].
  apply (sends_keep _ _ _ op_sends).
Qed.

Lemma op_polka r v : polka w r v -> polka w' r v.
Proof. apply supported_grows, op_grows. Qed.

(** Every vote of an honest validator in the books was sent by it. *)
Lemma op_books kind r j v :
  j ∉ byz -> v ∈ book_list (book kind (w'.(w_node) i)) r j ->
  (w'.(w_node) j).(tm_sent) !! (r, kind) = Some v.
Proof.
  intros Hj Hv.
  assert (Hjn : (j < n)%nat).
  { rewrite <-elem_of_committee, <-op_n.
    eapply voter_set_committee; [apply (ok_books _ op_ok kind)|]. by apply elem_of_voter_set. }
  pose proof (no_books _ _ (Hworld _ Hhonest)) as Hb.
  apply (moves_book_own _ _ _ _ _ _ Hmoves) in Hv as [Hv|[Hji Hv]].
  - eapply lookup_weaken; [|apply op_grows]. simpl in Hv.
    destruct (in_books _ _ _ Hin kind) as [Hbk|(r0 & from & v0 & -> & _ & Hbk)];
      rewrite Hbk in Hv; [by apply Hb|].
    apply elem_of_book_record in Hv as [Hv|(-> & -> & ->)]; [by apply Hb|].
    simpl in Hauth. rewrite bool_decide_false in Hauth by done.
    apply bool_decide_eq_true in Hauth. by apply (no_votes _ _ (Hworld from (conj Hjn Hj))).
  - simpl in Hji. rewrite op_me in Hji. by injection Hji as <-.
Qed.

Lemma op_counted kind r v :
  (quorum (w'.(w_node) i).(tm_n) <= count kind r (Some v) (w'.(w_node) i))%nat ->
  supported n byz (history w') kind r v.
Proof. rewrite op_n. apply counted_supported; [apply op_ok|apply op_n|apply op_books]. Qed.

Lemma op_lock : tm_lock (polka w') (w'.(w_node) i).
Proof.
  apply (moves_lock (polka w') (s1, []) (w_node w' i, out) Hok1); simpl;
    [by rewrite op_me|intros r v; apply op_counted|done|].
  unfold tm_lock. rewrite (in_round _ _ _ Hin), (in_step _ _ _ Hin), (in_locked _ _ _ Hin),
    (in_sent _ _ _ Hin).
  eapply lock_inv_weaken; [apply op_polka|]. apply (no_lock _ _ (Hworld _ Hhonest)).
Qed.

(** The state the driver writes to disk. *)
Lemma op_saved : saved_ok w' i (saved (w'.(w_node) i)).
Proof.
  constructor; simpl.
  - apply op_setting.
  - apply (ok_round _ op_ok).
  - apply saved_lists_sent.
  - apply op_lock.
Qed.

(** Without a vote to send the old log still describes the node. *)
Lemma op_wal_kept :
  votes_in out = [] ->
  match w.(w_wal) i with
  | None => (w'.(w_node) i).(tm_sent) = ∅
  | Some sv => saved_ok w' i sv
  end.
Proof.
  intros Hnil. pose proof op_sends as Hs. rewrite Hnil in Hs.
  assert ((w_node w' i).(tm_sent) = (w_node w i).(tm_sent)) as E by by apply sends_nil_eq.
  pose proof (no_wal _ _ (Hworld _ Hhonest)) as Hwal.
  destruct (w_wal w i) as [sv|]; [|by rewrite E]. destruct Hwal as [? ? Hso Hsl].
  constructor; rewrite ?E; try done. eapply lock_inv_weaken; [apply op_polka|done].
Qed.

Lemma op_decision r v :
  (w'.(w_node) i).(tm_decision) = Some (r, v) -> supported n byz (history w') Precommit r v.
Proof.
  intros Hdec.
  destruct (moves_decision (s1, []) (w_node w' i, out) Hok1 Hmoves)
    as [E|(_ & r0 & v0 & E & Hq & _)]; simpl in E; rewrite E in Hdec.
  - eapply supported_grows; [apply op_grows|]. apply (no_decision _ _ (Hworld _ Hhonest)).
    by rewrite <-(in_decision _ _ _ Hin).
  - injection Hdec as <- <-. by apply op_counted.
Qed.

End Operation.

Lemma exec_event_ok (order : HashOrder) w i now e persist w' :
  world_ok w -> exec w (LEvent order i now e persist) = Some w' ->
  grows w w' /\ world_ok w'.
Proof.
  intros Hw. unfold exec. case_bool_decide as Hi; [|done]. case_bool_decide as Hbyz; [|done].
  case_bool_decide as Hty; [|done]. destruct (authentic w e) eqn:Hauth; [|done].
  cbn [andb]. destruct (handle now e (w_node w i)) as [s' out] eqn:Eh. intros [= <-].
  assert (Hhon : honest i) by done. pose proof (Hw i Hhon) as Hnode.
  destruct (handle_moves now e (w_node w i) (no_ok _ _ Hnode) Hty) as (s1 & Hin & Hok1 & Hm).
  rewrite Eh in Hm. set (w' := MkWorld _ _ _).
  assert (Hni : w_node w' i = s') by apply fn_lookup_insert.
  assert (Hoth : forall j, j <> i -> w_node w' j = w_node w j)
    by (intros j Hj; by apply fn_lookup_insert_ne).
  rewrite <-Hni in Hm.
  destruct (op_setting w w' i e s1 out Hw Hhon Hin Hm) as (_ & Hh & Hn & Hme).
  pose proof (op_sends w w' i e s1 out Hin Hm) as Hs.
  assert (Hg : grows w w') by by eapply op_grows. split; [done|].
  intros j [Hjn Hj]. destruct (decide (j = i)) as [->|Hne].
  2:{ apply (node_ok_other w); auto.
      - simpl. destruct (_ && _); [done|]. by rewrite fn_lookup_insert_ne.
      - intros m. simpl. rewrite elem_of_app, list_elem_of_fmap.
        intros [Hm'|(x & [= -> ->] & _)]; done.
      - by apply Hw. }
  constructor; try done.
  - by eapply op_ok.
  - by eapply op_books.
  - by eapply op_lock.
  - destruct (decide (votes_in out = [] /\ persist = false)) as [[Hnil ->]|Hor].
    + simpl. rewrite bool_decide_true by done. by eapply op_wal_kept.
    + assert (w_wal w' i = Some (saved (w_node w' i))) as ->; [|by eapply op_saved].
      rewrite Hni. simpl. case_bool_decide; destruct persist; simpl; try apply fn_lookup_insert.
      by destruct Hor.
  - intros k r v. simpl w_votes. rewrite elem_of_app, list_elem_of_fmap.
    intros [Hv|(x & [= <-] & Hx)].
    + eapply lookup_weaken; [by apply (no_votes _ _ Hnode)|apply (sends_keep _ _ _ Hs)].
    + by apply (sends_new _ _ _ Hs).
  - by eapply op_decision.
Qed.

(** ** Restarts *)

Lemma reboot_restores w i :
  honest i -> node_ok w i ->
  tm_ok (reboot w i) /\ (reboot w i).(tm_sent) = (w.(w_node) i).(tm_sent) /\
  tm_lock (polka w) (reboot w i) /\
  (reboot w i).(tm_height) = height /\ (reboot w i).(tm_n) = n /\
  (reboot w i).(tm_me) = Some i /\ (reboot w i).(tm_decision) = None /\
  forall kind r j v, v ∈ book_list (book kind (reboot w i)) r j ->
    j = i /\ (w.(w_node) i).(tm_sent) !! (r, kind) = Some v.
Proof.
  intros [Hi Hbyz] Hnode. unfold reboot. pose proof (no_wal _ _ Hnode) as Hwal.
  destruct (w_wal w i) as [sv|].
  - destruct Hwal as [Hh Hr Hs Hl]. unfold restore. rewrite Hh.
    rewrite bool_decide_false by (by intros []). cbn [orb fresh new tm_started].
    set (s0 := set_valid _ _).
    destruct (foldl_restore s0 (sv_sent sv)) as ((E1 & E2 & E3 & E4 & E5 & E6 & E7 & E8 & E9 & E10) &
      Hok & Hb).
    pose proof (foldl_restore_sent s0 (sv_sent sv) _ eq_refl Hs) as Esent.
    assert (Hok0 : tm_ok s0).
    { pose proof (fresh_ok i Hi) as Hf. by keep_ok (fresh i) Hf. }
    set (s1 := foldl restore_sent s0 _) in *.
    assert (Eme : tm_me s0 = Some i) by (by apply fresh_me).
    split_and!.
    + specialize (Hok Hok0). by keep_ok s1 Hok.
    + done.
    + unfold tm_lock. simpl. by rewrite E5, E6, E7, Esent.
    + done.
    + done.
    + simpl. by rewrite E3.
    + done.
    + intros kind r j v Hv. assert (Hv' : v ∈ book_list (book kind s1) r j) by (by destruct kind).
      apply Hb in Hv' as [Hv'|[Hj Hv']].
      * assert (book_list (book kind s0) r j = []) as E by apply (fresh_books kind i).
        rewrite E in Hv'. by apply not_elem_of_nil in Hv'.
      * rewrite Eme in Hj. injection Hj as ->. split; [done|]. by apply Hs.
  - split_and!; try done.
    + by apply fresh_ok.
    + by apply fresh_me.
    + intros kind r j v. rewrite fresh_books. by intros ?%not_elem_of_nil.
Qed.

Lemma exec_restart_ok w i w' :
  world_ok w -> exec w (LRestart i) = Some w' -> grows w w' /\ world_ok w'.
Proof.
  intros Hw. unfold exec. case_bool_decide as Hi; [|done]. case_bool_decide as Hbyz; [|done].
  intros [= <-]. assert (Hhon : honest i) by done. pose proof (Hw i Hhon) as Hnode.
  destruct (reboot_restores w i Hhon Hnode) as (Hok & Hs & Hl & Hh & Hn & Hme & Hd & Hb).
  set (w' := MkWorld _ _ _).
  assert (Hni : w_node w' i = reboot w i) by apply fn_lookup_insert.
  assert (Hoth : forall j, j <> i -> w_node w' j = w_node w j)
    by (intros j Hj; by apply fn_lookup_insert_ne).
  assert (Hsent : forall j, tm_sent (w_node w' j) = tm_sent (w_node w j)).
  { intros j. destruct (decide (j = i)) as [->|Hj]; [by rewrite Hni|by rewrite Hoth]. }
  assert (Hg : grows w w') by (intros j; by rewrite Hsent). split; [done|].
  assert (Hp : forall r v, polka w r v -> polka w' r v) by (intros r v; by apply supported_grows).
  intros j [Hjn Hj]. destruct (decide (j = i)) as [->|Hne].
  2:{ apply (node_ok_other w); auto. by apply Hw. }
  constructor; rewrite ?Hni; try done.
  - intros kind r j v _ Hv. apply Hb in Hv as [-> Hv]. by rewrite Hsent.
  - by eapply lock_inv_weaken.
  - simpl. rewrite Hs. pose proof (no_wal _ _ Hnode) as Hwal.
    destruct (w_wal w i) as [sv|]; [|done]. destruct Hwal as [? ? ? ?].
    constructor; rewrite ?Hsent; try done. by eapply lock_inv_weaken.
  - intros k r v Hv. rewrite Hs. by apply (no_votes _ _ Hnode).
  - intros r v. by rewrite Hd.
Qed.

(** ** Runs of the network *)

Lemma exec_ok w l w' : world_ok w -> exec w l = Some w' -> grows w w' /\ world_ok w'.
Proof. destruct l; [apply exec_event_ok|apply exec_restart_ok]. Qed.

Lemma reachable_ok w : reachable w -> world_ok w.
Proof. induction 1 as [|w l w' _ IH Hx]; [apply init_ok|by apply (exec_ok w l)]. Qed.

(** A schedule, executed. *)
Fixpoint run (w : World) (ls : list Label) : option World :=
  match ls with
  | [] => Some w
  | l :: ls => w' ← exec w l; run w' ls
  end.

Lemma run_grows w ls w' : world_ok w -> run w ls = Some w' -> grows w w' /\ world_ok w'.
Proof.
  revert w; induction ls as [|l ls IH]; intros w Hw; simpl.
  - intros [= <-]. split; [by intros i|done].
  - destruct (exec w l) as [w1|] eqn:E; [|done]. simpl. intros Hr.
    destruct (exec_ok _ _ _ Hw E) as [Hg1 Hw1]. destruct (IH _ Hw1 Hr) as [Hg2 Hw2].
    split; [|done]. intros i. etrans; [apply Hg1|apply Hg2].
Qed.

Lemma run_reachable w ls w' : reachable w -> run w ls = Some w' -> reachable w'.
Proof.
  revert w; induction ls as [|l ls IH]; intros w Hw; simpl; [by intros [= <-]|].
  destruct (exec w l) as [w1|] eqn:E; [|done]. apply IH. by eapply reach_step.
Qed.

Lemma reachable_run w : reachable w -> exists ls, run w_init ls = Some w.
Proof.
  assert (Happ : forall ls w0 w1 l w2, run w0 ls = Some w1 -> exec w1 l = Some w2 ->
    run w0 (ls ++ [l]) = Some w2).
  { clear w. intros ls. induction ls as [|l0 ls IH]; intros w0 w1 l w2; simpl.
    - intros [= ->] ->. done.
    - destruct (exec w0 l0); [|done]. apply IH. }
  induction 1 as [|w l w' _ [ls Hls] Hx]; [by exists []|]. exists (ls ++ [l]). by eapply Happ.
Qed.

(** The engine keeps the three rules of [LockedVoting]. *)
#[global] Instance world_locked w : world_ok w -> LockedVoting n byz (history w).
Proof.
  intros Hw. split.
  - intros i kind r v v' _ [_ H1] [_ H2]. congruence.
  - intros i r v Hb [Hi Hs]. by apply (lk_polka _ _ _ _ _ (no_lock _ _ (Hw i (conj Hi Hb)))).
  - intros i r v r' v' Hb [Hi H1] [_ H2] Hlt.
    by apply (lk_justified _ _ _ _ _ (no_lock _ _ (Hw i (conj Hi Hb))) r v r' v').
Qed.

Lemma decisions_agree w ls w' i j r v r' v' :
  (3 * size byz < n)%nat -> world_ok w -> run w ls = Some w' -> honest i -> honest j ->
  (w.(w_node) i).(tm_decision) = Some (r, v) -> (w'.(w_node) j).(tm_decision) = Some (r', v') ->
  v = v'.
Proof.
  intros Hf Hw Hrun Hi Hj H1 H2. destruct (run_grows _ _ _ Hw Hrun) as [Hg Hw'].
  pose proof (world_locked w' Hw').
  eapply (precommitted_agree (n := n) (byz := byz) (cast := history w') Hf).
  - eapply supported_grows; [exact Hg|]. by apply (no_decision _ _ (Hw i Hi)).
  - by apply (no_decision _ _ (Hw' j Hj)).
Qed.

End Network.
