(* ===== verification/TendermintTheorems.v ===== *)
(** * The theorems about the Tendermint engine

    Single-validator lemmas on saving, skipping, deciding and timeouts, and then
    the engine's properties, each with a concrete run where it has hypotheses. *)
From S2P Require Import Prelude Tendermint TendermintFacts TendermintSpec.
From S2P Require Import TendermintHandlers TendermintLock TendermintSafety.
Local Open Scope Z_scope.

Section Validator.
Context `{HashOrder}.

(** ** Decisions are not missed *)

Lemma find_decision_in_complete rounds s r v :
  StronglySorted Z.le rounds -> r ∈ rounds ->
  value_with_quorum Precommit r s = Some v -> acceptable v s = true ->
  exists r' v', find_decision_in rounds s = Some (r', v') /\ r' <= r.
Proof.
  intros Hs Hr Hq Ha. induction Hs as [|r0 rounds Hs IH Hall]; [by apply not_elem_of_nil in Hr|].
  simpl. apply elem_of_cons in Hr as [<-|Hr].
  - rewrite Hq, Ha. by exists r, v.
  - specialize (IH Hr). rewrite Forall_forall in Hall. specialize (Hall r Hr).
    destruct (value_with_quorum Precommit r0 s) as [v0|]; [|done].
    destruct (acceptable v0 s); [|done]. by exists r0, v0.
Qed.

Lemma btree_keys_sorted {A} (m : gmap Z A) : StronglySorted Z.le (btree_iter m).*1.
Proof.
  assert (Hs : StronglySorted (fun x y : Z * A => (x.1 <=? y.1) = true) (btree_iter m)).
  { apply stable_sort_sorted; intros *; rewrite ?Z.leb_le, ?Z.leb_gt; lia. }
  induction Hs as [|x l Hs IH Hall]; simpl; constructor; [done|].
  apply Forall_fmap. eapply Forall_impl; [exact Hall|]. simpl. intros y. apply Z.leb_le.
Qed.

Lemma find_decision_complete s r v :
  value_with_quorum Precommit r s = Some v -> acceptable v s = true ->
  exists r' v', find_decision s = Some (r', v') /\ r' <= r.
Proof.
  intros Hq Ha. eapply find_decision_in_complete; eauto using btree_keys_sorted.
  unfold value_with_quorum in Hq. simpl in Hq.
  destruct (tm_precommits s !! r) as [m|] eqn:E; [|done].
  apply list_elem_of_fmap. exists (r, m). split; [done|]. by apply elem_of_btree_iter.
Qed.

(** Once decided, the loop of [progress] leaves everything alone. *)
Lemma progress_decided now s out :
  s.(tm_decision) <> None -> progress now s out = (s, out).
Proof.
  intros Hd. unfold progress, PROGRESS_FUEL. simpl. unfold progress_body, try_decide.
  destruct (tm_decision s) eqn:E; [|done]. by rewrite bool_decide_true by by rewrite E.
Qed.

Lemma progress_decides now s out d :
  s.(tm_decision) = None -> find_decision s = Some d ->
  progress now s out = (set_timers [] (set_decision (Some d) s), out ++ [ActDecide d.1 d.2]).
Proof.
  intros Hn Hd. unfold progress, PROGRESS_FUEL. simpl. unfold progress_body, try_decide.
  rewrite Hn, Hd. simpl. done.
Qed.

(** ** Skipping rounds *)

Lemma sorted_desc_prefix (l : list Z) (k : nat) (r : Z) :
  StronglySorted (fun a b => (b <=? a) = true) l -> l !! k = Some r ->
  (S k <= length (filter (fun x : Z => (r <= x)%Z) l))%nat.
Proof.
  intros Hs. revert k. induction Hs as [|x l Hs IH Hall]; intros k Hk; [done|].
  assert (Hx : r <= x).
  { destruct k as [|k]; simpl in Hk; [injection Hk as ->; lia|].
    rewrite Forall_forall in Hall. apply list_elem_of_lookup_2, Hall, Z.leb_le in Hk. done. }
  rewrite filter_cons_True by done. simpl.
  destruct k as [|k]; [lia|]. simpl in Hk. specialize (IH k Hk). lia.
Qed.

Lemma filter_snd_length {A} (P : Z -> Prop) `{forall x, Decision (P x)} (l : list (A * Z)) :
  length (filter P l.*2) = length (filter (fun e => P e.2) l).
Proof. induction l as [|e l IH]; simpl; [done|]. rewrite !filter_cons; simpl. repeat case_decide; simpl; auto. Qed.

(** The members that justify a skip to round [r]. *)
Definition ahead (s : Tendermint) (r : Z) : gset nat :=
  list_to_set (filter (fun e : nat * Z => r <= e.2)
    (filter (fun '(who, _) => Some who <> s.(tm_me)) (hash_iter s.(tm_highest)))).*1.

Lemma elem_of_ahead s r i :
  i ∈ ahead s r <-> Some i <> s.(tm_me) /\ exists ri, s.(tm_highest) !! i = Some ri /\ r <= ri.
Proof.
  unfold ahead. rewrite elem_of_list_to_set, list_elem_of_fmap. split.
  - intros ([j rj] & -> & [Hr [Hme Hin]%list_elem_of_filter]%list_elem_of_filter).
    apply elem_of_hash_iter in Hin. eauto.
  - intros (Hme & ri & Hi & Hr). exists (i, ri). split; [done|].
    apply list_elem_of_filter. split; [done|]. apply list_elem_of_filter. split; [done|].
    by apply elem_of_hash_iter.
Qed.

Lemma skip_target_ahead s r :
  skip_target s = Some r -> (skip_threshold s.(tm_n) <= size (ahead s r))%nat.
Proof.
  unfold skip_target. set (l := filter _ (hash_iter _)).
  destruct (stable_sort _ _ !! _) as [t|] eqn:Ek; simpl; [|done].
  case_bool_decide; [|done]. intros [= ->].
  assert (Hn : NoDup (filter (fun e : nat * Z => r <= e.2) l).*1).
  { eapply sublist_NoDup; [apply (NoDup_hash_iter_keys s.(tm_highest))|]. apply sublist_fmap.
    etrans; apply sublist_filter. }
  unfold ahead. fold l. rewrite size_list_to_set, length_fmap by done.
  rewrite <-(filter_snd_length (fun x : Z => r <= x)).
  apply sorted_desc_prefix in Ek.
  - rewrite (stable_sort_perm (fun a b : Z => b <=? a) l.*2) in Ek.
    unfold skip_threshold in *. lia.
  - apply stable_sort_sorted; intros *; rewrite ?Z.leb_le, ?Z.leb_gt; lia.
Qed.

Lemma skip_threshold_third n f : (3 * f < n)%nat -> (f < skip_threshold n)%nat.
Proof.
  intros Hf. unfold skip_threshold, quorum. pose proof (Nat.div_mod_eq (2 * n) 3).
  pose proof (Nat.mod_upper_bound (2 * n) 3). lia.
Qed.

(** ** Saving *)

Lemma kind_index_inj k k' : kind_index k = kind_index k' -> k = k'.
Proof. by destruct k, k'. Qed.

Lemma sent_leb_total a b : sent_leb a b = false -> sent_leb b a = true.
Proof.
  destruct a as [[ra ka] va], b as [[rb kb] vb]. unfold sent_leb.
  rewrite orb_false_iff, orb_true_iff, andb_false_iff, andb_true_iff.
  rewrite !Z.ltb_lt, !Z.ltb_ge, !Z.eqb_eq, !Z.eqb_neq, !Z.leb_le, !Z.leb_gt. lia.
Qed.

Lemma sent_leb_trans a b c : sent_leb a b = true -> sent_leb b c = true -> sent_leb a c = true.
Proof.
  destruct a as [[ra ka] va], b as [[rb kb] vb], c as [[rc kc] vc]. unfold sent_leb.
  rewrite !orb_true_iff, !andb_true_iff, !Z.ltb_lt, !Z.eqb_eq, !Z.leb_le. lia.
Qed.

Lemma sent_leb_antisym a b :
  sent_leb a b = true -> sent_leb b a = true -> a.1 = b.1.
Proof.
  destruct a as [[ra ka] va], b as [[rb kb] vb]. unfold sent_leb.
  rewrite !orb_true_iff, !andb_true_iff, !Z.ltb_lt, !Z.eqb_eq, !Z.leb_le. intros Hab Hba.
  simpl. f_equal; [lia|]. apply kind_index_inj. lia.
Qed.

(** ** Casting a vote at most once *)

(** All that an operation of the engine does to one validator's votes. *)
Lemma handle_sends now e s :
  tm_ok s -> event_typed e ->
  sends s.(tm_sent) (votes_in (handle now e s).2) (handle now e s).1.(tm_sent).
Proof.
  intros Hok Hty. destruct (handle_moves now e s Hok Hty) as (s1 & Hin & _ & Hm).
  destruct (moves_sends _ _ Hm) as (vs & Hvs & Hs). simpl in Hvs, Hs. subst vs.
  by rewrite (in_sent _ _ _ Hin) in Hs.
Qed.

End Validator.

Lemma saved_sent_perm (o1 o2 : HashOrder) s :
  (@saved o1 s).(sv_sent) = (@saved o2 s).(sv_sent).
Proof.
  unfold saved. simpl. apply stable_sort_unique.
  - apply sent_leb_total.
  - apply sent_leb_trans.
  - intros x y Hx Hy Hxy Hyx. pose proof (sent_leb_antisym _ _ Hxy Hyx) as E.
    destruct x as [[r k] v], y as [[r' k'] v']. simpl in E. injection E as -> ->.
    assert (Hin : forall v0, (r', k', v0) ∈ map (fun '(r, k, v) => (r, k, v)) (@hash_iter o1 _ _ _ _ (tm_sent s)) ->
      s.(tm_sent) !! (r', k') = Some v0).
    { intros v0. rewrite list_elem_of_In, in_map_iff. intros ([[r0 k0] w0] & [= -> -> ->] & Hi).
      apply (@elem_of_hash_iter o1). by apply list_elem_of_In. }
    apply Hin in Hx, Hy. congruence.
  - apply (fmap_Permutation (fun '(r, k, v) => (r, k, v))). by rewrite !hash_iter_perm.
Qed.

(** ** Timeouts *)

Definition timeouts_typed (t : Timeouts) : Prop :=
  in_u64 t.(first_propose_ms) /\ in_u64 t.(propose_ms) /\ in_u64 t.(prevote_ms) /\
  in_u64 t.(precommit_ms) /\ in_u64 t.(per_round_ms) /\ in_u64 t.(cap_ms).

#[export] Instance timeouts_typed_dec t : Decision (timeouts_typed t).
Proof. unfold timeouts_typed. apply _. Defined.

Lemma timeouts_base_typed t timer r : timeouts_typed t -> in_u64 (timeouts_base t timer r).
Proof. intros (? & ? & ? & ? & ? & ?). destruct timer; simpl; try case_bool_decide; done. Qed.

(** ** A network to evaluate

    Four validators, the last of them Byzantine; validator 0 proposes round 0
    of height 4.  The Byzantine validator votes for both [V] and [W]. *)
Module Demo.

Definition V : ValueId := repeat 7 32.
Definition W : ValueId := repeat 9 32.
Definition byz : gset nat := {[3%nat]}.

Definition exec4 := exec 4 4 Timeouts_default byz.
Definition run4 := run 4 4 Timeouts_default byz.
Definition init4 := w_init 4 4 Timeouts_default.

Definition at_ (i : nat) (e : Event) : Label := LEvent list_order i 1000 e false.

Definition all_votes (kind : VoteKind) (to : nat) (v : ValueId) : list Label :=
  (fun from => at_ to (EvVote kind 0 from (Some v))) <$>
    filter (fun from => from <> to) [0%nat; 1%nat; 2%nat].

(** The three honest validators vote for [V]; validator 0 decides. *)
Definition first_part : list Label :=
  (fun i => at_ i EvStart) <$> [0%nat; 1%nat; 2%nat].
Definition prevote_part : list Label :=
  ((fun i => at_ i (EvProposal 0 0 V None true)) <$> [0%nat; 1%nat; 2%nat]) ++
  [at_ 0 (EvVote Prevote 0 3 (Some W)); at_ 1 (EvVote Prevote 0 3 (Some V))] ++
  ([0%nat; 1%nat; 2%nat] ≫= fun i => all_votes Prevote i V).
Definition decide_part : list Label := all_votes Precommit 0 V.

(** Validator 1 crashes, restarts, is told everything again and decides. *)
Definition late_part : list Label :=
  [LRestart 1; at_ 1 EvStart; at_ 1 (EvProposal 0 0 V None true);
   at_ 1 (EvVote Precommit 0 3 (Some W))] ++
  all_votes Prevote 1 V ++ all_votes Precommit 1 V.

Definition early : World := default init4 (run4 init4 (first_part ++ prevote_part ++ decide_part)).
Definition late : World := default early (run4 early late_part).

Lemma early_run : run4 init4 (first_part ++ prevote_part ++ decide_part) = Some early.
Proof. apply is_Some_default. vm_compute. reflexivity. Qed.

Lemma late_run : run4 early late_part = Some late.
Proof. apply is_Some_default. vm_compute. reflexivity. Qed.

Lemma honest4 i : bool_decide (i < 4)%nat && bool_decide (i ∉ byz) = true -> honest 4 byz i.
Proof. intros [?%bool_decide_eq_true ?%bool_decide_eq_true]%andb_prop. done. Qed.

(** Validator 0 one precommit short of a decision. *)
Definition brink_world : World :=
  default init4 (run4 init4 (first_part ++ prevote_part ++ take 1 decide_part)).
Definition brink : Tendermint := brink_world.(w_node) 0%nat.

Lemma brink_ok : tm_ok brink.
Proof.
  assert (E : run4 init4 (first_part ++ prevote_part ++ take 1 decide_part) = Some brink_world)
    by (apply is_Some_default; vm_compute; reflexivity).
  assert (Hw : world_ok 4 4 byz brink_world)
    by (eapply reachable_ok, run_reachable; [apply reach_init|exact E]).
  apply (no_ok _ _ _ _ _ (Hw 0%nat ltac:(by apply honest4))).
Qed.

(** The precommit that is missing, recorded. *)
Definition over : Tendermint := book_mut Precommit (fun b => record b 0 2 (Some V)) brink.

(** Validators 2 and 3 are heard in rounds 5 and 6. *)
Definition behind : Tendermint := note_round 3 6 (note_round 2 5 brink).

(** Validator 1 just before it votes in round 0. *)
Definition voter : Tendermint :=
  (start 1000 (new 4 4 (Some 1%nat) Timeouts_default) (H := list_order)).1.

End Demo.

(** ** Properties of the network *)

(** C1: Agreement. Whatever the schedule of messages, timeouts, crashes and
    restarts, and whatever the Byzantine validators (fewer than a third of the
    committee) send, two honest validators never decide different values, not
    even when one decides before a crash and the other much later. *)
Theorem tendermint_agreement height n timeouts byz ls ls' w w' i j r v r' v' :
  (3 * size byz < n)%nat ->
  run height n timeouts byz (w_init height n timeouts) ls = Some w ->
  run height n timeouts byz w ls' = Some w' ->
  honest n byz i -> honest n byz j ->
  (w.(w_node) i).(tm_decision) = Some (r, v) ->
  (w'.(w_node) j).(tm_decision) = Some (r', v') ->
  v = v'.
Proof.
  intros Hf H1 H2. eapply decisions_agree; [done| |exact H2].
  eapply reachable_ok, run_reachable; [apply reach_init|exact H1].
Qed.

Lemma tendermint_agreement_witness :
  (Demo.early.(w_node) 0%nat).(tm_decision) = Some (0, Demo.V) /\
  (Demo.late.(w_node) 1%nat).(tm_decision) = Some (0, Demo.V) /\ Demo.V = Demo.V.
Proof.
  assert (H0 : (Demo.early.(w_node) 0%nat).(tm_decision) = Some (0, Demo.V))
    by (vm_compute; reflexivity).
  assert (H1 : (Demo.late.(w_node) 1%nat).(tm_decision) = Some (0, Demo.V))
    by (vm_compute; reflexivity).
  split; [exact H0|]. split; [exact H1|].
  refine (tendermint_agreement 4 4 Timeouts_default Demo.byz _ _ _ _ 0 1 0 Demo.V 0 Demo.V
            _ Demo.early_run Demo.late_run _ _ H0 H1).
  - vm_compute. lia.
  - apply Demo.honest4. reflexivity.
  - apply Demo.honest4. reflexivity.
Defined.

(** C7: No equivocation. Among all the votes an honest validator ever sends, across
    crashes and restarts, there are never two different ones of the same kind
    and round. *)
Theorem tendermint_no_equivocation height n timeouts byz ls w i kind r v v' :
  run height n timeouts byz (w_init height n timeouts) ls = Some w ->
  honest n byz i ->
  (i, (kind, r, v)) ∈ w.(w_votes) -> (i, (kind, r, v')) ∈ w.(w_votes) -> v = v'.
Proof.
  intros Hrun Hi H1 H2.
  assert (Hw : world_ok height n byz w)
    by (eapply reachable_ok, run_reachable; [apply reach_init|exact Hrun]).
  apply (no_votes _ _ _ _ _ (Hw i Hi)) in H1, H2. congruence.
Qed.

Lemma tendermint_no_equivocation_witness :
  (1%nat, (Precommit, 0, Some Demo.V)) ∈ Demo.early.(w_votes) /\ Some Demo.V = Some Demo.V.
Proof.
  assert (Hin : (1%nat, (Precommit, 0, Some Demo.V)) ∈ Demo.early.(w_votes))
    by (apply (bool_decide_eq_true_1 _); vm_compute; reflexivity).
  split; [exact Hin|].
  refine (tendermint_no_equivocation 4 4 Timeouts_default Demo.byz _ _ 1 Precommit 0 _ _
            Demo.early_run _ Hin Hin).
  apply Demo.honest4. reflexivity.
Defined.

(** The locking rule. If an honest validator precommitted [v] in round [r], a
    quorum of the committee prevoted [v] in [r]; and if it later prevotes [v']
    in a round after [r], then [v'] is the value of a quorum of prevotes of some
    round between the two. *)
Theorem tendermint_locking height n timeouts byz ls w i r v :
  run height n timeouts byz (w_init height n timeouts) ls = Some w ->
  honest n byz i -> history n w i Precommit r v ->
  supported n byz (history n w) Prevote r v /\
  forall r' v', history n w i Prevote r' v' -> r < r' ->
    exists vr, r <= vr < r' /\ supported n byz (history n w) Prevote vr v'.
Proof.
  intros Hrun [Hi Hb] Hpc.
  assert (Hw : world_ok height n byz w)
    by (eapply reachable_ok, run_reachable; [apply reach_init|exact Hrun]).
  pose proof (world_locked height n byz w Hw). split.
  - by eapply precommit_supported.
  - intros r' v' Hpv Hlt. by eapply prevote_justified.
Qed.

Lemma tendermint_locking_witness :
  supported 4 Demo.byz (history 4 Demo.early) Prevote 0 Demo.V.
Proof.
  refine (proj1 (tendermint_locking 4 4 Timeouts_default Demo.byz _ _ 0 0 Demo.V
            Demo.early_run _ _)).
  - apply Demo.honest4. reflexivity.
  - split; [lia|]. vm_compute. reflexivity.
Defined.

(** ** Properties of one validator *)

Section Properties.
Context `{HashOrder}.

(** C8: The [loop] of [progress] ends from every state, after at most five
    iterations; a larger iteration budget never changes what it computes. *)
Theorem progress_terminates fuel now s out :
  (PROGRESS_FUEL <= fuel)%nat -> progress_loop fuel now s out = Some (progress now s out).
Proof. apply progress_loop_progress. Qed.

(** [progress] reaches a fixed point: run again, at any time, it changes no
    field and emits no action. *)
Theorem progress_idempotent now now' s out out2 :
  progress now' (progress now s out).1 out2 = ((progress now s out).1, out2).
Proof. apply progress_again. Qed.

(** C9: Every operation keeps the engine well-formed: books of at most
    [VALUES_PER_VOTER] distinct values per member and of members only, rounds
    within [u32], proof-of-lock rounds below their proposal's round. *)
Theorem handle_well_formed now e s :
  tm_ok s -> event_typed e -> tm_ok (handle now e s).1.
Proof.
  intros Hok Hty. destruct (handle_moves now e s Hok Hty) as (s1 & _ & Hok1 & Hm).
  by apply (moves_ok _ _ Hm).
Qed.

(** What an operation decides is decided for good and for a reason: a decision
    already taken stays; a new one comes with a quorum of precommits in the
    validator's books for a value it holds valid and, if it carries a value over
    from an earlier height's run, for that value. *)
Theorem handle_decision now e s :
  tm_ok s -> event_typed e ->
  (forall d, s.(tm_decision) = Some d -> (handle now e s).1.(tm_decision) = Some d) /\
  (forall r v, s.(tm_decision) = None -> (handle now e s).1.(tm_decision) = Some (r, v) ->
     let s' := (handle now e s).1 in
     (quorum s'.(tm_n) <= count Precommit r (Some v) s')%nat /\
     s'.(tm_validity) !! v = Some true /\
     forall c, s'.(tm_carried) = Some c -> c = v).
Proof.
  intros Hok Hty. destruct (handle_moves now e s Hok Hty) as (s1 & Hin & Hok1 & Hm).
  destruct (moves_decision (s1, []) (handle now e s) Hok1 Hm) as [E|(En & r & v & E & Hq & Ha)];
    simpl in E; pose proof (in_decision _ _ _ Hin) as Ed; split.
  - intros d Hd. congruence.
  - intros r v Hn Hd. congruence.
  - intros d Hd. simpl in En. congruence.
  - intros r0 v0 _. rewrite E. intros [= <- <-]. simpl. split; [done|].
    unfold acceptable in Ha. apply andb_prop in Ha as [Hv Hc]. apply bool_decide_eq_true in Hv.
    split; [done|]. intros c Hcar. rewrite Hcar in Hc. by apply bool_decide_eq_true in Hc.
Qed.

(** A validator never misses a decision: as soon as the value of a quorum of
    precommits of some round is acceptable, the next run of [progress] decides,
    stops all timers and reports the decision, of that round or an earlier one. *)
Theorem progress_never_misses now s out r v :
  s.(tm_decision) = None ->
  value_with_quorum Precommit r s = Some v -> acceptable v s = true ->
  exists r' v', (progress now s out).1.(tm_decision) = Some (r', v') /\ r' <= r /\
    (progress now s out).1.(tm_timers) = [] /\
    (progress now s out).2 = out ++ [ActDecide r' v'].
Proof.
  intros Hn Hq Ha. destruct (find_decision_complete s r v Hq Ha) as (r' & v' & Hd & Hle).
  exists r', v'. rewrite (progress_decides now s out (r', v') Hn Hd). done.
Qed.

(** Rounds are skipped only behind honest validators: when the engine jumps
    ahead to round [r], some validator outside any set of less than a third
    of the committee has sent a message of round [r] or later. *)
Theorem skip_follows_honest s r (byz : gset nat) :
  (3 * size byz < s.(tm_n))%nat -> skip_target s = Some r ->
  s.(tm_round) < r /\
  exists i ri, i ∉ byz /\ Some i <> s.(tm_me) /\ s.(tm_highest) !! i = Some ri /\ r <= ri.
Proof.
  intros Hf Hs. split; [by apply skip_target_Some in Hs as [? _]|].
  apply skip_target_ahead in Hs. apply skip_threshold_third in Hf.
  destruct (decide (ahead s r ⊆ byz)) as [Hsub|Hn]; [apply subseteq_size in Hsub; lia|].
  destruct (set_choose_L (ahead s r ∖ byz)) as [i [Hi Hb]%elem_of_difference].
  { contradict Hn. intros i Hi. destruct (decide (i ∈ byz)); set_solver. }
  apply elem_of_ahead in Hi as (Hme & ri & Hi & Hr). eauto 10.
Qed.

(** A restart loses no vote: restoring what [saved] wrote into a new engine
    gives back the round, the step, the lock, the valid value and every vote
    sent, and saving that engine writes the same record again. *)
Theorem saved_restore_roundtrip s timeouts :
  let s' := restore (saved s) (new s.(tm_height) s.(tm_n) s.(tm_me) timeouts) in
  s'.(tm_round) = s.(tm_round) /\ s'.(tm_step) = s.(tm_step) /\
  s'.(tm_locked) = s.(tm_locked) /\ s'.(tm_valid) = s.(tm_valid) /\
  s'.(tm_sent) = s.(tm_sent) /\ saved s' = saved s.
Proof.
  unfold restore. simpl. rewrite bool_decide_false by (by intros []). cbn [orb].
  set (s0 := set_valid _ _).
  destruct (foldl_restore s0 (saved s).(sv_sent))
    as ((E1 & E2 & E3 & E4 & E5 & E6 & E7 & E8 & E9 & E10) & _ & _).
  pose proof (foldl_restore_sent s0 _ _ eq_refl (saved_lists_sent s)) as Es.
  unfold saved in *. simpl in *. rewrite E1, E5, E6, E7, E8, Es. split_and!; done.
Qed.

End Properties.

(** What is written to disk does not depend on the iteration order of the
    hash map of votes, so two processes save the same state as the same bytes. *)
Theorem saved_deterministic (o1 o2 : HashOrder) s : @saved o1 s = @saved o2 s.
Proof. pose proof (saved_sent_perm o1 o2 s) as E. unfold saved in *. simpl in E. by rewrite E. Qed.

(** Timeouts are bounded and never shrink: a timeout lies between its base and
    the larger of the cap and the base, fits a [u64] although the product with
    the round may not, and a later round (of the same base) waits at least as long. *)
Theorem timeouts_of_bounds t timer r r' :
  timeouts_typed t -> in_u32 r -> in_u32 r' -> r <= r' ->
  timeouts_base t timer r = timeouts_base t timer r' ->
  timeouts_base t timer r <= timeouts_of t timer r <= Z.max t.(cap_ms) (timeouts_base t timer r) /\
  in_u64 (timeouts_of t timer r) /\ timeouts_of t timer r <= timeouts_of t timer r'.
Proof.
  intros Ht Hr Hr' Hle Eb. pose proof (timeouts_base_typed t timer r Ht) as Hb.
  destruct Ht as (_ & _ & _ & _ & Hper & Hcap).
  assert (t.(per_round_ms) * r <= t.(per_round_ms) * r') by (apply Z.mul_le_mono_nonneg_l; machine_lia).
  assert (0 <= t.(per_round_ms) * r) by (apply Z.mul_nonneg_nonneg; machine_lia).
  unfold timeouts_of. rewrite <-Eb. machine_lia.
Qed.

Lemma progress_terminates_witness :
  progress_loop 9 1000 Demo.voter [] (H := list_order) =
  Some (progress 1000 Demo.voter [] (H := list_order)).
Proof. apply (progress_terminates (H := list_order)). unfold PROGRESS_FUEL. lia. Defined.

Lemma demo_voter_ok : tm_ok Demo.voter.
Proof.
  destruct (handle_moves (H := list_order) 1000 EvStart (new 4 4 (Some 1%nat) Timeouts_default))
    as (s1 & _ & Hok & Hm); [by apply (fresh_ok 4 4 Timeouts_default 1); lia|done|].
  by apply (moves_ok _ _ Hm).
Qed.

Lemma handle_well_formed_witness :
  tm_ok (handle 1000 (EvProposal 0 0 Demo.V None true) Demo.voter (H := list_order)).1.
Proof.
  apply (handle_well_formed (H := list_order)); [apply demo_voter_ok|].
  vm_compute. split; discriminate.
Defined.

Lemma handle_decision_witness :
  let s' := (handle 1000 (EvVote Precommit 0 2 (Some Demo.V)) Demo.brink (H := list_order)).1 in
  s'.(tm_decision) = Some (0, Demo.V) /\
  (quorum s'.(tm_n) <= count Precommit 0 (Some Demo.V) s' (H := list_order))%nat.
Proof.
  assert (Hd : (handle 1000 (EvVote Precommit 0 2 (Some Demo.V)) Demo.brink
    (H := list_order)).1.(tm_decision) = Some (0, Demo.V)) by (vm_compute; reflexivity).
  split; [exact Hd|].
  refine (proj1 (proj2 (handle_decision (H := list_order) 1000
    (EvVote Precommit 0 2 (Some Demo.V)) Demo.brink Demo.brink_ok _) 0 Demo.V _ Hd)).
  - vm_compute. split; discriminate.
  - vm_compute. reflexivity.
Defined.

Lemma progress_never_misses_witness :
  exists r' v', (progress 1000 Demo.over [] (H := list_order)).1.(tm_decision) = Some (r', v') /\
    r' <= 0 /\ (progress 1000 Demo.over [] (H := list_order)).1.(tm_timers) = [] /\
    (progress 1000 Demo.over [] (H := list_order)).2 = [] ++ [ActDecide r' v'].
Proof.
  apply (progress_never_misses (H := list_order) 1000 Demo.over [] 0 Demo.V);
    vm_compute; reflexivity.
Defined.

Lemma skip_follows_honest_witness :
  Demo.behind.(tm_round) < 5 /\
  exists i ri, i ∉ Demo.byz /\ Some i <> Demo.behind.(tm_me) /\
    Demo.behind.(tm_highest) !! i = Some ri /\ 5 <= ri.
Proof.
  apply (skip_follows_honest (H := list_order) Demo.behind 5 Demo.byz).
  - vm_compute. lia.
  - vm_compute. reflexivity.
Defined.

Lemma timeouts_of_bounds_witness :
  6000 <= timeouts_of Timeouts_default TimerPropose 3 <= 60000 /\
  in_u64 (timeouts_of Timeouts_default TimerPropose 3) /\
  timeouts_of Timeouts_default TimerPropose 3 <= timeouts_of Timeouts_default TimerPropose 100.
Proof.
  refine (timeouts_of_bounds Timeouts_default TimerPropose 3 100 _ _ _ _ _).
  - apply (bool_decide_eq_true_1 _). vm_compute. reflexivity.
  - machine_lia.
  - machine_lia.
  - lia.
  - reflexivity.
Defined.
