(* ===== verification/Escrow.v ===== *)
(** * The Solana escrow program

    Model of [contracts/p2p-solana/src/lib.rs]: the account layout, the
    instruction decoder and the handlers [open], [freeze] and [act].

    A transaction sees accounts by reference, and the same account may be
    passed several times, so the model keeps one shared store of accounts and
    an [AccountInfo] only names an entry of it.  A handler that fails leaves no
    trace: the runtime discards the whole transaction. *)
From S2P Require Import Prelude.
Local Open Scope Z_scope.
Local Open Scope ego_scope.

(** ** Constants *)

Abbreviation Pubkey := bytes.

(** [Pubkey::default()]. *)
Definition Pubkey_default : Pubkey := repeat 0 32.

(** The base-58 literals of the source, decoded. *)
Definition SYSTEM_PROGRAM_ID : Pubkey := repeat 0 32.
Definition TOKEN_PROGRAM_ID : Pubkey :=
  [6; 221; 246; 225; 215; 101; 161; 147; 217; 203; 225; 70; 206; 235; 121; 172;
   28; 180; 133; 237; 95; 91; 55; 145; 58; 140; 245; 133; 126; 255; 0; 169].
Definition ED25519_PROGRAM_ID : Pubkey :=
  [3; 125; 70; 214; 124; 147; 251; 190; 18; 249; 66; 143; 131; 141; 64; 255;
   5; 112; 116; 73; 39; 244; 138; 100; 252; 202; 112; 68; 128; 0; 0; 0].
Definition INSTRUCTIONS_SYSVAR_ID : Pubkey :=
  [6; 167; 213; 23; 24; 123; 209; 102; 53; 218; 212; 4; 85; 253; 194; 192;
   193; 36; 198; 143; 33; 86; 117; 165; 219; 186; 203; 95; 8; 0; 0; 0].

Definition ESCROW_SEED : bytes := ascii_bytes "escrow".
Definition VAULT_SEED : bytes := ascii_bytes "vault".
Definition AUTH_DOMAIN : bytes := ascii_bytes "ego-escrow/solana/v1".
Definition ESCROW_LEN : nat := 232.
Definition TOKEN_ACCOUNT_LEN : nat := 165.
Definition MINT_LEN : nat := 82.
Definition VERSION : Z := 1.
Definition STATE_FUNDED : Z := 1.
Definition MIN_FALLBACK : Z := 30 * 24 * 60 * 60.
Definition MAX_FALLBACK : Z := 365 * 24 * 60 * 60.
Definition MAX_FEE_BPS : Z := 1000.

Definition IX_OPEN : Z := 0.
Definition IX_RELEASE : Z := 1.
Definition IX_CANCEL : Z := 2.
Definition IX_RESOLVE : Z := 3.
Definition IX_FREEZE : Z := 4.
Definition IX_RECLAIM : Z := 5.
Definition IX_CANCEL_FOR : Z := 6.
Definition IX_FREEZE_FOR : Z := 7.

Definition ACTION_CANCEL : Z := 2.
Definition ACTION_FREEZE : Z := 5.

(** ** Errors *)

Inductive EscrowError : Type :=
| UnknownEscrow
| NotFunded
| AlreadyUsed
| BadParty
| BadAmount
| BadFallback
| NotAllowed
| TooEarly
| BadSignature
| BadAccount
| BadInstruction.

(** How an instruction fails: with an error of the program, with one of the
    runtime, or by a Rust panic. *)
Inductive ProgramError : Type :=
| Custom (e : EscrowError)
| NotEnoughAccountKeys
| Runtime (code : Z)
| Panic.

#[export] Instance EscrowError_eq_dec : EqDecision EscrowError.
Proof. solve_decision. Defined.
#[export] Instance ProgramError_eq_dec : EqDecision ProgramError.
Proof. solve_decision. Defined.

(** ** The account layout *)

Record Escrow : Type := MkEscrow {
  state : Z;
  frozen : bool;
  bump : Z;
  vault_bump : Z;
  trade_id : bytes;
  seller : Pubkey;
  buyer : Pubkey;
  arbiter : Pubkey;
  fee_receiver : Pubkey;
  mint : Pubkey;
  total : Z;
  fee : Z;
  opened_at : Z;
  fallback_at : Z;
}.

Definition set_frozen (b : bool) (e : Escrow) : Escrow :=
  MkEscrow e.(state) b e.(bump) e.(vault_bump) e.(trade_id) e.(seller) e.(buyer) e.(arbiter)
    e.(fee_receiver) e.(mint) e.(total) e.(fee) e.(opened_at) e.(fallback_at).

Definition is_native (e : Escrow) : bool := bool_decide (e.(mint) = Pubkey_default).

(** [out[at..at + src.len()].copy_from_slice(src)]; [None] is the panic of a
    range that does not fit. *)
Definition write_at (at_ : nat) (src out : bytes) : option bytes :=
  if bool_decide (at_ + length src <= length out)%nat
  then Some (take at_ out ++ src ++ drop (at_ + length src) out)
  else None.

Definition pack (e : Escrow) (out : bytes) : option bytes :=
  out ← write_at 0 [VERSION] out;
  out ← write_at 1 [e.(state)] out;
  out ← write_at 2 [if e.(frozen) then 1 else 0] out;
  out ← write_at 3 [e.(bump)] out;
  out ← write_at 4 [e.(vault_bump)] out;
  out ← write_at 5 [0; 0; 0] out;
  out ← write_at 8 e.(trade_id) out;
  out ← write_at 40 e.(seller) out;
  out ← write_at 72 e.(buyer) out;
  out ← write_at 104 e.(arbiter) out;
  out ← write_at 136 e.(fee_receiver) out;
  out ← write_at 168 e.(mint) out;
  out ← write_at 200 (u64_le e.(total)) out;
  out ← write_at 208 (u64_le e.(fee)) out;
  out ← write_at 216 (u64_le e.(opened_at)) out;
  write_at 224 (u64_le e.(fallback_at)) out.

(** [d[at..at + n]] and [d[at]] of a slice long enough. *)
Definition slice (d : bytes) (at_ n : nat) : bytes := take n (drop at_ d).
Definition byte_at (d : bytes) (at_ : nat) : Z := default 0 (d !! at_).

(** [x as i64] of a [u64]. *)
Definition as_i64 (x : Z) : Z := if bool_decide (x <= i64_max) then x else x - (u64_max + 1).

Definition unpack (d : bytes) : result Escrow ProgramError :=
  if bool_decide (length d <> ESCROW_LEN) || bool_decide (byte_at d 0 <> VERSION)
  then Err (Custom UnknownEscrow)
  else
    let key at_ := slice d at_ 32 in
    let u64_at at_ := from_le_bytes (slice d at_ 8) in
    Ok {| state := byte_at d 1;
          frozen := bool_decide (byte_at d 2 <> 0);
          bump := byte_at d 3;
          vault_bump := byte_at d 4;
          trade_id := slice d 8 32;
          seller := key 40%nat;
          buyer := key 72%nat;
          arbiter := key 104%nat;
          fee_receiver := key 136%nat;
          mint := key 168%nat;
          total := u64_at 200%nat;
          fee := u64_at 208%nat;
          opened_at := as_i64 (u64_at 216%nat);
          fallback_at := as_i64 (u64_at 224%nat) |}.

Definition auth_message (program_id escrow : Pubkey) (action : Z) : bytes :=
  AUTH_DOMAIN ++ program_id ++ escrow ++ [action].

(** ** The instruction reader *)

Record Reader : Type := MkReader {
  rd_data : bytes;
  rd_at : nat;
}.

Definition take_n (n : nat) (r : Reader) : result (bytes * Reader) ProgramError :=
  if bool_decide (r.(rd_at) + n <= length r.(rd_data))%nat
  then Ok (slice r.(rd_data) r.(rd_at) n, MkReader r.(rd_data) (r.(rd_at) + n))
  else Err (Custom BadInstruction).

Definition read_key : Reader -> result (Pubkey * Reader) ProgramError := take_n 32.
Definition read_bytes32 : Reader -> result (bytes * Reader) ProgramError := take_n 32.

Definition read_u64 (r : Reader) : result (Z * Reader) ProgramError :=
  let? '(s, r) := take_n 8 r in Ok (from_le_bytes s, r).

Definition read_u8 (r : Reader) : result (Z * Reader) ProgramError :=
  let? '(s, r) := take_n 1 r in Ok (byte_at s 0, r).

Definition read_done (r : Reader) : result unit ProgramError :=
  if bool_decide (r.(rd_at) = length r.(rd_data)) then Ok tt else Err (Custom BadInstruction).

(** ** Accounts and the runtime *)

Record Account : Type := MkAccount {
  lamports : Z;
  owner : Pubkey;
  data : bytes;
}.

(** An account that does not exist yet. *)
Definition no_account : Account :=
  {| lamports := 0; owner := SYSTEM_PROGRAM_ID; data := [] |}.

Abbreviation Store := (gmap Pubkey Account).

Definition account (st : Store) (k : Pubkey) : Account := default no_account (st !! k).

Definition set_lamports (x : Z) (a : Account) : Account := MkAccount x a.(owner) a.(data).
Definition set_owner (o : Pubkey) (a : Account) : Account := MkAccount a.(lamports) o a.(data).
Definition set_data (d : bytes) (a : Account) : Account := MkAccount a.(lamports) a.(owner) d.

Record AccountInfo : Type := MkInfo {
  key : Pubkey;
  is_signer : bool;
  is_writable : bool;
}.

Record AccountMeta : Type := MkMeta {
  meta_key : Pubkey;
  meta_signer : bool;
  meta_writable : bool;
}.

Record Instruction : Type := MkInstruction {
  ix_program : Pubkey;
  ix_accounts : list AccountMeta;
  ix_data : bytes;
}.

(** What the program calls of the Solana runtime.  [cpi ix seeds] is
    [invoke_signed(ix, .., &[seeds])], and [invoke] where [seeds] is [None]. *)
Class SolanaRuntime : Type := {
  find_program_address : list bytes -> Pubkey -> Pubkey * Z;
  create_program_address : list bytes -> Pubkey -> option Pubkey;
  rent_get : result (nat -> Z) ProgramError;
  clock_get : result Z ProgramError;
  load_current_index : result Z ProgramError;
  load_instruction_at : Z -> result Instruction ProgramError;
  cpi : Instruction -> option (list bytes) -> Store -> result Store ProgramError;
}.

(** ** The effects of a handler *)

(** A computation on the shared store that may fail. *)
Definition M (A : Type) : Type := Store -> result (A * Store) ProgramError.

#[export] Instance M_ret : MRet M := fun A a st => Ok (a, st).
#[export] Instance M_bind : MBind M := fun A B f m st =>
  match m st with
  | Ok (a, st) => f a st
  | Err e => Err e
  end.

Definition fail {A} (e : EscrowError) : M A := fun _ => Err (Custom e).
Definition bail_if (b : bool) (e : EscrowError) : M unit := if b then fail e else mret tt.
Definition lift {A} (r : result A ProgramError) : M A := fun st =>
  match r with
  | Ok a => Ok (a, st)
  | Err e => Err e
  end.
Definition or_panic {A} (o : option A) : M A := fun st =>
  match o with
  | Some a => Ok (a, st)
  | None => Err Panic
  end.
Definition read_account (k : Pubkey) : M Account := fun st => Ok (account st k, st).
Definition update_account (k : Pubkey) (f : Account -> Account) : M unit := fun st =>
  Ok (tt, <[k := f (account st k)]> st).

Section Program.
Context `{SolanaRuntime}.

Definition invoke (ix : Instruction) (seeds : option (list bytes)) : M unit := fun st =>
  match cpi ix seeds st with
  | Ok st => Ok (tt, st)
  | Err e => Err e
  end.

Definition next_account_info (it : list AccountInfo) : M (AccountInfo * list AccountInfo) :=
  match it with
  | [] => fun _ => Err NotEnoughAccountKeys
  | a :: it => mret (a, it)
  end.

(** ** Calls to the system and token programs *)

Definition system_ix (tag : Z) (body : bytes) (accounts : list AccountMeta) : Instruction :=
  {| ix_program := SYSTEM_PROGRAM_ID; ix_accounts := accounts; ix_data := u32_le tag ++ body |}.

(** [AccountMeta::new] and [AccountMeta::new_readonly]. *)
Definition meta (k : Pubkey) (signer : bool) : AccountMeta := MkMeta k signer true.
Definition meta_readonly (k : Pubkey) (signer : bool) : AccountMeta := MkMeta k signer false.

Definition create_pda (payer target : AccountInfo) (amount : Z) (space : nat) (own : Pubkey)
    (seeds : list bytes) : M unit :=
  a ← read_account target.(key);
  let current := a.(lamports) in
  if bool_decide (current = 0) then
    let body := u64_le amount ++ u64_le (Z.of_nat space) ++ own in
    invoke (system_ix 0 body [meta payer.(key) true; meta target.(key) true]) (Some seeds)
  else
    (if bool_decide (current < amount) then
       invoke (system_ix 2 (u64_le (amount - current)) [meta payer.(key) true; meta target.(key) false])
         None
     else mret tt);;
    invoke (system_ix 8 (u64_le (Z.of_nat space)) [meta target.(key) true]) (Some seeds);;
    invoke (system_ix 1 own [meta target.(key) true]) (Some seeds).

Definition token_ix (d : bytes) (accounts : list AccountMeta) : Instruction :=
  {| ix_program := TOKEN_PROGRAM_ID; ix_accounts := accounts; ix_data := d |}.

Definition transfer_checked (source mint_info dest authority : AccountInfo) (amount decimals : Z)
    (seeds : option (list bytes)) : M unit :=
  let d := [12] ++ u64_le amount ++ [decimals] in
  invoke (token_ix d [meta source.(key) false; meta_readonly mint_info.(key) false;
                      meta dest.(key) false; meta_readonly authority.(key) true]) seeds.

Record TokenAccount : Type := MkTokenAccount {
  tok_mint : Pubkey;
  tok_owner : Pubkey;
  tok_amount : Z;
}.

Definition token_account (info : AccountInfo) : M TokenAccount :=
  a ← read_account info.(key);
  let d := a.(data) in
  bail_if (bool_decide (a.(owner) <> TOKEN_PROGRAM_ID) || bool_decide (length d <> TOKEN_ACCOUNT_LEN))
    BadAccount;;
  bail_if (bool_decide (byte_at d 108 <> 1)) BadAccount;;
  mret {| tok_mint := slice d 0 32; tok_owner := slice d 32 32;
          tok_amount := from_le_bytes (slice d 64 8) |}.

Definition mint_decimals (info : AccountInfo) : M Z :=
  a ← read_account info.(key);
  let d := a.(data) in
  bail_if (bool_decide (a.(owner) <> TOKEN_PROGRAM_ID) || bool_decide (length d <> MINT_LEN))
    BadAccount;;
  bail_if (bool_decide (byte_at d 45 <> 1)) BadAccount;;
  mret (byte_at d 44).

(** ** Opening an escrow *)

(** The arguments of [IX_OPEN], in the order they are read. *)
Record OpenArgs : Type := MkOpenArgs {
  oa_trade_id : bytes;
  oa_buyer : Pubkey;
  oa_arbiter : Pubkey;
  oa_fee_receiver : Pubkey;
  oa_mint : Pubkey;
  oa_total : Z;
  oa_fee : Z;
  oa_fallback_delay : Z;
}.

(** The reads at the start of [open]. *)
Definition read_open (r : Reader) : result OpenArgs ProgramError :=
  let? '(trade_id, r) := read_bytes32 r in
  let? '(buyer, r) := read_key r in
  let? '(arbiter, r) := read_key r in
  let? '(fee_receiver, r) := read_key r in
  let? '(mint, r) := read_key r in
  let? '(total, r) := read_u64 r in
  let? '(fee, r) := read_u64 r in
  let? '(fallback_delay, r) := read_u64 r in
  let? _ := read_done r in
  Ok (MkOpenArgs trade_id buyer arbiter fee_receiver mint total fee (as_i64 fallback_delay)).

(** The token half of [open]: the vault is created, filled and checked; the
    result is its bump. *)
Definition open_vault (program_id : Pubkey) (a : OpenArgs) (seller : AccountInfo)
    (escrow_key : Pubkey) (min_balance : nat -> Z) (it : list AccountInfo) : M Z :=
  '(mint_info, it) ← next_account_info it;
  '(seller_token, it) ← next_account_info it;
  '(vault, it) ← next_account_info it;
  '(token_program, it) ← next_account_info it;
  bail_if (bool_decide (token_program.(key) <> TOKEN_PROGRAM_ID) ||
           bool_decide (mint_info.(key) <> a.(oa_mint)) || negb vault.(is_writable)) BadAccount;;
  decimals ← mint_decimals mint_info;
  let '(vault_key, vb) := find_program_address [VAULT_SEED; escrow_key] program_id in
  bail_if (bool_decide (vault.(key) <> vault_key)) BadAccount;;
  va ← read_account vault.(key);
  bail_if (bool_decide (va.(owner) <> SYSTEM_PROGRAM_ID) || bool_decide (va.(data) <> []))
    AlreadyUsed;;
  create_pda seller vault (min_balance TOKEN_ACCOUNT_LEN) TOKEN_ACCOUNT_LEN TOKEN_PROGRAM_ID
    [VAULT_SEED; escrow_key; [vb]];;
  invoke (token_ix ([18] ++ escrow_key) [meta vault_key false; meta_readonly a.(oa_mint) false]) None;;
  transfer_checked seller_token mint_info vault seller a.(oa_total) decimals None;;
  held ← token_account vault;
  bail_if (bool_decide (held.(tok_amount) <> a.(oa_total)) ||
           bool_decide (held.(tok_mint) <> a.(oa_mint)) ||
           bool_decide (held.(tok_owner) <> escrow_key)) BadAmount;;
  mret vb.

(** [checked_add] of [i64]. *)
Definition checked_add_i64 (a b : Z) : option Z :=
  if bool_decide (i64_min <= a + b <= i64_max) then Some (a + b) else None.

Definition open (program_id : Pubkey) (accounts : list AccountInfo) (r : Reader) : M unit :=
  a ← lift (read_open r);
  '(seller, it) ← next_account_info accounts;
  '(escrow, it) ← next_account_info it;
  '(system, it) ← next_account_info it;
  bail_if (negb seller.(is_signer) || negb seller.(is_writable) || negb escrow.(is_writable))
    BadAccount;;
  bail_if (bool_decide (system.(key) <> SYSTEM_PROGRAM_ID)) BadAccount;;
  let none := Pubkey_default in
  bail_if (bool_decide (a.(oa_buyer) = none) || bool_decide (a.(oa_arbiter) = none) ||
           bool_decide (a.(oa_fee_receiver) = none)) BadParty;;
  bail_if (bool_decide (a.(oa_buyer) = seller.(key)) || bool_decide (a.(oa_arbiter) = seller.(key)) ||
           bool_decide (a.(oa_arbiter) = a.(oa_buyer))) BadParty;;
  bail_if (bool_decide (a.(oa_total) = 0) ||
           bool_decide (a.(oa_total) * MAX_FEE_BPS < a.(oa_fee) * 10000)) BadAmount;;
  bail_if (negb (bool_decide (MIN_FALLBACK <= a.(oa_fallback_delay) <= MAX_FALLBACK))) BadFallback;;
  let '(escrow_key, bump) :=
    find_program_address [ESCROW_SEED; a.(oa_trade_id); seller.(key)] program_id in
  bail_if (bool_decide (escrow.(key) <> escrow_key)) BadAccount;;
  ea ← read_account escrow.(key);
  bail_if (bool_decide (ea.(owner) <> SYSTEM_PROGRAM_ID) || bool_decide (ea.(data) <> []))
    AlreadyUsed;;
  min_balance ← lift rent_get;
  let native := bool_decide (a.(oa_mint) = none) in
  escrow_lamports ← lift (ok_or (checked_add64 (min_balance ESCROW_LEN)
                                   (if native then a.(oa_total) else 0)) (Custom BadAmount));
  create_pda seller escrow escrow_lamports ESCROW_LEN program_id
    [ESCROW_SEED; a.(oa_trade_id); seller.(key); [bump]];;
  vault_bump ← (if native then mret 0
                else open_vault program_id a seller escrow_key min_balance it);
  now ← lift clock_get;
  fallback_at ← lift (ok_or (checked_add_i64 now a.(oa_fallback_delay)) (Custom BadFallback));
  let e := {| state := STATE_FUNDED; frozen := false; bump := bump; vault_bump := vault_bump;
              trade_id := a.(oa_trade_id); seller := seller.(key); buyer := a.(oa_buyer);
              arbiter := a.(oa_arbiter); fee_receiver := a.(oa_fee_receiver); mint := a.(oa_mint);
              total := a.(oa_total); fee := a.(oa_fee); opened_at := now;
              fallback_at := fallback_at |} in
  ea ← read_account escrow.(key);
  d ← or_panic (pack e ea.(data));
  update_account escrow.(key) (set_data d).

(** ** Acting on an escrow *)

Definition load_escrow (program_id : Pubkey) (info : AccountInfo) : M Escrow :=
  a ← read_account info.(key);
  bail_if (bool_decide (a.(owner) <> program_id)) UnknownEscrow;;
  e ← lift (unpack a.(data));
  expected ← lift (ok_or (create_program_address
                            [ESCROW_SEED; e.(trade_id); e.(seller); [e.(bump)]] program_id)
                         (Custom UnknownEscrow));
  bail_if (bool_decide (expected <> info.(key))) UnknownEscrow;;
  bail_if (bool_decide (e.(state) <> STATE_FUNDED)) NotFunded;;
  bail_if (negb info.(is_writable)) BadAccount;;
  mret e.

(** The [u16] fields of the header of an Ed25519 instruction. *)
Definition ed_field (d : bytes) (i : nat) : Z :=
  from_le_bytes [byte_at d (2 + 2 * i); byte_at d (3 + 2 * i)].

Definition u16_max : Z := 65535.

(** [d.get(off..off + len)]. *)
Definition get_slice (d : bytes) (off len : Z) : result bytes ProgramError :=
  if bool_decide (off + len <= Z.of_nat (length d))
  then Ok (slice d (Z.to_nat off) (Z.to_nat len)) else Err (Custom BadSignature).

Definition require_signed_by (program_id : Pubkey) (sysvar : AccountInfo) (escrow signer : Pubkey)
    (action : Z) : M unit :=
  bail_if (bool_decide (sysvar.(key) <> INSTRUCTIONS_SYSVAR_ID)) BadAccount;;
  current ← lift load_current_index;
  bail_if (bool_decide (current = 0)) BadSignature;;
  ix ← lift (load_instruction_at (current - 1));
  bail_if (bool_decide (ix.(ix_program) <> ED25519_PROGRAM_ID)) BadSignature;;
  let d := ix.(ix_data) in
  bail_if (bool_decide (length d < 16)%nat || bool_decide (byte_at d 0 <> 1)) BadSignature;;
  bail_if (bool_decide (ed_field d 1 <> u16_max) || bool_decide (ed_field d 3 <> u16_max) ||
           bool_decide (ed_field d 6 <> u16_max)) BadSignature;;
  pk ← lift (get_slice d (ed_field d 2) 32);
  message ← lift (get_slice d (ed_field d 4) (ed_field d 5));
  bail_if (bool_decide (pk <> signer) ||
           bool_decide (message <> auth_message program_id escrow action)) BadSignature.

Definition freeze (program_id : Pubkey) (accounts : list AccountInfo) (by_signature : bool)
    : M unit :=
  '(actor, it) ← next_account_info accounts;
  '(escrow, it) ← next_account_info it;
  e ← load_escrow program_id escrow;
  (if by_signature then require_signed_by program_id actor escrow.(key) e.(buyer) ACTION_FREEZE
   else bail_if (negb actor.(is_signer) ||
                 (bool_decide (actor.(key) <> e.(buyer)) && bool_decide (actor.(key) <> e.(arbiter))))
          NotAllowed);;
  bail_if e.(frozen) NotAllowed;;
  let e := set_frozen true e in
  ea ← read_account escrow.(key);
  d ← or_panic (pack e ea.(data));
  update_account escrow.(key) (set_data d).

Inductive Act : Type :=
| Release
| Cancel
| Resolve (to_buyer : bool)
| Reclaim
| CancelFor.

Definition move_lamports (from to : AccountInfo) (amount : Z) : M unit :=
  if bool_decide (amount = 0) || bool_decide (from.(key) = to.(key)) then mret tt
  else
    src ← read_account from.(key);
    dst ← read_account to.(key);
    src' ← lift (ok_or (checked_sub64 src.(lamports) amount) (Custom BadAmount));
    update_account from.(key) (set_lamports src');;
    dst' ← lift (ok_or (checked_add64 dst.(lamports) amount) (Custom BadAmount));
    update_account to.(key) (set_lamports dst').

(** The [match action] of [act]: who may ask for what, and who is paid. *)
Definition authorize (program_id : Pubkey) (actor escrow : AccountInfo) (e : Escrow) (action : Act)
    : M bool :=
  let signed_by who := actor.(is_signer) && bool_decide (actor.(key) = who) in
  match action with
  | Release => if signed_by e.(seller) then mret true else fail NotAllowed
  | Cancel => if signed_by e.(buyer) then mret false else fail NotAllowed
  | Resolve to_buyer => if signed_by e.(arbiter) then mret to_buyer else fail NotAllowed
  | Reclaim =>
      if signed_by e.(seller) then
        bail_if e.(frozen) NotAllowed;;
        now ← lift clock_get;
        bail_if (bool_decide (now < e.(fallback_at))) TooEarly;;
        mret false
      else fail NotAllowed
  | CancelFor =>
      require_signed_by program_id actor escrow.(key) e.(buyer) ACTION_CANCEL;;
      mret false
  end.

(** [a - b] of [u64] in a release build. *)
Definition wrapping_sub64 (a b : Z) : Z := (a - b) mod (u64_max + 1).

(** The native half of [act]. *)
Definition pay_native (e : Escrow) (escrow payee : AccountInfo) (fee_payee : option AccountInfo)
    (to_buyer : bool) (fee : Z) : M unit :=
  let expected_payee := if to_buyer then e.(buyer) else e.(seller) in
  bail_if (bool_decide (payee.(key) <> expected_payee)) BadAccount;;
  match fee_payee with
  | Some f => bail_if (bool_decide (f.(key) <> e.(fee_receiver)) || negb f.(is_writable)) BadAccount
  | None => mret tt
  end;;
  let to_payee := wrapping_sub64 e.(total) fee in
  move_lamports escrow payee to_payee;;
  match fee_payee with
  | Some f => if bool_decide (0 < fee) then move_lamports escrow f fee else mret tt
  | None => mret tt
  end.

(** The token half of [act]. *)
Definition pay_token (program_id : Pubkey) (e : Escrow) (escrow seller_info payee : AccountInfo)
    (fee_payee : option AccountInfo) (to_buyer : bool) (fee : Z) (it : list AccountInfo) : M unit :=
  '(vault, it) ← next_account_info it;
  '(mint_info, it) ← next_account_info it;
  '(token_program, it) ← next_account_info it;
  bail_if (bool_decide (token_program.(key) <> TOKEN_PROGRAM_ID) ||
           bool_decide (mint_info.(key) <> e.(mint)) || negb vault.(is_writable)) BadAccount;;
  vault_key ← lift (ok_or (create_program_address
                             [VAULT_SEED; escrow.(key); [e.(vault_bump)]] program_id)
                          (Custom BadAccount));
  bail_if (bool_decide (vault.(key) <> vault_key)) BadAccount;;
  decimals ← mint_decimals mint_info;
  held ← token_account vault;
  let held := held.(tok_amount) in
  bail_if (bool_decide (held < e.(total))) BadAmount;;
  dest ← token_account payee;
  let expected_owner := if to_buyer then e.(buyer) else e.(seller) in
  bail_if (bool_decide (dest.(tok_owner) <> expected_owner) ||
           bool_decide (dest.(tok_mint) <> e.(mint))) BadAccount;;
  fee_dest ← match fee_payee with
             | Some f =>
                 if bool_decide (0 < fee) then
                   t ← token_account f;
                   bail_if (bool_decide (t.(tok_owner) <> e.(fee_receiver)) ||
                            bool_decide (t.(tok_mint) <> e.(mint)) || negb f.(is_writable)) BadAccount;;
                   mret (Some f)
                 else mret None
             | None => mret None
             end;
  let seeds := [ESCROW_SEED; e.(trade_id); e.(seller); [e.(bump)]] in
  transfer_checked vault mint_info payee escrow (wrapping_sub64 held fee) decimals (Some seeds);;
  match fee_dest with
  | Some f => transfer_checked vault mint_info f escrow fee decimals (Some seeds)
  | None => mret tt
  end;;
  invoke (token_ix [9] [meta vault_key false; meta seller_info.(key) false;
                        meta_readonly escrow.(key) true]) (Some seeds).

Definition act (program_id : Pubkey) (accounts : list AccountInfo) (action : Act) : M unit :=
  '(actor, it) ← next_account_info accounts;
  '(escrow, it) ← next_account_info it;
  e ← load_escrow program_id escrow;
  to_buyer ← authorize program_id actor escrow e action;
  '(seller_info, it) ← next_account_info it;
  '(payee, it) ← next_account_info it;
  '(fee_payee, it) ← (if to_buyer : bool then
                        '(f, it) ← next_account_info it; mret (Some f, it)
                      else mret (None, it));
  bail_if (bool_decide (seller_info.(key) <> e.(seller)) || negb seller_info.(is_writable) ||
           negb payee.(is_writable)) BadAccount;;
  let fee := if to_buyer : bool then e.(fee) else 0 in
  (if is_native e then pay_native e escrow payee fee_payee to_buyer fee
   else pay_token program_id e escrow seller_info payee fee_payee to_buyer fee it);;
  ea ← read_account escrow.(key);
  let rest := ea.(lamports) in
  move_lamports escrow seller_info rest;;
  update_account escrow.(key) (set_data []);;
  update_account escrow.(key) (set_owner SYSTEM_PROGRAM_ID).

(** ** The entry point *)

Definition process_instruction (program_id : Pubkey) (accounts : list AccountInfo) (d : bytes)
    : M unit :=
  match d with
  | [] => fail BadInstruction
  | tag :: rest =>
      let r := MkReader rest 0 in
      if bool_decide (tag = IX_OPEN) then open program_id accounts r
      else if bool_decide (tag = IX_RELEASE) then
        lift (read_done r);; act program_id accounts Release
      else if bool_decide (tag = IX_CANCEL) then
        lift (read_done r);; act program_id accounts Cancel
      else if bool_decide (tag = IX_RESOLVE) then
        '(b, r) ← lift (read_u8 r);
        to_buyer ← (if bool_decide (b = 0) then mret false
                    else if bool_decide (b = 1) then mret true
                    else fail BadInstruction);
        lift (read_done r);; act program_id accounts (Resolve to_buyer)
      else if bool_decide (tag = IX_FREEZE) then
        lift (read_done r);; freeze program_id accounts false
      else if bool_decide (tag = IX_RECLAIM) then
        lift (read_done r);; act program_id accounts Reclaim
      else if bool_decide (tag = IX_CANCEL_FOR) then
        lift (read_done r);; act program_id accounts CancelFor
      else if bool_decide (tag = IX_FREEZE_FOR) then
        lift (read_done r);; freeze program_id accounts true
      else fail BadInstruction
  end.

End Program.
