(* ===== verification/EscrowFacts.v ===== *)
(** * Lemmas about the escrow program

    Inversion of the handlers' success, the layout of a packed escrow, the
    balances that a settlement leaves, and escrows that stay open. *)
From S2P Require Import Prelude Escrow.
Local Open Scope Z_scope.
Local Open Scope ego_scope.

(** ** Inverting a successful computation *)

Lemma bind_Ok {A B} (m : M A) (f : A -> M B) st r :
  (m ≫= f) st = Ok r <-> exists a st1, m st = Ok (a, st1) /\ f a st1 = Ok r.
Proof. unfold mbind, M_bind. destruct (m st) as [[a st1]|]; naive_solver. Qed.

Lemma ret_Ok {A} (a : A) st r : (mret a : M A) st = Ok r <-> r = (a, st).
Proof. unfold mret, M_ret. naive_solver. Qed.

Lemma bail_if_Ok b e st r : bail_if b e st = Ok r <-> b = false /\ r = (tt, st).
Proof. unfold bail_if, fail. destruct b; [naive_solver|]. rewrite ret_Ok. naive_solver. Qed.

Lemma lift_Ok {A} (x : result A ProgramError) st r :
  lift x st = Ok r <-> exists a, x = Ok a /\ r = (a, st).
Proof. unfold lift. destruct x; naive_solver. Qed.

Lemma ok_or_Ok {A E} (o : option A) (e : E) a : ok_or o e = Ok a <-> o = Some a.
Proof. destruct o; simpl; naive_solver. Qed.

Lemma or_panic_Ok {A} (o : option A) st r :
  or_panic o st = Ok r <-> exists a, o = Some a /\ r = (a, st).
Proof. unfold or_panic. destruct o; naive_solver. Qed.

Lemma read_account_Ok k st r : read_account k st = Ok r <-> r = (account st k, st).
Proof. unfold read_account. naive_solver. Qed.

Lemma update_account_Ok k f st r :
  update_account k f st = Ok r <-> r = (tt, <[k := f (account st k)]> st).
Proof. unfold update_account. naive_solver. Qed.

Lemma next_account_info_Ok it st r :
  next_account_info it st = Ok r <-> exists a it', it = a :: it' /\ r = ((a, it'), st).
Proof. destruct it; simpl; [naive_solver|]. rewrite ret_Ok. naive_solver. Qed.

Lemma fail_Ok {A : Type} (e : EscrowError) (st : Store) (r : A * Store) : (fail e : M A) st = Ok r <-> False.
Proof. done. Qed.

(** Unfold one successful step of a handler into equations. *)
Ltac m_inv1 H :=
  lazymatch type of H with
  | mbind _ _ _ = Ok _ =>
      apply bind_Ok in H; destruct H as (? & ? & ? & ?)
  | mret _ _ = Ok _ => apply ret_Ok in H
  | bail_if _ _ _ = Ok _ => apply bail_if_Ok in H; destruct H as [? ?]
  | lift _ _ = Ok _ => apply lift_Ok in H; destruct H as (? & ? & ?)
  | ok_or _ _ = Ok _ => apply ok_or_Ok in H
  | or_panic _ _ = Ok _ => apply or_panic_Ok in H; destruct H as (? & ? & ?)
  | read_account _ _ = Ok _ => apply read_account_Ok in H
  | update_account _ _ _ = Ok _ => apply update_account_Ok in H
  | next_account_info _ _ = Ok _ => apply next_account_info_Ok in H; destruct H as (? & ? & ? & ?)
  | fail _ _ = Ok _ => by apply fail_Ok in H
  end.

Ltac m_inv :=
  repeat match goal with
  | H : _ = Ok _ |- _ => m_inv1 H
  | H : (_, _) = (_, _) |- _ => injection H as ?; subst
  | H : _ :: _ = _ :: _ |- _ => injection H as ?; subst
  | H : _ || _ = false |- _ => apply orb_false_iff in H; destruct H as [? ?]
  | H : _ && _ = true |- _ => apply andb_prop in H; destruct H as [? ?]
  | H : negb _ = false |- _ => apply negb_false_iff in H
  | H : bool_decide _ = false |- _ => apply bool_decide_eq_false in H
  | H : bool_decide _ = true |- _ => apply bool_decide_eq_true in H
  | H : ~ (_ <> _) |- _ => apply dec_stable in H
  | x : _ * _ |- _ => destruct x
  | x : unit |- _ => destruct x
  end; simplify_eq/=.

(** Make one step of a computation that is to succeed; what it needs is left. *)
Ltac m_step :=
  apply bind_Ok; eexists _, _; split;
  [ first [ apply read_account_Ok; reflexivity
          | apply update_account_Ok; reflexivity
          | apply next_account_info_Ok; eexists _, _; split; reflexivity
          | apply ret_Ok; reflexivity
          | apply bail_if_Ok; split; [|reflexivity]
          | apply lift_Ok; eexists; split; [|reflexivity]
          | apply or_panic_Ok; eexists; split; [|reflexivity]
          | idtac ]
  | cbv beta iota ].

(** A guard that does not fire. *)
Ltac m_cond :=
  repeat match goal with
  | |- _ || _ = false => apply orb_false_iff; split
  | |- negb _ = false => apply negb_false_iff
  | |- bool_decide _ = false => apply bool_decide_eq_false; intros ?
  end;
  try done; try congruence.

(** ** The packed layout *)

(** A record whose fields have the Rust types. *)
Record escrow_typed (e : Escrow) : Prop := {
  et_state : in_u8 e.(state);
  et_bump : in_u8 e.(bump);
  et_vault_bump : in_u8 e.(vault_bump);
  et_trade_id : length e.(trade_id) = 32%nat;
  et_seller : length e.(seller) = 32%nat;
  et_buyer : length e.(buyer) = 32%nat;
  et_arbiter : length e.(arbiter) = 32%nat;
  et_fee_receiver : length e.(fee_receiver) = 32%nat;
  et_mint : length e.(mint) = 32%nat;
  et_total : in_u64 e.(total);
  et_fee : in_u64 e.(fee);
  et_opened : in_i64 e.(opened_at);
  et_fallback : in_i64 e.(fallback_at);
}.

(** The bytes of a packed escrow. *)
Definition layout (e : Escrow) : bytes :=
  [VERSION] ++ [e.(state)] ++ [if e.(frozen) then 1 else 0] ++ [e.(bump)] ++ [e.(vault_bump)] ++
  [0; 0; 0] ++ e.(trade_id) ++ e.(seller) ++ e.(buyer) ++ e.(arbiter) ++ e.(fee_receiver) ++
  e.(mint) ++ u64_le e.(total) ++ u64_le e.(fee) ++ u64_le e.(opened_at) ++ u64_le e.(fallback_at).

Lemma write_at_app p rest src at_ :
  length p = at_ -> (length src <= length rest)%nat ->
  write_at at_ src (p ++ rest) = Some ((p ++ src) ++ drop (length src) rest).
Proof.
  intros <- Hlen. unfold write_at. rewrite length_app, bool_decide_true by lia.
  rewrite take_app_length, <-app_assoc, drop_app_add. done.
Qed.

Lemma length_layout e : escrow_typed e -> length (layout e) = ESCROW_LEN.
Proof.
  intros []. unfold layout. rewrite !length_app, !length_u64_le.
  unfold ESCROW_LEN. simpl. lia.
Qed.

Lemma pack_layout e out :
  escrow_typed e -> length out = ESCROW_LEN -> pack e out = Some (layout e).
Proof.
  intros [] Hlen. unfold ESCROW_LEN in Hlen. unfold pack.
  change out with ([] ++ out).
  repeat (rewrite write_at_app;
    [cbn [mbind option_bind]
    |rewrite ?length_app, ?length_u64_le; simpl; lia
    |rewrite ?length_drop, ?length_u64_le; simpl; rewrite ?length_drop; lia]).
  rewrite drop_ge, app_nil_r by (rewrite ?length_drop, ?length_u64_le; simpl; lia).
  f_equal. unfold layout. by rewrite <-!app_assoc.
Qed.

Lemma slice_skip (f r : bytes) at_ n :
  (length f <= at_)%nat -> slice (f ++ r) at_ n = slice r (at_ - length f) n.
Proof. intros Hle. unfold slice. by rewrite drop_app_ge. Qed.

Lemma slice_here (f r : bytes) at_ n : at_ = 0%nat -> length f = n -> slice (f ++ r) at_ n = f.
Proof. intros -> <-. unfold slice. by rewrite drop_0, take_app_length. Qed.

Lemma slice_last (f : bytes) at_ n : at_ = 0%nat -> length f = n -> slice f at_ n = f.
Proof. intros -> <-. unfold slice. by rewrite drop_0, firstn_all. Qed.

Lemma as_i64_of_le x : in_i64 x -> as_i64 (from_le_bytes (u64_le x)) = x.
Proof.
  intros Hx. unfold u64_le. rewrite from_to_le_bytes_mod.
  change (256 ^ Z.of_nat 8) with (u64_max + 1). unfold as_i64.
  case_bool_decide; unfold in_i64, i64_max, i64_min, u64_max in *; Z.div_mod_to_equations; lia.
Qed.

Lemma from_u64_le x : in_u64 x -> from_le_bytes (u64_le x) = x.
Proof. intros Hx. unfold u64_le. apply from_to_le_bytes. change (256 ^ Z.of_nat 8) with (u64_max + 1). machine_lia. Qed.

(** Find a field of the layout by its offset. *)
Ltac layout_slice :=
  unfold layout;
  repeat (rewrite slice_skip by (rewrite ?length_u64_le; simpl; lia));
  first [ apply slice_here | apply slice_last ]; rewrite ?length_u64_le; simpl; lia.

Lemma unpack_layout e : escrow_typed e -> unpack (layout e) = Ok e.
Proof.
  intros Ht. pose proof (length_layout e Ht) as Hlen. destruct Ht.
  unfold unpack. rewrite bool_decide_false by (by intros ?).
  rewrite bool_decide_false by (by intros []). cbn [orb].
  assert (Hk : slice (layout e) 40 32 = seller e /\ slice (layout e) 72 32 = buyer e /\
    slice (layout e) 104 32 = arbiter e /\ slice (layout e) 136 32 = fee_receiver e /\
    slice (layout e) 168 32 = mint e /\ slice (layout e) 8 32 = trade_id e)
    by (split_and!; layout_slice).
  assert (Hu : slice (layout e) 200 8 = u64_le (total e) /\ slice (layout e) 208 8 = u64_le (fee e) /\
    slice (layout e) 216 8 = u64_le (opened_at e) /\ slice (layout e) 224 8 = u64_le (fallback_at e))
    by (split_and!; layout_slice).
  destruct Hk as (-> & -> & -> & -> & -> & ->), Hu as (-> & -> & -> & ->).
  rewrite !from_u64_le, !as_i64_of_le by done.
  assert (Hf : bool_decide (byte_at (layout e) 2 <> 0) = e.(frozen)).
  { unfold byte_at. simpl. by destruct (frozen e). }
  rewrite Hf. by destruct e.
Qed.

(** ** The handlers *)

Section Handlers.
Context `{SolanaRuntime}.

(** What [load_escrow] has checked. *)
Record loaded (program_id : Pubkey) (info : AccountInfo) (st : Store) (e : Escrow) : Prop := {
  ld_owner : (account st info.(key)).(owner) = program_id;
  ld_unpack : unpack (account st info.(key)).(data) = Ok e;
  ld_address : create_program_address [ESCROW_SEED; e.(trade_id); e.(seller); [e.(bump)]] program_id
               = Some info.(key);
  ld_funded : e.(state) = STATE_FUNDED;
  ld_writable : info.(is_writable) = true;
}.

Lemma load_escrow_Ok program_id info st e st' :
  load_escrow program_id info st = Ok (e, st') <-> st' = st /\ loaded program_id info st e.
Proof.
  split.
  - unfold load_escrow. intros Hl. m_inv. split; [done|]. by constructor.
  - intros [-> []]. unfold load_escrow. m_step. m_step; [by m_cond|].
    m_step; [done|]. m_step; [by apply ok_or_Ok|]. m_step; [by m_cond|]. m_step; [by m_cond|].
    m_step; [by rewrite ld_writable0|]. done.
Qed.

(** The message an Ed25519 instruction vouches for: [pk] signed [m]. *)
Definition vouches (ix : Instruction) (pk m : bytes) : Prop :=
  ix.(ix_program) = ED25519_PROGRAM_ID /\
  let d := ix.(ix_data) in
  (16 <= length d)%nat /\ byte_at d 0 = 1 /\
  ed_field d 1 = u16_max /\ ed_field d 3 = u16_max /\ ed_field d 6 = u16_max /\
  pk = slice d (Z.to_nat (ed_field d 2)) 32 /\
  m = slice d (Z.to_nat (ed_field d 4)) (Z.to_nat (ed_field d 5)) /\
  ed_field d 2 + 32 <= Z.of_nat (length d) /\
  ed_field d 4 + ed_field d 5 <= Z.of_nat (length d).

(** The instruction right before the current one vouches for the message. *)
Definition signed_before (pk m : bytes) : Prop :=
  exists i ix, load_current_index = Ok i /\ i <> 0 /\ load_instruction_at (i - 1) = Ok ix /\
    vouches ix pk m.

Lemma get_slice_Ok d off len s :
  get_slice d off len = Ok s <->
  off + len <= Z.of_nat (length d) /\ s = slice d (Z.to_nat off) (Z.to_nat len).
Proof. unfold get_slice. case_bool_decide; naive_solver. Qed.

Lemma require_signed_by_Ok program_id sysvar escrow signer action st r :
  require_signed_by program_id sysvar escrow signer action st = Ok r ->
  r = (tt, st) /\ signed_before signer (auth_message program_id escrow action).
Proof.
  unfold require_signed_by. intros Hr. m_inv.
  repeat match goal with Hg : get_slice _ _ _ = Ok _ |- _ => apply get_slice_Ok in Hg as [? Hg] end.
  split; [done|]. eexists _, _. split_and!; [done|done|done|].
  unfold vouches. change (Z.to_nat 32) with 32%nat in *. split_and!; try done; lia.
Qed.

(** *** Authorization *)

(** Who may ask for an action on [e]. *)
Definition allowed (program_id : Pubkey) (actor : AccountInfo) (escrow : Pubkey) (e : Escrow)
    (action : Act) : Prop :=
  match action with
  | Release => actor.(is_signer) = true /\ actor.(key) = e.(seller)
  | Cancel => actor.(is_signer) = true /\ actor.(key) = e.(buyer)
  | Resolve _ => actor.(is_signer) = true /\ actor.(key) = e.(arbiter)
  | Reclaim =>
      actor.(is_signer) = true /\ actor.(key) = e.(seller) /\ e.(frozen) = false /\
      exists now, clock_get = Ok now /\ e.(fallback_at) <= now
  | CancelFor => signed_before e.(buyer) (auth_message program_id escrow ACTION_CANCEL)
  end.

(** Whether an action pays the buyer. *)
Definition pays_buyer (action : Act) : bool :=
  match action with
  | Release => true
  | Resolve to_buyer => to_buyer
  | _ => false
  end.

Lemma authorize_Ok program_id actor escrow e action st r :
  authorize program_id actor escrow e action st = Ok r ->
  r = (pays_buyer action, st) /\ allowed program_id actor escrow.(key) e action.
Proof.
  unfold authorize. destruct action; cbn [pays_buyer allowed].
  1-4: destruct (is_signer actor) eqn:Es; [|done]; case_bool_decide; [|done]; cbn [andb].
  - intros ->%ret_Ok. done.
  - intros ->%ret_Ok. done.
  - intros ->%ret_Ok. done.
  - intros Hr. m_inv. split_and!; [done|done|done|done|]. eexists. split; [done|]. lia.
  - intros Hr. m_inv.
    match goal with Hr : require_signed_by _ _ _ _ _ _ = _ |- _ =>
      apply require_signed_by_Ok in Hr as [Hr ?] end. by simplify_eq.
Qed.

(** *** Moving lamports *)

Definition balance (st : Store) (k : Pubkey) : Z := (account st k).(lamports).

(** The store after [amount] lamports went from [from] to [to]. *)
Definition moved (from to : Pubkey) (amount : Z) (st : Store) : Store :=
  if bool_decide (amount = 0) || bool_decide (from = to) then st
  else
    let st := <[from := set_lamports (balance st from - amount) (account st from)]> st in
    <[to := set_lamports (balance st to + amount) (account st to)]> st.

Lemma account_insert_eq k a st : account (<[k := a]> st) k = a.
Proof. unfold account. by rewrite lookup_insert_eq. Qed.

Lemma account_insert_ne k k' a st : k <> k' -> account (<[k := a]> st) k' = account st k'.
Proof. intros Hne. unfold account. by rewrite lookup_insert_ne. Qed.

Lemma move_lamports_Ok from to amount st r :
  move_lamports from to amount st = Ok r ->
  r = (tt, moved from.(key) to.(key) amount st) /\
  (amount <> 0 -> from.(key) <> to.(key) ->
     amount <= balance st from.(key) /\ balance st to.(key) + amount <= u64_max).
Proof.
  unfold move_lamports, moved. destruct (_ || _) eqn:Eg.
  { intros ->%ret_Ok. split; [done|]. apply orb_true_iff in Eg.
    rewrite !bool_decide_eq_true in Eg. naive_solver. }
  intros Hr. m_inv. unfold checked_sub64, checked_add64, balance in *.
  repeat case_bool_decide; simplify_eq. rewrite (account_insert_ne (key from)) by done.
  split; [done|]. intros _ _. lia.
Qed.

(** The balances a move leaves. *)
Lemma balance_moved from to amount st k :
  from <> to ->
  balance (moved from to amount st) k =
    balance st k - (if bool_decide (k = from) then amount else 0)
                 + (if bool_decide (k = to) then amount else 0).
Proof.
  intros Hne. unfold moved. rewrite (bool_decide_false (from = to)) by done.
  case_bool_decide as Ha; cbn [orb]; [subst; repeat case_bool_decide; lia|]. unfold balance.
  destruct (decide (k = to)) as [->|Hto]; [|destruct (decide (k = from)) as [->|Hfrom]].
  - rewrite account_insert_eq, account_insert_ne by done. simpl.
    rewrite bool_decide_false, bool_decide_true by done. lia.
  - rewrite account_insert_ne, account_insert_eq by done. simpl.
    rewrite bool_decide_true, bool_decide_false by done. lia.
  - rewrite !account_insert_ne by done. rewrite !bool_decide_false by done. lia.
Qed.

(** A move changes balances only. *)
Lemma moved_rest from to amount st k :
  (account (moved from to amount st) k).(owner) = (account st k).(owner) /\
  (account (moved from to amount st) k).(data) = (account st k).(data).
Proof.
  unfold moved. destruct (_ || _); [done|].
  destruct (decide (k = to)) as [->|Hto]; [rewrite account_insert_eq|rewrite account_insert_ne by done].
  - simpl. destruct (decide (from = to)) as [->|]; [by rewrite account_insert_eq|].
    by rewrite account_insert_ne.
  - destruct (decide (k = from)) as [->|]; [by rewrite account_insert_eq|].
    by rewrite account_insert_ne.
Qed.

(** *** Settlement *)

(** The end of [act]: the account is emptied and given back to the system. *)
Definition closed (k : Pubkey) (st : Store) : Store :=
  let st := <[k := set_data [] (account st k)]> st in
  <[k := set_owner SYSTEM_PROGRAM_ID (account st k)]> st.

Lemma balance_closed k k' st : balance (closed k st) k' = balance st k'.
Proof.
  unfold balance, closed. destruct (decide (k = k')) as [<-|Hne].
  - by rewrite !account_insert_eq.
  - by rewrite !account_insert_ne.
Qed.

Lemma account_closed k st :
  account (closed k st) k =
    {| lamports := balance st k; owner := SYSTEM_PROGRAM_ID; data := [] |}.
Proof. unfold closed. by rewrite !account_insert_eq. Qed.

Lemma closed_other k k' st : k <> k' -> account (closed k st) k' = account st k'.
Proof. intros Hne. unfold closed. by rewrite !account_insert_ne. Qed.

(** The accounts that [act] takes after the first two. *)
Record act_accounts (e : Escrow) (action : Act) (accounts : list AccountInfo)
    (actor escrow seller_info payee : AccountInfo) (fee_payee : option AccountInfo)
    (it : list AccountInfo) : Prop := {
  aa_accounts : accounts = actor :: escrow :: seller_info :: payee ::
    match fee_payee with Some f => f :: it | None => it end;
  aa_fee_payee : is_Some fee_payee <-> pays_buyer action = true;
  aa_seller : seller_info.(key) = e.(seller);
  aa_seller_writable : seller_info.(is_writable) = true;
  aa_payee_writable : payee.(is_writable) = true;
}.

(** The fee that an action charges. *)
Definition charged (e : Escrow) (action : Act) : Z := if pays_buyer action then e.(fee) else 0.

(** The payment in the middle of [act]. *)
Definition payment (program_id : Pubkey) (e : Escrow) (action : Act)
    (escrow seller_info payee : AccountInfo) (fee_payee : option AccountInfo)
    (it : list AccountInfo) : M unit :=
  if is_native e then pay_native e escrow payee fee_payee (pays_buyer action) (charged e action)
  else pay_token program_id e escrow seller_info payee fee_payee (pays_buyer action)
         (charged e action) it.

Lemma act_Ok program_id accounts action st r :
  act program_id accounts action st = Ok r ->
  exists e actor escrow seller_info payee fee_payee it st1,
    act_accounts e action accounts actor escrow seller_info payee fee_payee it /\
    loaded program_id escrow st e /\ allowed program_id actor escrow.(key) e action /\
    payment program_id e action escrow seller_info payee fee_payee it st = Ok (tt, st1) /\
    r = (tt, closed escrow.(key)
               (moved escrow.(key) e.(seller) (balance st1 escrow.(key)) st1)).
Proof.
  unfold act. intros Hr.
  apply bind_Ok in Hr as ([? ?] & ? & (actor & it1 & -> & [= -> -> ->])%next_account_info_Ok & Hr).
  apply bind_Ok in Hr as ([? ?] & ? & (escrow & it2 & -> & [= -> -> ->])%next_account_info_Ok & Hr).
  apply bind_Ok in Hr as (e & s3 & [-> Hld]%load_escrow_Ok & Hr).
  apply bind_Ok in Hr as (tb & s4 & [[= -> ->] Hal]%authorize_Ok & Hr).
  apply bind_Ok in Hr as ([? ?] & ? & (si & it3 & -> & [= -> -> ->])%next_account_info_Ok & Hr).
  apply bind_Ok in Hr as ([? ?] & ? & (payee & it4 & -> & [= -> -> ->])%next_account_info_Ok & Hr).
  apply bind_Ok in Hr as ([fp it5] & s7 & Hfp & Hr).
  assert (s7 = st /\ it4 = match fp with Some f => f :: it5 | None => it5 end /\
    (is_Some fp <-> pays_buyer action = true)) as (-> & -> & Hfp').
  { destruct (pays_buyer action); [|apply ret_Ok in Hfp; naive_solver].
    apply bind_Ok in Hfp as ([? ?] & ? & (f & it6 & -> & [= -> -> ->])%next_account_info_Ok & Hfp).
    apply ret_Ok in Hfp. naive_solver. }
  apply bind_Ok in Hr as ([] & s8 & [Hg [= ->]]%bail_if_Ok & Hr). m_inv.
  repeat match goal with Hm : move_lamports _ _ _ _ = Ok _ |- _ =>
    apply move_lamports_Ok in Hm as [[= ->] _] end.
  eexists e, actor, escrow, si, payee, fp, it5, _. split_and!; [done|done|done|eassumption|].
  unfold closed, balance. match goal with Hs : key _ = seller e |- _ => by rewrite Hs end.
Qed.

Lemma pay_native_Ok e escrow payee fee_payee to_buyer fee st r :
  in_u64 e.(total) -> 0 <= fee <= e.(total) ->
  pay_native e escrow payee fee_payee to_buyer fee st = Ok r ->
  payee.(key) = (if to_buyer then e.(buyer) else e.(seller)) /\
  (forall f, fee_payee = Some f -> f.(key) = e.(fee_receiver) /\ f.(is_writable) = true) /\
  let st1 := moved escrow.(key) payee.(key) (e.(total) - fee) st in
  r = (tt, match fee_payee with
           | Some _ => moved escrow.(key) e.(fee_receiver) fee st1
           | None => st1
           end) /\
  (e.(total) - fee <> 0 -> escrow.(key) <> payee.(key) ->
   e.(total) - fee <= balance st escrow.(key)) /\
  (fee_payee <> None -> fee <> 0 -> escrow.(key) <> e.(fee_receiver) ->
   fee <= balance st1 escrow.(key)).
Proof.
  intros Ht Hf. unfold pay_native.
  assert (wrapping_sub64 e.(total) fee = e.(total) - fee) as ->.
  { unfold wrapping_sub64. apply Z.mod_small. machine_lia. }
  intros Hr. apply bind_Ok in Hr as ([] & s1 & [Hp [= ->]]%bail_if_Ok & Hr).
  apply bool_decide_eq_false in Hp. apply dec_stable in Hp. split; [done|].
  apply bind_Ok in Hr as ([] & s2 & Hfp & Hr).
  assert (s2 = st /\ forall f, fee_payee = Some f -> f.(key) = e.(fee_receiver) /\ f.(is_writable) = true)
    as [-> Hfp'].
  { destruct fee_payee as [f|]; [|by apply ret_Ok in Hfp as [= ->]].
    apply bail_if_Ok in Hfp as [Hb [= ->]]. m_inv. split; [done|]. intros ? [= <-]. done. }
  split; [done|].
  apply bind_Ok in Hr as ([] & s3 & [[= ->] Hm]%move_lamports_Ok & Hr). cbv zeta.
  set (st1 := moved _ _ (_ - _) st) in *.
  destruct fee_payee as [f|]; [|apply ret_Ok in Hr; naive_solver].
  destruct (Hfp' f eq_refl) as [<- Hw]. destruct (decide (0 < fee)) as [H0|H0];
    [rewrite bool_decide_true in Hr by done|rewrite bool_decide_false in Hr by done].
  - apply move_lamports_Ok in Hr as [-> Hm2]. split; [done|]. naive_solver.
  - apply ret_Ok in Hr as ->. assert (fee = 0) as -> by lia. split; [|naive_solver].
    unfold moved. by rewrite bool_decide_true.
Qed.

(** The balances a native settlement leaves, whichever of the parties coincide. *)
Lemma native_balances e escrow st payee_key fee (fee_to : bool) k :
  escrow <> payee_key -> escrow <> e.(fee_receiver) -> escrow <> e.(seller) ->
  let st1 := moved escrow payee_key (e.(total) - fee) st in
  let st2 := if fee_to then moved escrow e.(fee_receiver) fee st1 else st1 in
  let st3 := moved escrow e.(seller) (balance st2 escrow) st2 in
  let paid_fee := if fee_to then fee else 0 in
  balance (closed escrow st3) k =
    balance st k - (if bool_decide (k = escrow) then balance st escrow else 0)
    + (if bool_decide (k = payee_key) then e.(total) - fee else 0)
    + (if bool_decide (k = e.(fee_receiver)) then paid_fee else 0)
    + (if bool_decide (k = e.(seller)) then balance st escrow - (e.(total) - fee) - paid_fee else 0).
Proof.
  intros Hp Hf Hs. cbv zeta. rewrite balance_closed, balance_moved by done.
  destruct fee_to; rewrite ?balance_moved by done; rewrite !(bool_decide_true (escrow = escrow)) by done;
    rewrite ?(bool_decide_false (escrow = payee_key)), ?(bool_decide_false (escrow = e.(fee_receiver)))
      by done;
    repeat case_bool_decide; subst; try done; lia.
Qed.

(** *** Freezing *)

(** Who may freeze [e]. *)
Definition may_freeze (program_id : Pubkey) (actor : AccountInfo) (escrow : Pubkey) (e : Escrow)
    (by_signature : bool) : Prop :=
  if by_signature then signed_before e.(buyer) (auth_message program_id escrow ACTION_FREEZE)
  else actor.(is_signer) = true /\ (actor.(key) = e.(buyer) \/ actor.(key) = e.(arbiter)).

Lemma freeze_Ok program_id accounts by_signature st r :
  freeze program_id accounts by_signature st = Ok r ->
  exists e actor escrow it d,
    accounts = actor :: escrow :: it /\ loaded program_id escrow st e /\
    may_freeze program_id actor escrow.(key) e by_signature /\ e.(frozen) = false /\
    pack (set_frozen true e) (account st escrow.(key)).(data) = Some d /\
    r = (tt, <[escrow.(key) := set_data d (account st escrow.(key))]> st).
Proof.
  unfold freeze. intros Hr.
  apply bind_Ok in Hr as ([? ?] & ? & (actor & it1 & -> & [= -> -> ->])%next_account_info_Ok & Hr).
  apply bind_Ok in Hr as ([? ?] & ? & (escrow & it2 & -> & [= -> -> ->])%next_account_info_Ok & Hr).
  apply bind_Ok in Hr as (e & s3 & [-> Hld]%load_escrow_Ok & Hr).
  apply bind_Ok in Hr as ([] & s4 & Hau & Hr).
  assert (s4 = st /\ may_freeze program_id actor escrow.(key) e by_signature) as [-> Hmay].
  { destruct by_signature; simpl.
    - apply require_signed_by_Ok in Hau as [[= ->] ?]. done.
    - apply bail_if_Ok in Hau as [Hb [= ->]]. apply orb_false_iff in Hb as [Hs Hk].
      apply negb_false_iff in Hs. apply andb_false_iff in Hk. rewrite !bool_decide_eq_false in Hk.
      split; [done|]. split; [done|]. destruct Hk as [Hk|Hk]; apply dec_stable in Hk; auto. }
  m_inv. eexists e, actor, escrow, it2, _. done.
Qed.

(** *** Bytes read back have the right types *)

Lemma length_slice d at_ n : (at_ + n <= length d)%nat -> length (slice d at_ n) = n.
Proof. intros Hle. unfold slice. rewrite length_take, length_drop. lia. Qed.

Lemma Forall_slice (P : Z -> Prop) d at_ n : Forall P d -> Forall P (slice d at_ n).
Proof. intros Hd. unfold slice. by apply Forall_take, Forall_drop. Qed.

Lemma byte_at_u8 d at_ : Forall in_u8 d -> in_u8 (byte_at d at_).
Proof.
  intros Hd. unfold byte_at. destruct (d !! at_) eqn:E; simpl; [|machine_lia].
  by eapply Forall_lookup_1.
Qed.

Lemma slice_u64 d at_ : Forall in_u8 d -> in_u64 (from_le_bytes (slice d at_ 8)).
Proof.
  intros Hd. pose proof (from_le_bytes_bound (slice d at_ 8) (Forall_slice _ _ _ _ Hd)) as Hb.
  assert (length (slice d at_ 8) <= 8)%nat.
  { unfold slice. rewrite length_take. lia. }
  assert (256 ^ Z.of_nat (length (slice d at_ 8)) <= 256 ^ 8) by (apply Z.pow_le_mono_r; lia).
  change (256 ^ 8) with (u64_max + 1) in *. machine_lia.
Qed.

Lemma as_i64_typed x : in_u64 x -> in_i64 (as_i64 x).
Proof. intros Hx. unfold as_i64. case_bool_decide; machine_lia. Qed.

Lemma unpack_typed d e : Forall in_u8 d -> unpack d = Ok e -> escrow_typed e.
Proof.
  intros Hd. unfold unpack. case_bool_decide as Hlen; [done|].
  case_bool_decide; [done|]. cbn [orb]. unfold ESCROW_LEN in Hlen. intros [= <-].
  constructor; simpl; auto using byte_at_u8, slice_u64, as_i64_typed;
    apply length_slice; rewrite Hlen; lia.
Qed.

Lemma unpack_length d e : unpack d = Ok e -> length d = ESCROW_LEN.
Proof. unfold unpack. by case_bool_decide as Hlen. Qed.

Lemma set_frozen_typed b e : escrow_typed e -> escrow_typed (set_frozen b e).
Proof. intros []. by constructor. Qed.

(** Only the frozen flag of the account's contents changes. *)
Lemma freeze_layout program_id info st e d :
  Forall in_u8 (account st info.(key)).(data) -> loaded program_id info st e ->
  pack (set_frozen true e) (account st info.(key)).(data) = Some d ->
  d = layout (set_frozen true e) /\ unpack d = Ok (set_frozen true e).
Proof.
  intros Hb [_ Hu _ _ _] Hp. pose proof (set_frozen_typed true e (unpack_typed _ _ Hb Hu)) as Ht.
  rewrite pack_layout in Hp by eauto using unpack_length. injection Hp as <-.
  split; [done|]. by apply unpack_layout.
Qed.

(** Loading an escrow that is not the program's account fails. *)
Lemma load_escrow_foreign program_id info st :
  (account st info.(key)).(owner) <> program_id ->
  load_escrow program_id info st = Err (Custom UnknownEscrow).
Proof.
  intros Ho. unfold load_escrow, mbind, M_bind, read_account, bail_if.
  by rewrite bool_decide_true.
Qed.

(** [act] and [freeze] start by loading the escrow. *)
Lemma act_load_Err program_id actor escrow it action st err :
  load_escrow program_id escrow st = Err err ->
  act program_id (actor :: escrow :: it) action st = Err err.
Proof. intros Hl. unfold act, next_account_info, mbind, M_bind, mret, M_ret. by rewrite Hl. Qed.

Lemma freeze_load_Err program_id actor escrow it b st err :
  load_escrow program_id escrow st = Err err ->
  freeze program_id (actor :: escrow :: it) b st = Err err.
Proof. intros Hl. unfold freeze, next_account_info, mbind, M_bind, mret, M_ret. by rewrite Hl. Qed.

End Handlers.

(** ** Opening an escrow: what it relies on of the system program

    [SystemProgram] states the documented behaviour of the four system-program
    instructions that [create_pda] sends and of program-derived addresses; the
    theorem about [open] is proved against it. *)

(** The documented effect of the system instructions, when they succeed, and
    the relation between the two ways of deriving an address. *)
Class SystemProgram `{SolanaRuntime} : Prop := {
  sys_create_account : forall payer target amount space own seeds st st',
    in_u64 amount -> in_u64 (Z.of_nat space) -> payer <> target ->
    cpi (system_ix 0 (u64_le amount ++ u64_le (Z.of_nat space) ++ own)
           [meta payer true; meta target true]) seeds st = Ok st' ->
    st' = <[target := MkAccount amount own (repeat 0 space)]>
            (<[payer := set_lamports (balance st payer - amount) (account st payer)]> st);
  sys_transfer : forall payer target amount seeds st st',
    in_u64 amount -> payer <> target ->
    cpi (system_ix 2 (u64_le amount) [meta payer true; meta target false]) seeds st = Ok st' ->
    st' = <[target := set_lamports (balance st target + amount) (account st target)]>
            (<[payer := set_lamports (balance st payer - amount) (account st payer)]> st);
  sys_allocate : forall target space seeds st st',
    in_u64 (Z.of_nat space) ->
    cpi (system_ix 8 (u64_le (Z.of_nat space)) [meta target true]) seeds st = Ok st' ->
    st' = <[target := set_data (repeat 0 space) (account st target)]> st;
  sys_assign : forall target own seeds st st',
    cpi (system_ix 1 own [meta target true]) seeds st = Ok st' ->
    st' = <[target := set_owner own (account st target)]> st;
  find_create : forall seeds program_id k b,
    find_program_address seeds program_id = (k, b) ->
    create_program_address (seeds ++ [[b]]) program_id = Some k /\ in_u8 b;
  clock_typed : forall now, clock_get = Ok now -> in_i64 now;
  rent_typed : forall min_balance space, rent_get = Ok min_balance -> in_u64 (min_balance space);
}.

Section Open.
Context `{SystemProgram}.

Lemma invoke_Ok ix seeds st r :
  invoke ix seeds st = Ok r <-> exists st', cpi ix seeds st = Ok st' /\ r = (tt, st').
Proof. unfold invoke. destruct (cpi ix seeds st); naive_solver. Qed.

(** Both branches of [create_pda] leave the same kind of account: the program's,
    zeroed, and holding the requested lamports or what was there before. *)
Lemma create_pda_Ok payer target amount space own seeds st r :
  in_u64 amount -> in_u64 (Z.of_nat space) -> payer.(key) <> target.(key) ->
  0 <= balance st target.(key) ->
  create_pda payer target amount space own seeds st = Ok r ->
  exists st', r = (tt, st') /\
    account st' target.(key) =
      MkAccount (Z.max amount (balance st target.(key))) own (repeat 0 space) /\
    balance st' payer.(key) =
      balance st payer.(key) - (Z.max amount (balance st target.(key)) - balance st target.(key)) /\
    forall k, k <> payer.(key) -> k <> target.(key) -> account st' k = account st k.
Proof.
  intros Ha Hsp Hne Hb. unfold create_pda. rewrite bind_Ok. setoid_rewrite read_account_Ok.
  intros (a & st1 & [= -> ->] & Hr). fold (balance st target.(key)) in *.
  case_bool_decide as E0.
  - apply invoke_Ok in Hr as (st' & Hc & ->). apply sys_create_account in Hc; [|done|done|done].
    exists st'. split; [done|]. subst st'. rewrite E0. unfold balance in *. split_and!.
    + rewrite account_insert_eq. f_equal. machine_lia.
    + rewrite account_insert_ne, account_insert_eq by done. simpl. machine_lia.
    + intros k Hp Ht. by rewrite !account_insert_ne.
  - apply bind_Ok in Hr as ([] & st2 & Ht & Hr).
    apply bind_Ok in Hr as ([] & st3 & (st3' & Hal & [= ->])%invoke_Ok & Hr).
    apply invoke_Ok in Hr as (st4 & Has & ->).
    apply sys_allocate in Hal; [|done]. apply sys_assign in Has. subst.
    eexists. split; [done|].
    assert (Ht2 : balance st2 target.(key) = Z.max amount (balance st target.(key)) /\
      balance st2 payer.(key) = balance st payer.(key) -
        (Z.max amount (balance st target.(key)) - balance st target.(key)) /\
      forall k, k <> payer.(key) -> k <> target.(key) -> account st2 k = account st k).
    { case_bool_decide as Hlt.
      - apply invoke_Ok in Ht as (st2' & Ht & [= ->]).
        apply sys_transfer in Ht; [|machine_lia|done]. subst. unfold balance in *. split_and!.
        + rewrite account_insert_eq. simpl. lia.
        + rewrite account_insert_ne, account_insert_eq by done. simpl. lia.
        + intros k Hp Hk. by rewrite !account_insert_ne.
      - apply ret_Ok in Ht as [= ->]. split_and!; [lia|lia|done]. }
    destruct Ht2 as (E1 & E2 & E3). unfold balance in *. split_and!.
    + rewrite account_insert_eq, account_insert_eq. unfold set_owner, set_data. simpl. by rewrite E1.
    + by rewrite !account_insert_ne.
    + intros k Hp Hk. rewrite !account_insert_ne by done. by apply E3.
Qed.

(** The terms under which a native escrow is opened. *)
Record fair_terms (now : Z) (e : Escrow) : Prop := {
  ft_funded : e.(state) = STATE_FUNDED;
  ft_not_frozen : e.(frozen) = false;
  ft_parties : e.(buyer) <> e.(seller) /\ e.(arbiter) <> e.(seller) /\ e.(arbiter) <> e.(buyer);
  ft_named : e.(buyer) <> Pubkey_default /\ e.(arbiter) <> Pubkey_default /\
             e.(fee_receiver) <> Pubkey_default;
  ft_total : 0 < e.(total);
  ft_fee : 0 <= 10 * e.(fee) <= e.(total);
  ft_fallback : now + MIN_FALLBACK <= e.(fallback_at) <= now + MAX_FALLBACK;
  ft_opened : e.(opened_at) = now;
}.

(** [read_open] gives fields of the Rust types. *)
Lemma take_n_Ok n r s r' :
  Forall in_u8 r.(rd_data) -> take_n n r = Ok (s, r') ->
  length s = n /\ Forall in_u8 s /\ Forall in_u8 r'.(rd_data).
Proof.
  intros Hd. unfold take_n. case_bool_decide; [|done]. intros [= <- <-].
  split_and!; [by apply length_slice|by apply Forall_slice|done].
Qed.

Lemma from_le_u64 s : length s = 8%nat -> Forall in_u8 s -> in_u64 (from_le_bytes s).
Proof.
  intros Hl Hs. pose proof (from_le_bytes_bound s Hs) as Hb. rewrite Hl in Hb.
  change (256 ^ Z.of_nat 8) with (u64_max + 1) in Hb. machine_lia.
Qed.

Record args_typed (a : OpenArgs) : Prop := {
  at_trade_id : length a.(oa_trade_id) = 32%nat;
  at_buyer : length a.(oa_buyer) = 32%nat;
  at_arbiter : length a.(oa_arbiter) = 32%nat;
  at_fee_receiver : length a.(oa_fee_receiver) = 32%nat;
  at_mint : length a.(oa_mint) = 32%nat;
  at_total : in_u64 a.(oa_total);
  at_fee : in_u64 a.(oa_fee);
}.

Lemma read_u64_Ok r x r' :
  Forall in_u8 r.(rd_data) -> read_u64 r = Ok (x, r') -> in_u64 x /\ Forall in_u8 r'.(rd_data).
Proof.
  intros Hd. unfold read_u64. rewrite result_bind_Ok. intros ([s r0] & Ht & [= <- <-]).
  apply (take_n_Ok _ _ _ _ Hd) in Ht as (? & ? & ?). auto using from_le_u64.
Qed.

Lemma read_open_typed r a :
  Forall in_u8 r.(rd_data) -> read_open r = Ok a -> args_typed a.
Proof.
  intros Hd. unfold read_open, read_bytes32, read_key.
  do 8 (rewrite result_bind_Ok; intros ([? ?] & ?Ht & Hr); cbv beta iota in Hr; revert Hr).
  rewrite result_bind_Ok. intros (? & _ & [= <-]).
  repeat match goal with
  | Ht : take_n _ ?r = Ok _, Hr : Forall in_u8 (rd_data ?r) |- _ =>
      apply (take_n_Ok _ _ _ _ Hr) in Ht as (? & ? & ?)
  | Ht : read_u64 ?r = Ok _, Hr : Forall in_u8 (rd_data ?r) |- _ =>
      apply (read_u64_Ok _ _ _ Hr) in Ht as (? & ?)
  end.
  by constructor.
Qed.

(** The escrow that [open] writes for the arguments [a] of a native escrow. *)
Definition opened (a : OpenArgs) (seller_key : Pubkey) (b now : Z) : Escrow :=
  {| state := STATE_FUNDED; frozen := false; bump := b; vault_bump := 0;
     trade_id := a.(oa_trade_id); seller := seller_key; buyer := a.(oa_buyer);
     arbiter := a.(oa_arbiter); fee_receiver := a.(oa_fee_receiver); mint := a.(oa_mint);
     total := a.(oa_total); fee := a.(oa_fee); opened_at := now;
     fallback_at := now + a.(oa_fallback_delay) |}.

(** The checks of [open] before it touches an account. *)
Record open_checked (program_id : Pubkey) (a : OpenArgs) (seller escrow : AccountInfo) (b : Z)
    (st : Store) : Prop := {
  oc_signer : seller.(is_signer) = true;
  oc_writable : escrow.(is_writable) = true;
  oc_named : a.(oa_buyer) <> Pubkey_default /\ a.(oa_arbiter) <> Pubkey_default /\
             a.(oa_fee_receiver) <> Pubkey_default;
  oc_parties : a.(oa_buyer) <> seller.(key) /\ a.(oa_arbiter) <> seller.(key) /\
               a.(oa_arbiter) <> a.(oa_buyer);
  oc_total : a.(oa_total) <> 0;
  oc_fee : a.(oa_fee) * 10000 <= a.(oa_total) * MAX_FEE_BPS;
  oc_fallback : MIN_FALLBACK <= a.(oa_fallback_delay) <= MAX_FALLBACK;
  oc_address : find_program_address [ESCROW_SEED; a.(oa_trade_id); seller.(key)] program_id
               = (escrow.(key), b);
  oc_unused : (account st escrow.(key)).(owner) = SYSTEM_PROGRAM_ID /\
              (account st escrow.(key)).(data) = [];
}.

(** A native [open], step by step. *)
Lemma open_native_Ok program_id accounts r a st res :
  read_open r = Ok a -> a.(oa_mint) = Pubkey_default ->
  open program_id accounts r st = Ok res ->
  exists seller escrow system it b min_balance now st1 d,
    accounts = seller :: escrow :: system :: it /\
    open_checked program_id a seller escrow b st /\
    rent_get = Ok min_balance /\ min_balance ESCROW_LEN + a.(oa_total) <= u64_max /\
    create_pda seller escrow (min_balance ESCROW_LEN + a.(oa_total)) ESCROW_LEN program_id
      [ESCROW_SEED; a.(oa_trade_id); seller.(key); [b]] st = Ok (tt, st1) /\
    clock_get = Ok now /\ i64_min <= now + a.(oa_fallback_delay) <= i64_max /\
    pack (opened a seller.(key) b now) (account st1 escrow.(key)).(data) = Some d /\
    res = (tt, <[escrow.(key) := set_data d (account st1 escrow.(key))]> st1).
Proof.
  intros Ha Hm. unfold open. rewrite Ha. intros Hr.
  apply bind_Ok in Hr as (? & ? & (? & [= <-] & [= -> ->])%lift_Ok & Hr).
  apply bind_Ok in Hr as ([? ?] & ? & (seller & it1 & -> & [= -> -> ->])%next_account_info_Ok & Hr).
  apply bind_Ok in Hr as ([? ?] & ? & (escrow & it2 & -> & [= -> -> ->])%next_account_info_Ok & Hr).
  apply bind_Ok in Hr as ([? ?] & ? & (system & it3 & -> & [= -> -> ->])%next_account_info_Ok & Hr).
  do 6 (apply bind_Ok in Hr as ([] & ? & [?Hg [= ->]]%bail_if_Ok & Hr)).
  destruct (find_program_address _ _) as [k b] eqn:Hfind.
  apply bind_Ok in Hr as ([] & ? & [Hk [= ->]]%bail_if_Ok & Hr).
  apply bind_Ok in Hr as (ea & ? & [= -> ->]%read_account_Ok & Hr).
  apply bind_Ok in Hr as ([] & ? & [Hu [= ->]]%bail_if_Ok & Hr).
  apply bind_Ok in Hr as (mb & ? & (? & Hrent & [= -> ->])%lift_Ok & Hr).
  rewrite Hm in Hr. rewrite bool_decide_true in Hr by done.
  apply bind_Ok in Hr as (el & ? & (? & Hel%ok_or_Ok & [= -> ->])%lift_Ok & Hr).
  unfold checked_add64 in Hel. case_bool_decide as Hle; [|done]. injection Hel as <-.
  apply bind_Ok in Hr as ([] & st1 & Hpda & Hr).
  apply bind_Ok in Hr as (vb & ? & [= -> ->]%ret_Ok & Hr).
  apply bind_Ok in Hr as (now & ? & (? & Hnow & [= -> ->])%lift_Ok & Hr).
  apply bind_Ok in Hr as (fb & ? & (? & Hfb%ok_or_Ok & [= -> ->])%lift_Ok & Hr).
  unfold checked_add_i64 in Hfb. case_bool_decide as Hi; [|done]. injection Hfb as <-.
  apply bind_Ok in Hr as (ea & ? & [= -> ->]%read_account_Ok & Hr).
  apply bind_Ok in Hr as (d & ? & (? & Hpack & [= -> ->])%or_panic_Ok & Hr).
  apply update_account_Ok in Hr as ->. rewrite <-Hm in Hpack.
  m_inv. eexists seller, escrow, system, it3, b, _, _, st1, _.
  split_and!; try done; try lia. constructor; try done; lia.
Qed.

(** What [open] has promised can be loaded by every later instruction. *)
Lemma open_native_loaded program_id accounts r a st st' :
  Forall in_u8 r.(rd_data) -> Forall (fun i => length i.(key) = 32%nat) accounts ->
  (forall k, 0 <= balance st k) ->
  read_open r = Ok a -> a.(oa_mint) = Pubkey_default ->
  open program_id accounts r st = Ok (tt, st') ->
  exists seller escrow it b now min_balance,
    accounts = seller :: escrow :: it /\ seller.(is_signer) = true /\
    clock_get = Ok now /\ rent_get = Ok min_balance /\
    (seller.(key) <> escrow.(key) ->
     let e := opened a seller.(key) b now in
     fair_terms now e /\ loaded program_id escrow st' e /\
     min_balance ESCROW_LEN + e.(total) <= balance st' escrow.(key)).
Proof.
  intros Hbytes Hkeys Hpos Ha Hm Hop. pose proof (read_open_typed r a Hbytes Ha) as [].
  apply (open_native_Ok _ _ _ a) in Hop
    as (seller & escrow & system & it & b & mb & now & st1 & d & -> & [] & Hrent & Hle & Hpda & Hnow &
        Hi & Hpack & [= ->]); [|done|done].
  exists seller, escrow, (system :: it), b, now, mb. split_and!; try done. intros Hne e.
  pose proof (rent_typed _ ESCROW_LEN Hrent) as Hr. pose proof (clock_typed _ Hnow) as Hc.
  apply find_create in oc_address0 as [Hca Hbump].
  apply create_pda_Ok in Hpda as (st1' & [= <-] & Hacc & _ & _); [|machine_lia|unfold ESCROW_LEN; machine_lia|done|done].
  assert (Hte : escrow_typed e).
  { constructor; simpl; try done; try machine_lia.
    by apply (Forall_cons_1 _ _ _ Hkeys). }
  rewrite Hacc in Hpack. simpl in Hpack. rewrite pack_layout in Hpack by done. injection Hpack as <-.
  split_and!.
  - unfold MAX_FEE_BPS in *. constructor; simpl; try done; try machine_lia.
  - constructor; rewrite ?account_insert_eq; try done; [by rewrite Hacc|by apply unpack_layout].
  - unfold balance. rewrite account_insert_eq, Hacc. simpl. lia.
Qed.

End Open.
