(* ===== verification/EscrowTheorems.v ===== *)
(** * The theorems about the escrow program

    The life of an escrow: what [open] records, who can end it and how, where
    every lamport goes, and that it ends once. *)
From S2P Require Import Prelude Escrow EscrowFacts.
Local Open Scope Z_scope.
Local Open Scope ego_scope.

(** ** A settlement with the right accounts goes through *)

Section Success.
Context `{SolanaRuntime}.

Lemma move_lamports_succeeds from to amount st :
  0 <= amount <= balance st from.(key) -> balance st to.(key) + amount <= u64_max ->
  move_lamports from to amount st = Ok (tt, moved from.(key) to.(key) amount st).
Proof.
  intros Ha Hb. unfold move_lamports, moved. destruct (_ || _) eqn:Eg; [done|].
  apply orb_false_iff in Eg as [_ Hne]. apply bool_decide_eq_false in Hne.
  unfold balance in *. m_step. m_step.
  m_step; [apply ok_or_Ok; unfold checked_sub64; by rewrite bool_decide_true by lia|].
  m_step. m_step; [apply ok_or_Ok; unfold checked_add64; by rewrite bool_decide_true by lia|].
  apply update_account_Ok. rewrite (account_insert_ne (key from)) by done. done.
Qed.

(** The accounts that a payment to the buyer is made with. *)
Record release_accounts (e : Escrow) (seller_info payee fee_info : AccountInfo) : Prop := {
  ra_seller : seller_info.(key) = e.(seller) /\ seller_info.(is_writable) = true;
  ra_payee : payee.(key) = e.(buyer) /\ payee.(is_writable) = true;
  ra_fee : fee_info.(key) = e.(fee_receiver) /\ fee_info.(is_writable) = true;
}.

(** No party is the escrow account itself. *)
Definition outside (k : Pubkey) (e : Escrow) : Prop :=
  k <> e.(buyer) /\ k <> e.(fee_receiver) /\ k <> e.(seller).

Lemma pay_native_release e escrow payee f st :
  in_u64 e.(total) -> 0 <= e.(fee) <= e.(total) -> outside escrow.(key) e ->
  payee.(key) = e.(buyer) -> f.(key) = e.(fee_receiver) -> f.(is_writable) = true ->
  e.(total) <= balance st escrow.(key) -> (forall k, 0 <= balance st k) ->
  balance st e.(buyer) + balance st e.(fee_receiver) + balance st e.(seller) +
    balance st escrow.(key) <= u64_max ->
  exists st1, pay_native e escrow payee (Some f) true e.(fee) st = Ok (tt, st1) /\
    st1 = moved escrow.(key) e.(fee_receiver) e.(fee)
            (moved escrow.(key) e.(buyer) (e.(total) - e.(fee)) st).
Proof.
  intros Ht Hf (Ho1 & Ho2 & Ho3) Hp Hfk Hfw Hbal Hpos Hsum.
  pose proof (Hpos e.(buyer)). pose proof (Hpos e.(fee_receiver)). pose proof (Hpos e.(seller)).
  eexists. split; [|reflexivity]. unfold pay_native.
  assert (wrapping_sub64 e.(total) e.(fee) = e.(total) - e.(fee)) as ->.
  { unfold wrapping_sub64. apply Z.mod_small. machine_lia. }
  m_step; [by m_cond|]. m_step; [by m_cond|].
  m_step; [apply move_lamports_succeeds; rewrite ?Hp; lia|]. rewrite Hp.
  destruct (decide (0 < e.(fee))) as [Hz|Hz].
  - rewrite bool_decide_true by done.
    rewrite move_lamports_succeeds; rewrite ?Hfk, ?balance_moved by done; [done|..];
      rewrite ?(bool_decide_true (key escrow = key escrow)), ?bool_decide_false by done;
      repeat case_bool_decide; lia.
  - rewrite bool_decide_false by done. assert (e.(fee) = 0) as -> by lia.
    unfold moved at 2. by rewrite bool_decide_true.
Qed.

Lemma release_goes_through program_id actor escrow seller_info payee fee_info it st e :
  loaded program_id escrow st e -> is_native e = true -> in_u64 e.(total) ->
  0 <= e.(fee) <= e.(total) -> outside escrow.(key) e ->
  actor.(is_signer) = true -> actor.(key) = e.(seller) ->
  release_accounts e seller_info payee fee_info ->
  e.(total) <= balance st escrow.(key) -> (forall k, 0 <= balance st k) ->
  balance st e.(buyer) + balance st e.(fee_receiver) + balance st e.(seller) +
    balance st escrow.(key) <= u64_max ->
  exists st', act program_id (actor :: escrow :: seller_info :: payee :: fee_info :: it) Release st
    = Ok (tt, st').
Proof.
  intros Hld Hnat Ht Hf Ho Hs Hk [[Hsk Hsw] [Hpk Hpw] [Hfk Hfw]] Hbal Hpos Hsum.
  destruct (pay_native_release e escrow payee fee_info st) as (st1 & Hpay & E1); try done.
  destruct Ho as (Ho1 & Ho2 & Ho3).
  pose proof (Hpos e.(buyer)). pose proof (Hpos e.(fee_receiver)). pose proof (Hpos e.(seller)).
  assert (Hb1 : balance st1 escrow.(key) = balance st escrow.(key) - e.(total) /\
    balance st1 e.(seller) <= balance st e.(seller) + e.(total)).
  { subst st1. rewrite !balance_moved by done.
    rewrite !(bool_decide_true (key escrow = key escrow)) by done.
    repeat case_bool_decide; try done; lia. }
  eexists. unfold act. m_step. m_step. m_step; [by apply load_escrow_Ok|].
  m_step; [unfold authorize; rewrite Hs, bool_decide_true by done; by apply ret_Ok|].
  m_step. m_step. m_step.
  m_step; [rewrite Hsw, Hpw; by m_cond|].
  m_step; [rewrite Hnat; exact Hpay|]. m_step.
  fold (balance st1 escrow.(key)).
  m_step; [apply move_lamports_succeeds; rewrite ?Hsk; lia|]. m_step.
  by apply update_account_Ok.
Qed.

End Success.

(** ** A runtime to evaluate

    A runtime that implements the system program as documented, and a trade of
    1000 lamports with a fee of 50 between the seller (key 1) and the buyer
    (key 2), with arbiter 3 and fee receiver 4. *)
Module Sample.

Definition key_of (i : Z) : Pubkey := repeat i 32.
Definition program : Pubkey := key_of 7.
Definition trade : bytes := key_of 9.

(** A stand-in for the hash that derives addresses. *)
Definition pda (seeds : list bytes) : Pubkey :=
  (fun x => (x + 1) mod 256) <$> take 32 (concat (drop 1 seeds)).

Definition escrow_key : Pubkey := pda [ESCROW_SEED; trade; key_of 1].

Definition system_cpi (ix : Instruction) (_ : option (list bytes)) (st : Store)
    : result Store ProgramError :=
  let d := ix.(ix_data) in
  let tag := from_le_bytes (slice d 0 4) in
  match ix.(ix_accounts) with
  | [p; t] =>
      let amount := from_le_bytes (slice d 4 8) in
      let st1 := <[p.(meta_key) := set_lamports (balance st p.(meta_key) - amount)
                                     (account st p.(meta_key))]> st in
      if bool_decide (balance st p.(meta_key) < amount) then Err (Runtime 1)
      else if bool_decide (tag = 0) then
        let space := Z.to_nat (from_le_bytes (slice d 12 8)) in
        Ok (<[t.(meta_key) := MkAccount amount (drop 20 d) (repeat 0 space)]> st1)
      else if bool_decide (tag = 2) then
        Ok (<[t.(meta_key) := set_lamports (balance st t.(meta_key) + amount)
                                (account st t.(meta_key))]> st1)
      else Err (Runtime 2)
  | [t] =>
      if bool_decide (tag = 8) then
        let space := Z.to_nat (from_le_bytes (slice d 4 8)) in
        Ok (<[t.(meta_key) := set_data (repeat 0 space) (account st t.(meta_key))]> st)
      else if bool_decide (tag = 1) then
        Ok (<[t.(meta_key) := set_owner (drop 4 d) (account st t.(meta_key))]> st)
      else Err (Runtime 2)
  | _ => Err (Runtime 2)
  end.

(** An Ed25519 instruction in which [pk] signs [m]; the signature is at the end. *)
Definition ed25519_ix (pk m : bytes) : Instruction :=
  let u16_le := to_le_bytes 2 in
  let len := Z.of_nat (length m) in
  {| ix_program := ED25519_PROGRAM_ID;
     ix_accounts := [];
     ix_data := [1; 0] ++ u16_le (48 + len) ++ u16_le u16_max ++ u16_le 16 ++ u16_le u16_max ++
                u16_le 48 ++ u16_le len ++ u16_le u16_max ++ pk ++ m ++ repeat 0 64 |}.

Definition runtime : SolanaRuntime :=
  {| find_program_address seeds _ := (pda seeds, 255);
     create_program_address seeds _ := Some (pda (removelast seeds));
     rent_get := Ok (fun space => 100 + Z.of_nat (Nat.min space 1000));
     clock_get := Ok 1700000000;
     load_current_index := Ok 1;
     load_instruction_at _ :=
       Ok (ed25519_ix (key_of 2) (auth_message program escrow_key ACTION_FREEZE));
     cpi := system_cpi |}.

#[local] Existing Instance runtime.

Lemma runtime_system : SystemProgram.
Proof.
  assert (H4 : forall tag r, slice (u32_le tag ++ r) 0 4 = u32_le tag)
    by (intros; by apply slice_here).
  assert (H48 : forall tag x r, slice (u32_le tag ++ u64_le x ++ r) 4 8 = u64_le x)
    by (intros; rewrite slice_skip by done; by apply slice_here).
  split.
  - intros payer target amount space own seeds st st' Ha Hs Hne. unfold cpi, runtime, system_cpi, system_ix.
    cbn [ix_data ix_accounts meta meta_key].
    rewrite H48, !from_u64_le by done. case_bool_decide; [done|]. rewrite H4.
    rewrite bool_decide_true by done.
    rewrite (slice_skip (u32_le 0)), (slice_skip (u64_le amount)) by (done || (simpl; lia)).
    rewrite slice_here by done. rewrite from_u64_le, Nat2Z.id by done. intros [= <-].
    do 2 f_equal.
  - intros payer target amount seeds st st' Ha Hne. unfold cpi, runtime, system_cpi, system_ix.
    cbn [ix_data ix_accounts meta meta_key].
    assert (slice (u32_le 2 ++ u64_le amount) 4 8 = u64_le amount) as ->
      by (rewrite slice_skip by done; by apply slice_last).
    rewrite from_u64_le by done. case_bool_decide; [done|]. rewrite H4.
    rewrite bool_decide_false, bool_decide_true by done. by intros [= <-].
  - intros target space seeds st st' Hs. unfold cpi, runtime, system_cpi, system_ix.
    cbn [ix_data ix_accounts meta meta_key].
    rewrite H4, bool_decide_true by done.
    assert (slice (u32_le 8 ++ u64_le (Z.of_nat space)) 4 8 = u64_le (Z.of_nat space)) as ->
      by (rewrite slice_skip by done; by apply slice_last).
    rewrite from_u64_le, Nat2Z.id by done. by intros [= <-].
  - intros target own seeds st st'. unfold cpi, runtime, system_cpi, system_ix.
    cbn [ix_data ix_accounts meta meta_key].
    rewrite H4, bool_decide_false, bool_decide_true by done. by intros [= <-].
  - intros seeds program_id k b. cbn. intros [= <- <-]. rewrite removelast_last.
    split; [done|machine_lia].
  - intros now. cbn. intros [= <-]. machine_lia.
  - intros mb space. cbn. intros [= <-]. machine_lia.
Qed.

(** The trade, from the seller's [IX_OPEN]. *)
Definition open_data : bytes :=
  trade ++ key_of 2 ++ key_of 3 ++ key_of 4 ++ Pubkey_default ++ u64_le 1000 ++ u64_le 50 ++
  u64_le MIN_FALLBACK.
Definition reader : Reader := MkReader open_data 0.
Definition args : OpenArgs :=
  MkOpenArgs trade (key_of 2) (key_of 3) (key_of 4) Pubkey_default 1000 50 MIN_FALLBACK.

Definition signer (k : Pubkey) : AccountInfo := MkInfo k true true.
Definition plain (k : Pubkey) : AccountInfo := MkInfo k false true.

Definition st0 : Store :=
  {[ key_of 1 := MkAccount 50000 SYSTEM_PROGRAM_ID [] ]}.
Definition open_accounts : list AccountInfo :=
  [signer (key_of 1); plain escrow_key; plain SYSTEM_PROGRAM_ID].
Definition after (m : M unit) (st : Store) : Store :=
  match m st with Ok (_, st') => st' | Err _ => st end.
Definition st1 : Store := after (open program open_accounts reader) st0.

Definition escrow : Escrow := opened args (key_of 1) 255 1700000000.

(** The buyer freezes it by a signed message; the seller releases it. *)
Definition freeze_accounts : list AccountInfo := [plain INSTRUCTIONS_SYSVAR_ID; plain escrow_key].
Definition st2 : Store := after (freeze program freeze_accounts true) st1.
Definition release_accts : list AccountInfo :=
  [signer (key_of 1); plain escrow_key; plain (key_of 1); plain (key_of 2); plain (key_of 4)].
Definition st3 : Store := after (act program release_accts Release) st2.

Lemma open_ok : open program open_accounts reader st0 = Ok (tt, st1).
Proof. vm_compute. reflexivity. Qed.
Lemma freeze_ok : freeze program freeze_accounts true st1 = Ok (tt, st2).
Proof. vm_compute. reflexivity. Qed.
Lemma release_ok : act program release_accts Release st2 = Ok (tt, st3).
Proof. vm_compute. reflexivity. Qed.
Lemma read_ok : read_open reader = Ok args.
Proof. vm_compute. reflexivity. Qed.

End Sample.

(** ** Properties *)

(** The account layout loses nothing: an escrow packed into its 232 bytes is
    read back field by field, negative timestamps included. *)
Theorem escrow_pack_unpack e out :
  escrow_typed e -> length out = ESCROW_LEN ->
  exists d, pack e out = Some d /\ length d = ESCROW_LEN /\ unpack d = Ok e.
Proof.
  intros Ht Hl. exists (layout e).
  auto using pack_layout, length_layout, unpack_layout.
Qed.

Lemma escrow_pack_unpack_witness :
  exists d, pack (set_frozen true Sample.escrow) (repeat 0 232) = Some d /\
    length d = ESCROW_LEN /\ unpack d = Ok (set_frozen true Sample.escrow).
Proof.
  apply (escrow_pack_unpack (set_frozen true Sample.escrow) (repeat 0 232)); [|reflexivity].
  constructor; try reflexivity; vm_compute; split; discriminate.
Defined.

Section Properties.
Context `{SolanaRuntime}.

(** C10: Nobody but the right party moves the money: a successful action on an
    escrow was signed by the seller (release), the buyer (cancel), the arbiter
    (resolve), by the seller of an unfrozen escrow past its fallback time
    (reclaim), or comes right after an Ed25519 check of the buyer's signature
    on this very escrow and action (cancel on behalf). *)
Theorem act_authorized program_id accounts action st st' :
  act program_id accounts action st = Ok (tt, st') ->
  exists e actor escrow it, accounts = actor :: escrow :: it /\
    loaded program_id escrow st e /\ allowed program_id actor escrow.(key) e action.
Proof.
  intros Ha. apply act_Ok in Ha as (e & actor & escrow & si & payee & fp & it & st1 & [] & Hl & Hal & _).
  subst. eauto 10.
Qed.

(** What a native settlement owes the account [k] when the escrow account holds
    [held]: the amount less the fee to the payee, the fee to its receiver, and
    the rent to the seller. *)
Definition owed (e : Escrow) (action : Act) (held : Z) (k : Pubkey) : Z :=
  let payee := if pays_buyer action then e.(buyer) else e.(seller) in
  (if bool_decide (k = payee) then e.(total) - charged e action else 0) +
  (if bool_decide (k = e.(fee_receiver)) then charged e action else 0) +
  (if bool_decide (k = e.(seller)) then held - e.(total) else 0).

(** C11: Every lamport is accounted for: after a native settlement the escrow
    account is empty and back with the system program, and every other account
    has exactly what it had plus what it is owed, even when the parties are the
    same account. *)
Theorem native_settlement program_id actor escrow it action st st' e :
  loaded program_id escrow st e -> is_native e = true -> in_u64 e.(total) ->
  0 <= e.(fee) <= e.(total) -> outside escrow.(key) e ->
  act program_id (actor :: escrow :: it) action st = Ok (tt, st') ->
  account st' escrow.(key) = no_account /\
  forall k, k <> escrow.(key) ->
    balance st' k = balance st k + owed e action (balance st escrow.(key)) k.
Proof.
  intros Hl Hn Ht Hf (Ho1 & Ho2 & Ho3) Ha.
  apply act_Ok in Ha as (e' & actor' & escrow' & si & payee & fp & it' & st1 & [Haa Hfp0 _ _ _] & Hl' & _ & Hpay & [= ->]).
  injection Haa as <- <- _.
  assert (e' = e) as -> by (destruct Hl, Hl'; congruence).
  unfold payment in Hpay. rewrite Hn in Hpay.
  assert (Hc : 0 <= charged e action <= e.(total)) by (unfold charged; destruct (pays_buyer action); lia).
  apply pay_native_Ok in Hpay as (Hpk & _ & [= ->] & _); [|done|done].
  assert (Hpe : escrow.(key) <> payee.(key)) by (rewrite Hpk; by destruct (pays_buyer action)).
  pose proof (native_balances e escrow.(key) st payee.(key) (charged e action) (pays_buyer action))
    as Hbal.
  assert (Hfp : forall (A : Type) (x y : A), match fp with Some _ => x | None => y end =
    if pays_buyer action then x else y).
  { intros A x y. destruct fp, (pays_buyer action); try done; naive_solver. }
  rewrite Hfp. set (st3 := moved _ (seller e) _ _). cbv zeta in Hbal. fold st3 in Hbal.
  assert (charged e action = if pays_buyer action then charged e action else 0) as Ec
    by (unfold charged; by destruct (pays_buyer action)). split.
  - rewrite account_closed. unfold no_account. f_equal.
    specialize (Hbal escrow.(key) Hpe Ho2 Ho3). rewrite balance_closed in Hbal. rewrite Hbal.
    rewrite bool_decide_true, !bool_decide_false by done. lia.
  - intros k Hk. rewrite Hbal by done. rewrite (bool_decide_false (k = key escrow)) by done.
    rewrite <-Ec. unfold owed. rewrite Hpk. repeat case_bool_decide; lia.
Qed.

(** An escrow is settled at most once: after a successful action its account
    can be neither acted on nor frozen again, by anyone. *)
Theorem settled_once program_id actor escrow it action st st' :
  program_id <> SYSTEM_PROGRAM_ID ->
  act program_id (actor :: escrow :: it) action st = Ok (tt, st') ->
  forall actor' escrow' it' action' b, escrow'.(key) = escrow.(key) ->
    act program_id (actor' :: escrow' :: it') action' st' = Err (Custom UnknownEscrow) /\
    freeze program_id (actor' :: escrow' :: it') b st' = Err (Custom UnknownEscrow).
Proof.
  intros Hp Ha actor' escrow' it' action' b Hk.
  apply act_Ok in Ha as (e & ? & ? & si & payee & fp & it0 & st1 & [Haa _ _ _ _] & _ & _ & _ & [= ->]).
  injection Haa as <- <- _.
  match goal with |- context [closed ?k ?s] => set (st2 := s) end.
  assert (Hl : load_escrow program_id escrow' (closed escrow.(key) st2) = Err (Custom UnknownEscrow)).
  { apply load_escrow_foreign. by rewrite Hk, account_closed. }
  split; [by apply act_load_Err|by apply freeze_load_Err].
Qed.

(** Freezing sets the frozen flag and nothing else, only the buyer or the
    arbiter can do it, only once, and from then on the seller cannot reclaim. *)
Theorem freeze_blocks_reclaim program_id actor escrow it b st st' :
  Forall in_u8 (account st escrow.(key)).(data) ->
  freeze program_id (actor :: escrow :: it) b st = Ok (tt, st') ->
  exists e, loaded program_id escrow st e /\ may_freeze program_id actor escrow.(key) e b /\
    e.(frozen) = false /\ loaded program_id escrow st' (set_frozen true e) /\
    (forall k, balance st' k = balance st k) /\
    (forall k, k <> escrow.(key) -> account st' k = account st k) /\
    forall seller_info it' st2,
      act program_id (seller_info :: escrow :: it') Reclaim st' <> Ok (tt, st2) /\
      freeze program_id (seller_info :: escrow :: it') b st' <> Ok (tt, st2).
Proof.
  intros Hb Hf. apply freeze_Ok in Hf as (e & ? & ? & ? & d & [= <- <- <-] & Hl & Hm & Hfr & Hp & [= ->]).
  destruct (freeze_layout _ _ _ _ _ Hb Hl Hp) as [-> Hu].
  assert (Hl' : loaded program_id escrow
    (<[key escrow:=set_data (layout (set_frozen true e)) (account st (key escrow))]> st)
    (set_frozen true e)).
  { destruct Hl. constructor; try done; by rewrite account_insert_eq. }
  exists e. split_and!; try done.
  - intros k. unfold balance. destruct (decide (k = key escrow)) as [->|Hk].
    + by rewrite account_insert_eq.
    + by rewrite account_insert_ne.
  - intros k Hk. by rewrite account_insert_ne.
  - intros si it' st2. split.
    + intros (e2 & ? & ? & ? & ? & ? & ? & ? & [Haa _ _ _ _] & Hl2 & (_ & _ & Hf2 & _) & _)%act_Ok.
      injection Haa as <- <- _.
      assert (e2 = set_frozen true e) as -> by (destruct Hl', Hl2; congruence). done.
    + intros (e2 & ? & ? & ? & ? & [= <- <- <-] & Hl2 & _ & Hf2 & _)%freeze_Ok.
      assert (e2 = set_frozen true e) as -> by (destruct Hl', Hl2; congruence). done.
Qed.

(** A signed message is good for one escrow, one program and one action: two
    authorization messages are equal only if all three are. *)
Theorem auth_message_binds program_id escrow action program_id' escrow' action' :
  length program_id = 32%nat -> length program_id' = 32%nat ->
  length escrow = 32%nat -> length escrow' = 32%nat ->
  auth_message program_id escrow action = auth_message program_id' escrow' action' ->
  program_id = program_id' /\ escrow = escrow' /\ action = action'.
Proof.
  intros H1 H2 H3 H4. unfold auth_message. intros E. apply (inj (app AUTH_DOMAIN)) in E.
  apply app_inj_1 in E as [-> E]; [|congruence].
  apply app_inj_1 in E as [-> E]; [|congruence]. by injection E.
Qed.

(** The seller can always release: if the escrow is funded and the accounts
    of the call are the recorded ones, releasing a native escrow succeeds,
    whether or not it is frozen and however late. *)
Theorem release_succeeds program_id actor escrow seller_info payee fee_info it st e :
  loaded program_id escrow st e -> is_native e = true -> in_u64 e.(total) ->
  0 <= e.(fee) <= e.(total) -> outside escrow.(key) e ->
  actor.(is_signer) = true -> actor.(key) = e.(seller) ->
  release_accounts e seller_info payee fee_info ->
  e.(total) <= balance st escrow.(key) -> (forall k, 0 <= balance st k) ->
  balance st e.(buyer) + balance st e.(fee_receiver) + balance st e.(seller) +
    balance st escrow.(key) <= u64_max ->
  exists st', act program_id (actor :: escrow :: seller_info :: payee :: fee_info :: it) Release st
    = Ok (tt, st').
Proof. apply release_goes_through. Qed.

End Properties.

(** What [open] accepts is a fair trade that can be loaded: the parties are
    three different keys and none is missing, the fee is at most a tenth of the
    amount, the fallback lies 30 to 365 days ahead, the account holds the rent
    and the amount, and it is the program's at the derived address. *)
Theorem open_native_fair `{SystemProgram} program_id accounts r a st st' :
  Forall in_u8 r.(rd_data) -> Forall (fun i => length i.(key) = 32%nat) accounts ->
  (forall k, 0 <= balance st k) ->
  read_open r = Ok a -> a.(oa_mint) = Pubkey_default ->
  open program_id accounts r st = Ok (tt, st') ->
  exists seller escrow it b now min_balance,
    accounts = seller :: escrow :: it /\ seller.(is_signer) = true /\
    clock_get = Ok now /\ rent_get = Ok min_balance /\
    (seller.(key) <> escrow.(key) ->
     let e := opened a seller.(key) b now in
     fair_terms now e /\ loaded program_id escrow st' e /\
     min_balance ESCROW_LEN + e.(total) <= balance st' escrow.(key)).
Proof. apply open_native_loaded. Qed.

(** ** Witnesses *)

#[local] Existing Instance Sample.runtime.

Lemma nonneg_balances (st : Store) :
  bool_decide (map_Forall (fun _ a => 0 <= a.(lamports)) st) = true -> forall k, 0 <= balance st k.
Proof.
  intros Hst%bool_decide_eq_true k. unfold balance, account.
  destruct (st !! k) as [a|] eqn:E; simpl; [by apply (Hst k)|lia].
Qed.

Lemma sample_loaded :
  loaded Sample.program (Sample.plain Sample.escrow_key) Sample.st2 (set_frozen true Sample.escrow).
Proof. constructor; vm_compute; reflexivity. Qed.

Lemma sample_outside : outside Sample.escrow_key (set_frozen true Sample.escrow).
Proof. split_and!; vm_compute; discriminate. Qed.

Lemma act_authorized_witness :
  exists e actor escrow it, Sample.release_accts = actor :: escrow :: it /\
    loaded Sample.program escrow Sample.st2 e /\
    allowed Sample.program actor escrow.(key) e Release.
Proof.
  apply (act_authorized Sample.program Sample.release_accts Release Sample.st2 Sample.st3).
  exact Sample.release_ok.
Defined.

Lemma native_settlement_witness :
  account Sample.st3 Sample.escrow_key = no_account /\
  balance Sample.st3 (Sample.key_of 2) = balance Sample.st2 (Sample.key_of 2) + 950 /\
  balance Sample.st3 (Sample.key_of 4) = balance Sample.st2 (Sample.key_of 4) + 50.
Proof.
  assert (Hs : account Sample.st3 Sample.escrow_key = no_account /\
    forall k, k <> Sample.escrow_key -> balance Sample.st3 k = balance Sample.st2 k +
      owed (set_frozen true Sample.escrow) Release (balance Sample.st2 Sample.escrow_key) k).
  { apply (native_settlement Sample.program (Sample.signer (Sample.key_of 1))
             (Sample.plain Sample.escrow_key) (drop 2 Sample.release_accts) Release Sample.st2
             Sample.st3 (set_frozen true Sample.escrow)).
    - exact sample_loaded.
    - vm_compute. reflexivity.
    - vm_compute. split; discriminate.
    - vm_compute. split; discriminate.
    - exact sample_outside.
    - exact Sample.release_ok. }
  destruct Hs as [H0 Hs]. split; [exact H0|]. split; apply Hs; vm_compute; discriminate.
Defined.

Lemma settled_once_witness :
  act Sample.program Sample.release_accts Release Sample.st3 = Err (Custom UnknownEscrow) /\
  freeze Sample.program (take 2 Sample.release_accts) true Sample.st3 = Err (Custom UnknownEscrow).
Proof.
  assert (Hp : Sample.program <> SYSTEM_PROGRAM_ID) by (vm_compute; discriminate).
  pose proof (settled_once Sample.program (Sample.signer (Sample.key_of 1))
    (Sample.plain Sample.escrow_key) (drop 2 Sample.release_accts) Release Sample.st2 Sample.st3
    Hp Sample.release_ok) as Hs.
  split.
  - refine (proj1 (Hs _ (Sample.plain Sample.escrow_key) _ Release true _)). reflexivity.
  - refine (proj2 (Hs _ (Sample.plain Sample.escrow_key) [] Release true _)). reflexivity.
Defined.

Lemma freeze_blocks_reclaim_witness :
  act Sample.program [Sample.signer (Sample.key_of 1); Sample.plain Sample.escrow_key] Reclaim Sample.st2
    <> Ok (tt, Sample.st2).
Proof.
  destruct (freeze_blocks_reclaim Sample.program (Sample.plain INSTRUCTIONS_SYSVAR_ID)
    (Sample.plain Sample.escrow_key) [] true Sample.st1 Sample.st2) as (e & _ & _ & _ & _ & _ & _ & Hr).
  - apply (bool_decide_eq_true_1 _). vm_compute. reflexivity.
  - exact Sample.freeze_ok.
  - exact (proj1 (Hr (Sample.signer (Sample.key_of 1)) [] Sample.st2)).
Defined.

Lemma auth_message_binds_witness :
  Sample.program = Sample.program /\ Sample.escrow_key = Sample.escrow_key /\
  ACTION_FREEZE = ACTION_FREEZE.
Proof.
  apply (auth_message_binds Sample.program Sample.escrow_key ACTION_FREEZE); reflexivity.
Defined.

Lemma release_succeeds_witness :
  exists st', act Sample.program Sample.release_accts Release Sample.st2 = Ok (tt, st').
Proof.
  apply (release_succeeds Sample.program _ _ _ _ _ [] Sample.st2 (set_frozen true Sample.escrow)).
  - exact sample_loaded.
  - vm_compute. reflexivity.
  - vm_compute. split; discriminate.
  - vm_compute. split; discriminate.
  - exact sample_outside.
  - reflexivity.
  - vm_compute. reflexivity.
  - constructor; vm_compute; split; reflexivity.
  - vm_compute. discriminate.
  - apply nonneg_balances. vm_compute. reflexivity.
  - vm_compute. discriminate.
Defined.

Lemma open_native_fair_witness :
  exists seller escrow it b now min_balance,
    Sample.open_accounts = seller :: escrow :: it /\ seller.(is_signer) = true /\
    clock_get = Ok now /\ rent_get = Ok min_balance /\
    (seller.(key) <> escrow.(key) ->
     let e := opened Sample.args seller.(key) b now in
     fair_terms now e /\ loaded Sample.program escrow Sample.st1 e /\
     min_balance ESCROW_LEN + e.(total) <= balance Sample.st1 escrow.(key)).
Proof.
  pose proof Sample.runtime_system.
  apply (open_native_fair Sample.program Sample.open_accounts Sample.reader Sample.args Sample.st0).
  - apply (bool_decide_eq_true_1 _). vm_compute. reflexivity.
  - apply (bool_decide_eq_true_1 _). vm_compute. reflexivity.
  - apply nonneg_balances. vm_compute. reflexivity.
  - exact Sample.read_ok.
  - reflexivity.
  - exact Sample.open_ok.
Defined.
