(* ===== verification/Crypto.v ===== *)
(** * Keys, signatures, hashes and addresses

    Model of the parts of [crates/ego-core/src/types.rs] and
    [crates/ego-core/src/crypto.rs] the consensus code is built on.  The hash
    functions and the signature algorithms come from other crates and are the
    parameters of [CryptoPrims]; which of them is called on which bytes, the
    encodings of keys and signatures and the error paths are the source's. *)
From S2P Require Import Prelude.
Local Open Scope Z_scope.
Local Open Scope ego_scope.

(** [Hash([u8; 32])], [Address([u8; 20])], [Timestamp(u64)]. *)
Abbreviation Hash := bytes.
Abbreviation Address := bytes.
Abbreviation Timestamp := Z.

Definition ZERO_HASH : Hash := repeat 0 32.

(** [EgoError]: the variants the modelled code returns. *)
Inductive EgoError : Type :=
| CryptoError (message : string)
| InvalidTransaction (message : string)
| AccountNotFound (account_id : string)
| InsufficientBalance (required available : Z)
| InvalidNonce (expected got : Z)
| UnauthorizedSlice (slice_id : string)
| StorageQuotaExceeded (used limit : Z)
| SerializationError (message : string)
| InternalError (message : string).

Inductive AlgorithmId : Type :=
| Ed25519
| MlDsa2
| SlhDsa
| X25519
| MlKem768
| XChaCha20Poly1305
| Blake2s256
| HkdfBlake2s.

#[export] Instance AlgorithmId_eq_dec : EqDecision AlgorithmId.
Proof. solve_decision. Defined.

Definition as_u16 (a : AlgorithmId) : Z :=
  match a with
  | Ed25519 => 0xED01
  | MlDsa2 => 0x0202
  | SlhDsa => 0x0303
  | X25519 => 0x0101
  | MlKem768 => 0x0302
  | XChaCha20Poly1305 => 0x0401
  | Blake2s256 => 0x0501
  | HkdfBlake2s => 0x0502
  end.

Definition from_u16 (value : Z) : option AlgorithmId :=
  if bool_decide (value = 0xED01) then Some Ed25519
  else if bool_decide (value = 0x0202) then Some MlDsa2
  else if bool_decide (value = 0x0303) then Some SlhDsa
  else if bool_decide (value = 0x0101) then Some X25519
  else if bool_decide (value = 0x0302) then Some MlKem768
  else if bool_decide (value = 0x0401) then Some XChaCha20Poly1305
  else if bool_decide (value = 0x0501) then Some Blake2s256
  else if bool_decide (value = 0x0502) then Some HkdfBlake2s
  else None.

Definition is_signature_algorithm (a : AlgorithmId) : bool :=
  match a with
  | Ed25519 | MlDsa2 | SlhDsa => true
  | _ => false
  end.

Definition is_kem_algorithm (a : AlgorithmId) : bool :=
  match a with
  | MlKem768 | X25519 => true
  | _ => false
  end.

Definition is_pq_algorithm (a : AlgorithmId) : bool :=
  match a with
  | MlDsa2 | SlhDsa | MlKem768 => true
  | _ => false
  end.

Record PublicKey : Type := MkPublicKey {
  pk_algorithm : AlgorithmId;
  key_data : bytes;
}.

Record Signature : Type := MkSignature {
  sig_algorithm : AlgorithmId;
  signature_data : bytes;
}.

#[export] Instance PublicKey_eq_dec : EqDecision PublicKey.
Proof. solve_decision. Defined.
#[export] Instance Signature_eq_dec : EqDecision Signature.
Proof. solve_decision. Defined.

(** The constructors [PublicKey::ed25519] and the like. *)
Definition pk_ed25519 (b : bytes) : PublicKey := MkPublicKey Ed25519 b.
Definition pk_dilithium2 (d : bytes) : PublicKey := MkPublicKey MlDsa2 d.
Definition pk_kyber768 (d : bytes) : PublicKey := MkPublicKey MlKem768 d.
Definition sig_ed25519 (b : bytes) : Signature := MkSignature Ed25519 b.
Definition sig_dilithium2 (d : bytes) : Signature := MkSignature MlDsa2 d.
Definition sig_slh_dsa (d : bytes) : Signature := MkSignature SlhDsa d.

(** ** Encodings *)

(** The common body of the two [to_vec]. *)
Definition tagged (a : AlgorithmId) (d : bytes) : bytes :=
  to_le_bytes 2 (as_u16 a) ++ u32_le (Z.of_nat (length d)) ++ d.

Definition pk_to_vec (pk : PublicKey) : bytes := tagged pk.(pk_algorithm) pk.(key_data).
Definition sig_to_vec (s : Signature) : bytes := tagged s.(sig_algorithm) s.(signature_data).

(** The common body of the two [from_slice]. *)
Definition untag (what : string) (slice : bytes) : result (AlgorithmId * bytes) EgoError :=
  if bool_decide (length slice < 6)%nat
  then Err (CryptoError ("Invalid " +:+ what +:+ " format: too short"))
  else
    let? algorithm := ok_or (from_u16 (from_le_bytes (take 2 slice)))
                            (CryptoError "Invalid algorithm ID") in
    let len := from_le_bytes (take 4 (drop 2 slice)) in
    if bool_decide (Z.of_nat (length slice) <> 6 + len)
    then Err (CryptoError ("Invalid " +:+ what +:+ " format: length mismatch"))
    else Ok (algorithm, drop 6 slice).

Definition pk_from_slice (slice : bytes) : result PublicKey EgoError :=
  let? '(a, d) := untag "public key" slice in Ok (MkPublicKey a d).
Definition sig_from_slice (slice : bytes) : result Signature EgoError :=
  let? '(a, d) := untag "signature" slice in Ok (MkSignature a d).

Definition pk_ed25519_bytes (pk : PublicKey) : option bytes :=
  if bool_decide (pk.(pk_algorithm) = Ed25519) && bool_decide (length pk.(key_data) = 32%nat)
  then Some pk.(key_data) else None.

Definition sig_ed25519_bytes (s : Signature) : option bytes :=
  if bool_decide (s.(sig_algorithm) = Ed25519) && bool_decide (length s.(signature_data) = 64%nat)
  then Some s.(signature_data) else None.

Definition pk_validate (pk : PublicKey) : result unit EgoError :=
  let len := length pk.(key_data) in
  match pk.(pk_algorithm) with
  | Ed25519 =>
      if bool_decide (len <> 32%nat) then Err (CryptoError "Ed25519 key must be 32 bytes") else Ok tt
  | MlDsa2 =>
      if bool_decide (Z.of_nat len <> 1312) then Err (CryptoError "ML-DSA-2 key must be 1312 bytes")
      else Ok tt
  | MlKem768 =>
      if bool_decide (Z.of_nat len <> 1184) then Err (CryptoError "ML-KEM-768 key must be 1184 bytes")
      else Ok tt
  | _ => Ok tt
  end.

(** [Hash::from_slice] and [Address::from_slice]. *)
Definition hash_from_slice (slice : bytes) : result Hash EgoError :=
  if bool_decide (length slice <> 32%nat) then Err (CryptoError "Invalid hash length") else Ok slice.
Definition address_from_slice (slice : bytes) : result Address EgoError :=
  if bool_decide (length slice <> 20%nat) then Err (CryptoError "Invalid address length") else Ok slice.

(** ** Primitives of other crates *)

(** [ed25519_verify] decodes the key, which can fail, and then verifies; the
    ML-DSA verifier treats every decoding failure as a bad signature. *)
Class CryptoPrims : Type := {
  blake2s : bytes -> bytes;
  blake3 : bytes -> bytes;
  ed25519_verify : bytes -> bytes -> bytes -> result bool EgoError;
  ml_dsa_verify : bytes -> bytes -> bytes -> bool;
  slh_dsa_verify : bytes -> bytes -> bytes -> result bool EgoError;
  ed25519_sign : bytes -> bytes -> bytes;
  ml_dsa_sign : bytes -> bytes -> bytes;
}.

(** The keys of [KeyPair] that the consensus uses. *)
Record KeyPair : Type := MkKeyPair {
  kp_ed25519_sk : bytes;
  kp_ed25519_pk : bytes;
  kp_dilithium_sk : bytes;
  kp_dilithium_pk : bytes;
}.

Section Crypto.
Context `{CryptoPrims}.

(** Both hash functions keep the first 32 bytes of the digest. *)
Definition hash_data (d : bytes) : Hash := take 32 (blake2s d).
Definition hash_multiple (pieces : list bytes) : Hash := take 32 (blake2s (concat pieces)).

Definition from_public_key (pk : PublicKey) : Address := take 20 (blake3 (pk_to_vec pk)).

Definition ed25519_public_key (kp : KeyPair) : PublicKey := pk_ed25519 kp.(kp_ed25519_pk).
Definition dilithium_public_key (kp : KeyPair) : PublicKey := pk_dilithium2 kp.(kp_dilithium_pk).
Definition sign_ed25519 (kp : KeyPair) (message : bytes) : Signature :=
  sig_ed25519 (ed25519_sign kp.(kp_ed25519_sk) message).
Definition sign_dilithium (kp : KeyPair) (message : bytes) : Signature :=
  sig_dilithium2 (ml_dsa_sign kp.(kp_dilithium_sk) message).

Definition verify_signature (pk : PublicKey) (message : bytes) (s : Signature)
    : result bool EgoError :=
  match pk.(pk_algorithm), s.(sig_algorithm) with
  | Ed25519, Ed25519 =>
      if bool_decide (length pk.(key_data) < 32)%nat then Ok false
      else
        let? sig := ok_or (sig_ed25519_bytes s) (CryptoError "Invalid Ed25519 signature") in
        ed25519_verify (take 32 pk.(key_data)) message sig
  | MlDsa2, MlDsa2 => Ok (ml_dsa_verify pk.(key_data) message s.(signature_data))
  | SlhDsa, SlhDsa => slh_dsa_verify pk.(key_data) message s.(signature_data)
  | _, _ => Err (CryptoError "Algorithm mismatch between public key and signature")
  end.

End Crypto.

(** ** Facts *)

Lemma from_u16_as_u16 a : from_u16 (as_u16 a) = Some a.
Proof. by destruct a. Qed.

Lemma from_u16_Some x a : from_u16 x = Some a -> x = as_u16 a.
Proof. unfold from_u16. repeat case_bool_decide; intros [= <-]; done. Qed.

Lemma untag_tagged what a d :
  Z.of_nat (length d) <= u32_max -> untag what (tagged a d) = Ok (a, d).
Proof.
  intros Hd. unfold untag, tagged, u32_le.
  assert (Ha : 0 <= as_u16 a < 256 ^ Z.of_nat 2) by (destruct a; vm_compute; split; congruence).
  assert (Hl : 0 <= Z.of_nat (length d) < 256 ^ Z.of_nat 4)
    by (change (256 ^ Z.of_nat 4) with (u32_max + 1); machine_lia).
  rewrite bool_decide_false by (rewrite !length_app, !length_to_le_bytes; lia).
  rewrite take_app_length' by by rewrite length_to_le_bytes.
  rewrite from_to_le_bytes, from_u16_as_u16 by done. cbn [ok_or result_bind].
  rewrite drop_app_length' by by rewrite length_to_le_bytes.
  rewrite take_app_length' by by rewrite length_to_le_bytes.
  rewrite from_to_le_bytes by done.
  rewrite bool_decide_false by (rewrite !length_app, !length_to_le_bytes; lia).
  rewrite app_assoc, drop_app_length' by (rewrite length_app, !length_to_le_bytes; done). done.
Qed.

(** Decoding accepts nothing but encodings. *)
Lemma tagged_untag what slice a d :
  Forall in_u8 slice -> untag what slice = Ok (a, d) -> slice = tagged a d.
Proof.
  intros Hb. unfold untag. case_bool_decide as H6; [done|].
  destruct (from_u16 _) as [a0|] eqn:Ea; [|done]. cbn [ok_or result_bind].
  case_bool_decide as Hl; [done|]. intros [= -> <-]. apply from_u16_Some in Ea.
  do 6 (destruct slice as [|? slice]; [simpl in H6; lia|]).
  assert (Hlen : from_le_bytes [z1; z2; z3; z4] = Z.of_nat (length slice)).
  { simpl in Hl |- *. lia. }
  do 6 (apply Forall_cons in Hb as [? Hb]).
  unfold tagged, u32_le. change (drop 6 _) with slice. rewrite <-Hlen, <-Ea.
  change (take 2 _) with [z; z0].
  pose proof (to_from_le_bytes [z; z0] ltac:(auto)) as E1.
  pose proof (to_from_le_bytes [z1; z2; z3; z4] ltac:(auto)) as E2.
  cbn [length] in E1, E2. by rewrite E1, E2.
Qed.
