(* ===== verification/Blocks.v ===== *)
(** * Block headers, votes and quorum certificates

    Model of the data types of [crates/ego-consensus-core/src/bft.rs]: their
    hashes, the messages that are signed, the Merkle root over signatures and
    the verification of a certificate.  Every reading of the clock is an
    argument [now]. *)
From stdpp Require Import pretty.
From S2P Require Import Prelude Crypto.
Local Open Scope Z_scope.
Local Open Scope ego_scope.

Definition MICRO_SLOT_MS : Z := 100.
Definition PROPOSE_TIMEOUT_MS : Z := 500.
Definition VOTE_TIMEOUT_MS : Z := 1000.
Definition COMMIT_TIMEOUT_MS : Z := 1500.

Inductive PoCError : Type :=
| ValidationFailed (message : string)
| SignatureVerificationFailed (message : string).

(** [EgoError::to_string]. *)
Definition ego_to_string (e : EgoError) : string :=
  match e with
  | CryptoError m => "Cryptographic error: " +:+ m
  | InvalidTransaction m => "Invalid transaction: " +:+ m
  | AccountNotFound id => "Account not found: " +:+ id
  | InsufficientBalance required available =>
      "Insufficient balance: required " +:+ pretty required +:+ ", available " +:+ pretty available
  | InvalidNonce expected got =>
      "Invalid nonce: expected " +:+ pretty expected +:+ ", got " +:+ pretty got
  | UnauthorizedSlice id => "Network slice not authorized: " +:+ id
  | StorageQuotaExceeded used limit =>
      "Storage quota exceeded: used " +:+ pretty used +:+ ", limit " +:+ pretty limit
  | SerializationError m => "Serialization error: " +:+ m
  | InternalError m => "Internal error: " +:+ m
  end.

(** [.map_err(|e| PoCError::SignatureVerificationFailed(e.to_string()))]. *)
Definition sig_err {A} (r : result A EgoError) : result A PoCError :=
  match r with
  | Ok a => Ok a
  | Err e => Err (SignatureVerificationFailed (ego_to_string e))
  end.

Inductive SigScheme : Type :=
| SchemeDilithium
| SchemeEd25519.

Record BlockHeader : Type := MkHeader {
  bh_height : Z;
  bh_epoch : Z;
  bh_slot : Z;
  bh_round : Z;
  bh_prev_hash : Hash;
  bh_proposer : Address;
  bh_tx_root : Hash;
  bh_state_root : Hash;
  bh_receipts_root : Hash;
  bh_events_root_post : Hash;
  bh_events_root_poc : Hash;
  bh_rollup_root : Hash;
  bh_da_root : Hash;
  bh_vrf_output : Hash;
  bh_vrf_proof : bytes;
  bh_timestamp : Timestamp;
  bh_signature : Signature;
  bh_proposer_public_key : PublicKey;
}.

Record BlockRoots : Type := MkRoots {
  br_tx_root : Hash;
  br_state_root : Hash;
  br_receipts_root : Hash;
  br_events_root_post : Hash;
  br_events_root_poc : Hash;
  br_rollup_root : Hash;
  br_da_root : Hash;
}.

Record Vote : Type := MkVote {
  vt_block_hash : Hash;
  vt_height : Z;
  vt_epoch : Z;
  vt_round : Z;
  vt_voter : Address;
  vt_voter_public_key : PublicKey;
  vt_signature : Signature;
  vt_timestamp : Timestamp;
}.

Record QuorumCertificate : Type := MkQC {
  qc_block_hash : Hash;
  qc_height : Z;
  qc_epoch : Z;
  qc_round : Z;
  qc_voters_bitmap : list bool;
  qc_sigs_root : Hash;
  qc_formed_at : Timestamp;
}.

#[export] Instance BlockHeader_eq_dec : EqDecision BlockHeader.
Proof. solve_decision. Defined.
#[export] Instance QuorumCertificate_eq_dec : EqDecision QuorumCertificate.
Proof. solve_decision. Defined.

Definition set_bh_round (r : Z) (h : BlockHeader) : BlockHeader :=
  MkHeader h.(bh_height) h.(bh_epoch) h.(bh_slot) r h.(bh_prev_hash) h.(bh_proposer)
    h.(bh_tx_root) h.(bh_state_root) h.(bh_receipts_root) h.(bh_events_root_post)
    h.(bh_events_root_poc) h.(bh_rollup_root) h.(bh_da_root) h.(bh_vrf_output) h.(bh_vrf_proof)
    h.(bh_timestamp) h.(bh_signature) h.(bh_proposer_public_key).
Definition set_bh_signature (s : Signature) (h : BlockHeader) : BlockHeader :=
  MkHeader h.(bh_height) h.(bh_epoch) h.(bh_slot) h.(bh_round) h.(bh_prev_hash) h.(bh_proposer)
    h.(bh_tx_root) h.(bh_state_root) h.(bh_receipts_root) h.(bh_events_root_post)
    h.(bh_events_root_poc) h.(bh_rollup_root) h.(bh_da_root) h.(bh_vrf_output) h.(bh_vrf_proof)
    h.(bh_timestamp) s h.(bh_proposer_public_key).
Definition set_bh_public_key (pk : PublicKey) (h : BlockHeader) : BlockHeader :=
  MkHeader h.(bh_height) h.(bh_epoch) h.(bh_slot) h.(bh_round) h.(bh_prev_hash) h.(bh_proposer)
    h.(bh_tx_root) h.(bh_state_root) h.(bh_receipts_root) h.(bh_events_root_post)
    h.(bh_events_root_poc) h.(bh_rollup_root) h.(bh_da_root) h.(bh_vrf_output) h.(bh_vrf_proof)
    h.(bh_timestamp) h.(bh_signature) pk.

Section Blocks.
Context `{CryptoPrims}.

(** ** The signature scheme *)

Definition scheme_public_key (s : SigScheme) (kp : KeyPair) : PublicKey :=
  match s with
  | SchemeDilithium => dilithium_public_key kp
  | SchemeEd25519 => ed25519_public_key kp
  end.

Definition scheme_sign (s : SigScheme) (kp : KeyPair) (msg : bytes) : Signature :=
  match s with
  | SchemeDilithium => sign_dilithium kp msg
  | SchemeEd25519 => sign_ed25519 kp msg
  end.

Definition scheme_address (s : SigScheme) (kp : KeyPair) : Address :=
  from_public_key (scheme_public_key s kp).

(** ** The Merkle root *)

(** One pass of the loop: neighbours are hashed together, an odd last leaf with itself. *)
Fixpoint merkle_layer (layer : list Hash) : list Hash :=
  match layer with
  | [] => []
  | [l] => [hash_multiple [l; l]]
  | l :: r :: layer => hash_multiple [l; r] :: merkle_layer layer
  end.

Fixpoint merkle_loop (fuel : nat) (layer : list Hash) : option Hash :=
  match layer with
  | [] => None
  | [root] => Some root
  | _ =>
      match fuel with
      | O => None
      | S fuel => merkle_loop fuel (merkle_layer layer)
      end
  end.

(** The layer more than halves until one hash is left, so its length is enough fuel. *)
Definition merkle_root (hashes : list Hash) : Hash :=
  default ZERO_HASH (merkle_loop (length hashes) hashes).

(** ** Headers *)

Definition roots_empty : BlockRoots :=
  {| br_tx_root := ZERO_HASH; br_state_root := ZERO_HASH; br_receipts_root := ZERO_HASH;
     br_events_root_post := ZERO_HASH; br_events_root_poc := ZERO_HASH;
     br_rollup_root := ZERO_HASH; br_da_root := ZERO_HASH |}.

Definition roots_from_events (poc post : list Hash) : BlockRoots :=
  {| br_tx_root := ZERO_HASH; br_state_root := ZERO_HASH; br_receipts_root := ZERO_HASH;
     br_events_root_post := merkle_root post; br_events_root_poc := merkle_root poc;
     br_rollup_root := ZERO_HASH; br_da_root := ZERO_HASH |}.

Definition header_new (height epoch slot : Z) (prev_hash : Hash) (proposer : Address)
    (r : BlockRoots) (vrf_output : Hash) (vrf_proof : bytes) (now : Timestamp) : BlockHeader :=
  {| bh_height := height; bh_epoch := epoch; bh_slot := slot; bh_round := 0;
     bh_prev_hash := prev_hash; bh_proposer := proposer; bh_tx_root := r.(br_tx_root);
     bh_state_root := r.(br_state_root); bh_receipts_root := r.(br_receipts_root);
     bh_events_root_post := r.(br_events_root_post); bh_events_root_poc := r.(br_events_root_poc);
     bh_rollup_root := r.(br_rollup_root); bh_da_root := r.(br_da_root);
     bh_vrf_output := vrf_output; bh_vrf_proof := vrf_proof; bh_timestamp := now;
     bh_signature := sig_ed25519 (repeat 0 64); bh_proposer_public_key := pk_ed25519 (repeat 0 32) |}.

(** What [block_hash] hashes, in order. *)
Definition header_pieces (h : BlockHeader) : list bytes :=
  [u64_le h.(bh_height); u64_le h.(bh_epoch); u64_le h.(bh_slot); u32_le h.(bh_round);
   h.(bh_prev_hash); h.(bh_proposer); h.(bh_tx_root); h.(bh_state_root); h.(bh_receipts_root);
   h.(bh_events_root_post); h.(bh_events_root_poc); h.(bh_rollup_root); h.(bh_da_root);
   h.(bh_vrf_output); u64_le h.(bh_timestamp)].

Definition block_hash (h : BlockHeader) : Hash := hash_multiple (header_pieces h).

Definition header_signing_bytes (h : BlockHeader) : bytes :=
  ascii_bytes "ego/block/v1:" ++ block_hash h.

Definition header_sign (kp : KeyPair) (scheme : SigScheme) (h : BlockHeader) : BlockHeader :=
  let h := set_bh_public_key (scheme_public_key scheme kp) h in
  set_bh_signature (scheme_sign scheme kp (header_signing_bytes h)) h.

Definition header_verify (h : BlockHeader) : result bool PoCError :=
  sig_err (verify_signature h.(bh_proposer_public_key) (header_signing_bytes h) h.(bh_signature)).

Definition epoch_randomness (h : BlockHeader) (region_id : bytes) : Hash :=
  hash_multiple [h.(bh_vrf_output); region_id; u64_le h.(bh_epoch); u64_le h.(bh_slot)].

(** ** The VRF *)

Definition compute_vrf_output (kp : KeyPair) (epoch slot : Z) : Hash * bytes :=
  let input := hash_multiple [key_data (ed25519_public_key kp); u64_le epoch; u64_le slot] in
  let proof := signature_data (sign_ed25519 kp input) in
  (hash_multiple [ascii_bytes "ego/vrf/v1:"; proof], proof).

Definition verify_vrf_output (pk : PublicKey) (epoch slot : Z) (proof_bytes : bytes) : option Hash :=
  if bool_decide (length proof_bytes <> 64%nat) then None
  else
    let sig := sig_ed25519 proof_bytes in
    let input := hash_multiple [pk.(key_data); u64_le epoch; u64_le slot] in
    match verify_signature pk input sig with
    | Ok true => Some (hash_multiple [ascii_bytes "ego/vrf/v1:"; proof_bytes])
    | _ => None
    end.

(** ** Votes *)

Definition vote_msg (block_hash : Hash) (height epoch round : Z) : bytes :=
  ascii_bytes "ego/vote/v1:" ++ block_hash ++ u64_le height ++ u64_le epoch ++ u32_le round.

Definition vote_new (block_hash : Hash) (height epoch round : Z) (kp : KeyPair) (scheme : SigScheme)
    (now : Timestamp) : Vote :=
  {| vt_block_hash := block_hash; vt_height := height; vt_epoch := epoch; vt_round := round;
     vt_voter := scheme_address scheme kp; vt_voter_public_key := scheme_public_key scheme kp;
     vt_signature := scheme_sign scheme kp (vote_msg block_hash height epoch round);
     vt_timestamp := now |}.

Definition vote_verify (v : Vote) : result bool PoCError :=
  sig_err (verify_signature v.(vt_voter_public_key)
             (vote_msg v.(vt_block_hash) v.(vt_height) v.(vt_epoch) v.(vt_round)) v.(vt_signature)).

(** ** Quorum certificates *)

Definition sig_hashes (votes : list Vote) : list Hash :=
  map (fun v => hash_data v.(vt_signature).(signature_data)) votes.

Definition qc_new (block_hash : Hash) (height epoch round : Z) (votes : list Vote) (now : Timestamp)
    : QuorumCertificate :=
  {| qc_block_hash := block_hash; qc_height := height; qc_epoch := epoch; qc_round := round;
     qc_voters_bitmap := map (fun _ => true) votes;
     qc_sigs_root := merkle_root (sig_hashes votes);
     qc_formed_at := now |}.

Definition voter_count (qc : QuorumCertificate) : nat :=
  length (filter (fun b => b = true) qc.(qc_voters_bitmap)).

(** The loop of [verify]: [None] where it returns [Ok(false)], and the set of
    voters seen at its end. *)
Fixpoint qc_verify_votes (qc : QuorumCertificate) (validator_set : list Address)
    (votes : list Vote) (seen : gset Address) : result (option (gset Address)) PoCError :=
  match votes with
  | [] => Ok (Some seen)
  | v :: votes =>
      if bool_decide (v.(vt_block_hash) <> qc.(qc_block_hash)) ||
         bool_decide (v.(vt_height) <> qc.(qc_height)) ||
         bool_decide (v.(vt_epoch) <> qc.(qc_epoch)) || bool_decide (v.(vt_round) <> qc.(qc_round))
      then Ok None
      else if bool_decide (from_public_key v.(vt_voter_public_key) <> v.(vt_voter)) then Ok None
      else if bool_decide (v.(vt_voter) ∉ validator_set) then Ok None
      else if bool_decide (v.(vt_voter) ∈ seen) then Ok None
      else
        let? ok := vote_verify v in
        if (ok : bool) then qc_verify_votes qc validator_set votes ({[v.(vt_voter)]} ∪ seen) else Ok None
  end.

Definition qc_verify (qc : QuorumCertificate) (votes : list Vote) (validator_set : list Address)
    : result bool PoCError :=
  if bool_decide (validator_set = []) then Ok false
  else if bool_decide (merkle_root (sig_hashes votes) <> qc.(qc_sigs_root)) then Ok false
  else
    let quorum := ((2 * length validator_set) `div` 3 + 1)%nat in
    let? r := qc_verify_votes qc validator_set votes ∅ in
    match r with
    | None => Ok false
    | Some seen => Ok (bool_decide (quorum <= size seen)%nat)
    end.

End Blocks.
