(* ===== verification/NodeAccount.v ===== *)
(** * Accounts of the node

    Model of [crates/ego-core/src/account.rs] with the [Balance] of [types.rs]: the
    accounts the [StateManager] of [state.rs] keeps, their constructors and every
    method that changes them.  A method of [&mut self] takes the account and
    returns it changed; one that fails after a change says which account it
    leaves.  The clock is the argument [now].

    Plain [+], [-] and [*] wrap, as in a release build (the workspace sets no
    [overflow-checks]); a division by zero panics.  An [f64] is a [spec_float],
    the binary64 arithmetic of the Standard Library with rounding to nearest even.
    [powi], whose precision Rust leaves open, is a parameter. *)
From Stdlib Require Import Floats.SpecFloat.
From coqutil Require Import Datatypes.RecordSettersUsingExistingGetters.
From S2P Require Import Prelude Crypto.
Import RecordSetNotations1.
Local Open Scope Z_scope.
Local Open Scope ego_scope.

#[global] Arguments RecordSettersUsingExistingGetters.const {_} _ _ /.

(** ** Numbers *)

Definition u128_max : Z := 340282366920938463463374607431768211455.
Definition in_u128 (x : Z) : Prop := 0 <= x <= u128_max.

(** Wrapping arithmetic at 32 and 64 bits. *)
Definition wrap32 (x : Z) : Z := x mod (u32_max + 1).
Definition wrap64 (x : Z) : Z := x mod (u64_max + 1).

(** [u32 as i32]. *)
Definition as_i32 (x : Z) : Z := (x + 2147483648) mod (u32_max + 1) - 2147483648.

(** [Balance(u128)] of [types.rs]. *)
Abbreviation Balance := Z.
Definition checked_add (a b : Balance) : option Balance :=
  if bool_decide (a + b <= u128_max) then Some (a + b) else None.
Definition checked_sub (a b : Balance) : option Balance :=
  if bool_decide (b <= a) then Some (a - b) else None.
Definition saturating_add (a b : Balance) : Balance := sat_add u128_max a b.
Definition saturating_sub (a b : Balance) : Balance := sat_sub a b.

Abbreviation f64 := spec_float.
Definition f64_add : f64 -> f64 -> f64 := SFadd 53 1024.
Definition f64_sub : f64 -> f64 -> f64 := SFsub 53 1024.
Definition f64_mul : f64 -> f64 -> f64 := SFmul 53 1024.
Definition f64_div : f64 -> f64 -> f64 := SFdiv 53 1024.

(** [as f64] of an integer, and the literal of a decimal fraction. *)
Definition f64_of (z : Z) : f64 := binary_normalize 53 1024 z 0 false.
Definition f64_lit (num den : Z) : f64 := f64_div (f64_of num) (f64_of den).

(** [f64::max], [f64::min] (which ignore a NaN) and [f64::clamp]. *)
Definition f64_max (x y : f64) : f64 :=
  match x, y with
  | S754_nan, _ => y
  | _, S754_nan => x
  | _, _ => if SFltb x y then y else x
  end.
Definition f64_min (x y : f64) : f64 :=
  match x, y with
  | S754_nan, _ => y
  | _, S754_nan => x
  | _, _ => if SFltb y x then y else x
  end.
Definition f64_clamp (x lo hi : f64) : f64 :=
  let x := if SFltb x lo then lo else x in
  if SFltb hi x then hi else x.

(** [as u64] of a float: towards zero, saturating, 0 for a NaN. *)
Definition f64_as_u64 (x : f64) : Z :=
  match x with
  | S754_nan | S754_zero _ | S754_infinity true => 0
  | S754_infinity false => u64_max
  | S754_finite s m e => Z.max 0 (Z.min u64_max (cond_Zopp s (Z.shiftl (Z.pos m) e)))
  end.

(** ** What other crates provide: [hex], and [powi] of the standard library. *)
Class NodePrims : Type := {
  hex_encode : bytes -> string;
  hex_decode : string -> option bytes;
  powi : f64 -> Z -> f64;
}.

(** [Display] of an address and of a hash. *)
Definition show_address `{NodePrims} (a : Address) : string := "ego" +:+ hex_encode a.
Definition show_hash `{NodePrims} (h : Hash) : string := hex_encode h.

(** ** Data *)

Inductive HotSetMode : Type :=
| HotValidator
| HotStorageProvider
| HotFullNode
| HotLightClient.

Inductive DataType : Type :=
| BlockBodies
| ContractCodeData
| StateSnapshotData
| DABlobData
| ProofEvidence
| UserDataData
| RollupBatchData.

#[export] Instance DataType_eq_dec : EqDecision DataType.
Proof. solve_decision. Defined.

Inductive TriadRole : Type :=
| Primary
| ReplicaA
| ReplicaB.

Inductive NodeRole : Type :=
| RoleValidator
| RoleStorageProvider
| RoleGateway
| RoleRollup.

#[export] Instance NodeRole_eq_dec : EqDecision NodeRole.
Proof. solve_decision. Defined.

Inductive CodeStorageMode : Type :=
| OnChain
| PostAudited (sector_id : Hash) (providers : list Address).

Inductive UpgradePolicy : Type :=
| Immutable
| OwnerOnly
| Governance
| Timelock (delay_blocks : Z).

Inductive AccountType : Type :=
| EOA
| Device (device_id : string) (geohash : option string)
| Contract (code_hash : Hash) (state_root : Hash)
| System (purpose : string)
| Validator (validator_pubkey : PublicKey) (commission_rate : Z) (is_active : bool)
| StorageProvider (provider_id : string) (region : string)
| Hybrid (roles : list NodeRole).

Inductive SlashingType : Type :=
| PostMiss
| PostInvalid
| PoCFraud
| Equivocation
| DataUnavailability.

Record PruningConfig : Type := MkPruning {
  pr_enabled : bool;
  pr_keep_epochs : Z;
  prune_interval_epochs : Z;
  pr_keep_headers_forever : bool;
  keep_state_snapshots : bool;
  snapshot_interval_epochs : Z;
}.

Record ArchivalConfig : Type := MkArchival {
  store_old_bodies : bool;
  store_contract_blobs : bool;
  store_state_snapshots : bool;
  store_da_blobs : bool;
  store_proof_evidence : bool;
  store_user_data : bool;
  replication_factor : Z;
  erasure_coding_params : option (Z * Z);
}.

Record TriadInfo : Type := MkTriad {
  group_id : string;
  role : TriadRole;
  primary : Address;
  replica_a : Address;
  replica_b : Address;
  placement_epoch : Z;
}.

Record SectorInfo : Type := MkSector {
  sector_id : Hash;
  size_bytes : Z;
  data_type : DataType;
  sealed_at : Timestamp;
  expires_at : Timestamp;
  replica_id : Hash;
  comm_d : Hash;
  comm_r : Hash;
  triad : TriadInfo;
  params_version : Z;
  post_frequency : Z;
  last_post_epoch : Z;
  miss_count : Z;
  integrity_verified : bool;
}.

Record PostRepStats : Type := MkPostRep {
  porep_proofs_submitted : Z;
  post_proofs_submitted : Z;
  post_pass_rate : f64;
  avg_post_latency_ms : Z;
  challenges_answered : Z;
  challenges_missed : Z;
  last_challenge_epoch : Z;
  consecutive_misses : Z;
  sectors_sealed : Z;
  sectors_faulty : Z;
  repairs_completed : Z;
  promotions : Z;
}.

Record ProviderEarnings : Type := MkEarnings {
  storage_rewards : Balance;
  retrieval_fees : Balance;
  post_rewards : Balance;
  total_earned : Balance;
  total_slashed : Balance;
  pending_payouts : Balance;
}.

Record SlashingEvent : Type := MkSlashing {
  sl_timestamp : Timestamp;
  sl_amount : Balance;
  sl_reason : string;
  evidence_hash : Hash;
  event_type : SlashingType;
}.

Record StorageProviderInfo : Type := MkProvider {
  node_id : Address;
  storage_capacity : Z;
  storage_allocated : Z;
  active_sectors : list SectorInfo;
  collateral_locked : Balance;
  postrep_stats : PostRepStats;
  earnings : ProviderEarnings;
  slashing_history : list SlashingEvent;
  health_score : Z;
  last_audit_epoch : Z;
}.

Record PQTransitionInfo : Type := MkPQ {
  transition_started_epoch : Z;
  pq_only_mode : bool;
  ed25519_disabled_epoch : option Z;
  supported_algorithms : list Z;
}.

Record ContractInfo : Type := MkContractInfo {
  ci_code_hash : Hash;
  code_stored_by : CodeStorageMode;
  upgrade_policy : UpgradePolicy;
  pointer_name : option bytes;
  ci_state_root : Hash;
  state_snapshot_sector : option Hash;
  last_snapshot_epoch : Z;
}.

Record CostAwareness : Type := MkCost {
  cellular_safe_mode : bool;
  max_monthly_cost_usd : f64;
  current_month_usage_gb : Z;
  wifi_only_operations : list string;
  cellular_throttle_threshold_gb : Z;
}.

Record PostStats : Type := MkPostStats {
  proofs_submitted : Z;
  success_rate : Z;
  last_proof : option Timestamp;
  challenges_responded : Z;
  integrity_score : Z;
  proof_frequency_hz : f64;
  batch_enabled : bool;
}.

Record DeviceCapabilities : Type := MkCapabilities {
  bandwidth_capacity : Z;
  dc_storage_capacity : Z;
  supported_slices : list string;
  coverage_area : option string;
  hardware_specs : gmap string string;
  last_poc : option Timestamp;
  post_stats : PostStats;
  cellular_safe : bool;
  max_bandwidth_cellular : Z;
  monthly_data_limit_gb : Z;
  cost_awareness : CostAwareness;
}.

Record ValidatorPerformance : Type := MkPerformance {
  blocks_validated : Z;
  uptime_percentage : Z;
  attestation_accuracy : Z;
  last_active_epoch : Z;
  penalties : Z;
}.

Record StakingInfo : Type := MkStaking {
  staked_amount : Balance;
  delegated_stake : Balance;
  rewards_earned : Balance;
  slashing_events : list SlashingEvent;
  performance : ValidatorPerformance;
}.

Record ValidatorHotSetConfig : Type := MkHotSet {
  keep_headers_forever : bool;
  keep_qcs_forever : bool;
  keep_recent_bodies_epochs : Z;
  keep_state_db : bool;
  mempool_enabled : bool;
  fetch_on_demand_enabled : bool;
}.

Record JailInfo : Type := MkJail {
  jailed_at : Timestamp;
  release_at : Timestamp;
  jail_reason : string;
}.

Record ValidatorInfo : Type := MkValidatorInfo {
  vi_pubkey : PublicKey;
  vi_commission_rate : Z;
  vi_is_active : bool;
  jail_info : option JailInfo;
  hot_set_config : ValidatorHotSetConfig;
}.

Record Account : Type := MkAccount {
  address : Address;
  balance : Balance;
  nonce : Z;
  per_shard_nonces : option (gmap Z Z);
  created_at : Timestamp;
  last_activity : Timestamp;
  dilithium_pk : bytes;
  ed25519_pk : option bytes;
  mlkem_pk : bytes;
  x25519_pk : option bytes;
  slh_dsa_pk : option bytes;
  storage_quota : Z;
  storage_used : Z;
  storage_credits : Z;
  deploy_credits : Z;
  free_deploys_remaining : Z;
  deploy_bond_locked_until : option Timestamp;
  staking_info : option StakingInfo;
  validator_info : option ValidatorInfo;
  storage_provider_info : option StorageProviderInfo;
  last_drs_score : option Z;
  last_drs_epoch : option Z;
  account_type : AccountType;
  contract_info : option ContractInfo;
  peer_id : option string;
  tmp_attestation : option bytes;
  authorized_slices : list string;
  device_capabilities : option DeviceCapabilities;
  metadata : gmap string string;
  pq_transition_info : option PQTransitionInfo;
  hot_set_mode : HotSetMode;
  pruning_config : option PruningConfig;
  archival_config : option ArchivalConfig;
}.

(** ** Constructors *)

Definition PostRepStats_default : PostRepStats := MkPostRep 0 0 (f64_of 100) 0 0 0 0 0 0 0 0 0.
Definition ProviderEarnings_default : ProviderEarnings := MkEarnings 0 0 0 0 0 0.
Definition PostStats_default : PostStats := MkPostStats 0 100000 None 0 100 (f64_lit 5 10) true.
Definition CostAwareness_default : CostAwareness :=
  MkCost true (f64_of 50) 0 ["heavy_compute"; "large_storage"; "bulk_sync"] 5.

(** The [pq_transition_info] all constructors share. *)
Definition pq_start : PQTransitionInfo :=
  MkPQ 0 false None [as_u16 MlDsa2; as_u16 Ed25519; as_u16 MlKem768].

Definition new_eoa (now : Timestamp) (addr : Address) (dpk mpk : bytes) : Account := {|
  address := addr; balance := 0; nonce := 0; per_shard_nonces := Some ∅;
  created_at := now; last_activity := now;
  dilithium_pk := dpk; ed25519_pk := None; mlkem_pk := mpk; x25519_pk := None; slh_dsa_pk := None;
  storage_quota := 1024 * 1024; storage_used := 0; storage_credits := 0;
  deploy_credits := 0; free_deploys_remaining := 0; deploy_bond_locked_until := None;
  staking_info := None; validator_info := None; storage_provider_info := None;
  last_drs_score := None; last_drs_epoch := None;
  account_type := EOA; contract_info := None; peer_id := None; tmp_attestation := None;
  authorized_slices := []; device_capabilities := None; metadata := ∅;
  pq_transition_info := Some pq_start; hot_set_mode := HotLightClient;
  pruning_config := None; archival_config := None;
|}.

Definition validator_hot_set : ValidatorHotSetConfig := MkHotSet true true 100 true true true.
Definition validator_pruning : PruningConfig := MkPruning true 100 10 true true 1000.
Definition provider_archival : ArchivalConfig :=
  MkArchival true true true true true true 3 (Some (64, 32)).

Definition new_validator (now : Timestamp) (addr : Address) (pubkey : PublicKey) (rate : Z)
    (initial_stake : Balance) (dpk mpk : bytes) : result Account EgoError :=
  if bool_decide (rate > 10000)
  then Err (InvalidTransaction "Commission rate cannot exceed 100%")
  else Ok {|
    address := addr; balance := 0; nonce := 0; per_shard_nonces := Some ∅;
    created_at := now; last_activity := now;
    dilithium_pk := dpk; ed25519_pk := None; mlkem_pk := mpk; x25519_pk := None;
    slh_dsa_pk := None;
    storage_quota := 10 * 1024 * 1024; storage_used := 0; storage_credits := 10000;
    deploy_credits := 1000; free_deploys_remaining := 20; deploy_bond_locked_until := None;
    staking_info := Some (MkStaking initial_stake 0 0 [] (MkPerformance 0 100000 100000 0 0));
    validator_info := Some (MkValidatorInfo pubkey rate true None validator_hot_set);
    storage_provider_info := None;
    last_drs_score := Some 100000; last_drs_epoch := Some 0;
    account_type := Validator pubkey rate true; contract_info := None; peer_id := None;
    tmp_attestation := None;
    authorized_slices := []; device_capabilities := None; metadata := ∅;
    pq_transition_info := Some pq_start; hot_set_mode := HotValidator;
    pruning_config := Some validator_pruning; archival_config := None;
  |}.

(** The provider record of a node that has stored nothing yet. *)
Definition fresh_provider (addr : Address) (capacity : Z) : StorageProviderInfo :=
  MkProvider addr capacity 0 [] 0 PostRepStats_default ProviderEarnings_default [] 100000 0.

Definition new_storage_provider (now : Timestamp) (addr : Address) (provider region : string)
    (capacity : Z) (dpk mpk : bytes) (peer : string) : Account := {|
  address := addr; balance := 0; nonce := 0; per_shard_nonces := Some ∅;
  created_at := now; last_activity := now;
  dilithium_pk := dpk; ed25519_pk := None; mlkem_pk := mpk; x25519_pk := None; slh_dsa_pk := None;
  storage_quota := capacity; storage_used := 0; storage_credits := 1000;
  deploy_credits := 100; free_deploys_remaining := 5; deploy_bond_locked_until := None;
  staking_info := None; validator_info := None;
  storage_provider_info := Some (fresh_provider addr capacity);
  last_drs_score := Some 100000; last_drs_epoch := Some 0;
  account_type := StorageProvider provider region; contract_info := None; peer_id := Some peer;
  tmp_attestation := None;
  authorized_slices := []; device_capabilities := None; metadata := ∅;
  pq_transition_info := Some pq_start; hot_set_mode := HotStorageProvider;
  pruning_config := None; archival_config := Some provider_archival;
|}.

Definition new_hybrid_node (now : Timestamp) (addr : Address) (roles : list NodeRole)
    (capacity : Z) (dpk mpk : bytes) (peer : string) : Account :=
  let is_validator := bool_decide (RoleValidator ∈ roles) in
  let is_storage := bool_decide (RoleStorageProvider ∈ roles) in {|
  address := addr; balance := 0; nonce := 0; per_shard_nonces := Some ∅;
  created_at := now; last_activity := now;
  dilithium_pk := dpk; ed25519_pk := None; mlkem_pk := mpk; x25519_pk := None; slh_dsa_pk := None;
  storage_quota := capacity; storage_used := 0; storage_credits := 10000;
  deploy_credits := 1000; free_deploys_remaining := 10; deploy_bond_locked_until := None;
  staking_info := None; validator_info := None;
  storage_provider_info := if is_storage then Some (fresh_provider addr capacity) else None;
  last_drs_score := Some 100000; last_drs_epoch := Some 0;
  account_type := Hybrid roles; contract_info := None; peer_id := Some peer;
  tmp_attestation := None;
  authorized_slices := []; device_capabilities := None; metadata := ∅;
  pq_transition_info := Some pq_start; hot_set_mode := HotFullNode;
  pruning_config := if is_validator then Some validator_pruning else None;
  archival_config := if is_storage then Some provider_archival else None;
|}.

Definition new_device (now : Timestamp) (addr : Address) (device : string)
    (capabilities : DeviceCapabilities) (dpk mpk : bytes) (peer : string) : Account := {|
  address := addr; balance := 0; nonce := 0; per_shard_nonces := Some ∅;
  created_at := now; last_activity := now;
  dilithium_pk := dpk; ed25519_pk := None; mlkem_pk := mpk; x25519_pk := None; slh_dsa_pk := None;
  storage_quota := capabilities.(dc_storage_capacity); storage_used := 0; storage_credits := 100;
  deploy_credits := 10; free_deploys_remaining := 5; deploy_bond_locked_until := None;
  staking_info := None; validator_info := None; storage_provider_info := None;
  last_drs_score := None; last_drs_epoch := None;
  account_type := Device device None; contract_info := None; peer_id := Some peer;
  tmp_attestation := None;
  authorized_slices := []; device_capabilities := Some capabilities; metadata := ∅;
  pq_transition_info := Some pq_start; hot_set_mode := HotLightClient;
  pruning_config := None; archival_config := None;
|}.

(** ** Balance and nonces *)

Definition can_spend (amount : Balance) (a : Account) : bool := bool_decide (a.(balance) >= amount).

Definition debit (now : Timestamp) (amount : Balance) (a : Account) : result Account EgoError :=
  if negb (can_spend amount a) then Err (InsufficientBalance amount a.(balance))
  else
    let? b := ok_or (checked_sub a.(balance) amount) (InsufficientBalance amount a.(balance)) in
    Ok (a <| balance := b |> <| last_activity := now |>).

Definition credit (now : Timestamp) (amount : Balance) (a : Account) : result Account EgoError :=
  let? b := ok_or (checked_add a.(balance) amount) (InternalError "balance overflow") in
  Ok (a <| balance := b |> <| last_activity := now |>).

Definition increment_nonce (now : Timestamp) (a : Account) : Account :=
  a <| nonce := sat_add u64_max a.(nonce) 1 |> <| last_activity := now |>.

Definition get_shard_nonce (shard : Z) (a : Account) : Z :=
  default 0 (nonces ← a.(per_shard_nonces); nonces !! shard).

Definition increment_shard_nonce (shard : Z) (a : Account) : Account :=
  match a.(per_shard_nonces) with
  | Some nonces =>
      let current := default 0 (nonces !! shard) in
      a <| per_shard_nonces := Some (<[shard := sat_add u64_max current 1]> nonces) |>
  | None => a
  end.

(** ** Credits, quotas and slices *)

Definition can_deploy_free (a : Account) : bool := bool_decide (a.(free_deploys_remaining) > 0).

Definition use_free_deploy (now : Timestamp) (a : Account) : result Account EgoError :=
  if bool_decide (a.(free_deploys_remaining) = 0)
  then Err (InvalidTransaction "No free deploys remaining")
  else Ok (a <| free_deploys_remaining := sat_sub a.(free_deploys_remaining) 1 |>
             <| last_activity := now |>).

Definition can_use_deploy_credits (needed : Z) (a : Account) : bool :=
  bool_decide (a.(deploy_credits) >= needed).

Definition use_deploy_credits (now : Timestamp) (credits : Z) (a : Account)
    : result Account EgoError :=
  if bool_decide (a.(deploy_credits) < credits)
  then Err (InsufficientBalance credits a.(deploy_credits))
  else Ok (a <| deploy_credits := sat_sub a.(deploy_credits) credits |> <| last_activity := now |>).

Definition add_storage_credits (now : Timestamp) (credits : Z) (a : Account) : Account :=
  a <| storage_credits := sat_add u64_max a.(storage_credits) credits |> <| last_activity := now |>.

Definition use_storage_credits (now : Timestamp) (credits : Z) (a : Account)
    : result Account EgoError :=
  if bool_decide (a.(storage_credits) < credits)
  then Err (InsufficientBalance credits a.(storage_credits))
  else Ok (a <| storage_credits := sat_sub a.(storage_credits) credits |>
             <| last_activity := now |>).

Definition update_drs_score (now : Timestamp) (score : f64) (epoch : Z) (a : Account) : Account :=
  a <| last_drs_score := Some (f64_as_u64 (f64_mul score (f64_of 1000))) |>
    <| last_drs_epoch := Some epoch |> <| last_activity := now |>.

Definition is_authorized_for_slice (slice : string) (a : Account) : bool :=
  bool_decide (slice ∈ a.(authorized_slices)).

Definition authorize_slice (now : Timestamp) (slice : string) (a : Account) : Account :=
  let a := if bool_decide (slice ∈ a.(authorized_slices)) then a
           else a <| authorized_slices := a.(authorized_slices) ++ [slice] |> in
  a <| last_activity := now |>.

Definition can_store (additional : Z) (a : Account) : bool :=
  bool_decide (wrap64 (a.(storage_used) + additional) <= a.(storage_quota)).

Definition update_storage_usage (now : Timestamp) (used : Z) (a : Account)
    : result Account EgoError :=
  if negb (can_store used a)
  then Err (StorageQuotaExceeded (wrap64 (a.(storage_used) + used)) a.(storage_quota))
  else Ok (a <| storage_used := wrap64 (a.(storage_used) + used) |> <| last_activity := now |>).

(** ** Post-quantum transition, devices, roles *)

Definition is_pq_only_mode (a : Account) : bool :=
  from_option pq_only_mode false a.(pq_transition_info).

Definition supports_algorithm (id : Z) (a : Account) : bool :=
  from_option (fun info => bool_decide (id ∈ info.(supported_algorithms))) false
    a.(pq_transition_info).

Definition enable_pq_only_mode (now : Timestamp) (epoch : Z) (a : Account) : Account :=
  let a := match a.(pq_transition_info) with
           | Some info =>
               a <| pq_transition_info := Some
                      (MkPQ info.(transition_started_epoch) true (Some epoch)
                        (filter (fun id => id <> as_u16 Ed25519) info.(supported_algorithms))) |>
           | None => a
           end in
  a <| last_activity := now |>.

Definition is_cellular_safe (a : Account) : bool :=
  from_option cellular_safe true a.(device_capabilities).

Definition within_data_limits (size_gb : Z) (a : Account) : bool :=
  match a.(device_capabilities) with
  | Some caps =>
      bool_decide (wrap64 (caps.(cost_awareness).(current_month_usage_gb) + size_gb)
                   <= caps.(cost_awareness).(cellular_throttle_threshold_gb))
  | None => true
  end.

Definition should_use_wifi_only (operation : string) (a : Account) : bool :=
  match a.(device_capabilities) with
  | Some caps =>
      caps.(cost_awareness).(cellular_safe_mode)
      && bool_decide (operation ∈ caps.(cost_awareness).(wifi_only_operations))
  | None => false
  end.

Definition is_validator (a : Account) : bool :=
  match a.(account_type) with
  | Validator _ _ _ => true
  | Hybrid roles => bool_decide (RoleValidator ∈ roles)
  | _ => false
  end || bool_decide (is_Some a.(validator_info)).

Definition is_storage_provider (a : Account) : bool :=
  match a.(account_type) with
  | StorageProvider _ _ => true
  | Hybrid roles => bool_decide (RoleStorageProvider ∈ roles)
  | _ => false
  end || bool_decide (is_Some a.(storage_provider_info)).

Definition is_device (a : Account) : bool :=
  match a.(account_type) with
  | Device _ _ => true
  | _ => false
  end.

Definition get_validator_pubkey (a : Account) : option PublicKey :=
  match a.(account_type) with
  | Validator pubkey _ _ => Some pubkey
  | _ => vi_pubkey <$> a.(validator_info)
  end.

(** ** Pruning and the hot set *)

(** [None] is the panic of a remainder by zero. *)
Definition should_prune_epoch (current_epoch : Z) (a : Account) : option bool :=
  match a.(pruning_config) with
  | Some config =>
      if negb config.(pr_enabled) then Some false
      else if bool_decide (config.(prune_interval_epochs) = 0) then None
      else Some (bool_decide (current_epoch mod config.(prune_interval_epochs) = 0))
  | None => Some false
  end.

Definition should_create_snapshot (current_epoch : Z) (a : Account) : option bool :=
  match a.(pruning_config) with
  | Some config =>
      if negb config.(keep_state_snapshots) then Some false
      else if bool_decide (config.(snapshot_interval_epochs) = 0) then None
      else Some (bool_decide (current_epoch mod config.(snapshot_interval_epochs) = 0))
  | None => Some false
  end.

Definition get_prunable_epoch (current_epoch : Z) (a : Account) : option Z :=
  config ← a.(pruning_config);
  if config.(pr_enabled) && bool_decide (current_epoch > config.(pr_keep_epochs))
  then Some (current_epoch - config.(pr_keep_epochs)) else None.

Definition can_fetch_on_demand (a : Account) : bool :=
  match a.(hot_set_mode) with
  | HotValidator =>
      from_option (fun info => info.(hot_set_config).(fetch_on_demand_enabled)) false
        a.(validator_info)
  | HotFullNode | HotStorageProvider | HotLightClient => true
  end.

Definition requires_hot_set_data (what : string) (a : Account) : bool :=
  match a.(hot_set_mode) with
  | HotValidator => bool_decide (what ∈ ["headers"; "qcs"; "state_db"; "recent_bodies"; "mempool"])
  | HotFullNode => bool_decide (what ∈ ["headers"; "qcs"; "state_db"])
  | HotStorageProvider => false
  | HotLightClient => bool_decide (what ∈ ["headers"])
  end.

(** ** Storage providers *)

Definition not_provider : EgoError := InvalidTransaction "Account is not a storage provider".
Definition no_sector : EgoError := InvalidTransaction "Sector not found".

Section Provider.
Context `{NodePrims}.

Definition calculate_health_score_from_info (p : StorageProviderInfo) : Z :=
  let st := p.(postrep_stats) in
  let score := f64_mul (f64_of 100000) (f64_div st.(post_pass_rate) (f64_of 100)) in
  let score :=
    if bool_decide (st.(consecutive_misses) > 0)
    then f64_mul score (powi (f64_lit 9 10) (as_i32 st.(consecutive_misses))) else score in
  let score :=
    if bool_decide (st.(avg_post_latency_ms) > 2000)
    then
      let penalty := f64_div (f64_sub (f64_of st.(avg_post_latency_ms)) (f64_of 2000)) (f64_of 1000) in
      f64_mul score (f64_max (f64_sub (f64_of 1) (f64_mul penalty (f64_lit 5 100))) (f64_lit 5 10))
    else score in
  let faulty_ratio := f64_div (f64_of st.(sectors_faulty)) (f64_of (Z.max st.(sectors_sealed) 1)) in
  let score := f64_mul score (f64_max (f64_sub (f64_of 1) faulty_ratio) (f64_of 0)) in
  f64_as_u64 (f64_max (f64_min score (f64_of 100000)) (f64_of 0)).

Definition calculate_health_score (a : Account) : Z :=
  match a.(storage_provider_info) with
  | Some info => calculate_health_score_from_info info
  | None => 0
  end.

Definition rescore (p : StorageProviderInfo) : StorageProviderInfo :=
  p <| health_score := calculate_health_score_from_info p |>.

(** The body of the methods that need the provider record: the error when there
    is none, else the record [f] gives and the time of the change. *)
Definition with_provider (now : Timestamp) (f : StorageProviderInfo -> result StorageProviderInfo EgoError)
    (a : Account) : result Account EgoError :=
  match a.(storage_provider_info) with
  | None => Err not_provider
  | Some p =>
      let? p := f p in
      Ok (a <| storage_provider_info := Some p |> <| last_activity := now |>)
  end.

Definition add_sector (now : Timestamp) (sector : SectorInfo) : Account -> result Account EgoError :=
  with_provider now (fun p =>
    let used := wrap64 (p.(storage_allocated) + sector.(size_bytes)) in
    if bool_decide (used > p.(storage_capacity))
    then Err (StorageQuotaExceeded used p.(storage_capacity))
    else Ok (p <| storage_allocated := used |>
               <| active_sectors := p.(active_sectors) ++ [sector] |>
               <| postrep_stats := p.(postrep_stats)
                    <| sectors_sealed := wrap64 (p.(postrep_stats).(sectors_sealed) + 1) |> |>)).

(** [position] and [remove]: the first sector with the id and the others. *)
Fixpoint take_sector (id : Hash) (l : list SectorInfo) : option (SectorInfo * list SectorInfo) :=
  match l with
  | [] => None
  | x :: l =>
      if bool_decide (x.(sector_id) = id) then Some (x, l)
      else '(y, l) ← take_sector id l; Some (y, x :: l)
  end.

Definition remove_sector (now : Timestamp) (id : Hash) : Account -> result Account EgoError :=
  with_provider now (fun p =>
    let? '(x, l) := ok_or (take_sector id p.(active_sectors)) no_sector in
    Ok (p <| active_sectors := l |>
          <| storage_allocated := sat_sub p.(storage_allocated) x.(size_bytes) |>)).

(** [iter_mut().find(..)]: change the first sector with the id. *)
Fixpoint find_sector_mut (id : Hash) (f : SectorInfo -> SectorInfo) (l : list SectorInfo)
    : option (list SectorInfo) :=
  match l with
  | [] => None
  | x :: l =>
      if bool_decide (x.(sector_id) = id) then Some (f x :: l)
      else l ← find_sector_mut id f l; Some (x :: l)
  end.

Definition mark_sector_faulty (now : Timestamp) (id : Hash) : Account -> result Account EgoError :=
  with_provider now (fun p =>
    let? l := ok_or (find_sector_mut id (fun x =>
                x <| integrity_verified := false |> <| miss_count := wrap32 (x.(miss_count) + 1) |>)
                p.(active_sectors)) no_sector in
    let st := p.(postrep_stats) in
    Ok (rescore (p <| active_sectors := l |>
                   <| postrep_stats := st <| sectors_faulty := wrap32 (st.(sectors_faulty) + 1) |> |>))).

Definition promote_replica (now : Timestamp) (id : Hash) (new_role : TriadRole)
    : Account -> result Account EgoError :=
  with_provider now (fun p =>
    let? l := ok_or (find_sector_mut id (fun x =>
                x <| triad := x.(triad) <| role := new_role |> |>) p.(active_sectors)) no_sector in
    let st := p.(postrep_stats) in
    Ok (p <| active_sectors := l |>
          <| postrep_stats := st <| promotions := wrap32 (st.(promotions) + 1) |> |>)).

Definition record_repair (now : Timestamp) (id : Hash) : Account -> result Account EgoError :=
  with_provider now (fun p =>
    let? l := ok_or (find_sector_mut id (fun x =>
                x <| integrity_verified := true |> <| miss_count := 0 |>)
                p.(active_sectors)) no_sector in
    let st := p.(postrep_stats) <| repairs_completed := wrap64 (p.(postrep_stats).(repairs_completed) + 1) |> in
    let st := if bool_decide (st.(sectors_faulty) > 0)
              then st <| sectors_faulty := st.(sectors_faulty) - 1 |> else st in
    Ok (rescore (p <| active_sectors := l |> <| postrep_stats := st |>))).

(** The share of challenges answered, in percent. *)
Definition pass_rate (answered total : Z) : f64 :=
  f64_mul (f64_div (f64_of answered) (f64_of total)) (f64_of 100).

Definition update_pass_rate (st : PostRepStats) : PostRepStats :=
  let total := wrap64 (st.(challenges_answered) + st.(challenges_missed)) in
  if bool_decide (total > 0) then st <| post_pass_rate := pass_rate st.(challenges_answered) total |>
  else st.

(** The running mean of latencies; [None] is the panic of a division by zero. *)
Definition running_mean (avg count latency : Z) : option Z :=
  if bool_decide (count = 0) then None
  else Some (wrap32 (wrap64 (wrap64 (avg * (count - 1)) + latency) / count)).

Definition record_post_proof (now : Timestamp) (success : bool) (latency_ms epoch : Z) (a : Account)
    : option Account :=
  p ← match a.(storage_provider_info) with
      | None => Some None
      | Some p =>
          let st := p.(postrep_stats) in
          let st := st <| post_proofs_submitted := wrap64 (st.(post_proofs_submitted) + 1) |> in
          st ← if success
               then
                 let st := update_pass_rate
                   (st <| challenges_answered := wrap64 (st.(challenges_answered) + 1) |>
                       <| consecutive_misses := 0 |>) in
                 avg ← running_mean st.(avg_post_latency_ms) st.(post_proofs_submitted) latency_ms;
                 Some (st <| avg_post_latency_ms := avg |>)
               else
                 Some (update_pass_rate
                   (st <| challenges_missed := wrap64 (st.(challenges_missed) + 1) |>
                       <| consecutive_misses := wrap32 (st.(consecutive_misses) + 1) |>));
          Some (Some (rescore (p <| postrep_stats := st |> <| last_audit_epoch := epoch |>)))
      end;
  Some (a <| storage_provider_info := p |> <| last_activity := now |>).

(** ** Earnings and collateral

    These leave the account changed when the last step fails, so they return the
    account with the result. *)

Definition add_provider_earnings (now : Timestamp) (storage retrieval post : Balance)
    : Account -> result Account EgoError :=
  with_provider now (fun p =>
    let e := p.(earnings) in
    let total_new := saturating_add (saturating_add storage retrieval) post in
    Ok (p <| earnings := MkEarnings (saturating_add e.(storage_rewards) storage)
               (saturating_add e.(retrieval_fees) retrieval) (saturating_add e.(post_rewards) post)
               (saturating_add e.(total_earned) total_new) e.(total_slashed)
               (saturating_add e.(pending_payouts) total_new) |>)).

(** [self.credit(amount)?; Ok(())] at the end of a method. *)
Definition then_credit (now : Timestamp) (amount : Balance) (a : Account)
    : result unit EgoError * Account :=
  match credit now amount a with
  | Ok a => (Ok tt, a)
  | Err e => (Err e, a)
  end.

Definition process_provider_payout (now : Timestamp) (amount : Balance) (a : Account)
    : result unit EgoError * Account :=
  match a.(storage_provider_info) with
  | None => (Err not_provider, a)
  | Some p =>
      let pending := p.(earnings).(pending_payouts) in
      if bool_decide (pending < amount) then (Err (InsufficientBalance amount pending), a)
      else then_credit now amount
             (a <| storage_provider_info := Some (p <| earnings := p.(earnings)
                     <| pending_payouts := saturating_sub pending amount |> |>) |>)
  end.

Definition slash_provider (now : Timestamp) (amount : Balance) (why : string) (evidence : Hash)
    (slash_type : SlashingType) : Account -> result Account EgoError :=
  with_provider now (fun p =>
    if bool_decide (p.(collateral_locked) < amount)
    then Err (InsufficientBalance amount p.(collateral_locked))
    else Ok (rescore (p
           <| collateral_locked := saturating_sub p.(collateral_locked) amount |>
           <| earnings := p.(earnings)
                <| total_slashed := saturating_add p.(earnings).(total_slashed) amount |> |>
           <| slashing_history :=
                p.(slashing_history) ++ [MkSlashing now amount why evidence slash_type] |>))).

Definition lock_provider_collateral (now : Timestamp) (amount : Balance) (a : Account)
    : result unit EgoError * Account :=
  if negb (can_spend amount a) then (Err (InsufficientBalance amount a.(balance)), a)
  else
    match debit now amount a with
    | Err e => (Err e, a)
    | Ok a =>
        match a.(storage_provider_info) with
        | None => (Err not_provider, a)
        | Some p =>
            (Ok tt, a <| storage_provider_info :=
                           Some (p <| collateral_locked := saturating_add p.(collateral_locked) amount |>) |>
                      <| last_activity := now |>)
        end
    end.

Definition unlock_provider_collateral (now : Timestamp) (amount : Balance) (a : Account)
    : result unit EgoError * Account :=
  match a.(storage_provider_info) with
  | None => (Err not_provider, a)
  | Some p =>
      if bool_decide (p.(collateral_locked) < amount)
      then (Err (InsufficientBalance amount p.(collateral_locked)), a)
      else then_credit now amount
             (a <| storage_provider_info :=
                     Some (p <| collateral_locked := saturating_sub p.(collateral_locked) amount |>) |>)
  end.

End Provider.

(** ** Queries of sectors *)

Definition sectors (a : Account) : list SectorInfo :=
  from_option active_sectors [] a.(storage_provider_info).

Definition get_sector (id : Hash) (a : Account) : option SectorInfo :=
  fst <$> take_sector id (sectors a).

Definition get_sectors_by_data_type (t : DataType) (a : Account) : list SectorInfo :=
  filter (fun x => x.(data_type) = t) (sectors a).

Definition get_faulty_sectors (a : Account) : list SectorInfo :=
  filter (fun x => x.(integrity_verified) = false \/ x.(miss_count) > 0) (sectors a).
