(* ===== verification/NodeTx.v ===== *)
(** * Transactions of the node

    Model of [crates/ego-core/src/transaction.rs]: the payloads, the bytes a
    transaction signs, the check of a transaction against the account it spends
    from ([validate_against_account] with all it calls), resource units,
    priorities and the builder.  [bincode] and [serde_json] are parameters, and so
    are the trigonometric functions of the standard library behind the distance of
    two places. *)
From Stdlib Require Import Floats.SpecFloat.
From stdpp Require Import pretty.
From coqutil Require Import Datatypes.RecordSettersUsingExistingGetters.
From S2P Require Import Prelude Crypto NodeAccount.
Import RecordSetNotations1.
Local Open Scope Z_scope.
Local Open Scope ego_scope.

(** ** Data *)

Inductive CrossShardMessage : Type :=
| MsgTransfer (to : Address) (amount : Balance)
| MsgContractCall (contract : Address) (method : string) (args : bytes) (value : Balance)
    (original_sender : Address).

Record DualSignature : Type := MkDual {
  ed25519_sig : option Signature;
  dilithium_sig : option Signature;
  sig_protocol_version : Z;
}.

Record TransactionPublicKeys : Type := MkTxKeys {
  tk_dilithium_pk : PublicKey;
  tk_ed25519_pk : option PublicKey;
  tk_mlkem_pk : option bytes;
}.

Record NodeLocation : Type := MkLocation {
  loc_node_id : Address;
  h3_cell : string;
  loc_shard_id : Z;
  loc_region : string;
  lat_lon : option (f64 * f64);
}.

Record TriadPlacement : Type := MkPlacement {
  pl_primary : NodeLocation;
  pl_replica_a : NodeLocation;
  pl_replica_b : NodeLocation;
  pl_group_id : string;
  pl_placement_epoch : Z;
  pl_diversity_score : f64;
}.

Inductive PlacementUpdateReason : Type :=
| NodeFailure
| AuditFailure
| Promotion
| Repair
| Rebalancing
| NodeDeactivation.

Inductive ErasureCodec : Type :=
| ReedSolomon
| LDPC
| Fountain.

Record ErasureCodingParams : Type := MkErasure {
  ec_k : Z;
  ec_m : Z;
  ec_codec : ErasureCodec;
}.

Record EncryptionEnvelope : Type := MkEnvelope {
  kyber_ciphertexts : list bytes;
  recipient_addresses : list Address;
  nonce24 : bytes;
  auth_tag : bytes;
}.

Inductive ProofType : Type :=
| PoSt
| PoRep
| PoC.

Record ProofSubmission : Type := MkSubmission {
  ps_chunk_id : Hash;
  proof_data : bytes;
  ps_challenge_hash : Hash;
  ps_latency_ms : Z;
  node_signature : bytes;
}.

Record PoStProof : Type := MkPoStProof {
  pp_chunk_id : Hash;
  pp_merkle_proof : list Hash;
  challenge_response : bytes;
  pp_timestamp : Timestamp;
  pp_latency_ms : Z;
}.

(** The [f32] fields of the next two records are carried, never computed with. *)
Record WitnessReport : Type := MkWitness {
  witness_id : Address;
  signal_strength_dbm : Z;
  timing_advance : Z;
  snr_db : f64;
  path_loss_db : f64;
  witness_signature : bytes;
  wr_timestamp : Timestamp;
}.

Record SignalQuality : Type := MkSignal {
  rsrp_dbm : Z;
  rsrq_db : f64;
  sinr_db : f64;
  cell_id : Z;
  confidence_score : f64;
}.

Inductive FraudType : Type :=
| InvalidStateTransition
| FraudDataUnavailability
| FraudInvalidProof
| DoubleSigning
| FraudInvalidTriadPlacement.

Record FraudProof : Type := MkFraudProof {
  claim_hash : Hash;
  fp_proof_data : bytes;
  challenge_period_epochs : Z;
  fraud_type : FraudType;
}.

Inductive FraudResolution : Type :=
| ChallengeValid
| ChallengeInvalid
| Inconclusive.

Record RewardClaim : Type := MkClaim {
  rc_storage_rewards : Balance;
  consensus_rewards : Balance;
  coverage_rewards : Balance;
  rc_retrieval_fees : Balance;
  rc_total : Balance;
}.

Inductive DAOProposalType : Type :=
| UpdateRewardSplit
| UpdateDRSWeights
| UpdateStorageCreditPrice
| UpdateRetrievalRate
| UpdateSlashingParams
| UpdateQuotas
| Emergency.

Record AccountUpdates : Type := MkUpdates {
  up_storage_quota : option Z;
  add_slices : list string;
  remove_slices : list string;
  up_device_capabilities : option DeviceCapabilities;
  metadata_updates : gmap string (option string);
  up_dilithium_pk : option bytes;
  up_mlkem_pk : option bytes;
  up_ed25519_pk : option bytes;
  up_x25519_pk : option bytes;
  up_peer_id : option string;
  pq_transition : option PQTransitionInfo;
}.

Inductive SliceOperationType : Type :=
| SliceCreate
| SliceUpdate
| SliceAuthorize
| SliceRevoke
| SlicePause
| SliceResume
| SliceDelete.

Inductive TransactionPayload : Type :=
| Transfer (to : Address) (amount : Balance) (memo : option string) (stealth_mode : bool)
| CreateAccount (account_address : Address) (account_type : AccountType) (initial_balance : Balance)
    (dilithium_pk mlkem_pk : bytes) (ed25519_pk : option bytes)
| UpdateAccount (account_address : Address) (updates : AccountUpdates)
| StoreData (chunk_id : Hash) (data_size duration_epochs : Z) (data_hash : Hash) (slice_id : string)
    (storage_credits replication_factor : Z) (triad_placement : TriadPlacement)
    (erasure_coding : ErasureCodingParams) (encryption_envelope : option EncryptionEnvelope)
| UpdateTriadPlacement (chunk_id : Hash) (group_id : string) (new_placement : TriadPlacement)
    (reason : PlacementUpdateReason) (signature : bytes)
| SubmitProofBatch (proof_type : ProofType) (proofs : list ProofSubmission) (batch_merkle_root : Hash)
    (epoch : Z) (rollup_id : option string)
| PoStChallenge (challenged_node : Address) (chunk_ids : list Hash) (challenge_seed vrf_proof : bytes)
    (deadline_block epoch : Z)
| PoStResponse (challenge_hash : Hash) (proofs : list PoStProof) (batch_merkle_root : Hash)
    (latency_ms : list Z)
| PoCWitnessReport (prover : Address) (location_h3 : string) (witness_reports : list WitnessReport)
    (signal_quality : SignalQuality) (multi_witness_proof timestamp_proof : bytes)
| RollupCommit (rollup_id : string) (state_root tx_root proofs_root da_root : Hash) (tx_count : Z)
    (block_range : Z * Z) (epoch : Z) (min_validity_proof : bytes) (fraud_proofs : list FraudProof)
    (operator_signature : bytes)
| ChallengeFraud (rollup_id : string) (commit_hash : Hash) (fraud_type : FraudType)
    (proof_data : bytes) (challenger : Address) (challenge_bond : Balance)
| ResolveFraudChallenge (challenge_id : Hash) (resolution : FraudResolution) (evidence : bytes)
    (slashing_amount : option Balance)
| ClaimRewards (node_id : Address) (epoch : Z) (reward_buckets : RewardClaim)
    (drs_score drs_multiplier : f64) (evidence_hash : Hash)
| BuyStorageCredits (amount : Balance) (credits_byte_months : Z) (burn_proof : Hash)
| BuyDeployCredits (amount : Balance) (credits : Z) (burn_proof : Hash)
| StreamStoragePayment (provider : Address) (chunk_id : Hash) (credits_consumed period_start period_end : Z)
    (audit_passed : bool)
| PayRetrievalFee (provider : Address) (chunk_ids : list Hash) (bytes_served : Z) (rate_per_gb : Balance)
    (session_proof : bytes)
| Stake (amount : Balance) (validator_pubkey : PublicKey) (lock_duration_epochs : Z)
    (commission_rate : option Z)
| Unstake (amount : Balance) (validator_pubkey : PublicKey) (unlock_epoch : Z)
| Delegate (amount : Balance) (validator_pubkey : PublicKey)
| UpdateValidatorMetrics (validator : Address) (epoch uptime_percent peer_degree relay_bytes
    iot_sessions shard_demand_score : Z) (puc_coefficient : f64)
| CrossShard (target_shard : Z) (message : bytes) (response_hash : option Hash)
    (deadline_epoch nonce : Z)
| DeployContract (wasm_bytes : bytes) (contract_code_hash : Hash) (constructor_args : bytes)
    (deploy_credits : Z) (use_free_quota : bool) (storage_refs : list Hash)
| ExecuteContract (contract_address : Address) (method : string) (args : bytes) (value : Balance)
| SliceOperation (operation : SliceOperationType) (slice_id : string) (params : gmap string string)
| UpdateDRS (node_id : Address) (epoch : Z) (uptime_score post_latency_score post_pass_rate
    poc_quality_score serve_ratio density_penalty final_multiplier : f64) (metrics_hash : Hash)
| SystemOperation (operation_id : string) (data : bytes) (auth_level : Z)
    (epoch_anchor requires_quorum : bool)
| PQTransition (new_algorithms : list Z) (disable_legacy : bool)
    (transition_epoch migration_period_epochs : Z)
| DAOProposal (proposal_type : DAOProposalType) (title : string) (params : gmap string bytes)
    (voting_period_epochs execution_delay_epochs : Z)
| DAOVote (proposal_id : Hash) (vote : bool) (voting_power : Balance).

Record Transaction : Type := MkTx {
  tx_hash : Hash;
  from : Address;
  tx_nonce : Z;
  payload : TransactionPayload;
  signature : DualSignature;
  public_keys : TransactionPublicKeys;
  timestamp : Timestamp;
  shard_id : Z;
  tx_slice_id : option string;
  protocol_version : Z;
  chain_id : Z;
  required_algorithms : list Z;
  ru_limit : Z;
  ru_estimate : Z;
  pob_burn_credits : Z;
  priority_hint : Z;
}.

Record CrossShardReceipt : Type := MkReceipt {
  src_shard : Z;
  dst_shard : Z;
  src_block_hash : Hash;
  tx_id : Hash;
  rc_payload : bytes;
  rc_nonce : Z;
  rc_deadline_epoch : Z;
  rc_merkle_proof : list Hash;
}.

Record DRSUpdateInfo : Type := MkDrsUpdate {
  du_node_id : Address;
  du_epoch : Z;
  du_uptime_score : f64;
  du_post_latency_score : f64;
  du_post_pass_rate : f64;
  du_poc_quality_score : f64;
  du_serve_ratio : f64;
  du_density_penalty : f64;
  du_final_multiplier : f64;
  du_metrics_hash : Hash;
}.

(** What other crates provide: [bincode] of a payload, which can fail with a
    text, and of a signature; [serde_json] of a message between shards; the
    distance of two places in kilometres. *)
Class TxPrims : Type := {
  bincode_payload : TransactionPayload -> result bytes string;
  bincode_signature : DualSignature -> bytes;
  message_decode : bytes -> option CrossShardMessage;
  haversine_distance : f64 * f64 -> f64 * f64 -> f64;
}.

Definition PROTOCOL_VERSION : Z := 1.
Definition DOMAINTAG_TX_V1 : bytes := ascii_bytes "ego/tx/v1".

Definition dual_new (e d : option Signature) : DualSignature := MkDual e d PROTOCOL_VERSION.

Definition tx_new (now : Timestamp) (sender : Address) (n : Z) (p : TransactionPayload) (shard : Z)
    (slice : option string) (chain : Z) : Transaction := {|
  tx_hash := ZERO_HASH; from := sender; tx_nonce := n; payload := p; signature := dual_new None None;
  public_keys := MkTxKeys (MkPublicKey MlDsa2 (repeat 0 1312)) None None;
  timestamp := now; shard_id := shard; tx_slice_id := slice; protocol_version := PROTOCOL_VERSION;
  chain_id := chain; required_algorithms := [as_u16 MlDsa2];
  ru_limit := 1000000; ru_estimate := 100000; pob_burn_credits := 0; priority_hint := 0;
|}.

(** ** Signatures *)

Section Signing.
Context `{CryptoPrims} `{TxPrims}.

Definition create_signing_data (tx : Transaction) : result bytes EgoError :=
  match bincode_payload tx.(payload) with
  | Err e => Err (SerializationError e)
  | Ok body =>
      Ok (blake2s (DOMAINTAG_TX_V1 ++ tx.(from) ++ u64_le tx.(tx_nonce) ++ u64_le tx.(timestamp)
        ++ u32_le tx.(shard_id) ++ u32_le tx.(protocol_version) ++ u32_le tx.(chain_id)
        ++ u64_le tx.(ru_limit) ++ u64_le tx.(ru_estimate) ++ u64_le tx.(pob_burn_credits)
        ++ [tx.(priority_hint)] ++ concat (to_le_bytes 2 <$> tx.(required_algorithms))
        ++ from_option ascii_bytes [] tx.(tx_slice_id) ++ body))
  end.

(** [verify_dual_signature] of [crypto.rs]. *)
Definition verify_dual_signature (ed_pk dil_pk : PublicKey) (message : bytes) (sig : DualSignature)
    : result bool EgoError :=
  let? ed := match sig.(ed25519_sig) with
             | Some s => verify_signature ed_pk message s
             | None => Ok false
             end in
  let? dil := match sig.(dilithium_sig) with
              | Some s => verify_signature dil_pk message s
              | None => Ok false
              end in
  match sig.(ed25519_sig), sig.(dilithium_sig) with
  | Some _, Some _ => Ok (ed && dil)
  | Some _, None => Ok ed
  | None, Some _ => Ok dil
  | None, None => Ok false
  end.

Definition tx_verify_signature (tx : Transaction) : result bool EgoError :=
  let keys := tx.(public_keys) in
  if bool_decide (from_public_key keys.(tk_dilithium_pk) <> tx.(from)) then Ok false
  else
    let? signing_data := create_signing_data tx in
    match keys.(tk_ed25519_pk), tx.(signature).(ed25519_sig), tx.(signature).(dilithium_sig) with
    | Some ed_pk, Some _, Some _ =>
        verify_dual_signature ed_pk keys.(tk_dilithium_pk) signing_data tx.(signature)
    | _, _, Some s => verify_signature keys.(tk_dilithium_pk) signing_data s
    | _, _, None => Ok false
    end.

(** [sign]; [kyber] is the Kyber key of the pair and [kp_transition] its
    [transition_mode]. *)
Definition sign (kp : KeyPair) (kyber : bytes) (kp_transition transition_mode : bool)
    (tx : Transaction) : result Transaction EgoError :=
  let keys := tx.(public_keys) <| tk_dilithium_pk := dilithium_public_key kp |> in
  let tx :=
    if transition_mode
    then tx <| public_keys := keys <| tk_ed25519_pk := Some (ed25519_public_key kp) |>
                                   <| tk_mlkem_pk := Some kyber |> |>
            <| required_algorithms := [as_u16 MlDsa2; as_u16 Ed25519; as_u16 MlKem768] |>
    else tx <| public_keys := keys <| tk_ed25519_pk := None |> |>
            <| required_algorithms := [as_u16 MlDsa2] |> in
  if bool_decide (from_public_key tx.(public_keys).(tk_dilithium_pk) <> tx.(from))
  then Err (InvalidTransaction "Sender address does not match public key")
  else
    let? signing_data := create_signing_data tx in
    let sig :=
      if transition_mode || kp_transition
      then dual_new (Some (sign_ed25519 kp signing_data)) (Some (sign_dilithium kp signing_data))
      else dual_new None (Some (sign_dilithium kp signing_data)) in
    Ok (tx <| signature := sig |> <| tx_hash := hash_multiple [signing_data; bincode_signature sig] |>).

End Signing.

(** ** Checks against the account *)

Definition is_cross_shard (tx : Transaction) : bool :=
  match tx.(payload) with
  | CrossShard _ _ _ _ _ | RollupCommit _ _ _ _ _ _ _ _ _ _ _ => true
  | _ => false
  end.

(** The nonce the next transaction of an account must carry. *)
Definition expected_nonce (tx : Transaction) (a : Account) : Z :=
  if is_cross_shard tx then wrap64 (get_shard_nonce tx.(shard_id) a + 1) else wrap64 (a.(nonce) + 1).

(** ["{:04x}"] of a [u16]. *)
Definition hex_digit (d : Z) : Ascii.ascii :=
  Ascii.ascii_of_nat (Z.to_nat (if bool_decide (d < 10) then 48 + d else 87 + d)).
Definition hex4 (x : Z) : string :=
  String (hex_digit (x / 4096 mod 16)) (String (hex_digit (x / 256 mod 16))
    (String (hex_digit (x / 16 mod 16)) (String (hex_digit (x mod 16)) EmptyString))).

Section Checks.
Context `{CryptoPrims} `{TxPrims}.

(** The loop over [required_algorithms]. *)
Fixpoint check_algorithms (l : list Z) (a : Account) : result unit EgoError :=
  match l with
  | [] => Ok tt
  | id :: l =>
      if negb (supports_algorithm id a)
      then Err (InvalidTransaction ("Algorithm " +:+ hex4 id +:+ " not supported by account"))
      else check_algorithms l a
  end.

Definition validate_pq_requirements (tx : Transaction) (a : Account) : result unit EgoError :=
  let? _ :=
    if is_pq_only_mode a
    then
      if bool_decide (is_Some tx.(signature).(ed25519_sig))
      then Err (InvalidTransaction "Ed25519 signatures not allowed in PQ-only mode")
      else if bool_decide (as_u16 MlDsa2 ∉ tx.(required_algorithms))
      then Err (InvalidTransaction "Dilithium signature required in PQ-only mode")
      else Ok tt
    else Ok tt in
  check_algorithms tx.(required_algorithms) a.

Definition validate_cellular_safe_requirements (tx : Transaction) (a : Account) : result unit EgoError :=
  if negb (is_cellular_safe a) then Ok tt
  else
    match tx.(payload) with
    | StoreData _ data_size _ _ _ _ _ _ _ _ =>
        let size_gb := data_size / (1024 * 1024 * 1024) in
        if bool_decide (size_gb > 0) && negb (within_data_limits size_gb a)
        then Err (InvalidTransaction "Transaction exceeds cellular data limits")
        else if should_use_wifi_only "large_storage" a && bool_decide (size_gb > 1)
        then Err (InvalidTransaction "Large storage operations require WiFi connection")
        else Ok tt
    | SubmitProofBatch _ proofs _ _ _ =>
        if bool_decide (100 < length proofs)%nat && should_use_wifi_only "heavy_compute" a
        then Err (InvalidTransaction "Large proof batches require WiFi connection")
        else Ok tt
    | DeployContract _ _ _ _ _ _ =>
        if should_use_wifi_only "heavy_compute" a
        then Err (InvalidTransaction "Contract deployments require WiFi connection")
        else Ok tt
    | _ => Ok tt
    end.

(** The error when an account cannot spend an amount. *)
Definition require_funds (amount : Balance) (a : Account) : result unit EgoError :=
  if can_spend amount a then Ok tt else Err (InsufficientBalance amount a.(balance)).

Definition validate_payload_requirements (tx : Transaction) (a : Account) : result unit EgoError :=
  match tx.(payload) with
  | Transfer _ amount _ _ => require_funds amount a
  | CreateAccount _ _ initial_balance _ _ _ => require_funds initial_balance a
  | StoreData _ data_size _ _ _ credits _ _ _ _ =>
      if negb (can_store data_size a)
      then Err (StorageQuotaExceeded (wrap64 (a.(storage_used) + data_size)) a.(storage_quota))
      else if bool_decide (a.(storage_credits) < credits)
      then Err (InsufficientBalance credits a.(storage_credits))
      else Ok tt
  | Stake amount _ _ _ | Delegate amount _ => require_funds amount a
  | DeployContract _ _ _ credits use_free_quota _ =>
      if use_free_quota
      then if negb (can_deploy_free a) then Err (InvalidTransaction "No free deploys remaining")
           else Ok tt
      else if negb (can_use_deploy_credits credits a)
      then Err (InsufficientBalance credits a.(deploy_credits))
      else Ok tt
  | BuyStorageCredits amount _ _ | BuyDeployCredits amount _ _ => require_funds amount a
  | ChallengeFraud _ _ _ _ _ challenge_bond => require_funds challenge_bond a
  | SystemOperation _ _ _ epoch_anchor _ =>
      if epoch_anchor && negb (is_validator a)
      then Err (InvalidTransaction "Only validators can submit epoch anchor operations")
      else Ok tt
  | ClaimRewards node _ _ _ _ _ =>
      if bool_decide (node <> a.(address))
      then Err (InvalidTransaction "Can only claim rewards for own node")
      else Ok tt
  | _ => Ok tt
  end.

Definition validate_against_account (now : Timestamp) (tx : Transaction) (a : Account)
    : result unit EgoError :=
  if bool_decide (tx.(public_keys).(tk_dilithium_pk).(key_data) <> a.(dilithium_pk))
  then Err (InvalidTransaction "Transaction public key does not match account")
  else
    let? valid := tx_verify_signature tx in
    if negb valid then Err (InvalidTransaction "Invalid transaction signature")
    else
      let expected := expected_nonce tx a in
      if bool_decide (tx.(tx_nonce) <> expected) then Err (InvalidNonce expected tx.(tx_nonce))
      else if bool_decide (tx.(timestamp) > wrap64 (now + 300000))
      then Err (InvalidTransaction "Transaction timestamp too far in future")
      else if bool_decide (tx.(ru_estimate) > tx.(ru_limit))
      then Err (InvalidTransaction "RU estimate exceeds RU limit")
      else
        let? _ := match tx.(tx_slice_id) with
                  | Some slice => if is_authorized_for_slice slice a then Ok tt
                                  else Err (UnauthorizedSlice slice)
                  | None => Ok tt
                  end in
        let? _ := validate_pq_requirements tx a in
        let? _ := validate_cellular_safe_requirements tx a in
        validate_payload_requirements tx a.

End Checks.

(** ** Resource units and priorities *)

Definition len64 {A} (l : list A) : Z := Z.of_nat (length l).

Definition base_ru (p : TransactionPayload) : Z :=
  match p with
  | Transfer _ _ _ stealth => if stealth then 500 else 100
  | CreateAccount _ _ _ _ _ _ => 1000
  | UpdateAccount _ updates => 500 + Z.of_nat (size updates.(metadata_updates)) * 50
  | StoreData _ data_size _ _ _ _ factor _ _ _ =>
      wrap64 (1000 + wrap64 (data_size / 1024 * factor))
  | UpdateTriadPlacement _ _ _ _ _ => 800
  | SubmitProofBatch _ proofs _ _ _ => 2000 + len64 proofs * 100
  | PoStChallenge _ chunk_ids _ _ _ _ => 1500 + len64 chunk_ids * 50
  | PoStResponse _ proofs _ _ => 3000 + len64 proofs * 150
  | PoCWitnessReport _ _ reports _ _ _ => 2000 + len64 reports * 100
  | RollupCommit _ _ _ _ _ tx_count _ _ _ fraud_proofs _ =>
      5000 + tx_count * 10 + len64 fraud_proofs * 500
  | ChallengeFraud _ _ _ _ _ _ => 3000
  | ResolveFraudChallenge _ _ _ _ => 4000
  | ClaimRewards _ _ _ _ _ _ => 1200
  | BuyStorageCredits _ _ _ | BuyDeployCredits _ _ _ => 300
  | StreamStoragePayment _ _ _ _ _ _ => 200
  | PayRetrievalFee _ _ _ _ _ => 250
  | Stake _ _ _ _ => 800
  | Unstake _ _ _ => 600
  | Delegate _ _ => 400
  | UpdateValidatorMetrics _ _ _ _ _ _ _ _ => 1000
  | CrossShard _ _ _ _ _ => 1500
  | DeployContract _ _ _ _ _ _ => 5000
  | ExecuteContract _ _ _ _ => 2000
  | SliceOperation _ _ _ => 2000
  | UpdateDRS _ _ _ _ _ _ _ _ _ _ => 1000
  | SystemOperation _ _ _ epoch_anchor _ => if epoch_anchor then 20000 else 10000
  | PQTransition _ _ _ _ => 5000
  | DAOProposal _ _ _ _ _ => 3000
  | DAOVote _ _ _ => 500
  end.

Definition estimate_resource_units (tx : Transaction) : Z :=
  let signature_ru :=
    match tx.(signature).(ed25519_sig), tx.(signature).(dilithium_sig) with
    | Some _, Some _ => 150
    | _, Some _ => 100
    | _, None => 50
    end in
  wrap64 (base_ru tx.(payload) + signature_ru).

Definition requires_dilithium (tx : Transaction) : bool :=
  match tx.(payload) with
  | SystemOperation _ _ _ _ _ | UpdateDRS _ _ _ _ _ _ _ _ _ _ | CreateAccount _ _ _ _ _ _
  | PQTransition _ _ _ _ | PoStResponse _ _ _ _ | RollupCommit _ _ _ _ _ _ _ _ _ _ _ => true
  | _ => false
  end.

Definition requires_slh_dsa (tx : Transaction) : bool :=
  match tx.(payload) with
  | SystemOperation _ _ _ true _ => true
  | _ => false
  end.

Definition get_priority (tx : Transaction) : Z :=
  if bool_decide (tx.(priority_hint) > 0) then tx.(priority_hint)
  else
    match tx.(payload) with
    | SystemOperation _ _ _ true _ => 255
    | SystemOperation _ _ _ false _ => 240
    | PQTransition _ _ _ _ => 230
    | PoStChallenge _ _ _ _ _ _ | PoStResponse _ _ _ _ => 200
    | PoCWitnessReport _ _ _ _ _ _ => 180
    | CrossShard _ _ _ _ _ => 160
    | RollupCommit _ _ _ _ _ _ _ _ _ _ _ => 140
    | ChallengeFraud _ _ _ _ _ _ => 130
    | ResolveFraudChallenge _ _ _ _ => 125
    | SubmitProofBatch _ _ _ _ _ => 120
    | UpdateDRS _ _ _ _ _ _ _ _ _ _ => 100
    | ClaimRewards _ _ _ _ _ _ => 90
    | DeployContract _ _ _ _ _ _ => 80
    | Stake _ _ _ _ | Delegate _ _ => 60
    | Transfer _ _ _ _ => 40
    | StreamStoragePayment _ _ _ _ _ _ => 35
    | PayRetrievalFee _ _ _ _ _ => 30
    | _ => 20
    end.

Definition is_proof_transaction (tx : Transaction) : bool :=
  match tx.(payload) with
  | SubmitProofBatch _ _ _ _ _ | PoStChallenge _ _ _ _ _ _ | PoStResponse _ _ _ _
  | PoCWitnessReport _ _ _ _ _ _ => true
  | _ => false
  end.

Definition is_storage_transaction (tx : Transaction) : bool :=
  match tx.(payload) with
  | StoreData _ _ _ _ _ _ _ _ _ _ | UpdateTriadPlacement _ _ _ _ _ | BuyStorageCredits _ _ _
  | StreamStoragePayment _ _ _ _ _ _ => true
  | _ => false
  end.

Definition is_reward_transaction (tx : Transaction) : bool :=
  match tx.(payload) with
  | ClaimRewards _ _ _ _ _ _ | StreamStoragePayment _ _ _ _ _ _ | PayRetrievalFee _ _ _ _ _ => true
  | _ => false
  end.

Definition get_affected_chunk_ids (tx : Transaction) : list Hash :=
  match tx.(payload) with
  | StoreData chunk _ _ _ _ _ _ _ _ _ => [chunk]
  | UpdateTriadPlacement chunk _ _ _ _ => [chunk]
  | PoStChallenge _ chunks _ _ _ _ => chunks
  | PoStResponse _ proofs _ _ => pp_chunk_id <$> proofs
  | SubmitProofBatch _ proofs _ _ _ => ps_chunk_id <$> proofs
  | PayRetrievalFee _ chunks _ _ _ => chunks
  | _ => []
  end.

Definition extract_triad_placement (tx : Transaction) : option TriadPlacement :=
  match tx.(payload) with
  | StoreData _ _ _ _ _ _ _ placement _ _ => Some placement
  | _ => None
  end.

Definition extract_drs_update (tx : Transaction) : option DRSUpdateInfo :=
  match tx.(payload) with
  | UpdateDRS node epoch up lat pass poc serve density final metrics =>
      Some (MkDrsUpdate node epoch up lat pass poc serve density final metrics)
  | _ => None
  end.

Definition extract_cross_shard_receipt (tx : Transaction) : option CrossShardReceipt :=
  match tx.(payload) with
  | CrossShard target message _ deadline n =>
      Some (MkReceipt tx.(shard_id) target ZERO_HASH tx.(tx_hash) message n deadline [])
  | _ => None
  end.

(** The latencies a payload claims, in order. *)
Definition claimed_latencies (tx : Transaction) : list Z :=
  match tx.(payload) with
  | PoStResponse _ _ _ latencies => latencies
  | SubmitProofBatch _ proofs _ _ _ => ps_latency_ms <$> proofs
  | _ => []
  end.

Definition validate_proof_latency (sla_ms : Z) (tx : Transaction) : result unit EgoError :=
  match list_find (fun l => l > sla_ms) (claimed_latencies tx) with
  | Some (_, latency) =>
      Err (InvalidTransaction ("Proof latency " +:+ pretty latency +:+ "ms exceeds SLA "
                               +:+ pretty sla_ms +:+ "ms"))
  | None => Ok tt
  end.

Definition validate_triad_diversity `{TxPrims} (show_f64 : f64 -> string) (min_distance_km : f64)
    (tx : Transaction) : result unit EgoError :=
  match extract_triad_placement tx with
  | None => Ok tt
  | Some t =>
      if SFltb t.(pl_diversity_score) (f64_lit 5 10)
      then Err (InvalidTransaction "Triad placement diversity score too low")
      else
        match t.(pl_primary).(lat_lon), t.(pl_replica_a).(lat_lon), t.(pl_replica_b).(lat_lon) with
        | Some p, Some ra, Some rb =>
            if SFltb (haversine_distance p ra) min_distance_km
               || SFltb (haversine_distance p rb) min_distance_km
               || SFltb (haversine_distance ra rb) min_distance_km
            then Err (InvalidTransaction ("Triad nodes too close (min " +:+ show_f64 min_distance_km
                                          +:+ "km required)"))
            else Ok tt
        | _, _, _ => Ok tt
        end
  end.

(** ** The builder *)

Record TransactionBuilder : Type := MkBuilder {
  tb_from : Address;
  tb_nonce : Z;
  tb_payload : option TransactionPayload;
  tb_shard_id : Z;
  tb_slice_id : option string;
  tb_chain_id : Z;
  tb_ru_limit : Z;
  tb_ru_estimate : Z;
  tb_pob_burn_credits : Z;
  tb_priority_hint : Z;
}.

Definition builder_new (sender : Address) (n shard chain : Z) : TransactionBuilder :=
  MkBuilder sender n None shard None chain 1000000 100000 0 0.

Definition builder_payload (p : TransactionPayload) (b : TransactionBuilder) : TransactionBuilder :=
  b <| tb_payload := Some p |>.
Definition builder_slice_id (slice : string) (b : TransactionBuilder) : TransactionBuilder :=
  b <| tb_slice_id := Some slice |>.
Definition builder_ru_limit (x : Z) (b : TransactionBuilder) : TransactionBuilder := b <| tb_ru_limit := x |>.
Definition builder_ru_estimate (x : Z) (b : TransactionBuilder) : TransactionBuilder := b <| tb_ru_estimate := x |>.
Definition builder_pob_burn_credits (x : Z) (b : TransactionBuilder) : TransactionBuilder :=
  b <| tb_pob_burn_credits := x |>.
Definition builder_priority_hint (x : Z) (b : TransactionBuilder) : TransactionBuilder :=
  b <| tb_priority_hint := x |>.

Definition build (now : Timestamp) (b : TransactionBuilder) : result Transaction EgoError :=
  let? p := ok_or b.(tb_payload) (InvalidTransaction "Transaction payload is required") in
  let tx := tx_new now b.(tb_from) b.(tb_nonce) p b.(tb_shard_id) b.(tb_slice_id) b.(tb_chain_id) in
  Ok (tx <| ru_limit := b.(tb_ru_limit) |> <| ru_estimate := b.(tb_ru_estimate) |>
         <| pob_burn_credits := b.(tb_pob_burn_credits) |> <| priority_hint := b.(tb_priority_hint) |>).

Definition build_and_sign `{CryptoPrims} `{TxPrims} (now : Timestamp) (kp : KeyPair) (kyber : bytes)
    (kp_transition transition_mode : bool) (b : TransactionBuilder) : result Transaction EgoError :=
  let? tx := build now b in sign kp kyber kp_transition transition_mode tx.
