(* ===== verification/NodeState.v ===== *)
(** * The account state of the node

    Model of [crates/ego-core/src/state.rs]: the [StateManager] with its accounts,
    stored chunks, validators, slices and receipts between shards, and every
    operation on it, among them [execute_transaction] with the handler of each
    payload.

    The maps of a [StateManager] are shared and changed in place, so what an
    operation did before it fails stays.  An operation is therefore a function of
    type [node A]: from a state to an outcome (a value, an error, or a panic) and
    the state it leaves.  Each method is one step; the clock is read once in it.
    A [DashMap] is a [gmap] iterated in an unspecified order ([HashOrder]).
    Plain arithmetic wraps, as in [NodeAccount]. *)
From Stdlib Require Import Floats.SpecFloat.
From stdpp Require Import pretty.
From coqutil Require Import Datatypes.RecordSettersUsingExistingGetters.
From S2P Require Import Prelude Crypto Blocks NodeAccount NodeTx.
Import RecordSetNotations1.
Local Open Scope Z_scope.
Local Open Scope ego_scope.

(** ** Data *)

Definition DEFAULT_PRUNING_EPOCHS : Z := 100.
Definition DEFAULT_SNAPSHOT_INTERVAL : Z := 1000.
Definition MAX_CROSS_SHARD_RECEIPTS : Z := 10000.
Definition MIN_VALIDATOR_STAKE : Z := 100000000000.
Definition BASE_FEE_PER_RU : Z := 1000.
Definition burn_address : Address := repeat 0 20.
Definition TOTAL_EMISSION_POOL_UEGOC : Z := 40000000 * 1000000.

Inductive StorageDataType : Type :=
| OldBlockBodies (start_height end_height : Z)
| StateSnapshotChunk (epoch : Z)
| ContractCodeChunk (code_hash : Hash)
| ContractStateChunk (contract_addr : Address) (epoch : Z)
| RollupBatchChunk (rollup_id : string) (batch_id : Z)
| DABlobChunk (epoch : Z)
| PoStEvidence (epoch : Z) (node_id : Address)
| PoCEvidence (epoch : Z) (region_id : string)
| PoRepEvidence (sector_id : Hash)
| UserData (app_id : string)
| FileStorage (filename mime_type : string)
| VideoContent (video_id : string)
| TelemetryData (device_id period : string)
| CustomData (label : string).

#[export] Instance StorageDataType_eq_dec : EqDecision StorageDataType.
Proof. solve_decision. Defined.

Record TriadMember : Type := MkMember {
  tm_node_id : Address;
  tm_sector_id : Hash;
  tm_replica_id : Hash;
  tm_h3_cell : string;
  tm_region : string;
  tm_shard_id : Z;
  tm_role : TriadRole;
  tm_health_score : Z;
  tm_consecutive_misses : Z;
}.

Record TriadInfo : Type := MkTriadInfo {
  ti_group_id : string;
  ti_primary : TriadMember;
  ti_replica_a : TriadMember;
  ti_replica_b : TriadMember;
  ti_placement_epoch : Z;
  ti_diversity_score : f64;
  last_health_check : Z;
}.

Record PostSchedule : Type := MkSchedule {
  windows_per_day : Z;
  challenges_per_window : Z;
  sla_ms : Z;
  next_window : Z;
  last_window : Z;
}.

Record PostStats : Type := MkChunkStats {
  total_challenges : Z;
  passed_challenges : Z;
  failed_challenges : Z;
  avg_latency_ms : Z;
  cs_pass_rate : f64;
  last_proof_epoch : Z;
}.

Record ErasureCodingParams : Type := MkChunkErasure {
  ce_k : Z;
  ce_m : Z;
  ce_codec : ErasureCodec;
  ce_chunk_size : Z;
}.

Record EncryptionMetadata : Type := MkEncryption {
  em_algorithm : string;
  key_refs : list Hash;
  em_nonce : bytes;
}.

Record StorageEntry : Type := MkEntry {
  se_chunk_id : Hash;
  se_data_hash : Hash;
  se_size : Z;
  se_data_type : StorageDataType;
  se_created_at : Timestamp;
  se_expires_at : Z;
  se_last_audit_epoch : Z;
  se_triad : TriadInfo;
  porep_commitment : Hash;
  porep_params_version : Z;
  post_schedule : PostSchedule;
  se_post_stats : PostStats;
  se_erasure_coding : option ErasureCodingParams;
  se_encryption_envelope : option EncryptionMetadata;
  owner : Address;
  authorized_readers : list Address;
  storage_credits_locked : Z;
  total_paid : Balance;
  se_slice_id : option string;
  se_integrity_verified : bool;
  last_verified_epoch : Z;
  verification_failures : Z;
}.

Inductive ValidatorStatus : Type :=
| Active
| Inactive
| Jailed
| Unbonding (release_epoch : Z)
| Slashed.

#[export] Instance ValidatorStatus_eq_dec : EqDecision ValidatorStatus.
Proof. solve_decision. Defined.

Inductive JailReason : Type :=
| ExcessiveMisses (consecutive : Z)
| JailEquivocation
| JailInvalidProof
| Downtime (epochs_missed : Z)
| JailSlashing.

Inductive SlashingType : Type :=
| SlashPostMiss
| SlashPostInvalid
| SlashPoCFraud
| SlashEquivocation
| SlashDataUnavailability
| ContractViolation.

Record ValidatorPerformance : Type := MkValPerformance {
  blocks_proposed : Z;
  blocks_missed : Z;
  attestations_made : Z;
  attestations_missed : Z;
  equivocations : Z;
  uptime_score : f64;
  vp_attestation_accuracy : f64;
}.

Record JailInfo : Type := MkJailInfo {
  ji_jailed_at : Z;
  ji_release_at : Z;
  ji_reason : JailReason;
  slashed_amount : Balance;
}.

Record SlashingEvent : Type := MkSlashingEvent {
  ev_timestamp : Timestamp;
  ev_epoch : Z;
  ev_amount : Balance;
  ev_reason : string;
  ev_evidence_hash : Hash;
  ev_event_type : SlashingType;
}.

Record ValidatorInfo : Type := MkValidator {
  v_address : Address;
  public_key : PublicKey;
  total_stake : Balance;
  own_stake : Balance;
  v_delegated_stake : Balance;
  v_commission_rate : Z;
  status : ValidatorStatus;
  joined_epoch : Z;
  v_last_active_epoch : Z;
  v_performance : ValidatorPerformance;
  drs_score : f64;
  drs_multiplier : f64;
  last_drs_update : Z;
  puc_coefficient : f64;
  peer_degree : Z;
  relay_bytes : Z;
  iot_sessions : Z;
  shard_demand_score : Z;
  v_jail_info : option JailInfo;
  v_slashing_history : list SlashingEvent;
  v_hot_set_config : ValidatorHotSetConfig;
}.

Inductive SliceType : Type :=
| EMbb
| Urllc
| MMtc
| CustomSlice (name : string) (parameters : bytes).

Inductive SliceStatus : Type :=
| SliceActive
| SlicePaused
| SliceMaintenance
| SliceInactive
| QuotaExceeded
| CreditsExhausted.

#[export] Instance SliceStatus_eq_dec : EqDecision SliceStatus.
Proof. solve_decision. Defined.

Record SliceConfig : Type := MkSlice {
  sc_slice_id : string;
  slice_type : SliceType;
  slice_owner : Address;
  authorized_devices : list Address;
  authorized_contracts : list Address;
  bandwidth_allocation : Z;
  latency_target_ms : Z;
  reliability_target : Z;
  slice_priority : Z;
  max_devices : Z;
  sc_storage_quota : Z;
  compute_quota : Z;
  slice_status : SliceStatus;
  current_devices : Z;
  current_storage_used : Z;
  current_bandwidth_used : Z;
  sc_created_at : Timestamp;
  updated_at : Timestamp;
  sc_expires_at : option Timestamp;
  billing_account : Address;
  credits_remaining : Balance;
}.

Inductive CrossShardSyncStatus : Type :=
| Synced
| Syncing (progress_percent : Z)
| Stale (epochs_behind : Z)
| Disconnected.

Inductive ReceiptStatus : Type :=
| Pending
| Transmitted
| Acknowledged
| Applied
| Expired
| ReceiptFailed (reason : string).

Record CrossShardState : Type := MkCrossShard {
  cs_shard_id : Z;
  last_state_root : Hash;
  last_block_height : Z;
  last_finalized_epoch : Z;
  pending_receipts_out : list Hash;
  pending_receipts_in : list Hash;
  receipt_nonce : Z;
  sync_status : CrossShardSyncStatus;
  last_sync_attempt : Timestamp;
}.

Record PendingReceipt : Type := MkPending {
  receipt : CrossShardReceipt;
  pd_created_at : Timestamp;
  pd_deadline_epoch : Z;
  retry_count : Z;
  pd_status : ReceiptStatus;
}.

Record StateStats : Type := MkStats {
  total_accounts : Z;
  eoa_accounts : Z;
  device_accounts : Z;
  validator_accounts : Z;
  storage_provider_accounts : Z;
  contract_accounts : Z;
  total_balance : Z;
  storage_entries : Z;
  total_storage_bytes : Z;
  archival_chunks : Z;
  contract_code_chunks : Z;
  user_data_chunks : Z;
  active_validators : Z;
  jailed_validators : Z;
  total_staked : Z;
  average_validator_performance : f64;
  active_slices : Z;
  total_slice_bandwidth : Z;
  pending_cross_shard_receipts : Z;
  cross_shard_throughput_per_sec : Z;
  total_post_challenges : Z;
  stats_post_pass_rate : f64;
  sectors_under_post : Z;
  last_updated : Timestamp;
}.

Record PruningConfig : Type := MkPruningConfig {
  pc_enabled : bool;
  pc_keep_epochs : Z;
  pc_prune_interval_epochs : Z;
  pc_keep_headers_forever : bool;
  pc_keep_state_snapshots : bool;
  pc_snapshot_interval_epochs : Z;
  prune_old_bodies : bool;
  prune_old_receipts : bool;
  prune_old_events : bool;
  pc_prune_expired_storage : bool;
}.

Record StateManager : Type := MkState {
  accounts : gmap Address Account;
  storage : gmap Hash StorageEntry;
  validators : gmap Address ValidatorInfo;
  slices : gmap string SliceConfig;
  cross_shard_state : gmap Z CrossShardState;
  pending_receipts : gmap Hash PendingReceipt;
  processed_receipt_nonces : gmap (Z * Z) (gset Z);
  sm_state_root : Hash;
  block_height : Z;
  sm_tx_root : Hash;
  receipts_root : Hash;
  events_root_post : Hash;
  events_root_poc : Hash;
  rollup_root : Hash;
  sm_da_root : Hash;
  stats : StateStats;
  sm_pruning_config : PruningConfig;
  reward_pool_uegoc : Z;
  sm_chain_id : Z;
  network_id : Z;
}.

Inductive StateChangeType : Type :=
| BalanceUpdate
| NonceUpdate
| StorageUpdate
| AccountCreation
| AccountDeletion
| SliceAuthorization
| ValidatorUpdate
| ContractStateChange
| DRSScoreUpdate
| StorageCreditsUpdate
| DeployCreditsUpdate
| PQTransitionUpdate
| TriadPlacementUpdate
| RewardDistribution.

Record StateChange : Type := MkChange {
  ch_account : Address;
  change_type : StateChangeType;
  previous_value : option bytes;
  new_value : bytes;
}.

Record TransactionEvent : Type := MkEvent {
  te_event_type : string;
  te_data : string;
  te_block_height : Z;
  tx_index : Z;
}.

Record PQVerificationResult : Type := MkPQResult {
  dilithium_verified : bool;
  ed25519_verified : option bool;
  algorithms_used : list Z;
  transition_compliant : bool;
}.

Record ProofVerificationResult : Type := MkVerification {
  vr_proof_type : ProofType;
  verified : bool;
  latency_within_sla : bool;
  verification_time_ms : Z;
}.

Record TransactionResult : Type := MkResult {
  rs_tx_hash : Hash;
  success : bool;
  rs_error : option string;
  ru_used : Z;
  rs_storage_used : Z;
  state_changes : list StateChange;
  events : list TransactionEvent;
  cross_shard_receipts : list CrossShardReceipt;
  pq_verification_result : option PQVerificationResult;
  proof_verifications : list ProofVerificationResult;
}.

Record PruningReport : Type := MkReport {
  storage_entries_pruned : Z;
  receipts_pruned : Z;
  accounts_pruned : Z;
  validators_pruned : Z;
  bytes_reclaimed : Z;
}.

Record StateSnapshot : Type := MkSnapshot {
  sn_epoch : Z;
  sn_block_height : Z;
  sn_state_root : Hash;
  sn_tx_root : Hash;
  sn_receipts_root : Hash;
  sn_events_root_post : Hash;
  sn_events_root_poc : Hash;
  sn_rollup_root : Hash;
  sn_da_root : Hash;
  sn_timestamp : Timestamp;
  sn_total_accounts : Z;
  sn_total_validators : Z;
  sn_total_storage_entries : Z;
  sn_stats : StateStats;
}.

Record TriadHealthReport : Type := MkHealthReport {
  hr_chunk_id : Hash;
  primary_healthy : bool;
  replica_a_healthy : bool;
  replica_b_healthy : bool;
  healthy_replicas : Z;
  needs_repair : bool;
  needs_promotion : bool;
  hr_diversity_score : f64;
  hr_last_audit : Z;
}.

(** ** Operations *)

Inductive outcome (A : Type) : Type :=
| Done (a : A)
| Fail (e : EgoError)
| Panics.
Arguments Done {A} a.
Arguments Fail {A} e.
Arguments Panics {A}.

Definition node (A : Type) : Type := StateManager -> outcome A * StateManager.

Definition pure {A} (a : A) : node A := fun s => (Done a, s).
Definition raise {A} (e : EgoError) : node A := fun s => (Fail e, s).
Definition panic {A} : node A := fun s => (Panics, s).
Definition gets {A} (f : StateManager -> A) : node A := fun s => (Done (f s), s).
Definition modify (f : StateManager -> StateManager) : node unit := fun s => (Done tt, f s).

(** [?] on a result that touches no state. *)
Definition lift {A} (r : result A EgoError) : node A :=
  match r with
  | Ok a => pure a
  | Err e => raise e
  end.

Definition bind {A B} (m : node A) (k : A -> node B) : node B := fun s =>
  match m s with
  | (Done a, s) => k a s
  | (Fail e, s) => (Fail e, s)
  | (Panics, s) => (Panics, s)
  end.

Notation "'let!' x := m 'in' k" := (bind m (fun x => k))
  (at level 10, x name, m at level 100, k at level 200) : ego_scope.
Notation "'let!' ' p := m 'in' k" := (bind m (fun p => k))
  (at level 10, p strict pattern, m at level 100, k at level 200) : ego_scope.

(** [get(..).ok_or(e)?]: an entry of a map, or the error. *)
Definition found {A} (o : option A) (e : EgoError) : node A := lift (ok_or o e).

(** ** Creation and plain accessors *)

Definition StateStats_default (now : Timestamp) : StateStats :=
  MkStats 0 0 0 0 0 0 0 0 0 0 0 0 0 0 0 (S754_zero false) 0 0 0 0 0 (S754_zero false) 0 now.

Definition PruningConfig_default : PruningConfig :=
  MkPruningConfig true DEFAULT_PRUNING_EPOCHS 10 true true DEFAULT_SNAPSHOT_INTERVAL
    true true true true.

Definition state_new (now : Timestamp) (chain network : Z) : StateManager :=
  MkState ∅ ∅ ∅ ∅ ∅ ∅ ∅ ZERO_HASH 0 ZERO_HASH ZERO_HASH ZERO_HASH ZERO_HASH ZERO_HASH ZERO_HASH
    (StateStats_default now) PruningConfig_default TOTAL_EMISSION_POOL_UEGOC chain network.

Definition set_reward_pool_uegoc (v : Z) (s : StateManager) : StateManager := s <| reward_pool_uegoc := v |>.
Definition with_pruning_config (c : PruningConfig) (s : StateManager) : StateManager :=
  s <| sm_pruning_config := c |>.
Definition get_account (a : Address) (s : StateManager) : option Account := s.(accounts) !! a.
Definition set_account (a : Account) (s : StateManager) : StateManager :=
  s <| accounts := <[a.(address) := a]> s.(accounts) |>.
Definition account_exists (a : Address) (s : StateManager) : bool :=
  bool_decide (is_Some (s.(accounts) !! a)).
Definition set_validator (a : Address) (v : ValidatorInfo) (s : StateManager) : StateManager :=
  s <| validators := <[a := v]> s.(validators) |>.
Definition set_entry (chunk : Hash) (e : StorageEntry) (s : StateManager) : StateManager :=
  s <| storage := <[chunk := e]> s.(storage) |>.
Definition set_slice (id : string) (c : SliceConfig) (s : StateManager) : StateManager :=
  s <| slices := <[id := c]> s.(slices) |>.
Definition set_block_height (h : Z) (s : StateManager) : StateManager := s <| block_height := h |>.
Definition get_current_epoch (s : StateManager) : Z := s.(block_height) / 12000.
Definition increment_block_height (s : StateManager) : StateManager :=
  s <| block_height := wrap64 (s.(block_height) + 1) |>.

(** [self.get_account(&a).unwrap_or_else(|| Account::new_eoa(a, vec![0; 1312], vec![0; 1184]))]. *)
Definition account_or_new (now : Timestamp) (a : Address) (s : StateManager) : Account :=
  default (new_eoa now a (repeat 0 1312) (repeat 0 1184)) (get_account a s).

(** What goes into the texts of events: [serde_json] of an object, [Debug] of an
    account type and ["{:.8}"] of a float. *)
Inductive JsonValue : Type :=
| JString (s : string)
| JNumber (n : Z)
| JFloat (f : f64)
| JBool (b : bool)
| JNull.

Class EventPrims : Type := {
  json_object : list (string * JsonValue) -> string;
  debug_account_type : AccountType -> string;
  fmt8 : f64 -> string;
  bincode_account : Account -> option bytes;
  bincode_entry : StorageEntry -> option bytes;
}.

Section State.
Context `{CryptoPrims} `{NodePrims} `{TxPrims} `{EventPrims} `{HashOrder}.
Context (now : Timestamp).

(** The milliseconds since [execute_proof_batch] began, at its [i]-th proof. *)
Context (elapsed : nat -> Z).

(** ** Accounts *)

Definition device_defaults (geohash : option string) : DeviceCapabilities :=
  MkCapabilities 100000000 100000000 [] geohash ∅ None PostStats_default true 50000000 10
    CostAwareness_default.

Definition peer_of (a : Address) : string := "peer_" +:+ show_address a.

Definition create_account (addr : Address) (t : AccountType) : node unit :=
  let! exists_ := gets (account_exists addr) in
  if (exists_ : bool) then raise (InvalidTransaction "Account already exists")
  else
    let dpk := repeat 0 1312 in
    let mpk := repeat 0 1184 in
    let! account :=
      match t with
      | EOA => pure (new_eoa now addr dpk mpk)
      | Device device geohash =>
          pure (new_device now addr device (device_defaults geohash) dpk mpk (peer_of addr))
      | Validator pubkey rate _ => lift (new_validator now addr pubkey rate 0 dpk mpk)
      | StorageProvider provider region =>
          pure (new_storage_provider now addr provider region 1000000000000 dpk mpk (peer_of addr))
      | Hybrid roles => pure (new_hybrid_node now addr roles 1000000000000 dpk mpk (peer_of addr))
      | Contract _ _ =>
          raise (InvalidTransaction "Contract accounts must be created through deployment")
      | System _ => raise (InvalidTransaction "System accounts cannot be created directly")
      end in
    modify (fun s => s <| accounts := <[addr := account]> s.(accounts) |>).

(** ** Stored chunks *)

Definition not_found : EgoError := InvalidTransaction "Storage entry not found".

(** One turn of the loop over the members of a triad. *)
Definition check_member (m : TriadMember) : node unit :=
  let! a := gets (get_account m.(tm_node_id)) in
  let! account := found a (AccountNotFound (show_address m.(tm_node_id))) in
  if is_storage_provider account then pure tt
  else raise (InvalidTransaction ("Node " +:+ show_address m.(tm_node_id) +:+ " is not a storage provider")).

Definition register_storage_entry (entry : StorageEntry) : node unit :=
  let! known := gets (fun s => bool_decide (is_Some (s.(storage) !! entry.(se_chunk_id)))) in
  if (known : bool) then raise (InvalidTransaction "Storage entry already exists")
  else if SFltb entry.(se_triad).(ti_diversity_score) (f64_lit 5 10)
  then raise (InvalidTransaction "Triad diversity too low")
  else
    let! _ := check_member entry.(se_triad).(ti_primary) in
    let! _ := check_member entry.(se_triad).(ti_replica_a) in
    let! _ := check_member entry.(se_triad).(ti_replica_b) in
    modify (set_entry entry.(se_chunk_id) entry).

(** The counters of a chunk after a challenge. *)
Definition count_challenge (passed : bool) (epoch : Z) (e : StorageEntry) : StorageEntry :=
  let st := e.(se_post_stats) in
  let st := st <| total_challenges := wrap64 (st.(total_challenges) + 1) |> in
  let e := e <| se_last_audit_epoch := epoch |> in
  let '(e, st) :=
    if passed
    then (e <| se_integrity_verified := true |> <| last_verified_epoch := epoch |>
            <| verification_failures := 0 |>,
          st <| passed_challenges := wrap64 (st.(passed_challenges) + 1) |>)
    else (e <| verification_failures := wrap32 (e.(verification_failures) + 1) |>,
          st <| failed_challenges := wrap64 (st.(failed_challenges) + 1) |>) in
  e <| se_post_stats := st <| cs_pass_rate :=
         pass_rate st.(passed_challenges) st.(total_challenges) |> |>.

Definition score_member (passed : bool) (m : TriadMember) : TriadMember :=
  if passed
  then m <| tm_consecutive_misses := 0 |>
         <| tm_health_score := Z.min (wrap64 (m.(tm_health_score) + 1000)) 100000 |>
  else m <| tm_consecutive_misses := wrap32 (m.(tm_consecutive_misses) + 1) |>
         <| tm_health_score := sat_sub m.(tm_health_score) 5000 |>.

(** The first member of the triad that is the node, rescored. *)
Definition score_triad (node_addr : Address) (passed : bool) (t : TriadInfo) : option TriadInfo :=
  if bool_decide (t.(ti_primary).(tm_node_id) = node_addr)
  then Some (t <| ti_primary ::= score_member passed |>)
  else if bool_decide (t.(ti_replica_a).(tm_node_id) = node_addr)
  then Some (t <| ti_replica_a ::= score_member passed |>)
  else if bool_decide (t.(ti_replica_b).(tm_node_id) = node_addr)
  then Some (t <| ti_replica_b ::= score_member passed |>)
  else None.

(** The entry is changed in place, so what precedes an error stays. *)
Definition update_post_result (chunk : Hash) (node_addr : Address) (passed : bool)
    (latency_ms epoch : Z) : node unit :=
  let! e := gets (fun s => s.(storage) !! chunk) in
  let! entry := found e not_found in
  let entry := count_challenge passed epoch entry in
  let! _ := modify (set_entry chunk entry) in
  match running_mean entry.(se_post_stats).(avg_latency_ms)
          entry.(se_post_stats).(total_challenges) latency_ms with
  | None => panic
  | Some avg =>
      let entry := entry <| se_post_stats := entry.(se_post_stats) <| avg_latency_ms := avg |> |> in
      let! _ := modify (set_entry chunk entry) in
      match score_triad node_addr passed entry.(se_triad) with
      | None => raise (InvalidTransaction "Node not in triad")
      | Some t =>
          let! _ := modify (set_entry chunk (entry <| se_triad := t |>)) in
          let! a := gets (get_account node_addr) in
          match a with
          | None => pure tt
          | Some account =>
              match record_post_proof now passed latency_ms epoch account with
              | None => panic
              | Some account =>
                  modify (fun s => s <| accounts := <[node_addr := account]> s.(accounts) |>)
              end
          end
      end
  end.

Definition get_chunks_by_data_type (t : StorageDataType) (s : StateManager) : list StorageEntry :=
  filter (fun e => e.(se_data_type) = t) (hash_iter s.(storage)).*2.

(** [retain]: the entries kept, and the keys removed in the order of iteration. *)
Definition retain {K A} `{Countable K} (keep : A -> bool) (m : gmap K A) : gmap K A * list K :=
  (filter (fun kv => keep kv.2 = true) m,
   (filter (fun kv : K * A => keep kv.2 = false) (hash_iter m)).*1).

Definition prune_expired_storage (height : Z) : node (list Hash) := fun s =>
  if negb s.(sm_pruning_config).(pc_prune_expired_storage) then (Done [], s)
  else
    let '(kept, pruned) := retain (fun e => negb (bool_decide (e.(se_expires_at) <= height))) s.(storage) in
    (Done pruned, s <| storage := kept |>).

(** ** Validators *)

Definition check_commission (rate : Z) : node unit :=
  if bool_decide (rate > 10000) then raise (InvalidTransaction "Commission rate cannot exceed 100%")
  else pure tt.

Definition register_validator (info : ValidatorInfo) : node unit :=
  if bool_decide (info.(total_stake) < MIN_VALIDATOR_STAKE)
  then raise (InvalidTransaction ("Minimum stake is " +:+ pretty MIN_VALIDATOR_STAKE +:+ " uEGOC"))
  else
    let! _ := check_commission info.(v_commission_rate) in
    modify (set_validator info.(v_address) info).

Definition register_storage_validator (info : ValidatorInfo) : node unit :=
  let! _ := check_commission info.(v_commission_rate) in
  modify (set_validator info.(v_address) info).

Definition validator_or_err (a : Address) : node ValidatorInfo :=
  let! v := gets (fun s => s.(validators) !! a) in
  found v (AccountNotFound (show_address a)).

Definition update_validator_metrics (a : Address) (uptime_percent degree relay sessions demand : Z)
    (puc : f64) : node unit :=
  let! v := validator_or_err a in
  modify (set_validator a (v
    <| v_performance := v.(v_performance) <| uptime_score := f64_of uptime_percent |> |>
    <| peer_degree := degree |> <| relay_bytes := relay |> <| iot_sessions := sessions |>
    <| shard_demand_score := demand |> <| puc_coefficient := f64_clamp puc (f64_of 1) (f64_lit 125 100) |>)).

Definition update_validator_drs (a : Address) (score multiplier : f64) (epoch : Z) : node unit :=
  let! v := validator_or_err a in
  let! _ := modify (set_validator a (v <| drs_score := score |>
              <| drs_multiplier := f64_clamp multiplier (f64_lit 7 10) (f64_lit 13 10) |>
              <| last_drs_update := epoch |>)) in
  modify (fun s => match get_account a s with
                   | None => s
                   | Some account =>
                       s <| accounts := <[a := update_drs_score now score epoch account]> s.(accounts) |>
                   end).

Definition jail_validator (a : Address) (reason : JailReason) (release_epochs : Z)
    (slash : Balance) : node unit :=
  let! height := gets block_height in
  let! v := validator_or_err a in
  let v := v <| status := Jailed |>
             <| v_jail_info := Some (MkJailInfo height (wrap64 (height + release_epochs)) reason slash) |> in
  let v := if bool_decide (slash > 0)
           then v <| total_stake := default 0 (checked_sub v.(total_stake) slash) |>
                  <| own_stake := default 0 (checked_sub v.(own_stake) slash) |>
           else v in
  modify (set_validator a v).

Definition get_validators_by_status (st : ValidatorStatus) (s : StateManager) : list ValidatorInfo :=
  filter (fun v => v.(status) = st) (hash_iter s.(validators)).*2.
Definition get_active_validators : StateManager -> list ValidatorInfo := get_validators_by_status Active.

(** [fold(ZERO, |acc, x| acc.checked_add(x).unwrap_or(acc))]. *)
Definition fold_checked (l : list Balance) : Balance :=
  foldl (fun acc x => default acc (checked_add acc x)) 0 l.

Definition get_total_staked (s : StateManager) : Balance :=
  fold_checked (total_stake <$> (hash_iter s.(validators)).*2).

Definition get_top_validators_by_stake (limit : nat) (s : StateManager) : list ValidatorInfo :=
  take limit (stable_sort (fun a b => b.(total_stake) <=? a.(total_stake)) (get_active_validators s)).

(** ** Slices *)

Definition no_slice : EgoError := InvalidTransaction "Slice not found".

Definition create_slice (config : SliceConfig) : node unit :=
  let! known := gets (fun s => bool_decide (is_Some (s.(slices) !! config.(sc_slice_id)))) in
  if (known : bool) then raise (InvalidTransaction "Slice already exists")
  else
    let! has_owner := gets (account_exists config.(slice_owner)) in
    if negb has_owner then raise (AccountNotFound (show_address config.(slice_owner)))
    else modify (set_slice config.(sc_slice_id) config).

Definition authorize_device_for_slice (id : string) (device : Address) : node unit :=
  let! c := gets (fun s => s.(slices) !! id) in
  let! slice := found c no_slice in
  if bool_decide (device ∈ slice.(authorized_devices)) then pure tt
  else if bool_decide (slice.(current_devices) >= slice.(max_devices))
  then raise (InvalidTransaction "Slice device limit reached")
  else
    let! _ := modify (set_slice id (slice
                <| authorized_devices := slice.(authorized_devices) ++ [device] |>
                <| current_devices := wrap32 (slice.(current_devices) + 1) |>)) in
    modify (fun s => match get_account device s with
                     | None => s
                     | Some account =>
                         s <| accounts := <[device := authorize_slice now id account]> s.(accounts) |>
                     end).

Definition update_slice_usage (id : string) (storage_add bandwidth_add : Z) : node unit :=
  let! c := gets (fun s => s.(slices) !! id) in
  let! slice := found c no_slice in
  let slice := slice
    <| current_storage_used := sat_add u64_max slice.(current_storage_used) storage_add |>
    <| current_bandwidth_used := sat_add u64_max slice.(current_bandwidth_used) bandwidth_add |> in
  let slice := if bool_decide (slice.(current_storage_used) > slice.(sc_storage_quota))
               then slice <| slice_status := QuotaExceeded |> else slice in
  modify (set_slice id (slice <| updated_at := now |>)).

(** ** Receipts between shards *)

Definition init_cross_shard_state (shard : Z) (s : StateManager) : StateManager :=
  if bool_decide (is_Some (s.(cross_shard_state) !! shard)) then s
  else s <| cross_shard_state :=
              <[shard := MkCrossShard shard ZERO_HASH 0 0 [] [] 0 Synced now]> s.(cross_shard_state) |>.

(** Whether the nonce of a receipt was recorded for its pair of shards, and its record. *)
Definition is_processed (src dst n : Z) (s : StateManager) : bool :=
  bool_decide (n ∈ default ∅ (s.(processed_receipt_nonces) !! (src, dst))).

Definition mark_processed (src dst n : Z) (s : StateManager) : StateManager :=
  s <| processed_receipt_nonces :=
         <[(src, dst) := {[n]} ∪ default ∅ (s.(processed_receipt_nonces) !! (src, dst))]>
           s.(processed_receipt_nonces) |>.

Definition add_cross_shard_receipt (r : CrossShardReceipt) : node unit := fun s =>
  if is_processed r.(src_shard) r.(dst_shard) r.(rc_nonce) s
  then raise (InvalidTransaction "Receipt nonce already processed") s
  else if bool_decide (r.(rc_deadline_epoch) < get_current_epoch s)
  then raise (InvalidTransaction "Receipt deadline expired") s
  else if bool_decide (Z.of_nat (size s.(pending_receipts)) >= MAX_CROSS_SHARD_RECEIPTS)
  then raise (InvalidTransaction "Pending receipt queue full") s
  else
    let pending := MkPending r now r.(rc_deadline_epoch) 0 Pending in
    let s := s <| pending_receipts := <[r.(tx_id) := pending]> s.(pending_receipts) |> in
    match s.(cross_shard_state) !! r.(dst_shard) with
    | None => (Done tt, s)
    | Some st =>
        (Done tt, s <| cross_shard_state :=
           <[r.(dst_shard) := st <| pending_receipts_out := st.(pending_receipts_out) ++ [r.(tx_id)] |>]>
             s.(cross_shard_state) |>)
    end.

Definition process_cross_shard_receipt (id : Hash) : node TransactionResult := fun s =>
  match s.(pending_receipts) !! id with
  | None => raise (InvalidTransaction "Receipt not found") s
  | Some p =>
      if bool_decide (p.(pd_deadline_epoch) < get_current_epoch s)
      then raise (InvalidTransaction "Receipt expired")
             (s <| pending_receipts := <[id := p <| pd_status := Expired |>]> s.(pending_receipts) |>)
      else
        let s := mark_processed p.(receipt).(src_shard) p.(receipt).(dst_shard) p.(receipt).(rc_nonce) s in
        let s := s <| pending_receipts := delete id s.(pending_receipts) |> in
        (Done (MkResult id true None 1500 0 []
           [MkEvent "cross_shard_receipt_processed" ("Receipt " +:+ show_hash id +:+ " processed")
              s.(block_height) 0] [] None []), s)
  end.

(** Credit an account, which is made when there is none. *)
Definition credit_account (to : Address) (amount : Balance) : node unit :=
  let! a := gets (account_or_new now to) in
  let! a := lift (credit now amount a) in
  modify (set_account a).

Definition apply_inbound_receipt (r : CrossShardReceipt) : node unit :=
  let! done_ := gets (is_processed r.(src_shard) r.(dst_shard) r.(rc_nonce)) in
  if (done_ : bool) then raise (InvalidTransaction "cross-shard receipt already applied")
  else
    let! epoch := gets get_current_epoch in
    if bool_decide (r.(rc_deadline_epoch) < epoch)
    then raise (InvalidTransaction "cross-shard receipt expired")
    else
      let! msg := found (message_decode r.(rc_payload))
                    (InvalidTransaction "cross-shard receipt: malformed payload") in
      let! _ :=
        match msg with
        | MsgTransfer to amount =>
            if bool_decide (amount > 0) then credit_account to amount else pure tt
        | MsgContractCall contract _ _ value _ =>
            if bool_decide (value > 0) then credit_account contract value else pure tt
        end in
      modify (mark_processed r.(src_shard) r.(dst_shard) r.(rc_nonce)).

Definition prune_expired_receipts (current_epoch : Z) (s : StateManager) : list Hash * StateManager :=
  let '(kept, expired) :=
    retain (fun p => negb (bool_decide (p.(pd_deadline_epoch) < current_epoch))) s.(pending_receipts) in
  (expired, s <| pending_receipts := kept |>).

(** ** Statistics *)

(** The number of entries of a map with a property, and wrapping sums. *)
Definition count {K A} `{Countable K} (p : A -> bool) (m : gmap K A) : Z :=
  Z.of_nat (length (filter (fun kv : K * A => p kv.2 = true) (hash_iter m))).
Definition sum64 {K A} `{Countable K} (f : A -> Z) (m : gmap K A) : Z :=
  foldl (fun acc kv => wrap64 (acc + f kv.2)) 0 (hash_iter m).

Definition is_eoa (a : Account) : bool := match a.(account_type) with EOA => true | _ => false end.
Definition is_validator_type (a : Account) : bool :=
  match a.(account_type) with Validator _ _ _ => true | _ => false end.
Definition is_provider_type (a : Account) : bool :=
  match a.(account_type) with StorageProvider _ _ => true | _ => false end.
Definition is_contract_type (a : Account) : bool :=
  match a.(account_type) with Contract _ _ => true | _ => false end.
Definition is_archival (e : StorageEntry) : bool :=
  match e.(se_data_type) with OldBlockBodies _ _ | StateSnapshotChunk _ => true | _ => false end.
Definition is_contract_code (e : StorageEntry) : bool :=
  match e.(se_data_type) with ContractCodeChunk _ | ContractStateChunk _ _ => true | _ => false end.
Definition is_user_data (e : StorageEntry) : bool :=
  match e.(se_data_type) with UserData _ | FileStorage _ _ => true | _ => false end.
Definition has_status (st : ValidatorStatus) (v : ValidatorInfo) : bool := bool_decide (v.(status) = st).
Definition slice_is_active (c : SliceConfig) : bool := bool_decide (c.(slice_status) = SliceActive).

Definition update_stats (s : StateManager) : StateManager :=
  let active := wrap32 (count (has_status Active) s.(validators)) in
  let challenges := sum64 (fun e => e.(se_post_stats).(total_challenges)) s.(storage) in
  let passed := sum64 (fun e => e.(se_post_stats).(passed_challenges)) s.(storage) in
  let performance :=
    foldl (fun acc v => f64_add acc v.(v_performance).(uptime_score)) (S754_zero false)
      (get_active_validators s) in
  s <| stats := {|
    total_accounts := Z.of_nat (size s.(accounts));
    eoa_accounts := count is_eoa s.(accounts);
    device_accounts := count is_device s.(accounts);
    validator_accounts := count is_validator_type s.(accounts);
    storage_provider_accounts := count is_provider_type s.(accounts);
    contract_accounts := count is_contract_type s.(accounts);
    total_balance := fold_checked (balance <$> (hash_iter s.(accounts)).*2);
    storage_entries := Z.of_nat (size s.(storage));
    total_storage_bytes := sum64 se_size s.(storage);
    archival_chunks := count is_archival s.(storage);
    contract_code_chunks := count is_contract_code s.(storage);
    user_data_chunks := count is_user_data s.(storage);
    active_validators := active;
    jailed_validators := wrap32 (count (has_status Jailed) s.(validators));
    total_staked := get_total_staked s;
    average_validator_performance :=
      if bool_decide (active > 0) then f64_div performance (f64_of active) else S754_zero false;
    active_slices := wrap32 (count slice_is_active s.(slices));
    total_slice_bandwidth :=
      sum64 (fun c => if slice_is_active c then c.(current_bandwidth_used) else 0) s.(slices);
    pending_cross_shard_receipts := Z.of_nat (size s.(pending_receipts));
    cross_shard_throughput_per_sec := s.(stats).(cross_shard_throughput_per_sec);
    total_post_challenges := challenges;
    stats_post_pass_rate := if bool_decide (challenges > 0) then pass_rate passed challenges else f64_of 100;
    sectors_under_post := Z.of_nat (size s.(storage));
    last_updated := now;
  |} |>.

Definition get_stats (s : StateManager) : StateStats * StateManager :=
  let s := update_stats s in (s.(stats), s).

(** ** Results *)

Definition create_success_result (h : Hash) (ru : Z) : TransactionResult :=
  MkResult h true None ru 0 [] [] [] None [].

(** [Display] of a balance: [to_egoc] with eight decimals. *)
Definition EGOC_BASE_UNIT : Z := 1000000000.
Definition show_balance (b : Balance) : string :=
  fmt8 (f64_div (f64_of b) (f64_of EGOC_BASE_UNIT)) +:+ " EGOC".

Definition u128_le : Z -> bytes := to_le_bytes 16.

Definition jstr_opt (o : option string) : JsonValue := from_option JString JNull o.

(** The result most handlers build: no error, no receipts, one event. *)
Definition success_with (ru used : Z) (changes : list StateChange) (kind : string)
    (fields : list (string * JsonValue)) (proofs : list ProofVerificationResult) (s : StateManager)
    : TransactionResult :=
  MkResult ZERO_HASH true None ru used changes [MkEvent kind (json_object fields) s.(block_height) 0]
    [] None proofs.

(** ** Handlers of the payloads

    A handler works on the sender's copy, which [execute_transaction] stores at
    the end; everything else it changes in the shared maps. *)

Definition execute_transfer (sender : Account) (to : Address) (amount : Balance) (stealth : bool)
    (memo : option string) : node (Account * TransactionResult) :=
  let! sender := lift (debit now amount sender) in
  let! _ := credit_account to amount in
  match checked_add sender.(balance) amount with
  | None => panic
  | Some before =>
      let! r := gets (success_with (if stealth then 500 else 100) 0
        [MkChange sender.(address) BalanceUpdate (Some (u128_le before)) (u128_le sender.(balance));
         MkChange to BalanceUpdate (Some (u128_le 0)) (u128_le amount)] "transfer"
        [("from", JString (show_address sender.(address))); ("to", JString (show_address to));
         ("amount", JString (show_balance amount)); ("stealth", JBool stealth); ("memo", jstr_opt memo)]
        []) in
      pure (sender, r)
  end.

Definition execute_create_account (sender : Account) (addr : Address) (t : AccountType)
    (initial : Balance) : node (Account * TransactionResult) :=
  let! sender := lift (debit now initial sender) in
  let! _ := create_account addr t in
  let! _ :=
    if bool_decide (initial > 0)
    then
      let! a := gets (get_account addr) in
      match a with
      | None => panic
      | Some account =>
          let! account := lift (credit now initial account) in
          modify (set_account account)
      end
    else pure tt in
  let! r := gets (success_with 1000 256
    [MkChange addr AccountCreation None (ascii_bytes (debug_account_type t))] "account_created"
    [("address", JString (show_address addr)); ("creator", JString (show_address sender.(address)));
     ("type", JString (debug_account_type t))] []) in
  pure (sender, r).

(** The fields of [AccountUpdates] the code applies. *)
Definition apply_updates (u : AccountUpdates) (a : Account) : Account :=
  let a := match u.(up_storage_quota) with
           | Some quota => a <| storage_quota := quota |>
           | None => a
           end in
  let a := foldl (fun a slice => authorize_slice now slice a) a u.(add_slices) in
  let a := foldl (fun a slice => a <| authorized_slices :=
                    filter (fun x => x <> slice) a.(authorized_slices) |>) a u.(remove_slices) in
  match u.(up_device_capabilities) with
  | Some caps => a <| device_capabilities := Some caps |>
  | None => a
  end.

Definition execute_update_account (sender : Account) (addr : Address) (updates : AccountUpdates)
    : node (Account * TransactionResult) :=
  if bool_decide (sender.(address) <> addr) then raise (InvalidTransaction "Can only update own account")
  else
    let! a := gets (get_account addr) in
    let! account := found a (AccountNotFound (show_address addr)) in
    let! _ := modify (set_account (apply_updates updates account)) in
    pure (sender, create_success_result ZERO_HASH 500).

Definition triad_member (loc : NodeLocation) (r : TriadRole) : TriadMember :=
  MkMember loc.(loc_node_id) ZERO_HASH ZERO_HASH loc.(h3_cell) loc.(loc_region) loc.(loc_shard_id) r 100000 0.

Definition new_entry (sender : Address) (chunk : Hash) (data_size duration : Z) (data_hash : Hash)
    (slice : string) (credits : Z) (t : TriadPlacement) (e : NodeTx.ErasureCodingParams)
    (envelope : option EncryptionEnvelope) (s : StateManager) : StorageEntry := {|
  se_chunk_id := chunk; se_data_hash := data_hash; se_size := data_size;
  se_data_type := UserData "default"; se_created_at := now;
  se_expires_at := wrap64 (s.(block_height) + duration); se_last_audit_epoch := 0;
  se_triad := MkTriadInfo t.(pl_group_id) (triad_member t.(pl_primary) Primary)
    (triad_member t.(pl_replica_a) ReplicaA) (triad_member t.(pl_replica_b) ReplicaB)
    (get_current_epoch s) t.(pl_diversity_score) (get_current_epoch s);
  porep_commitment := ZERO_HASH; porep_params_version := 1;
  post_schedule := MkSchedule 48 24 2000 (wrap64 (get_current_epoch s + 1)) 0;
  se_post_stats := MkChunkStats 0 0 0 0 (f64_of 100) 0;
  se_erasure_coding := Some (MkChunkErasure e.(ec_k) e.(ec_m) e.(ec_codec) (data_size / e.(ec_k)));
  se_encryption_envelope :=
    (fun env => MkEncryption "XChaCha20-Poly1305" (hash_data <$> env.(kyber_ciphertexts)) env.(nonce24))
      <$> envelope;
  owner := sender; authorized_readers := []; storage_credits_locked := credits; total_paid := credits;
  se_slice_id := Some slice; se_integrity_verified := false; last_verified_epoch := 0;
  verification_failures := 0;
|}.

(** [data_size / k] panics when [k] is zero. *)
Definition execute_store_data (sender : Account) (chunk : Hash) (data_size duration : Z)
    (data_hash : Hash) (slice : string) (credits factor : Z) (t : TriadPlacement)
    (e : NodeTx.ErasureCodingParams) (envelope : option EncryptionEnvelope)
    : node (Account * TransactionResult) :=
  let! sender := lift (update_storage_usage now data_size sender) in
  if negb (is_authorized_for_slice slice sender) then raise (UnauthorizedSlice slice)
  else
    let! sender := lift (use_storage_credits now credits sender) in
    if bool_decide (e.(ec_k) = 0) then panic
    else
      let! entry := gets (new_entry sender.(address) chunk data_size duration data_hash slice credits
                            t e envelope) in
      let! _ := register_storage_entry entry in
      let! _ := update_slice_usage slice data_size 0 in
      let! r := gets (success_with (wrap64 (1000 + wrap64 (data_size / 1024 * factor))) data_size []
        "data_stored"
        [("chunk_id", JString (show_hash chunk)); ("owner", JString (show_address sender.(address)));
         ("size", JNumber data_size); ("rf", JNumber factor); ("slice_id", JString slice)] []) in
      pure (sender, r).

Definition execute_update_triad (sender : Account) (chunk : Hash) (placement : TriadPlacement)
    (reason : PlacementUpdateReason) : node (Account * TransactionResult) :=
  let! e := gets (fun s => s.(storage) !! chunk) in
  let! entry := found e not_found in
  let! epoch := gets get_current_epoch in
  let t := entry.(se_triad) in
  let t := match reason with
           | NodeFailure | AuditFailure => t <| last_health_check := epoch |>
           | Promotion | Repair | Rebalancing | NodeDeactivation => t
           end in
  let t := t <| ti_diversity_score := placement.(pl_diversity_score) |> <| ti_placement_epoch := epoch |> in
  let! _ := modify (set_entry chunk (entry <| se_triad := t |>)) in
  pure (sender, create_success_result ZERO_HASH 800).

(** An error is caught; a panic is not. *)
Definition catch (m : node unit) : node bool := fun s =>
  match m s with
  | (Done _, s) => (Done true, s)
  | (Fail _, s) => (Done false, s)
  | (Panics, s) => (Panics, s)
  end.

Fixpoint proof_batch_loop (i : nat) (sender : Address) (t : ProofType) (epoch : Z)
    (proofs : list ProofSubmission) : node (list ProofVerificationResult) :=
  match proofs with
  | [] => pure []
  | proof :: proofs =>
      let latency_ok := bool_decide (proof.(ps_latency_ms) <= 2000) in
      let! ok := match t with
                 | PoSt => catch (update_post_result proof.(ps_chunk_id) sender latency_ok
                                    proof.(ps_latency_ms) epoch)
                 | PoRep | PoC => pure true
                 end in
      let! rest := proof_batch_loop (S i) sender t epoch proofs in
      pure (MkVerification t ok latency_ok (wrap32 (elapsed i)) :: rest)
  end.

(** The derived [Debug]. *)
Definition debug_proof_type (t : ProofType) : string :=
  match t with PoSt => "PoSt" | PoRep => "PoRep" | PoC => "PoC" end.

Definition execute_proof_batch (sender : Account) (t : ProofType) (proofs : list ProofSubmission)
    (epoch : Z) : node (Account * TransactionResult) :=
  let! verifications := proof_batch_loop 0 sender.(address) t epoch proofs in
  let! r := gets (success_with (2000 + len64 proofs * 100) 0 [] "proof_batch_submitted"
    [("node", JString (show_address sender.(address))); ("proof_type", JString (debug_proof_type t));
     ("count", JNumber (len64 proofs)); ("epoch", JNumber epoch)] verifications) in
  pure (sender, r).

Fixpoint post_response_loop (i : nat) (sender : Address) (latencies : list Z) (proofs : list PoStProof)
    : node (list ProofVerificationResult) :=
  match proofs with
  | [] => pure []
  | proof :: proofs =>
      let latency := default u32_max (latencies !! i) in
      let latency_ok := bool_decide (latency <= 2000) in
      let! epoch := gets get_current_epoch in
      let! _ := update_post_result proof.(pp_chunk_id) sender latency_ok latency epoch in
      let! rest := post_response_loop (S i) sender latencies proofs in
      pure (MkVerification PoSt latency_ok latency_ok latency :: rest)
  end.

Definition execute_post_response (sender : Account) (challenge : Hash) (proofs : list PoStProof)
    (latencies : list Z) : node (Account * TransactionResult) :=
  let! verifications := post_response_loop 0 sender.(address) latencies proofs in
  let! r := gets (success_with (3000 + len64 proofs * 150) 0 [] "post_response"
    [("node", JString (show_address sender.(address))); ("challenge", JString (show_hash challenge));
     ("proofs", JNumber (len64 proofs))] verifications) in
  pure (sender, r).

(** [min] with the pool, and the pool less the payout. *)
Definition take_reward (raw : Z) : node Z := fun s =>
  let pool := s.(reward_pool_uegoc) in
  if bool_decide (pool = 0)
  then raise (InvalidTransaction "Emission pool exhausted; no block rewards remain") s
  else (Done (Z.min raw pool), set_reward_pool_uegoc (pool - Z.min raw pool) s).

Definition execute_claim_rewards (sender : Account) (node_addr : Address) (epoch : Z)
    (buckets : RewardClaim) (multiplier : f64) : node (Account * TransactionResult) :=
  if bool_decide (sender.(address) <> node_addr)
  then raise (InvalidTransaction "Can only claim own rewards")
  else
    let! payout := take_reward (f64_as_u64 (f64_mul (f64_of buckets.(rc_total)) multiplier)) in
    let! sender := lift (credit now payout sender) in
    match checked_sub sender.(balance) payout with
    | None => panic
    | Some before =>
        let! r := gets (success_with 1200 0
          [MkChange sender.(address) RewardDistribution (Some (u128_le before)) (u128_le sender.(balance))]
          "rewards_claimed"
          [("node", JString (show_address node_addr)); ("epoch", JNumber epoch);
           ("storage", JString (show_balance buckets.(rc_storage_rewards)));
           ("consensus", JString (show_balance buckets.(consensus_rewards)));
           ("coverage", JString (show_balance buckets.(coverage_rewards)));
           ("total", JString (show_balance payout)); ("drs_multiplier", JFloat multiplier)] []) in
        pure (sender, r)
    end.

Definition execute_buy_storage_credits (sender : Account) (amount : Balance) (credits : Z)
    : node (Account * TransactionResult) :=
  let! sender := lift (debit now amount sender) in
  let sender := add_storage_credits now credits sender in
  let! r := gets (success_with 300 0
    [MkChange sender.(address) StorageCreditsUpdate (Some (u64_le (wrap64 (sender.(storage_credits) - credits))))
       (u64_le sender.(storage_credits))] "storage_credits_purchased"
    [("account", JString (show_address sender.(address))); ("amount_paid", JString (show_balance amount));
     ("credits", JNumber credits)] []) in
  pure (sender, r).

Definition execute_buy_deploy_credits (sender : Account) (amount : Balance) (credits : Z)
    : node (Account * TransactionResult) :=
  let! sender := lift (debit now amount sender) in
  let sender := sender <| deploy_credits := sat_add u64_max sender.(deploy_credits) credits |> in
  let! r := gets (success_with 300 0
    [MkChange sender.(address) DeployCreditsUpdate (Some (u64_le (wrap64 (sender.(deploy_credits) - credits))))
       (u64_le sender.(deploy_credits))] "deploy_credits_purchased"
    [("account", JString (show_address sender.(address))); ("amount_paid", JString (show_balance amount));
     ("credits", JNumber credits)] []) in
  pure (sender, r).

Definition stake_overflow : EgoError := InvalidTransaction "Stake overflow".

(** The validator a first stake registers. *)
Definition first_stake (addr : Address) (pubkey : PublicKey) (amount : Balance) (commission epoch : Z)
    : ValidatorInfo :=
  MkValidator addr pubkey amount amount 0 commission Active epoch epoch
    (MkValPerformance 0 0 0 0 0 (f64_of 100) (f64_of 100)) (f64_of 1) (f64_of 1) epoch (f64_of 1)
    0 0 0 0 None [] validator_hot_set.

(** The fields of the validator are changed one after the other in place. *)
Definition execute_stake (sender : Account) (amount : Balance) (pubkey : PublicKey)
    (commission : option Z) (lock : Z) : node (Account * TransactionResult) :=
  let! sender := lift (debit now amount sender) in
  let addr := from_public_key pubkey in
  let! v := gets (fun s => s.(validators) !! addr) in
  let! epoch := gets get_current_epoch in
  let! _ :=
    match v with
    | Some v =>
        let! total := found (checked_add v.(total_stake) amount) stake_overflow in
        let v := v <| total_stake := total |> in
        let! _ := modify (set_validator addr v) in
        let! v :=
          if bool_decide (addr = sender.(address))
          then let! own := found (checked_add v.(own_stake) amount) stake_overflow in
               pure (v <| own_stake := own |>)
          else let! del := found (checked_add v.(v_delegated_stake) amount) stake_overflow in
               pure (v <| v_delegated_stake := del |>) in
        modify (set_validator addr (v <| v_last_active_epoch := epoch |>))
    | None =>
        match commission with
        | Some rate =>
            if bool_decide (addr <> sender.(address))
            then raise (InvalidTransaction "Cannot create validator for another address")
            else
              let! _ := check_commission rate in
              if bool_decide (amount < MIN_VALIDATOR_STAKE)
              then raise (InvalidTransaction ("Minimum validator stake is " +:+ pretty MIN_VALIDATOR_STAKE
                                              +:+ " uEGOC"))
              else modify (set_validator addr (first_stake addr pubkey amount rate epoch))
        | None => raise (InvalidTransaction "Cannot create validator for another address")
        end
    end in
  let! r := gets (success_with 800 0 [] "stake"
    [("staker", JString (show_address sender.(address))); ("validator", JString (show_address addr));
     ("amount", JString (show_balance amount)); ("lock_duration", JNumber lock)] []) in
  pure (sender, r).

Definition no_validator : EgoError := InvalidTransaction "Validator does not exist".

Definition execute_unstake (sender : Account) (amount : Balance) (pubkey : PublicKey) (unlock : Z)
    : node (Account * TransactionResult) :=
  let addr := from_public_key pubkey in
  let! v := gets (fun s => s.(validators) !! addr) in
  let! v := found v no_validator in
  if bool_decide (v.(total_stake) < amount) then raise (InsufficientBalance amount v.(total_stake))
  else
    let! total := found (checked_sub v.(total_stake) amount) (InvalidTransaction "Unstake underflow") in
    let v := v <| total_stake := total |> in
    let v := if bool_decide (addr = sender.(address))
             then v <| own_stake := default 0 (checked_sub v.(own_stake) amount) |>
             else v <| v_delegated_stake := default 0 (checked_sub v.(v_delegated_stake) amount) |> in
    let v := if bool_decide (v.(own_stake) < MIN_VALIDATOR_STAKE) then v <| status := Unbonding unlock |> else v in
    let! _ := modify (set_validator addr v) in
    let! sender := lift (credit now amount sender) in
    let! r := gets (success_with 600 0 [] "unstake"
      [("unstaker", JString (show_address sender.(address))); ("validator", JString (show_address addr));
       ("amount", JString (show_balance amount)); ("unlock_epoch", JNumber unlock)] []) in
    pure (sender, r).

Definition execute_delegate (sender : Account) (amount : Balance) (pubkey : PublicKey)
    : node (Account * TransactionResult) :=
  let! sender := lift (debit now amount sender) in
  let addr := from_public_key pubkey in
  let! v := gets (fun s => s.(validators) !! addr) in
  let! v := found v no_validator in
  if bool_decide (v.(status) <> Active)
  then raise (InvalidTransaction "Cannot delegate to inactive validator")
  else
    let! total := found (checked_add v.(total_stake) amount) stake_overflow in
    let v := v <| total_stake := total |> in
    let! _ := modify (set_validator addr v) in
    let! del := found (checked_add v.(v_delegated_stake) amount)
                  (InvalidTransaction "Delegation overflow") in
    let! _ := modify (set_validator addr (v <| v_delegated_stake := del |>)) in
    let! r := gets (success_with 400 0 [] "delegate"
      [("delegator", JString (show_address sender.(address))); ("validator", JString (show_address addr));
       ("amount", JString (show_balance amount))] []) in
    pure (sender, r).

(** The coins a message takes to the other shard. *)
Definition locked_amount (msg : CrossShardMessage) : Balance :=
  match msg with
  | MsgTransfer _ amount => amount
  | MsgContractCall _ _ _ value _ => value
  end.

Definition execute_cross_shard (sender : Account) (tx : Transaction) (target : Z) (message : bytes)
    (n deadline : Z) : node (Account * TransactionResult) :=
  let! msg := found (message_decode message)
                (InvalidTransaction "CrossShard: malformed message payload") in
  let locked := locked_amount msg in
  let! sender := if bool_decide (locked > 0) then lift (debit now locked sender) else pure sender in
  let receipt := MkReceipt tx.(shard_id) target ZERO_HASH tx.(tx_hash) message n deadline [] in
  let! _ := add_cross_shard_receipt receipt in
  let! height := gets block_height in
  pure (sender, MkResult tx.(tx_hash) true None 1500 (len64 message) []
    [MkEvent "cross_shard_initiated" (json_object
       [("from_shard", JNumber tx.(shard_id)); ("to_shard", JNumber target); ("nonce", JNumber n);
        ("deadline", JNumber deadline); ("locked", JNumber locked)]) height 0]
    [receipt] None []).

(** [str::parse] of an unsigned integer of a width: an optional sign and digits. *)
Fixpoint parse_digits (max acc : Z) (s : string) : option Z :=
  match s with
  | EmptyString => Some acc
  | String c s =>
      let d := Z.of_nat (Ascii.nat_of_ascii c) - 48 in
      if bool_decide (0 <= d <= 9) && bool_decide (acc * 10 + d <= max)
      then parse_digits max (acc * 10 + d) s else None
  end.
Definition parse_unsigned (max : Z) (s : string) : option Z :=
  match s with
  | EmptyString => None
  | String c rest =>
      if bool_decide (Ascii.nat_of_ascii c = 43%nat)
      then if bool_decide (rest = EmptyString) then None else parse_digits max 0 rest
      else parse_digits max 0 s
  end.

Definition new_slice (sender : Address) (id : string) (params : gmap string string) : SliceConfig := {|
  sc_slice_id := id;
  slice_type :=
    match params !! "type" with
    | Some t => if bool_decide (t = "urllc") then Urllc
                else if bool_decide (t = "mmtc") then MMtc else EMbb
    | None => EMbb
    end;
  slice_owner := sender; authorized_devices := []; authorized_contracts := [];
  bandwidth_allocation := default 100000000 (b ← params !! "bandwidth"; parse_unsigned u64_max b);
  latency_target_ms := default 50 (l ← params !! "latency"; parse_unsigned u32_max l);
  reliability_target := 99; slice_priority := 5; max_devices := 1000; sc_storage_quota := 1000000000;
  compute_quota := 1000000; slice_status := SliceActive; current_devices := 0;
  current_storage_used := 0; current_bandwidth_used := 0; sc_created_at := now; updated_at := now;
  sc_expires_at := None; billing_account := sender; credits_remaining := 1000000;
|}.

(** [Pause] and [Resume] of a slice, which do nothing when there is none. *)
Definition set_slice_status (sender : Address) (id : string) (st : SliceStatus) : node unit :=
  let! c := gets (fun s => s.(slices) !! id) in
  match c with
  | None => pure tt
  | Some c =>
      if bool_decide (c.(slice_owner) <> sender) then raise (InvalidTransaction "Not slice owner")
      else modify (set_slice id (c <| slice_status := st |>))
  end.

Definition execute_slice_operation (sender : Account) (operation : SliceOperationType) (id : string)
    (params : gmap string string) : node (Account * TransactionResult) :=
  let me := sender.(address) in
  let! _ :=
    match operation with
    | SliceCreate => create_slice (new_slice me id params)
    | SliceAuthorize =>
        let! text := found (params !! "device") (InvalidTransaction "Missing device address") in
        let! device := found (b ← hex_decode text; if bool_decide (length b = 20%nat) then Some b else None)
                         (InvalidTransaction "Invalid device address") in
        authorize_device_for_slice id device
    | SlicePause => set_slice_status me id SlicePaused
    | SliceResume => set_slice_status me id SliceActive
    | SliceDelete =>
        let! c := gets (fun s => s.(slices) !! id) in
        let! _ := match c with
                  | Some c => if bool_decide (c.(slice_owner) <> me)
                              then raise (InvalidTransaction "Not slice owner") else pure tt
                  | None => pure tt
                  end in
        modify (fun s => s <| slices := delete id s.(slices) |>)
    | SliceUpdate | SliceRevoke => pure tt
    end in
  pure (sender, create_success_result ZERO_HASH 2000).

(** ** Transactions *)

(** [ru_limit] times the base fee, less the credits the transaction names. *)
Definition net_fee (tx : Transaction) : Balance :=
  saturating_sub (tx.(ru_limit) * BASE_FEE_PER_RU) tx.(pob_burn_credits).

Definition charge_fee (tx : Transaction) (sender : Account) : node Account :=
  let fee := net_fee tx in
  if bool_decide (fee > 0)
  then
    let! sender := lift (debit now fee sender) in
    let! _ := credit_account burn_address fee in
    pure sender
  else pure sender.

Definition execute_payload (tx : Transaction) (sender : Account) : node (Account * TransactionResult) :=
  match tx.(payload) with
  | Transfer to amount memo stealth => execute_transfer sender to amount stealth memo
  | CreateAccount addr t initial _ _ _ => execute_create_account sender addr t initial
  | UpdateAccount addr updates => execute_update_account sender addr updates
  | StoreData chunk data_size duration data_hash slice credits factor t e envelope =>
      execute_store_data sender chunk data_size duration data_hash slice credits factor t e envelope
  | UpdateTriadPlacement chunk _ placement reason _ => execute_update_triad sender chunk placement reason
  | SubmitProofBatch t proofs _ epoch _ => execute_proof_batch sender t proofs epoch
  | PoStResponse challenge proofs _ latencies => execute_post_response sender challenge proofs latencies
  | ClaimRewards node_addr epoch buckets _ multiplier _ =>
      execute_claim_rewards sender node_addr epoch buckets multiplier
  | BuyStorageCredits amount credits _ => execute_buy_storage_credits sender amount credits
  | BuyDeployCredits amount credits _ => execute_buy_deploy_credits sender amount credits
  | Stake amount pubkey lock commission => execute_stake sender amount pubkey commission lock
  | Unstake amount pubkey unlock => execute_unstake sender amount pubkey unlock
  | Delegate amount pubkey => execute_delegate sender amount pubkey
  | UpdateValidatorMetrics v _ uptime degree relay sessions demand puc =>
      let! _ := update_validator_metrics v uptime degree relay sessions demand puc in
      pure (sender, create_success_result tx.(tx_hash) 1000)
  | CrossShard target message _ deadline n => execute_cross_shard sender tx target message n deadline
  | UpdateDRS node_addr epoch uptime _ pass poc _ _ final _ =>
      let score := f64_add (f64_add (f64_mul uptime (f64_lit 25 100)) (f64_mul pass (f64_lit 35 100)))
                     (f64_mul poc (f64_lit 40 100)) in
      let! _ := update_validator_drs node_addr score final epoch in
      pure (sender, create_success_result tx.(tx_hash) 1000)
  | SliceOperation operation id params => execute_slice_operation sender operation id params
  | _ => pure (sender, create_success_result tx.(tx_hash) (estimate_resource_units tx))
  end.

Definition count_nonce (tx : Transaction) (sender : Account) : Account :=
  if is_cross_shard tx then increment_shard_nonce tx.(shard_id) sender else increment_nonce now sender.

Definition execute_transaction (tx : Transaction) : node TransactionResult :=
  let! a := gets (get_account tx.(from)) in
  let! sender := found a (AccountNotFound (show_address tx.(from))) in
  let! _ := lift (validate_against_account now tx sender) in
  if bool_decide (tx.(ru_estimate) > tx.(ru_limit))
  then raise (InvalidTransaction "RU estimate exceeds limit")
  else
    let! sender := charge_fee tx (count_nonce tx sender) in
    let! '(sender, result) := execute_payload tx sender in
    let! _ := modify (set_account sender) in
    let! _ := modify update_stats in
    pure result.

(** ** Roots, pruning, snapshots, health *)

Definition root_of {K A} `{Countable K} (encode : A -> option bytes) (m : gmap K A) : Hash :=
  merkle_root (hash_data <$> omap (fun kv => encode kv.2) (hash_iter m)).

Definition compute_state_root (s : StateManager) : Hash := root_of bincode_account s.(accounts).
Definition compute_storage_root (s : StateManager) : Hash := root_of bincode_entry s.(storage).
Definition update_all_roots (s : StateManager) : StateManager := s <| sm_state_root := compute_state_root s |>.

(** The setters of the other roots. *)
Definition set_tx_root (h : Hash) (s : StateManager) : StateManager := s <| sm_tx_root := h |>.
Definition set_receipts_root (h : Hash) (s : StateManager) : StateManager := s <| receipts_root := h |>.
Definition set_events_root_post (h : Hash) (s : StateManager) : StateManager := s <| events_root_post := h |>.
Definition set_events_root_poc (h : Hash) (s : StateManager) : StateManager := s <| events_root_poc := h |>.
Definition set_rollup_root (h : Hash) (s : StateManager) : StateManager := s <| rollup_root := h |>.
Definition set_da_root (h : Hash) (s : StateManager) : StateManager := s <| sm_da_root := h |>.

(** [None] is the panic of a remainder by zero. *)
Definition should_prune (s : StateManager) : option bool :=
  let c := s.(sm_pruning_config) in
  if negb c.(pc_enabled) then Some false
  else if bool_decide (c.(pc_prune_interval_epochs) = 0) then None
  else Some (bool_decide (get_current_epoch s mod c.(pc_prune_interval_epochs) = 0)).

Definition should_create_snapshot (s : StateManager) : option bool :=
  let c := s.(sm_pruning_config) in
  if negb c.(pc_keep_state_snapshots) then Some false
  else if bool_decide (c.(pc_snapshot_interval_epochs) = 0) then None
  else Some (bool_decide (get_current_epoch s mod c.(pc_snapshot_interval_epochs) = 0)).

(** The nonces of a pair of shards are dropped once there are more than 100000. *)
Definition drop_old_nonces (s : StateManager) : StateManager :=
  s <| processed_receipt_nonces :=
         filter (fun kv => (size kv.2 <= 100000)%nat) s.(processed_receipt_nonces) |>.

Definition prune_old_data (current_epoch : Z) : node PruningReport := fun s =>
  let c := s.(sm_pruning_config) in
  if negb c.(pc_enabled) then (Done (MkReport 0 0 0 0 0), s)
  else
    let '(chunks, s) :=
      if c.(pc_prune_expired_storage)
      then match prune_expired_storage s.(block_height) s with
           | (Done l, s) => (len64 l, s)
           | (_, s) => (0, s)
           end
      else (0, s) in
    let '(receipts, s) :=
      if c.(prune_old_receipts)
      then let '(l, s) := prune_expired_receipts current_epoch s in (len64 l, s)
      else (0, s) in
    (Done (MkReport chunks receipts 0 0 0), drop_old_nonces s).

Definition create_state_snapshot (s : StateManager) : StateSnapshot * StateManager :=
  let '(st, s') := get_stats s in
  (MkSnapshot (get_current_epoch s) s.(block_height) s.(sm_state_root) s.(sm_tx_root) s.(receipts_root)
     s.(events_root_post) s.(events_root_poc) s.(rollup_root) s.(sm_da_root) now
     (Z.of_nat (size s.(accounts))) (wrap32 (Z.of_nat (size s.(validators))))
     (Z.of_nat (size s.(storage))) st, s').

(** [mem::discriminant] of an account type. *)
Definition type_tag (t : AccountType) : Z :=
  match t with
  | EOA => 0
  | Device _ _ => 1
  | Contract _ _ => 2
  | System _ => 3
  | Validator _ _ _ => 4
  | StorageProvider _ _ => 5
  | Hybrid _ => 6
  end.

Definition get_accounts_by_type (t : AccountType) (s : StateManager) : list Account :=
  filter (fun a => type_tag a.(account_type) = type_tag t) (hash_iter s.(accounts)).*2.

Definition get_storage_providers (s : StateManager) : list Account :=
  filter (fun a => is_storage_provider a = true) (hash_iter s.(accounts)).*2.

Definition get_sectors_by_node (a : Address) (s : StateManager) : list StorageEntry :=
  filter (fun e => e.(se_triad).(ti_primary).(tm_node_id) = a
                   \/ e.(se_triad).(ti_replica_a).(tm_node_id) = a
                   \/ e.(se_triad).(ti_replica_b).(tm_node_id) = a) (hash_iter s.(storage)).*2.

Definition get_failing_sectors (threshold : Z) (s : StateManager) : list StorageEntry :=
  filter (fun e => e.(verification_failures) >= threshold) (hash_iter s.(storage)).*2.

Definition get_slices_by_owner (a : Address) (s : StateManager) : list SliceConfig :=
  filter (fun c => c.(slice_owner) = a) (hash_iter s.(slices)).*2.

Definition get_pending_receipts_for_shard (dst : Z) (s : StateManager) : list PendingReceipt :=
  filter (fun p => p.(receipt).(dst_shard) = dst) (hash_iter s.(pending_receipts)).*2.

Definition validate_state_transition (from_root to_root : Hash) (s : StateManager) : bool :=
  bool_decide (from_root <> to_root) || bool_decide (s.(accounts) = ∅).

Definition member_healthy (m : TriadMember) : bool :=
  bool_decide (m.(tm_health_score) > 50000) && bool_decide (m.(tm_consecutive_misses) < 3).

Definition verify_triad_health (chunk : Hash) : node TriadHealthReport :=
  let! e := gets (fun s => s.(storage) !! chunk) in
  let! entry := found e not_found in
  let p := member_healthy entry.(se_triad).(ti_primary) in
  let a := member_healthy entry.(se_triad).(ti_replica_a) in
  let b := member_healthy entry.(se_triad).(ti_replica_b) in
  let healthy := len64 (filter (fun h => h = true) [p; a; b]) in
  pure (MkHealthReport chunk p a b healthy (bool_decide (healthy < 2)) (negb p && (a || b))
    entry.(se_triad).(ti_diversity_score) entry.(se_last_audit_epoch)).

End State.

(** ** Persistence *)

(** The two files of the directory, [None] when there is none. *)
Record Disk : Type := MkDisk {
  accounts_json : option bytes;
  validators_json : option bytes;
}.

(** What the operating system answers: whether the directory can be made, whether a
    write succeeds and what the file holds then, whether a file can be read. *)
Record Os : Type := MkOs {
  make_dir : bool;
  write : string -> bytes -> bool * option bytes;
  can_read : string -> bool;
}.

(** [serde_json]. *)
Class DiskPrims : Type := {
  accounts_to_json : list Account -> option bytes;
  validators_to_json : list ValidatorInfo -> option bytes;
  accounts_of_json : bytes -> option (list Account);
  validators_of_json : bytes -> option (list ValidatorInfo);
}.

Section Persistence.
Context `{HashOrder} `{DiskPrims}.

(** Whether it returns [Ok], and the files it leaves. *)
Definition flush_to_disk (os : Os) (s : StateManager) (d : Disk) : bool * Disk :=
  if negb os.(make_dir) then (false, d)
  else
    match accounts_to_json (hash_iter s.(accounts)).*2 with
    | None => (false, d)
    | Some json =>
        let '(ok, file) := os.(write) "accounts.json" json in
        let d := d <| accounts_json := file |> in
        if negb ok then (false, d)
        else
          match validators_to_json (hash_iter s.(validators)).*2 with
          | None => (false, d)
          | Some json =>
              let '(ok, file) := os.(write) "validators.json" json in
              (ok, d <| validators_json := file |>)
          end
    end.

Definition load_accounts (l : list Account) (s : StateManager) : StateManager :=
  foldl (fun s a => s <| accounts := <[a.(address) := a]> s.(accounts) |>) s l.
Definition load_validators (l : list ValidatorInfo) (s : StateManager) : StateManager :=
  foldl (fun s v => s <| validators := <[v.(v_address) := v]> s.(validators) |>) s l.

(** Whether it returns [Ok], and the state it leaves. *)
Definition load_from_disk (os : Os) (d : Disk) (s : StateManager) : bool * StateManager :=
  let '(ok, s) :=
    match d.(accounts_json) with
    | None => (true, s)
    | Some json =>
        if os.(can_read) "accounts.json"
        then match accounts_of_json json with
             | Some l => (true, load_accounts l s)
             | None => (false, s)
             end
        else (false, s)
    end in
  if negb ok then (false, s)
  else
    match d.(validators_json) with
    | None => (true, s)
    | Some json =>
        if os.(can_read) "validators.json"
        then match validators_of_json json with
             | Some l => (true, load_validators l s)
             | None => (false, s)
             end
        else (false, s)
    end.
End Persistence.
