(* ===== verification/NodeFacts.v ===== *)
(** * Facts about the account state

    Rules for computations that keep their state when they fail ([wp], [keeps]),
    sums over maps, and for every operation of [NodeState]: which accounts keep
    their identity ([Grows]) and what happens to the coins ([wealth]). *)
From Stdlib Require Import Floats.SpecFloat.
From coqutil Require Import Datatypes.RecordSettersUsingExistingGetters.
From S2P Require Import Prelude Crypto Blocks NodeAccount NodeTx NodeState.
Import RecordSetNotations1.
Local Open Scope Z_scope.
Local Open Scope ego_scope.

(** ** Computations *)

(** [Q] holds of a value and the state it comes with, [E] of the state an error
    or a panic leaves. *)
Definition wp {A} (m : node A) (Q : A -> StateManager -> Prop) (E : StateManager -> Prop)
    (s : StateManager) : Prop :=
  match m s with
  | (Done a, s) => Q a s
  | (_, s) => E s
  end.

Section Wp.
Context {A B : Type}.
Implicit Types (E : StateManager -> Prop).

Lemma wp_bind (m : node A) (k : A -> node B) Q E s :
  wp m (fun a => wp (k a) Q E) E s -> wp (bind m k) Q E s.
Proof. unfold wp, bind. by destruct (m s) as [[a|e|] s']. Qed.

(** When nothing is said of failures, a value may be anything. *)
Lemma wp_bind_any (m : node A) (k : A -> node B) Q s :
  (forall a s', wp (k a) Q (fun _ => True) s') -> wp (bind m k) Q (fun _ => True) s.
Proof. intros Hk. unfold wp, bind in *. by destruct (m s) as [[a|e|] s']; [apply Hk|..]. Qed.

Lemma wp_pure (a : A) Q E s : Q a s -> wp (pure a) Q E s.
Proof. done. Qed.

Lemma wp_raise e Q E s : E s -> wp (raise (A := A) e) Q E s.
Proof. done. Qed.

Lemma wp_panic Q E s : E s -> wp (panic (A := A)) Q E s.
Proof. done. Qed.

Lemma wp_gets (f : StateManager -> A) Q E s : Q (f s) s -> wp (gets f) Q E s.
Proof. done. Qed.

Lemma wp_modify f Q E s : Q tt (f s) -> wp (modify f) Q E s.
Proof. done. Qed.

Lemma wp_lift (r : result A EgoError) Q E s :
  (forall a, r = Ok a -> Q a s) -> E s -> wp (lift r) Q E s.
Proof. destruct r as [a|e]; unfold wp; simpl; auto. Qed.

Lemma wp_found (o : option A) e Q E s :
  (forall a, o = Some a -> Q a s) -> E s -> wp (found o e) Q E s.
Proof. destruct o as [a|]; unfold wp; simpl; auto. Qed.

Lemma wp_mono (m : node A) (Q Q' : A -> StateManager -> Prop) E E' s :
  wp m Q E s -> (forall a s', Q a s' -> Q' a s') -> (forall s', E s' -> E' s') -> wp m Q' E' s.
Proof. intros Hw HQ HE. unfold wp in *. destruct (m s) as [[a|e|] s2]; auto. Qed.

Lemma wp_Done (m : node A) Q E s a s' : wp m Q E s -> m s = (Done a, s') -> Q a s'.
Proof. unfold wp. intros Hw Hm. by rewrite Hm in Hw. Qed.

Lemma wp_Fail (m : node A) Q E s e s' : wp m Q E s -> m s = (Fail e, s') -> E s'.
Proof. unfold wp. intros Hw Hm. by rewrite Hm in Hw. Qed.
End Wp.

Lemma wp_catch (m : node unit) (Q : bool -> StateManager -> Prop) E s :
  wp m (fun _ s' => Q true s') (fun s' => Q false s' /\ E s') s -> wp (catch m) Q E s.
Proof. unfold wp, catch. destruct (m s) as [[a|e|] s']; naive_solver. Qed.

(** One step of symbolic execution. *)
Ltac wp_step :=
  lazymatch goal with
  | |- wp (bind _ _) _ _ _ => apply wp_bind
  | |- wp (pure _) _ _ _ => apply wp_pure
  | |- wp (raise _) _ _ _ => apply wp_raise
  | |- wp panic _ _ _ => apply wp_panic
  | |- wp (gets _) _ _ _ => apply wp_gets
  | |- wp (modify _) _ _ _ => apply wp_modify
  | |- wp (lift _) _ _ _ => apply wp_lift; [let H := fresh "Hok" in intros ? H|]
  | |- wp (found _ _) _ _ _ => apply wp_found; [let H := fresh "Hfound" in intros ? H|]
  | |- wp (if ?b then _ else _) _ _ _ => let H := fresh "Hb" in destruct b eqn:H
  | |- wp (match ?o with Some _ => _ | None => _ end) _ _ _ => let H := fresh "Ho" in destruct o eqn:H
  | |- wp (let '(_, _) := ?p in _) _ _ _ => destruct p
  end; cbv beta.
Ltac wp_run := repeat wp_step.

(** ** Sums over maps *)

Definition msum {K A} `{Countable K} (f : A -> Z) (m : gmap K A) : Z :=
  map_fold (fun _ a acc => f a + acc) 0 m.

Section Msum.
Context {K A : Type} `{Countable K} (f : A -> Z).
Implicit Types m : gmap K A.

Lemma msum_insert_new m k a : m !! k = None -> msum f (<[k := a]> m) = f a + msum f m.
Proof. intros Hk. unfold msum. rewrite map_fold_insert_L; [done| |done]. intros; simpl; lia. Qed.

Lemma msum_delete m k a : m !! k = Some a -> msum f m = f a + msum f (delete k m).
Proof.
  intros Hk. rewrite <-(insert_delete_id m k a) at 1 by done.
  by rewrite msum_insert_new by apply lookup_delete_eq.
Qed.

(** What an insertion replaces leaves the sum. *)
Lemma msum_insert m k a : msum f (<[k := a]> m) = msum f m - from_option f 0 (m !! k) + f a.
Proof.
  destruct (m !! k) as [b|] eqn:Hk; simpl.
  - rewrite <-insert_delete_eq, msum_insert_new by apply lookup_delete_eq.
    rewrite (msum_delete m k b) by done. lia.
  - rewrite msum_insert_new by done. lia.
Qed.

Lemma node_msum_nonneg m : map_Forall (fun _ a => 0 <= f a) m -> 0 <= msum f m.
Proof.
  intros Hm. induction m as [|k a m Hk IH] using map_ind; [done|].
  rewrite map_Forall_insert in Hm by done. rewrite msum_insert_new by done. destruct Hm as [Ha Hm]. specialize (IH Hm). lia.
Qed.

Lemma msum_lookup_le m k a :
  map_Forall (fun _ a => 0 <= f a) m -> m !! k = Some a -> f a <= msum f m.
Proof.
  intros Hm Hk. rewrite (msum_delete m k a) by done.
  pose proof (node_msum_nonneg (delete k m) ltac:(by apply map_Forall_delete)). lia.
Qed.

Lemma msum_list m : msum f m = zsum (f <$> (map_to_list m).*2).
Proof.
  induction m as [|k a m Hk IH] using map_ind; [done|].
  rewrite msum_insert_new, IH by done.
  rewrite (zsum_perm (f <$> (map_to_list (<[k := a]> m)).*2) (f a :: (f <$> (map_to_list m).*2))); [done|].
  by rewrite map_to_list_insert by done.
Qed.
End Msum.

(** ** Identity of accounts *)

(** What no operation changes of an account but [execute_transaction] of its own:
    the address, the keys, the nonces and the type. *)
Record same_id (a b : Account) : Prop := MkSameId {
  id_address : b.(address) = a.(address);
  id_key : b.(dilithium_pk) = a.(dilithium_pk);
  id_nonce : b.(nonce) = a.(nonce);
  id_shards : b.(per_shard_nonces) = a.(per_shard_nonces);
  id_type : b.(account_type) = a.(account_type);
  id_provider : is_Some a.(storage_provider_info) -> is_Some b.(storage_provider_info);
}.

#[export] Instance same_id_preorder : PreOrder same_id.
Proof. split; [by split|]. intros a b c [] []. split; try congruence. auto. Qed.

(** What a new account starts with. *)
Record starts (k : Address) (a : Account) : Prop := MkStarts {
  st_address : a.(address) = k;
  st_key : a.(dilithium_pk) = repeat 0 1312;
  st_nonce : a.(nonce) = 0;
  st_shards : a.(per_shard_nonces) = Some ∅;
}.

Lemma starts_same k a b : starts k a -> same_id a b -> starts k b.
Proof. intros [] []. split; congruence. Qed.

(** Balances fit the 128 bits they have. *)
Definition ranged (s : StateManager) : Prop := map_Forall (fun _ a => in_u128 a.(balance)) s.(accounts).

(** Every account stays, keeps its identity and loses no coins; one that is new
    starts afresh.  Numbers stay in their range. *)
Record Grows (s s' : StateManager) : Prop := MkGrows {
  grows_old : forall k a, s.(accounts) !! k = Some a ->
    exists a', s'.(accounts) !! k = Some a' /\ same_id a a' /\ a.(balance) <= a'.(balance);
  grows_new : forall k a', s.(accounts) !! k = None -> s'.(accounts) !! k = Some a' -> starts k a';
  grows_range : ranged s -> ranged s';
  grows_pool : 0 <= s.(reward_pool_uegoc) -> 0 <= s'.(reward_pool_uegoc);
}.

#[export] Instance Grows_preorder : PreOrder Grows.
Proof.
  split.
  - intros s. split; [|congruence|done|done]. intros k a Ha. exists a. split_and!; [done|reflexivity|lia].
  - intros s1 s2 s3 [O1 N1 R1 P1] [O2 N2 R2 P2]. split; [..|by auto|by auto].
    + intros k a Ha. destruct (O1 k a Ha) as (b & Hb & Hab & ?).
      destruct (O2 k b Hb) as (c & Hc & Hbc & ?). exists c. split_and!; [done|by etrans|lia].
    + intros k c Hk Hc. destruct (s2.(accounts) !! k) as [b|] eqn:Hb; [|by eapply N2].
      destruct (O2 k b Hb) as (c' & Hc' & Hbc & _). simplify_eq. eapply starts_same; eauto.
Qed.

(** A state with the same accounts. *)
Lemma grows_same s s' :
  s'.(accounts) = s.(accounts) -> s'.(reward_pool_uegoc) = s.(reward_pool_uegoc) -> Grows s s'.
Proof.
  intros He Hp. split; unfold ranged; rewrite ?He, ?Hp; [|congruence|done|done].
  intros k a Ha. exists a. split_and!; [done|reflexivity|lia].
Qed.

Lemma grows_insert s s' k a :
  s'.(accounts) = <[k := a]> s.(accounts) -> s'.(reward_pool_uegoc) = s.(reward_pool_uegoc) ->
  match s.(accounts) !! k with
  | Some b => same_id b a /\ b.(balance) <= a.(balance)
  | None => starts k a
  end ->
  (ranged s -> in_u128 a.(balance)) -> Grows s s'.
Proof.
  intros He Hp Hk Hr. split; unfold ranged; rewrite ?He, ?Hp; [..|done].
  - intros j b Hj. destruct (decide (j = k)) as [->|Hn].
    + rewrite lookup_insert_eq, Hj in *. eauto.
    + rewrite lookup_insert_ne by done. exists b. split_and!; [done|reflexivity|lia].
  - intros j b Hj. destruct (decide (j = k)) as [->|Hn].
    + rewrite lookup_insert_eq, Hj in *. by intros [= <-].
    + rewrite lookup_insert_ne by done. congruence.
  - intros Hs. apply map_Forall_insert_2; [by apply Hr|done].
Qed.

(** Accounts are stored under their own address. *)
Definition keyed (s : StateManager) : Prop := map_Forall (fun k a => a.(address) = k) s.(accounts).

Lemma grows_keyed s s' : Grows s s' -> keyed s -> keyed s'.
Proof.
  intros [Ho Hn _ _] Hk k a Ha. destruct (s.(accounts) !! k) as [b|] eqn:Hb.
  - destruct (Ho k b Hb) as (a' & Ha' & Hid & _). simplify_eq.
    rewrite (id_address _ _ Hid). by apply Hk.
  - by apply (Hn k a).
Qed.

(** ** Account methods keep the identity *)

Lemma debit_Ok now amount a a' :
  debit now amount a = Ok a' ->
  amount <= a.(balance) /\ a' = a <| balance := a.(balance) - amount |> <| last_activity := now |>.
Proof.
  unfold debit, can_spend, checked_sub. case_bool_decide; simpl; [|done].
  case_bool_decide; simpl; [|done]. intros [= <-]. auto.
Qed.

Lemma credit_Ok now amount a a' :
  credit now amount a = Ok a' ->
  a.(balance) + amount <= u128_max
  /\ a' = a <| balance := a.(balance) + amount |> <| last_activity := now |>.
Proof.
  unfold credit, checked_add. case_bool_decide; simpl; [|done]. intros [= <-]. auto.
Qed.

Lemma record_post_same `{NodePrims} now ok latency epoch a a' :
  record_post_proof now ok latency epoch a = Some a' -> same_id a a' /\ a'.(balance) = a.(balance).
Proof.
  unfold record_post_proof. intros Hr. apply bind_Some in Hr as (p & Hp & [= <-]).
  split; [|done]. split; try done. simpl. intros [q Hq]. rewrite Hq in Hp.
  apply bind_Some in Hp as (st & _ & [= <-]). eauto.
Qed.

Lemma authorize_same now slice a :
  same_id a (authorize_slice now slice a) /\ (authorize_slice now slice a).(balance) = a.(balance).
Proof. unfold authorize_slice. case_bool_decide; split; done. Qed.

Lemma updates_same now u a :
  same_id a (apply_updates now u a) /\ (apply_updates now u a).(balance) = a.(balance).
Proof.
  unfold apply_updates.
  set (P := fun b => same_id a b /\ b.(balance) = a.(balance)).
  assert (forall b b' : Account, P b -> same_id b b' -> b'.(balance) = b.(balance) -> P b') as HP.
  { intros b b' [? ?] ? ?. split; [by etrans|congruence]. }
  set (b0 := match u.(up_storage_quota) with Some _ => _ | None => _ end).
  assert (P b0) as H0 by (subst b0; destruct (up_storage_quota u); done). clearbody b0.
  set (b1 := foldl _ b0 _).
  assert (P b1) as H1.
  { subst b1. revert b0 H0. induction (add_slices u) as [|x l IH]; intros b0 H0; [done|].
    simpl. apply IH. by eapply HP; [done|apply authorize_same..]. }
  clearbody b1. set (b2 := foldl _ b1 _).
  assert (P b2) as H2.
  { subst b2. clear H0. revert b1 H1. induction (remove_slices u) as [|x l IH]; intros b1 H1; [done|].
    simpl. apply IH. by eapply HP. }
  clearbody b2. destruct (up_device_capabilities u); [|done]. by eapply HP.
Qed.

(** ** Coins *)

(** All coins: balances, stakes and rewards not yet paid. *)
Definition coins (s : StateManager) : Z :=
  msum balance s.(accounts) + msum total_stake s.(validators) + s.(reward_pool_uegoc).

(** The coins once the sender's copy is stored. *)
Definition wealth (me : Account) (s : StateManager) : Z := coins (set_account me s).

(** Accounts keep their identity and their balance. *)
Definition Calm (s s' : StateManager) : Prop :=
  Grows s s' /\ balance <$> s'.(accounts) = balance <$> s.(accounts).

(** And stakes and the pool of rewards stay as they are. *)
Definition Quiet (s s' : StateManager) : Prop :=
  Calm s s' /\ total_stake <$> s'.(validators) = total_stake <$> s.(validators)
  /\ s'.(reward_pool_uegoc) = s.(reward_pool_uegoc).

#[export] Instance Calm_preorder : PreOrder Calm.
Proof.
  split; [by intros s|]. intros s1 s2 s3 [G1 E1] [G2 E2]. split; [by etrans|congruence].
Qed.
#[export] Instance Quiet_preorder : PreOrder Quiet.
Proof.
  split; [by intros s|]. intros s1 s2 s3 (C1 & V1 & P1) (C2 & V2 & P2).
  split; [by etrans|]. split; congruence.
Qed.

Lemma msum_fmap {K A} `{Countable K} (f : A -> Z) (m m' : gmap K A) :
  f <$> m' = f <$> m -> msum f m' = msum f m.
Proof.
  assert (forall m : gmap K A, msum f m = msum (fun x => x) (f <$> m)) as Hf.
  { intros n. unfold msum. by rewrite map_fold_fmap. }
  intros He. by rewrite (Hf m'), (Hf m), He.
Qed.

Lemma fmap_lookup_eq {K A} `{Countable K} (f : A -> Z) (m m' : gmap K A) k :
  f <$> m' = f <$> m -> from_option f 0 (m' !! k) = from_option f 0 (m !! k).
Proof.
  intros He. pose proof (f_equal (fun n => n !! k) He) as Hk. rewrite !lookup_fmap in Hk.
  by destruct (m' !! k), (m !! k); simplify_eq/=.
Qed.

(** The coins with the sender stored, from the coins without. *)
Lemma wealth_eq me s :
  wealth me s = coins s - from_option balance 0 (s.(accounts) !! me.(address)) + me.(balance).
Proof. unfold wealth, coins, set_account. simpl. rewrite msum_insert. lia. Qed.

Lemma quiet_coins s s' : Quiet s s' -> coins s' = coins s.
Proof.
  intros ((_ & Hb) & Hv & Hp). unfold coins. by rewrite (msum_fmap _ _ _ Hb), (msum_fmap _ _ _ Hv), Hp.
Qed.

Lemma quiet_wealth me s s' : Quiet s s' -> wealth me s' = wealth me s.
Proof.
  intros Hq. rewrite !wealth_eq, (quiet_coins s s') by done.
  destruct Hq as ((_ & Hb) & _). by rewrite (fmap_lookup_eq _ _ _ me.(address) Hb).
Qed.

(** A computation whose states are related, however it ends. *)
Definition keeps (R : StateManager -> StateManager -> Prop) {A} (m : node A) : Prop :=
  forall s, R s (m s).2.

Section Keeps.
Context (R : StateManager -> StateManager -> Prop) `{!PreOrder R}.

Lemma keeps_bind {A B} (m : node A) (k : A -> node B) :
  keeps R m -> (forall a, keeps R (k a)) -> keeps R (bind m k).
Proof.
  intros Hm Hk s. specialize (Hm s). unfold bind. destruct (m s) as [[a|e|] s']; [|done..].
  etrans; [exact Hm|apply Hk].
Qed.
Lemma keeps_pure {A} (a : A) : keeps R (pure a).
Proof. intros s. reflexivity. Qed.
Lemma keeps_raise {A} e : keeps R (raise (A := A) e).
Proof. intros s. reflexivity. Qed.
Lemma keeps_panic {A} : keeps R (panic (A := A)).
Proof. intros s. reflexivity. Qed.
Lemma keeps_gets {A} (f : StateManager -> A) : keeps R (gets f).
Proof. intros s. reflexivity. Qed.
Lemma keeps_lift {A} (r : result A EgoError) : keeps R (lift r).
Proof. intros s. by destruct r. Qed.
Lemma keeps_found {A} (o : option A) e : keeps R (found o e).
Proof. apply keeps_lift. Qed.
Lemma keeps_modify f : (forall s, R s (f s)) -> keeps R (modify f).
Proof. done. Qed.
Lemma keeps_catch m : keeps R m -> keeps R (catch m).
Proof. intros Hm s. specialize (Hm s). unfold catch. by destruct (m s) as [[a|e|] s']. Qed.

Lemma keeps_wp {A} (m : node A) s : keeps R m -> wp m (fun _ => R s) (R s) s.
Proof. intros Hm. specialize (Hm s). unfold wp. by destruct (m s) as [[a|e|] s']. Qed.

Lemma wp_keeps {A} (m : node A) : (forall s, wp m (fun _ => R s) (R s) s) -> keeps R m.
Proof. intros Hm s. specialize (Hm s). unfold wp in Hm. by destruct (m s) as [[a|e|] s']. Qed.

(** A read whose value the rest depends on. *)
Lemma keeps_read {A B} (f : StateManager -> A) (k : A -> node B) :
  (forall s, R s (k (f s) s).2) -> keeps R (bind (gets f) k).
Proof. done. Qed.
End Keeps.

Abbreviation quiet := (keeps Quiet).

(** Changes that touch no account and no coin. *)
Lemma quiet_entry chunk e s : Quiet s (set_entry chunk e s).
Proof. split; [|done]. split; [by apply grows_same|done]. Qed.
Lemma quiet_slice id c s : Quiet s (set_slice id c s).
Proof. split; [|done]. split; [by apply grows_same|done]. Qed.

Lemma fmap_insert_same {K A} `{Countable K} (f : A -> Z) (m : gmap K A) k a b :
  m !! k = Some b -> f a = f b -> f <$> <[k := a]> m = f <$> m.
Proof. intros Hk He. rewrite fmap_insert, He. apply insert_id. by rewrite lookup_fmap, Hk. Qed.

Lemma quiet_account k a b s :
  s.(accounts) !! k = Some b -> same_id b a -> a.(balance) = b.(balance) ->
  Quiet s (s <| accounts := <[k := a]> s.(accounts) |>).
Proof.
  intros Hk Hid Hb. split; [|done]. split.
  - eapply grows_insert; [done|done|rewrite Hk; split; [done|lia]|]. intros Hs. rewrite Hb. by apply (Hs k).
  - by eapply fmap_insert_same.
Qed.

Lemma quiet_validator k v w s :
  s.(validators) !! k = Some w -> v.(total_stake) = w.(total_stake) -> Quiet s (set_validator k v s).
Proof.
  intros Hk Hv. split; [split; [by apply grows_same|done]|]. split; [|done].
  by eapply fmap_insert_same.
Qed.

Lemma quiet_then_entry s s' chunk e : Quiet s s' -> Quiet s (set_entry chunk e s').
Proof. intros Hq. etrans; [exact Hq|apply quiet_entry]. Qed.

(** A chain of changes of entries, and no change at all. *)
Ltac quiet_entries :=
  repeat lazymatch goal with |- Quiet _ (set_entry _ _ _) => apply quiet_then_entry end;
  lazymatch goal with |- Quiet ?s ?s => reflexivity end.

Create HintDb node discriminated.
#[export] Hint Resolve quiet_entry quiet_slice : node.
#[export] Hint Extern 1 (keeps _ (pure _)) => apply keeps_pure; exact _ : node.
#[export] Hint Extern 1 (keeps _ (raise _)) => apply keeps_raise; exact _ : node.
#[export] Hint Extern 1 (keeps _ panic) => apply keeps_panic; exact _ : node.
#[export] Hint Extern 1 (keeps _ (gets _)) => apply keeps_gets; exact _ : node.
#[export] Hint Extern 1 (keeps _ (lift _)) => apply keeps_lift; exact _ : node.
#[export] Hint Extern 1 (keeps _ (found _ _)) => apply keeps_found; exact _ : node.
#[export] Hint Extern 2 (keeps _ (bind _ _)) => apply keeps_bind; [exact _| |intros ?; cbv beta] : node.
#[export] Hint Extern 2 (keeps _ (modify _)) => apply keeps_modify; intros ? : node.
#[export] Hint Extern 2 (keeps _ (catch _)) => apply keeps_catch : node.
#[export] Hint Extern 2 (keeps _ (if ?b then _ else _)) => destruct b : node.
#[export] Hint Extern 2 (keeps _ (match ?o with Some _ => _ | None => _ end)) => destruct o : node.

(** ** Operations that move no coins *)

Section Ops.
Context `{CryptoPrims} `{NodePrims} `{TxPrims} `{EventPrims} `{HashOrder}.
Context (now : Timestamp) (elapsed : nat -> Z).

Lemma quiet_check_member m : quiet (check_member m).
Proof. unfold check_member. auto 10 with node. Qed.

Lemma quiet_register_entry e : quiet (register_storage_entry e).
Proof.
  unfold register_storage_entry. pose proof quiet_check_member. auto 20 with node.
Qed.

Lemma quiet_slice_usage id x y : quiet (update_slice_usage now id x y).
Proof. unfold update_slice_usage. auto 10 with node. Qed.

Lemma quiet_post_result chunk a ok latency epoch : quiet (update_post_result now chunk a ok latency epoch).
Proof.
  apply wp_keeps. intros s. unfold update_post_result. wp_run; try quiet_entries.
  match goal with Hr : record_post_proof _ _ _ _ _ = _ |- _ => apply record_post_same in Hr as [Hid Hb] end.
  etrans; [|by eapply quiet_account]. quiet_entries.
Qed.

Lemma quiet_proof_batch i a t epoch proofs : quiet (proof_batch_loop now elapsed i a t epoch proofs).
Proof.
  revert i. induction proofs as [|p proofs IH]; intros i; simpl; [auto with node|].
  pose proof quiet_post_result. destruct t; auto 10 with node.
Qed.

Lemma quiet_post_response i a latencies proofs : quiet (post_response_loop now i a latencies proofs).
Proof.
  revert i. induction proofs as [|p proofs IH]; intros i; simpl; [auto with node|].
  pose proof quiet_post_result. auto 10 with node.
Qed.

Lemma quiet_metrics a u d r i m p : quiet (update_validator_metrics a u d r i m p).
Proof.
  apply wp_keeps. intros s. unfold update_validator_metrics, validator_or_err. wp_run; [|reflexivity].
  by eapply quiet_validator.
Qed.

Lemma quiet_drs a score mult epoch : quiet (update_validator_drs now a score mult epoch).
Proof.
  apply wp_keeps. intros s. unfold update_validator_drs, validator_or_err. wp_run; [|reflexivity].
  destruct (get_account a _) as [b|] eqn:Hb; [|by eapply quiet_validator].
  etrans; [|by eapply quiet_account]. by eapply quiet_validator.
Qed.

Lemma quiet_create_slice c : quiet (create_slice c).
Proof. unfold create_slice. auto 10 with node. Qed.

Lemma quiet_authorize id d : quiet (authorize_device_for_slice now id d).
Proof.
  apply wp_keeps. intros s. unfold authorize_device_for_slice. wp_run; try reflexivity.
  etrans; [apply quiet_slice|]. destruct (get_account d _) as [b|] eqn:Ha; [|reflexivity].
  by eapply quiet_account; [done|apply authorize_same..].
Qed.

Lemma quiet_slice_status a id st : quiet (set_slice_status a id st).
Proof. unfold set_slice_status. auto 10 with node. Qed.

Lemma quiet_add_receipt r : quiet (add_cross_shard_receipt now r).
Proof.
  intros s. unfold add_cross_shard_receipt.
  repeat match goal with |- context [if ?b then _ else _] => destruct b; [reflexivity|] end.
  destruct (_ !! dst_shard r); (split; [split; [by apply grows_same|done]|done]).
Qed.

(** ** Moving coins *)

Lemma wp_bind_quiet {A B} (m : node A) (k : A -> node B) Q E s :
  quiet m -> (forall a s', Quiet s s' -> wp (k a) Q E s') -> (forall s', Quiet s s' -> E s') ->
  wp (bind m k) Q E s.
Proof.
  intros Hm Hk HE. apply wp_bind. eapply wp_mono; [by apply keeps_wp|done|done].
Qed.

Lemma wealth_change me me' s :
  me'.(address) = me.(address) -> wealth me' s = wealth me s - me.(balance) + me'.(balance).
Proof. intros He. rewrite !wealth_eq, He. lia. Qed.

Lemma account_or_new_starts to s :
  s.(accounts) !! to = None -> starts to (account_or_new now to s).
Proof. unfold account_or_new, get_account. intros ->. done. Qed.

(** [amount] more coins in the account [to], which is new when there was none. *)
Record credited (to : Address) (amount : Z) (s s' : StateManager) : Prop := MkCredited {
  cr_account : Account;
  cr_state : s' = set_account cr_account s;
  cr_address : cr_account.(address) = to;
  cr_balance : cr_account.(balance) = from_option balance 0 (s.(accounts) !! to) + amount;
  cr_same : match s.(accounts) !! to with
            | Some a => same_id a cr_account /\ a.(balance) <= cr_account.(balance)
            | None => starts to cr_account
            end;
  cr_range : ranged s -> in_u128 cr_account.(balance);
}.

Lemma wp_credit_account to amount s :
  keyed s -> 0 <= amount ->
  wp (credit_account now to amount) (fun _ => credited to amount s) (fun s' => s' = s) s.
Proof.
  intros Hk Hpos. unfold credit_account. wp_run; [|done]. apply credit_Ok in Hok as [Hle ->].
  eexists; [done|..]; simpl; unfold account_or_new, get_account, in_u128 in *;
    destruct (s.(accounts) !! to) as [b|] eqn:E; simpl in *; try done; [by apply Hk|split; [done|simpl; lia]|].
  intros Hs. specialize (Hs _ _ E). simpl in Hs. unfold in_u128 in Hs. lia.
Qed.

Lemma credited_grows to amount s s' : credited to amount s s' -> Grows s s'.
Proof. intros [b -> <- _ Hb Hr]. by eapply grows_insert. Qed.

(** Crediting an account adds to the coins, unless the sender's copy replaces it. *)
Lemma credited_wealth me to amount s s' :
  credited to amount s s' ->
  wealth me s' = wealth me s + (if bool_decide (to = me.(address)) then 0 else amount).
Proof.
  intros [b -> Ha Hb _ _]. rewrite !wealth_eq. unfold set_account, coins. simpl. rewrite Ha, msum_insert, Hb.
  case_bool_decide as Ht; [rewrite <-Ht, lookup_insert_eq|rewrite lookup_insert_ne by done]; simpl; lia.
Qed.

Lemma credited_balances to amount s s' :
  credited to amount s s' -> msum balance s'.(accounts) = msum balance s.(accounts) + amount.
Proof. intros [b -> Ha Hb _ _]. unfold set_account. simpl. rewrite Ha, msum_insert, Hb. lia. Qed.

Lemma credited_other to amount s s' k :
  credited to amount s s' -> k <> to -> s'.(accounts) !! k = s.(accounts) !! k.
Proof. intros [b -> Ha _ _ _] Hk. unfold set_account. simpl. by rewrite Ha, lookup_insert_ne. Qed.

(** What a handler does: the sender stays who it is, [cost] coins leave, and when
    it fails no account has changed its balance. *)
Definition handles (me : Account) (cost : Z) (m : node (Account * TransactionResult))
    (s : StateManager) : Prop :=
  wp m (fun p s' => same_id me p.1 /\ in_u128 p.1.(balance) /\ Grows s s' /\ wealth p.1 s' + cost = wealth me s)
    (Calm s) s.

Lemma quiet_grows s s' : Quiet s s' -> Grows s s'.
Proof. by intros ((? & _) & _). Qed.
Lemma quiet_calm s s' : Quiet s s' -> Calm s s'.
Proof. by intros (? & _). Qed.

Hint Resolve quiet_grows quiet_calm : core.

Lemma handles_quiet {A} (m : node A) me r s :
  quiet m -> in_u128 me.(balance) -> handles me 0 (bind m (fun a => pure (me, r a))) s.
Proof.
  intros Hm Hu. apply wp_bind_quiet; [done| |eauto]. intros a s' Hq. apply wp_pure. simpl.
  split_and!; [reflexivity|done|eauto|]. rewrite (quiet_wealth me s s') by done. lia.
Qed.

(** The last lines of a handler build a result from the state. *)
Lemma wp_result me cost me' (f : StateManager -> TransactionResult) s0 s :
  same_id me me' -> in_u128 me'.(balance) -> Grows s0 s -> wealth me' s + cost = wealth me s0 ->
  wp (bind (gets f) (fun r => pure (me', r)))
    (fun p s' => same_id me p.1 /\ in_u128 p.1.(balance) /\ Grows s0 s' /\ wealth p.1 s' + cost = wealth me s0)
    (Calm s0) s.
Proof. intros. by wp_run. Qed.

Lemma debit_same amount me me' : debit now amount me = Ok me' -> same_id me me'.
Proof. intros Hd. by apply debit_Ok in Hd as [_ ->]. Qed.

Lemma wealth_debit amount me me' s :
  debit now amount me = Ok me' -> wealth me' s = wealth me s - amount.
Proof. intros [_ ->]%debit_Ok. rewrite (wealth_change me) by done. simpl. lia. Qed.

Lemma wealth_credit amount me me' s :
  credit now amount me = Ok me' -> wealth me' s = wealth me s + amount.
Proof. intros [_ ->]%credit_Ok. rewrite (wealth_change me) by done. simpl. lia. Qed.

Lemma debit_range amount me me' :
  in_u128 me.(balance) -> 0 <= amount -> debit now amount me = Ok me' -> in_u128 me'.(balance).
Proof. intros Hu Hp [Hle ->]%debit_Ok. unfold in_u128 in *. simpl. lia. Qed.

Lemma credit_range amount me me' :
  in_u128 me.(balance) -> 0 <= amount -> credit now amount me = Ok me' -> in_u128 me'.(balance).
Proof. intros Hu Hp [Hle ->]%credit_Ok. unfold in_u128 in *. simpl. lia. Qed.

Lemma handles_transfer me to amount stealth memo s :
  keyed s -> in_u128 me.(balance) -> 0 <= amount ->
  handles me (if bool_decide (to = me.(address)) then amount else 0)
    (execute_transfer now me to amount stealth memo) s.
Proof.
  intros Hk Hu Hp. unfold execute_transfer. apply wp_bind, wp_lift; [|reflexivity]. intros me' Hd.
  apply wp_bind. eapply wp_mono; [by apply wp_credit_account| |by intros ? ->].
  intros ? s' Hcr. cbv beta in Hcr. pose proof Hd as [_ Hme]%debit_Ok.
  unfold checked_add. rewrite bool_decide_true by (rewrite Hme; simpl; unfold in_u128 in *; lia).
  apply wp_result; [by eapply debit_same|by eapply debit_range|by eapply credited_grows|].
  rewrite (credited_wealth _ _ _ _ _ Hcr), (wealth_debit _ _ _ s Hd), (id_address _ _ (debit_same _ _ _ Hd)).
  destruct (bool_decide (to = me.(address))); lia.
Qed.

(** A new account has no coins. *)
Lemma wp_create_account me addr t s :
  keyed s -> is_Some (s.(accounts) !! me.(address)) ->
  wp (create_account now addr t)
    (fun _ s' => Grows s s' /\ addr <> me.(address) /\ wealth me s' = wealth me s
       /\ (exists a, s'.(accounts) !! addr = Some a /\ starts addr a /\ a.(balance) = 0))
    (fun s' => s' = s) s.
Proof.
  intros Hk [b Hb]. unfold create_account. apply wp_bind, wp_gets.
  unfold account_exists. case_bool_decide as Hex; [done|].
  assert (s.(accounts) !! addr = None) as Hnone by (by apply eq_None_not_Some).
  assert (addr <> me.(address)) as Hne by congruence.
  apply wp_bind. eapply wp_mono with (Q := fun a s' => s' = s /\ starts addr a /\ a.(balance) = 0) (E := eq s).
  - destruct t; wp_run; try done. unfold new_validator in Hok. case_bool_decide; simplify_eq. done.
  - intros a s' (-> & Hst & Hbal). apply wp_modify. split_and!.
    + eapply grows_insert; [done|done|by rewrite Hnone|]. intros _. rewrite Hbal. done.
    + done.
    + rewrite !wealth_eq. unfold coins. simpl. rewrite msum_insert, Hnone, lookup_insert_ne by done.
      simpl. lia.
    + exists a. simpl. by rewrite lookup_insert_eq.
  - by intros ? <-.
Qed.

Lemma handles_create me addr t initial s :
  keyed s -> is_Some (s.(accounts) !! me.(address)) -> in_u128 me.(balance) -> 0 <= initial ->
  handles me 0 (execute_create_account now me addr t initial) s.
Proof.
  intros Hk Hme Hu Hi. unfold execute_create_account. apply wp_bind, wp_lift; [|reflexivity].
  intros me' Hd. pose proof (debit_same _ _ _ Hd) as Hid. pose proof Hd as [Hle _]%debit_Ok.
  pose proof (id_address _ _ Hid) as Hma. pose proof (wealth_debit _ _ _ s Hd) as Hwd.
  apply wp_bind. eapply wp_mono;
    [apply (wp_create_account me'); [done|by rewrite Hma]| |by intros ? ->].
  intros _ s' (Hg & Hne & Hw & a & Ha & Hst & Hbal).
  apply wp_bind. case_bool_decide as Hpos; [|by apply wp_pure, wp_result; [done|by eapply debit_range|done|lia]].
  apply wp_bind, wp_gets. unfold get_account. rewrite Ha. apply wp_bind. unfold credit, checked_add.
  rewrite bool_decide_true by (rewrite Hbal; unfold in_u128 in *; lia). simpl.
  apply wp_pure, wp_modify, wp_result; [done|by eapply debit_range| |].
  - etrans; [exact Hg|].
    eapply grows_insert; [done|done|simpl; rewrite (st_address _ _ Hst), Ha; split; [done|simpl; lia]|].
    intros _. simpl. unfold in_u128 in *. lia.
  - assert (wealth me s = wealth me' s' + initial) as -> by lia. rewrite !wealth_eq. unfold set_account, coins. simpl.
    rewrite (st_address _ _ Hst), msum_insert, lookup_insert_ne, Ha by done. simpl. lia.
Qed.

Lemma handles_update me addr u s :
  keyed s -> in_u128 me.(balance) -> handles me 0 (execute_update_account now me addr u) s.
Proof.
  intros Hk Hu. unfold handles, execute_update_account. case_bool_decide as Ha; [by apply wp_raise|].
  wp_run; [|reflexivity]. unfold get_account in Hfound.
  destruct (updates_same now u a) as [Hid Hb]. pose proof (Hk _ _ Hfound) as Hka.
  split_and!; [reflexivity|done| |].
  - eapply grows_insert; [done|done|rewrite (id_address _ _ Hid), Hka, Hfound; split; [done|lia]|].
    intros Hs. rewrite Hb. by apply (Hs addr).
  - rewrite !wealth_eq. unfold set_account, coins. simpl.
    rewrite (id_address _ _ Hid), Hka, Ha, lookup_insert_eq, msum_insert, Hfound. simpl. lia.
Qed.

Lemma handles_store me chunk size_ duration dh slice credits factor t e env s :
  in_u128 me.(balance) ->
  handles me 0 (execute_store_data now me chunk size_ duration dh slice credits factor t e env) s.
Proof.
  intros Hu. unfold execute_store_data. apply wp_bind, wp_lift; [|reflexivity]. intros me1 H1'.
  destruct (negb _); [by apply wp_raise|]. apply wp_bind, wp_lift; [|reflexivity]. intros me2 H2'.
  assert (same_id me me2 /\ me2.(balance) = me.(balance)) as [Hid Hb].
  { unfold update_storage_usage in H1'. destruct (negb _); simplify_eq.
    unfold use_storage_credits in H2'. case_bool_decide; simplify_eq. done. }
  case_bool_decide; [by apply wp_panic|]. apply wp_bind, wp_gets.
  apply wp_bind_quiet; [apply quiet_register_entry| |eauto]. intros _ s1 Hq1.
  apply wp_bind_quiet; [apply quiet_slice_usage| |intros ? Hq2; apply quiet_calm; by etrans].
  intros _ s2 Hq2. assert (Quiet s s2) as Hq by (by etrans).
  apply wp_result; [done|by rewrite Hb|eauto|].
  rewrite (quiet_wealth _ _ _ Hq), (wealth_change me) by apply Hid. lia.
Qed.

Lemma handles_triad me chunk placement why s :
  in_u128 me.(balance) -> handles me 0 (execute_update_triad me chunk placement why) s.
Proof.
  intros Hu. unfold handles, execute_update_triad. wp_run; [|reflexivity]. simpl.
  split_and!; [reflexivity|done|apply quiet_grows, quiet_entry|].
  rewrite (quiet_wealth me s) by apply quiet_entry. lia.
Qed.

Lemma handles_proofs me t proofs epoch s :
  in_u128 me.(balance) -> handles me 0 (execute_proof_batch now elapsed me t proofs epoch) s.
Proof.
  intros Hu. unfold execute_proof_batch. apply wp_bind_quiet; [apply quiet_proof_batch| |eauto].
  intros l s' Hq. apply wp_result; [reflexivity|done|eauto|]. rewrite (quiet_wealth _ _ _ Hq). lia.
Qed.

Lemma handles_response me challenge proofs latencies s :
  in_u128 me.(balance) -> handles me 0 (execute_post_response now me challenge proofs latencies) s.
Proof.
  intros Hu. unfold execute_post_response. apply wp_bind_quiet; [apply quiet_post_response| |eauto].
  intros l s' Hq. apply wp_result; [reflexivity|done|eauto|]. rewrite (quiet_wealth _ _ _ Hq). lia.
Qed.

Lemma wealth_pool me v s :
  wealth me (set_reward_pool_uegoc v s) = wealth me s - s.(reward_pool_uegoc) + v.
Proof. rewrite !wealth_eq. unfold coins. simpl. lia. Qed.

Lemma f64_as_u64_nonneg x : 0 <= f64_as_u64 x.
Proof. destruct x as [|[]| |]; unfold f64_as_u64, u64_max; lia. Qed.

Lemma handles_claim me node_addr epoch buckets mult s :
  in_u128 me.(balance) -> 0 <= s.(reward_pool_uegoc) ->
  handles me 0 (execute_claim_rewards now me node_addr epoch buckets mult) s.
Proof.
  intros Hu Hpool. unfold execute_claim_rewards. case_bool_decide; [by apply wp_raise|].
  set (raw := f64_as_u64 _). assert (0 <= raw) as Hraw by apply f64_as_u64_nonneg. apply wp_bind. unfold take_reward, wp at 1.
  case_bool_decide; [by split; [apply grows_same|]|]. cbv beta iota.
  set (pay := Z.min raw _). set (s1 := set_reward_pool_uegoc _ s).
  assert (Calm s s1) as Hcalm.
  { split; [|done]. split; simpl; [|congruence|done|lia]. intros k a Ha. exists a. split_and!; [done|reflexivity|lia]. }
  apply wp_bind, wp_lift; [|done]. intros me' Hc. pose proof Hc as [_ Hme]%credit_Ok.
  unfold checked_sub. rewrite bool_decide_true by (rewrite Hme; simpl; unfold in_u128 in *; lia).
  apply wp_result; [by rewrite Hme|eapply credit_range; [done| |done]; lia|apply Hcalm|].
  rewrite (wealth_credit _ _ _ s1 Hc). unfold s1. rewrite wealth_pool. lia.
Qed.

Lemma handles_buy_storage me amount credits s :
  in_u128 me.(balance) -> 0 <= amount -> handles me amount (execute_buy_storage_credits now me amount credits) s.
Proof.
  intros Hu Hp. unfold execute_buy_storage_credits. apply wp_bind, wp_lift; [|reflexivity]. intros me' Hd.
  apply wp_result; [by apply debit_Ok in Hd as [_ ->]|by apply (debit_range amount me me')|reflexivity|].
  rewrite (wealth_change me') by done. simpl. rewrite (wealth_debit _ _ _ s Hd). lia.
Qed.

Lemma handles_buy_deploy me amount credits s :
  in_u128 me.(balance) -> 0 <= amount -> handles me amount (execute_buy_deploy_credits now me amount credits) s.
Proof.
  intros Hu Hp. unfold execute_buy_deploy_credits. apply wp_bind, wp_lift; [|reflexivity]. intros me' Hd.
  apply wp_result; [by apply debit_Ok in Hd as [_ ->]|by apply (debit_range amount me me')|reflexivity|].
  rewrite (wealth_change me') by done. simpl. rewrite (wealth_debit _ _ _ s Hd). lia.
Qed.

(** ** Stakes *)

Lemma wealth_validator me k v s :
  wealth me (set_validator k v s)
  = wealth me s - from_option total_stake 0 (s.(validators) !! k) + v.(total_stake).
Proof. rewrite !wealth_eq. unfold coins, set_validator. simpl. rewrite msum_insert. lia. Qed.

Lemma calm_validator k v s s' : Calm s s' -> Calm s (set_validator k v s').
Proof. intros Hc. etrans; [exact Hc|]. split; [by apply grows_same|done]. Qed.

Lemma checked_add_Some a b c : checked_add a b = Some c -> c = a + b.
Proof. unfold checked_add. case_bool_decide; naive_solver. Qed.
Lemma checked_sub_Some a b c : checked_sub a b = Some c -> c = a - b.
Proof. unfold checked_sub. case_bool_decide; naive_solver. Qed.

Lemma set_validator_twice k v w s : set_validator k v (set_validator k w s) = set_validator k v s.
Proof. unfold set_validator. simpl. by rewrite insert_insert_eq. Qed.

Lemma handles_stake me amount pk rate lock s :
  in_u128 me.(balance) -> 0 <= amount -> handles me 0 (execute_stake now me amount pk rate lock) s.
Proof.
  intros Hu Hp. unfold execute_stake. apply wp_bind, wp_lift; [|reflexivity]. intros me' Hd.
  apply wp_bind, wp_gets, wp_bind, wp_gets. apply wp_bind.
  pose proof (wealth_debit _ _ _ s Hd) as Hw. pose proof (debit_same _ _ _ Hd) as Hid.
  assert (Calm s s) as Hc by reflexivity.
  destruct (s.(validators) !! from_public_key pk) as [v|] eqn:Hv.
  - apply wp_bind, wp_found; [|done]. intros total Ht%checked_add_Some.
    apply wp_bind, wp_modify, wp_bind.
    case_bool_decide; (apply wp_bind, wp_found; [|by apply calm_validator]);
      intros x _; apply wp_pure, wp_modify; rewrite set_validator_twice;
      (apply wp_result; [done|by eapply debit_range|by apply calm_validator|]);
      rewrite wealth_validator, Hv; simpl; lia.
  - destruct rate as [rate|]; [|by apply wp_raise]. case_bool_decide; [by apply wp_raise|].
    apply wp_bind. unfold check_commission. case_bool_decide; [by apply wp_raise|]. apply wp_pure.
    case_bool_decide; [by apply wp_raise|]. apply wp_modify, wp_result; [done|by eapply debit_range|by apply calm_validator|].
    rewrite wealth_validator, Hv. simpl. lia.
Qed.

Lemma handles_unstake me amount pk unlock s :
  in_u128 me.(balance) -> 0 <= amount -> handles me 0 (execute_unstake now me amount pk unlock) s.
Proof.
  intros Hu Hp. unfold execute_unstake. apply wp_bind, wp_gets, wp_bind, wp_found; [|reflexivity]. intros v Hv.
  case_bool_decide; [by apply wp_raise|]. apply wp_bind, wp_found; [|reflexivity].
  intros total Ht%checked_sub_Some. set (v1 := if bool_decide (from_public_key pk = _) then _ else _).
  set (v2 := if bool_decide (_ < _) then _ else _).
  assert (v2.(total_stake) = total) as Hv2 by (subst v2 v1; by repeat case_bool_decide).
  apply wp_bind, wp_modify, wp_bind, wp_lift; [|by apply calm_validator]. intros me' Hc.
  apply wp_result; [by apply credit_Ok in Hc as [_ ->]|by eapply credit_range|by apply calm_validator|].
  rewrite (wealth_credit _ _ _ _ Hc), wealth_validator, Hv, Hv2. simpl. lia.
Qed.

Lemma handles_delegate me amount pk s :
  in_u128 me.(balance) -> 0 <= amount -> handles me 0 (execute_delegate now me amount pk) s.
Proof.
  intros Hu Hp. unfold execute_delegate. apply wp_bind, wp_lift; [|reflexivity]. intros me' Hd.
  apply wp_bind, wp_gets, wp_bind, wp_found; [|reflexivity]. intros v Hv.
  case_bool_decide; [by apply wp_raise|]. apply wp_bind, wp_found; [|reflexivity].
  intros total Ht%checked_add_Some. apply wp_bind, wp_modify, wp_bind, wp_found; [|by apply calm_validator].
  intros x _. apply wp_bind, wp_modify. rewrite set_validator_twice.
  apply wp_result; [by eapply debit_same|by eapply debit_range|by apply calm_validator|].
  rewrite wealth_validator, (wealth_debit _ _ _ s Hd), Hv. simpl. lia.
Qed.

(** The coins that leave with a message to another shard. *)
Definition message_coins (message : bytes) : Z :=
  from_option (fun msg => Z.max 0 (locked_amount msg)) 0 (message_decode message).

Lemma handles_cross me tx target message n deadline s :
  in_u128 me.(balance) ->
  handles me (message_coins message) (execute_cross_shard now me tx target message n deadline) s.
Proof.
  intros Hu. unfold execute_cross_shard, message_coins. apply wp_bind, wp_found; [|reflexivity]. intros msg ->.
  simpl. apply wp_bind.
  eapply wp_mono with (E := eq s) (Q := fun me' s' => s' = s /\ same_id me me' /\ in_u128 me'.(balance)
    /\ wealth me' s + Z.max 0 (locked_amount msg) = wealth me s).
  - case_bool_decide; [|apply wp_pure; split_and!; [done|reflexivity|done|lia]].
    apply wp_lift; [|done]. intros me' Hd. split_and!; [done|by eapply debit_same|eapply debit_range; [done| |done]; lia|].
    rewrite (wealth_debit _ _ _ s Hd). lia.
  - intros me' s' (-> & Hid & Hr & Hw). apply wp_bind_quiet; [apply quiet_add_receipt| |eauto].
    intros _ s' Hq. apply wp_bind, wp_gets, wp_pure. simpl. split_and!; [done|done|eauto|].
    by rewrite (quiet_wealth _ _ _ Hq).
  - by intros ? <-.
Qed.

Lemma quiet_delete_slice id : quiet (modify (fun s => s <| slices := delete id s.(slices) |>)).
Proof. apply keeps_modify. intros s. split; [split; [by apply grows_same|done]|done]. Qed.

Lemma handles_slice me op id params s :
  in_u128 me.(balance) -> handles me 0 (execute_slice_operation now me op id params) s.
Proof.
  intros Hu. unfold execute_slice_operation. apply (handles_quiet _ me (fun _ => create_success_result ZERO_HASH 2000)); [|done].
  pose proof quiet_create_slice. pose proof quiet_authorize. pose proof quiet_slice_status.
  pose proof quiet_delete_slice. destruct op; auto 10 with node.
Qed.

(** ** Transactions *)

(** The coins a payload takes out of the state: what is spent on credits, what
    goes to another shard, and a transfer to oneself. *)
Definition spent (me : Address) (p : TransactionPayload) : Z :=
  match p with
  | Transfer to amount _ _ => if bool_decide (to = me) then amount else 0
  | BuyStorageCredits amount _ _ | BuyDeployCredits amount _ _ => amount
  | CrossShard _ message _ _ _ => message_coins message
  | _ => 0
  end.

(** The amounts of a payload are unsigned. *)
Definition typed_payload (p : TransactionPayload) : Prop :=
  match p with
  | CreateAccount _ _ initial _ _ _ => in_u128 initial
  | Transfer _ amount _ _ | BuyStorageCredits amount _ _ | BuyDeployCredits amount _ _
  | Stake amount _ _ _ | Unstake amount _ _ | Delegate amount _ => in_u128 amount
  | _ => True
  end.

Lemma handles_payload tx me s :
  keyed s -> is_Some (s.(accounts) !! me.(address)) -> in_u128 me.(balance) ->
  0 <= s.(reward_pool_uegoc) -> typed_payload tx.(payload) ->
  handles me (spent me.(address) tx.(payload)) (execute_payload now elapsed tx me) s.
Proof.
  intros Hk Hme Hu Hpool Ht. unfold execute_payload.
  assert (forall r, handles me 0 (pure (me, r)) s) as Hpure.
  { intros r. apply wp_pure. simpl. split_and!; [reflexivity|done|reflexivity|lia]. }
  destruct tx.(payload); try apply Hpure; simpl in Ht |- *.
  - by apply handles_transfer; [..|apply Ht].
  - by apply handles_create; [..|apply Ht].
  - by apply handles_update.
  - by apply handles_store.
  - by apply handles_triad.
  - by apply handles_proofs.
  - by apply handles_response.
  - by apply handles_claim.
  - by apply handles_buy_storage; [|apply Ht].
  - by apply handles_buy_deploy; [|apply Ht].
  - by apply handles_stake; [|apply Ht].
  - by apply handles_unstake; [|apply Ht].
  - by apply handles_delegate; [|apply Ht].
  - apply (handles_quiet _ me (fun _ => create_success_result tx.(tx_hash) 1000)); [apply quiet_metrics|done].
  - by apply handles_cross.
  - by apply handles_slice.
  - apply (handles_quiet _ me (fun _ => create_success_result tx.(tx_hash) 1000)); [apply quiet_drs|done].
Qed.

(** The sender pays the fee and the burn address gets it. *)
Lemma wp_charge_fee tx me s :
  keyed s ->
  wp (charge_fee now tx me)
    (fun me' s' => same_id me me' /\ me'.(balance) = me.(balance) - net_fee tx /\ net_fee tx <= Z.max 0 me.(balance)
       /\ (s' = s /\ net_fee tx = 0 \/ credited burn_address (net_fee tx) s s'))
    (fun s' => s' = s) s.
Proof.
  intros Hk. unfold charge_fee.
  assert (0 <= net_fee tx) as Hpos by (unfold net_fee, saturating_sub, sat_sub; lia).
  case_bool_decide as Hfee; [|apply wp_pure; split_and!; [reflexivity|lia|lia|left; split; [done|lia]]].
  apply wp_bind, wp_lift; [|done]. intros me' Hd. apply wp_bind.
  eapply wp_mono; [apply wp_credit_account; [done|lia]| |done].
  intros ? s' Hcr. cbv beta in Hcr. apply wp_pure. pose proof (debit_same _ _ _ Hd). apply debit_Ok in Hd as [Hle ->].
  split_and!; [done|done|lia|by right].
Qed.

Lemma net_fee_nonneg tx : 0 <= net_fee tx.
Proof. unfold net_fee, saturating_sub, sat_sub. lia. Qed.

Lemma charged_grows tx s s' :
  s' = s /\ net_fee tx = 0 \/ credited burn_address (net_fee tx) s s' -> Grows s s'.
Proof. intros [[-> _]|Hcr]; [reflexivity|by eapply credited_grows]. Qed.

Lemma charged_wealth me tx s s' :
  s' = s /\ net_fee tx = 0 \/ credited burn_address (net_fee tx) s s' ->
  wealth me s' = wealth me s + (if bool_decide (burn_address = me.(address)) then 0 else net_fee tx).
Proof. intros [[-> ->]|Hcr]; [case_bool_decide; lia|by apply credited_wealth]. Qed.

(** The nonce that a transaction uses up. *)
Definition nonce_of (tx : Transaction) (a : Account) : Z :=
  if is_cross_shard tx then get_shard_nonce tx.(shard_id) a else a.(nonce).

(** The sender after a transaction: only its own nonce counts on. *)
Record counted (tx : Transaction) (a b : Account) : Prop := MkCounted {
  ct_address : b.(address) = a.(address);
  ct_key : b.(dilithium_pk) = a.(dilithium_pk);
  ct_type : b.(account_type) = a.(account_type);
  ct_provider : is_Some a.(storage_provider_info) -> is_Some b.(storage_provider_info);
  ct_nonce : b.(nonce) = (count_nonce now tx a).(nonce);
  ct_shards : b.(per_shard_nonces) = (count_nonce now tx a).(per_shard_nonces);
}.

Lemma count_nonce_frame tx a :
  let b := count_nonce now tx a in
  b.(address) = a.(address) /\ b.(balance) = a.(balance) /\ b.(dilithium_pk) = a.(dilithium_pk)
  /\ b.(account_type) = a.(account_type) /\ b.(storage_provider_info) = a.(storage_provider_info).
Proof.
  unfold count_nonce, increment_shard_nonce. destruct (is_cross_shard tx); [|done].
  by destruct (per_shard_nonces a).
Qed.

Lemma counted_same tx a b c : count_nonce now tx a = b -> same_id b c -> counted tx a c.
Proof.
  intros <- []. destruct (count_nonce_frame tx a) as (Ha & _ & Hk & Ht & Hp).
  split; try congruence. rewrite <-Hp. auto.
Qed.

(** A state whose accounts are stored under their address with numbers in range. *)
Definition wf (s : StateManager) : Prop := keyed s /\ ranged s /\ 0 <= s.(reward_pool_uegoc).

Lemma grows_wf s s' : Grows s s' -> wf s -> wf s'.
Proof.
  intros Hg (Hk & Hr & Hp).
  split_and!; [by eapply grows_keyed|by apply (grows_range _ _ Hg)|by apply (grows_pool _ _ Hg)].
Qed.

(** What [execute_transaction] does when it succeeds: the accounts grow ([s1]),
    and the sender is stored in its new form. *)
Record executed (tx : Transaction) (a : Account) (s s' : StateManager) : Prop := MkExecuted {
  ex_sender : Account;
  ex_mid : StateManager;
  ex_grows : Grows s ex_mid;
  ex_counted : counted tx a ex_sender;
  ex_range : in_u128 ex_sender.(balance);
  ex_state : s' = update_stats now (set_account ex_sender ex_mid);
  ex_coins : coins s' + spent tx.(from) tx.(payload)
             + (if bool_decide (burn_address = tx.(from)) then net_fee tx else 0) = coins s;
}.

(** What it leaves when it fails: nothing, or the fee with the burn address. *)
Definition failed (tx : Transaction) (s s' : StateManager) : Prop :=
  s' = s \/ exists s1, (s1 = s /\ net_fee tx = 0 \/ credited burn_address (net_fee tx) s s1) /\ Calm s1 s'.

Lemma wp_execute tx s :
  wf s -> typed_payload tx.(payload) ->
  wp (execute_transaction now elapsed tx)
    (fun _ s' => exists a, s.(accounts) !! tx.(from) = Some a /\ validate_against_account now tx a = Ok tt
                           /\ executed tx a s s')
    (failed tx s) s.
Proof.
  intros (Hk & Hu & Hpool) Ht. unfold execute_transaction, get_account.
  apply wp_bind, wp_gets, wp_bind, wp_found; [|by left]. intros a Ha.
  apply wp_bind, wp_lift; [|by left]. intros [] Hval. case_bool_decide; [by left|].
  pose proof (Hk _ _ Ha) as Haddr. destruct (count_nonce_frame tx a) as (Hca & Hcb & _).
  apply wp_bind. eapply wp_mono; [by apply wp_charge_fee| |by left].
  intros me1 s1 (Hid1 & Hb1 & Hle & Hch). pose proof (charged_grows _ _ _ Hch) as Hg1.
  assert (me1.(address) = tx.(from)) as Hme1 by (rewrite (id_address _ _ Hid1); congruence).
  specialize (Hu _ _ Ha). simpl in Hu. pose proof (net_fee_nonneg tx) as Hfee.
  apply wp_bind. eapply wp_mono.
  - apply (handles_payload tx me1 s1); [by eapply grows_keyed| | |by apply (grows_pool _ _ Hg1)|done].
    + rewrite Hme1. destruct (grows_old _ _ Hg1 _ _ Ha) as (? & -> & _). eauto.
    + unfold in_u128 in *. rewrite Hb1, Hcb in *. lia.
  - intros [me2 r] s2 (Hid2 & Hr2 & Hg2 & Hw). simpl in *. wp_run.
    exists a. split; [done|]. split; [done|]. exists me2 s2; [by etrans| |done|done|].
    + eapply counted_same; [done|]. by etrans.
    + change (coins (update_stats now (set_account me2 s2))) with (wealth me2 s2).
      rewrite Hme1 in Hw. pose proof (charged_wealth me1 _ _ _ Hch) as Hc.
      rewrite Hme1 in Hc. rewrite (wealth_eq me1 s), Hme1, Ha, Hb1, Hcb in Hc. simpl in Hc.
      destruct (bool_decide (burn_address = tx.(from))); lia.
  - intros s' Hc. right. eauto.
Qed.
End Ops.
