(* ===== verification/NodeRuns.v ===== *)
(** * Runs of the account state

    [Op] is a call of an operation of the [StateManager] and [run_op] its effect.
    The raw setters ([set_account], [set_reward_pool_uegoc] and those of the roots)
    and [load_from_disk], which store what their caller hands them, are not among
    the operations.
    Along a run nonces only grow ([Ages]), coins leave an account only by a
    transaction of its own, and what was recorded of receipts and bonded by
    validators stays ([Side]). *)
From Stdlib Require Import Floats.SpecFloat.
From coqutil Require Import Datatypes.RecordSettersUsingExistingGetters.
From S2P Require Import Prelude Crypto Blocks NodeAccount NodeTx NodeState NodeFacts.
Import RecordSetNotations1.
Local Open Scope Z_scope.
Local Open Scope ego_scope.

Section Runs.
Context `{CryptoPrims} `{NodePrims} `{TxPrims} `{EventPrims} `{HashOrder}.

(** ** Operations *)

Inductive Op : Type :=
| OpTx (now : Timestamp) (elapsed : nat -> Z) (tx : Transaction)
| OpCreate (now : Timestamp) (addr : Address) (t : AccountType)
| OpEntry (e : StorageEntry)
| OpPost (now : Timestamp) (chunk : Hash) (a : Address) (passed : bool) (latency epoch : Z)
| OpPruneStorage (height : Z)
| OpValidator (info : ValidatorInfo)
| OpStorageValidator (info : ValidatorInfo)
| OpMetrics (a : Address) (uptime degree relay sessions demand : Z) (puc : f64)
| OpDrs (now : Timestamp) (a : Address) (score multiplier : f64) (epoch : Z)
| OpJail (a : Address) (why : JailReason) (epochs : Z) (slash : Balance)
| OpSlice (c : SliceConfig)
| OpDevice (now : Timestamp) (id : string) (device : Address)
| OpUsage (now : Timestamp) (id : string) (storage_add bandwidth_add : Z)
| OpShard (now : Timestamp) (shard : Z)
| OpReceipt (now : Timestamp) (r : CrossShardReceipt)
| OpProcess (id : Hash)
| OpInbound (now : Timestamp) (r : CrossShardReceipt)
| OpPruneReceipts (epoch : Z)
| OpPrune (epoch : Z)
| OpHeight (h : Z)
| OpTick
| OpRoots
| OpStats (now : Timestamp).

Definition run_op (o : Op) (s : StateManager) : StateManager :=
  match o with
  | OpTx now elapsed tx => (execute_transaction now elapsed tx s).2
  | OpCreate now addr t => (create_account now addr t s).2
  | OpEntry e => (register_storage_entry e s).2
  | OpPost now chunk a passed latency epoch => (update_post_result now chunk a passed latency epoch s).2
  | OpPruneStorage h => (prune_expired_storage h s).2
  | OpValidator info => (register_validator info s).2
  | OpStorageValidator info => (register_storage_validator info s).2
  | OpMetrics a u d r i m p => (update_validator_metrics a u d r i m p s).2
  | OpDrs now a score mult epoch => (update_validator_drs now a score mult epoch s).2
  | OpJail a why epochs slash => (jail_validator a why epochs slash s).2
  | OpSlice c => (create_slice c s).2
  | OpDevice now id d => (authorize_device_for_slice now id d s).2
  | OpUsage now id x y => (update_slice_usage now id x y s).2
  | OpShard now shard => init_cross_shard_state now shard s
  | OpReceipt now r => (add_cross_shard_receipt now r s).2
  | OpProcess id => (process_cross_shard_receipt id s).2
  | OpInbound now r => (apply_inbound_receipt now r s).2
  | OpPruneReceipts epoch => (prune_expired_receipts epoch s).2
  | OpPrune epoch => (prune_old_data epoch s).2
  | OpHeight h => set_block_height h s
  | OpTick => increment_block_height s
  | OpRoots => update_all_roots s
  | OpStats now => update_stats now s
  end.

(** Amounts of payloads are unsigned. *)
Definition typed_op (o : Op) : Prop :=
  match o with
  | OpTx _ _ tx => typed_payload tx.(payload)
  | _ => True
  end.

Definition is_tx (o : Op) : bool := match o with OpTx _ _ _ => true | _ => false end.

Lemma is_tx_inv o : is_tx o = true -> exists now elapsed tx, o = OpTx now elapsed tx.
Proof. destruct o; naive_solver. Qed.

(** One operation that satisfies [ok] in the state it runs in. *)
Definition Step (ok : Op -> StateManager -> Prop) (s s' : StateManager) : Prop :=
  exists o, typed_op o /\ ok o s /\ s' = run_op o s.

Definition any_op (o : Op) (s : StateManager) : Prop := True.

(** ** Accounts *)

Lemma wp_snd {A} (m : node A) (P : StateManager -> Prop) s :
  wp m (fun _ => P) P s -> P (m s).2.
Proof. unfold wp. by destruct (m s) as [[a|e|] s']. Qed.

Lemma inbound_grows now r s : keyed s -> Grows s (apply_inbound_receipt now r s).2.
Proof.
  intros Hk. apply wp_snd. unfold apply_inbound_receipt.
  apply wp_bind, wp_gets. destruct (is_processed _ _ _ s); [by apply wp_raise|].
  apply wp_bind, wp_gets. case_bool_decide; [by apply wp_raise|].
  apply wp_bind, wp_found; [|reflexivity]. intros msg _. apply wp_bind.
  apply wp_mono with (Q := fun _ => Grows s) (E := eq s); [| |by intros ? <-].
  - destruct msg as [to amount|to ? ? amount ?]; case_bool_decide; try by apply wp_pure.
    all: eapply wp_mono; [apply wp_credit_account; [done|lia]| |done];
      cbv beta; intros ? s' Hc; by eapply credited_grows.
  - intros ? s' Hg. apply wp_modify. etrans; [exact Hg|by apply grows_same].
Qed.

Lemma create_grows now addr t s : Grows s (create_account now addr t s).2.
Proof.
  apply wp_snd. unfold create_account. apply wp_bind, wp_gets. unfold account_exists.
  case_bool_decide as Hex; [by apply wp_raise|].
  assert (s.(accounts) !! addr = None) as Hnone by (by apply eq_None_not_Some).
  apply wp_bind. eapply wp_mono with (Q := fun a s' => s' = s /\ starts addr a /\ a.(balance) = 0) (E := eq s).
  - destruct t; wp_run; try done. unfold new_validator in Hok. case_bool_decide; simplify_eq. done.
  - intros a s' (-> & Hst & Hbal). apply wp_modify.
    eapply grows_insert; [done|done|by rewrite Hnone|]. intros _. by rewrite Hbal.
  - by intros ? <-.
Qed.

Lemma jail_grows a why epochs slash s : Grows s (jail_validator a why epochs slash s).2.
Proof. apply wp_snd. unfold jail_validator, validator_or_err. wp_run; by apply grows_same. Qed.

Lemma other_grows o s : keyed s -> is_tx o = false -> Grows s (run_op o s).
Proof.
  intros Hk Ho. destruct o; simplify_eq/=.
  - apply create_grows.
  - apply quiet_grows, quiet_register_entry.
  - apply quiet_grows, quiet_post_result.
  - unfold prune_expired_storage. destruct (negb _); [reflexivity|by apply grows_same].
  - unfold register_validator, bind, check_commission.
    repeat case_bool_decide; simpl; try reflexivity; by apply grows_same.
  - unfold register_storage_validator, bind, check_commission.
    case_bool_decide; [reflexivity|by apply grows_same].
  - apply quiet_grows, quiet_metrics.
  - apply quiet_grows, quiet_drs.
  - apply jail_grows.
  - apply quiet_grows, quiet_create_slice.
  - apply quiet_grows, quiet_authorize.
  - apply quiet_grows, quiet_slice_usage.
  - unfold init_cross_shard_state. case_bool_decide; [reflexivity|by apply grows_same].
  - apply quiet_grows, quiet_add_receipt.
  - unfold process_cross_shard_receipt. destruct (_ !! id); [|reflexivity].
    case_bool_decide; by apply grows_same.
  - by apply inbound_grows.
  - by apply grows_same.
  - unfold prune_old_data. destruct (negb _); [reflexivity|]. simpl.
    unfold prune_expired_storage, prune_expired_receipts.
    repeat match goal with |- context [if ?b then _ else _] => destruct b end; by apply grows_same.
  - by apply grows_same.
  - by apply grows_same.
  - by apply grows_same.
  - by apply grows_same.
Qed.

(** ** Transactions in a run *)

Lemma set_account_lookup a k s :
  (set_account a s).(accounts) !! k = if bool_decide (k = a.(address)) then Some a else s.(accounts) !! k.
Proof.
  unfold set_account. simpl. case_bool_decide; [subst; apply lookup_insert_eq|by apply lookup_insert_ne].
Qed.

Lemma failed_grows tx s s' : failed tx s s' -> Grows s s'.
Proof.
  intros [->|(s1 & Hch & Hc)]; [reflexivity|]. etrans; [by eapply charged_grows|apply Hc].
Qed.

(** The two ends of a transaction. *)
Lemma execute_cases now elapsed tx s :
  wf s -> typed_payload tx.(payload) ->
  let s' := (execute_transaction now elapsed tx s).2 in
  failed tx s s'
  \/ exists a, s.(accounts) !! tx.(from) = Some a /\ validate_against_account now tx a = Ok tt
              /\ executed now tx a s s'.
Proof.
  intros Hwf Ht. pose proof (wp_execute now elapsed tx s Hwf Ht) as Hw. unfold wp in Hw.
  destruct (execute_transaction now elapsed tx s) as [[r|e|] s']; simpl; auto.
Qed.

(** The accounts a successful transaction leaves. *)
Lemma executed_lookup now tx a s s' :
  keyed s -> s.(accounts) !! tx.(from) = Some a -> executed now tx a s s' ->
  exists me mid, Grows s mid /\ counted now tx a me /\ me.(address) = tx.(from) /\ in_u128 me.(balance)
    /\ (forall k, s'.(accounts) !! k = if bool_decide (k = tx.(from)) then Some me else mid.(accounts) !! k)
    /\ s'.(reward_pool_uegoc) = mid.(reward_pool_uegoc).
Proof.
  intros Hk Ha [me mid Hg Hc Hr -> _]. exists me, mid.
  assert (me.(address) = tx.(from)) as Hme by (rewrite (ct_address _ _ _ _ Hc); by apply Hk).
  split_and!; try done. intros k. rewrite <-Hme. apply set_account_lookup.
Qed.

Lemma execute_wf now elapsed tx s :
  wf s -> typed_payload tx.(payload) -> wf (execute_transaction now elapsed tx s).2.
Proof.
  intros Hwf Ht. destruct (execute_cases now elapsed tx s Hwf Ht) as [Hf|(a & Ha & _ & Hex)].
  - eapply grows_wf; [by eapply failed_grows|done].
  - pose proof Hwf as (Hk & _). destruct (executed_lookup _ _ _ _ _ Hk Ha Hex)
      as (me & mid & Hg & _ & Hme & Hr & Hl & Hp).
    destruct (grows_wf _ _ Hg Hwf) as (Hk' & Hr' & Hp').
    split_and!; [| |by rewrite Hp].
    all: intros k b; rewrite Hl; case_bool_decide; [intros [= <-]; congruence|eauto].
Qed.

Lemma run_op_wf o s : wf s -> typed_op o -> wf (run_op o s).
Proof.
  intros Hwf Ht. destruct (is_tx o) eqn:Htx.
  - destruct o; simplify_eq/=. by apply execute_wf.
  - eapply grows_wf; [apply other_grows; [apply Hwf|done]|done].
Qed.

Lemma steps_wf ok s s' : rtc (Step ok) s s' -> wf s -> wf s'.
Proof. induction 1 as [|s1 s2 s3 (o & Ht & _ & ->) _ IH]; [done|]. intros. apply IH. by apply run_op_wf. Qed.

(** ** Nonces *)

(** Nonces that fit their 64 bits, with a map for those of shards. *)
Definition numbered (a : Account) : Prop :=
  in_u64 a.(nonce) /\ exists m, a.(per_shard_nonces) = Some m /\ map_Forall (fun _ n => in_u64 n) m.

Definition all_numbered (s : StateManager) : Prop := map_Forall (fun _ a => numbered a) s.(accounts).

(** The key stays and the nonces do not go back. *)
Definition older (a b : Account) : Prop :=
  b.(dilithium_pk) = a.(dilithium_pk) /\ a.(nonce) <= b.(nonce)
  /\ forall shard, get_shard_nonce shard a <= get_shard_nonce shard b.

Definition Ages (s s' : StateManager) : Prop :=
  all_numbered s -> all_numbered s' /\
  forall k a, s.(accounts) !! k = Some a -> exists b, s'.(accounts) !! k = Some b /\ older a b.

#[local] Instance Ages_preorder : PreOrder Ages.
Proof.
  split.
  - intros s Hn. split; [done|]. intros k a Ha. exists a. split_and!; try done.
  - intros s1 s2 s3 H12 H23 Hn. destruct (H12 Hn) as [Hn2 O12]. destruct (H23 Hn2) as [Hn3 O23].
    split; [done|]. intros k a Ha. destruct (O12 k a Ha) as (b & Hb & Hk1 & Hn1 & Hs1).
    destruct (O23 k b Hb) as (c & Hc & Hk2 & Hn2' & Hs2). exists c. split; [done|]. split; [congruence|]. split; [lia|].
    intros shard. specialize (Hs1 shard). specialize (Hs2 shard). lia.
Qed.

Lemma same_older a b : same_id a b -> older a b.
Proof.
  intros [_ Hk Hn Hs _ _]. split; [done|]. split; [lia|]. intros shard. unfold get_shard_nonce.
  by rewrite Hs.
Qed.

Lemma same_numbered a b : same_id a b -> numbered a -> numbered b.
Proof.
  intros [_ _ Hn Hs _ _] (Hn0 & m & Hm & Hall). split; [by rewrite Hn|]. exists m. by rewrite Hs.
Qed.

Lemma starts_numbered k a : starts k a -> numbered a.
Proof.
  intros [_ _ Hn Hs]. split; [by rewrite Hn|]. exists ∅. split; [done|apply map_Forall_empty].
Qed.

Lemma grows_ages s s' : Grows s s' -> Ages s s'.
Proof.
  intros [Ho Hnew _ _] Hn. split.
  - intros k b Hb. destruct (s.(accounts) !! k) as [a|] eqn:Ha.
    + destruct (Ho k a Ha) as (b' & Hb' & Hid & _). simplify_eq.
      eapply same_numbered; [done|]. by apply (Hn k).
    + eapply starts_numbered. by eapply Hnew.
  - intros k a Ha. destruct (Ho k a Ha) as (b & Hb & Hid & _). exists b. split; [done|by apply same_older].
Qed.

Lemma shard_nonce_range shard a : numbered a -> in_u64 (get_shard_nonce shard a).
Proof.
  intros (_ & m & Hm & Hall). unfold get_shard_nonce. rewrite Hm. simpl.
  destruct (m !! shard) eqn:E; simpl; [by apply (Hall shard)|done].
Qed.

(** Counting a nonce on, at its width. *)
Lemma count_nonce_shard now tx a shard :
  numbered a ->
  get_shard_nonce shard (count_nonce now tx a)
  = if is_cross_shard tx && bool_decide (shard = tx.(shard_id))
    then sat_add u64_max (get_shard_nonce shard a) 1 else get_shard_nonce shard a.
Proof.
  intros (_ & m & Hm & _). unfold count_nonce, increment_shard_nonce, get_shard_nonce.
  destruct (is_cross_shard tx); simpl; [|by rewrite Hm]. rewrite Hm. simpl.
  case_bool_decide as Hs; [subst; by rewrite lookup_insert_eq|by rewrite lookup_insert_ne].
Qed.

Lemma counted_numbered now tx a b : counted now tx a b -> numbered a -> numbered b /\ older a b.
Proof.
  intros [_ ct_key0 _ _ ct_nonce0 ct_shards0] Hn. pose proof Hn as (Hn0 & m & Hm & Hall).
  assert (forall shard, get_shard_nonce shard b = get_shard_nonce shard (count_nonce now tx a)) as Hs.
  { intros shard. unfold get_shard_nonce. by rewrite ct_shards0. }
  split.
  - unfold numbered. rewrite ct_nonce0, ct_shards0. unfold count_nonce, increment_shard_nonce.
    destruct (is_cross_shard tx); simpl.
    + rewrite Hm. simpl. split; [done|]. eexists. split; [done|]. apply map_Forall_insert_2; [|done].
      pose proof (shard_nonce_range tx.(shard_id) a Hn) as Hr. unfold get_shard_nonce in Hr.
      rewrite Hm in Hr. simpl in Hr. machine_lia.
    + split; [machine_lia|eauto].
  - split; [done|]. split.
    + rewrite ct_nonce0. unfold count_nonce, increment_shard_nonce. rewrite Hm.
      destruct (is_cross_shard tx); simpl; machine_lia.
    + intros shard. rewrite Hs, count_nonce_shard by done. pose proof (shard_nonce_range shard a Hn).
      destruct (_ && _); machine_lia.
Qed.

Lemma execute_ages now elapsed tx s :
  wf s -> typed_payload tx.(payload) -> Ages s (execute_transaction now elapsed tx s).2.
Proof.
  intros Hwf Ht. destruct (execute_cases now elapsed tx s Hwf Ht) as [Hf|(a & Ha & _ & Hex)].
  { by eapply grows_ages, failed_grows. }
  intros Hn. pose proof Hwf as (Hk & _).
  destruct (executed_lookup _ _ _ _ _ Hk Ha Hex) as (me & mid & Hg & Hc & Hme & _ & Hl & _).
  destruct (grows_ages _ _ Hg Hn) as [Hn' Ho].
  destruct (counted_numbered _ _ _ _ Hc (Hn _ _ Ha)) as [Hnme Hold]. split.
  - intros k b. rewrite Hl. case_bool_decide; [by intros [= <-]|]. apply Hn'.
  - intros k b Hb. rewrite Hl. case_bool_decide as Hke; [subst; simplify_eq; eauto|]. by apply Ho.
Qed.

Lemma steps_ages ok s s' : rtc (Step ok) s s' -> wf s -> Ages s s'.
Proof.
  induction 1 as [|s1 s2 s3 (o & Ht & _ & ->) _ IH]; [reflexivity|]. intros Hwf.
  etrans; [|apply IH; by apply run_op_wf]. destruct (is_tx o) eqn:Htx.
  - destruct o; simplify_eq/=. by apply execute_ages.
  - apply grows_ages, other_grows; [apply Hwf|done].
Qed.

(** ** Checks of a transaction *)

Lemma validated now tx a :
  validate_against_account now tx a = Ok tt ->
  tx.(public_keys).(tk_dilithium_pk).(key_data) = a.(dilithium_pk)
  /\ tx_verify_signature tx = Ok true /\ tx.(tx_nonce) = expected_nonce tx a.
Proof.
  unfold validate_against_account. case_bool_decide as Hkey; [done|].
  destruct (tx_verify_signature tx) as [[]|]; [|done..]. simpl.
  case_bool_decide as Hn; [done|]. intros _. split_and!; [|done|]; done.
Qed.

(** A transaction that the check refuses changes nothing. *)
Lemma refused now elapsed tx s :
  (forall a, s.(accounts) !! tx.(from) = Some a -> validate_against_account now tx a <> Ok tt) ->
  exists e, execute_transaction now elapsed tx s = (Fail e, s).
Proof.
  intros Hno. unfold execute_transaction, bind, gets, get_account.
  destruct (s.(accounts) !! tx.(from)) as [a|] eqn:Ha; [|by eexists]. simpl.
  specialize (Hno a eq_refl). destruct (validate_against_account now tx a) as [[]|e] eqn:Hv; [done|].
  simpl. by eexists.
Qed.

(** ** Receipts and bonds *)

(** An active validator has at least the minimum of its own at stake. *)
Definition has_bond (v : ValidatorInfo) : Prop := v.(status) = Active -> MIN_VALIDATOR_STAKE <= v.(own_stake).
Definition bonded (s : StateManager) : Prop := map_Forall (fun _ v => has_bond v) s.(validators).

Record Side (s s' : StateManager) : Prop := MkSide {
  side_receipts : forall src dst n, is_processed src dst n s = true -> is_processed src dst n s' = true;
  side_bonds : bonded s -> bonded s';
}.

#[local] Instance Side_preorder : PreOrder Side.
Proof. split; [by split|]. intros s1 s2 s3 [] []. split; auto. Qed.

Lemma side_same s s' :
  s'.(processed_receipt_nonces) = s.(processed_receipt_nonces) -> s'.(validators) = s.(validators) -> Side s s'.
Proof. intros Hp Hv. split; unfold is_processed, bonded; by rewrite ?Hp, ?Hv. Qed.

Lemma side_validator k v s s' :
  Side s s' -> (bonded s' -> has_bond v) -> Side s (set_validator k v s').
Proof.
  intros Hs Hv. etrans; [exact Hs|]. split; [done|]. intros Hb. apply map_Forall_insert_2; auto.
Qed.

(** Operations on other parts of the state. *)
#[local] Hint Extern 3 (Side _ _) => by apply side_same : node.

Lemma side_credit now to amount : keeps Side (credit_account now to amount).
Proof. unfold credit_account. auto 10 with node. Qed.

Lemma side_create now addr t : keeps Side (create_account now addr t).
Proof.
  unfold create_account. apply keeps_bind; [exact _|auto with node|]. intros b. destruct b; [auto with node|].
  apply keeps_bind; [exact _| |auto with node]. destruct t; auto with node.
Qed.

Lemma side_register_entry e : keeps Side (register_storage_entry e).
Proof. unfold register_storage_entry, check_member. auto 20 with node. Qed.

Lemma side_post now chunk a ok latency epoch : keeps Side (update_post_result now chunk a ok latency epoch).
Proof. unfold update_post_result. auto 20 with node. Qed.

Lemma side_usage now id x y : keeps Side (update_slice_usage now id x y).
Proof. unfold update_slice_usage. auto 20 with node. Qed.

Lemma side_slice c : keeps Side (create_slice c).
Proof. unfold create_slice. auto 20 with node. Qed.

Lemma side_device now id d : keeps Side (authorize_device_for_slice now id d).
Proof.
  unfold authorize_device_for_slice. assert (forall f, (forall s, Side s (match get_account d s with
    None => s | Some account => s <| accounts := f s account |> end))) as Hm.
  { intros f s. destruct (get_account d s); [by apply side_same|reflexivity]. }
  apply keeps_bind; [exact _|auto with node|]. intros c. apply keeps_bind; [exact _|auto with node|].
  intros slice. do 2 (destruct (bool_decide _); [auto with node|]).
  apply keeps_bind; [exact _|auto with node|]. intros _. apply keeps_modify. intros s.
  apply (Hm (fun s account => <[d := authorize_slice now id account]> s.(accounts))).
Qed.

Lemma side_slice_status a id st : keeps Side (set_slice_status a id st).
Proof. unfold set_slice_status. auto 20 with node. Qed.

Lemma side_receipt now r : keeps Side (add_cross_shard_receipt now r).
Proof.
  intros s. unfold add_cross_shard_receipt.
  repeat match goal with |- context [if ?b then _ else _] => destruct b; [reflexivity|] end.
  by destruct (_ !! dst_shard r); apply side_same.
Qed.

Lemma side_proofs now elapsed i a t epoch proofs : keeps Side (proof_batch_loop now elapsed i a t epoch proofs).
Proof.
  revert i. induction proofs as [|p proofs IH]; intros i; simpl; [auto with node|].
  pose proof side_post. destruct t; auto 10 with node.
Qed.

Lemma side_responses now i a latencies proofs : keeps Side (post_response_loop now i a latencies proofs).
Proof.
  revert i. induction proofs as [|p proofs IH]; intros i; simpl; [auto with node|].
  pose proof side_post. auto 10 with node.
Qed.

(** *** Operations on validators *)

Lemma side_metrics a u d r i m p : keeps Side (update_validator_metrics a u d r i m p).
Proof.
  apply wp_keeps. intros s. unfold update_validator_metrics, validator_or_err. wp_run; [|reflexivity].
  apply side_validator; [reflexivity|]. intros Hb. exact (Hb a _ Hfound).
Qed.

Lemma side_drs now a score mult epoch : keeps Side (update_validator_drs now a score mult epoch).
Proof.
  apply wp_keeps. intros s. unfold update_validator_drs, validator_or_err. wp_run; [|reflexivity].
  assert (forall v : ValidatorInfo, has_bond a0 = has_bond v -> Side s (set_validator a v s)) as Hset.
  { intros v Hv. apply side_validator; [reflexivity|]. intros Hb. rewrite <-Hv. exact (Hb a _ Hfound). }
  destruct (get_account a _); [|by apply Hset].
  eapply (transitivity (y := set_validator a _ s)); [|by apply side_same]. by apply Hset.
Qed.

Lemma side_jail a why epochs slash : keeps Side (jail_validator a why epochs slash).
Proof.
  apply wp_keeps. intros s. unfold jail_validator, validator_or_err. wp_run; [|reflexivity].
  apply side_validator; [reflexivity|]. intros _. by case_bool_decide.
Qed.

Lemma side_stake now me amount pk rate lock :
  0 <= amount -> keeps Side (execute_stake now me amount pk rate lock).
Proof.
  intros Hp. apply wp_keeps. intros s. unfold execute_stake. apply wp_bind, wp_lift; [|reflexivity].
  intros me' _. apply wp_bind, wp_gets, wp_bind, wp_gets, wp_bind.
  destruct (s.(validators) !! from_public_key pk) as [v|] eqn:Hv.
  - apply wp_bind, wp_found; [|reflexivity]. intros total _. apply wp_bind, wp_modify, wp_bind.
    assert (Side s (set_validator (from_public_key pk) (v <| total_stake := total |>) s)) as H1'.
    { apply side_validator; [reflexivity|]. intros Hb. exact (Hb _ _ Hv). }
    case_bool_decide; (apply wp_bind, wp_found; [|done]); intros x Hx; apply wp_pure, wp_modify, wp_bind, wp_gets, wp_pure;
      rewrite set_validator_twice; (apply side_validator; [reflexivity|]); intros Hb;
      pose proof (Hb _ _ Hv) as Hbond; unfold has_bond in *; simpl; [|done].
    apply checked_add_Some in Hx. simpl in Hx. intros Hact. specialize (Hbond Hact). lia.
  - destruct rate as [rate|]; [|by apply wp_raise]. case_bool_decide; [by apply wp_raise|].
    apply wp_bind. unfold check_commission. case_bool_decide; [by apply wp_raise|]. apply wp_pure.
    case_bool_decide; [by apply wp_raise|]. apply wp_modify, wp_bind, wp_gets, wp_pure.
    apply side_validator; [reflexivity|]. intros _ _. simpl. lia.
Qed.

Lemma side_unstake now me amount pk unlock : keeps Side (execute_unstake now me amount pk unlock).
Proof.
  apply wp_keeps. intros s. unfold execute_unstake. apply wp_bind, wp_gets, wp_bind, wp_found; [|reflexivity].
  intros v Hv. case_bool_decide; [by apply wp_raise|]. apply wp_bind, wp_found; [|reflexivity].
  intros total _. set (v1 := if bool_decide (from_public_key pk = _) then _ else _).
  set (v2 := if bool_decide (_ < _) then _ else _).
  assert (has_bond v2) as Hv2 by (subst v2; unfold has_bond; case_bool_decide; [done|lia]).
  assert (Side s (set_validator (from_public_key pk) v2 s)) by (by apply side_validator).
  apply wp_bind, wp_modify, wp_bind, wp_lift; [|done]. intros me' _. by wp_run.
Qed.

Lemma side_delegate now me amount pk : keeps Side (execute_delegate now me amount pk).
Proof.
  apply wp_keeps. intros s. unfold execute_delegate. apply wp_bind, wp_lift; [|reflexivity]. intros me' _.
  apply wp_bind, wp_gets, wp_bind, wp_found; [|reflexivity]. intros v Hv.
  case_bool_decide; [by apply wp_raise|]. apply wp_bind, wp_found; [|reflexivity]. intros total _.
  assert (forall w : ValidatorInfo, w.(status) = v.(status) -> w.(own_stake) = v.(own_stake) ->
    Side s (set_validator (from_public_key pk) w s)) as Hset.
  { intros w Hst Hown. apply side_validator; [reflexivity|]. intros Hb.
    pose proof (Hb _ _ Hv) as Hbond. unfold has_bond in *. by rewrite Hst, Hown. }
  apply wp_bind, wp_modify, wp_bind, wp_found; [|by apply Hset]. intros x _.
  apply wp_bind, wp_modify, wp_bind, wp_gets, wp_pure. rewrite set_validator_twice. by apply Hset.
Qed.

(** *** Transactions *)

Lemma side_payload now elapsed tx me :
  typed_payload tx.(payload) -> keeps Side (execute_payload now elapsed tx me).
Proof.
  intros Ht. unfold execute_payload.
  pose proof side_credit. pose proof side_create. pose proof side_register_entry. pose proof side_usage.
  pose proof side_proofs. pose proof side_responses. pose proof side_metrics. pose proof side_drs.
  pose proof side_slice. pose proof side_device. pose proof side_slice_status. pose proof side_receipt.
  destruct tx.(payload); simpl in Ht; try solve [auto with node].
  - unfold execute_transfer. auto 20 with node.
  - unfold execute_create_account. auto 20 with node.
  - unfold execute_update_account. auto 20 with node.
  - unfold execute_store_data. auto 20 with node.
  - unfold execute_update_triad. auto 20 with node.
  - unfold execute_proof_batch. auto 20 with node.
  - unfold execute_post_response. auto 20 with node.
  - unfold execute_claim_rewards. destruct (bool_decide _); [auto with node|].
    apply keeps_bind; [exact _| |intros ?; auto 10 with node].
    intros s. unfold take_reward. destruct (bool_decide _); [reflexivity|by apply side_same].
  - unfold execute_buy_storage_credits. auto 20 with node.
  - unfold execute_buy_deploy_credits. auto 20 with node.
  - apply side_stake, Ht.
  - apply side_unstake.
  - apply side_delegate.
  - unfold execute_cross_shard. auto 20 with node.
  - unfold execute_slice_operation. destruct operation; auto 20 with node.
Qed.

Lemma side_execute now elapsed tx :
  typed_payload tx.(payload) -> keeps Side (execute_transaction now elapsed tx).
Proof.
  intros Ht. unfold execute_transaction, charge_fee. pose proof side_credit.
  pose proof (fun me => side_payload now elapsed tx me Ht).
  apply keeps_bind; [exact _|auto with node|]. intros a.
  apply keeps_bind; [exact _|auto with node|]. intros me.
  apply keeps_bind; [exact _|auto with node|]. intros u.
  destruct (bool_decide _); [auto with node|].
  apply keeps_bind; [exact _|auto 10 with node|]. intros me1.
  apply keeps_bind; [exact _|auto with node|]. intros [me2 r]. auto 10 with node.
Qed.

Lemma mark_processed_mono src dst n s : Side s (mark_processed src dst n s).
Proof.
  split; [|done]. intros src' dst' n'. unfold is_processed, mark_processed. simpl. rewrite !bool_decide_eq_true.
  destruct (decide ((src', dst') = (src, dst))) as [->|Hn];
    [rewrite lookup_insert_eq|rewrite lookup_insert_ne by done]; set_solver.
Qed.

Lemma is_processed_mark src dst n s : is_processed src dst n (mark_processed src dst n s) = true.
Proof.
  unfold is_processed, mark_processed. simpl. rewrite lookup_insert_eq. apply bool_decide_eq_true. set_solver.
Qed.

Lemma side_inbound now r : keeps Side (apply_inbound_receipt now r).
Proof.
  unfold apply_inbound_receipt. pose proof side_credit. pose proof mark_processed_mono.
  apply keeps_bind; [exact _|auto with node|]. intros b. destruct b; [auto with node|].
  apply keeps_bind; [exact _|auto with node|]. intros epoch. destruct (bool_decide _); [auto with node|].
  apply keeps_bind; [exact _|auto with node|]. intros msg.
  apply keeps_bind; [exact _|destruct msg; auto with node|]. intros _. auto with node.
Qed.

(** The nonces a pair of shards used are dropped only when there are very many. *)
Definition few_nonces (s : StateManager) : Prop :=
  map_Forall (fun _ ns => (size ns <= 100000)%nat) s.(processed_receipt_nonces).

Lemma drop_few s : few_nonces s -> drop_old_nonces s = s.
Proof.
  intros Hf. unfold drop_old_nonces. assert (filter (fun kv => (size kv.2 <= 100000)%nat) s.(processed_receipt_nonces)
    = s.(processed_receipt_nonces)) as He.
  { apply map_filter_id. intros k ns Hk. by apply (Hf k). }
  destruct s. simpl in *. unfold RecordSettersUsingExistingGetters.set. simpl. by rewrite He.
Qed.

Lemma prune_few epoch s : few_nonces s -> Side s (prune_old_data epoch s).2.
Proof.
  intros Hf. unfold prune_old_data. destruct (negb _); [reflexivity|]. simpl.
  unfold prune_expired_storage, prune_expired_receipts.
  repeat match goal with |- context [if ?b then _ else _] => destruct b end;
    simpl; rewrite drop_few by done; by apply side_same.
Qed.

Lemma prune_bonds epoch s : bonded s -> bonded (prune_old_data epoch s).2.
Proof.
  intros Hb. unfold prune_old_data. destruct (negb _); [done|]. simpl.
  unfold prune_expired_storage, prune_expired_receipts.
  by repeat match goal with |- context [if ?b then _ else _] => destruct b end.
Qed.

Lemma register_side info s :
  has_bond info ->
  Side s (register_validator info s).2 /\ Side s (register_storage_validator info s).2.
Proof.
  intros Hi. unfold register_validator, register_storage_validator, bind, check_commission.
  assert (Side s (set_validator info.(v_address) info s)) by (by apply side_validator).
  split; repeat case_bool_decide; simpl; done.
Qed.

Lemma register_receipts info s :
  let same s' := s'.(processed_receipt_nonces) = s.(processed_receipt_nonces) in
  same (register_validator info s).2 /\ same (register_storage_validator info s).2.
Proof.
  unfold register_validator, register_storage_validator, bind, check_commission.
  split; repeat case_bool_decide; done.
Qed.

(** The operations with a condition are the registrations and the pruning. *)
Definition plain (o : Op) : bool :=
  match o with
  | OpValidator _ | OpStorageValidator _ | OpPrune _ => false
  | _ => true
  end.

Lemma run_op_side o s : typed_op o -> plain o = true -> Side s (run_op o s).
Proof.
  intros Ht Hp. destruct o; simplify_eq/=; try by apply side_same.
  - by apply side_execute.
  - apply side_create.
  - apply side_register_entry.
  - apply side_post.
  - unfold prune_expired_storage. destruct (negb _); [reflexivity|by apply side_same].
  - apply side_metrics.
  - apply side_drs.
  - apply side_jail.
  - apply side_slice.
  - apply side_device.
  - apply side_usage.
  - unfold init_cross_shard_state. case_bool_decide; [reflexivity|by apply side_same].
  - apply side_receipt.
  - unfold process_cross_shard_receipt. destruct (_ !! id) as [p|]; [|reflexivity].
    case_bool_decide; [by apply side_same|]. etrans; [apply mark_processed_mono|by apply side_same].
  - apply side_inbound.
Qed.
End Runs.
