(* ===== verification/NodeTheorems.v ===== *)
(** * What the account state promises

    The properties of [StateManager], of the transactions it executes, of the files
    it is kept in and of the accounts of storage providers. *)
From Stdlib Require Import Floats.SpecFloat.
From coqutil Require Import Datatypes.RecordSettersUsingExistingGetters.
From S2P Require Import Prelude Crypto Blocks NodeAccount NodeTx NodeState NodeFacts NodeRuns.
Import RecordSetNotations1.
Local Open Scope Z_scope.
Local Open Scope ego_scope.

Section Theorems.
Context `{CryptoPrims} `{NodePrims} `{TxPrims} `{EventPrims} `{HashOrder}.

(** C33: Where the coins go.  After a transaction that succeeds, all balances, stakes
    and the reward pool together are what they were before, less exactly what was
    spent on credits, went to another shard, or was sent by an account to itself (which
    loses it); the fee stays in the state, unless the burn address itself pays it. *)
Theorem node_supply_accounted now elapsed tx s r s' :
  wf s -> typed_payload tx.(payload) ->
  execute_transaction now elapsed tx s = (Done r, s') ->
  coins s' + spent tx.(from) tx.(payload)
  + (if bool_decide (burn_address = tx.(from)) then net_fee tx else 0) = coins s.
Proof.
  intros Hwf Ht He. destruct (wp_Done _ _ _ _ _ _ (wp_execute now elapsed tx s Hwf Ht) He)
    as (a & _ & _ & Hex). apply Hex.
Qed.

(** C35: What a failed transaction leaves.  Every account keeps its nonces and its
    balance, but for the burn address, which may have got the fee; the sum of all
    balances is what it was, or has grown by that fee. *)
Theorem failure_keeps_accounts now elapsed tx s e s' :
  wf s -> typed_payload tx.(payload) ->
  execute_transaction now elapsed tx s = (Fail e, s') ->
  exists c, (c = 0 \/ c = net_fee tx)
  /\ msum balance s'.(accounts) = msum balance s.(accounts) + c
  /\ forall k a, s.(accounts) !! k = Some a -> exists a', s'.(accounts) !! k = Some a' /\ same_id a a'
     /\ a'.(balance) = a.(balance) + (if bool_decide (k = burn_address) then c else 0).
Proof.
  intros Hwf Ht He. pose proof (wp_Fail _ _ _ _ _ _ (wp_execute now elapsed tx s Hwf Ht) He) as Hf.
  pose proof (failed_grows _ _ _ Hf) as Hg.
  destruct Hf as [->|(s1 & Hch & Hg1 & Hb)].
  - exists 0. split_and!; [by left|lia|]. intros k a Ha. exists a.
    split_and!; [done|reflexivity|case_bool_decide; lia].
  - assert (forall k a a1 a', s1.(accounts) !! k = Some a1 -> s'.(accounts) !! k = Some a' ->
      s.(accounts) !! k = Some a -> a'.(balance) = a1.(balance)) as Hbal.
    { intros k a a1 a' H1' H2' _. pose proof (f_equal (lookup k) Hb) as Hl. rewrite !lookup_fmap in Hl.
      rewrite H1', H2' in Hl. by simplify_eq/=. }
    exists (net_fee tx). split_and!; [by right| |].
    + rewrite (msum_fmap _ _ _ Hb). destruct Hch as [[-> ->]|Hcr]; [lia|by eapply credited_balances].
    + intros k a Ha. destruct (grows_old _ _ Hg k a Ha) as (a' & Ha' & Hid & _).
      exists a'. split_and!; [done|done|].
      destruct (grows_old _ _ (charged_grows _ _ _ Hch) k a Ha) as (a1 & Ha1 & _ & _).
      rewrite (Hbal k a a1 a' Ha1 Ha' Ha).
      destruct Hch as [[-> ->]|Hcr]; [simplify_eq; case_bool_decide; lia|].
      case_bool_decide as Hk.
      * subst k. destruct Hcr as [b -> Hadr Hbb _ _]. rewrite set_account_lookup, Hadr in Ha1.
        rewrite bool_decide_true in Ha1 by done. simplify_eq. by rewrite Hbb, Ha.
      * rewrite (credited_other _ _ _ _ k Hcr Hk) in Ha1. simplify_eq. lia.
Qed.

(** An account loses coins only by a transaction of its own that passed the check. *)
Lemma loses_coins o s k a a' :
  wf s -> typed_op o ->
  s.(accounts) !! k = Some a -> (run_op o s).(accounts) !! k = Some a' -> a'.(balance) < a.(balance) ->
  exists now elapsed tx, o = OpTx now elapsed tx /\ tx.(from) = k
    /\ tx_verify_signature tx = Ok true
    /\ tx.(public_keys).(tk_dilithium_pk).(key_data) = a.(dilithium_pk)
    /\ from_public_key tx.(public_keys).(tk_dilithium_pk) = k
    /\ tx.(tx_nonce) = expected_nonce tx a.
Proof.
  intros Hwf Ht Ha Ha' Hlt.
  assert (forall s', Grows s s' -> forall b, s'.(accounts) !! k = Some b -> a.(balance) <= b.(balance)) as Hno.
  { intros s' Hg b Hb. destruct (grows_old _ _ Hg k a Ha) as (b' & Hb' & _ & Hle). by simplify_eq. }
  destruct (is_tx o) eqn:Htx; [|pose proof (Hno _ (other_grows o s ltac:(apply Hwf) Htx) _ Ha'); lia].
  apply is_tx_inv in Htx as (now & elapsed & tx & ->). simpl in *. exists now, elapsed, tx.
  destruct (execute_cases now elapsed tx s Hwf Ht) as [Hf|(b & Hb & Hval & Hex)].
  { pose proof (Hno _ (failed_grows _ _ _ Hf) _ Ha'). lia. }
  pose proof Hwf as (Hk & _). destruct (executed_lookup _ _ _ _ _ Hk Hb Hex)
    as (me & mid & Hg & _ & _ & _ & Hl & _).
  rewrite Hl in Ha'. case_bool_decide as Hke; [|pose proof (Hno _ Hg _ Ha'); lia]. subst k. simplify_eq.
  apply validated in Hval as (Hkey & Hsig & Hn). split_and!; try done.
  unfold tx_verify_signature in Hsig. by case_bool_decide.
Qed.

(** C2: Only its owner spends an account.  If an operation of any kind (of [Op]),
    with any arguments, leaves an account with fewer coins than before, it was a
    transaction of that account, under the key stored in it, with a valid signature and
    the next nonce. *)
Theorem spending_is_signed o s k a a' :
  wf s -> typed_op o ->
  s.(accounts) !! k = Some a -> (run_op o s).(accounts) !! k = Some a' -> a'.(balance) < a.(balance) ->
  exists now elapsed tx, o = OpTx now elapsed tx /\ tx.(from) = k
    /\ tx_verify_signature tx = Ok true
    /\ tx.(public_keys).(tk_dilithium_pk).(key_data) = a.(dilithium_pk)
    /\ from_public_key tx.(public_keys).(tk_dilithium_pk) = k
    /\ tx.(tx_nonce) = expected_nonce tx a.
Proof. apply loses_coins. Qed.

(** C34: No transaction succeeds twice.  Once a transaction has succeeded, whatever
    operations follow, executing it again fails and changes nothing.  (A nonce of 0 is
    never expected but from an account that has used all others.) *)
Theorem no_replay now elapsed tx r s s1 ok s2 now' elapsed' :
  wf s -> all_numbered s -> typed_payload tx.(payload) -> tx.(tx_nonce) <> 0 ->
  execute_transaction now elapsed tx s = (Done r, s1) -> rtc (Step ok) s1 s2 ->
  exists e, execute_transaction now' elapsed' tx s2 = (Fail e, s2).
Proof.
  intros Hwf Hn Ht Hnz He Hrun.
  destruct (wp_Done _ _ _ _ _ _ (wp_execute now elapsed tx s Hwf Ht) He) as (a & Ha & Hval & Hex).
  pose proof (execute_wf now elapsed tx s Hwf Ht) as Hwf1. rewrite He in Hwf1.
  destruct (executed_lookup _ _ _ _ _ ltac:(apply Hwf) Ha Hex) as (me & mid & Hg & Hc & _ & _ & Hl & _).
  pose proof (execute_ages now elapsed tx s Hwf Ht Hn) as [Hn1 _]. rewrite He in Hn1.
  assert (s1.(accounts) !! tx.(from) = Some me) as Hme by (rewrite Hl; by rewrite bool_decide_true).
  destruct (steps_ages _ _ _ Hrun Hwf1 Hn1) as [Hn2 Hold].
  destruct (Hold _ _ Hme) as (b & Hb & _ & Hnb & Hsb).
  apply refused. intros b' Hb' Hv. simplify_eq. apply validated in Hval as (_ & _ & Hexp).
  apply validated in Hv as (_ & _ & Hexp').
  destruct (counted_numbered _ _ _ _ Hc (Hn _ _ Ha)) as [_ _].
  pose proof (shard_nonce_range tx.(shard_id) a (Hn _ _ Ha)) as Hra.
  pose proof (shard_nonce_range tx.(shard_id) b (Hn2 _ _ Hb)) as Hrb.
  destruct (Hn _ _ Ha) as [Hra0 _]. destruct (Hn2 _ _ Hb) as [Hrb0 _].
  specialize (Hsb tx.(shard_id)).
  assert (get_shard_nonce tx.(shard_id) me = get_shard_nonce tx.(shard_id) (count_nonce now tx a)) as Hs.
  { unfold get_shard_nonce. by rewrite (ct_shards _ _ _ _ Hc). }
  rewrite Hs, count_nonce_shard, bool_decide_true, andb_true_r in Hsb by (done || apply (Hn _ _ Ha)).
  rewrite (ct_nonce _ _ _ _ Hc) in Hnb.
  unfold expected_nonce, wrap64, count_nonce in *. destruct (is_cross_shard tx); simpl in *.
  all: unfold in_u64, sat_add, u64_max in *; Z.div_mod_to_equations; lia.
Qed.

(** ** Signatures *)

(** The algorithms accept what this key pair signs. *)
Record sound_pair (kp : KeyPair) : Prop := MkSoundPair {
  sp_dilithium : forall m, ml_dsa_verify kp.(kp_dilithium_pk) m (ml_dsa_sign kp.(kp_dilithium_sk) m) = true;
  sp_ed25519 : forall m, ed25519_verify kp.(kp_ed25519_pk) m (ed25519_sign kp.(kp_ed25519_sk) m) = Ok true;
  sp_key_length : length kp.(kp_ed25519_pk) = 32%nat;
  sp_sig_length : forall m, length (ed25519_sign kp.(kp_ed25519_sk) m) = 64%nat;
}.

Lemma sign_dilithium_verifies kp m :
  sound_pair kp -> verify_signature (dilithium_public_key kp) m (sign_dilithium kp m) = Ok true.
Proof. intros Hkp. unfold verify_signature. simpl. by rewrite (sp_dilithium kp). Qed.

Lemma sign_ed25519_verifies kp m :
  sound_pair kp -> verify_signature (ed25519_public_key kp) m (sign_ed25519 kp m) = Ok true.
Proof.
  intros Hkp. unfold verify_signature. simpl. rewrite bool_decide_false by (rewrite (sp_key_length kp); [lia|done]).
  unfold sig_ed25519_bytes. simpl. rewrite bool_decide_true by (by apply sp_sig_length). simpl.
  rewrite take_ge by (by rewrite (sp_key_length kp)). by apply sp_ed25519.
Qed.

(** The signature and the hash are not signed. *)
Lemma signing_data_sig tx sig h :
  create_signing_data (tx <| signature := sig |> <| tx_hash := h |>) = create_signing_data tx.
Proof. done. Qed.

Lemma signs_payload tx body :
  bincode_payload tx.(payload) = Ok body -> exists d, create_signing_data tx = Ok d.
Proof. intros E. unfold create_signing_data. rewrite E. eauto. Qed.

#[local] Arguments verify_signature : simpl never.
#[local] Arguments sign_dilithium : simpl never.
#[local] Arguments sign_ed25519 : simpl never.
#[local] Arguments dilithium_public_key : simpl never.
#[local] Arguments ed25519_public_key : simpl never.

(** What [sign] signs, [verify_signature] accepts, in every mode.  The owner of
    an address always gets a signed transaction, with the sender, the nonce and the
    payload it had. *)
Theorem signed_verifies kp kyber kp_transition transition_mode tx body :
  sound_pair kp -> from_public_key (dilithium_public_key kp) = tx.(from) ->
  bincode_payload tx.(payload) = Ok body ->
  exists tx', sign kp kyber kp_transition transition_mode tx = Ok tx'
    /\ tx_verify_signature tx' = Ok true
    /\ tx'.(from) = tx.(from) /\ tx'.(tx_nonce) = tx.(tx_nonce) /\ tx'.(payload) = tx.(payload).
Proof.
  intros Hkp Hfrom Hbody. unfold sign.
  destruct transition_mode; cbv beta zeta iota;
    match goal with |- context [create_signing_data ?x] => set (tx1 := x) end;
    (destruct (signs_payload tx1 body Hbody) as (d & Hd)); rewrite bool_decide_false by (by intros ?); rewrite Hd.
  all: eexists; split; [reflexivity|]; split; [|done].
  all: unfold tx_verify_signature; rewrite bool_decide_false by (by intros ?); rewrite signing_data_sig, Hd.
  - unfold verify_dual_signature. simpl. rewrite sign_ed25519_verifies by done. simpl. by rewrite (sp_dilithium kp).
  - destruct kp_transition; simpl; by apply sign_dilithium_verifies.
Qed.

Definition blake2s_collision : Prop := exists a b, a <> b /\ blake2s a = blake2s b.

(** The widths of the fields. *)
Record typed_tx (tx : Transaction) : Prop := MkTypedTx {
  tt_from : length tx.(from) = 20%nat;
  tt_u64 : Forall in_u64 [tx.(tx_nonce); tx.(timestamp); tx.(ru_limit); tx.(ru_estimate); tx.(pob_burn_credits)];
  tt_u32 : Forall in_u32 [tx.(shard_id); tx.(protocol_version); tx.(chain_id)];
}.

Lemma u64_le_app x y l m :
  in_u64 x -> in_u64 y -> u64_le x ++ l = u64_le y ++ m -> x = y /\ l = m.
Proof.
  intros Hx Hy E. apply app_inj_1 in E as [E El]; [|by rewrite !length_u64_le]. split; [|done].
  apply (to_le_bytes_inj 8) in E; [done|unfold in_u64, u64_max in *; simpl; lia..].
Qed.

Lemma u32_le_app x y l m :
  in_u32 x -> in_u32 y -> u32_le x ++ l = u32_le y ++ m -> x = y /\ l = m.
Proof.
  intros Hx Hy E. apply app_inj_1 in E as [E El]; [|by rewrite !length_u32_le]. split; [|done].
  apply (to_le_bytes_inj 4) in E; [done|unfold in_u32, u32_max in *; simpl; lia..].
Qed.

(** A signature is of one sender, nonce, time, shard, chain and budget.  Two
    transactions that sign the same bytes agree on these fields, unless they exhibit
    a collision of the hash: a signature is of no use on another chain or shard,
    for another nonce or with a higher fee. *)
Theorem signature_binds tx tx' d :
  typed_tx tx -> typed_tx tx' -> create_signing_data tx = Ok d -> create_signing_data tx' = Ok d ->
  blake2s_collision \/
  tx.(from) = tx'.(from) /\ tx.(tx_nonce) = tx'.(tx_nonce) /\ tx.(timestamp) = tx'.(timestamp)
  /\ tx.(shard_id) = tx'.(shard_id) /\ tx.(protocol_version) = tx'.(protocol_version)
  /\ tx.(chain_id) = tx'.(chain_id) /\ tx.(ru_limit) = tx'.(ru_limit) /\ tx.(ru_estimate) = tx'.(ru_estimate)
  /\ tx.(pob_burn_credits) = tx'.(pob_burn_credits) /\ tx.(priority_hint) = tx'.(priority_hint).
Proof.
  intros [Hf H64 H32] [Hf' H64' H32']. unfold create_signing_data.
  destruct (bincode_payload tx.(payload)) as [b|]; [|done].
  destruct (bincode_payload tx'.(payload)) as [b'|]; [|done]. intros E E'. rewrite <-E' in E. clear E'.
  match type of E with Ok (blake2s ?x) = Ok (blake2s ?y) => destruct (decide (x = y)) as [Ed|Hne] end;
    [|left; eexists _, _; split; [exact Hne|congruence]]. right. clear E.
  apply app_inj_1 in Ed as [_ Ed]; [|done]. apply app_inj_1 in Ed as [? Ed]; [|congruence].
  repeat match goal with Hl : Forall _ (_ :: _) |- _ => apply Forall_cons in Hl as [? ?] end.
  repeat (first [apply u64_le_app in Ed as [? Ed]|apply u32_le_app in Ed as [? Ed]]; [|done..]).
  injection Ed as Ep _. by split_and!.
Qed.

(** ** Transfers that are executed *)

Definition bal (k : Address) (s : StateManager) : Z := from_option balance 0 (s.(accounts) !! k).

Lemma bal_set_account a k s :
  bal k (set_account a s) = if bool_decide (k = a.(address)) then a.(balance) else bal k s.
Proof.
  unfold bal. rewrite set_account_lookup. by case_bool_decide.
Qed.

(** A credit that fits is done. *)
Lemma credit_account_done now to amount s :
  keyed s -> bal to s + amount <= u128_max ->
  exists b, credit_account now to amount s = (Done tt, set_account b s)
    /\ b.(address) = to /\ b.(balance) = bal to s + amount.
Proof.
  intros Hk Hle. unfold credit_account, bind, gets, account_or_new, get_account, credit, checked_add.
  unfold bal in *. destruct (s.(accounts) !! to) as [c|] eqn:Hc; simpl in *.
  all: rewrite bool_decide_true by done; eexists; split; [reflexivity|]; simpl; auto.
Qed.

Lemma debit_done now amount a :
  amount <= a.(balance) -> debit now amount a = Ok (a <| balance := a.(balance) - amount |> <| last_activity := now |>).
Proof. intros Hle. unfold debit, can_spend, checked_sub. by rewrite !bool_decide_true by lia. Qed.

Lemma charge_fee_done now tx me s :
  keyed s -> net_fee tx <= me.(balance) -> bal burn_address s + net_fee tx <= u128_max ->
  exists me' s', charge_fee now tx me s = (Done me', s') /\ keyed s'
    /\ me'.(address) = me.(address) /\ me'.(balance) = me.(balance) - net_fee tx
    /\ forall k, bal k s' = bal k s + (if bool_decide (k = burn_address) then net_fee tx else 0).
Proof.
  intros Hk Hle Hfit. pose proof (net_fee_nonneg tx). unfold charge_fee. case_bool_decide.
  - destruct (credit_account_done now burn_address (net_fee tx) s) as (b & Hb & Hadr & Hbal); [done..|].
    unfold bind. rewrite debit_done by done. simpl. rewrite Hb.
    eexists _, _. split; [reflexivity|]. split_and!; [|done..|].
    + intros k c. rewrite set_account_lookup. case_bool_decide; [naive_solver|by apply Hk].
    + intros k. rewrite bal_set_account, Hadr. repeat case_bool_decide; subst; lia.
  - exists me, s. split_and!; [done..|lia|]. intros k. case_bool_decide; lia.
Qed.

(** A transaction that passes the check asks for no more than its limit. *)
Lemma validated_limit now tx a :
  validate_against_account now tx a = Ok tt -> ~ tx.(ru_estimate) > tx.(ru_limit).
Proof.
  unfold validate_against_account. case_bool_decide; [done|].
  destruct (tx_verify_signature tx) as [[]|]; [|done..]. simpl. by repeat (case_bool_decide; [done|]).
Qed.


(** ** Receipts *)

(** Pruning happens while no pair of shards has used more than 100000 nonces. *)
Definition few_when_pruned (o : Op) (s : StateManager) : Prop :=
  match o with
  | OpPrune _ => few_nonces s
  | _ => True
  end.

Lemma step_receipts o s src dst n :
  typed_op o -> few_when_pruned o s ->
  is_processed src dst n s = true -> is_processed src dst n (run_op o s) = true.
Proof.
  intros Ht Hok Hp. destruct (plain o) eqn:Hpl; [by apply (side_receipts _ _ (run_op_side o s Ht Hpl))|].
  destruct o; simplify_eq/=.
  - unfold is_processed. by rewrite (proj1 (register_receipts _ _)).
  - unfold is_processed. by rewrite (proj2 (register_receipts _ _)).
  - by apply (side_receipts _ _ (prune_few _ _ Hok)).
Qed.

(** C37: A receipt from another shard is applied once.  Once a receipt was applied,
    any receipt with its shards and nonce is refused, whatever operations come in
    between, and changes nothing (as long as pruning finds at most 100000 nonces of a
    pair of shards). *)
Theorem receipt_applied_once now r s s1 s2 now' r' :
  apply_inbound_receipt now r s = (Done tt, s1) -> rtc (Step few_when_pruned) s1 s2 ->
  r'.(src_shard) = r.(src_shard) -> r'.(dst_shard) = r.(dst_shard) -> r'.(rc_nonce) = r.(rc_nonce) ->
  apply_inbound_receipt now' r' s2
  = (Fail (InvalidTransaction "cross-shard receipt already applied"), s2).
Proof.
  intros He Hrun Hsrc Hdst Hn.
  assert (is_processed r.(src_shard) r.(dst_shard) r.(rc_nonce) s1 = true) as Hp.
  { unfold apply_inbound_receipt, bind, gets, raise, lift, modify in He.
    destruct (is_processed _ _ _ s); [done|]. case_bool_decide; [done|].
    unfold found, lift in He. destruct (message_decode _) as [msg|]; simpl in He; [|done].
    match type of He with context [match ?m s with _ => _ end] => destruct (m s) as [[u|e|] s0] end;
      simplify_eq. apply is_processed_mark. }
  assert (is_processed r.(src_shard) r.(dst_shard) r.(rc_nonce) s2 = true) as Hp2.
  { clear He. induction Hrun as [|x y z (o & Ht & Hok & ->) _ IH]; [done|].
    apply IH. by apply step_receipts. }
  unfold apply_inbound_receipt, bind, gets. by rewrite Hsrc, Hdst, Hn, Hp2.
Qed.

(** The coins a receipt brings. *)
Lemma inbound_coins now r d d' :
  keyed d -> apply_inbound_receipt now r d = (Done tt, d') ->
  coins d' = coins d + message_coins r.(rc_payload).
Proof.
  intros Hk He. eapply (wp_Done _ (fun _ d' => coins d' = coins d + message_coins r.(rc_payload))
    (fun _ => True)) in He; [done|]. clear He d'.
  unfold apply_inbound_receipt. apply wp_bind, wp_gets. destruct (is_processed _ _ _ d); [done|].
  apply wp_bind, wp_gets. case_bool_decide; [done|]. apply wp_bind, wp_found; [|done]. intros msg Hmsg.
  unfold message_coins. rewrite Hmsg. simpl. apply wp_bind.
  apply wp_mono with (Q := fun _ d1 => coins d1 = coins d + Z.max 0 (locked_amount msg)) (E := fun _ => True);
    [|intros ? d1 Hd1; by apply wp_modify|done].
  assert (forall to amount, 0 < amount -> wp (credit_account now to amount)
    (fun _ d1 => coins d1 = coins d + amount) (fun _ => True) d) as Hcr.
  { intros to amount Hpos. eapply wp_mono; [apply wp_credit_account; [done|lia]| |done].
    cbv beta. intros ? d1 Hc. pose proof (credited_balances _ _ _ _ Hc) as Hb.
    destruct Hc as [b -> _ _ _ _]. unfold coins in *. simpl in *. lia. }
  destruct msg as [to amount|to ? ? amount ?]; simpl; (case_bool_decide; [|apply wp_pure; lia]);
    (eapply wp_mono; [apply Hcr; lia|intros ? d1 ->; lia|done]).
Qed.

(** The receipt a transaction to another shard returns. *)
Lemma cross_receipt now elapsed tx s r s' target message h deadline n :
  tx.(payload) = CrossShard target message h deadline n ->
  execute_transaction now elapsed tx s = (Done r, s') ->
  r.(cross_shard_receipts) = [MkReceipt tx.(shard_id) target ZERO_HASH tx.(tx_hash) message n deadline []].
Proof.
  intros Hp He. eapply (wp_Done _ (fun r _ => r.(cross_shard_receipts)
    = [MkReceipt tx.(shard_id) target ZERO_HASH tx.(tx_hash) message n deadline []]) (fun _ => True)) in He;
    [done|]. clear He r s'.
  unfold execute_transaction. do 3 (apply wp_bind_any; intros ? ?). case_bool_decide; [done|].
  apply wp_bind_any. intros me s2. apply wp_bind. unfold execute_payload. rewrite Hp.
  eapply wp_mono with (E := fun _ => True) (Q := fun p _ => p.2.(cross_shard_receipts)
    = [MkReceipt tx.(shard_id) target ZERO_HASH tx.(tx_hash) message n deadline []]); [| |done].
  - unfold execute_cross_shard. do 3 (apply wp_bind_any; intros ? ?). by wp_run.
  - intros [me' r] s3 Hr. by wp_run.
Qed.

(** C36: Coins are safe between shards.  When a transaction to another shard succeeds
    here and the receipt it returned is applied there, the coins of the two shards
    together are what they were. *)
Theorem cross_shard_conserved now elapsed tx target message h deadline n s r s' rc now' d d' :
  wf s -> keyed d -> tx.(payload) = CrossShard target message h deadline n -> tx.(from) <> burn_address ->
  execute_transaction now elapsed tx s = (Done r, s') ->
  rc ∈ r.(cross_shard_receipts) -> apply_inbound_receipt now' rc d = (Done tt, d') ->
  coins s' + coins d' = coins s + coins d.
Proof.
  intros Hwf Hk Hp Hburn He Hrc Hin. rewrite (cross_receipt _ _ _ _ _ _ _ _ _ _ _ Hp He) in Hrc.
  apply list_elem_of_singleton in Hrc as ->. apply inbound_coins in Hin; [|done]. simpl in Hin.
  destruct (wp_Done _ _ _ _ _ _ (wp_execute now elapsed tx s Hwf ltac:(by rewrite Hp)) He)
    as (a & _ & _ & Hex). pose proof (ex_coins _ _ _ _ _ Hex) as Hc.
  rewrite Hp, bool_decide_false in Hc by done. simpl in Hc. lia.
Qed.

(** ** Validators *)

(** Validators are registered with their bond. *)
Definition registered_with_bond (o : Op) (s : StateManager) : Prop :=
  match o with
  | OpValidator info | OpStorageValidator info => has_bond info
  | _ => True
  end.

(** Active validators are bonded.  Along any run an active validator has at
    least the minimum stake of its own: staking, delegating, unstaking, slashing and the
    updates of its records keep it, when registrations from outside do. *)
Theorem active_validators_bonded s s' :
  bonded s -> rtc (Step registered_with_bond) s s' -> bonded s'.
Proof.
  intros Hb Hrun. induction Hrun as [|x y z (o & Ht & Hok & ->) _ IH]; [done|]. apply IH.
  destruct (plain o) eqn:Hpl; [by apply (side_bonds _ _ (run_op_side o x Ht Hpl))|].
  destruct o; simplify_eq/=.
  - by apply (side_bonds _ _ (proj1 (register_side _ x Hok))).
  - by apply (side_bonds _ _ (proj2 (register_side _ x Hok))).
  - by apply prune_bonds.
Qed.

(** ** New accounts *)

(** The key of an account that a transfer makes, and addresses it does not hash to. *)
Definition zero_key : bytes := repeat 0 1312.
Definition not_of_zero_key (k : Address) : Prop :=
  forall alg, from_public_key (MkPublicKey alg zero_key) <> k.

Lemma zero_key_refused now elapsed tx s a :
  s.(accounts) !! tx.(from) = Some a -> a.(dilithium_pk) = zero_key -> not_of_zero_key tx.(from) ->
  exists e, execute_transaction now elapsed tx s = (Fail e, s).
Proof.
  intros Ha Hz Hno. apply refused. intros b Hb Hv. simplify_eq. apply validated in Hv as (Hkey & Hsig & _).
  unfold tx_verify_signature in Hsig. case_bool_decide as Hfrom; [done|].
  destruct (tk_dilithium_pk (public_keys tx)) as [alg key]. simpl in Hkey. subst key.
  rewrite Hz in Hfrom. by apply (Hno alg).
Qed.

Lemma transfer_credits now elapsed tx to amount memo stealth s r s1 :
  wf s -> tx.(payload) = Transfer to amount memo stealth -> 0 <= amount -> to <> tx.(from) ->
  s.(accounts) !! to = None ->
  execute_transaction now elapsed tx s = (Done r, s1) ->
  exists b, s1.(accounts) !! to = Some b /\ amount <= b.(balance).
Proof.
  intros (Hk & Hr & _) Hp Hpos Hne Hnone He.
  eapply (wp_Done _ (fun _ s1 => exists b, s1.(accounts) !! to = Some b /\ amount <= b.(balance))
    (fun _ => True)) in He; [done|]. clear He r s1. unfold execute_transaction, get_account.
  apply wp_bind, wp_gets, wp_bind, wp_found; [|done]. intros a Ha. apply wp_bind, wp_lift; [|done].
  intros ? _. case_bool_decide; [done|]. apply wp_bind.
  eapply wp_mono; [by apply wp_charge_fee| |done]. intros me s2 (Hid & _ & _ & Hch).
  pose proof (charged_grows _ _ _ Hch) as Hg. pose proof (grows_keyed _ _ Hg Hk) as Hk2.
  pose proof (grows_range _ _ Hg Hr) as Hr2. apply wp_bind. unfold execute_payload. rewrite Hp.
  apply wp_mono with (E := fun _ => True) (Q := fun p s3 => p.1.(address) = tx.(from)
    /\ exists b, s3.(accounts) !! to = Some b /\ amount <= b.(balance)); [| |done].
  - unfold execute_transfer. apply wp_bind, wp_lift; [|done]. intros me' Hd. apply wp_bind.
    eapply wp_mono; [by apply wp_credit_account| |done]. cbv beta. intros ? s3 [b -> Hadr Hbb _ _].
    destruct (checked_add _ _); [|done]. wp_run. simpl. split.
    { rewrite (id_address _ _ (debit_same _ _ _ _ Hd)), (id_address _ _ Hid).
      destruct (count_nonce_frame now tx a) as (-> & _). by apply Hk. }
    exists b. rewrite Hadr, lookup_insert_eq, Hbb. split; [done|].
    destruct (s2.(accounts) !! to) as [c|] eqn:Hc; simpl; [|lia]. specialize (Hr2 _ _ Hc).
    unfold in_u128 in Hr2. lia.
  - intros [me' r] s3 (Hadr & b & Hb & Hle). wp_run. exists b. split; [|done].
    simpl in *. by rewrite Hadr, lookup_insert_ne.
Qed.

(** No operation changes the key of such an account or takes its coins. *)
Lemma frozen_step o s k a :
  wf s -> typed_op o -> not_of_zero_key k -> s.(accounts) !! k = Some a -> a.(dilithium_pk) = zero_key ->
  exists b, (run_op o s).(accounts) !! k = Some b /\ b.(dilithium_pk) = zero_key /\ a.(balance) <= b.(balance).
Proof.
  intros Hwf Ht Hno Ha Hz.
  assert (forall s', Grows s s' -> exists b, s'.(accounts) !! k = Some b /\ b.(dilithium_pk) = zero_key
    /\ a.(balance) <= b.(balance)) as Hg.
  { intros s' Hg. destruct (grows_old _ _ Hg k a Ha) as (b & Hb & Hid & Hle).
    exists b. rewrite (id_key _ _ Hid). done. }
  destruct (is_tx o) eqn:Htx; [|apply Hg, other_grows; [apply Hwf|done]].
  apply is_tx_inv in Htx as (now & elapsed & tx & ->). simpl in *.
  destruct (decide (tx.(from) = k)) as [<-|Hne].
  { destruct (zero_key_refused now elapsed tx s a) as (e & ->); [done..|]. exists a. done. }
  destruct (execute_cases now elapsed tx s Hwf Ht) as [Hf|(b & Hb & _ & Hex)].
  { apply Hg. by eapply failed_grows. }
  destruct (executed_lookup _ _ _ _ _ ltac:(apply Hwf) Hb Hex) as (me & mid & Hgm & _ & _ & _ & Hl & _).
  rewrite Hl, bool_decide_false by done. by apply Hg.
Qed.

(** An account that a transfer makes cannot be spent from.  It gets the key of
    1312 zero bytes; unless its address is a hash of that key, every transaction from it
    is refused in every later state, and the coins stay there. *)
Theorem new_account_frozen now elapsed tx to amount memo stealth s r s1 ok s2 :
  wf s -> tx.(payload) = Transfer to amount memo stealth -> in_u128 amount ->
  s.(accounts) !! to = None -> not_of_zero_key to ->
  execute_transaction now elapsed tx s = (Done r, s1) -> rtc (Step ok) s1 s2 ->
  exists b, s2.(accounts) !! to = Some b /\ amount <= b.(balance)
    /\ forall now' elapsed' tx', tx'.(from) = to ->
       exists e, execute_transaction now' elapsed' tx' s2 = (Fail e, s2).
Proof.
  intros Hwf Hp Ha Hnone Hno He Hrun.
  assert (typed_payload tx.(payload)) as Ht by (by rewrite Hp).
  destruct (wp_Done _ _ _ _ _ _ (wp_execute now elapsed tx s Hwf Ht) He) as (a & Hfrom & _ & Hex).
  assert (to <> tx.(from)) as Hne by congruence.
  destruct (transfer_credits _ _ _ _ _ _ _ _ _ _ Hwf Hp ltac:(apply Ha) Hne Hnone He) as (b & Hb & Hle).
  assert (b.(dilithium_pk) = zero_key) as Hz.
  { destruct (executed_lookup _ _ _ _ _ ltac:(apply Hwf) Hfrom Hex) as (me & mid & Hg & _ & _ & _ & Hl & _).
    rewrite Hl, bool_decide_false in Hb by done. apply (st_key to). by apply (grows_new _ _ Hg). }
  pose proof (execute_wf now elapsed tx s Hwf Ht) as Hwf1. rewrite He in Hwf1. simpl in Hwf1.
  clear Hex He Hfrom. revert b Hb Hle Hz Hwf1.
  induction Hrun as [s1|s1 s3 s4 (o & Hto & _ & ->) _ IH]; intros b Hb Hle Hz Hwf1.
  - exists b. split_and!; [done|done|]. intros. subst. by eapply zero_key_refused.
  - destruct (frozen_step o s1 to b) as (b' & Hb' & Hz' & Hle'); [done..|].
    eapply IH; [done|lia|done|by apply run_op_wf].
Qed.
End Theorems.

(** ** Storage providers *)

Section Providers.
Context `{NodePrims}.

Inductive ProviderOp : Type :=
| PAdd (sector : SectorInfo)
| PRemove (id : Hash)
| PFaulty (id : Hash)
| PPromote (id : Hash) (r : TriadRole)
| PRepair (id : Hash)
| PPost (ok : bool) (latency epoch : Z)
| PEarn (storage retrieval post : Balance)
| PPayout (amount : Balance)
| PSlash (amount : Balance) (why : string) (evidence : Hash) (t : NodeAccount.SlashingType)
| PLock (amount : Balance)
| PUnlock (amount : Balance).

(** The account a call leaves, which is the old one when nothing was changed. *)
Definition or_old (a : Account) (r : result Account EgoError) : Account :=
  match r with Ok b => b | Err _ => a end.

Definition run_provider (now : Timestamp) (o : ProviderOp) (a : Account) : Account :=
  match o with
  | PAdd sector => or_old a (add_sector now sector a)
  | PRemove id => or_old a (remove_sector now id a)
  | PFaulty id => or_old a (mark_sector_faulty now id a)
  | PPromote id r => or_old a (promote_replica now id r a)
  | PRepair id => or_old a (record_repair now id a)
  | PPost ok latency epoch => default a (record_post_proof now ok latency epoch a)
  | PEarn storage retrieval post => or_old a (add_provider_earnings now storage retrieval post a)
  | PPayout amount => (process_provider_payout now amount a).2
  | PSlash amount why evidence t => or_old a (slash_provider now amount why evidence t a)
  | PLock amount => (lock_provider_collateral now amount a).2
  | PUnlock amount => (unlock_provider_collateral now amount a).2
  end.

Definition sizes (l : list SectorInfo) : Z := zsum (size_bytes <$> l).

(** The space that is allocated is that of the sectors, and no more than there is. *)
Definition stored (p : StorageProviderInfo) : Prop :=
  p.(storage_allocated) = sizes p.(active_sectors) /\ p.(storage_allocated) <= p.(storage_capacity)
  /\ Forall (fun x => 0 <= x.(size_bytes)) p.(active_sectors).

(** What a provider holds beyond what it earned: its balance, its collateral and
    what is due to it, with what it was slashed. *)
Definition holdings (a : Account) (p : StorageProviderInfo) : Z :=
  a.(balance) + p.(collateral_locked) + p.(earnings).(pending_payouts)
  + p.(earnings).(total_slashed) - p.(earnings).(total_earned).

(** Amounts are unsigned and no sum leaves its width. *)
Definition fits (o : ProviderOp) (a : Account) (p : StorageProviderInfo) : Prop :=
  match o with
  | PAdd sector => 0 <= sector.(size_bytes) /\ p.(storage_allocated) + sector.(size_bytes) <= u64_max
  | PEarn storage retrieval post =>
      0 <= storage /\ 0 <= retrieval /\ 0 <= post
      /\ p.(earnings).(total_earned) + storage + retrieval + post <= u128_max
      /\ p.(earnings).(pending_payouts) + storage + retrieval + post <= u128_max
  | PPayout amount | PUnlock amount => 0 <= amount /\ a.(balance) + amount <= u128_max
  | PSlash amount _ _ _ => 0 <= amount /\ p.(earnings).(total_slashed) + amount <= u128_max
  | PLock amount => 0 <= amount /\ p.(collateral_locked) + amount <= u128_max
  | _ => True
  end.

(** Unsigned fields. *)
Definition unsigned (p : StorageProviderInfo) : Prop :=
  0 <= p.(collateral_locked) /\ 0 <= p.(earnings).(pending_payouts)
  /\ 0 <= p.(earnings).(total_slashed) /\ 0 <= p.(earnings).(total_earned).

Definition provider_ok (h : Z) (a : Account) : Prop :=
  exists p, a.(storage_provider_info) = Some p /\ stored p /\ unsigned p /\ holdings a p = h.

Definition ProviderStep (a b : Account) : Prop :=
  exists now o, (forall p, a.(storage_provider_info) = Some p -> fits o a p) /\ b = run_provider now o a.

Lemma sizes_app l k : sizes (l ++ k) = sizes l + sizes k.
Proof. unfold sizes. by rewrite fmap_app, zsum_app. Qed.

Lemma take_sector_sizes id l x k :
  take_sector id l = Some (x, k) -> sizes l = size_bytes x + sizes k /\
  (Forall (fun x => 0 <= x.(size_bytes)) l -> 0 <= x.(size_bytes) /\ Forall (fun x => 0 <= x.(size_bytes)) k).
Proof.
  revert k. induction l as [|y l IH]; intros k Hk; simpl in Hk; [done|]. case_bool_decide.
  - simplify_eq. split; [done|]. by intros ?%Forall_cons.
  - apply bind_Some in Hk as ([z l'] & Hl & [= -> <-]). destruct (IH _ Hl) as [IH1 IH2]. split.
    + unfold sizes in *. rewrite !fmap_cons, !zsum_cons, IH1. lia.
    + intros [Hy Hf]%Forall_cons. destruct (IH2 Hf). split; [done|]. by constructor.
Qed.

Lemma find_sector_sizes id f l k :
  (forall x, (f x).(size_bytes) = x.(size_bytes)) -> find_sector_mut id f l = Some k -> size_bytes <$> k = size_bytes <$> l.
Proof.
  intros Hf. revert k. induction l as [|y l IH]; intros k Hk; simpl in Hk; [done|]. case_bool_decide.
  - simplify_eq. simpl. by rewrite Hf.
  - apply bind_Some in Hk as (l' & Hl & [= <-]). by rewrite !fmap_cons, (IH _ Hl).
Qed.

Lemma stored_same p q :
  stored p -> q.(storage_allocated) = p.(storage_allocated) -> q.(storage_capacity) = p.(storage_capacity) ->
  size_bytes <$> q.(active_sectors) = size_bytes <$> p.(active_sectors) -> stored q.
Proof.
  intros (Ha & Hc & Hf) E1 E2 E3. unfold stored, sizes. rewrite E1, E2, E3. split_and!; [done..|].
  apply (Forall_fmap size_bytes (fun z => 0 <= z)). rewrite E3. by apply Forall_fmap.
Qed.

Lemma with_provider_inv now f a b p :
  a.(storage_provider_info) = Some p -> or_old a (with_provider now f a) = b ->
  b = a \/ exists q, f p = Ok q /\ b = a <| storage_provider_info := Some q |> <| last_activity := now |>.
Proof.
  intros Hp <-. unfold with_provider. rewrite Hp. destruct (f p) as [q|e]; simpl; [right; eauto|by left].
Qed.

(** The methods that touch the record alone. *)
Lemma with_provider_ok now f h a p :
  a.(storage_provider_info) = Some p -> provider_ok h a ->
  (forall q, f p = Ok q -> stored p -> unsigned p -> stored q /\ unsigned q /\ holdings a q = holdings a p) ->
  provider_ok h (or_old a (with_provider now f a)).
Proof.
  intros Hp (p' & Hp' & Hs & Hu & <-) Hf. simplify_eq.
  destruct (with_provider_inv now f a _ p Hp eq_refl) as [->|(q & Hq & ->)]; [by exists p|].
  destruct (Hf q Hq Hs Hu) as (Hs' & Hu' & Hh). exists q. by split_and!.
Qed.

Lemma find_sector_ok (now : Timestamp) id f g h a p :
  a.(storage_provider_info) = Some p -> provider_ok h a ->
  (forall x, (f x).(size_bytes) = x.(size_bytes)) ->
  (forall l, let q := g l in q.(storage_allocated) = p.(storage_allocated) /\ q.(storage_capacity) = p.(storage_capacity)
     /\ q.(active_sectors) = l /\ q.(collateral_locked) = p.(collateral_locked) /\ q.(earnings) = p.(earnings)) ->
  forall q, result_bind (ok_or (find_sector_mut id f p.(active_sectors)) no_sector) (fun l => Ok (g l)) = Ok q ->
  stored p -> unsigned p -> stored q /\ unsigned q /\ holdings a q = holdings a p.
Proof.
  intros Hp Hok Hf Hg q Hq Hs Hu. destruct (find_sector_mut _ _ _) as [l|] eqn:Hl; simpl in Hq; [|done].
  simplify_eq. destruct (Hg l) as (E1 & E2 & E3 & E4 & E5). split_and!.
  - eapply stored_same; [done..|]. rewrite E3. by eapply find_sector_sizes.
  - unfold unsigned. by rewrite E4, E5.
  - unfold holdings. by rewrite E4, E5.
Qed.

Lemma post_ok now ok latency epoch h a :
  provider_ok h a -> provider_ok h (default a (record_post_proof now ok latency epoch a)).
Proof.
  intros Hok. destruct (record_post_proof _ _ _ _ _) as [b|] eqn:Hb; simpl; [|done].
  destruct Hok as (p & Hp & Hs & Hu & <-). unfold record_post_proof in Hb. rewrite Hp in Hb.
  apply bind_Some in Hb as (q & Hq & [= <-]). apply bind_Some in Hq as (st & _ & [= <-]).
  eexists. split; [reflexivity|]. split_and!; [by eapply stored_same|done|done].
Qed.

(** Coins that move between the balance and the record. *)
Lemma moved_ok h a b p q :
  a.(storage_provider_info) = Some p -> provider_ok h a -> b.(storage_provider_info) = Some q ->
  q.(storage_allocated) = p.(storage_allocated) -> q.(storage_capacity) = p.(storage_capacity) ->
  q.(active_sectors) = p.(active_sectors) -> (unsigned p -> unsigned q) -> holdings b q = holdings a p ->
  provider_ok h b.
Proof.
  intros Hp (p' & Hp' & Hs & Hu & <-) Hq E1 E2 E3 Hun Hh. simplify_eq.
  exists q. split_and!; [done| |auto|done]. eapply stored_same; [done..|by rewrite E3].
Qed.

Lemma payout_ok now amount h a p :
  a.(storage_provider_info) = Some p -> fits (PPayout amount) a p -> provider_ok h a ->
  provider_ok h (process_provider_payout now amount a).2.
Proof.
  intros Hp (Hpos & Hfit) Hok. unfold process_provider_payout. rewrite Hp. case_bool_decide; [done|].
  unfold then_credit, credit, checked_add. simpl. rewrite bool_decide_true by done. simpl.
  eapply moved_ok; [done..| |]; unfold unsigned, holdings, saturating_sub, sat_sub; simpl; lia.
Qed.

Lemma unlock_ok now amount h a p :
  a.(storage_provider_info) = Some p -> fits (PUnlock amount) a p -> provider_ok h a ->
  provider_ok h (unlock_provider_collateral now amount a).2.
Proof.
  intros Hp (Hpos & Hfit) Hok. unfold unlock_provider_collateral. rewrite Hp. case_bool_decide; [done|].
  unfold then_credit, credit, checked_add. simpl. rewrite bool_decide_true by done. simpl.
  eapply moved_ok; [done..| |]; unfold unsigned, holdings, saturating_sub, sat_sub; simpl; lia.
Qed.

Lemma lock_ok now amount h a p :
  a.(storage_provider_info) = Some p -> fits (PLock amount) a p -> provider_ok h a ->
  provider_ok h (lock_provider_collateral now amount a).2.
Proof.
  intros Hp (Hpos & Hfit) Hok. unfold lock_provider_collateral. destruct (can_spend amount a); [|done]. simpl.
  destruct (debit now amount a) as [b|] eqn:Hd; [|done]. apply debit_Ok in Hd as [Hle ->]. simpl. rewrite Hp. simpl.
  eapply moved_ok; [done..| |]; unfold unsigned, holdings, saturating_add, sat_add; simpl; lia.
Qed.

Lemma add_sector_ok now sector h a p :
  a.(storage_provider_info) = Some p -> fits (PAdd sector) a p -> provider_ok h a ->
  provider_ok h (or_old a (add_sector now sector a)).
Proof.
  intros Hp (Hpos & Hfit) Hok. eapply with_provider_ok; [done..|]. intros q Hq (Ha & Hc & Hf) Hu.
  assert (0 <= sizes p.(active_sectors)) by (apply zsum_nonneg, Forall_fmap, Hf).
  unfold wrap64 in Hq. rewrite Z.mod_small in Hq by (unfold u64_max in *; lia). case_bool_decide; simplify_eq.
  split_and!; [|done|done]. unfold stored. simpl. rewrite sizes_app. unfold sizes in *. simpl. split_and!; [lia..|].
  apply Forall_app. split; [done|]. by constructor.
Qed.

Lemma remove_sector_ok now id h a p :
  a.(storage_provider_info) = Some p -> provider_ok h a -> provider_ok h (or_old a (remove_sector now id a)).
Proof.
  intros Hp Hok. eapply with_provider_ok; [done..|]. intros q Hq (Ha & Hc & Hf) Hu.
  destruct (take_sector id p.(active_sectors)) as [[x l]|] eqn:Hl; simpl in Hq; [|done]. simplify_eq.
  apply take_sector_sizes in Hl as [Hl Hk]. destruct (Hk Hf) as [Hx Hfl].
  assert (0 <= sizes l) by (apply zsum_nonneg, Forall_fmap, Hfl).
  split_and!; [|done|done]. unfold stored, sat_sub. simpl. split_and!; [lia..|done].
Qed.

Lemma provider_step_ok now o h a p :
  a.(storage_provider_info) = Some p -> fits o a p -> provider_ok h a -> provider_ok h (run_provider now o a).
Proof.
  intros Hp Hfit Hok. destruct o; simpl run_provider.
  - by eapply add_sector_ok.
  - by eapply remove_sector_ok.
  - eapply with_provider_ok; [done..|]. by eapply find_sector_ok.
  - eapply with_provider_ok; [done..|]. by eapply find_sector_ok.
  - eapply with_provider_ok; [done..|]. eapply find_sector_ok; [done..|]. intros l. by case_bool_decide.
  - by apply post_ok.
  - eapply with_provider_ok; [done..|]. intros q [= <-] Hs Hu. split_and!; [by eapply stored_same|..].
    all: unfold unsigned, holdings, fits, saturating_add, sat_add in *; simpl in *; lia.
  - by eapply payout_ok.
  - eapply with_provider_ok; [done..|]. intros q Hq Hs Hu. case_bool_decide; simplify_eq.
    split_and!; [by eapply stored_same|..].
    all: unfold unsigned, holdings, fits, saturating_sub, saturating_add, sat_sub, sat_add in *; simpl in *; lia.
  - by eapply lock_ok.
  - by eapply unlock_ok.
Qed.

(** The books of a storage provider.  Whatever sequence of calls a provider's
    account goes through, as long as no sum leaves its width, the allocated space is
    the size of its sectors and within its capacity, and coins move only between its
    balance, its collateral and what is due to it: balance, collateral, pending
    payouts and what was slashed, less what was earned, stay the same. *)
Theorem provider_books h a b :
  provider_ok h a -> rtc ProviderStep a b -> provider_ok h b.
Proof.
  intros Hok Hrun. induction Hrun as [|x y z (now & o & Hfit & ->) _ IH]; [done|]. apply IH.
  pose proof Hok as (p & Hp & _). eapply provider_step_ok; eauto.
Qed.
End Providers.

(** ** The files *)

Section Files.
Context `{HashOrder} `{DiskPrims}.

(** A write that succeeds leaves what was written, and files can be read. *)
Record reliable (os : Os) : Prop := MkReliable {
  os_write : forall f b c, os.(write) f b = (true, c) -> c = Some b;
  os_read : forall f, os.(can_read) f = true;
}.

(** What [serde_json] writes of these lists it reads back. *)
Definition json_exact (s : StateManager) : Prop :=
  (forall j, accounts_to_json (hash_iter s.(accounts)).*2 = Some j -> accounts_of_json j = Some (hash_iter s.(accounts)).*2)
  /\ (forall j, validators_to_json (hash_iter s.(validators)).*2 = Some j ->
        validators_of_json j = Some (hash_iter s.(validators)).*2).

Lemma foldl_insert_lookup {A} (key : A -> bytes) (l : list (bytes * A)) (m : gmap bytes A) k :
  NoDup l.*1 -> Forall (fun kv => key kv.2 = kv.1) l ->
  foldl (fun m a => <[key a := a]> m) m l.*2 !! k
  = match list_find (fun kv => kv.1 = k) l with Some (_, kv) => Some kv.2 | None => m !! k end.
Proof.
  revert m. induction l as [|[i a] l IH]; intros m Hnd Hf; [done|]. simpl in *.
  apply NoDup_cons in Hnd as [Hni Hnd]. apply Forall_cons in Hf as [Hi Hf]. simpl in Hi. rewrite IH by done.
  case_decide as Hk.
  - simpl in Hk. rewrite Hi, Hk in *. assert (list_find (fun kv : bytes * A => kv.1 = k) l = None) as ->.
    { apply list_find_None, Forall_forall. intros [k' x] Hx Heq. simpl in Heq. subst k'.
      apply Hni, list_elem_of_fmap. by exists (k, x). }
    by rewrite lookup_insert_eq.
  - simpl in Hk. rewrite lookup_insert_ne by congruence. by destruct (list_find _ l) as [[? []]|].
Qed.

(** The entries of a map, loaded again over an empty one. *)
Lemma reload {A} (key : A -> bytes) (m : gmap bytes A) :
  map_Forall (fun k a => key a = k) m -> foldl (fun m a => <[key a := a]> m) ∅ (hash_iter m).*2 = m.
Proof.
  intros Hm. apply map_eq. intros k. rewrite foldl_insert_lookup.
  - destruct (list_find _ _) as [[j [k' a]]|] eqn:Hl.
    + apply list_find_Some in Hl as (Hj & Hk & _). simpl in Hk. subst k'. symmetry.
      apply elem_of_hash_iter. by eapply list_elem_of_lookup_2.
    + apply list_find_None in Hl. rewrite lookup_empty. symmetry. apply eq_None_not_Some. intros [a Ha].
      apply elem_of_hash_iter in Ha. rewrite Forall_forall in Hl. by apply (Hl _ Ha).
  - apply NoDup_hash_iter_keys.
  - apply Forall_forall. intros [k' a] Ha. apply elem_of_hash_iter in Ha. by apply Hm.
Qed.

Lemma load_accounts_accounts l s :
  (load_accounts l s).(accounts) = foldl (fun m a => <[a.(address) := a]> m) s.(accounts) l
  /\ (load_accounts l s).(validators) = s.(validators).
Proof.
  revert s. induction l as [|a l IH]; intros s; [done|]. simpl.
  by destruct (IH (s <| accounts := <[a.(address) := a]> s.(accounts) |>)) as [-> ->].
Qed.

Lemma load_validators_validators l s :
  (load_validators l s).(validators) = foldl (fun m v => <[v.(v_address) := v]> m) s.(validators) l
  /\ (load_validators l s).(accounts) = s.(accounts).
Proof.
  revert s. induction l as [|v l IH]; intros s; [done|]. simpl.
  by destruct (IH (s <| validators := <[v.(v_address) := v]> s.(validators) |>)) as [-> ->].
Qed.

(** Accounts and validators survive a restart.  What a flush that returns [Ok]
    wrote, a new state loads again: the same accounts and the same validators, when
    each is stored under its own address. *)
Theorem disk_roundtrip os s d d' now chain network :
  reliable os -> json_exact s -> keyed s -> map_Forall (fun k v => v.(v_address) = k) s.(validators) ->
  flush_to_disk os s d = (true, d') ->
  exists s', load_from_disk os d' (state_new now chain network) = (true, s')
    /\ s'.(accounts) = s.(accounts) /\ s'.(validators) = s.(validators).
Proof.
  intros [Hw Hr] [Hja Hjv] Hk Hv Hf. unfold flush_to_disk in Hf. destruct os.(make_dir); [|done]. simpl in Hf.
  destruct (accounts_to_json _) as [ja|] eqn:Ea; [|done]. specialize (Hja _ eq_refl).
  destruct (os.(write) "accounts.json" ja) as [[] fa] eqn:Wa; [|done]. simpl in Hf. apply Hw in Wa as ->.
  destruct (validators_to_json _) as [jv|] eqn:Ev; [|done]. specialize (Hjv _ eq_refl).
  destruct (os.(write) "validators.json" jv) as [[] fv] eqn:Wv; [|done]. apply Hw in Wv as ->.
  injection Hf as <-. unfold load_from_disk. simpl. rewrite !Hr, Hja. simpl. rewrite Hjv.
  eexists. split; [reflexivity|]. destruct (load_validators_validators (hash_iter s.(validators)).*2
    (load_accounts (hash_iter s.(accounts)).*2 (state_new now chain network))) as [-> ->].
  destruct (load_accounts_accounts (hash_iter s.(accounts)).*2 (state_new now chain network)) as [-> ->].
  split; by apply reload.
Qed.
End Files.
