(* ===== verification/NodeDemo.v ===== *)
(** * The account state: examples

    Alice, Bob and a validator on a small state, with stand-ins for the primitives
    of other crates; the properties of [NodeTheorems] on it, and runs that show what
    the state does not prevent. *)
From Stdlib Require Import Floats.SpecFloat.
From coqutil Require Import Datatypes.RecordSettersUsingExistingGetters.
From S2P Require Import Prelude Crypto Blocks NodeAccount NodeTx NodeState NodeFacts NodeRuns NodeTheorems.
Import RecordSetNotations1.
Local Open Scope Z_scope.
Local Open Scope ego_scope.

Module NodeRun.
#[export] Instance crypto : CryptoPrims :=
  {| blake2s d := d; blake3 d := d;
     ed25519_verify pk m s := Ok (bool_decide (s = take 64 (pk ++ m ++ repeat 0 64)));
     ml_dsa_verify pk m s := bool_decide (s = pk ++ m); slh_dsa_verify _ _ _ := Ok false;
     ed25519_sign sk m := take 64 (sk ++ m ++ repeat 0 64); ml_dsa_sign sk m := sk ++ m |}.
#[export] Instance node_prims : NodePrims :=
  {| hex_encode _ := ""; hex_decode _ := None; powi x _ := x |}.
#[export] Instance tx_prims : TxPrims :=
  {| bincode_payload p := match p with
                          | Transfer to amount _ _ => Ok (0 :: to ++ u128_le amount)
                          | CrossShard _ message _ _ _ => Ok (1 :: message)
                          | _ => Ok [2]
                          end;
     bincode_signature _ := [];
     message_decode b := Some (MsgTransfer (take 20 b) (from_le_bytes (drop 20 b)));
     haversine_distance _ _ := f64_of 0 |}.
#[export] Instance event_prims : EventPrims :=
  {| json_object _ := ""; debug_account_type _ := ""; fmt8 _ := "";
     bincode_account a := Some a.(address); bincode_entry _ := None |}.
#[export] Instance order : HashOrder := list_order.

(** A key pair whose address has 20 bytes. *)
Definition pair (n : Z) : KeyPair := MkKeyPair (repeat n 32) (repeat n 32) (repeat n 14) (repeat n 14).
Definition key (n : Z) : PublicKey := dilithium_public_key (pair n).
Definition ALICE : Address := from_public_key (key 11).
Definition BOB : Address := from_public_key (key 12).
Definition CAROL : Address := from_public_key (key 13).

Definition account (n : Z) (amount : Z) : Account :=
  (new_eoa 0 (from_public_key (key n)) (key n).(key_data) []) <| balance := amount |>.

Definition s0 : StateManager :=
  (state_new 0 7 1) <| accounts := <[ALICE := account 11 300000000000]> {[BOB := account 12 5000000]} |>.

(** A signed transaction of [n] with a fee of a million. *)
Definition tx_of (n number : Z) (p : TransactionPayload) : Transaction :=
  let tx := (tx_new 5 (from_public_key (key n)) number p 0 None 7) <| ru_limit := 1000 |> <| ru_estimate := 100 |> in
  match sign (pair n) [] false false tx with
  | Ok tx => tx
  | Err _ => tx
  end.

Definition no_time : nat -> Z := fun _ => 0.
Definition exec (tx : Transaction) (s : StateManager) : StateManager := (execute_transaction 10 no_time tx s).2.
Definition is_done {A} (r : outcome A * StateManager) : bool := match r.1 with Done _ => true | _ => false end.

Lemma is_done_inv {A} (r : outcome A * StateManager) : is_done r = true -> exists a, r = (Done a, r.2).
Proof. destruct r as [[a|e|] s]; [|done..]. eauto. Qed.

Definition is_fail {A} (r : outcome A * StateManager) : bool := match r.1 with Fail _ => true | _ => false end.

Lemma is_fail_inv {A} (r : outcome A * StateManager) : is_fail r = true -> exists e, r = (Fail e, r.2).
Proof. destruct r as [[a|e|] s]; [done| |done]. eauto. Qed.

Lemma s0_wf : wf s0.
Proof.
  split_and!; [| |done].
  - apply map_Forall_insert_2; [done|]. by apply map_Forall_singleton.
  - apply map_Forall_insert_2; [split; vm_compute; congruence|]. apply map_Forall_singleton. split; vm_compute; congruence.
Qed.

Lemma s0_numbered : all_numbered s0.
Proof.
  apply map_Forall_insert_2; [|apply map_Forall_singleton];
    (split; [split; vm_compute; congruence|exists ∅; split; [done|apply map_Forall_empty]]).
Qed.

Definition pay_bob : Transaction := tx_of 11 1 (Transfer BOB 500 None false).
Definition pay_carol : Transaction := tx_of 11 1 (Transfer CAROL 700 None false).

Definition after_bob : StateManager := exec pay_bob s0.
Definition after_carol : StateManager := exec pay_carol s0.

Lemma bob_done : is_done (execute_transaction 10 no_time pay_bob s0) = true.
Proof. by vm_compute. Qed.

Lemma balances : bal ALICE after_bob = 300000000000 - 500 - 1000000 /\ bal BOB after_bob = 5000500
  /\ bal burn_address after_bob = 1000000.
Proof. by vm_compute. Qed.

(** A transfer that the sender can pay, but not with the fee. *)
Definition overspend : Transaction := tx_of 12 1 (Transfer ALICE 4500000 None false).

(** To the other shard, and the state there. *)
Definition message : bytes := BOB ++ u128_le 900.
Definition send_away : Transaction := tx_of 11 1 (CrossShard 3 message None 50 1).
Definition away : StateManager := state_new 0 7 1.
Definition receipt_of : CrossShardReceipt := MkReceipt 0 3 ZERO_HASH send_away.(tx_hash) message 1 50 [].
Definition arrived : StateManager := (apply_inbound_receipt 20 receipt_of away).2.

(** Alice becomes a validator and leaves again. *)
Definition stake : Transaction := tx_of 11 1 (Stake 200000000000 (key 11) 100 (Some 500)).
Definition unstake : Transaction := tx_of 11 2 (Unstake 150000000000 (key 11) 9).
Definition staked : StateManager := exec stake s0.

Lemma carol_not_zero : not_of_zero_key CAROL.
Proof. intros []; vm_compute; congruence. Qed.

Lemma step_tx ok tx s : typed_payload tx.(payload) -> ok (OpTx 10 no_time tx) s -> Step ok s (exec tx s).
Proof. intros Ht Hok. by exists (OpTx 10 no_time tx). Qed.

Lemma step_tick ok s : ok OpTick s -> Step ok s (increment_block_height s).
Proof. intros Hok. by exists OpTick. Qed.

Lemma pair_sound n : sound_pair (pair n).
Proof.
  split; try done; intros m; unfold pair; cbn [kp_dilithium_pk kp_dilithium_sk kp_ed25519_pk kp_ed25519_sk].
  - unfold ml_dsa_verify, ml_dsa_sign, crypto. by apply bool_decide_eq_true.
  - unfold ed25519_verify, ed25519_sign, crypto. f_equal. by apply bool_decide_eq_true.
  - unfold ed25519_sign, crypto. rewrite length_take, !length_app, !repeat_length. lia.
Qed.

Lemma pay_bob_typed : typed_tx pay_bob.
Proof. split; [done|..]; repeat constructor; vm_compute; congruence. Qed.

Definition tampered : Transaction := pay_bob <| signature := dual_new None None |>.
Lemma tampered_typed : typed_tx tampered.
Proof. split; [done|..]; repeat constructor; vm_compute; congruence. Qed.
End NodeRun.
Import NodeRun.

(** ** The properties on it *)

Lemma node_supply_accounted_witness : coins after_bob + 0 + 0 = coins s0.
Proof.
  destruct (is_done_inv _ bob_done) as (r & He).
  apply (node_supply_accounted 10 no_time pay_bob s0 r after_bob); [apply s0_wf| |exact He].
  split; vm_compute; congruence.
Defined.

Lemma failure_keeps_accounts_witness :
  exists c, (c = 0 \/ c = net_fee overspend)
  /\ msum balance (exec overspend s0).(accounts) = msum balance s0.(accounts) + c
  /\ forall k a, s0.(accounts) !! k = Some a -> exists a', (exec overspend s0).(accounts) !! k = Some a' /\ same_id a a'
     /\ a'.(balance) = a.(balance) + (if bool_decide (k = burn_address) then c else 0).
Proof.
  destruct (is_fail_inv (execute_transaction 10 no_time overspend s0)) as (e & He); [by vm_compute|].
  apply (failure_keeps_accounts 10 no_time overspend s0 e); [apply s0_wf| |exact He].
  split; vm_compute; congruence.
Defined.

Lemma spending_is_signed_witness :
  exists now elapsed tx, OpTx 10 no_time pay_bob = OpTx now elapsed tx /\ tx.(from) = ALICE
    /\ tx_verify_signature tx = Ok true
    /\ tx.(public_keys).(tk_dilithium_pk).(key_data) = repeat 11 14
    /\ from_public_key tx.(public_keys).(tk_dilithium_pk) = ALICE
    /\ tx.(tx_nonce) = expected_nonce tx (account 11 300000000000).
Proof.
  destruct (after_bob.(accounts) !! ALICE) as [a'|] eqn:Ha'; [|by vm_compute in Ha'].
  apply (spending_is_signed (OpTx 10 no_time pay_bob) s0 ALICE (account 11 300000000000) a');
    [apply s0_wf|split; vm_compute; congruence|done|exact Ha'|].
  assert (a'.(balance) = bal ALICE after_bob) as -> by (unfold bal; by rewrite Ha').
  by vm_compute.
Defined.

Lemma no_replay_witness :
  exists e, execute_transaction 30 no_time pay_bob (increment_block_height after_bob)
    = (Fail e, increment_block_height after_bob).
Proof.
  destruct (is_done_inv _ bob_done) as (r & He).
  apply (no_replay 10 no_time pay_bob r s0 after_bob any_op); [apply s0_wf|apply s0_numbered| |done|exact He|].
  - split; vm_compute; congruence.
  - apply rtc_once, step_tick. done.
Defined.

Lemma receipt_applied_once_witness :
  apply_inbound_receipt 40 receipt_of (increment_block_height arrived)
  = (Fail (InvalidTransaction "cross-shard receipt already applied"), increment_block_height arrived).
Proof.
  apply (receipt_applied_once 20 receipt_of away arrived); [reflexivity| |done..].
  apply rtc_once, step_tick. done.
Defined.

Lemma cross_shard_conserved_witness : coins (exec send_away s0) + coins arrived = coins s0 + coins away.
Proof.
  destruct (is_done_inv (execute_transaction 10 no_time send_away s0)) as (r & He); [by vm_compute|].
  apply (cross_shard_conserved 10 no_time send_away 3 message None 50 1 s0 r (exec send_away s0) receipt_of 20);
    [apply s0_wf|apply map_Forall_empty|done|done|exact He| |reflexivity].
  assert ((fun o => match o with Done r => r.(cross_shard_receipts) | _ => [] end)
            (execute_transaction 10 no_time send_away s0).1 = [receipt_of]) as Hr by (by vm_compute).
  rewrite He in Hr. simpl in Hr. rewrite Hr. by left.
Defined.

Lemma active_validators_bonded_witness : bonded (exec unstake staked).
Proof.
  apply (active_validators_bonded s0); [apply map_Forall_empty|].
  eapply rtc_l; [apply (step_tx _ stake); [vm_compute; split; congruence|done]|].
  apply rtc_once, (step_tx _ unstake); [vm_compute; split; congruence|done].
Defined.

Lemma new_account_frozen_witness :
  exists b, (increment_block_height after_carol).(accounts) !! CAROL = Some b /\ 700 <= b.(balance)
    /\ forall now' elapsed' tx', tx'.(from) = CAROL ->
       exists e, execute_transaction now' elapsed' tx' (increment_block_height after_carol)
                 = (Fail e, increment_block_height after_carol).
Proof.
  destruct (is_done_inv (execute_transaction 10 no_time pay_carol s0)) as (r & He); [by vm_compute|].
  apply (new_account_frozen 10 no_time pay_carol CAROL 700 None false s0 r after_carol any_op);
    [apply s0_wf|done|split; vm_compute; congruence|done|apply carol_not_zero|exact He|].
  apply rtc_once, step_tick. done.
Defined.


Lemma signed_verifies_witness :
  exists tx', sign (pair 11) [] true true (tx_of 11 1 (Transfer BOB 500 None false)) = Ok tx'
    /\ tx_verify_signature tx' = Ok true
    /\ tx'.(from) = ALICE /\ tx'.(tx_nonce) = 1 /\ tx'.(payload) = Transfer BOB 500 None false.
Proof.
  apply (signed_verifies (pair 11) [] true true (tx_of 11 1 (Transfer BOB 500 None false))
    (0 :: BOB ++ u128_le 500)); [apply pair_sound|done|done].
Defined.

Lemma signature_binds_witness :
  blake2s_collision \/
  pay_bob.(from) = tampered.(from) /\ pay_bob.(tx_nonce) = tampered.(tx_nonce) /\ pay_bob.(timestamp) = tampered.(timestamp)
  /\ pay_bob.(shard_id) = tampered.(shard_id) /\ pay_bob.(protocol_version) = tampered.(protocol_version)
  /\ pay_bob.(chain_id) = tampered.(chain_id) /\ pay_bob.(ru_limit) = tampered.(ru_limit)
  /\ pay_bob.(ru_estimate) = tampered.(ru_estimate)
  /\ pay_bob.(pob_burn_credits) = tampered.(pob_burn_credits) /\ pay_bob.(priority_hint) = tampered.(priority_hint).
Proof.
  destruct (create_signing_data pay_bob) as [d|] eqn:Hd; [|by vm_compute in Hd].
  apply (signature_binds pay_bob tampered d); [apply pay_bob_typed|apply tampered_typed|exact Hd|exact Hd].
Defined.

(** A provider locks collateral, seals a sector and is slashed. *)
Module ProviderRun.
Definition provider : Account :=
  (new_storage_provider 0 ALICE "alice" "eu" 5000 [] [] "peer") <| balance := 900 |>.
Definition sector : SectorInfo :=
  MkSector [7] 3000 UserDataData 0 99 [8] ZERO_HASH ZERO_HASH (MkTriad "g" Primary ALICE BOB CAROL 0) 1 1 0 0 true.
Definition locked : Account := run_provider 1 (PLock 400) provider.
Definition sealed : Account := run_provider 2 (PAdd sector) locked.
Definition slashed : Account := run_provider 3 (PSlash 150 "missed" ZERO_HASH PostMiss) sealed.

Lemma provider_start : provider_ok 900 provider.
Proof.
  eexists. split; [reflexivity|]. split_and!; try done; vm_compute; congruence.
Qed.
End ProviderRun.
Import ProviderRun.

Lemma provider_books_witness :
  provider_ok 900 slashed /\ slashed.(balance) = 500
  /\ (collateral_locked <$> slashed.(storage_provider_info)) = Some 250.
Proof.
  split; [|by vm_compute]. apply (provider_books 900 provider); [apply provider_start|].
  eapply rtc_l; [exists 1, (PLock 400); split; [|done]; intros p [= <-]; split; vm_compute; congruence|].
  eapply rtc_l; [exists 2, (PAdd sector); split; [|done]; intros p [= <-]; split; vm_compute; congruence|].
  apply rtc_once. exists 3, (PSlash 150 "missed" ZERO_HASH PostMiss). split; [|done].
  intros p [= <-]. split; vm_compute; congruence.
Defined.

(** A disk that keeps two files, with a stand-in for [serde_json] that knows one state. *)
#[local] Instance disk_prims : DiskPrims :=
  {| accounts_to_json _ := Some [1]; validators_to_json _ := Some [2];
     accounts_of_json _ := Some (map_to_list staked.(accounts)).*2;
     validators_of_json _ := Some (map_to_list staked.(validators)).*2 |}.
Definition disk_os : Os := MkOs true (fun _ b => (true, Some b)) (fun _ => true).

Lemma disk_roundtrip_witness :
  exists s', load_from_disk disk_os (flush_to_disk disk_os staked (MkDisk None None)).2 (state_new 99 7 1) = (true, s')
    /\ s'.(accounts) = staked.(accounts) /\ s'.(validators) = staked.(validators).
Proof.
  apply (disk_roundtrip disk_os staked (MkDisk None None)).
  - split; [|done]. intros f b c Hw. by simplify_eq/=.
  - by split.
  - apply (execute_wf 10 no_time stake s0); [apply s0_wf|vm_compute; split; congruence].
  - apply map_Forall_to_list. vm_compute. repeat constructor.
  - reflexivity.
Defined.

(** ** What the state does not prevent *)

(** A transaction that passes the check and the fee and then fails leaves the fee with
    the burn address, though the sender never paid it: its copy is not stored. *)
Example failed_transfer_mints :
  is_fail (execute_transaction 10 no_time overspend s0) = true
  /\ coins (exec overspend s0) = coins s0 + net_fee overspend.
Proof. by vm_compute. Qed.

(** An account that pays itself loses the amount: the credit goes to the stored
    account, which the debited copy replaces. *)
Definition pay_self : Transaction := tx_of 11 1 (Transfer ALICE 5000 None false).
Example self_transfer_loses :
  is_done (execute_transaction 10 no_time pay_self s0) = true /\ coins (exec pay_self s0) = coins s0 - 5000.
Proof. by vm_compute. Qed.

(** For the same reason the changes of [UpdateAccount] are lost. *)
Definition no_updates : AccountUpdates := MkUpdates None [] [] None ∅ None None None None None None.
Definition raise_quota : Transaction :=
  tx_of 11 1 (UpdateAccount ALICE (no_updates <| up_storage_quota := Some 77 |>)).
Example update_account_lost :
  is_done (execute_transaction 10 no_time raise_quota s0) = true
  /\ (storage_quota <$> (exec raise_quota s0).(accounts) !! ALICE) = Some (1024 * 1024).
Proof. by vm_compute. Qed.

(** Anyone can take the stake of a validator: Bob, who never staked, unstakes what
    Alice did. *)
Definition take_stake : Transaction := tx_of 12 1 (Unstake 150000000000 (key 11) 9).
Example unstake_of_another :
  is_done (execute_transaction 10 no_time take_stake staked) = true
  /\ bal BOB (exec take_stake staked) = bal BOB staked + 150000000000 - net_fee take_stake
  /\ (status <$> (exec take_stake staked).(validators) !! ALICE) = Some Active.
Proof. by vm_compute. Qed.

(** And anyone can claim the whole pool of rewards. *)
Definition claim_all : Transaction :=
  tx_of 12 1 (ClaimRewards BOB 0 (MkClaim 0 0 0 0 u64_max) (f64_of 1) (f64_of 1) ZERO_HASH).
Example claim_drains_pool :
  is_done (execute_transaction 10 no_time claim_all s0) = true
  /\ reward_pool_uegoc s0 = 40000000000000 /\ reward_pool_uegoc (exec claim_all s0) = 0
  /\ bal BOB (exec claim_all s0) = bal BOB s0 + 40000000000000 - net_fee claim_all.
Proof. by vm_compute. Qed.

(** A transaction names the burnt credits that pay its fee, and nothing checks that
    there are any. *)
Example fee_waived tx : tx.(pob_burn_credits) = tx.(ru_limit) * BASE_FEE_PER_RU -> net_fee tx = 0.
Proof. intros E. unfold net_fee, saturating_sub, sat_sub. rewrite E. lia. Qed.

(** Pruning forgets the nonces of a pair of shards once there are more than 100000 of
    them, and the receipts can be applied again. *)
Example pruning_forgets src dst n nonces s :
  s.(processed_receipt_nonces) !! (src, dst) = Some nonces -> (100000 < size nonces)%nat ->
  is_processed src dst n (drop_old_nonces s) = false.
Proof.
  intros Hn Hsize. apply bool_decide_eq_false_2. apply Nat.lt_nge in Hsize.
  assert ((drop_old_nonces s).(processed_receipt_nonces) !! (src, dst) = None) as ->.
  { apply map_lookup_filter_None_2. right. intros m Hm. rewrite Hn in Hm. injection Hm as <-. exact Hsize. }
  apply not_elem_of_empty.
Qed.

(** The check of a quota wraps: an account with a thousand bytes in use stores
    nearly 2^64 more. *)
Example quota_wraps :
  can_store (2 ^ 64 - 500) ((account 11 0) <| storage_used := 1000 |>) = true.
Proof. by vm_compute. Qed.

(** [lock_provider_collateral] of an account that is no provider fails and takes the
    amount. *)
Example lock_loses :
  (lock_provider_collateral 1 400 (account 11 900)).1 = Err not_provider
  /\ (lock_provider_collateral 1 400 (account 11 900)).2.(balance) = 500.
Proof. by vm_compute. Qed.

(** The root of the state depends on the order in which the map is iterated, which
    differs from node to node. *)
Lemma reverse_perm {K A} `{Countable K} (m : gmap K A) : reverse (map_to_list m) ≡ₚ map_to_list m.
Proof. apply reverse_Permutation. Qed.
Definition reverse_order : HashOrder :=
  {| hash_iter _ _ _ _ m := reverse (map_to_list m); hash_iter_perm _ _ _ _ m := reverse_perm m |}.
Example state_root_of_order :
  compute_state_root (H3 := list_order) s0 <> compute_state_root (H3 := reverse_order) s0.
Proof. by vm_compute. Qed.
