(* ===== verification/ForkChoice.v ===== *)
(** * The fork-choice store

    Model of [crates/ego-consensus-core/src/fork_choice.rs]: the blocks and
    certificates a node has seen, its lock, and the view-change messages. *)
From S2P Require Import Prelude Crypto Blocks.
Local Open Scope Z_scope.
Local Open Scope ego_scope.

Record ViewChangeMsg : Type := MkViewChange {
  vc_new_round : Z;
  vc_height : Z;
  vc_epoch : Z;
  vc_high_qc : option QuorumCertificate;
  vc_sender : Address;
  vc_sender_pk : PublicKey;
  vc_signature : Signature;
  vc_timestamp : Timestamp;
}.

Record ForkChoiceStore : Type := MkStore {
  fc_blocks : gmap Z (gmap Hash BlockHeader);
  fc_qcs : gmap Hash QuorumCertificate;
  fc_high_qc : option QuorumCertificate;
  fc_locked_qc : option QuorumCertificate;
  fc_view_changes : gmap (Z * Z) (list ViewChangeMsg);
  fc_canonical_head : option Hash;
}.

Definition set_fc_blocks (b : gmap Z (gmap Hash BlockHeader)) (f : ForkChoiceStore) : ForkChoiceStore :=
  MkStore b f.(fc_qcs) f.(fc_high_qc) f.(fc_locked_qc) f.(fc_view_changes) f.(fc_canonical_head).
Definition set_fc_qcs (q : gmap Hash QuorumCertificate) (f : ForkChoiceStore) : ForkChoiceStore :=
  MkStore f.(fc_blocks) q f.(fc_high_qc) f.(fc_locked_qc) f.(fc_view_changes) f.(fc_canonical_head).
Definition set_fc_high_qc (q : option QuorumCertificate) (f : ForkChoiceStore) : ForkChoiceStore :=
  MkStore f.(fc_blocks) f.(fc_qcs) q f.(fc_locked_qc) f.(fc_view_changes) f.(fc_canonical_head).
Definition set_fc_locked_qc (q : option QuorumCertificate) (f : ForkChoiceStore) : ForkChoiceStore :=
  MkStore f.(fc_blocks) f.(fc_qcs) f.(fc_high_qc) q f.(fc_view_changes) f.(fc_canonical_head).
Definition set_fc_view_changes (v : gmap (Z * Z) (list ViewChangeMsg)) (f : ForkChoiceStore)
    : ForkChoiceStore :=
  MkStore f.(fc_blocks) f.(fc_qcs) f.(fc_high_qc) f.(fc_locked_qc) v f.(fc_canonical_head).
Definition set_fc_canonical_head (h : option Hash) (f : ForkChoiceStore) : ForkChoiceStore :=
  MkStore f.(fc_blocks) f.(fc_qcs) f.(fc_high_qc) f.(fc_locked_qc) f.(fc_view_changes) h.

Definition store_new : ForkChoiceStore :=
  {| fc_blocks := ∅; fc_qcs := ∅; fc_high_qc := None; fc_locked_qc := None;
     fc_view_changes := ∅; fc_canonical_head := None |}.

(** [qc.epoch > old.epoch || (qc.epoch == old.epoch && qc.round > old.round)]. *)
Definition later (qc old : QuorumCertificate) : bool :=
  bool_decide (old.(qc_epoch) < qc.(qc_epoch)) ||
  (bool_decide (qc.(qc_epoch) = old.(qc_epoch)) && bool_decide (old.(qc_round) < qc.(qc_round))).

Definition add_qc (qc : QuorumCertificate) (f : ForkChoiceStore) : ForkChoiceStore :=
  let f := if map_or_true f.(fc_high_qc) (later qc) then set_fc_high_qc (Some qc) f else f in
  set_fc_qcs (<[qc.(qc_block_hash) := qc]> f.(fc_qcs)) f.

Definition update_locked_qc (qc : QuorumCertificate) (f : ForkChoiceStore) : ForkChoiceStore :=
  if map_or_true f.(fc_locked_qc) (later qc)
  then set_fc_canonical_head (Some qc.(qc_block_hash)) (set_fc_locked_qc (Some qc) f)
  else f.

Definition prune_view_changes (min_height : Z) (f : ForkChoiceStore) : ForkChoiceStore :=
  set_fc_view_changes (filter (fun e => min_height <= e.1.1) f.(fc_view_changes)) f.

Definition prune_blocks (keep_from_height : Z) (f : ForkChoiceStore) : ForkChoiceStore :=
  set_fc_blocks (filter (fun e => keep_from_height <= e.1) f.(fc_blocks)) f.

(** [max_by_key(|qc| (qc.epoch, qc.round))], which returns the last of the maxima. *)
Definition max_qc (l : list QuorumCertificate) : option QuorumCertificate :=
  foldl (fun best qc => match best with
                        | None => Some qc
                        | Some b => if later b qc then Some b else Some qc
                        end) None l.

Section Store.
Context `{CryptoPrims} `{HashOrder}.

Definition view_change_signing_bytes (new_round height epoch : Z) : bytes :=
  ascii_bytes "ego/viewchange/v1:" ++ u32_le new_round ++ u64_le height ++ u64_le epoch.

Definition view_change_new (new_round height epoch : Z) (high_qc : option QuorumCertificate)
    (kp : KeyPair) (scheme : SigScheme) (now : Timestamp) : ViewChangeMsg :=
  {| vc_new_round := new_round; vc_height := height; vc_epoch := epoch; vc_high_qc := high_qc;
     vc_sender := scheme_address scheme kp; vc_sender_pk := scheme_public_key scheme kp;
     vc_signature := scheme_sign scheme kp (view_change_signing_bytes new_round height epoch);
     vc_timestamp := now |}.

Definition view_change_verify (m : ViewChangeMsg) : result bool PoCError :=
  sig_err (verify_signature m.(vc_sender_pk)
             (view_change_signing_bytes m.(vc_new_round) m.(vc_height) m.(vc_epoch))
             m.(vc_signature)).

Definition add_block (h : BlockHeader) (f : ForkChoiceStore) : ForkChoiceStore :=
  let m := default ∅ (f.(fc_blocks) !! h.(bh_height)) in
  set_fc_blocks (<[h.(bh_height) := <[block_hash h := h]> m]> f.(fc_blocks)) f.

(** [self.blocks.values().find_map(|m| m.get(&hash))]. *)
Definition find_block (hash : Hash) (f : ForkChoiceStore) : option BlockHeader :=
  head (omap (fun e => e.2 !! hash) (hash_iter f.(fc_blocks))).

(** The loop of [extends_locked]. *)
Fixpoint extends_walk (fuel : nat) (current ancestor : Hash) (f : ForkChoiceStore) : bool :=
  match fuel with
  | O => false
  | S fuel =>
      if bool_decide (current = ancestor) then true
      else
        match find_block current f with
        | Some b => extends_walk fuel b.(bh_prev_hash) ancestor f
        | None => false
        end
  end.

Definition extends_locked (block : BlockHeader) (ancestor : Hash) (f : ForkChoiceStore) : bool :=
  if bool_decide (block_hash block = ancestor) then true
  else extends_walk 64 block.(bh_prev_hash) ancestor f.

Definition is_safe_to_vote (block : BlockHeader) (f : ForkChoiceStore) : bool :=
  match f.(fc_locked_qc) with
  | None => true
  | Some locked =>
      if bool_decide (locked.(qc_epoch) < block.(bh_epoch)) then true
      else if bool_decide (block.(bh_epoch) = locked.(qc_epoch))
      then extends_locked block locked.(qc_block_hash) f
      else false
  end.

(** [a.as_bytes() <= b.as_bytes()]. *)
Definition bytes_leb (a b : bytes) : bool :=
  match bytes_compare a b with
  | Gt => false
  | _ => true
  end.

(** The comparison of [with_qc.sort_by]: more votes first, then the smaller hash. *)
Definition fork_leb (a b : Hash * QuorumCertificate) : bool :=
  match Nat.compare (voter_count b.2) (voter_count a.2) with
  | Lt => true
  | Gt => false
  | Eq => bytes_leb a.1 b.1
  end.

(** [min_by_key(|h| h.as_bytes())], which returns the first of the minima. *)
Definition min_hash (l : list Hash) : option Hash :=
  foldl (fun best h => match best with
                       | None => Some h
                       | Some b => if bytes_leb b h then Some b else Some h
                       end) None l.

Definition resolve_fork (height : Z) (f : ForkChoiceStore) : option Hash :=
  candidates ← f.(fc_blocks) !! height;
  let keys := (hash_iter candidates).*1 in
  if bool_decide (length keys = 1%nat) then head keys
  else
    let with_qc := omap (fun h => pair h <$> f.(fc_qcs) !! h) keys in
    if bool_decide (length with_qc = 1%nat) then fst <$> head with_qc
    else if bool_decide (with_qc = []) then min_hash keys
    else fst <$> head (stable_sort fork_leb with_qc).

Definition store_canonical_head (f : ForkChoiceStore) : option BlockHeader :=
  head_hash ← f.(fc_canonical_head);
  find_block head_hash f.

(** The result says whether a quorum was reached, and with which certificate. *)
Definition add_view_change (msg : ViewChangeMsg) (quorum : nat) (f : ForkChoiceStore)
    : result (ForkChoiceStore * option (option QuorumCertificate)) PoCError :=
  let? ok := view_change_verify msg in
  if negb ok then Err (SignatureVerificationFailed "ViewChangeMsg signature invalid")
  else
    let k := (msg.(vc_height), msg.(vc_new_round)) in
    let msgs := default [] (f.(fc_view_changes) !! k) in
    let f := set_fc_view_changes (<[k := msgs]> f.(fc_view_changes)) f in
    if existsb (fun m => bool_decide (m.(vc_sender) = msg.(vc_sender))) msgs then Ok (f, None)
    else
      let msgs := msgs ++ [msg] in
      let f := set_fc_view_changes (<[k := msgs]> f.(fc_view_changes)) f in
      if bool_decide (quorum <= length msgs)%nat then
        let best_qc := max_qc (omap vc_high_qc msgs) in
        let f := match best_qc with Some qc => add_qc qc f | None => f end in
        Ok (f, Some best_qc)
      else Ok (f, None).

Definition highest_view_change_round (height : Z) (f : ForkChoiceStore) : Z :=
  let rounds := (filter (fun k => k.1 = height) (hash_iter f.(fc_view_changes)).*1).*2 in
  match rounds with
  | [] => 0
  | r :: rounds => foldl Z.max r rounds
  end.

End Store.
