(* ===== verification/Bft.v ===== *)
(** * The BFT engine

    Model of [BftEngine] of [crates/ego-consensus-core/src/bft.rs].  The fields
    behind locks are fields of one record and a method is one transition on it;
    a method that returns an error keeps the changes it made before.  Several
    readings of the clock within one call are the same instant [now]. *)
From S2P Require Import Prelude Crypto Blocks ForkChoice.
Local Open Scope Z_scope.
Local Open Scope ego_scope.

Inductive RoundPhase : Type :=
| PhPropose
| PhVote
| PhCommit
| PhFinalized
| PhViewChange.

Record RoundState : Type := MkRound {
  rs_height : Z;
  rs_epoch : Z;
  rs_round : Z;
  rs_phase : RoundPhase;
  rs_proposed_block : option BlockHeader;
  rs_votes : gmap Address Vote;
  rs_qc : option QuorumCertificate;
  rs_phase_started_at : Timestamp;
  rs_voted_for : option Hash;
}.

Definition set_rs_round (v : Z) (s : RoundState) : RoundState :=
  MkRound (s.(rs_height)) (s.(rs_epoch)) v (s.(rs_phase)) (s.(rs_proposed_block))
    (s.(rs_votes)) (s.(rs_qc)) (s.(rs_phase_started_at)) (s.(rs_voted_for)).
Definition set_rs_phase (v : RoundPhase) (s : RoundState) : RoundState :=
  MkRound (s.(rs_height)) (s.(rs_epoch)) (s.(rs_round)) v (s.(rs_proposed_block))
    (s.(rs_votes)) (s.(rs_qc)) (s.(rs_phase_started_at)) (s.(rs_voted_for)).
Definition set_rs_proposed_block (v : option BlockHeader) (s : RoundState) : RoundState :=
  MkRound (s.(rs_height)) (s.(rs_epoch)) (s.(rs_round)) (s.(rs_phase)) v (s.(rs_votes))
    (s.(rs_qc)) (s.(rs_phase_started_at)) (s.(rs_voted_for)).
Definition set_rs_votes (v : gmap Address Vote) (s : RoundState) : RoundState :=
  MkRound (s.(rs_height)) (s.(rs_epoch)) (s.(rs_round)) (s.(rs_phase))
    (s.(rs_proposed_block)) v (s.(rs_qc)) (s.(rs_phase_started_at)) (s.(rs_voted_for)).
Definition set_rs_qc (v : option QuorumCertificate) (s : RoundState) : RoundState :=
  MkRound (s.(rs_height)) (s.(rs_epoch)) (s.(rs_round)) (s.(rs_phase))
    (s.(rs_proposed_block)) (s.(rs_votes)) v (s.(rs_phase_started_at)) (s.(rs_voted_for)).
Definition set_rs_phase_started_at (v : Timestamp) (s : RoundState) : RoundState :=
  MkRound (s.(rs_height)) (s.(rs_epoch)) (s.(rs_round)) (s.(rs_phase))
    (s.(rs_proposed_block)) (s.(rs_votes)) (s.(rs_qc)) v (s.(rs_voted_for)).
Definition set_rs_voted_for (v : option Hash) (s : RoundState) : RoundState :=
  MkRound (s.(rs_height)) (s.(rs_epoch)) (s.(rs_round)) (s.(rs_phase))
    (s.(rs_proposed_block)) (s.(rs_votes)) (s.(rs_qc)) (s.(rs_phase_started_at)) v.
Record BftEngine : Type := MkEngine {
  be_keypair : KeyPair;
  be_address : Address;
  be_weights : list Z;
  be_scheme : SigScheme;
  be_validator_set : list Address;
  be_finalized_blocks : list (BlockHeader * QuorumCertificate);
  be_current_round : RoundState;
  be_current_epoch : Z;
  be_current_height : Z;
  be_vrf_outputs : gmap Z Hash;
  be_fork_choice : ForkChoiceStore;
  be_view_change_asks : Z;
}.

Definition set_be_weights (v : list Z) (s : BftEngine) : BftEngine :=
  MkEngine (s.(be_keypair)) (s.(be_address)) v (s.(be_scheme)) (s.(be_validator_set))
    (s.(be_finalized_blocks)) (s.(be_current_round)) (s.(be_current_epoch))
    (s.(be_current_height)) (s.(be_vrf_outputs)) (s.(be_fork_choice))
    (s.(be_view_change_asks)).
Definition set_be_finalized_blocks (v : list (BlockHeader * QuorumCertificate)) (s : BftEngine) : BftEngine :=
  MkEngine (s.(be_keypair)) (s.(be_address)) (s.(be_weights)) (s.(be_scheme))
    (s.(be_validator_set)) v (s.(be_current_round)) (s.(be_current_epoch))
    (s.(be_current_height)) (s.(be_vrf_outputs)) (s.(be_fork_choice))
    (s.(be_view_change_asks)).
Definition set_be_current_round (v : RoundState) (s : BftEngine) : BftEngine :=
  MkEngine (s.(be_keypair)) (s.(be_address)) (s.(be_weights)) (s.(be_scheme))
    (s.(be_validator_set)) (s.(be_finalized_blocks)) v (s.(be_current_epoch))
    (s.(be_current_height)) (s.(be_vrf_outputs)) (s.(be_fork_choice))
    (s.(be_view_change_asks)).
Definition set_be_current_epoch (v : Z) (s : BftEngine) : BftEngine :=
  MkEngine (s.(be_keypair)) (s.(be_address)) (s.(be_weights)) (s.(be_scheme))
    (s.(be_validator_set)) (s.(be_finalized_blocks)) (s.(be_current_round)) v
    (s.(be_current_height)) (s.(be_vrf_outputs)) (s.(be_fork_choice))
    (s.(be_view_change_asks)).
Definition set_be_current_height (v : Z) (s : BftEngine) : BftEngine :=
  MkEngine (s.(be_keypair)) (s.(be_address)) (s.(be_weights)) (s.(be_scheme))
    (s.(be_validator_set)) (s.(be_finalized_blocks)) (s.(be_current_round))
    (s.(be_current_epoch)) v (s.(be_vrf_outputs)) (s.(be_fork_choice))
    (s.(be_view_change_asks)).
Definition set_be_vrf_outputs (v : gmap Z Hash) (s : BftEngine) : BftEngine :=
  MkEngine (s.(be_keypair)) (s.(be_address)) (s.(be_weights)) (s.(be_scheme))
    (s.(be_validator_set)) (s.(be_finalized_blocks)) (s.(be_current_round))
    (s.(be_current_epoch)) (s.(be_current_height)) v (s.(be_fork_choice))
    (s.(be_view_change_asks)).
Definition set_be_fork_choice (v : ForkChoiceStore) (s : BftEngine) : BftEngine :=
  MkEngine (s.(be_keypair)) (s.(be_address)) (s.(be_weights)) (s.(be_scheme))
    (s.(be_validator_set)) (s.(be_finalized_blocks)) (s.(be_current_round))
    (s.(be_current_epoch)) (s.(be_current_height)) (s.(be_vrf_outputs)) v
    (s.(be_view_change_asks)).
Definition set_be_view_change_asks (v : Z) (s : BftEngine) : BftEngine :=
  MkEngine (s.(be_keypair)) (s.(be_address)) (s.(be_weights)) (s.(be_scheme))
    (s.(be_validator_set)) (s.(be_finalized_blocks)) (s.(be_current_round))
    (s.(be_current_epoch)) (s.(be_current_height)) (s.(be_vrf_outputs)) (s.(be_fork_choice))
    v.
Definition round_state_new (height epoch round : Z) (now : Timestamp) : RoundState :=
  {| rs_height := height; rs_epoch := epoch; rs_round := round; rs_phase := PhPropose;
     rs_proposed_block := None; rs_votes := ∅; rs_qc := None; rs_phase_started_at := now;
     rs_voted_for := None |}.

Definition is_phase_timed_out (now : Timestamp) (s : RoundState) : bool :=
  let elapsed := sat_sub now s.(rs_phase_started_at) in
  let t := match s.(rs_phase) with
           | PhPropose => PROPOSE_TIMEOUT_MS
           | PhVote => VOTE_TIMEOUT_MS
           | PhCommit => COMMIT_TIMEOUT_MS
           | _ => u64_max
           end in
  bool_decide (t < elapsed).

Definition advance_phase (next : RoundPhase) (now : Timestamp) (s : RoundState) : RoundState :=
  set_rs_phase_started_at now (set_rs_phase next s).

Section Engine.
Context `{CryptoPrims} `{HashOrder}.

(** ** Construction *)

Definition with_scheme (kp : KeyPair) (validator_set : list Address) (scheme : SigScheme)
    (now : Timestamp) : BftEngine :=
  {| be_keypair := kp; be_address := scheme_address scheme kp; be_weights := []; be_scheme := scheme;
     be_validator_set := validator_set; be_finalized_blocks := [];
     be_current_round := round_state_new 0 0 0 now; be_current_epoch := 0; be_current_height := 0;
     be_vrf_outputs := ∅; be_fork_choice := store_new; be_view_change_asks := 0 |}.

Definition engine_new (kp : KeyPair) (validator_set : list Address) (now : Timestamp) : BftEngine :=
  with_scheme kp validator_set SchemeDilithium now.

Definition seed_height_round (height round : Z) (now : Timestamp) (e : BftEngine) : BftEngine :=
  let e := set_be_current_height height e in
  let e := set_be_current_epoch height e in
  set_be_current_round (round_state_new height height round now) e.

Definition seed_height (height : Z) (now : Timestamp) (e : BftEngine) : BftEngine :=
  seed_height_round height 0 now e.

(** ** Weights and quorums *)

Definition quorum_size (e : BftEngine) : nat := (2 * length e.(be_validator_set)) `div` 3 + 1.

Definition set_weights (weights : list Z) (e : BftEngine) : BftEngine :=
  set_be_weights (if bool_decide (length weights = length e.(be_validator_set)) then weights else []) e.

Definition weight_of (addr : Address) (e : BftEngine) : Z :=
  if bool_decide (e.(be_weights) = []) then 1
  else
    default 0 (i ← list_find (fun a => a = addr) e.(be_validator_set);
               e.(be_weights) !! i.1).

Definition total_weight (e : BftEngine) : Z :=
  if bool_decide (e.(be_weights) = []) then Z.of_nat (length e.(be_validator_set))
  else foldl (sat_add u64_max) 0 e.(be_weights).

(** The loop of [is_quorum]. *)
Fixpoint count_voters (e : BftEngine) (voters seen : list Address) (got : Z) : Z :=
  match voters with
  | [] => got
  | v :: voters =>
      if bool_decide (v ∈ seen) then count_voters e voters seen got
      else count_voters e voters (seen ++ [v]) (sat_add u64_max got (weight_of v e))
  end.

Definition is_quorum (voters : list Address) (e : BftEngine) : bool :=
  let total := total_weight e in
  if bool_decide (total = 0) then false
  else bool_decide (total * 2 < count_voters e voters [] 0 * 3).

(** ** The proposer *)

(** The loop of [proposer_at]: the index of the validator whose share holds the turn. *)
Fixpoint pick_index (weights : list Z) (pick : Z) (i : nat) : option nat :=
  match weights with
  | [] => None
  | w :: weights => if bool_decide (pick < w) then Some i else pick_index weights (pick - w) (S i)
  end.

Definition proposer_at (height round : Z) (e : BftEngine) : option Address :=
  let vs := e.(be_validator_set) in
  if bool_decide (vs = []) then None
  else
    let turn := wrapping_add64 height round in
    let by_turn := vs !! Z.to_nat (turn mod Z.of_nat (length vs)) in
    if bool_decide (length e.(be_weights) <> length vs) then by_turn
    else
      let total := foldl (sat_add u64_max) 0 e.(be_weights) in
      if bool_decide (total = 0) then by_turn
      else
        match pick_index e.(be_weights) (turn mod total) 0 with
        | Some i => vs !! i
        | None => last vs
        end.

Definition is_proposer (e : BftEngine) : bool :=
  let s := e.(be_current_round) in
  bool_decide (proposer_at s.(rs_height) s.(rs_round) e = Some e.(be_address)).

(** [(round..=round.saturating_add(span)).find(..)]. *)
Definition round_electing (proposer : Address) (span : Z) (e : BftEngine) : option Z :=
  if bool_decide (e.(be_validator_set) = []) then None
  else
    let s := e.(be_current_round) in
    let rounds := seqZ s.(rs_round) (sat_add u32_max s.(rs_round) span - s.(rs_round) + 1) in
    snd <$> list_find (fun r => proposer_at s.(rs_height) r e = Some proposer) rounds.

(** ** Proposing and voting *)

Definition propose_block (roots : BlockRoots) (now : Timestamp) (e : BftEngine)
    : BftEngine * BlockHeader :=
  let epoch := e.(be_current_epoch) in
  let height := e.(be_current_height) in
  let slot := now / MICRO_SLOT_MS in
  let prev_hash :=
    match store_canonical_head e.(be_fork_choice) with
    | Some b => block_hash b
    | None => match last e.(be_finalized_blocks) with
              | Some (h, _) => block_hash h
              | None => ZERO_HASH
              end
    end in
  let '(vrf_output, vrf_proof) := compute_vrf_output e.(be_keypair) epoch slot in
  let e := set_be_vrf_outputs (<[epoch := vrf_output]> e.(be_vrf_outputs)) e in
  let h := header_new height epoch slot prev_hash e.(be_address) roots vrf_output vrf_proof now in
  let h := set_bh_round e.(be_current_round).(rs_round) h in
  let h := header_sign e.(be_keypair) e.(be_scheme) h in
  let e := set_be_fork_choice (add_block h e.(be_fork_choice)) e in
  let s := set_rs_proposed_block (Some h) e.(be_current_round) in
  (set_be_current_round (advance_phase PhVote now s) e, h).

(** The jump of [receive_proposal] to a later round. *)
Definition catch_up (height round : Z) (now : Timestamp) (e : BftEngine) : BftEngine :=
  let s := e.(be_current_round) in
  if bool_decide (s.(rs_round) < round) && bool_decide (s.(rs_height) = height)
  then set_be_current_round (advance_phase PhPropose now (set_rs_round round s)) e
  else e.

Definition receive_proposal (h : BlockHeader) (now : Timestamp) (e : BftEngine)
    : BftEngine * result (option Vote) PoCError :=
  let height := e.(be_current_height) in
  if bool_decide (h.(bh_height) <> height) then (e, Ok None)
  else if bool_decide (h.(bh_round) < e.(be_current_round).(rs_round)) then (e, Ok None)
  else if bool_decide (proposer_at height h.(bh_round) e <> Some h.(bh_proposer)) then (e, Ok None)
  else
    let e := catch_up height h.(bh_round) now e in
    match header_verify h with
    | Err err => (e, Err err)
    | Ok false => (e, Ok None)
    | Ok true =>
        if bool_decide (30000 < sat_sub now h.(bh_timestamp)) then (e, Ok None)
        else
          let fc := add_block h e.(be_fork_choice) in
          let e := set_be_fork_choice fc e in
          if negb (is_safe_to_vote h fc) then (e, Ok None)
          else
            let s := e.(be_current_round) in
            if negb (map_or_true s.(rs_voted_for) (fun prev => bool_decide (prev = block_hash h)))
            then (e, Ok None)
            else
              let s := set_rs_proposed_block (Some h) s in
              let s := set_rs_voted_for (Some (block_hash h)) s in
              let s := advance_phase PhVote now s in
              (set_be_current_round s e,
               Ok (Some (vote_new (block_hash h) h.(bh_height) h.(bh_epoch) s.(rs_round)
                           e.(be_keypair) e.(be_scheme) now)))
    end.

Definition receive_vote (vote : Vote) (now : Timestamp) (e : BftEngine)
    : BftEngine * result (option QuorumCertificate) PoCError :=
  match vote_verify vote with
  | Err err => (e, Err err)
  | Ok false => (e, Ok None)
  | Ok true =>
      let s := e.(be_current_round) in
      if bool_decide (vote.(vt_height) <> s.(rs_height)) then (e, Ok None)
      else
        let s := set_rs_votes (<[vote.(vt_voter) := vote]> s.(rs_votes)) s in
        let e := set_be_current_round s e in
        match s.(rs_proposed_block) with
        | None => (e, Ok None)
        | Some b =>
            let state_bh := block_hash b in
            if bool_decide (s.(rs_qc) <> None) then (e, Ok None)
            else
              let votes := filter (fun v => v.(vt_block_hash) = state_bh) (hash_iter s.(rs_votes)).*2 in
              if is_quorum (vt_voter <$> votes) e then
                let qc := qc_new state_bh vote.(vt_height) vote.(vt_epoch) vote.(vt_round) votes now in
                let s := advance_phase PhCommit now (set_rs_qc (Some qc) s) in
                let e := set_be_current_round s e in
                (set_be_fork_choice (add_qc qc e.(be_fork_choice)) e, Ok (Some qc))
              else (e, Ok None)
        end
  end.

(** ** Finality *)

Definition finalize_block (h : BlockHeader) (qc : QuorumCertificate) (now : Timestamp) (e : BftEngine)
    : BftEngine * result unit PoCError :=
  if bool_decide (qc.(qc_block_hash) <> block_hash h)
  then (e, Err (ValidationFailed "QC block_hash mismatch"))
  else if bool_decide (voter_count qc < quorum_size e)%nat
  then (e, Err (ValidationFailed "QC insufficient votes"))
  else
    let new_height := wrapping_add64 h.(bh_height) 1 in
    let new_epoch := wrapping_add64 h.(bh_epoch) 1 in
    let f := e.(be_finalized_blocks) ++ [(h, qc)] in
    let e := set_be_finalized_blocks (if bool_decide (1024 < Z.of_nat (length f)) then drop 1 f else f) e in
    let fc := update_locked_qc qc e.(be_fork_choice) in
    let fc := prune_blocks (sat_sub h.(bh_height) 64) fc in
    let fc := prune_view_changes (wrapping_add64 h.(bh_height) 1) fc in
    let e := set_be_fork_choice fc e in
    let e := set_be_current_height new_height e in
    let e := set_be_current_epoch new_epoch e in
    (set_be_current_round (round_state_new new_height new_epoch 0 now) e, Ok tt).

(** ** View changes *)

Definition trigger_view_change (now : Timestamp) (e : BftEngine) : BftEngine * ViewChangeMsg :=
  let s := e.(be_current_round) in
  let fc := e.(be_fork_choice) in
  let new_round := Z.max ((s.(rs_round) + 1) mod (u32_max + 1))
                         (highest_view_change_round s.(rs_height) fc) in
  let msg := view_change_new new_round s.(rs_height) s.(rs_epoch) fc.(fc_high_qc)
               e.(be_keypair) e.(be_scheme) now in
  (set_be_view_change_asks (wrapping_add64 e.(be_view_change_asks) 1) e, msg).

Definition receive_view_change (msg : ViewChangeMsg) (now : Timestamp) (e : BftEngine)
    : BftEngine * result (option Z) PoCError :=
  let quorum := quorum_size e in
  let new_round := msg.(vc_new_round) in
  let s := e.(be_current_round) in
  if bool_decide (msg.(vc_height) <> s.(rs_height)) || bool_decide (new_round <= s.(rs_round))
  then (e, Ok None)
  else
    match add_view_change msg quorum e.(be_fork_choice) with
    | Err err => (e, Err err)
    | Ok (fc, None) => (set_be_fork_choice fc e, Ok None)
    | Ok (fc, Some best) =>
        let e := set_be_fork_choice fc e in
        let e := set_be_current_round (round_state_new s.(rs_height) s.(rs_epoch) new_round now) e in
        let e := match best with
                 | Some qc => set_be_fork_choice (add_qc qc e.(be_fork_choice)) e
                 | None => e
                 end in
        (set_be_view_change_asks 0 e, Ok (Some new_round))
    end.

(** ** Queries *)

Definition get_canonical_head (e : BftEngine) : option BlockHeader :=
  store_canonical_head e.(be_fork_choice).
Definition get_latest_finalized_block (e : BftEngine) : option (BlockHeader * QuorumCertificate) :=
  last e.(be_finalized_blocks).

End Engine.
