(* ===== verification/BftFacts.v ===== *)
(** * Lemmas about the BFT engine

    Vote weights and weighted quorums, the proposer schedule, certificates, the
    fork choice and the one-vote rule. *)
From S2P Require Import Prelude Crypto Blocks ForkChoice Bft.
Local Open Scope Z_scope.
Local Open Scope ego_scope.

(** ** Weights *)

Section Weights.
Context (e : BftEngine).

(** The voters that [is_quorum] counts, in order. *)
Fixpoint fresh_voters (voters seen : list Address) : list Address :=
  match voters with
  | [] => []
  | v :: voters =>
      if bool_decide (v ∈ seen) then fresh_voters voters seen
      else v :: fresh_voters voters (seen ++ [v])
  end.

Lemma elem_of_fresh_voters voters seen v :
  v ∈ fresh_voters voters seen <-> v ∈ voters /\ v ∉ seen.
Proof.
  revert seen; induction voters as [|x voters IH]; intros seen; simpl; [set_solver|].
  case_bool_decide; [rewrite IH; set_solver|].
  rewrite elem_of_cons, IH, elem_of_app. destruct (decide (v = x)); set_solver.
Qed.

Lemma NoDup_fresh_voters voters seen : NoDup (fresh_voters voters seen).
Proof.
  revert seen; induction voters as [|x voters IH]; intros seen; simpl; [constructor|].
  case_bool_decide; [done|]. constructor; [|done]. rewrite elem_of_fresh_voters. set_solver.
Qed.

(** The weights are [u64]s, one per validator if there are any. *)
Record weights_ok : Prop := {
  wo_typed : Forall in_u64 e.(be_weights);
  wo_length : e.(be_weights) <> [] -> length e.(be_weights) = length e.(be_validator_set);
  wo_size : Z.of_nat (length e.(be_validator_set)) <= u64_max;
}.

Context (Hw : weights_ok).

Lemma weight_of_nonneg a : 0 <= weight_of a e.
Proof.
  unfold weight_of. case_bool_decide; [lia|].
  destruct (list_find _ _) as [[i x]|]; simpl; [|lia].
  destruct (be_weights e !! i) as [w|] eqn:E; simpl; [|lia].
  eapply Forall_lookup_1 in E; [|apply (wo_typed Hw)]. machine_lia.
Qed.

Lemma count_voters_sum voters seen got :
  0 <= got <= u64_max ->
  count_voters e voters seen got =
    Z.min u64_max (got + zsum ((fun v => weight_of v e) <$> fresh_voters voters seen)).
Proof.
  revert seen got; induction voters as [|v voters IH]; intros seen got Hg; simpl; [lia|].
  case_bool_decide; [by apply IH|].
  pose proof (weight_of_nonneg v).
  assert (0 <= zsum ((fun v => weight_of v e) <$> fresh_voters voters (seen ++ [v]))).
  { apply zsum_nonneg, Forall_fmap, Forall_true. intros x. apply weight_of_nonneg. }
  rewrite IH by (unfold sat_add; lia). unfold sat_add in *.
  rewrite fmap_cons, zsum_cons. lia.
Qed.

(** *** Equal votes *)

Lemma count_voters_unweighted voters :
  e.(be_weights) = [] ->
  count_voters e voters [] 0 = Z.min u64_max (Z.of_nat (length (fresh_voters voters []))).
Proof.
  intros He. rewrite count_voters_sum by machine_lia. f_equal.
  assert (((fun v => weight_of v e) <$> fresh_voters voters []) =
    ((fun _ => 1) <$> fresh_voters voters [])) as ->.
  { apply list_fmap_ext. intros ? ? _. unfold weight_of. by rewrite bool_decide_true. }
  rewrite zsum_const. lia.
Qed.

Lemma is_quorum_equal_votes voters :
  e.(be_weights) = [] -> e.(be_validator_set) <> [] ->
  Z.of_nat (length (fresh_voters voters [])) <= u64_max ->
  is_quorum voters e = bool_decide (quorum_size e <= length (fresh_voters voters []))%nat.
Proof.
  intros He Hv Hlen. unfold is_quorum, total_weight. rewrite (bool_decide_true (_ = [])) by done.
  rewrite bool_decide_false by (destruct (be_validator_set e); simpl; [done|lia]).
  rewrite count_voters_unweighted by done. apply bool_decide_ext.
  rewrite Z.min_r by done. unfold quorum_size.
  set (n := length (be_validator_set e)). pose proof (Nat.div_mod_eq (2 * n) 3).
  pose proof (Nat.mod_upper_bound (2 * n) 3). lia.
Qed.

(** *** Weighted votes *)

Context (Hn : e.(be_weights) <> []) (Hd : NoDup e.(be_validator_set)).

(** The weight of the validators that satisfy [P]. *)
Definition weight_where (P : Address -> Prop) `{forall a, Decision (P a)} : Z :=
  zsum ((fun a => weight_of a e) <$> filter P e.(be_validator_set)).

Lemma weight_of_index i a w :
  e.(be_validator_set) !! i = Some a -> e.(be_weights) !! i = Some w -> weight_of a e = w.
Proof.
  intros Ha Hi. unfold weight_of. rewrite bool_decide_false by done.
  assert (list_find (fun x => x = a) (be_validator_set e) = Some (i, a)) as ->.
  { apply list_find_Some. split_and!; [done|done|]. intros j y Hj Hlt ->.
    assert (j = i) by (by eapply NoDup_lookup). lia. }
  simpl. by rewrite Hi.
Qed.

Lemma weight_of_outsider a : a ∉ e.(be_validator_set) -> weight_of a e = 0.
Proof.
  intros Ha. unfold weight_of. rewrite bool_decide_false by done.
  assert (list_find (fun x => x = a) (be_validator_set e) = None) as ->; [|done].
  apply list_find_None, Forall_forall. intros x Hx ->. done.
Qed.

Lemma validators_weights : (fun a => weight_of a e) <$> e.(be_validator_set) = e.(be_weights).
Proof.
  apply list_eq_same_length with (length e.(be_weights)); [done|rewrite length_fmap; by rewrite wo_length|].
  intros i x y Hi Hx Hy. apply list_lookup_fmap_Some in Hx as (a & -> & Ha).
  by eapply weight_of_index.
Qed.

Lemma total_weight_sum :
  total_weight e = Z.min u64_max (zsum e.(be_weights)).
Proof.
  unfold total_weight. rewrite bool_decide_false by done.
  rewrite foldl_sat_add; [f_equal; lia|machine_lia|].
  eapply Forall_impl; [apply (wo_typed Hw)|]. intros x Hx. machine_lia.
Qed.

(** Counted voters and their weight in the committee. *)
Lemma fresh_weight voters :
  zsum ((fun v => weight_of v e) <$> fresh_voters voters []) = weight_where (fun a => a ∈ voters).
Proof.
  unfold weight_where.
  assert (E : zsum ((fun v => weight_of v e) <$> fresh_voters voters []) =
    zsum ((fun v => weight_of v e) <$> filter (fun a => a ∈ e.(be_validator_set)) (fresh_voters voters []))).
  { induction (fresh_voters voters []) as [|v l IH]; [done|].
    rewrite filter_cons, fmap_cons, zsum_cons, IH. case_decide as Hv.
    - by rewrite fmap_cons, zsum_cons.
    - rewrite weight_of_outsider by done. lia. }
  rewrite E. apply zsum_perm, fmap_Permutation. apply NoDup_Permutation.
  - apply NoDup_filter, NoDup_fresh_voters.
  - by apply NoDup_filter.
  - intros a. rewrite !list_elem_of_filter, elem_of_fresh_voters. set_solver.
Qed.

Lemma weight_where_le P Q `{forall a, Decision (P a)} `{forall a, Decision (Q a)} :
  weight_where P + weight_where Q <=
    zsum e.(be_weights) + weight_where (fun a => P a /\ Q a).
Proof.
  rewrite <-validators_weights. unfold weight_where. clear Hd.
  induction (be_validator_set e) as [|a l IH]; [done|].
  rewrite !filter_cons. pose proof (weight_of_nonneg a).
  repeat case_decide; repeat rewrite fmap_cons; repeat rewrite zsum_cons; try lia; tauto.
Qed.

Lemma weight_where_bound P `{forall a, Decision (P a)} :
  0 <= weight_where P <= zsum e.(be_weights).
Proof.
  rewrite <-validators_weights. unfold weight_where. clear Hd.
  induction (be_validator_set e) as [|a l IH]; [done|].
  rewrite filter_cons. pose proof (weight_of_nonneg a).
  case_decide; rewrite ?fmap_cons, ?zsum_cons; lia.
Qed.

Lemma is_quorum_weighted voters :
  zsum e.(be_weights) <= u64_max ->
  is_quorum voters e = true <->
  0 < zsum e.(be_weights) /\ 2 * zsum e.(be_weights) < 3 * weight_where (fun a => a ∈ voters).
Proof.
  intros Hs. unfold is_quorum. rewrite total_weight_sum, Z.min_r by done.
  rewrite count_voters_sum, fresh_weight by machine_lia.
  pose proof (weight_where_bound (fun a => a ∈ voters)). case_bool_decide; [split; [done|lia]|].
  rewrite bool_decide_eq_true. lia.
Qed.

End Weights.

(** ** The proposer schedule *)

(** The turns of the [i]-th validator are an interval of its weight. *)
Lemma pick_index_Some weights x k j :
  Forall (fun w => 0 <= w) weights -> 0 <= x ->
  pick_index weights x k = Some j <->
  exists i w, j = (k + i)%nat /\ weights !! i = Some w /\
    zsum (take i weights) <= x < zsum (take i weights) + w.
Proof.
  intros Hw. revert x k j. induction Hw as [|w weights Hw Hall IH]; intros x k j Hx; simpl.
  { split; [done|]. intros (i & w & _ & Hi & _). by rewrite lookup_nil in Hi. }
  case_bool_decide as Hlt.
  - split.
    + intros [= <-]. exists 0%nat, w. simpl. split_and!; [lia|done|lia|lia].
    + intros (i & w' & -> & Hi & Hb). destruct i as [|i]; [f_equal; lia|]. exfalso.
      cbn [take] in Hb. rewrite zsum_cons in Hb.
      pose proof (zsum_nonneg (take i weights) (Forall_take _ i _ Hall)). lia.
  - rewrite IH by lia. split.
    + intros (i & w' & -> & Hi & Hb). exists (S i), w'. cbn [take]. rewrite zsum_cons.
      split_and!; [lia|done|lia|lia].
    + intros (i & w' & -> & Hi & Hb). destruct i as [|i].
      * simpl in Hi, Hb. injection Hi as ->. lia.
      * cbn [take] in Hb. rewrite zsum_cons in Hb. exists i, w'. split_and!; [lia|done|lia|lia].
Qed.

(** Turns of the cycle always have a proposer. *)
Lemma pick_index_total weights x k :
  Forall (fun w => 0 <= w) weights -> 0 <= x < zsum weights -> is_Some (pick_index weights x k).
Proof.
  intros Hw. revert x k. induction Hw as [|w weights Hw Hall IH]; intros x k Hx; simpl in *; [lia|].
  case_bool_decide; [done|]. apply IH. rewrite ?zsum_cons in *. unfold zsum in *. lia.
Qed.

Lemma zsum_take_bound weights i w :
  Forall (fun w => 0 <= w) weights -> weights !! i = Some w ->
  0 <= w /\ 0 <= zsum (take i weights) /\ zsum (take i weights) + w <= zsum weights.
Proof.
  intros Hw Hi. split; [by eapply (Forall_lookup_1 _ _ _ _ Hw)|].
  split; [by apply zsum_nonneg, Forall_take|].
  rewrite <-(take_drop_middle weights i w Hi) at 2. rewrite zsum_app, zsum_cons.
  pose proof (zsum_nonneg (drop (S i) weights) (Forall_drop _ _ _ Hw)). lia.
Qed.

(** How many integers of a range lie in an interval of it. *)
Lemma count_interval T a b :
  0 <= a <= b -> b <= T ->
  length (filter (fun x => a <= x < b) (seqZ 0 T)) = Z.to_nat (b - a).
Proof.
  intros Hab HT. replace T with (a + ((b - a) + (T - b))) by lia.
  rewrite !seqZ_app by lia. rewrite !filter_app, !length_app.
  assert (E1 : filter (fun x => a <= x < b) (seqZ 0 a) = []).
  { apply filter_none. intros x Hx%elem_of_seqZ. lia. }
  assert (E2 : filter (fun x => a <= x < b) (seqZ (0 + a) (b - a)) = seqZ (0 + a) (b - a)).
  { apply filter_all. intros x Hx%elem_of_seqZ. lia. }
  assert (E3 : filter (fun x => a <= x < b) (seqZ (0 + a + (b - a)) (T - b)) = []).
  { apply filter_none. intros x Hx%elem_of_seqZ. lia. }
  rewrite E1, E2, E3. simpl. rewrite length_seqZ. lia.
Qed.

(** Any [T] consecutive integers meet every residue modulo [T] once. *)
Lemma residues_perm h T :
  0 < T -> (fun x => x mod T) <$> seqZ h T ≡ₚ seqZ 0 T.
Proof.
  intros HT. apply NoDup_Permutation.
  - apply NoDup_fmap_2_strong; [|apply NoDup_seqZ].
    intros x y Hx%elem_of_seqZ Hy%elem_of_seqZ E.
    assert (Hinv : forall z, h <= z < h + T -> h + (z mod T - h) mod T = z).
    { intros z Hz. rewrite Zminus_mod_idemp_l, Z.mod_small by lia. lia. }
    rewrite <-(Hinv x), <-(Hinv y), E by lia. done.
  - apply NoDup_seqZ.
  - intros x. rewrite list_elem_of_fmap, elem_of_seqZ. split.
    + intros (y & -> & _). pose proof (Z.mod_pos_bound y T). lia.
    + intros Hx. exists (h + (x - h) mod T). rewrite elem_of_seqZ.
      pose proof (Z.mod_pos_bound (x - h) T). split; [|lia].
      rewrite Zplus_mod_idemp_r. replace (h + (x - h)) with x by lia. rewrite Z.mod_small; lia.
Qed.

Section Schedule.
Context (e : BftEngine) (Hw : weights_ok e).
Context (Hlen : length e.(be_weights) = length e.(be_validator_set)).
Context (Hd : NoDup e.(be_validator_set)).
Context (HT : 0 < zsum e.(be_weights) <= u64_max).

Lemma weights_nonneg : Forall (fun w => 0 <= w) e.(be_weights).
Proof. eapply Forall_impl; [apply (wo_typed e Hw)|]. intros x Hx. machine_lia. Qed.

Lemma proposer_at_pick height round i a w :
  0 <= height + round <= u64_max ->
  e.(be_validator_set) !! i = Some a -> e.(be_weights) !! i = Some w ->
  proposer_at height round e = Some a <->
  zsum (take i e.(be_weights)) <= (height + round) mod zsum e.(be_weights)
    < zsum (take i e.(be_weights)) + w.
Proof.
  intros Hr Ha Hi. unfold proposer_at. rewrite bool_decide_false by (intros E; by rewrite E in Ha).
  rewrite bool_decide_false by (by intros []).
  rewrite foldl_sat_add, Z.add_0_l, Z.min_r by (machine_lia || apply weights_nonneg || lia).
  rewrite bool_decide_false by lia.
  unfold wrapping_add64. rewrite (Z.mod_small (height + round)) by machine_lia.
  set (x := (height + round) mod zsum (be_weights e)).
  assert (Hx : 0 <= x < zsum (be_weights e)) by (apply Z.mod_pos_bound; lia).
  destruct (pick_index_total (be_weights e) x 0 weights_nonneg Hx) as [j Hj]. rewrite Hj.
  pose proof Hj as Hj'. apply pick_index_Some in Hj as (i' & w' & -> & Hi' & Hb);
    [|apply weights_nonneg|lia]. simpl. split.
  - intros Ha'. assert (i' = i) as -> by (by eapply NoDup_lookup). congruence.
  - intros Hb'. assert (Hp : pick_index (be_weights e) x 0 = Some i).
    { apply pick_index_Some; [apply weights_nonneg|lia|]. exists i, w. done. }
    rewrite Hj' in Hp. injection Hp as Hp. simpl in Hp. by subst i'.
Qed.

Lemma proposer_share height round i a w :
  0 <= height -> 0 <= round -> height + round + zsum e.(be_weights) <= u64_max ->
  e.(be_validator_set) !! i = Some a -> e.(be_weights) !! i = Some w ->
  length (filter (fun h => proposer_at h round e = Some a) (seqZ height (zsum e.(be_weights))))
    = Z.to_nat w.
Proof.
  intros Hh Hr Hs Ha Hi. set (T := zsum (be_weights e)) in *. set (p := zsum (take i (be_weights e))).
  destruct (zsum_take_bound _ _ _ weights_nonneg Hi) as (Hw0 & Hp0 & Hpw). fold T p in Hp0, Hpw.
  assert (E : filter (fun h => proposer_at h round e = Some a) (seqZ height T) =
    filter (fun h => p <= (h + round) mod T < p + w) (seqZ height T)).
  { apply filter_ext_in. intros h Hin%elem_of_seqZ.
    apply proposer_at_pick; [lia|done|done]. }
  rewrite E.
  assert (E2 : length (filter (fun h => p <= (h + round) mod T < p + w) (seqZ height T)) =
    length (filter (fun x => p <= x < p + w) ((fun x => x mod T) <$> seqZ (height + round) T))).
  { rewrite (Z.add_comm height), <-fmap_add_seqZ, !length_filter_fmap. f_equal.
    apply list_filter_iff. intros h. by rewrite Z.add_comm. }
  rewrite E2, residues_perm by lia. rewrite count_interval by lia. f_equal. lia.
Qed.

End Schedule.

(** ** Certificates, Merkle roots and fork choice: lemmas

    What a verified certificate proves, what a Merkle root commits to, and the
    order that makes the fork choice deterministic. *)

(** ** Merkle roots *)

Section Merkle.
Context `{CryptoPrims}.

(** Two different pairs of hashes with the same hash. *)
Definition pair_collision : Prop :=
  exists a b c d, hash_multiple [a; b] = hash_multiple [c; d] /\ (a, b) <> (c, d).

Lemma pair_ind (P : list Hash -> Prop) :
  P [] -> (forall x, P [x]) -> (forall x y l, P l -> P (x :: y :: l)) -> forall l, P l.
Proof.
  intros H0 H1 H2. refine (fix go l := match l with
    | [] => H0 | [x] => H1 x | x :: y :: l => H2 x y l (go l) end).
Qed.

Lemma length_merkle_layer l : length (merkle_layer l) = ((length l + 1) / 2)%nat.
Proof.
  induction l as [|x|x y l IH] using pair_ind; [done|done|]. simpl length. rewrite IH.
  replace (S (S (length l)) + 1)%nat with ((length l + 1) + 1 * 2)%nat by lia.
  rewrite Nat.div_add by lia. lia.
Qed.

Lemma merkle_layer_shrinks l :
  (2 <= length l)%nat -> (1 <= length (merkle_layer l) < length l)%nat.
Proof.
  intros Hl. rewrite length_merkle_layer.
  pose proof (Nat.div_mod_eq (length l + 1) 2). pose proof (Nat.mod_upper_bound (length l + 1) 2).
  lia.
Qed.

Lemma merkle_loop_enough fuel l :
  l <> [] -> (length l <= fuel)%nat -> is_Some (merkle_loop fuel l).
Proof.
  revert l; induction fuel as [|fuel IH]; intros l Hl Hlen; [destruct l; simpl in Hlen; [done|lia]|].
  destruct l as [|x [|y l]]; [done|done|]. set (l' := x :: y :: l) in *.
  destruct (merkle_layer_shrinks l') as [H1 H2]; [simpl; lia|].
  change (merkle_loop (S fuel) l') with (merkle_loop fuel (merkle_layer l')).
  apply IH; [|lia]. intros E. rewrite E in H1. simpl in H1. lia.
Qed.

Lemma merkle_loop_mono fuel fuel' l r :
  merkle_loop fuel l = Some r -> (fuel <= fuel')%nat -> merkle_loop fuel' l = Some r.
Proof.
  revert fuel' l; induction fuel as [|fuel IH]; intros fuel' l Hr Hle;
    destruct l as [|x [|y l]]; try done; [by destruct fuel'..|].
  destruct fuel' as [|fuel']; [lia|]. simpl in *. apply IH; [done|lia].
Qed.

(** With any large enough bound the loop gives [merkle_root]. *)
Lemma merkle_loop_root fuel l :
  l <> [] -> (length l <= fuel)%nat -> merkle_loop fuel l = Some (merkle_root l).
Proof.
  intros Hl Hf. unfold merkle_root.
  destruct (merkle_loop_enough (length l) l Hl ltac:(lia)) as [r Hr].
  rewrite Hr. simpl. by eapply merkle_loop_mono.
Qed.

Lemma merkle_layer_binding l l' :
  length l = length l' -> merkle_layer l = merkle_layer l' -> l = l' \/ pair_collision.
Proof.
  revert l'; induction l as [|x|x y l IH] using pair_ind; intros l' Hlen E.
  - destruct l'; [auto|done].
  - destruct l' as [|x' [|]]; try done. simpl in E. injection E as E.
    destruct (decide (x = x')) as [->|Hne]; [auto|]. right.
    exists x, x, x', x'. split; [done|]. congruence.
  - destruct l' as [|x' [|y' l']]; try done. simpl in E. injection E as E E'.
    destruct (decide ((x, y) = (x', y'))) as [[= -> ->]|Hne].
    + destruct (IH l') as [->|]; [by injection Hlen|done|auto|auto].
    + right. by exists x, y, x', y'.
Qed.

Lemma merkle_loop_binding fuel l l' r :
  length l = length l' -> merkle_loop fuel l = Some r -> merkle_loop fuel l' = Some r ->
  l = l' \/ pair_collision.
Proof.
  revert l l'; induction fuel as [|fuel IH]; intros l l' Hlen Hr Hr';
    destruct l as [|x [|y l]], l' as [|x' [|y' l']]; try done; [simpl in *; left; congruence..|].
  destruct (IH (merkle_layer (x :: y :: l)) (merkle_layer (x' :: y' :: l'))) as [E|]; auto.
  - rewrite !length_merkle_layer. by rewrite Hlen.
  - by apply merkle_layer_binding.
Qed.

Lemma merkle_root_binding_or l l' :
  length l = length l' -> merkle_root l = merkle_root l' -> l = l' \/ pair_collision.
Proof.
  intros Hlen E. destruct l as [|x l]; [destruct l'; auto; done|].
  destruct l' as [|x' l']; [done|].
  apply (merkle_loop_binding (length (x :: l)) _ _ (merkle_root (x :: l)) Hlen).
  - by apply merkle_loop_root.
  - rewrite E. apply merkle_loop_root; [done|]. by rewrite Hlen.
Qed.

(** An odd last leaf may be repeated. *)
Lemma merkle_layer_dup l x :
  Nat.even (length l) = true -> merkle_layer (l ++ [x]) = merkle_layer (l ++ [x; x]).
Proof.
  induction l as [|y|y z l IH] using pair_ind; intros He; [done|done|].
  simpl. f_equal. by apply IH.
Qed.

Lemma merkle_root_dup l x :
  l <> [] -> Nat.even (length l) = true -> merkle_root (l ++ [x]) = merkle_root (l ++ [x; x]).
Proof.
  intros Hl He. destruct l as [|y [|z l]]; [done|done|].
  assert (Hm : forall k, merkle_root ((y :: z :: l) ++ k) =
    merkle_root (merkle_layer ((y :: z :: l) ++ k))).
  { intros k. set (l0 := (y :: z :: l) ++ k).
    destruct (merkle_layer_shrinks l0) as [H1 H2]; [simpl; lia|].
    assert (Some (merkle_root l0) = Some (merkle_root (merkle_layer l0))) as E; [|by injection E].
    rewrite <-(merkle_loop_root (length l0) l0) by done.
    rewrite <-(merkle_loop_root (length l0 - 1) (merkle_layer l0)); [done| |lia].
    intros E. rewrite E in H1. simpl in H1. lia. }
  rewrite !Hm. f_equal. by apply merkle_layer_dup.
Qed.

(** ** Certificates *)

(** Validator [a] has signed a vote for the block in this height, epoch and round. *)
Definition backs (block : Hash) (height epoch round : Z) (a : Address) (v : Vote) : Prop :=
  v.(vt_block_hash) = block /\ v.(vt_height) = height /\ v.(vt_epoch) = epoch /\
  v.(vt_round) = round /\ v.(vt_voter) = a /\ from_public_key v.(vt_voter_public_key) = a /\
  vote_verify v = Ok true.

Lemma qc_verify_votes_Some qc vs votes seen seen' :
  qc_verify_votes qc vs votes seen = Ok (Some seen') ->
  (forall v, v ∈ votes ->
     backs qc.(qc_block_hash) qc.(qc_height) qc.(qc_epoch) qc.(qc_round) v.(vt_voter) v /\
     v.(vt_voter) ∈ vs) /\
  NoDup (vt_voter <$> votes) /\ (forall a, a ∈ vt_voter <$> votes -> a ∉ seen) /\
  seen' = list_to_set (vt_voter <$> votes) ∪ seen.
Proof.
  revert seen; induction votes as [|v votes IH]; intros seen; simpl.
  { intros [= <-]. split_and!; [set_solver|constructor|set_solver|set_solver]. }
  case_bool_decide as H1; [done|]. case_bool_decide as H2; [done|]. case_bool_decide as H3; [done|].
  case_bool_decide as H4; [done|]. cbn [orb]. case_bool_decide as H5; [done|].
  case_bool_decide as H6; [done|]. case_bool_decide as H7; [done|].
  destruct (vote_verify v) as [[]|] eqn:Hv; cbn [result_bind]; try done.
  intros (Hall & Hnd & Hfresh & ->)%IH. split_and!.
  - intros v0 [->|Hin]%elem_of_cons; [|by apply Hall]. split; [|by destruct (decide (vt_voter v ∈ vs))].
    unfold backs. by split_and!.
  - constructor; [|done]. intros Hin. apply Hfresh in Hin. set_solver.
  - intros a [->|Hin]%elem_of_cons; [done|]. apply Hfresh in Hin. set_solver.
  - set_solver.
Qed.

(** A verified certificate names a quorum of validators, each with a signed vote. *)
Lemma qc_verify_quorum qc votes vs :
  qc_verify qc votes vs = Ok true ->
  exists A : gset Address, A ⊆ list_to_set vs /\ (2 * length vs < 3 * size A)%nat /\
    forall a, a ∈ A -> exists v, v ∈ votes /\
      backs qc.(qc_block_hash) qc.(qc_height) qc.(qc_epoch) qc.(qc_round) a v.
Proof.
  unfold qc_verify. case_bool_decide; [done|]. case_bool_decide; [done|].
  destruct (qc_verify_votes qc vs votes ∅) as [[seen|]|] eqn:E; cbn [result_bind]; try done.
  intros Hok.
  assert (Hq : bool_decide ((2 * length vs) `div` 3 + 1 <= size seen)%nat = true) by congruence.
  apply bool_decide_eq_true in Hq. apply qc_verify_votes_Some in E as (Hall & _ & _ & ->).
  exists (list_to_set (vt_voter <$> votes) ∪ ∅). split_and!.
  - intros a. rewrite elem_of_union, elem_of_list_to_set, list_elem_of_fmap.
    intros [(v & -> & Hv)|?]; [|set_solver]. apply elem_of_list_to_set. by apply Hall.
  - pose proof (Nat.div_mod_eq (2 * length vs) 3). pose proof (Nat.mod_upper_bound (2 * length vs) 3).
    lia.
  - intros a. rewrite elem_of_union, elem_of_list_to_set, list_elem_of_fmap.
    intros [(v & -> & Hv)|?]; [|set_solver]. exists v. split; [done|]. by apply Hall.
Qed.

End Merkle.

(** Two sets of more than two thirds share more than a third. *)
Lemma two_thirds_overlap (n : nat) (S A B : gset Address) :
  (size S <= n)%nat -> A ⊆ S -> B ⊆ S -> (2 * n < 3 * size A)%nat -> (2 * n < 3 * size B)%nat ->
  (n < 3 * size (A ∩ B))%nat.
Proof.
  intros HS HA HB HqA HqB.
  assert (size (A ∪ B) <= size S)%nat by (apply subseteq_size; set_solver).
  assert (size (A ∪ B) = size A + size (B ∖ A))%nat.
  { rewrite <-size_union by set_solver. f_equal. apply leibniz_equiv.
    intros x. destruct (decide (x ∈ A)); set_solver. }
  assert (size B = size (B ∖ A) + size (A ∩ B))%nat; [|lia].
  rewrite <-size_union by set_solver. f_equal. apply leibniz_equiv.
  intros x. destruct (decide (x ∈ A)); set_solver.
Qed.

(** ** The order of byte strings *)

Lemma bytes_leb_total a b : bytes_leb a b = false -> bytes_leb b a = true.
Proof. unfold bytes_leb. rewrite (bytes_compare_antisym a b). by destruct (bytes_compare a b). Qed.

Lemma bytes_leb_antisym a b : bytes_leb a b = true -> bytes_leb b a = true -> a = b.
Proof.
  unfold bytes_leb. rewrite (bytes_compare_antisym a b).
  destruct (bytes_compare a b) eqn:E; simpl; try done. by apply bytes_compare_eq in E.
Qed.

Lemma bytes_leb_trans a b c : bytes_leb a b = true -> bytes_leb b c = true -> bytes_leb a c = true.
Proof.
  unfold bytes_leb. destruct (bytes_compare a b) eqn:E1, (bytes_compare b c) eqn:E2; try done.
  - apply bytes_compare_eq in E1 as ->. by rewrite E2.
  - apply bytes_compare_eq in E1 as ->. by rewrite E2.
  - apply bytes_compare_eq in E2 as ->. by rewrite E1.
  - by rewrite (bytes_compare_trans a b c).
Qed.

Lemma min_hash_spec l m :
  min_hash l = Some m -> m ∈ l /\ forall x, x ∈ l -> bytes_leb m x = true.
Proof.
  assert (Hgen : forall l (best : option Hash) m,
    foldl (fun best h => match best with
                         | None => Some h
                         | Some b => if bytes_leb b h then Some b else Some h
                         end) best l = Some m ->
    (best = Some m \/ m ∈ l) /\ (forall b, best = Some b -> bytes_leb m b = true) /\
    forall x, x ∈ l -> bytes_leb m x = true).
  { assert (Hrefl : forall x, bytes_leb x x = true).
    { intros x. destruct (bytes_leb x x) eqn:E; [done|]. by pose proof (bytes_leb_total x x E); congruence. }
    clear l m. intros l. induction l as [|h l IH]; intros best m; simpl.
    - intros ->. split_and!; [auto|intros b [= <-]; auto|set_solver].
    - destruct best as [b|].
      + destruct (bytes_leb b h) eqn:E; intros (Hm & Hb & Hall)%IH.
        * specialize (Hb b eq_refl). split_and!; [set_solver|by intros ? [= <-]|].
          intros x [->|Hx]%elem_of_cons; [|auto]. by eapply bytes_leb_trans.
        * specialize (Hb h eq_refl). split_and!; [set_solver| |].
          -- intros ? [= <-]. eapply bytes_leb_trans; [exact Hb|]. by apply bytes_leb_total.
          -- intros x [->|Hx]%elem_of_cons; auto.
      + intros (Hm & Hb & Hall)%IH. split_and!; [set_solver|done|].
        intros x [->|Hx]%elem_of_cons; auto. }
  intros Hm. apply Hgen in Hm as (Hm & _ & Hall). naive_solver.
Qed.

Lemma min_hash_perm l k : l ≡ₚ k -> min_hash l = min_hash k.
Proof.
  intros Hp.
  assert (Hnone : forall l, min_hash l = None -> l = []).
  { intros [|x l0]; [done|]. unfold min_hash. simpl. intros E. exfalso. revert x E.
    induction l0 as [|y l0 IH]; intros x; simpl; [done|]. destruct (bytes_leb x y); apply IH. }
  destruct (min_hash l) as [m|] eqn:E, (min_hash k) as [m'|] eqn:E'; [|..|done].
  - apply min_hash_spec in E as [H1 H2], E' as [H3 H4]. f_equal.
    apply bytes_leb_antisym; [apply H2; by rewrite Hp|apply H4; by rewrite <-Hp].
  - apply Hnone in E'. subst. apply Permutation_nil_r in Hp. by subst.
  - apply Hnone in E. subst. apply Permutation_nil_l in Hp. by subst.
Qed.
