(* ===== verification/BftRules.v ===== *)
(** * Fork choice, the one-vote rule and view changes: lemmas *)
From S2P Require Import Prelude Crypto Blocks ForkChoice Bft BftFacts.
Local Open Scope Z_scope.
Local Open Scope ego_scope.

(** ** Resolving a fork *)

Lemma fork_leb_total a b : fork_leb a b = false -> fork_leb b a = true.
Proof.
  unfold fork_leb. rewrite (Nat.compare_antisym (voter_count a.2)).
  destruct (Nat.compare _ _); simpl; try done. apply bytes_leb_total.
Qed.

Lemma fork_leb_trans a b c : fork_leb a b = true -> fork_leb b c = true -> fork_leb a c = true.
Proof.
  unfold fork_leb.
  destruct (Nat.compare_spec (voter_count b.2) (voter_count a.2)),
    (Nat.compare_spec (voter_count c.2) (voter_count b.2)),
    (Nat.compare_spec (voter_count c.2) (voter_count a.2)); try done; try lia.
  apply bytes_leb_trans.
Qed.

Lemma fork_leb_antisym a b : fork_leb a b = true -> fork_leb b a = true -> a.1 = b.1.
Proof.
  unfold fork_leb. rewrite (Nat.compare_antisym (voter_count a.2)).
  destruct (Nat.compare _ _); simpl; try done. apply bytes_leb_antisym.
Qed.

Lemma omap_perm {A B} (f : A -> option B) (l k : list A) : l ≡ₚ k -> omap f l ≡ₚ omap f k.
Proof.
  induction 1 as [|x l k _ IH|x y l|l k m _ IH1 _ IH2]; simpl.
  - done.
  - destruct (f x); [by constructor|done].
  - destruct (f x), (f y); try done. constructor.
  - by etrans.
Qed.

Lemma singleton_perm {A} (l k : list A) :
  l ≡ₚ k -> length l = 1%nat -> head l = head k.
Proof.
  intros Hp Hl. destruct l as [|x [|]]; try done.
  apply Permutation_singleton_l in Hp. by subst.
Qed.

Section Fork.
Context `{CryptoPrims}.

Lemma resolve_fork_order (o1 o2 : HashOrder) height f :
  @resolve_fork o1 height f = @resolve_fork o2 height f.
Proof.
  unfold resolve_fork. destruct (fc_blocks f !! height) as [m|]; [|done]. cbn [mbind option_bind].
  set (k1 := (@hash_iter o1 _ _ _ _ m).*1). set (k2 := (@hash_iter o2 _ _ _ _ m).*1).
  assert (Hk : k1 ≡ₚ k2) by (apply fmap_Permutation; by rewrite !hash_iter_perm).
  pose proof (Permutation_length Hk) as Hlen. rewrite <-Hlen.
  case_bool_decide as H1; [by apply singleton_perm|].
  set (q := fun h => pair h <$> fc_qcs f !! h).
  assert (Hq : omap q k1 ≡ₚ omap q k2) by by apply omap_perm.
  pose proof (Permutation_length Hq) as Hql. rewrite <-Hql.
  case_bool_decide as H2; [f_equal; by apply singleton_perm|].
  assert (bool_decide (omap q k1 = []) = bool_decide (omap q k2 = [])) as <-.
  { apply bool_decide_ext. rewrite <-!length_zero_iff_nil. lia. }
  case_bool_decide as H3; [by apply min_hash_perm|]. do 2 f_equal.
  apply stable_sort_unique; eauto using fork_leb_total, fork_leb_trans.
  intros x y Hx Hy Hxy Hyx. pose proof (fork_leb_antisym _ _ Hxy Hyx) as E.
  apply list_elem_of_omap in Hx as (hx & _ & Hx), Hy as (hy & _ & Hy). unfold q in *.
  destruct (fc_qcs f !! hx) eqn:Ex, (fc_qcs f !! hy) eqn:Ey; simplify_eq/=. by simplify_eq.
Qed.

Context `{HashOrder}.

(** The fork choice picks one of the blocks of the height. *)
Lemma resolve_fork_candidate height f h :
  resolve_fork height f = Some h ->
  exists m, f.(fc_blocks) !! height = Some m /\ is_Some (m !! h).
Proof.
  unfold resolve_fork. destruct (fc_blocks f !! height) as [m|]; [|done]. cbn [mbind option_bind].
  set (keys := (hash_iter m).*1). set (wq := omap _ keys).
  assert (Hkey : forall x, x ∈ keys -> is_Some (m !! x)).
  { intros x. unfold keys. rewrite list_elem_of_fmap. intros ([y b] & -> & Hy).
    apply elem_of_hash_iter in Hy. eauto. }
  assert (Hwq : forall x, x ∈ wq -> is_Some (m !! x.1)).
  { intros x. unfold wq. rewrite list_elem_of_omap. intros (y & Hy & Hx).
    destruct (fc_qcs f !! y); simplify_eq/=. by apply Hkey. }
  assert (Hhead : forall {A} (l : list A) (x : A), head l = Some x -> x ∈ l).
  { intros A [|y l] x; simpl; [done|]. intros [= ->]. set_solver. }
  intros Hr. exists m. split; [done|]. revert Hr.
  case_bool_decide; [intros; by apply Hkey, Hhead|].
  case_bool_decide.
  { intros (x & Hx & ->)%fmap_Some. by apply Hwq, Hhead. }
  case_bool_decide.
  { intros [Hm _]%min_hash_spec. by apply Hkey. }
  intros (x & Hx & ->)%fmap_Some. apply Hwq. apply Hhead in Hx. by rewrite stable_sort_perm in Hx.
Qed.

(** ** Safe to vote *)

(** [descends f n current ancestor]: [n] links of known blocks lead from one to the other. *)
Inductive descends (f : ForkChoiceStore) : nat -> Hash -> Hash -> Prop :=
| descends_here h : descends f 0 h h
| descends_link n b current ancestor :
    find_block current f = Some b -> descends f n b.(bh_prev_hash) ancestor ->
    descends f (S n) current ancestor.

Lemma extends_walk_spec fuel current ancestor f :
  extends_walk fuel current ancestor f = true <->
  exists n, (n < fuel)%nat /\ descends f n current ancestor.
Proof.
  revert current; induction fuel as [|fuel IH]; intros current; simpl.
  { split; [done|]. intros (n & Hn & _). lia. }
  case_bool_decide as E.
  { subst. split; [|done]. intros _. exists 0%nat. split; [lia|constructor]. }
  destruct (find_block current f) as [b|] eqn:Eb.
  - rewrite IH. split.
    + intros (n & Hn & Hd). exists (S n). split; [lia|]. by econstructor.
    + intros (n & Hn & Hd). inversion Hd; simplify_eq. eexists. split; [|done]. lia.
  - split; [done|]. intros (n & _ & Hd). inversion Hd; congruence.
Qed.

(** ** The one-vote rule *)

(** The operations of a node while it stays at one height. *)
Inductive BftEvent : Type :=
| BPropose (roots : BlockRoots)
| BProposal (h : BlockHeader)
| BVote (v : Vote)
| BTrigger
| BViewChange (m : ViewChangeMsg).

(** An operation and the votes the node casts in it. *)
Definition bft_step (now : Timestamp) (ev : BftEvent) (e : BftEngine) : BftEngine * list Vote :=
  match ev with
  | BPropose roots => ((propose_block roots now e).1, [])
  | BProposal h =>
      let '(e, r) := receive_proposal h now e in
      (e, match r with Ok (Some v) => [v] | _ => [] end)
  | BVote v => ((receive_vote v now e).1, [])
  | BTrigger => ((trigger_view_change now e).1, [])
  | BViewChange m => ((receive_view_change m now e).1, [])
  end.

Fixpoint bft_run (evs : list (Timestamp * BftEvent)) (e : BftEngine) : BftEngine * list Vote :=
  match evs with
  | [] => (e, [])
  | (now, ev) :: evs =>
      let '(e, vs) := bft_step now ev e in
      let '(e, vs') := bft_run evs e in
      (e, vs ++ vs')
  end.

(** The votes [cast] so far agree with what the engine remembers. *)
Definition remembers (cast : list Vote) (e : BftEngine) : Prop :=
  forall v, v ∈ cast -> v.(vt_round) <= e.(be_current_round).(rs_round) /\
    (v.(vt_round) = e.(be_current_round).(rs_round) ->
     e.(be_current_round).(rs_voted_for) = Some v.(vt_block_hash)).

Definition one_per_round (cast : list Vote) : Prop :=
  forall v v', v ∈ cast -> v' ∈ cast -> v.(vt_round) = v'.(vt_round) ->
    v.(vt_block_hash) = v'.(vt_block_hash).

(** The memory of an unchanged round and ballot, or of a later round. *)
Lemma remembers_same cast e e' :
  e'.(be_current_round).(rs_round) = e.(be_current_round).(rs_round) ->
  e'.(be_current_round).(rs_voted_for) = e.(be_current_round).(rs_voted_for) ->
  remembers cast e -> remembers cast e'.
Proof. intros Hr Hv Hm v Hin. rewrite Hr, Hv. by apply Hm. Qed.

Lemma remembers_later cast e e' :
  e.(be_current_round).(rs_round) < e'.(be_current_round).(rs_round) ->
  remembers cast e -> remembers cast e'.
Proof. intros Hr Hm v Hin. destruct (Hm v Hin). lia. Qed.

Lemma catch_up_remembers cast height round now e :
  remembers cast e -> remembers cast (catch_up height round now e).
Proof.
  intros Hm. unfold catch_up. case_bool_decide; [|done]. case_bool_decide; [|done].
  by eapply remembers_later.
Qed.

(** A new vote agrees with the ballot, or is the first of its round. *)
Lemma vote_remembers cast e s h kp scheme now :
  remembers cast e -> one_per_round cast ->
  map_or_true e.(be_current_round).(rs_voted_for) (fun prev => bool_decide (prev = block_hash h)) = true ->
  s.(rs_round) = e.(be_current_round).(rs_round) -> s.(rs_voted_for) = Some (block_hash h) ->
  let v := vote_new (block_hash h) h.(bh_height) h.(bh_epoch) s.(rs_round) kp scheme now in
  remembers (cast ++ [v]) (set_be_current_round s e) /\ one_per_round (cast ++ [v]).
Proof.
  intros Hm Ho Hv Hr Hs v.
  assert (Hold : forall w, w ∈ cast -> w.(vt_round) = s.(rs_round) -> w.(vt_block_hash) = block_hash h).
  { intros w Hw Ew. destruct (Hm w Hw) as [_ Hb]. rewrite Hb in Hv by congruence.
    simpl in Hv. by apply bool_decide_eq_true in Hv. }
  split.
  - intros w [Hw| ->%list_elem_of_singleton]%elem_of_app; simpl; [|done].
    destruct (Hm w Hw) as [Hle Hb]. split; [lia|]. intros Ew. rewrite Hs, (Hold w); [done|done|].
    congruence.
  - intros w w' [Hw| ->%list_elem_of_singleton]%elem_of_app
      [Hw'| ->%list_elem_of_singleton]%elem_of_app Ew; simpl in *; auto.
    symmetry. by apply Hold.
Qed.

Lemma receive_proposal_remembers cast h now e :
  remembers cast e -> one_per_round cast ->
  let '(e', r) := receive_proposal h now e in
  let cast' := cast ++ match r with Ok (Some v) => [v] | _ => [] end in
  remembers cast' e' /\ one_per_round cast'.
Proof.
  intros Hm Ho. unfold receive_proposal.
  repeat (case_bool_decide; [by rewrite app_nil_r|]).
  pose proof (catch_up_remembers cast (be_current_height e) (bh_round h) now e Hm) as Hm'.
  set (e1 := catch_up _ _ _ e) in *.
  destruct (header_verify h) as [[]|]; [|by rewrite app_nil_r..].
  case_bool_decide; [by rewrite app_nil_r|].
  destruct (is_safe_to_vote _ _); simpl; [|by rewrite app_nil_r].
  destruct (map_or_true _ _) eqn:Ev; simpl; [|by rewrite app_nil_r].
  apply (vote_remembers cast (set_be_fork_choice (add_block h (be_fork_choice e1)) e1)
           (advance_phase PhVote now (set_rs_voted_for (Some (block_hash h))
              (set_rs_proposed_block (Some h) (be_current_round e1)))) h); done.
Qed.

Lemma receive_vote_round v now e :
  (receive_vote v now e).1.(be_current_round).(rs_round) = e.(be_current_round).(rs_round) /\
  (receive_vote v now e).1.(be_current_round).(rs_voted_for) = e.(be_current_round).(rs_voted_for).
Proof. unfold receive_vote. repeat case_match; done. Qed.

Lemma receive_view_change_round m now e :
  let e' := (receive_view_change m now e).1 in
  (e'.(be_current_round).(rs_round) = e.(be_current_round).(rs_round) /\
   e'.(be_current_round).(rs_voted_for) = e.(be_current_round).(rs_voted_for)) \/
  e.(be_current_round).(rs_round) < e'.(be_current_round).(rs_round).
Proof.
  unfold receive_view_change. case_bool_decide; [by left|]. case_bool_decide; [by left|]. simpl.
  destruct (add_view_change _ _ _) as [[fc [best|]]|]; [|by left..]. right.
  destruct best; simpl; lia.
Qed.

Lemma bft_step_remembers cast now ev e :
  remembers cast e -> one_per_round cast ->
  let '(e', vs) := bft_step now ev e in
  remembers (cast ++ vs) e' /\ one_per_round (cast ++ vs).
Proof.
  intros Hm Ho. destruct ev as [roots|h|v| |m]; simpl.
  - rewrite app_nil_r. split; [|done]. by eapply remembers_same.
  - pose proof (receive_proposal_remembers cast h now e Hm Ho) as Hp.
    by destruct (receive_proposal h now e).
  - rewrite app_nil_r. split; [|done]. destruct (receive_vote_round v now e).
    by eapply remembers_same.
  - rewrite app_nil_r. split; [|done]. by eapply remembers_same.
  - rewrite app_nil_r. split; [|done].
    destruct (receive_view_change_round m now e) as [[]|]; [by eapply remembers_same|by eapply remembers_later].
Qed.

Lemma bft_run_remembers cast evs e :
  remembers cast e -> one_per_round cast -> one_per_round (cast ++ (bft_run evs e).2).
Proof.
  revert cast e; induction evs as [|[now ev] evs IH]; intros cast e Hm Ho; simpl.
  { by rewrite app_nil_r. }
  pose proof (bft_step_remembers cast now ev e Hm Ho) as Hs.
  destruct (bft_step now ev e) as [e1 vs]. destruct Hs as [Hm1 Ho1].
  specialize (IH (cast ++ vs) e1 Hm1 Ho1). destruct (bft_run evs e1) as [e2 vs'].
  simpl in *. by rewrite app_assoc.
Qed.

(** ** View changes *)

(** The messages kept for a height and round: verified, for it, one per sender. *)
Definition view_changes_ok (f : ForkChoiceStore) : Prop :=
  forall h r msgs, f.(fc_view_changes) !! (h, r) = Some msgs ->
    NoDup (vc_sender <$> msgs) /\
    forall m, m ∈ msgs -> m.(vc_height) = h /\ m.(vc_new_round) = r /\ view_change_verify m = Ok true.

Lemma add_qc_view_changes qc f : (add_qc qc f).(fc_view_changes) = f.(fc_view_changes).
Proof. unfold add_qc. by destruct (map_or_true _ _). Qed.

(** What [add_view_change] leaves under the message's key. *)
Lemma add_view_change_Ok m q f f' res :
  view_changes_ok f -> add_view_change m q f = Ok (f', res) ->
  view_changes_ok f' /\
  (is_Some res -> exists msgs, f'.(fc_view_changes) !! (m.(vc_height), m.(vc_new_round)) = Some msgs /\
     (q <= length msgs)%nat).
Proof.
  intros Hf. unfold add_view_change.
  destruct (view_change_verify m) as [[]|] eqn:Hv; cbn [result_bind negb]; try done.
  set (k := (vc_height m, vc_new_round m)). set (msgs := default [] _).
  assert (Hmsgs : NoDup (vc_sender <$> msgs) /\ forall m', m' ∈ msgs ->
    m'.(vc_height) = m.(vc_height) /\ m'.(vc_new_round) = m.(vc_new_round) /\
    view_change_verify m' = Ok true).
  { unfold msgs. destruct (fc_view_changes f !! k) as [ms|] eqn:E; simpl; [by apply Hf|].
    split; [constructor|set_solver]. }
  assert (Hput : forall f0 l, view_changes_ok f0 -> NoDup (vc_sender <$> l) ->
    (forall m', m' ∈ l -> m'.(vc_height) = m.(vc_height) /\ m'.(vc_new_round) = m.(vc_new_round) /\
       view_change_verify m' = Ok true) ->
    view_changes_ok (set_fc_view_changes (<[k := l]> f0.(fc_view_changes)) f0)).
  { intros f0 l Hf0 Hl1 Hl2 h r ms. simpl. rewrite lookup_insert. case_decide as E; [|apply Hf0].
    injection E as <- <-. by intros [= <-]. }
  destruct Hmsgs as [Hn Hall]. set (f1 := set_fc_view_changes _ f).
  assert (Hf1 : view_changes_ok f1) by by apply Hput.
  destruct (existsb _ msgs) eqn:Ex.
  { intros [= <- <-]. split; [done|]. by intros []. }
  assert (Hnew : NoDup (vc_sender <$> (msgs ++ [m]))).
  { rewrite fmap_app. apply NoDup_app. split_and!; [done| |by apply NoDup_singleton].
    intros a Ha ->%list_elem_of_singleton. apply list_elem_of_fmap in Ha as (m' & Em & Hm').
    assert (existsb (fun m0 => bool_decide (vc_sender m0 = vc_sender m)) msgs = true); [|congruence].
    apply existsb_exists. exists m'. split; [by apply list_elem_of_In|]. by apply bool_decide_eq_true. }
  set (f2 := set_fc_view_changes _ f1).
  assert (Hf2 : view_changes_ok f2).
  { apply Hput; [done|done|]. intros m' [Hm'| ->%list_elem_of_singleton]%elem_of_app; auto. }
  case_bool_decide as Hq; intros [= <- <-]; [|split; [done|by intros []]].
  assert (Hsame : forall f0, f0.(fc_view_changes) = f2.(fc_view_changes) ->
    view_changes_ok f0 /\ (is_Some (Some (max_qc (omap vc_high_qc (msgs ++ [m])))) ->
      exists ms, f0.(fc_view_changes) !! k = Some ms /\ (q <= length ms)%nat)).
  { intros f0 E. split; [intros h r ms; rewrite E; apply Hf2|]. intros _. rewrite E.
    exists (msgs ++ [m]). split; [apply lookup_insert_eq|done]. }
  destruct (max_qc _); apply Hsame; [by rewrite add_qc_view_changes|done].
Qed.

(** The senders behind a view change. *)
Definition asked (height round : Z) (A : gset Address) : Prop :=
  forall a, a ∈ A -> exists m, m.(vc_sender) = a /\ m.(vc_height) = height /\
    m.(vc_new_round) = round /\ view_change_verify m = Ok true.

Lemma receive_view_change_Some m now e e' r :
  view_changes_ok e.(be_fork_choice) -> receive_view_change m now e = (e', Ok (Some r)) ->
  r = m.(vc_new_round) /\ e.(be_current_round).(rs_round) < r /\
  e'.(be_current_round).(rs_round) = r /\
  exists A, (quorum_size e <= size A)%nat /\
    asked e.(be_current_round).(rs_height) r A.
Proof.
  intros Hf. unfold receive_view_change.
  case_bool_decide as Hh; [done|]. case_bool_decide as Hr; [done|]. cbn [orb].
  destruct (add_view_change m _ _) as [[fc [best|]]|] eqn:E; [|done..].
  intros Hres. injection Hres as He <-. apply add_view_change_Ok in E as [Hok Hq]; [|done].
  destruct Hq as (msgs & Hm & Hlen); [done|]. apply Hok in Hm as [Hn Hall].
  split_and!; [done|lia|by subst e'; destruct best|].
  exists (list_to_set (vc_sender <$> msgs)). split.
  - by rewrite size_list_to_set, length_fmap.
  - intros a Ha. apply elem_of_list_to_set, list_elem_of_fmap in Ha as (m' & -> & Hin).
    apply Hall in Hin as (? & ? & ?). exists m'. split_and!; congruence.
Qed.

End Fork.
