(* ===== verification/BftTheorems.v ===== *)
(** * The theorems about the BFT engine

    Quorums, the proposer schedule, certificates, the voting rule and the fork
    choice, each with a concrete committee, and the places where the engine
    does less than its comments say. *)
From S2P Require Import Prelude Crypto Blocks ForkChoice Bft BftFacts BftRules.
Local Open Scope Z_scope.
Local Open Scope ego_scope.

(** ** Quorums *)

(** Two weighted quorums overlap in more than a third of the total weight, so
    whatever set of validators holds at most a third, both quorums contain a
    validator outside it. *)
Theorem weighted_quorums_overlap e A B :
  weights_ok e -> e.(be_weights) <> [] -> NoDup e.(be_validator_set) ->
  zsum e.(be_weights) <= u64_max ->
  is_quorum A e = true -> is_quorum B e = true ->
  zsum e.(be_weights) < 3 * weight_where e (fun a => a ∈ A /\ a ∈ B).
Proof.
  intros Hw Hn Hd Hs HA HB.
  apply (is_quorum_weighted e Hw Hn Hd) in HA as [_ HA], HB as [_ HB]; [|done|done].
  pose proof (weight_where_le e Hw Hn Hd (fun a => a ∈ A) (fun a => a ∈ B)) as Hle.
  cbv beta in Hle. lia.
Qed.

(** With one vote each, the integer test [3 * got > 2 * total] is exactly the
    count [quorum_size] of distinct voters, for every committee size. *)
Theorem is_quorum_counts e voters :
  weights_ok e -> e.(be_weights) = [] -> e.(be_validator_set) <> [] ->
  Z.of_nat (length (fresh_voters voters [])) <= u64_max ->
  is_quorum voters e = bool_decide (quorum_size e <= length (fresh_voters voters []))%nat.
Proof. intros Hw. by apply is_quorum_equal_votes. Qed.

(** Every validator leads in proportion to its weight: in any [total]
    consecutive heights, at any round, the validator of weight [w] is the
    proposer exactly [w] times. *)
Theorem proposer_fair_share e height round i a w :
  weights_ok e -> length e.(be_weights) = length e.(be_validator_set) ->
  NoDup e.(be_validator_set) -> 0 < zsum e.(be_weights) <= u64_max ->
  0 <= height -> 0 <= round -> height + round + zsum e.(be_weights) <= u64_max ->
  e.(be_validator_set) !! i = Some a -> e.(be_weights) !! i = Some w ->
  length (filter (fun h => proposer_at h round e = Some a) (seqZ height (zsum e.(be_weights))))
    = Z.to_nat w.
Proof. intros Hw Hl Hd HT. by apply proposer_share. Qed.

(** ** Certificates *)

Section Certificates.
Context `{CryptoPrims}.

(** C12: Conflicting certificates are attributable: if two different blocks have
    verified certificates for the same height, epoch and round, more than a
    third of the validators signed votes for both. *)
Theorem conflicting_certificates_accountable qc votes qc' votes' vs :
  NoDup vs -> qc_verify qc votes vs = Ok true -> qc_verify qc' votes' vs = Ok true ->
  qc.(qc_block_hash) <> qc'.(qc_block_hash) ->
  qc.(qc_height) = qc'.(qc_height) -> qc.(qc_epoch) = qc'.(qc_epoch) ->
  qc.(qc_round) = qc'.(qc_round) ->
  exists D : gset Address, D ⊆ list_to_set vs /\ (length vs < 3 * size D)%nat /\
    forall a, a ∈ D -> exists v v', v.(vt_block_hash) <> v'.(vt_block_hash) /\
      backs v.(vt_block_hash) qc.(qc_height) qc.(qc_epoch) qc.(qc_round) a v /\
      backs v'.(vt_block_hash) qc.(qc_height) qc.(qc_epoch) qc.(qc_round) a v'.
Proof.
  intros Hd H1 H2 Hne Eh Ee Er.
  apply qc_verify_quorum in H1 as (A & HA & HqA & HbA), H2 as (B & HB & HqB & HbB).
  exists (A ∩ B). split_and!; [set_solver| |].
  - apply (two_thirds_overlap _ (list_to_set vs)); try done. by rewrite size_list_to_set.
  - intros a [Ha Hb]%elem_of_intersection.
    destruct (HbA a Ha) as (v & _ & Hv), (HbB a Hb) as (v' & _ & Hv').
    exists v, v'. rewrite <-Eh, <-Ee, <-Er in Hv'.
    destruct Hv as (E1 & Hv), Hv' as (E2 & Hv'). split; [congruence|]. by split; split.
Qed.

(** The Merkle root of a certificate commits to the signatures: two different
    lists of the same length with the same root exhibit a collision of the hash. *)
Theorem merkle_root_binds l l' :
  length l = length l' -> merkle_root l = merkle_root l' -> l = l' \/ pair_collision.
Proof. apply merkle_root_binding_or. Qed.

(** The root does not commit to the number of leaves: repeating an odd last leaf
    leaves it unchanged. *)
Lemma merkle_root_repeats_last l x :
  l <> [] -> Nat.even (length l) = true -> merkle_root (l ++ [x]) = merkle_root (l ++ [x; x]).
Proof. apply merkle_root_dup. Qed.

Context `{HashOrder}.

(** ** Voting *)

(** One vote per round: whatever a node receives while it is at one height, in
    any order, the votes it casts in one round are all for the same block. *)
Theorem bft_one_vote_per_round evs e v v' :
  v ∈ (bft_run evs e).2 -> v' ∈ (bft_run evs e).2 -> v.(vt_round) = v'.(vt_round) ->
  v.(vt_block_hash) = v'.(vt_block_hash).
Proof.
  assert (Hm : remembers [] e) by (intros x Hx; by apply not_elem_of_nil in Hx).
  assert (Ho : one_per_round []) by (intros x y Hx; by apply not_elem_of_nil in Hx).
  apply (bft_run_remembers [] evs e Hm Ho).
Qed.

(** The safety rule, exactly: a node may vote for a block when it has no lock,
    when the block is of a later epoch than the lock, or when it is of the lock's
    epoch and the locked block is the block itself or reached from it by the
    parent link and at most 63 more links of known blocks. *)
Theorem safe_to_vote_iff block f :
  is_safe_to_vote block f = true <->
  f.(fc_locked_qc) = None \/
  exists locked, f.(fc_locked_qc) = Some locked /\
    (locked.(qc_epoch) < block.(bh_epoch) \/
     (block.(bh_epoch) = locked.(qc_epoch) /\
      (block_hash block = locked.(qc_block_hash) \/
       exists n, (n < 64)%nat /\ descends f n block.(bh_prev_hash) locked.(qc_block_hash)))).
Proof.
  unfold is_safe_to_vote, extends_locked. destruct (fc_locked_qc f) as [locked|]; [|naive_solver].
  pose proof (extends_walk_spec 64 block.(bh_prev_hash) locked.(qc_block_hash) f) as Hw.
  repeat case_bool_decide; naive_solver lia.
Qed.

(** A node changes its round only behind a quorum of distinct senders, whose
    signed messages ask for exactly this height and round, and only forward. *)
Theorem view_change_needs_quorum m now e e' r :
  view_changes_ok e.(be_fork_choice) -> receive_view_change m now e = (e', Ok (Some r)) ->
  r = m.(vc_new_round) /\ e.(be_current_round).(rs_round) < r /\
  e'.(be_current_round).(rs_round) = r /\
  exists A, (quorum_size e <= size A)%nat /\ asked e.(be_current_round).(rs_height) r A.
Proof. apply receive_view_change_Some. Qed.

(** ** Where the engine does less than it says *)

(** A proposal with a bad signature still moves the node to the round it claims. *)
Lemma forged_proposal_moves_round h now e :
  h.(bh_height) = e.(be_current_height) -> e.(be_current_round).(rs_height) = e.(be_current_height) ->
  e.(be_current_round).(rs_round) < h.(bh_round) ->
  proposer_at e.(be_current_height) h.(bh_round) e = Some h.(bh_proposer) ->
  header_verify h = Ok false ->
  (receive_proposal h now e).1.(be_current_round).(rs_round) = h.(bh_round).
Proof.
  intros Hh Hs Hr Hp Hv. unfold receive_proposal. rewrite Hh, Hp, Hv.
  rewrite (bool_decide_false (_ <> _)), (bool_decide_false (_ < _)), (bool_decide_false (_ <> _))
    by (lia || by intros []).
  cbn [fst]. unfold catch_up. by rewrite (bool_decide_true (_ < _)), (bool_decide_true (_ = _)).
Qed.

(** A ballot cast in an earlier round keeps the node from voting for another block
    in a later round that it reached by a proposal. *)
Lemma stale_ballot_blocks h now e prev v :
  e.(be_current_round).(rs_voted_for) = Some prev -> prev <> block_hash h ->
  (receive_proposal h now e).2 <> Ok (Some v).
Proof.
  intros Hb Hne. unfold receive_proposal. repeat (case_bool_decide; [done|]).
  set (e1 := catch_up _ _ _ e).
  assert (Hb1 : e1.(be_current_round).(rs_voted_for) = Some prev).
  { unfold e1, catch_up. by destruct (_ && _). }
  destruct (header_verify h) as [[]|]; [|done..]. case_bool_decide; [done|].
  destruct (is_safe_to_vote _ _); simpl; [|done]. rewrite Hb1. simpl.
  by rewrite bool_decide_false.
Qed.

(** Without weights, voters that are not validators count like validators. *)
Lemma outsiders_reach_quorum e voters :
  weights_ok e -> e.(be_weights) = [] -> e.(be_validator_set) <> [] ->
  (forall a, a ∈ voters -> a ∉ e.(be_validator_set)) ->
  NoDup voters -> (quorum_size e <= length voters)%nat -> Z.of_nat (length voters) <= u64_max ->
  is_quorum voters e = true.
Proof.
  intros Hw He Hv _ Hn Hq Hl.
  assert (E : fresh_voters voters [] ≡ₚ voters).
  { apply NoDup_Permutation; [apply NoDup_fresh_voters|done|].
    intros a. rewrite elem_of_fresh_voters. set_solver. }
  pose proof (Permutation_length E) as El.
  rewrite is_quorum_equal_votes by (done || lia). apply bool_decide_eq_true. lia.
Qed.

End Certificates.

(** The fork choice is deterministic: whatever order the hash maps are
    iterated in, two nodes with the same blocks and certificates resolve a fork
    to the same block. *)
Theorem resolve_fork_deterministic (o1 o2 : HashOrder) height f :
  @resolve_fork o1 height f = @resolve_fork o2 height f.
Proof. apply resolve_fork_order. Qed.

(** ** A committee to evaluate

    Four validators and a stand-in for the cryptography: a hash that keeps the
    last bytes, and signatures that repeat the secret key. *)
Module Committee.

Definition crypto : CryptoPrims :=
  {| blake2s d := take 32 (rev d ++ repeat 0 32);
     blake3 d := take 32 (rev d ++ repeat 0 32);
     ed25519_verify pk _ sig := Ok (bool_decide (sig = pk ++ pk));
     ml_dsa_verify _ _ _ := false;
     slh_dsa_verify _ _ _ := Ok false;
     ed25519_sign sk _ := sk ++ sk;
     ml_dsa_sign _ _ := [] |}.

#[local] Existing Instance crypto.
#[local] Existing Instance list_order.

Definition kp (i : Z) : KeyPair := MkKeyPair (repeat i 32) (repeat i 32) [] [].
Definition addr (i : Z) : Address := scheme_address SchemeEd25519 (kp i).
Definition validators : list Address := addr <$> [1; 2; 3; 4].
Definition engine : BftEngine := with_scheme (kp 1) validators SchemeEd25519 0.
Definition weighted : BftEngine := set_weights [1; 2; 3; 4] engine.

Lemma engine_weights_ok : weights_ok engine.
Proof. constructor; [constructor|done|vm_compute; discriminate]. Qed.

Lemma weighted_weights_ok : weights_ok weighted.
Proof.
  constructor; [|by intros _|vm_compute; discriminate].
  apply (bool_decide_eq_true_1 _). vm_compute. reflexivity.
Qed.

Lemma validators_NoDup : NoDup validators.
Proof. apply (bool_decide_eq_true_1 _). vm_compute. reflexivity. Qed.

(** Votes of three validators each for two blocks. *)
Definition block_x : Hash := repeat 7 32.
Definition block_y : Hash := repeat 8 32.
Definition votes_for (block : Hash) (l : list Z) : list Vote :=
  (fun i => vote_new block 0 0 0 (kp i) SchemeEd25519 0) <$> l.
Definition qc_x : QuorumCertificate := qc_new block_x 0 0 0 (votes_for block_x [1; 2; 3]) 0.
Definition qc_y : QuorumCertificate := qc_new block_y 0 0 0 (votes_for block_y [2; 3; 4]) 0.

(** The proposal of round 0, by validator 1, and a forged one of round 1. *)
Definition proposal : BlockHeader :=
  header_sign (kp 1) SchemeEd25519
    (header_new 0 0 0 ZERO_HASH (addr 1) roots_empty ZERO_HASH [] 5).
Definition forged : BlockHeader :=
  set_bh_round 1 (header_new 0 0 0 ZERO_HASH (addr 2) roots_empty ZERO_HASH [] 6).

Definition events : list (Timestamp * BftEvent) :=
  [(10, BProposal proposal); (20, BProposal proposal); (30, BProposal forged)].

(** View-change messages for round 1 of height 0. *)
Definition ask (i : Z) : ViewChangeMsg := view_change_new 1 0 0 None (kp i) SchemeEd25519 0.
Definition store_after (m : ViewChangeMsg) (f : ForkChoiceStore) : ForkChoiceStore :=
  match add_view_change m 3 f with Ok (f', _) => f' | Err _ => f end.
Definition waiting : ForkChoiceStore := store_after (ask 2) (store_after (ask 1) store_new).
Definition waiting_engine : BftEngine := set_be_fork_choice waiting engine.

Lemma store_after_ok m f : view_changes_ok f -> view_changes_ok (store_after m f).
Proof.
  intros Hf. unfold store_after. destruct (add_view_change m 3 f) as [[f' r]|] eqn:E; [|done].
  by eapply add_view_change_Ok.
Qed.

Lemma waiting_ok : view_changes_ok waiting.
Proof.
  apply store_after_ok, store_after_ok. intros h r msgs. simpl. by rewrite lookup_empty.
Qed.

(** Three strangers ask for a new round and the node obliges. *)
Example strangers_change_the_round :
  let e := set_be_fork_choice (store_after (ask 8) (store_after (ask 9) store_new)) engine in
  (receive_view_change (ask 7) 0 e).2 = Ok (Some 1).
Proof. vm_compute. reflexivity. Qed.

(** Three strangers vote for the proposal and the node forms a certificate. *)
Definition stranger_votes : list (Timestamp * BftEvent) :=
  (10, BProposal proposal) ::
  ((fun i => (20, BVote (vote_new (block_hash proposal) 0 0 0 (kp i) SchemeEd25519 0))) <$> [7; 8; 9]).

Example strangers_form_a_certificate :
  exists qc, (bft_run stranger_votes engine).1.(be_current_round).(rs_qc) = Some qc /\
    qc.(qc_block_hash) = block_hash proposal.
Proof. eexists. split; [vm_compute; reflexivity|]. vm_compute. reflexivity. Qed.

Example forged_round : (receive_proposal forged 20 engine).1.(be_current_round).(rs_round) = 1.
Proof. vm_compute. reflexivity. Qed.

End Committee.

(** ** Witnesses *)

#[local] Existing Instance Committee.crypto.
#[local] Existing Instance list_order.

Lemma weighted_quorums_overlap_witness :
  zsum Committee.weighted.(be_weights) < 3 * weight_where Committee.weighted
    (fun a => a ∈ Committee.addr <$> [3; 4] /\ a ∈ Committee.addr <$> [2; 3; 4]).
Proof.
  apply (weighted_quorums_overlap Committee.weighted).
  - exact Committee.weighted_weights_ok.
  - vm_compute. discriminate.
  - exact Committee.validators_NoDup.
  - vm_compute. discriminate.
  - vm_compute. reflexivity.
  - vm_compute. reflexivity.
Defined.

Lemma is_quorum_counts_witness :
  let voters := Committee.addr <$> [1; 2; 3; 1] in
  is_quorum voters Committee.engine =
    bool_decide (quorum_size Committee.engine <= length (fresh_voters voters []))%nat.
Proof.
  apply is_quorum_counts.
  - exact Committee.engine_weights_ok.
  - reflexivity.
  - vm_compute. discriminate.
  - vm_compute. discriminate.
Defined.

Lemma proposer_fair_share_witness :
  length (filter (fun h => proposer_at h 2 Committee.weighted = Some (Committee.addr 3))
            (seqZ 5 (zsum Committee.weighted.(be_weights)))) = 3%nat.
Proof.
  apply (proposer_fair_share Committee.weighted 5 2 2 (Committee.addr 3) 3).
  - exact Committee.weighted_weights_ok.
  - reflexivity.
  - exact Committee.validators_NoDup.
  - vm_compute. split; [reflexivity|discriminate].
  - lia.
  - lia.
  - vm_compute. discriminate.
  - reflexivity.
  - reflexivity.
Defined.

Lemma conflicting_certificates_accountable_witness :
  exists D : gset Address, D ⊆ list_to_set Committee.validators /\
    (length Committee.validators < 3 * size D)%nat /\
    forall a, a ∈ D -> exists v v', v.(vt_block_hash) <> v'.(vt_block_hash) /\
      backs v.(vt_block_hash) 0 0 0 a v /\ backs v'.(vt_block_hash) 0 0 0 a v'.
Proof.
  apply (conflicting_certificates_accountable Committee.qc_x
           (Committee.votes_for Committee.block_x [1; 2; 3]) Committee.qc_y
           (Committee.votes_for Committee.block_y [2; 3; 4])).
  - exact Committee.validators_NoDup.
  - vm_compute. reflexivity.
  - vm_compute. reflexivity.
  - vm_compute. discriminate.
  - reflexivity.
  - reflexivity.
  - reflexivity.
Defined.

Lemma merkle_root_binds_witness :
  let l := sig_hashes (Committee.votes_for Committee.block_x [1; 2; 3]) in
  l = sig_hashes (Committee.votes_for Committee.block_y [1; 2; 3]) \/ pair_collision.
Proof. apply merkle_root_binds; vm_compute; reflexivity. Defined.

Lemma bft_one_vote_per_round_witness :
  exists v v', (bft_run Committee.events Committee.engine).2 = [v; v'] /\
    v.(vt_timestamp) <> v'.(vt_timestamp) /\ v.(vt_block_hash) = v'.(vt_block_hash).
Proof.
  assert (Hr : exists v v', (bft_run Committee.events Committee.engine).2 = [v; v'] /\
    v.(vt_timestamp) <> v'.(vt_timestamp) /\ v.(vt_round) = v'.(vt_round)).
  { eexists _, _. split; [vm_compute; reflexivity|]. vm_compute. split; [discriminate|reflexivity]. }
  destruct Hr as (v & v' & Hr & Ht & Hround). exists v, v'. split; [exact Hr|]. split; [exact Ht|].
  apply (bft_one_vote_per_round Committee.events Committee.engine); [| |exact Hround];
    rewrite Hr; set_solver.
Defined.

Lemma view_change_needs_quorum_witness :
  let e := Committee.waiting_engine in
  exists A, (quorum_size e <= size A)%nat /\ asked e.(be_current_round).(rs_height) 1 A.
Proof.
  destruct (view_change_needs_quorum (Committee.ask 3) 0 Committee.waiting_engine
    (receive_view_change (Committee.ask 3) 0 Committee.waiting_engine).1 1) as (_ & _ & _ & HA).
  - exact Committee.waiting_ok.
  - vm_compute. reflexivity.
  - exact HA.
Defined.
