(* ===== verification/SparseMerkle.v ===== *)
(** * The sparse Merkle trie

    Model of [crates/ego-core/src/sparse_merkle.rs]: the trie over 256-bit keys,
    its root, and the proofs of inclusion and exclusion, with the two theorems
    that make the proofs meaningful. *)
From S2P Require Import Prelude Crypto.
Local Open Scope Z_scope.

Definition TAG_EMPTY : bytes := ascii_bytes "ego/smt/empty/v1".
Definition TAG_NODE : bytes := ascii_bytes "ego/smt/node/v1".
Definition TAG_LEAF : bytes := ascii_bytes "ego/smt/leaf/v1".

(** [leaves : HashMap<[u8; 32], Vec<u8>>]. *)
Record SparseMerkleTrie : Type := MkTrie {
  leaves : gmap Hash bytes;
}.

Record SmtProof : Type := MkProof {
  pf_key : Hash;
  pf_value : option bytes;
  siblings : list Hash;
}.

Definition DEPTH : nat := 256.

(** Conversion should not walk down 256 levels of a tree it can compare as it is. *)
#[global] Strategy 1000 [DEPTH].

(** Bit [depth] of a key, most significant first. *)
Definition bit_at (key : Hash) (depth : nat) : Z :=
  Z.land (Z.shiftr (default 0 (key !! (depth / 8)%nat)) (7 - Z.of_nat (depth mod 8))) 1.

Definition trie_new : SparseMerkleTrie := MkTrie ∅.

Definition trie_get (key : Hash) (t : SparseMerkleTrie) : option bytes := t.(leaves) !! key.

Definition trie_insert (key : Hash) (value : bytes) (t : SparseMerkleTrie) : SparseMerkleTrie :=
  MkTrie (<[key := value]> t.(leaves)).

Definition trie_delete (key : Hash) (t : SparseMerkleTrie) : SparseMerkleTrie :=
  MkTrie (delete key t.(leaves)).

Section Trie.
Context `{CryptoPrims} `{HashOrder}.

Definition empty_leaf_hash : Hash := hash_data TAG_EMPTY.
Definition node_hash (left right : Hash) : Hash := hash_multiple [TAG_NODE; left; right].
Definition leaf_hash (key : Hash) (value : bytes) : Hash := hash_multiple [TAG_LEAF; key; value].

(** [empty_tower()[i]]. *)
Fixpoint empty_tower (i : nat) : Hash :=
  match i with
  | O => empty_leaf_hash
  | S i => let h := empty_tower i in node_hash h h
  end.

(** The two halves of a set of leaves at a depth. *)
Definition on_side (depth : nat) (bit : Z) (m : gmap Hash bytes) : gmap Hash bytes :=
  filter (fun e => bit_at e.1 depth = bit) m.
Definition off_side (depth : nat) (bit : Z) (m : gmap Hash bytes) : gmap Hash bytes :=
  filter (fun e => bit_at e.1 depth <> bit) m.

(** [subtree_hash] at depth [256 - rem]. *)
Fixpoint subtree_hash (rem : nat) (m : gmap Hash bytes) : Hash :=
  if bool_decide (m = ∅) then empty_tower rem
  else
    match rem with
    | O => match head (hash_iter m) with
           | Some (key, value) => leaf_hash key value
           | None => ZERO_HASH
           end
    | S rem' =>
        let depth := (DEPTH - rem)%nat in
        let left := on_side depth 0 m in
        let right := off_side depth 0 m in
        node_hash (subtree_hash rem' left) (subtree_hash rem' right)
    end.

Definition trie_root (t : SparseMerkleTrie) : Hash := subtree_hash DEPTH t.(leaves).

(** The loop of [collect_siblings], with [rem] levels left. *)
Fixpoint collect_from (rem : nat) (key : Hash) (current : gmap Hash bytes) : list Hash :=
  match rem with
  | O => []
  | S rem' =>
      let depth := (DEPTH - rem)%nat in
      let bit := bit_at key depth in
      let same_side := on_side depth bit current in
      let other_side := off_side depth bit current in
      subtree_hash rem' other_side :: collect_from rem' key same_side
  end.

Definition collect_siblings (m : gmap Hash bytes) (key : Hash) : list Hash :=
  collect_from DEPTH key m.

Definition generate_proof (key : Hash) (t : SparseMerkleTrie) : SmtProof :=
  {| pf_key := key; pf_value := t.(leaves) !! key; siblings := collect_siblings t.(leaves) key |}.

(** The loop of [verify], from the leaf up to depth [depth]; [sibs] are the
    siblings from that depth down. *)
Fixpoint climb (depth : nat) (key : Hash) (sibs : list Hash) (current : Hash) : Hash :=
  match sibs with
  | [] => current
  | sibling :: sibs =>
      let below := climb (S depth) key sibs current in
      if bool_decide (bit_at key depth = 0) then node_hash below sibling else node_hash sibling below
  end.

Definition proof_verify (root key : Hash) (value : option bytes) (p : SmtProof) : bool :=
  if bool_decide (p.(pf_key) <> key) || bool_decide (p.(pf_value) <> value) ||
     bool_decide (length p.(siblings) <> DEPTH)
  then false
  else
    let current := match value with
                   | Some v => leaf_hash key v
                   | None => empty_leaf_hash
                   end in
    bool_decide (climb 0 key p.(siblings) current = root).

End Trie.

(** ** Keys and bits *)

(** A 32-byte key. *)
Definition key_ok (k : Hash) : Prop := length k = 32%nat /\ Forall in_u8 k.

#[export] Instance key_ok_dec k : Decision (key_ok k).
Proof. unfold key_ok. apply _. Defined.

Lemma bit_at_testbit k d :
  bit_at k d = Z.b2z (Z.testbit (default 0 (k !! (d / 8)%nat)) (7 - Z.of_nat (d mod 8))).
Proof.
  unfold bit_at. rewrite (Z.land_ones _ 1) by lia. change (2 ^ 1) with 2.
  rewrite <-Z.bit0_mod, Z.shiftr_spec by lia. done.
Qed.

Lemma bit_at_01 k d : bit_at k d = 0 \/ bit_at k d = 1.
Proof. rewrite bit_at_testbit. destruct (Z.testbit _ _); auto. Qed.

Lemma key_ext k k' :
  key_ok k -> key_ok k' -> (forall d, (d < DEPTH)%nat -> bit_at k d = bit_at k' d) -> k = k'.
Proof.
  intros [Hl Hb] [Hl' Hb'] Hd. apply list_eq_same_length with 32%nat; [done|done|].
  intros i x y Hi Hx Hy.
  assert (Hu : in_u8 x /\ in_u8 y) by (split; [by apply (Forall_lookup_1 _ _ _ _ Hb Hx)|by apply (Forall_lookup_1 _ _ _ _ Hb' Hy)]).
  apply Z.bits_inj'. intros n Hn. destruct (decide (n < 8)) as [Hn8|Hn8].
  - specialize (Hd (8 * i + Z.to_nat (7 - n))%nat). rewrite !bit_at_testbit in Hd.
    assert (E1 : ((8 * i + Z.to_nat (7 - n)) / 8 = i)%nat).
    { rewrite Nat.mul_comm, Nat.div_add_l by lia. rewrite Nat.div_small by lia. lia. }
    assert (E2 : ((8 * i + Z.to_nat (7 - n)) mod 8 = Z.to_nat (7 - n))%nat).
    { rewrite Nat.add_comm, Nat.mul_comm, Nat.Div0.mod_add, Nat.mod_small by lia. done. }
    rewrite E1, E2, Hx, Hy in Hd. simpl in Hd. rewrite Z2Nat.id in Hd by lia.
    replace (7 - (7 - n)) with n in Hd by lia.
    assert (Hlt : (8 * i + Z.to_nat (7 - n) < DEPTH)%nat) by (unfold DEPTH; lia).
    specialize (Hd Hlt). by destruct (Z.testbit x n), (Z.testbit y n).
  - assert (Hhigh : forall z, in_u8 z -> Z.testbit z n = false).
    { intros z Hz. apply Z.bits_above_log2; [machine_lia|].
      destruct (decide (z = 0)) as [->|]; [simpl; lia|].
      assert (Z.log2 z < 8); [|lia]. apply Z.log2_lt_pow2; machine_lia. }
    rewrite !Hhigh by apply Hu. done.
Qed.

(** ** The two sides of a level *)

Section Facts.
Context `{CryptoPrims} `{HashOrder}.

Lemma off_side_flip d m : off_side d 0 m = on_side d 1 m /\ off_side d 1 m = on_side d 0 m.
Proof.
  split; apply map_filter_ext; intros k v _; simpl; pose proof (bit_at_01 k d); lia.
Qed.

Lemma side_empty d b : on_side d b ∅ = ∅ /\ off_side d b ∅ = ∅.
Proof. split; apply map_filter_empty. Qed.

Lemma subtree_empty rem : subtree_hash rem ∅ = empty_tower rem.
Proof. by destruct rem; simpl; rewrite bool_decide_true. Qed.

(** Empty or not, a subtree is the node of its halves. *)
Lemma subtree_node rem m :
  subtree_hash (S rem) m =
    node_hash (subtree_hash rem (on_side (DEPTH - S rem) 0 m))
              (subtree_hash rem (off_side (DEPTH - S rem) 0 m)).
Proof.
  cbn [subtree_hash]. case_bool_decide as E; [|done]. subst.
  destruct (side_empty (DEPTH - S rem) 0) as [-> ->]. by rewrite subtree_empty.
Qed.

(** The same with the side of a key first. *)
Lemma subtree_key rem key m :
  let d := (DEPTH - S rem)%nat in
  let same := subtree_hash rem (on_side d (bit_at key d) m) in
  let other := subtree_hash rem (off_side d (bit_at key d) m) in
  subtree_hash (S rem) m =
    if bool_decide (bit_at key d = 0) then node_hash same other else node_hash other same.
Proof.
  cbv zeta. rewrite subtree_node. set (d := (DEPTH - S rem)%nat).
  destruct (off_side_flip d m) as [E0 E1]. case_bool_decide as Eb.
  - by rewrite Eb.
  - destruct (bit_at_01 key d) as [|Eb1]; [done|]. by rewrite Eb1, E1, E0.
Qed.

(** The keys below a node share their first [d] bits with [key]. *)
Definition below (d : nat) (key : Hash) (m : gmap Hash bytes) : Prop :=
  forall k v, m !! k = Some v -> key_ok k /\ forall d', (d' < d)%nat -> bit_at k d' = bit_at key d'.

Lemma below_side d key m :
  below d key m -> below (S d) key (on_side d (bit_at key d) m).
Proof.
  intros Hm k v Hk. apply map_lookup_filter_Some in Hk as [Hk Hb]. simpl in Hb.
  destruct (Hm k v Hk) as [Hok Hd]. split; [done|]. intros d' Hlt.
  destruct (decide (d' = d)) as [->|]; [done|]. apply Hd. lia.
Qed.

Lemma lookup_same_side d key m : on_side d (bit_at key d) m !! key = m !! key.
Proof.
  destruct (m !! key) as [v|] eqn:E.
  - by apply map_lookup_filter_Some.
  - apply map_lookup_filter_None. by left.
Qed.

(** The hash at the bottom of a path. *)
Definition bottom (key : Hash) (value : option bytes) : Hash :=
  match value with
  | Some v => leaf_hash key v
  | None => empty_leaf_hash
  end.

Lemma subtree_leaf key m :
  key_ok key -> below DEPTH key m -> subtree_hash 0 m = bottom key (m !! key).
Proof.
  intros Hkey Hm. cbn [subtree_hash]. case_bool_decide as E.
  { by rewrite E, lookup_empty. }
  destruct (hash_iter m) as [|[k v] l] eqn:Eh; simpl.
  { destruct E. apply map_to_list_empty_iff. apply Permutation_nil_r.
    rewrite <-(hash_iter_perm m). by rewrite Eh. }
  assert (Hk : m !! k = Some v) by (apply elem_of_hash_iter; rewrite Eh; set_solver).
  destruct (Hm k v Hk) as [Hok Hd].
  assert (k = key) as -> by (by apply key_ext). by rewrite Hk.
Qed.

(** ** Completeness *)

Lemma length_collect rem key m : length (collect_from rem key m) = rem.
Proof. revert m; induction rem as [|rem IH]; intros m; simpl; [done|]. by rewrite IH. Qed.

Lemma climb_collect d rem key m :
  (d + rem = DEPTH)%nat -> key_ok key -> below d key m ->
  climb d key (collect_from rem key m) (bottom key (m !! key)) = subtree_hash rem m.
Proof.
  revert d m; induction rem as [|rem IH]; intros d m Hd Hkey Hm.
  { cbn [collect_from climb]. symmetry. apply subtree_leaf; [done|]. by rewrite <-Hd, Nat.add_0_r. }
  cbn [collect_from climb]. rewrite subtree_key with (key := key). cbv zeta.
  replace (DEPTH - S rem)%nat with d by lia.
  by rewrite <-(lookup_same_side d key m), IH by (lia || done || by apply below_side).
Qed.

(** ** Soundness *)

(** Two different strings with the same digest. *)
Definition blake2s_collision : Prop := exists a b, a <> b /\ blake2s a = blake2s b.

(** The digest is 32 bytes long. *)
Context (digest_length : forall d, length (blake2s d) = 32%nat).

Lemma hash_multiple_digest l : hash_multiple l = blake2s (concat l).
Proof. unfold hash_multiple. apply take_ge. by rewrite digest_length. Qed.

Lemma hash_data_digest d : hash_data d = blake2s d.
Proof. unfold hash_data. apply take_ge. by rewrite digest_length. Qed.

Lemma hash_multiple_inj l l' :
  hash_multiple l = hash_multiple l' -> concat l = concat l' \/ blake2s_collision.
Proof.
  rewrite !hash_multiple_digest. intros E.
  destruct (decide (concat l = concat l')) as [|Hne]; [by left|]. right. by exists (concat l), (concat l').
Qed.

Lemma node_hash_inj a b c d :
  length a = length c -> node_hash a b = node_hash c d -> (a = c /\ b = d) \/ blake2s_collision.
Proof.
  intros Hl E. apply hash_multiple_inj in E as [E|]; [|by right]. left. simpl in E.
  apply (inj (app TAG_NODE)) in E. rewrite !app_nil_r in E. by apply app_inj_1 in E.
Qed.

Lemma length_hash_multiple l : length (hash_multiple l) = 32%nat.
Proof. by rewrite hash_multiple_digest. Qed.

Lemma length_bottom key v : length (bottom key v) = 32%nat.
Proof. destruct v; simpl; [apply length_hash_multiple|]. unfold empty_leaf_hash. by rewrite hash_data_digest. Qed.

Lemma length_climb d key sibs v : length (climb d key sibs (bottom key v)) = 32%nat.
Proof.
  destruct sibs; simpl; [apply length_bottom|]. case_bool_decide; apply length_hash_multiple.
Qed.

Lemma length_subtree rem m : length (subtree_hash rem m) = 32%nat.
Proof.
  destruct rem as [|rem]; [|rewrite subtree_node; apply length_hash_multiple].
  cbn [subtree_hash]. case_bool_decide; [apply (length_bottom [] None)|].
  destruct (head (hash_iter m)) as [[k v]|]; [apply length_hash_multiple|done].
Qed.

(** Different values of a key have different bottoms. *)
Lemma bottom_inj key v v' : bottom key v = bottom key v' -> v = v' \/ blake2s_collision.
Proof.
  destruct v as [v|], v' as [v'|]; simpl; intros E; [| | |by left].
  - apply hash_multiple_inj in E as [E|]; [|by right]. left. simpl in E.
    apply (inj (app TAG_LEAF)) in E. apply (inj (app key)) in E. rewrite !app_nil_r in E. by subst.
  - right. unfold empty_leaf_hash, leaf_hash in E. rewrite hash_multiple_digest, hash_data_digest in E.
    exists (concat [TAG_LEAF; key; v]), TAG_EMPTY. by split.
  - right. unfold empty_leaf_hash, leaf_hash in E. rewrite hash_multiple_digest, hash_data_digest in E.
    exists TAG_EMPTY, (concat [TAG_LEAF; key; v']). by split.
Qed.

Lemma climb_sound d rem key sibs value m :
  (d + rem = DEPTH)%nat -> key_ok key -> below d key m -> length sibs = rem ->
  Forall (fun s => length s = 32%nat) sibs ->
  climb d key sibs (bottom key value) = subtree_hash rem m ->
  value = m !! key \/ blake2s_collision.
Proof.
  revert d sibs m; induction rem as [|rem IH]; intros d sibs m Hd Hkey Hm Hlen Hs E.
  { destruct sibs; [|done]. rewrite Nat.add_0_r in Hd. subst d. cbn [climb] in E.
    rewrite (subtree_leaf key m) in E by done. by apply (bottom_inj key). }
  destruct sibs as [|s sibs]; [done|]. injection Hlen as Hlen. apply Forall_cons in Hs as [Hs1 Hs].
  cbn [climb] in E. rewrite subtree_key with (key := key) in E. cbv zeta in E.
  replace (DEPTH - S rem)%nat with d in E by lia.
  set (below_hash := climb (S d) key sibs (bottom key value)) in *.
  assert (Hb : length below_hash = 32%nat) by apply length_climb.
  assert (Hsub : below_hash = subtree_hash rem (on_side d (bit_at key d) m) \/ blake2s_collision).
  { case_bool_decide; apply node_hash_inj in E; rewrite ?length_subtree; try done;
      destruct E as [[? ?]|]; auto. }
  destruct Hsub as [Hsub|]; [|by right].
  rewrite <-(lookup_same_side d key m).
  by apply (IH (S d) sibs); [lia|done|apply below_side|done..].
Qed.

End Facts.
