(* ===== verification/SparseMerkleTheorems.v ===== *)
(** * The theorems about the sparse Merkle trie *)
From S2P Require Import Prelude Crypto SparseMerkle.
Local Open Scope Z_scope.

(** All keys of the trie are 32 bytes. *)
Definition trie_ok (t : SparseMerkleTrie) : Prop := map_Forall (fun k _ => key_ok k) t.(leaves).

#[export] Instance trie_ok_dec t : Decision (trie_ok t).
Proof. unfold trie_ok. apply _. Defined.

Section Proofs.
Context `{CryptoPrims} `{HashOrder}.

Lemma below_root t key : trie_ok t -> below 0 key t.(leaves).
Proof. intros Ht k v Hk. split; [by apply (Ht k v)|]. lia. Qed.

Lemma proof_verify_iff root key value p :
  proof_verify root key value p = true <->
  p.(pf_key) = key /\ p.(pf_value) = value /\ length p.(siblings) = DEPTH /\
  climb 0 key p.(siblings) (bottom key value) = root.
Proof.
  unfold proof_verify. fold (bottom key value).
  repeat case_bool_decide; simpl; rewrite ?bool_decide_eq_true; naive_solver.
Qed.

Lemma proof_complete t key :
  trie_ok t -> key_ok key ->
  proof_verify (trie_root t) key (trie_get key t) (generate_proof key t) = true.
Proof.
  intros Ht Hk. apply proof_verify_iff. split_and!; [done|done| |].
  - apply length_collect.
  - unfold generate_proof, collect_siblings, trie_root. cbn [siblings].
    exact (climb_collect 0 DEPTH key t.(leaves) eq_refl Hk (below_root t key Ht)).
Qed.

Lemma proof_sound t p key value :
  (forall d, length (blake2s d) = 32%nat) ->
  trie_ok t -> key_ok key -> Forall (fun s => length s = 32%nat) p.(siblings) ->
  proof_verify (trie_root t) key value p = true ->
  value = trie_get key t \/ blake2s_collision.
Proof.
  intros Hd Ht Hk Hs (_ & _ & Hlen & E)%proof_verify_iff.
  exact (climb_sound Hd 0 DEPTH key p.(siblings) value t.(leaves) eq_refl Hk (below_root t key Ht)
           Hlen Hs E).
Qed.

(** Every key has a proof: for each key, present or absent, the generated
    proof verifies against the root for exactly the value the trie holds. *)
Theorem smt_complete t key :
  trie_ok t -> key_ok key ->
  proof_verify (trie_root t) key (trie_get key t) (generate_proof key t) = true.
Proof. apply proof_complete. Qed.

(** C13: No proof lies: whatever siblings an adversary supplies, a proof that
    verifies against the root of a trie is for the value the trie holds (or for
    its absence), unless it exhibits a collision of BLAKE2s. *)
Theorem smt_sound t p key value :
  (forall d, length (blake2s d) = 32%nat) ->
  trie_ok t -> key_ok key -> Forall (fun s => length s = 32%nat) p.(siblings) ->
  proof_verify (trie_root t) key value p = true ->
  value = trie_get key t \/ blake2s_collision.
Proof. apply proof_sound. Qed.

(** The siblings of a generated proof are digests. *)
Lemma collect_lengths rem key m :
  (forall d, length (blake2s d) = 32%nat) ->
  Forall (fun s => length s = 32%nat) (collect_from rem key m).
Proof.
  intros Hd. revert m; induction rem as [|rem IH]; intros m; cbn [collect_from]; constructor; [|done].
  by apply length_subtree.
Qed.

(** The root commits to the whole contents: two tries with the same root hold
    the same keys and values, unless they exhibit a collision of BLAKE2s. *)
Theorem smt_root_commits t t' :
  (forall d, length (blake2s d) = 32%nat) -> trie_ok t -> trie_ok t' ->
  trie_root t = trie_root t' -> t.(leaves) = t'.(leaves) \/ blake2s_collision.
Proof.
  intros Hd Ht Ht' E.
  assert (Hkey : forall k, key_ok k -> trie_get k t = trie_get k t' \/ blake2s_collision).
  { intros k Hk. apply (proof_sound t' (generate_proof k t)); [done|done|done|by apply collect_lengths|].
    rewrite <-E. by apply proof_complete. }
  destruct (decide (t.(leaves) = t'.(leaves))) as [|Hne]; [by left|]. right.
  destruct (decide (map_Forall (fun k _ => trie_get k t = trie_get k t') (t.(leaves) ∪ t'.(leaves))))
    as [Hall|Hex].
  - destruct Hne. apply map_eq. intros k.
    destruct ((t.(leaves) ∪ t'.(leaves)) !! k) as [v|] eqn:Eu; [by apply (Hall k v)|].
    apply lookup_union_None in Eu as [-> ->]. done.
  - apply map_not_Forall in Hex as (k & v & Hk & Hne'); [|apply _].
    destruct (Hkey k) as [|]; [|done|done].
    apply lookup_union_Some_raw in Hk as [Hk|[_ Hk]]; [by apply (Ht k v)|by apply (Ht' k v)].
Qed.

End Proofs.

(** ** Witnesses *)

Module SmtDemo.

(** A stand-in for BLAKE2s: the sum and the length of the input. *)
Definition crypto : CryptoPrims :=
  {| blake2s d := take 32 ([foldl (fun a x => (a * 31 + x) mod 65521) 7 d; Z.of_nat (length d)] ++ repeat 0 32);
     blake3 d := [];
     ed25519_verify _ _ _ := Ok false;
     ml_dsa_verify _ _ _ := false;
     slh_dsa_verify _ _ _ := Ok false;
     ed25519_sign _ _ := [];
     ml_dsa_sign _ _ := [] |}.

Definition k (i : Z) : Hash := repeat i 32.
Definition trie : SparseMerkleTrie := trie_insert (k 1) [10] (trie_insert (k 2) [20; 21] trie_new).

End SmtDemo.

#[local] Existing Instance SmtDemo.crypto.
#[local] Existing Instance list_order.

Lemma smt_complete_witness :
  proof_verify (trie_root SmtDemo.trie) (SmtDemo.k 3) None (generate_proof (SmtDemo.k 3) SmtDemo.trie)
    = true.
Proof.
  apply (smt_complete SmtDemo.trie (SmtDemo.k 3)).
  - apply (bool_decide_eq_true_1 _). vm_compute. reflexivity.
  - apply (bool_decide_eq_true_1 _). vm_compute. reflexivity.
Defined.

Lemma demo_trie_ok : trie_ok SmtDemo.trie.
Proof. apply (bool_decide_eq_true_1 _). vm_compute. reflexivity. Qed.

Lemma demo_key_ok : key_ok (SmtDemo.k 1).
Proof. apply (bool_decide_eq_true_1 _). vm_compute. reflexivity. Qed.

Lemma smt_sound_witness :
  Some [10] = trie_get (SmtDemo.k 1) SmtDemo.trie \/ blake2s_collision.
Proof.
  refine (smt_sound SmtDemo.trie (generate_proof (SmtDemo.k 1) SmtDemo.trie) (SmtDemo.k 1) (Some [10])
            _ demo_trie_ok demo_key_ok _ _).
  - intros d. reflexivity.
  - apply collect_lengths. intros d. reflexivity.
  - exact (proof_complete SmtDemo.trie (SmtDemo.k 1) demo_trie_ok demo_key_ok).
Defined.

(** The order of insertion does not matter. *)
Lemma smt_root_commits_witness :
  SmtDemo.trie.(leaves) =
    (trie_insert (SmtDemo.k 2) [20; 21] (trie_insert (SmtDemo.k 1) [10] trie_new)).(leaves) \/
  blake2s_collision.
Proof.
  refine (smt_root_commits SmtDemo.trie
            (trie_insert (SmtDemo.k 2) [20; 21] (trie_insert (SmtDemo.k 1) [10] trie_new)) _ demo_trie_ok _ _).
  - intros d. reflexivity.
  - apply (bool_decide_eq_true_1 _). vm_compute. reflexivity.
  - apply (f_equal trie_root). vm_compute. reflexivity.
Defined.
