(* ===== verification/Ledger.v ===== *)
(** * Ledger transactions and the state overlay

    Model of the parts of the desktop node that its chain rules share:
    [LedgerTx], [LedgerBlock] and the signing bytes of
    [ego-desktop/src-tauri/src/ledger.rs], the stake predicates of
    [chain_db.rs], the overlay [Ov] and its undo records of [drs.rs], and [Fit]
    of [dao_chain.rs]. *)
From S2P Require Import Prelude Crypto.
Local Open Scope Z_scope.
Local Open Scope string_scope.
Local Open Scope list_scope.

(** ** Transactions and blocks *)

(** A Rust [String] is the [string] of its bytes. *)
Record LedgerTx : Type := MkTx {
  tx_hash : string;
  tx_from : string;
  tx_to : string;
  tx_amount : Z;
  tx_memo : option string;
  tx_timestamp : Z;
  tx_signature : string;
  tx_status : string;
  tx_block_height : option Z;
  tx_nonce : Z;
  tx_public_key_ed25519 : string;
  tx_dilithium_pubkey : string;
  tx_dilithium_signature : string;
  tx_type : string;
  fee_uegoc : Z;
  priority_fee_uegoc : Z;
  wasm_code : string;
  contract_addr : string;
  entrypoint : string;
  call_args : string;
  tx_cid : string;
  commitment_hash : string;
  tx_version : Z;
  tx_chain_id : Z;
  signed_summary : string;
  transport : string;
  is_private : bool;
  compliance_proof : string;
  vault_cosig : string;
}.

#[export] Instance LedgerTx_eq_dec : EqDecision LedgerTx.
Proof. solve_decision. Defined.

(** [LedgerTx::default()], with the given hash, parties, amount, memo, time, status,
    height, type, signature, version and chain. *)
Definition system_tx (hash from to : string) (amount : Z) (memo : option string) (timestamp : Z)
    (status : string) (block_height : option Z) (type signature : string) (version chain_id : Z)
    : LedgerTx :=
  MkTx hash from to amount memo timestamp signature status block_height 0 "" "" "" type 0 0
    "" "" "" "" "" "" version chain_id "" "" false "" "".

(** The fields of [LedgerBlock] the chain rules read. *)
Record LedgerBlock : Type := MkBlock {
  b_height : Z;
  b_hash : string;
  b_timestamp : Z;
}.

Definition NODE_POOL_ADDR : string := "egot1nodepool000000000000000000000000000000000".
Definition STAKING_ADDR : string := "egot1staking000000000000000000000000000000000".
Definition STAKING_POOL_ADDR : string := "egot1stakingpool0000000000000000000000000000000".
Definition FAUCET_ADDR_FULL : string := "egot1faucet000000000000000000000000000000000000".

Definition is_stake_tx (tx : LedgerTx) : bool :=
  bool_decide (tx.(tx_type) = "stake") && bool_decide (tx.(tx_to) = STAKING_ADDR) &&
  bool_decide (tx.(tx_from) <> "").

Definition is_unstake_tx (tx : LedgerTx) : bool :=
  bool_decide (tx.(tx_type) = "unstake") && bool_decide (tx.(tx_to) = STAKING_ADDR) &&
  bool_decide (tx.(tx_from) <> "").

(** [str::starts_with]. *)
Definition starts_with (s p : string) : bool := String.prefix p s.

Definition is_reserved_system_source (addr : string) : bool :=
  bool_decide (addr = "") ||
  bool_decide (addr = NODE_POOL_ADDR) ||
  bool_decide (addr = STAKING_POOL_ADDR) ||
  bool_decide (addr = FAUCET_ADDR_FULL) ||
  existsb (starts_with addr)
    ["egot1faucet"; "egot1genesis"; "egot1staking"; "egot1system"; "egot1coverage";
     "egot1nodereward"; "egot1collateral"; "egot1slashpool"; "egot1storagefees"; "egot1burn";
     "egot1nodepool"; "egot1rewards"; "egot1shielded"; "egot1marketescrow"].

(** ** Signing bytes *)

Definition colon : bytes := ascii_bytes ":".

Definition memo_or_empty (tx : LedgerTx) : string := default "" tx.(tx_memo).

(** [to_le_bytes] of an [i64] stores it modulo [2 ^ 64]. *)
Definition tx_signing_bytes (from to : string) (amount nonce timestamp : Z) : bytes :=
  ascii_bytes "ego/tx/v1:" ++ ascii_bytes from ++ colon ++ ascii_bytes to ++ colon ++
  u64_le amount ++ colon ++ u64_le nonce ++ colon ++ u64_le timestamp.

Definition tx_signing_bytes_v2 (from to : string) (amount nonce timestamp chain_id : Z) (memo : string)
    : bytes :=
  let memo := take 256 (ascii_bytes memo) in
  ascii_bytes "ego/tx/v2:" ++ [chain_id] ++ colon ++ ascii_bytes from ++ colon ++ ascii_bytes to ++
  colon ++ u64_le amount ++ colon ++ u64_le nonce ++ colon ++ u64_le timestamp ++ colon ++
  u32_le (Z.of_nat (length memo)) ++ memo.

Definition tx_signing_bytes_v3 (tx : LedgerTx) : bytes :=
  let memo := ascii_bytes (memo_or_empty tx) in
  ascii_bytes "ego/tx/v3:" ++ [tx.(tx_chain_id)] ++ colon ++ ascii_bytes tx.(tx_from) ++ colon ++
  ascii_bytes tx.(tx_to) ++ colon ++ u64_le tx.(tx_amount) ++ colon ++ u64_le tx.(tx_nonce) ++ colon ++
  u64_le tx.(tx_timestamp) ++ colon ++ u64_le tx.(fee_uegoc) ++ colon ++
  u64_le tx.(priority_fee_uegoc) ++ colon ++
  u32_le (Z.of_nat (String.length tx.(tx_type))) ++ ascii_bytes tx.(tx_type) ++ colon ++
  u32_le (Z.of_nat (length memo)) ++ memo.

Definition tx_signing_bytes_for (tx : LedgerTx) : bytes :=
  if bool_decide (tx.(tx_version) = 3) then tx_signing_bytes_v3 tx
  else if bool_decide (2 <= tx.(tx_version)) then
    tx_signing_bytes_v2 tx.(tx_from) tx.(tx_to) tx.(tx_amount) tx.(tx_nonce) tx.(tx_timestamp)
      tx.(tx_chain_id) (memo_or_empty tx)
  else tx_signing_bytes tx.(tx_from) tx.(tx_to) tx.(tx_amount) tx.(tx_nonce) tx.(tx_timestamp).

(** ** The state overlay *)

(** The key-value column of the database, and the writes of the block being
    applied over it: [Some v] a value, [None] a deletion. *)
Abbreviation Store := (gmap bytes bytes).

Record Ov : Type := MkOv {
  ov_db : Store;
  ov_map : gmap bytes (option bytes);
}.

Definition ov_new (db : Store) : Ov := MkOv db ∅.

Definition ov_committed (key : bytes) (ov : Ov) : option bytes := ov.(ov_db) !! key.

Definition ov_get (key : bytes) (ov : Ov) : option bytes :=
  match ov.(ov_map) !! key with
  | Some v => v
  | None => ov_committed key ov
  end.

Definition ov_put (key value : bytes) (ov : Ov) : Ov :=
  MkOv ov.(ov_db) (<[key := Some value]> ov.(ov_map)).

Definition ov_del (key : bytes) (ov : Ov) : Ov :=
  MkOv ov.(ov_db) (<[key := None]> ov.(ov_map)).

Definition key_leb (a b : bytes) : bool :=
  match bytes_compare a b with
  | Gt => false
  | _ => true
  end.

(** The keys of a [BTreeMap] or of the column, in ascending order. *)
Definition sorted_keys {A} (m : gmap bytes A) : list bytes :=
  stable_sort key_leb (map_to_list m).*1.

(** [k.starts_with(prefix)] on byte slices. *)
Definition has_prefix (prefix k : bytes) : bool := bool_decide (take (length prefix) k = prefix).

(** The iteration over the column from [prefix] on, and its [break]s. *)
Fixpoint scan_keys (prefix : bytes) (limit : nat) (stop : bytes -> bool) (keys out : list bytes)
    : list bytes :=
  match keys with
  | [] => out
  | k :: keys =>
      if negb (has_prefix prefix k) || bool_decide (limit <= length out)%nat || stop k then out
      else scan_keys prefix limit stop keys (out ++ [k])
  end.

Definition committed_keys (prefix : bytes) (limit : nat) (stop : bytes -> bool) (ov : Ov) : list bytes :=
  scan_keys prefix limit stop
    (filter (fun k => key_leb prefix k = true) (sorted_keys ov.(ov_db))) [].

(** One operation of a write batch. *)
Definition batch_op (db : Store) (kv : bytes * option bytes) : Store :=
  match kv.2 with
  | Some v => <[kv.1 := v]> db
  | None => delete kv.1 db
  end.

(** The entries of the overlay, in the order of its [BTreeMap]. *)
Definition ov_entries (ov : Ov) : list (bytes * option bytes) :=
  omap (fun k => pair k <$> ov.(ov_map) !! k) (sorted_keys ov.(ov_map)).

(** [flush], with the batch written. *)
Definition flush (ov : Ov) : Store := foldl batch_op ov.(ov_db) (ov_entries ov).

(** ** Undo records *)

Definition undo_entry (ov : Ov) (key : bytes) : bytes :=
  u32_le (Z.of_nat (length key)) ++ key ++
  match ov_committed key ov with
  | Some v => [1] ++ u32_le (Z.of_nat (length v)) ++ v
  | None => [0]
  end.

Definition undo_record (ov : Ov) : bytes := concat (undo_entry ov <$> sorted_keys ov.(ov_map)).

(** [take(bytes, &mut i, n)]: the next [n] bytes and what follows them. *)
Definition undo_take (b : bytes) (n : nat) : option (bytes * bytes) :=
  if bool_decide (n <= length b)%nat then Some (take n b, drop n b) else None.

Definition undo_len (b : bytes) : option (nat * bytes) :=
  '(l, b) ← undo_take b 4; Some (Z.to_nat (from_le_bytes l), b).

(** The loop of [read_undo]; every iteration consumes at least five bytes. *)
Fixpoint read_undo_loop (fuel : nat) (b : bytes) (out : list (bytes * option bytes))
    : option (list (bytes * option bytes)) :=
  match fuel with
  | O => None
  | S fuel =>
      if bool_decide (b = []) then Some out
      else
        '(kl, b) ← undo_len b;
        '(k, b) ← undo_take b kl;
        '(tag, b) ← undo_take b 1;
        if bool_decide (tag = [1]) then
          '(vl, b) ← undo_len b;
          '(v, b) ← undo_take b vl;
          read_undo_loop fuel b (out ++ [(k, Some v)])
        else if bool_decide (tag = [0]) then read_undo_loop fuel b (out ++ [(k, None)])
        else None
  end.

Definition read_undo (b : bytes) : option (list (bytes * option bytes)) :=
  read_undo_loop (S (length b)) b [].

(** [apply_undo_records], with the batch written. *)
Definition apply_undo_records (db : Store) (records : list bytes) : Store :=
  foldl (fun db record => foldl batch_op db (default [] (read_undo record))) db records.

(** ** Block planning *)

Inductive Fit : Type :=
| FitYes
| FitLater (reason : string)
| FitNever (reason : string).

(** ** Encodings of other crates *)

(** What the rules use of [serde_json], [hex], [bech32] and [ed25519_dalek]. *)
Class Json (A : Type) : Type := {
  to_json : A -> bytes;
  from_json : bytes -> result A string;
}.

(** [serde_json] reads back what it writes. *)
Class JsonRoundTrip (A : Type) `{Json A} : Prop :=
  from_to_json : forall a : A, from_json (to_json a) = Ok a.

Class ChainPrims : Type := {
  hex_encode : bytes -> string;
  hex_decode : string -> option bytes;
  bech32m_encode : string -> bytes -> option string;
  (* [VerifyingKey::from_bytes], then [verify] *)
  dalek_verify : bytes -> bytes -> bytes -> bool;
}.

Section Load.
Context {A : Type} `{Json A}.

Definition from_str (s : string) : result A string := from_json (ascii_bytes s).

Definition result_ok {T E} (r : result T E) : option T :=
  match r with
  | Ok t => Some t
  | Err _ => None
  end.

Definition load (ov : Ov) (k : bytes) : option A :=
  v ← ov_get k ov; result_ok (from_json v).

Definition save (ov : Ov) (k : bytes) (v : A) : Ov := ov_put k (to_json v) ov.
End Load.

Definition u64_at (ov : Ov) (k : bytes) : Z :=
  default 0 (v ← ov_get k ov;
             if bool_decide (8 <= length v)%nat then Some (from_le_bytes (take 8 v)) else None).

Definition put_u64 (ov : Ov) (k : bytes) (v : Z) : Ov :=
  if bool_decide (v = 0) then ov_del k ov else ov_put k (u64_le v) ov.
