(* ===== verification/LedgerFacts.v ===== *)
(** * Facts about the overlay, its undo records and string keys

    With the property of the ledger: undo records restore the store. *)
From Stdlib Require Import Ascii.
From S2P Require Import Prelude Crypto Ledger.
Local Open Scope Z_scope.
Local Open Scope list_scope.

(** Two inputs of BLAKE3 with one digest. *)
Definition blake3_collision `{CryptoPrims} : Prop := exists a b, a <> b /\ blake3 a = blake3 b.

(** ** Reading the overlay *)

Section Overlay.
Implicit Types ov : Ov.

Lemma ov_get_put k v k' ov :
  ov_get k' (ov_put k v ov) = if bool_decide (k = k') then Some v else ov_get k' ov.
Proof.
  unfold ov_get, ov_put, ov_committed. cbn [ov_map ov_db].
  case_bool_decide; [subst; by rewrite lookup_insert_eq|by rewrite lookup_insert_ne].
Qed.

Lemma ov_get_del k k' ov :
  ov_get k' (ov_del k ov) = if bool_decide (k = k') then None else ov_get k' ov.
Proof.
  unfold ov_get, ov_del, ov_committed. cbn [ov_map ov_db].
  case_bool_decide; [subst; by rewrite lookup_insert_eq|by rewrite lookup_insert_ne].
Qed.

Lemma ov_get_put_eq k v ov : ov_get k (ov_put k v ov) = Some v.
Proof. by rewrite ov_get_put, bool_decide_true. Qed.

Lemma ov_get_put_ne k v k' ov : k <> k' -> ov_get k' (ov_put k v ov) = ov_get k' ov.
Proof. intros. by rewrite ov_get_put, bool_decide_false. Qed.

Lemma ov_get_del_ne k k' ov : k <> k' -> ov_get k' (ov_del k ov) = ov_get k' ov.
Proof. intros. by rewrite ov_get_del, bool_decide_false. Qed.

Lemma ov_db_put k v ov : ov_db (ov_put k v ov) = ov_db ov.
Proof. done. Qed.

Lemma ov_db_del k ov : ov_db (ov_del k ov) = ov_db ov.
Proof. done. Qed.

Lemma ov_get_put_u64_ne k v k' ov : k <> k' -> ov_get k' (put_u64 ov k v) = ov_get k' ov.
Proof.
  intros. unfold put_u64. case_bool_decide; [by apply ov_get_del_ne|by apply ov_get_put_ne].
Qed.

(** ** Sorted keys *)

Lemma key_leb_total a b : key_leb a b = false -> key_leb b a = true.
Proof. unfold key_leb. rewrite (bytes_compare_antisym a b). by destruct (bytes_compare a b). Qed.

Lemma key_leb_antisym a b : key_leb a b = true -> key_leb b a = true -> a = b.
Proof.
  unfold key_leb. rewrite (bytes_compare_antisym a b). destruct (bytes_compare a b) eqn:E; try done. by apply bytes_compare_eq in E.
Qed.

Lemma key_leb_trans a b c : key_leb a b = true -> key_leb b c = true -> key_leb a c = true.
Proof.
  unfold key_leb. destruct (bytes_compare a b) eqn:E1, (bytes_compare b c) eqn:E2; try done.
  1,2: by apply bytes_compare_eq in E1 as ->; rewrite E2.
  - by apply bytes_compare_eq in E2 as ->; rewrite E1.
  - by rewrite (bytes_compare_trans a b c).
Qed.

Lemma sorted_keys_sorted {A} (m : gmap bytes A) : StronglySorted (fun a b => key_leb a b = true) (sorted_keys m).
Proof. apply stable_sort_sorted; [apply key_leb_total|apply key_leb_trans]. Qed.

Lemma sorted_keys_perm {A} (m : gmap bytes A) : sorted_keys m ≡ₚ (map_to_list m).*1.
Proof. apply stable_sort_perm. Qed.

Lemma NoDup_sorted_keys {A} (m : gmap bytes A) : NoDup (sorted_keys m).
Proof. rewrite sorted_keys_perm. apply NoDup_fst_map_to_list. Qed.

Lemma elem_of_sorted_keys {A} (m : gmap bytes A) k : k ∈ sorted_keys m <-> is_Some (m !! k).
Proof.
  rewrite sorted_keys_perm, list_elem_of_fmap. split.
  - intros ([k' a] & -> & Hk%elem_of_map_to_list). by exists a.
  - intros [a Ha]. exists (k, a). split; [done|]. by apply elem_of_map_to_list.
Qed.

(** ** Write batches *)

(** What a batch does to one key: the last operation on it decides. *)
Lemma batch_lookup_notin l db k :
  (forall v, (k, v) ∉ l) -> foldl batch_op db l !! k = db !! k.
Proof.
  revert db; induction l as [|[k' v'] l IH]; intros db Hl; [done|]. cbn [foldl].
  rewrite IH by (intros v Hv; apply (Hl v); set_solver).
  assert (k' <> k) by (intros ->; apply (Hl v'); set_solver).
  unfold batch_op; cbn. destruct v'; [by rewrite lookup_insert_ne|by rewrite lookup_delete_ne].
Qed.

Lemma batch_lookup_in l db k v :
  NoDup l.*1 -> (k, v) ∈ l -> foldl batch_op db l !! k = v.
Proof.
  revert db; induction l as [|[k' v'] l IH]; intros db Hnd Hin; [by apply not_elem_of_nil in Hin|].
  cbn [foldl]. apply NoDup_cons in Hnd as [Hk Hnd]. cbn in Hk, Hnd.
  apply elem_of_cons in Hin as [[= -> ->]|Hin]; [|by apply IH].
  rewrite batch_lookup_notin.
  - unfold batch_op; cbn. destruct v'; [apply lookup_insert_eq|apply lookup_delete_eq].
  - intros v Hv. apply Hk, list_elem_of_fmap. by exists (k', v).
Qed.

Lemma ov_entries_keys ov : (ov_entries ov).*1 = sorted_keys ov.(ov_map).
Proof.
  unfold ov_entries.
  assert (Hall : Forall (fun k => is_Some (ov.(ov_map) !! k)) (sorted_keys ov.(ov_map))).
  { apply Forall_forall. intros k. by rewrite elem_of_sorted_keys. }
  induction Hall as [|k l [v Hv] _ IH]; [done|]. cbn [omap list_omap]. rewrite Hv. cbn. by f_equal.
Qed.

Lemma elem_of_ov_entries ov k v : (k, v) ∈ ov_entries ov <-> ov.(ov_map) !! k = Some v.
Proof.
  unfold ov_entries. rewrite list_elem_of_omap. split.
  - intros (k' & _ & (v' & Hv & [= -> ->])%fmap_Some). done.
  - intros Hv. exists k. rewrite Hv. split; [by rewrite elem_of_sorted_keys, Hv|done].
Qed.

(** Writing the overlay makes the store read as the overlay did. *)
Lemma flush_lookup ov k : flush ov !! k = ov_get k ov.
Proof.
  unfold flush, ov_get, ov_committed. destruct (ov.(ov_map) !! k) as [v|] eqn:E.
  - apply batch_lookup_in; [rewrite ov_entries_keys; apply NoDup_sorted_keys|].
    by apply elem_of_ov_entries.
  - apply batch_lookup_notin. intros v Hv%elem_of_ov_entries. congruence.
Qed.

(** ** Undo records *)

Lemma undo_take_app (a b : bytes) : undo_take (a ++ b) (length a) = Some (a, b).
Proof.
  unfold undo_take. rewrite bool_decide_true by (rewrite length_app; lia).
  by rewrite take_app_length, drop_app_length.
Qed.

Lemma undo_take_one x (b : bytes) : undo_take (x :: b) 1 = Some ([x], b).
Proof. exact (undo_take_app [x] b). Qed.

Lemma undo_len_app n (b : bytes) :
  Z.of_nat n <= u32_max -> undo_len (u32_le (Z.of_nat n) ++ b) = Some (n, b).
Proof.
  intros Hn. unfold undo_len.
  assert (E : undo_take (u32_le (Z.of_nat n) ++ b) 4 = Some (u32_le (Z.of_nat n), b)).
  { exact (undo_take_app (u32_le (Z.of_nat n)) b). }
  rewrite E. cbn [mbind option_bind]. f_equal. f_equal. unfold u32_le.
  rewrite from_to_le_bytes by (unfold u32_max in *; lia). apply Nat2Z.id.
Qed.

(** Keys and old values fit the 32-bit lengths of the record. *)
Definition undo_fits (ov : Ov) : Prop :=
  forall k, is_Some (ov.(ov_map) !! k) ->
    Z.of_nat (length k) <= u32_max /\
    (forall v, ov_committed k ov = Some v -> Z.of_nat (length v) <= u32_max).

Lemma read_undo_entry ov k fuel rest out :
  Z.of_nat (length k) <= u32_max ->
  (forall v, ov_committed k ov = Some v -> Z.of_nat (length v) <= u32_max) ->
  read_undo_loop (S fuel) (undo_entry ov k ++ rest) out
  = read_undo_loop fuel rest (out ++ [(k, ov_committed k ov)]).
Proof.
  intros Hk Hv. cbn [read_undo_loop]. unfold undo_entry.
  rewrite bool_decide_false.
  2:{ intros E%(f_equal length). rewrite !length_app, length_u32_le in E. simpl in E. lia. }
  rewrite <-!app_assoc, (undo_len_app (length k)) by done. cbn [mbind option_bind].
  rewrite undo_take_app. cbn [mbind option_bind].
  destruct (ov_committed k ov) as [v|]; rewrite <-?app_assoc; cbn [app];
    rewrite undo_take_one; cbn [mbind option_bind].
  - rewrite bool_decide_true, (undo_len_app (length v)) by auto. cbn [mbind option_bind].
    by rewrite undo_take_app.
  - by rewrite bool_decide_false, bool_decide_true.
Qed.

Lemma read_undo_loop_app ov ks fuel out :
  Forall (fun k => Z.of_nat (length k) <= u32_max /\
    (forall v, ov_committed k ov = Some v -> Z.of_nat (length v) <= u32_max)) ks ->
  (length ks < fuel)%nat ->
  read_undo_loop fuel (concat (undo_entry ov <$> ks)) out
  = Some (out ++ ((fun k => (k, ov_committed k ov)) <$> ks)).
Proof.
  intros Hks. revert fuel out; induction Hks as [|k ks [Hk Hv] _ IH]; intros fuel out Hf.
  - destruct fuel; [simpl in Hf; lia|]. cbn. by rewrite app_nil_r.
  - destruct fuel as [|fuel]; [simpl in Hf; lia|]. cbn [fmap list_fmap concat].
    rewrite read_undo_entry by done. rewrite IH by (simpl in Hf; lia).
    by rewrite <-app_assoc.
Qed.

Lemma undo_entry_length ov k : (1 <= length (undo_entry ov k))%nat.
Proof. unfold undo_entry. rewrite length_app, length_u32_le. lia. Qed.

Lemma undo_record_length ov ks :
  (length ks <= length (concat (undo_entry ov <$> ks)))%nat.
Proof.
  induction ks as [|k ks IH]; [done|]. cbn [fmap list_fmap concat length]. rewrite length_app.
  pose proof (undo_entry_length ov k). change (list_fmap _ _ (undo_entry ov) ks) with (undo_entry ov <$> ks).
  lia.
Qed.

(** The record of an overlay reads back as the old value of every key it writes. *)
Lemma read_undo_record ov :
  undo_fits ov ->
  read_undo (undo_record ov)
  = Some ((fun k => (k, ov_committed k ov)) <$> sorted_keys ov.(ov_map)).
Proof.
  intros Hfit. unfold read_undo, undo_record. rewrite read_undo_loop_app; [done| |].
  - apply Forall_forall. intros k Hk%elem_of_sorted_keys. by apply Hfit.
  - pose proof (undo_record_length ov (sorted_keys ov.(ov_map))). lia.
Qed.

Lemma undo_one ov :
  undo_fits ov ->
  foldl batch_op (flush ov) (default [] (read_undo (undo_record ov))) = ov.(ov_db).
Proof.
  intros Hfit. rewrite read_undo_record by done. cbn [default from_option id].
  apply map_eq. intros k. destruct (ov.(ov_map) !! k) as [v|] eqn:E.
  - apply batch_lookup_in.
    + rewrite <-list_fmap_compose. rewrite (list_fmap_ext _ id), list_fmap_id; [apply NoDup_sorted_keys|done].
    + apply list_elem_of_fmap. exists k. split; [done|]. by rewrite elem_of_sorted_keys, E.
  - rewrite batch_lookup_notin.
    + rewrite flush_lookup. unfold ov_get. by rewrite E.
    + intros v (k' & [= <- ->] & Hk%elem_of_sorted_keys)%list_elem_of_fmap.
      rewrite E in Hk. by destruct Hk.
Qed.
End Overlay.

(** A run of blocks: each one's overlay is over the store the last one left. *)
Fixpoint blocks_run (db : Store) (ovs : list Ov) : option Store :=
  match ovs with
  | [] => Some db
  | ov :: ovs => if bool_decide (ov.(ov_db) = db) then blocks_run (flush ov) ovs else None
  end.

(** ** Hexadecimal, to evaluate examples

    Two lower-case digits a byte, read back in either case. *)
Module Hex.
Definition digits : list Ascii.ascii :=
  ["0"; "1"; "2"; "3"; "4"; "5"; "6"; "7"; "8"; "9"; "a"; "b"; "c"; "d"; "e"; "f"]%char.

Definition digit (n : Z) : Ascii.ascii := default "0"%char (digits !! Z.to_nat n).

Definition value (c : Ascii.ascii) : option Z :=
  let n := Z.of_nat (Ascii.nat_of_ascii c) in
  if bool_decide (48 <= n <= 57) then Some (n - 48)
  else if bool_decide (97 <= n <= 102) then Some (n - 87)
  else if bool_decide (65 <= n <= 70) then Some (n - 55)
  else None.

Fixpoint encode (b : bytes) : string :=
  match b with
  | [] => EmptyString
  | x :: b => String (digit (x / 16)) (String (digit (x mod 16)) (encode b))
  end.

Fixpoint decode (s : string) : option bytes :=
  match s with
  | EmptyString => Some []
  | String c (String d s) =>
      h ← value c; l ← value d; b ← decode s; Some (h * 16 + l :: b)
  | String _ EmptyString => None
  end.

Lemma value_digit n : 0 <= n < 16 -> value (digit n) = Some n.
Proof.
  intros Hn.
  assert (Hall : Forall (fun n => value (digit n) = Some n) (seqZ 0 16)).
  { apply (bool_decide_eq_true_1 _). vm_compute. reflexivity. }
  rewrite Forall_forall in Hall. apply Hall, elem_of_seqZ. lia.
Qed.

Lemma decode_encode b : Forall in_u8 b -> decode (encode b) = Some b.
Proof.
  induction 1 as [|x b Hx _ IH]; [done|]. cbn [encode decode].
  pose proof (Z.mod_pos_bound x 16). pose proof (Z.div_mod x 16).
  assert (0 <= x / 16 < 16).
  { unfold in_u8, u8_max in Hx. split; [apply Z.div_pos; lia|]. apply Z.div_lt_upper_bound; lia. }
  rewrite !value_digit by lia. cbn [mbind option_bind]. rewrite IH. cbn. do 2 f_equal. lia.
Qed.
End Hex.

(** ** The theorem about the undo records of the state overlay *)

Lemma apply_undo_app db r r' :
  apply_undo_records db (r ++ r') = apply_undo_records (apply_undo_records db r) r'.
Proof. unfold apply_undo_records. apply foldl_app. Qed.

(** C14: A reorganisation restores the state exactly: after any run of blocks, each
    written over the store its predecessor left, applying their undo records from
    the newest to the oldest gives back the store from before the run, whatever
    the blocks wrote, overwrote or deleted. *)
Theorem undo_records_restore ovs db db' :
  Forall undo_fits ovs -> blocks_run db ovs = Some db' ->
  apply_undo_records db' (reverse (undo_record <$> ovs)) = db.
Proof.
  intros Hfit. revert db; induction Hfit as [|ov ovs Hov _ IH]; intros db Hrun.
  - by injection Hrun as ->.
  - cbn [blocks_run] in Hrun. case_bool_decide as E; [|done].
    rewrite fmap_cons, reverse_cons, apply_undo_app, (IH _ Hrun). subst db.
    cbn [apply_undo_records foldl]. by apply undo_one.
Qed.

Module UndoDemo.
Definition db : Store := <[[1] := [10; 11]]> (<[[2] := [20]]> ∅).
(** Overwrites a value, deletes one and writes a new one. *)
Definition first : Ov := ov_put [3] [30] (ov_del [2] (ov_put [1] [12] (ov_new db))).
Definition second : Ov := ov_put [2] [21; 22] (ov_del [3] (ov_new (flush first))).
End UndoDemo.

(** A decidable form of [undo_fits]. *)
Definition undo_fitsb (ov : Ov) : bool :=
  forallb (fun k => bool_decide (Z.of_nat (length k) <= u32_max) &&
             match ov_committed k ov with
             | Some v => bool_decide (Z.of_nat (length v) <= u32_max)
             | None => true
             end) (sorted_keys ov.(ov_map)).

Lemma undo_fitsb_ok ov : undo_fitsb ov = true -> undo_fits ov.
Proof.
  intros Hb k Hk%elem_of_sorted_keys. unfold undo_fitsb in Hb.
  rewrite forallb_forall in Hb. specialize (Hb k (proj1 (list_elem_of_In _ _) Hk)).
  apply andb_prop in Hb as [Hl%bool_decide_eq_true Hv]. split; [done|].
  intros v E. rewrite E in Hv. by apply bool_decide_eq_true in Hv.
Qed.

Lemma undo_records_restore_witness :
  apply_undo_records (flush UndoDemo.second) [undo_record UndoDemo.second; undo_record UndoDemo.first]
    = UndoDemo.db.
Proof.
  apply (undo_records_restore [UndoDemo.first; UndoDemo.second] UndoDemo.db).
  - rewrite !Forall_cons. split_and!; [| |by apply Forall_nil];
      apply undo_fitsb_ok; vm_compute; reflexivity.
  - vm_compute. reflexivity.
Defined.
