(* ===== verification/History.v ===== *)
(** * The index of block hashes

    Model of [ego-desktop/src-tauri/src/history.rs]: every chunk of 4096 block
    hashes is committed to by the root of a Merkle tree, which a node builds
    incrementally as blocks arrive ([push]) and against which it checks the
    old blocks that others serve ([path_ok]). *)
From S2P Require Import Prelude Crypto Ledger.
From stdpp Require Import pretty.
Local Open Scope Z_scope.
Local Open Scope list_scope.

Definition CHUNK : Z := 4096.
Definition LEVELS : nat := 12.
Definition BROKEN : Z := u64_max.
Definition KEY_FRONTIER : bytes := ascii_bytes "bhf".

(** [{n:012}]: at least 12 decimal digits. *)
Definition pad12 (n : Z) : bytes :=
  let d := ascii_bytes (pretty n) in repeat 48 (12 - length d) ++ d.

Definition root_key (chunk : Z) : bytes := ascii_bytes "bhr:" ++ pad12 chunk.

Definition chunk_of (height : Z) : Z := height / CHUNK.

Record Frontier : Type := MkFrontier {
  f_chunk : Z;
  f_count : Z;
  f_levels : list bytes;
}.

Definition frontier_fresh (chunk count : Z) : Frontier :=
  MkFrontier chunk count (replicate LEVELS ZERO_HASH).

Definition frontier_encode (f : Frontier) : bytes :=
  u64_le f.(f_chunk) ++ u64_le f.(f_count) ++ concat f.(f_levels).

(** [v.chunks(32)]. *)
Fixpoint chunks32 (n : nat) (v : bytes) : list bytes :=
  match n with
  | O => []
  | S n => if bool_decide (v = []) then [] else take 32 v :: chunks32 n (drop 32 v)
  end.

(** [<[u8; 32]>::try_from]. *)
Definition try_digest (v : bytes) : option bytes :=
  if bool_decide (length v = 32)%nat then Some v else None.

Definition frontier_decode (v : bytes) : option Frontier :=
  if bool_decide (length v <> 16 + LEVELS * 32)%nat then None
  else Some (MkFrontier (from_le_bytes (take 8 v)) (from_le_bytes (take 8 (drop 8 v)))
               ((fun c => default ZERO_HASH (try_digest c)) <$> chunks32 (length v) (drop 16 v))).

(** Arithmetic of [u64] in a release build. *)
Definition w64 (x : Z) : Z := x mod (u64_max + 1).

Section History.
Context `{CryptoPrims} `{ChainPrims}.

Definition hash_bytes (hash : string) : bytes :=
  default (blake3 (ascii_bytes hash)) (b ← hex_decode hash; try_digest b).

Definition leaf (hash : string) : bytes := blake3 (ascii_bytes "ego/bh/leaf:" ++ hash_bytes hash).
Definition node (l r : bytes) : bytes := blake3 (ascii_bytes "ego/bh/node:" ++ l ++ r).

(** The loop of [push] that joins the new leaf to the full subtrees on its left.
    [None] is the panic of an index out of range. *)
Fixpoint carry (fuel : nat) (levels : list bytes) (c : Z) (level : nat) (cur : bytes)
    : option (bytes * nat) :=
  match fuel with
  | O => None
  | S fuel =>
      if bool_decide (Z.land c 1 = 1) then
        l ← levels !! level;
        carry fuel levels (Z.shiftr c 1) (S level) (node l cur)
      else Some (cur, level)
  end.

Definition put_frontier (f : Frontier) (ov : Ov) : Ov := ov_put KEY_FRONTIER (frontier_encode f) ov.

(** What [push] makes of the stored frontier before it adds the leaf: the frontier
    to extend, or the state to return with. *)
Definition push_start (ov : Ov) (height : Z) : Ov + Frontier :=
  let chunk := chunk_of height in
  let pos := height mod CHUNK in
  let broken := put_frontier (frontier_fresh chunk BROKEN) ov in
  match v ← ov_get KEY_FRONTIER ov; frontier_decode v with
  | Some f =>
      if bool_decide (f.(f_count) = BROKEN) then
        if bool_decide (chunk <= f.(f_chunk)) then inl ov
        else if bool_decide (pos <> 0) then inl broken
        else inr (frontier_fresh chunk 0)
      else
        let expected := w64 (f.(f_chunk) * CHUNK + f.(f_count)) in
        if bool_decide (height < expected) then inl ov
        else if bool_decide (expected < height) then
          if bool_decide (pos <> 0) then inl broken else inr (frontier_fresh chunk 0)
        else inr f
  | None => if bool_decide (pos = 0) then inr (frontier_fresh chunk 0) else inl broken
  end.

Definition push (ov : Ov) (height : Z) (hash : string) : option Ov :=
  match push_start ov height with
  | inl ov => Some ov
  | inr f =>
      let chunk := chunk_of height in
      '(cur, level) ← carry 65 f.(f_levels) f.(f_count) 0 (leaf hash);
      let count := w64 (f.(f_count) + 1) in
      if bool_decide (count = CHUNK) then
        Some (put_frontier (frontier_fresh (chunk + 1) 0) (ov_put (root_key chunk) cur ov))
      else if bool_decide (level < length f.(f_levels))%nat then
        Some (put_frontier (MkFrontier f.(f_chunk) count (<[level := cur]> f.(f_levels))) ov)
      else None
  end.

Definition chunk_root (ov : Ov) (chunk : Z) : option bytes :=
  v ← ov_get (root_key chunk) ov; try_digest v.

(** [layer.chunks(2).map(|p| node(&p[0], &p[1]))]; a layer has an even length, so
    [p[1]] is never out of range. *)
Fixpoint pair_layer (layer : list bytes) : list bytes :=
  match layer with
  | l :: r :: layer => node l r :: pair_layer layer
  | _ => []
  end.

(** [while layer.len() > 1]: a layer of 4096 takes 12 rounds. *)
Fixpoint tree_loop (fuel : nat) (layer : list bytes) : list bytes :=
  match fuel with
  | O => layer
  | S fuel => if bool_decide (1 < length layer)%nat then tree_loop fuel (pair_layer layer) else layer
  end.

Definition tree_root (hashes : list string) : option bytes :=
  if bool_decide (Z.of_nat (length hashes) <> CHUNK) then None
  else head (tree_loop LEVELS (leaf <$> hashes)).

(** The loop of [path_for]. *)
Fixpoint path_loop (fuel : nat) (layer : list bytes) (idx : nat) : list string :=
  match fuel with
  | O => []
  | S fuel =>
      if bool_decide (1 < length layer)%nat then
        hex_encode (default ZERO_HASH (layer !! (Nat.lxor idx 1))) ::
        path_loop fuel (pair_layer layer) (idx / 2)%nat
      else []
  end.

Definition path_for (hashes : list string) (pos : Z) : option (list string) :=
  if bool_decide (Z.of_nat (length hashes) <> CHUNK) || bool_decide (CHUNK <= pos) then None
  else Some (path_loop LEVELS (leaf <$> hashes) (Z.to_nat pos)).

(** The loop of [path_ok]. *)
Fixpoint climb_path (path : list string) (idx : Z) (cur : bytes) : option bytes :=
  match path with
  | [] => Some cur
  | sib :: path =>
      s ← (b ← hex_decode sib; try_digest b);
      climb_path path (Z.shiftr idx 1)
        (if bool_decide (Z.land idx 1 = 0) then node cur s else node s cur)
  end.

Definition path_ok (hash : string) (pos : Z) (path : list string) (root : bytes) : bool :=
  if bool_decide (length path <> LEVELS) || bool_decide (CHUNK <= pos) then false
  else
    match climb_path path pos (leaf hash) with
    | Some cur => bool_decide (cur = root)
    | None => false
    end.
End History.
