(* ===== verification/HistoryFacts.v ===== *)
(** * Lemmas about the index of block hashes

    The frontier holds, for every set bit of its count, the root of a perfect
    subtree; adding a leaf carries through the trailing ones. *)
From S2P Require Import Prelude Crypto Ledger LedgerFacts History.
Local Open Scope Z_scope.
Local Open Scope list_scope.

(** ** Powers of two *)

Section Pow.
Local Open Scope nat_scope.

Lemma pow2_pos i : 0 < 2 ^ i.
Proof. induction i; simpl; lia. Qed.

Lemma pow2_S i : 2 ^ S i = 2 * 2 ^ i.
Proof. done. Qed.

Lemma div_pred n k p : 0 < p -> n + 1 = k * p -> n / p = k - 1.
Proof.
  intros Hp E. destruct k as [|k]; [lia|].
  symmetry. apply (Nat.div_unique n p (S k - 1) (p - 1)); [lia|]. nia.
Qed.

Lemma div_mul_add q p r : 0 < p -> r < p -> (q * p + r) / p = q.
Proof. intros. symmetry. apply (Nat.div_unique _ p q r); lia. Qed.

Lemma odd_split x : Nat.odd x = true -> x = 2 * (x / 2) + 1.
Proof. intros (k & ->)%Nat.odd_spec. rewrite Nat.mul_comm, div_mul_add; lia. Qed.

Lemma even_split x : Nat.odd x = false -> x = 2 * (x / 2).
Proof.
  intros Hx. assert (He : Nat.even x = true) by (by rewrite <-Nat.negb_odd, Hx).
  apply Nat.even_spec in He as (k & ->). rewrite (Nat.mul_comm 2 k), Nat.div_mul; lia.
Qed.

Lemma div_pow_S n i : n / 2 ^ S i = (n / 2 ^ i) / 2.
Proof. rewrite Nat.Div0.div_div, pow2_S. f_equal. lia. Qed.
End Pow.

(** ** Perfect trees *)

Section Trees.
Context `{CryptoPrims} `{ChainPrims}.

Fixpoint mtree (i : nat) (l : list bytes) : bytes :=
  match i with
  | O => default ZERO_HASH (head l)
  | S i => node (mtree i (take (2 ^ i) l)) (mtree i (drop (2 ^ i) l))
  end.

Lemma pair_layer_take n l : pair_layer (take (2 * n) l) = take n (pair_layer l).
Proof.
  revert l; induction n as [|n IH]; intros l; [done|].
  replace (2 * S n)%nat with (S (S (2 * n))) by lia.
  destruct l as [|a [|b l]]; [done..|]. cbn [take pair_layer]. by rewrite IH.
Qed.

Lemma pair_layer_drop n l : pair_layer (drop (2 * n) l) = drop n (pair_layer l).
Proof.
  revert l; induction n as [|n IH]; intros l; [done|].
  replace (2 * S n)%nat with (S (S (2 * n))) by lia.
  destruct l as [|a [|b l]]; [done..|]. cbn [drop pair_layer]. by rewrite IH.
Qed.

Lemma length_pair_layer n l : length l = (2 * n)%nat -> length (pair_layer l) = n.
Proof.
  revert l; induction n as [|n IH]; intros l Hl.
  - by apply nil_length_inv in Hl as ->.
  - destruct l as [|a [|b l]]; [simpl in Hl; lia..|]. cbn [pair_layer length]. rewrite IH; simpl in Hl; lia.
Qed.

Lemma mtree_pair_layer i l : length l = (2 ^ S i)%nat -> mtree i (pair_layer l) = mtree (S i) l.
Proof.
  revert l; induction i as [|i IH]; intros l Hl.
  - destruct l as [|a [|b [|c l]]]; [simpl in Hl; lia..| |simpl in Hl; lia]. done.
  - cbn [mtree]. rewrite <-pair_layer_take, <-pair_layer_drop, <-!pow2_S.
    assert (2 ^ S (S i) = 2 * 2 ^ S i)%nat by done.
    rewrite !IH; [done|rewrite length_drop; lia|rewrite length_take; lia].
Qed.

Lemma tree_loop_mtree i l : length l = (2 ^ i)%nat -> tree_loop i l = [mtree i l].
Proof.
  revert l; induction i as [|i IH]; intros l Hl.
  - destruct l as [|a [|]]; done.
  - cbn [tree_loop]. pose proof (pow2_pos i). rewrite pow2_S in Hl.
    rewrite bool_decide_true by lia. rewrite IH by (apply length_pair_layer; lia).
    by rewrite mtree_pair_layer.
Qed.

(** The leaves of a subtree. *)
Definition block_at (l : list bytes) (off len : nat) : list bytes := take len (drop off l).

Lemma mtree_join i l off :
  mtree (S i) (block_at l off (2 ^ S i))
  = node (mtree i (block_at l off (2 ^ i))) (mtree i (block_at l (off + 2 ^ i) (2 ^ i))).
Proof.
  cbn [mtree]. unfold block_at. rewrite pow2_S. f_equal; f_equal.
  - rewrite take_take. f_equal. lia.
  - rewrite <-drop_drop. rewrite skipn_firstn_comm. f_equal. lia.
Qed.

Lemma block_at_app l k off len :
  (off + len <= length l)%nat -> block_at (l ++ k) off len = block_at l off len.
Proof.
  intros. unfold block_at. rewrite drop_app_le by lia. apply take_app_le. rewrite length_drop. lia.
Qed.

(** ** The frontier *)

(** The levels of a frontier of these leaves. *)
Definition levels_ok (leaves : list bytes) (levels : list bytes) : Prop :=
  length levels = LEVELS /\
  forall i, (i < LEVELS)%nat -> Nat.odd (length leaves / 2 ^ i) = true ->
    levels !! i = Some (mtree i (block_at leaves (length leaves / 2 ^ S i * 2 ^ S i) (2 ^ i))).

Lemma land_1_odd n : Z.land (Z.of_nat n) 1 = 1 <-> Nat.odd n = true.
Proof.
  change 1 with (Z.ones 1) at 1. rewrite Z.land_ones by lia. change (2 ^ 1) with 2.
  destruct (Nat.odd n) eqn:E.
  - apply odd_split in E. split; [done|]. intros _. rewrite E, Nat2Z.inj_add, Nat2Z.inj_mul.
    rewrite Z.add_comm, Z.mul_comm, Z_mod_plus_full. done.
  - apply even_split in E. split; [|done]. rewrite E, Nat2Z.inj_mul, Z.mul_comm, Z_mod_mult. done.
Qed.

Lemma shiftr_1 n : Z.shiftr (Z.of_nat n) 1 = Z.of_nat (n / 2).
Proof. rewrite Z.shiftr_div_pow2, Nat2Z.inj_div by lia. done. Qed.

(** The carry stops at the first clear bit, with the root of the leaves it joined. *)
Lemma carry_spec leaves levels x fuel l k :
  levels_ok leaves levels -> (length leaves < 2 ^ LEVELS)%nat ->
  (length leaves + 1 = k * 2 ^ l)%nat -> (l <= LEVELS)%nat -> (LEVELS - l < fuel)%nat ->
  let cur l := mtree l (block_at (leaves ++ [x]) (length leaves + 1 - 2 ^ l) (2 ^ l)) in
  exists l' k', carry fuel levels (Z.of_nat (length leaves / 2 ^ l)) l (cur l) = Some (cur l', l') /\
    (length leaves + 1 = k' * 2 ^ l')%nat /\ Nat.odd k' = true /\ (l' <= LEVELS)%nat.
Proof.
  intros [Hlen Hlev] Hn. revert l k; induction fuel as [|fuel IH]; intros l k Hk Hl Hf cur; [lia|].
  cbn [carry]. pose proof (pow2_pos l) as Hp.
  assert (Hdiv : (length leaves / 2 ^ l)%nat = (k - 1)%nat) by (by apply div_pred).
  rewrite Hdiv. case_bool_decide as Hbit.
  - apply land_1_odd in Hbit.
    assert (Hl' : (l < LEVELS)%nat).
    { destruct (decide (l = LEVELS)) as [->|]; [|lia]. rewrite <-Hdiv, Nat.div_small in Hbit by done.
      done. }
    rewrite (Hlev l Hl') by (by rewrite Hdiv). cbn [mbind option_bind].
    pose proof (odd_split _ Hbit) as Hodd. set (q := ((k - 1) / 2)%nat) in *.
    assert (Hq : (length leaves / 2 ^ S l)%nat = q) by (by rewrite div_pow_S, Hdiv).
    assert (Hk' : (length leaves + 1 = (q + 1) * 2 ^ S l)%nat) by (rewrite pow2_S; nia).
    specialize (IH (S l) (q + 1)%nat Hk' ltac:(lia) ltac:(lia)). cbn zeta in IH.
    rewrite shiftr_1. fold q. rewrite Hq in *.
    assert (Ecur : node (mtree l (block_at leaves (q * 2 ^ S l) (2 ^ l))) (cur l) = cur (S l)).
    { unfold cur. rewrite mtree_join.
      replace (length leaves + 1 - 2 ^ S l)%nat with (q * 2 ^ S l)%nat by nia.
      f_equal; f_equal.
      - rewrite block_at_app; [done|]. rewrite pow2_S in *. nia.
      - f_equal. rewrite pow2_S in *. nia. }
    rewrite Ecur. apply IH.
  - exists l, k. split_and!; [done|done| |done].
    rewrite land_1_odd in Hbit. apply not_true_is_false in Hbit.
    apply even_split in Hbit. assert (k <> 0%nat) by (intros ->; lia).
    apply Nat.odd_spec. exists ((k - 1) / 2)%nat. lia.
Qed.

(** ... and the frontier with its root in place is the one of the leaves with [x]. *)
Lemma levels_ok_insert leaves levels x l k :
  levels_ok leaves levels -> (length leaves + 1 = k * 2 ^ l)%nat -> Nat.odd k = true ->
  (l < LEVELS)%nat ->
  levels_ok (leaves ++ [x])
    (<[l := mtree l (block_at (leaves ++ [x]) (length leaves + 1 - 2 ^ l) (2 ^ l))]> levels).
Proof.
  intros [Hlen Hlev] Hk Hodd Hl. split; [by rewrite length_insert|]. intros i Hi.
  rewrite length_app. cbn [length]. rewrite Hk. intros Hbit. pose proof (pow2_pos l).
  pose proof (odd_split _ Hodd) as Hk2.
  destruct (Nat.lt_trichotomy i l) as [Hil|[->|Hil]].
  - exfalso. replace l with (l - i - 1 + 1 + i)%nat in Hbit by lia.
    rewrite !Nat.pow_add_r, Nat.mul_assoc, Nat.div_mul in Hbit by (pose proof (pow2_pos i); lia).
    rewrite Nat.mul_assoc, Nat.odd_mul in Hbit. by apply andb_prop in Hbit as [_ Hbit].
  - rewrite list_lookup_insert_eq by lia. do 2 f_equal. f_equal.
    rewrite div_pow_S, Nat.div_mul, pow2_S by lia. nia.
  - rewrite list_lookup_insert_ne by lia.
    assert (Hsame : forall j, (l < j)%nat -> (k * 2 ^ l / 2 ^ j)%nat = (length leaves / 2 ^ j)%nat).
    { intros j Hj. replace j with (l + S (j - S l))%nat by lia.
      rewrite Nat.pow_add_r, <-!Nat.Div0.div_div, Nat.div_mul by lia.
      rewrite (div_pred (length leaves) k) by done.
      rewrite pow2_S, <-!Nat.Div0.div_div. f_equal. rewrite Hk2.
      replace (2 * (k / 2) + 1 - 1)%nat with (k / 2 * 2)%nat by lia.
      replace (2 * (k / 2) + 1)%nat with (k / 2 * 2 + 1)%nat by lia.
      rewrite div_mul_add, Nat.div_mul by lia. done. }
    rewrite !Hsame in * by lia. rewrite Hlev by done. f_equal. f_equal.
    rewrite block_at_app; [done|]. rewrite div_pow_S, pow2_S.
    pose proof (odd_split _ Hbit). pose proof (Nat.Div0.mul_div_le (length leaves) (2 ^ i)). nia.
Qed.

Lemma levels_ok_nil : levels_ok [] (replicate LEVELS ZERO_HASH).
Proof.
  split; [apply length_replicate|]. intros i _. cbn [length].
  rewrite Nat.Div0.div_0_l. done.
Qed.
End Trees.

(** ** The stored frontier *)

Definition frontier_fits (f : Frontier) : Prop :=
  in_u64 f.(f_chunk) /\ in_u64 f.(f_count) /\ length f.(f_levels) = LEVELS /\
  Forall (fun l => length l = 32%nat) f.(f_levels).

Lemma chunks32_concat n (ls : list bytes) :
  Forall (fun l => length l = 32%nat) ls -> (length ls <= n)%nat -> chunks32 n (concat ls) = ls.
Proof.
  intros Hls. revert n; induction Hls as [|l ls Hl Hls IH]; intros n Hn.
  - destruct n; [done|]. cbn [concat chunks32]. by rewrite bool_decide_true.
  - destruct n as [|n]; [simpl in Hn; lia|]. cbn [concat chunks32].
    rewrite bool_decide_false by (intros E%(f_equal length); rewrite length_app, Hl in E; simpl in E; lia).
    rewrite take_app_length', drop_app_length' by done. f_equal. apply IH. simpl in Hn. lia.
Qed.

Lemma length_concat_32 (ls : list bytes) :
  Forall (fun l => length l = 32%nat) ls -> length (concat ls) = (length ls * 32)%nat.
Proof. induction 1 as [|l ls Hl _ IH]; [done|]. cbn [concat length]. rewrite length_app, Hl, IH. lia. Qed.

Lemma digests_stay (ls : list bytes) :
  Forall (fun l => length l = 32%nat) ls -> (fun c => default ZERO_HASH (try_digest c)) <$> ls = ls.
Proof.
  induction 1 as [|l ls Hl _ IH]; [done|]. rewrite fmap_cons, IH. unfold try_digest.
  by rewrite bool_decide_true.
Qed.

Lemma frontier_roundtrip f : frontier_fits f -> frontier_decode (frontier_encode f) = Some f.
Proof.
  intros (Hc & Hn & Hlen & Hall). unfold frontier_decode.
  assert (Hl : length (frontier_encode f) = (16 + LEVELS * 32)%nat).
  { unfold frontier_encode. rewrite !length_app, !length_u64_le, length_concat_32, Hlen by done. lia. }
  rewrite bool_decide_false by (rewrite Hl; lia). rewrite Hl. unfold frontier_encode.
  rewrite (app_assoc (u64_le _)).
  rewrite (drop_app_length' _ _ 16) by (by rewrite length_app, !length_u64_le).
  rewrite <-app_assoc, (drop_app_length' _ _ 8), !(take_app_length' _ _ 8) by (by rewrite length_u64_le).
  rewrite chunks32_concat by (done || rewrite Hlen; unfold LEVELS; lia).
  unfold u64_le. rewrite !from_to_le_bytes by (unfold in_u64, u64_max in *; lia).
  destruct f as [c n ls]; cbn in *. do 2 f_equal. by apply digests_stay.
Qed.

(** ** Pushing a chunk *)

Section Push.
Context `{CryptoPrims} `{ChainPrims}.
Hypothesis blake3_32 : forall d, length (blake3 d) = 32%nat.

(** The stored frontier is the one of the first [length leaves] blocks of a chunk. *)
Definition index_at (ov : Ov) (chunk : Z) (leaves : list bytes) : Prop :=
  exists levels, push_start ov (chunk * CHUNK + Z.of_nat (length leaves))
    = inr (MkFrontier chunk (Z.of_nat (length leaves)) levels) /\
    levels_ok leaves levels /\ Forall (fun l => length l = 32%nat) levels.

Lemma length_node l r : length (node l r) = 32%nat.
Proof. apply blake3_32. Qed.

Lemma length_leaf h : length (leaf h) = 32%nat.
Proof. apply blake3_32. Qed.

Lemma length_carry fuel levels c l cur r :
  length cur = 32%nat -> carry fuel levels c l cur = Some r -> length r.1 = 32%nat.
Proof.
  revert c l cur; induction fuel as [|fuel IH]; intros c l cur Hcur; [done|]. cbn [carry].
  case_bool_decide; [|by intros [= <-]].
  destruct (levels !! l); [|done]. cbn. apply IH, length_node.
Qed.

(** The state after a push that stored the frontier [f], for the next height. *)
Lemma push_start_stored ov f :
  frontier_fits f -> f.(f_count) <> BROKEN -> f.(f_chunk) * CHUNK + f.(f_count) <= u64_max ->
  push_start (put_frontier f ov) (f.(f_chunk) * CHUNK + f.(f_count)) = inr f.
Proof.
  intros Hf Hc Hb. unfold push_start, put_frontier. rewrite ov_get_put_eq. cbn [mbind option_bind].
  rewrite frontier_roundtrip by done. rewrite (bool_decide_false _ Hc).
  destruct Hf as (Hf1 & Hf2 & _).
  assert (E : w64 (f.(f_chunk) * CHUNK + f.(f_count)) = f.(f_chunk) * CHUNK + f.(f_count)).
  { unfold w64. apply Z.mod_small. unfold in_u64, CHUNK in *. lia. }
  rewrite E. by rewrite !bool_decide_false by lia.
Qed.

Lemma chunk_of_inside chunk (n : Z) : 0 <= n < CHUNK -> chunk_of (chunk * CHUNK + n) = chunk.
Proof.
  intros. unfold chunk_of. symmetry. apply (Z.div_unique _ _ chunk n); [by left|]. lia.
Qed.

Lemma pow2_LEVELS : Z.of_nat (2 ^ LEVELS) = CHUNK.
Proof. vm_compute. reflexivity. Qed.

(** The carry of a push. *)
Lemma push_carry levels leaves h :
  levels_ok leaves levels -> Z.of_nat (length leaves) < CHUNK ->
  exists l k, carry 65 levels (Z.of_nat (length leaves)) 0 (leaf h)
      = Some (mtree l (block_at (leaves ++ [leaf h]) (length leaves + 1 - 2 ^ l) (2 ^ l)), l) /\
    (length leaves + 1 = k * 2 ^ l)%nat /\ Nat.odd k = true /\ (l <= LEVELS)%nat.
Proof.
  intros Hok Hn. rewrite <-pow2_LEVELS in Hn.
  destruct (carry_spec leaves levels (leaf h) 65 0 (length leaves + 1) Hok) as (l & k & E & Hr);
    [lia|simpl; lia|lia|unfold LEVELS; lia|].
  exists l, k. split; [|done]. rewrite Nat.pow_0_r, Nat.div_1_r, Nat.add_sub in E.
  rewrite <-E. f_equal. unfold block_at. cbn [mtree]. by rewrite drop_app_length.
Qed.

(** The state before a push at the height that is due. *)
Lemma push_due ov chunk leaves h :
  index_at ov chunk leaves -> Z.of_nat (length leaves) < CHUNK ->
  exists levels l k,
    let cur := mtree l (block_at (leaves ++ [leaf h]) (length leaves + 1 - 2 ^ l) (2 ^ l)) in
    push ov (chunk * CHUNK + Z.of_nat (length leaves)) h
    = (if bool_decide (Z.of_nat (length leaves) + 1 = CHUNK)
       then Some (put_frontier (frontier_fresh (chunk + 1) 0) (ov_put (root_key chunk) cur ov))
       else if bool_decide (l < length levels)%nat
       then Some (put_frontier (MkFrontier chunk (Z.of_nat (length leaves) + 1) (<[l := cur]> levels)) ov)
       else None) /\
    levels_ok leaves levels /\ Forall (fun l => length l = 32%nat) levels /\ length cur = 32%nat /\
    (length leaves + 1 = k * 2 ^ l)%nat /\ Nat.odd k = true /\ (l <= LEVELS)%nat.
Proof.
  intros (levels & Hs & Hok & Hall) Hn.
  destruct (push_carry levels leaves h Hok Hn) as (l & k & E & Hk & Hodd & Hl).
  exists levels, l, k. cbn zeta. split_and!; [|done|done| |done|done|done].
  - unfold push. rewrite Hs. cbn [f_levels f_count f_chunk]. rewrite E. cbn [mbind option_bind].
    rewrite chunk_of_inside by lia.
    assert (Ew : w64 (Z.of_nat (length leaves) + 1) = Z.of_nat (length leaves) + 1).
    { unfold w64. apply Z.mod_small. unfold CHUNK, u64_max in *. lia. }
    by rewrite Ew.
  - apply (length_carry _ _ _ _ _ _ (length_leaf h) E).
Qed.

(** One push inside the chunk. *)
Lemma push_inside ov chunk leaves h :
  0 <= chunk -> (chunk + 1) * CHUNK <= u64_max -> index_at ov chunk leaves ->
  Z.of_nat (length leaves) + 1 < CHUNK ->
  exists ov', push ov (chunk * CHUNK + Z.of_nat (length leaves)) h = Some ov' /\
    index_at ov' chunk (leaves ++ [leaf h]) /\
    (forall k, k <> KEY_FRONTIER -> ov_get k ov' = ov_get k ov).
Proof.
  intros Hc Hb Hi Hn.
  destruct (push_due ov chunk leaves h Hi) as (levels & l & k & E & Hok & Hall & Hcur & Hk & Hodd & Hl);
    [lia|].
  assert (Hl' : (l < LEVELS)%nat).
  { destruct (decide (l = LEVELS)) as [->|]; [|lia]. pose proof pow2_LEVELS.
    destruct k as [|k]; [done|]. nia. }
  assert (Hlen : length levels = LEVELS) by apply Hok.
  rewrite E, (bool_decide_false (_ = CHUNK)), bool_decide_true by lia.
  eexists. split; [done|]. split; [|intros k' Hk'; by apply ov_get_put_ne].
  pose proof (levels_ok_insert leaves levels (leaf h) l k Hok Hk Hodd Hl') as Hok'.
  assert (Hall' : Forall (fun l => length l = 32%nat)
            (<[l := mtree l (block_at (leaves ++ [leaf h]) (length leaves + 1 - 2 ^ l) (2 ^ l))]> levels)).
  { by apply Forall_insert. }
  exists (<[l := mtree l (block_at (leaves ++ [leaf h]) (length leaves + 1 - 2 ^ l) (2 ^ l))]> levels).
  split; [|done].
  assert (En : Z.of_nat (length (leaves ++ [leaf h])) = Z.of_nat (length leaves) + 1).
  { rewrite length_app. cbn [length]. lia. }
  rewrite En. apply (push_start_stored ov (MkFrontier chunk (Z.of_nat (length leaves) + 1) _)).
  - split_and!; cbn [f_chunk f_count f_levels].
    + unfold in_u64, CHUNK, u64_max in *. lia.
    + unfold in_u64, CHUNK, u64_max in *. lia.
    + by rewrite length_insert.
    + done.
  - cbn. unfold BROKEN, CHUNK, u64_max in *. lia.
  - cbn. unfold CHUNK, u64_max in *. lia.
Qed.

(** The last push of a chunk stores the root of its tree and starts the next chunk. *)
Lemma push_last ov chunk leaves h :
  0 <= chunk -> (chunk + 2) * CHUNK <= u64_max -> index_at ov chunk leaves ->
  Z.of_nat (length leaves) + 1 = CHUNK ->
  exists ov', push ov (chunk * CHUNK + Z.of_nat (length leaves)) h = Some ov' /\
    chunk_root ov' chunk = Some (mtree LEVELS (leaves ++ [leaf h])) /\
    (forall h x, 0 <= h < (chunk + 1) * CHUNK -> push ov' h x = Some ov') /\
    push_start ov' ((chunk + 1) * CHUNK) = inr (frontier_fresh (chunk + 1) 0).
Proof.
  intros Hc Hb Hi Hn.
  destruct (push_due ov chunk leaves h Hi) as (levels & l & k & E & Hok & Hall & Hcur & Hk & Hodd & Hl);
    [lia|].
  assert (l = LEVELS) as ->.
  { pose proof pow2_LEVELS as H2. replace LEVELS with (LEVELS - l + l)%nat in H2 by lia.
    rewrite Nat.pow_add_r in H2. pose proof (pow2_pos l).
    assert (Ek : k = (2 ^ (LEVELS - l))%nat) by nia.
    destruct (LEVELS - l)%nat as [|d] eqn:Ed; [lia|]. rewrite Ek, pow2_S, Nat.odd_mul in Hodd. done. }
  assert (Elen : length (leaves ++ [leaf h]) = (2 ^ LEVELS)%nat).
  { rewrite length_app. cbn [length]. pose proof pow2_LEVELS. lia. }
  assert (Eblock : block_at (leaves ++ [leaf h]) (length leaves + 1 - 2 ^ LEVELS) (2 ^ LEVELS)
                   = leaves ++ [leaf h]).
  { unfold block_at. rewrite length_app in Elen. cbn [length] in Elen.
    replace (length leaves + 1 - 2 ^ LEVELS)%nat with 0%nat by lia. rewrite drop_0.
    apply take_ge. rewrite length_app. cbn [length]. lia. }
  rewrite Eblock in *. rewrite E, bool_decide_true by done. eexists. split; [done|]. split.
  - unfold chunk_root, put_frontier. rewrite ov_get_put_ne by (intros E'; discriminate E').
    rewrite ov_get_put_eq. cbn [mbind option_bind]. unfold try_digest. by rewrite bool_decide_true.
  - assert (Hf : frontier_fits (frontier_fresh (chunk + 1) 0)).
    { split_and!; cbn; [unfold in_u64, CHUNK, u64_max in *; lia..|done|]. by repeat constructor. }
    split.
    + intros h' x Hh'. unfold push, push_start, put_frontier. rewrite ov_get_put_eq.
      cbn [mbind option_bind]. rewrite frontier_roundtrip by done. cbn [f_count f_chunk frontier_fresh].
      rewrite bool_decide_false by (unfold BROKEN; done).
      assert (Ew : w64 ((chunk + 1) * CHUNK + 0) = (chunk + 1) * CHUNK).
      { unfold w64. rewrite Z.add_0_r. apply Z.mod_small. unfold CHUNK, u64_max in *. lia. }
      rewrite Ew, bool_decide_true by lia. done.
    + rewrite <-(Z.add_0_r (_ * CHUNK)).
      apply (push_start_stored _ (frontier_fresh (chunk + 1) 0)); [done|done|].
      cbn. unfold CHUNK, u64_max in *. lia.
Qed.

(** ** Pushing the blocks of a chunk one after the other *)

Fixpoint push_all (ov : Ov) (height : Z) (hashes : list string) : option Ov :=
  match hashes with
  | [] => Some ov
  | h :: hashes => ov' ← push ov height h; push_all ov' (height + 1) hashes
  end.

Lemma push_all_rest ov chunk hashes leaves :
  0 <= chunk -> (chunk + 2) * CHUNK <= u64_max -> index_at ov chunk leaves ->
  Z.of_nat (length leaves + length hashes) = CHUNK -> hashes <> [] ->
  exists ov', push_all ov (chunk * CHUNK + Z.of_nat (length leaves)) hashes = Some ov' /\
    chunk_root ov' chunk = Some (mtree LEVELS (leaves ++ (leaf <$> hashes))) /\
    (forall h x, 0 <= h < (chunk + 1) * CHUNK -> push ov' h x = Some ov') /\
    push_start ov' ((chunk + 1) * CHUNK) = inr (frontier_fresh (chunk + 1) 0).
Proof.
  intros Hc Hb. revert ov leaves; induction hashes as [|h hashes IH]; intros ov leaves Hi Hlen Hne; [done|].
  cbn [push_all]. cbn [length] in Hlen. destruct (decide (hashes = [])) as [->|Hne'].
  - destruct (push_last ov chunk leaves h) as (ov' & E & Hr); [done|done|done|simpl in Hlen; lia|].
    exists ov'. rewrite E. done.
  - assert (length hashes <> 0%nat) by (by intros ?%nil_length_inv).
    destruct (push_inside ov chunk leaves h) as (ov1 & E & Hi' & _);
      [done|unfold CHUNK in *; lia|done|lia|].
    rewrite E. cbn [mbind option_bind].
    destruct (IH ov1 (leaves ++ [leaf h])) as (ov' & E' & Hr); [done| |done|].
    { rewrite length_app. cbn [length]. lia. }
    exists ov'. rewrite length_app in E'. cbn [length] in E'.
    replace (chunk * CHUNK + Z.of_nat (length leaves) + 1)
      with (chunk * CHUNK + Z.of_nat (length leaves + 1)) by lia.
    rewrite E'. split; [done|]. by rewrite fmap_cons, cons_middle, app_assoc.
Qed.

Lemma index_at_fresh ov chunk :
  push_start ov (chunk * CHUNK) = inr (frontier_fresh chunk 0) -> index_at ov chunk [].
Proof.
  intros E. exists (replicate LEVELS ZERO_HASH). cbn [length Z.of_nat]. rewrite Z.add_0_r.
  split; [done|]. split; [apply levels_ok_nil|]. by repeat constructor.
Qed.

Lemma tree_root_mtree hashes :
  Z.of_nat (length hashes) = CHUNK -> tree_root hashes = Some (mtree LEVELS (leaf <$> hashes)).
Proof.
  intros Hl. unfold tree_root. rewrite bool_decide_false by (by intros []).
  rewrite tree_loop_mtree; [done|]. rewrite length_fmap. pose proof pow2_LEVELS. lia.
Qed.
End Push.
