(* ===== verification/HistoryTheorems.v ===== *)
(** * The theorems about the index of block hashes *)
From S2P Require Import Prelude Crypto Ledger LedgerFacts History HistoryFacts.
Local Open Scope Z_scope.
Local Open Scope list_scope.

(** ** Membership paths *)

Section Xor.
Local Open Scope nat_scope.

Lemma lxor_1_even j : Nat.lxor (2 * j) 1 = 2 * j + 1.
Proof.
  apply Nat.bits_inj. intros [|n].
  - rewrite Nat.lxor_spec, Nat.testbit_even_0, Nat.testbit_odd_0. done.
  - rewrite Nat.lxor_spec, Nat.testbit_even_succ, Nat.testbit_odd_succ by lia.
    change (Nat.testbit 1 (S n)) with (Nat.testbit 0 n). by rewrite Nat.bits_0, xorb_false_r.
Qed.

Lemma lxor_1_odd j : Nat.lxor (2 * j + 1) 1 = 2 * j.
Proof. by rewrite <-lxor_1_even, Nat.lxor_assoc, Nat.lxor_nilpotent, Nat.lxor_0_r. Qed.
End Xor.

Section Paths.
Context `{CryptoPrims} `{ChainPrims}.
Hypothesis blake3_32 : forall d, length (blake3 d) = 32%nat.

Hypothesis blake3_bytes : forall d, Forall in_u8 (blake3 d).

Definition digests (l : list bytes) : Prop := Forall (fun x => length x = 32%nat) l.

Lemma pair_layer_lookup j l a b :
  l !! (2 * j)%nat = Some a -> l !! (2 * j + 1)%nat = Some b -> pair_layer l !! j = Some (node a b).
Proof.
  revert l; induction j as [|j IH]; intros [|x [|y l]]; try done.
  - cbn. congruence.
  - replace (2 * S j)%nat with (S (S (2 * j))) by lia. cbn [lookup list_lookup plus pair_layer].
    replace (S (S (2 * j)) + 1)%nat with (S (S (2 * j + 1))) by lia. apply IH.
Qed.

Lemma digests_pair_layer n l : length l = (2 * n)%nat -> digests (pair_layer l).
Proof.
  revert l; induction n as [|n IH]; intros [|x [|y l]] Hl; try (simpl in Hl; lia); [constructor|].
  cbn [pair_layer]. constructor; [apply blake3_32|]. apply IH. simpl in Hl. lia.
Qed.

Lemma bytes_pair_layer n l : length l = (2 * n)%nat -> Forall (Forall in_u8) (pair_layer l).
Proof.
  revert l; induction n as [|n IH]; intros [|x [|y l]] Hl; try (simpl in Hl; lia); [constructor|].
  cbn [pair_layer]. constructor; [apply blake3_bytes|]. apply IH. simpl in Hl. lia.
Qed.

(** The two children of the parent of [idx]. *)
Lemma children (l : list bytes) n idx :
  length l = (2 * n)%nat -> (idx < 2 * n)%nat ->
  exists a b, l !! (2 * (idx / 2))%nat = Some a /\ l !! (2 * (idx / 2) + 1)%nat = Some b /\
    pair_layer l !! (idx / 2)%nat = Some (node a b).
Proof.
  intros Hl Hi. assert (Hb : (idx / 2 < n)%nat) by (apply Nat.Div0.div_lt_upper_bound; lia).
  destruct (lookup_lt_is_Some_2 l (2 * (idx / 2))) as [a Ha]; [lia|].
  destruct (lookup_lt_is_Some_2 l (2 * (idx / 2) + 1)) as [b Hb']; [lia|].
  exists a, b. split_and!; [done|done|]. by apply pair_layer_lookup.
Qed.

Lemma try_digest_Some b s : try_digest b = Some s -> s = b /\ length s = 32%nat.
Proof. unfold try_digest. case_bool_decide; [|done]. by intros [= <-]. Qed.

Lemma try_digest_ok b : length b = 32%nat -> try_digest b = Some b.
Proof. intros. unfold try_digest. by rewrite bool_decide_true. Qed.

Lemma land_1_cases idx :
  (Z.land (Z.of_nat idx) 1 = 0 /\ idx = (2 * (idx / 2))%nat) \/
  (Z.land (Z.of_nat idx) 1 <> 0 /\ idx = (2 * (idx / 2) + 1)%nat).
Proof.
  destruct (Nat.odd idx) eqn:E.
  - right. pose proof (odd_split _ E). apply land_1_odd in E. split; [lia|done].
  - left. pose proof (even_split _ E) as Hev. split; [|done].
    change 1 with (Z.ones 1). rewrite Z.land_ones by lia. rewrite Hev, Nat2Z.inj_mul, Z.mul_comm.
    apply Z_mod_mult.
Qed.

Lemma length_path_loop i layer idx :
  length layer = (2 ^ i)%nat -> length (path_loop i layer idx) = i.
Proof.
  revert layer idx; induction i as [|i IH]; intros layer idx Hl; [done|].
  rewrite pow2_S in Hl. pose proof (pow2_pos i). cbn [path_loop].
  rewrite bool_decide_true by lia. cbn [length]. f_equal. apply IH, length_pair_layer. lia.
Qed.

(** The path made for a position climbs to the root. *)
Lemma climb_path_for (hex_ok : forall b, Forall in_u8 b -> hex_decode (hex_encode b) = Some b) i layer idx cur :
  length layer = (2 ^ i)%nat -> digests layer -> Forall (Forall in_u8) layer -> layer !! idx = Some cur ->
  climb_path (path_loop i layer idx) (Z.of_nat idx) cur = Some (mtree i layer).
Proof.
  revert layer idx cur; induction i as [|i IH]; intros layer idx cur Hl Hd Hby Hcur.
  - destruct layer as [|x [|]]; try done. destruct idx; [|done]. cbn in *. congruence.
  - rewrite pow2_S in Hl. pose proof (pow2_pos i).
    assert (Hi : (idx < 2 * 2 ^ i)%nat) by (rewrite <-Hl; by eapply lookup_lt_Some).
    destruct (children layer _ idx Hl Hi) as (a & b & Ha & Hb & Hp).
    cbn [path_loop]. rewrite bool_decide_true by lia. cbn [climb_path].
    rewrite shiftr_1, <-mtree_pair_layer by (by rewrite pow2_S).
    pose proof (proj1 (Forall_lookup _ _) Hd _ _ Ha). pose proof (proj1 (Forall_lookup _ _) Hd _ _ Hb).
    assert (Hnext : forall sib, layer !! Nat.lxor idx 1 = Some sib -> length sib = 32%nat ->
      (if bool_decide (Z.land (Z.of_nat idx) 1 = 0) then node cur sib else node sib cur) = node a b ->
      (b0 ← hex_decode (hex_encode (default ZERO_HASH (layer !! Nat.lxor idx 1))); try_digest b0) ≫=
        (fun s => climb_path (path_loop i (pair_layer layer) (idx / 2)) (Z.of_nat (idx / 2))
          (if bool_decide (Z.land (Z.of_nat idx) 1 = 0) then node cur s else node s cur))
      = Some (mtree i (pair_layer layer))).
    { intros sib Hs Hsl En. rewrite Hs. cbn [default from_option id].
      rewrite hex_ok by (apply (proj1 (Forall_lookup _ _) Hby _ _ Hs)).
      cbn [mbind option_bind]. rewrite try_digest_ok by done. cbn [mbind option_bind]. rewrite En.
      apply IH; [apply length_pair_layer; lia|by eapply digests_pair_layer|by eapply bytes_pair_layer|done]. }
    destruct (land_1_cases idx) as [[Hz Hev]|[Hz Hod]].
    + apply (Hnext b); [by rewrite Hev, lxor_1_even|done|]. rewrite bool_decide_true by done.
      rewrite Hev, Ha in Hcur. by injection Hcur as ->.
    + apply (Hnext a); [by rewrite Hod, lxor_1_odd|done|]. rewrite bool_decide_false by done.
      rewrite Hod, Hb in Hcur. by injection Hcur as ->.
Qed.

Lemma node_inj a b a' b' :
  length a = 32%nat -> length a' = 32%nat -> node a b = node a' b' ->
  (a = a' /\ b = b') \/ blake3_collision.
Proof.
  intros Ha Ha' E. unfold node in E.
  destruct (decide (a ++ b = a' ++ b')) as [Eq|Hne].
  - left. apply app_inj_1 in Eq; [done|congruence].
  - right. exists (ascii_bytes "ego/bh/node:" ++ a ++ b), (ascii_bytes "ego/bh/node:" ++ a' ++ b').
    split; [|done]. intros Eq. by apply Hne, (app_inv_head (ascii_bytes "ego/bh/node:")).
Qed.

(** A path that climbs to the root starts from the leaf at its position. *)
Lemma climb_path_sound i layer idx path cur :
  length layer = (2 ^ i)%nat -> digests layer -> length path = i -> (idx < 2 ^ i)%nat ->
  length cur = 32%nat -> climb_path path (Z.of_nat idx) cur = Some (mtree i layer) ->
  layer !! idx = Some cur \/ blake3_collision.
Proof.
  revert layer idx path cur; induction i as [|i IH]; intros layer idx path cur Hl Hd Hp Hi Hc E.
  - apply nil_length_inv in Hp as ->. simpl in Hi. assert (idx = 0%nat) as -> by lia.
    destruct layer as [|x [|]]; try done. cbn in *. left. congruence.
  - rewrite pow2_S in *. destruct path as [|sib path]; [done|]. cbn [climb_path] in E.
    destruct (hex_decode sib ≫= try_digest) as [s|] eqn:Es; [|done].
    apply bind_Some in Es as (b0 & _ & [_ Hs]%try_digest_Some).
    cbn [mbind option_bind] in E. rewrite shiftr_1, <-mtree_pair_layer in E by (by rewrite pow2_S).
    destruct (children layer _ idx Hl Hi) as (a & b & Ha & Hb & Hpl).
    pose proof (proj1 (Forall_lookup _ _) Hd _ _ Ha) as Hla. cbv beta in Hla.
    pose proof (proj1 (Forall_lookup _ _) Hd _ _ Hb) as Hlb. cbv beta in Hlb.
    apply IH in E as [E|]; [|by right|by apply length_pair_layer|by eapply digests_pair_layer
      |by injection Hp|by apply Nat.Div0.div_lt_upper_bound; lia|by case_bool_decide; apply blake3_32].
    rewrite Hpl in E. destruct (land_1_cases idx) as [[Hz Hev]|[Hz Hod]].
    + rewrite bool_decide_true in E by done. injection E as E.
      apply node_inj in E as [[-> _]|]; [|by right|done|done]. left. by rewrite Hev.
    + rewrite bool_decide_false in E by done. injection E as E.
      apply node_inj in E as [[_ ->]|]; [|by right|done|done]. left. by rewrite Hod.
Qed.

Lemma leaf_inj h h' : leaf h = leaf h' -> hash_bytes h = hash_bytes h' \/ blake3_collision.
Proof.
  intros E. destruct (decide (hash_bytes h = hash_bytes h')) as [|Hne]; [by left|]. right.
  exists (ascii_bytes "ego/bh/leaf:" ++ hash_bytes h), (ascii_bytes "ego/bh/leaf:" ++ hash_bytes h').
  split; [|done]. intros Eq. by apply Hne, (app_inv_head (ascii_bytes "ego/bh/leaf:")).
Qed.

Lemma digests_leaves hashes : digests (leaf <$> hashes).
Proof. apply Forall_forall. intros x (h & -> & _)%list_elem_of_fmap. apply blake3_32. Qed.

Lemma bytes_leaves hashes : Forall (Forall in_u8) (leaf <$> hashes).
Proof. apply Forall_forall. intros x (h & -> & _)%list_elem_of_fmap. apply blake3_bytes. Qed.
End Paths.

Section Theorems.
Context `{CryptoPrims} `{ChainPrims}.

(** C15: The incremental index agrees with the tree: pushing the 4096 block hashes of
    a chunk one by one never panics and stores exactly the root that building the
    whole tree at once gives; the index is then ready for the next chunk, and
    pushing any old height again changes nothing. *)
Theorem history_root_matches ov chunk hashes :
  (forall d, length (blake3 d) = 32%nat) -> 0 <= chunk -> (chunk + 2) * CHUNK <= u64_max ->
  push_start ov (chunk * CHUNK) = inr (frontier_fresh chunk 0) ->
  Z.of_nat (length hashes) = CHUNK ->
  exists ov', push_all ov (chunk * CHUNK) hashes = Some ov' /\
    is_Some (tree_root hashes) /\ chunk_root ov' chunk = tree_root hashes /\
    (forall h x, 0 <= h < (chunk + 1) * CHUNK -> push ov' h x = Some ov') /\
    push_start ov' ((chunk + 1) * CHUNK) = inr (frontier_fresh (chunk + 1) 0).
Proof.
  intros Hd Hc Hb Hs Hl.
  destruct (push_all_rest Hd ov chunk hashes []) as (ov' & E & Hr & Hrest); [done|done| | | |].
  - by apply index_at_fresh.
  - done.
  - intros ->. discriminate Hl.
  - exists ov'. cbn [length Z.of_nat] in E. rewrite Z.add_0_r in E. rewrite (tree_root_mtree hashes Hl).
    split; [exact E|]. split; [by eexists|]. split; [exact Hr|exact Hrest].
Qed.

(** Paths are exact: every position of a chunk has a path that proves the hash
    recorded there, and any path that is accepted for that position, whoever made
    it, proves that same hash, unless it exhibits a collision of BLAKE3. *)
Theorem history_paths_exact hashes pos h root :
  (forall d, length (blake3 d) = 32%nat) -> (forall d, Forall in_u8 (blake3 d)) ->
  (forall b, Forall in_u8 b -> hex_decode (hex_encode b) = Some b) ->
  0 <= pos -> hashes !! Z.to_nat pos = Some h -> tree_root hashes = Some root ->
  (exists path, path_for hashes pos = Some path /\ path_ok h pos path root = true) /\
  (forall h' path, path_ok h' pos path root = true ->
     hash_bytes h' = hash_bytes h \/ blake3_collision).
Proof.
  intros Hd Hby Hhex Hpos Hh Hroot.
  assert (Hl : Z.of_nat (length hashes) = CHUNK).
  { unfold tree_root in Hroot. case_bool_decide as E; [done|].
    by destruct (decide (Z.of_nat (length hashes) = CHUNK)). }
  rewrite (tree_root_mtree hashes Hl) in Hroot. apply (inj Some) in Hroot. subst root.
  assert (Hlt : (Z.to_nat pos < length hashes)%nat) by (by eapply lookup_lt_Some).
  assert (Hlen : length (leaf <$> hashes) = (2 ^ LEVELS)%nat).
  { rewrite length_fmap. pose proof pow2_LEVELS. lia. }
  assert (Hleaf : (leaf <$> hashes) !! Z.to_nat pos = Some (leaf h)) by (by rewrite list_lookup_fmap, Hh).
  pose proof (digests_leaves Hd hashes) as Hdig.
  assert (Hp : bool_decide (CHUNK <= pos) = false) by (apply bool_decide_false; lia). split.
  - eexists. unfold path_for. rewrite Hp, bool_decide_false by (by intros []). split; [done|].
    pose proof (climb_path_for Hd Hby Hhex _ _ _ _ Hlen Hdig (bytes_leaves Hby hashes) Hleaf) as Hclimb.
    rewrite Z2Nat.id in Hclimb by done. unfold path_ok. rewrite Hp, Hclimb.
    rewrite bool_decide_false; [by apply bool_decide_eq_true|].
    intros Hne. apply Hne. exact (length_path_loop LEVELS _ _ Hlen).
  - intros h' path. unfold path_ok. rewrite Hp, orb_false_r.
    destruct (bool_decide (length path <> LEVELS)) eqn:Hpl; [done|]. apply bool_decide_eq_false in Hpl.
    destruct (climb_path path pos (leaf h')) as [cur|] eqn:Ec; [|done].
    intros ->%bool_decide_eq_true. rewrite <-(Z2Nat.id pos) in Ec by done.
    apply (climb_path_sound Hd) in Ec as [E|]; [|by right|done|done| | |apply Hd].
    + rewrite Hleaf in E. injection E as E. symmetry in E. by apply leaf_inj in E.
    + by destruct (decide (length path = LEVELS)).
    + rewrite <-Hlen, length_fmap. done.
Qed.
End Theorems.

(** ** Witnesses *)

Module HistoryDemo.
(** A stand-in for BLAKE3: the sum of the input, as 32 bytes. *)
Definition crypto : CryptoPrims :=
  {| blake2s d := []; blake3 d := to_le_bytes 32 (foldl (fun a x => a * 31 + x) 7 d);
     ed25519_verify _ _ _ := Ok false; ml_dsa_verify _ _ _ := false; slh_dsa_verify _ _ _ := Ok false;
     ed25519_sign _ _ := []; ml_dsa_sign _ _ := [] |}.
Definition chain : ChainPrims :=
  {| hex_encode := Hex.encode; hex_decode := Hex.decode; bech32m_encode _ _ := None;
     dalek_verify _ _ _ := false |}.
Definition hashes : list string := replicate (Z.to_nat CHUNK) "0a0b"%string.

Lemma length_hashes : Z.of_nat (length hashes) = CHUNK.
Proof. unfold hashes. by rewrite length_replicate, Z2Nat.id. Qed.
End HistoryDemo.

#[local] Existing Instance HistoryDemo.crypto.
#[local] Existing Instance HistoryDemo.chain.

(** The third chunk, into an empty index. *)
Lemma history_root_matches_witness :
  exists ov', push_all (ov_new ∅) (2 * CHUNK) HistoryDemo.hashes = Some ov' /\
    is_Some (tree_root HistoryDemo.hashes) /\ chunk_root ov' 2 = tree_root HistoryDemo.hashes /\
    (forall h x, 0 <= h < (2 + 1) * CHUNK -> push ov' h x = Some ov') /\
    push_start ov' ((2 + 1) * CHUNK) = inr (frontier_fresh (2 + 1) 0).
Proof.
  refine (history_root_matches (ov_new ∅) 2 HistoryDemo.hashes _ _ _ _ HistoryDemo.length_hashes).
  - intros d. apply length_to_le_bytes.
  - lia.
  - unfold CHUNK, u64_max. lia.
  - vm_compute. reflexivity.
Defined.

Lemma history_paths_exact_witness :
  (exists path, path_for HistoryDemo.hashes 5 = Some path /\
     path_ok "0a0b" 5 path (mtree LEVELS (leaf <$> HistoryDemo.hashes)) = true) /\
  (forall h' path, path_ok h' 5 path (mtree LEVELS (leaf <$> HistoryDemo.hashes)) = true ->
     hash_bytes h' = hash_bytes "0a0b" \/ blake3_collision).
Proof.
  refine (history_paths_exact HistoryDemo.hashes 5 "0a0b" (mtree LEVELS (leaf <$> HistoryDemo.hashes))
            _ _ _ _ _ (tree_root_mtree _ HistoryDemo.length_hashes)).
  - intros d. apply length_to_le_bytes.
  - intros d. apply to_le_bytes_byte.
  - apply Hex.decode_encode.
  - lia.
  - apply lookup_replicate. split; [done|]. unfold CHUNK. lia.
Defined.
