(* ===== verification/RuleText.v ===== *)
(** * What the chain rules share

    String functions of the standard library the rule files use, the order of
    their B-trees, and the predicate on transactions two of them share, with the
    facts the proofs about the rules use. *)
From stdpp Require Import pretty.
From Stdlib Require Import Ascii.
From S2P Require Import Prelude Crypto Ledger LedgerFacts.
Local Open Scope string_scope.
Local Open Scope list_scope.
Local Open Scope Z_scope.
Local Open Scope ego_scope.

(** ** Strings *)

(** [bytes().all(p)]. *)
Definition all_bytes (p : Z -> bool) (s : string) : bool := forallb p (ascii_bytes s).

Definition is_lower (b : Z) : bool := (97 <=? b) && (b <=? 122).
Definition is_digit (b : Z) : bool := (48 <=? b) && (b <=? 57).
Definition is_hexdigit (b : Z) : bool :=
  is_digit b || ((97 <=? b) && (b <=? 102)) || ((65 <=? b) && (b <=? 70)).

(** [str::strip_prefix]. *)
Fixpoint strip_prefix (p s : string) : option string :=
  match p, s with
  | EmptyString, _ => Some s
  | String c p, String d s => if bool_decide (c = d) then strip_prefix p s else None
  | String _ _, EmptyString => None
  end.

(** [str::split_once] at a character. *)
Fixpoint split_once (c : Ascii.ascii) (s : string) : option (string * string) :=
  match s with
  | EmptyString => None
  | String d s =>
      if bool_decide (c = d) then Some (EmptyString, s)
      else '(a, b) ← split_once c s; Some (String d a, b)
  end.

(** [&s[n..]]. *)
Definition skip (n : nat) (s : string) : string := String.substring n (String.length s - n) s.

(** The white space of [char::is_whitespace] that takes two or three bytes. *)
Definition white2 (b c : Z) : bool := bool_decide (b = 0xC2) && bool_decide (c = 0x85 \/ c = 0xA0).
Definition white3 (b c d : Z) : bool :=
  bool_decide (b = 0xE1 /\ c = 0x9A /\ d = 0x80) ||
  (bool_decide (b = 0xE2 /\ c = 0x80) &&
   (bool_decide (0x80 <= d <= 0x8A) || bool_decide (d = 0xA8 \/ d = 0xA9 \/ d = 0xAF))) ||
  bool_decide (b = 0xE2 /\ c = 0x81 /\ d = 0x9F) || bool_decide (b = 0xE3 /\ c = 0x80 /\ d = 0x80).

(** The text after its leading white space, in UTF-8. *)
Fixpoint skip_white (l : bytes) : bytes :=
  match l with
  | [] => []
  | b :: l1 =>
      if bool_decide (9 <= b <= 13) || bool_decide (b = 32) then skip_white l1
      else
        match l1 with
        | [] => l
        | c :: l2 =>
            if white2 b c then skip_white l2
            else
              match l2 with
              | [] => l
              | d :: l3 => if white3 b c d then skip_white l3 else l
              end
        end
  end.

(** [s.trim().is_empty()]. *)
Definition blank (s : string) : bool := bool_decide (skip_white (ascii_bytes s) = []).

Fixpoint string_of_bytes (b : bytes) : string :=
  match b with
  | [] => EmptyString
  | x :: b => String (Ascii.ascii_of_nat (Z.to_nat x)) (string_of_bytes b)
  end.

(** [str::trim]. *)
Fixpoint trim_end (s : string) : string :=
  match s with
  | EmptyString => EmptyString
  | String c s' => if blank s then EmptyString else String c (trim_end s')
  end.
Definition trim (s : string) : string := trim_end (string_of_bytes (skip_white (ascii_bytes s))).

(** The value of 64 bits read as signed, and the sum of two [i64], which wraps. *)
Definition as_signed (x : Z) : Z := (x - i64_min) mod (u64_max + 1) + i64_min.
Definition iadd (a b : Z) : Z := as_signed (a + b).

(** The elements of a [BTreeSet<String>] and the entries of a [BTreeMap<String, _>]
    in ascending order. *)
Definition btree_set (s : gset string) : list string := stable_sort String.leb (elements s).
Definition btree_map {A} (m : gmap string A) : list (string * A) :=
  stable_sort (fun x y => String.leb x.1 y.1) (map_to_list m).

(** [i64::saturating_add]. *)
Definition isat_add (a b : Z) : Z := Z.max i64_min (Z.min i64_max (a + b)).

(** [x.max(0) as u64], of an integer of 128 bits. *)
Definition clamp64 (b : Z) : Z := Z.max 0 b mod (u64_max + 1).

(** [str::ends_with] and [str::contains]. *)
Definition ends_with (s p : string) : bool :=
  bool_decide (String.length p <= String.length s)%nat &&
  bool_decide (String.substring (String.length s - String.length p) (String.length p) s = p).

Fixpoint contains (s p : string) : bool :=
  String.prefix p s || match s with EmptyString => false | String _ s => contains s p end.

(** [hold_chain::is_settle]. *)
Definition is_settle (tx : LedgerTx) : bool := bool_decide (tx.(tx_type) = "hold_settle").

(** [EgoAddress::from_public_key_bytes] of an externally owned account, as the 21
    bytes [to_bech32] encodes: the version and type, then 20 bytes of the digest. *)
Definition ego_address `{CryptoPrims} (pk : bytes) (chain_id : Z) : bytes :=
  Z.lor (Z.shiftl 1 5) (Z.land 0 31) ::
  take 20 (blake2s (ascii_bytes "ego/addr/v1" ++ u32_le chain_id ++ pk)).

(** ** Lemmas the proofs about chain rules share *)

(** ** Keys *)

Lemma ascii_bytes_inj a b : ascii_bytes a = ascii_bytes b -> a = b.
Proof.
  revert b; induction a as [|c a IH]; intros [|d b]; cbn; try done.
  intros [= Hc Hr]. f_equal; [|by apply IH].
  rewrite <-(ascii_nat_embedding c), <-(ascii_nat_embedding d). f_equal. lia.
Qed.

(** Addresses have no colon, so they can be told apart inside a key. *)
Definition no_colon (s : string) : bool := all_bytes (fun b => negb (b =? 58)) s.

Lemma ascii_bytes_app a b : ascii_bytes (a +:+ b) = ascii_bytes a ++ ascii_bytes b.
Proof. induction a as [|c a IH]; [done|]. change (String c a +:+ b) with (String c (a +:+ b)). cbn. by rewrite IH. Qed.

Lemma colon_split a b x y :
  no_colon a = true -> no_colon b = true -> a +:+ ":" +:+ x = b +:+ ":" +:+ y -> a = b /\ x = y.
Proof.
  revert b; induction a as [|c a IH]; intros [|d b] Ha Hb E; cbn in E.
  - by injection E as E.
  - by injection E as <- _.
  - by injection E as -> _.
  - unfold no_colon, all_bytes in *. cbn in Ha, Hb. apply andb_prop in Ha as [_ Ha], Hb as [_ Hb].
    injection E as -> E. by apply (IH b) in E as [-> ->].
Qed.

(** ** Reading and writing the overlay *)

Lemma fold_get_ne {A} (f : Ov -> A -> Ov) (l : list A) k ov :
  (forall ov a, a ∈ l -> ov_get k (f ov a) = ov_get k ov) -> ov_get k (foldl f ov l) = ov_get k ov.
Proof.
  revert ov; induction l as [|a l IH]; intros ov Hf; [done|]. cbn [foldl].
  rewrite IH by (intros; apply Hf; set_solver). apply Hf. set_solver.
Qed.

Lemma Ok_inj {T E} (a b : T) : Ok (E := E) a = Ok b -> a = b.
Proof. congruence. Qed.

(** Unfold one operation that succeeded. *)
Ltac op_cases :=
  repeat match goal with
  | Hr : result_bind _ _ = Ok _ |- _ => apply result_bind_Ok in Hr as (? & ? & Hr)
  | Hr : ok_or ?o _ = Ok _ |- _ => destruct o eqn:?; cbn [ok_or] in Hr; [apply Ok_inj in Hr; subst|discriminate Hr]
  | Hr : (if ?b then _ else _) = Ok _ |- _ => destruct b eqn:?
  | Hr : match ?o with Some _ => _ | None => _ end = Ok _ |- _ => destruct o eqn:?
  | Hr : Err _ = Ok _ |- _ => discriminate Hr
  | Hr : Ok _ = Ok _ |- _ => apply Ok_inj in Hr; subst
  end.

Lemma load_save {A} `{Json A} `{!JsonRoundTrip A} ov k (a : A) : load (save ov k a) k = Some a.
Proof. unfold load, save. rewrite ov_get_put_eq. cbn. by rewrite from_to_json. Qed.

Lemma load_same {A} `{Json A} ov ov' k :
  ov_get k ov' = ov_get k ov -> load (A := A) ov' k = load ov k.
Proof. intros E. unfold load. by rewrite E. Qed.

(** ** Concrete encodings *)

(** An encoding of any countable type that reads what it writes. *)
Definition count_json {A} `{Countable A} : Json A :=
  {| to_json a := [Z.pos (encode a)];
     from_json b := match b with
                    | [Z.pos p] => ok_or (decode p) "unreadable"
                    | _ => Err "unreadable"
                    end |}.

Lemma count_json_rt {A} `{Countable A} : @JsonRoundTrip A count_json.
Proof. intros a. cbn. by rewrite decode_encode. Qed.

(** A body is read by its name. *)
Definition named_json {A} (name : string) (a : A) : Json A :=
  {| to_json _ := ascii_bytes name;
     from_json b := if bool_decide (b = ascii_bytes name) then Ok a else Err "unreadable" |}.
