(* ===== verification/Totals.v ===== *)
(** * Totals

    Maps from addresses to amounts: the entry of an address, the sum of a map's
    values, and how the sum follows the entries. *)
From S2P Require Import Prelude.
Local Open Scope string_scope.
Local Open Scope list_scope.
Local Open Scope Z_scope.

(** ** The total of a map of amounts *)

(** The entry of an address, zero when there is none. *)
Definition at_ (m : gmap string Z) (a : string) : Z := default 0 (m !! a).

(** The sum of the values, such as [deltas.values().sum()]. *)
Definition mtotal (m : gmap string Z) : Z := zsum (map_to_list m).*2.

Lemma mtotal_empty : mtotal ∅ = 0.
Proof. unfold mtotal. by rewrite map_to_list_empty. Qed.

Lemma mtotal_delete m k v : m !! k = Some v -> mtotal m = v + mtotal (delete k m).
Proof.
  intros E. unfold mtotal. rewrite <-(zsum_cons v). apply zsum_perm.
  change (v :: (map_to_list (delete k m)).*2) with ((k, v) :: map_to_list (delete k m)).*2.
  by rewrite (map_to_list_delete m k v E).
Qed.

Lemma mtotal_insert m k v w : m !! k = Some v -> mtotal (<[ k := w ]> m) = mtotal m - v + w.
Proof.
  intros E. rewrite (mtotal_delete m k v E), (mtotal_delete (<[ k := w ]> m) k w) by apply lookup_insert_eq.
  rewrite delete_insert_eq. lia.
Qed.

Lemma mtotal_zero (X : gset string) : mtotal (gset_to_gmap 0 X) = 0.
Proof.
  unfold mtotal. assert (forall l : list Z, (forall x, x ∈ l -> x = 0) -> zsum l = 0) as Hz.
  { induction l as [|x l IH]; intros Hl; [done|].
    rewrite zsum_cons, (Hl x) by set_solver. rewrite IH; [done|set_solver]. }
  apply Hz. intros x ([k v] & -> & Hin%elem_of_map_to_list)%list_elem_of_fmap.
  by apply lookup_gset_to_gmap_Some in Hin as [_ <-].
Qed.

(** ** Entries *)

Lemma at_empty a : at_ ∅ a = 0.
Proof. unfold at_. by rewrite lookup_empty. Qed.

Lemma at_insert_eq m a n : at_ (<[ a := n ]> m) a = n.
Proof. unfold at_. by rewrite lookup_insert_eq. Qed.

Lemma at_insert_ne m a b n : a <> b -> at_ (<[ a := n ]> m) b = at_ m b.
Proof. intros Hab. unfold at_. by rewrite lookup_insert_ne. Qed.

Lemma at_insert m a b n : at_ (<[ a := n ]> m) b = if bool_decide (a = b) then n else at_ m b.
Proof. case_bool_decide; subst; [apply at_insert_eq|by apply at_insert_ne]. Qed.

Lemma at_delete m a b : at_ (delete a m) b = if bool_decide (a = b) then 0 else at_ m b.
Proof.
  unfold at_. case_bool_decide; subst; [by rewrite lookup_delete_eq|by rewrite lookup_delete_ne].
Qed.

Lemma at_not_dom m a : a ∉ dom m -> at_ m a = 0.
Proof. intros Ha%not_elem_of_dom. unfold at_. by rewrite Ha. Qed.

(** ** Totals from entries *)

(** The total is the sum of the entries over any set that covers the map. *)
Lemma mtotal_over (X : gset string) m : dom m ⊆ X -> mtotal m = zsum (at_ m <$> elements X).
Proof.
  revert X. induction m as [|k v m Hk IH] using map_ind; intros X HX.
  - unfold at_. rewrite (list_fmap_ext _ (fun _ => 0) (elements X)) by (intros ??; by rewrite lookup_empty).
    rewrite zsum_const. unfold mtotal. rewrite map_to_list_empty. simpl. lia.
  - rewrite (mtotal_delete (<[ k := v ]> m) k v) by apply lookup_insert_eq.
    rewrite delete_insert_id by done. rewrite dom_insert in HX.
    assert (Hdom : dom m ⊆ X ∖ {[ k ]}).
    { intros x Hx. assert (x <> k) by (intros ->; by apply elem_of_dom in Hx as [? ?]; congruence). set_solver. }
    rewrite (IH _ Hdom). assert (HXk : {[ k ]} ∪ (X ∖ {[ k ]}) = X).
    { apply leibniz_equiv_iff. rewrite <-union_difference; set_solver. }
    rewrite <-HXk at 2.
    rewrite (zsum_perm _ _ (fmap_Permutation _ _ _ (elements_union_singleton (X ∖ {[ k ]}) k ltac:(set_solver)))).
    rewrite fmap_cons, zsum_cons, at_insert_eq. f_equal. f_equal. apply list_fmap_ext.
    intros i x Hx%list_elem_of_lookup_2%elem_of_elements. rewrite at_insert_ne; [done|set_solver].
Qed.

Lemma zsum_fmap_add {A} (f g : A -> Z) (l : list A) :
  zsum ((fun x => f x + g x) <$> l) = zsum (f <$> l) + zsum (g <$> l).
Proof. induction l as [|x l IH]; [done|]. rewrite !fmap_cons, !zsum_cons, IH. lia. Qed.

Lemma zsum_fmap_elem {A} (f : A -> Z) (l : list A) x :
  x ∈ l -> (forall y, y ∈ l -> 0 <= f y) -> f x <= zsum (f <$> l).
Proof.
  induction l as [|y l IH]; [set_solver|]. intros Hx Hl. rewrite fmap_cons, zsum_cons.
  assert (0 <= zsum (f <$> l)).
  { apply zsum_nonneg, Forall_fmap, Forall_forall. intros z Hz. apply Hl. set_solver. }
  pose proof (Hl y ltac:(set_solver)). apply elem_of_cons in Hx as [->|Hx]; [lia|].
  assert (f x <= zsum (f <$> l)) by (apply IH; set_solver). lia.
Qed.

Lemma mtotal_add m a n : mtotal (<[ a := at_ m a + n ]> m) = mtotal m + n.
Proof.
  unfold at_. destruct (m !! a) as [v|] eqn:E; simpl.
  - rewrite (mtotal_insert _ _ v) by done. lia.
  - rewrite (mtotal_delete (<[ a := n ]> m) a n) by apply lookup_insert_eq.
    rewrite delete_insert_id by done. lia.
Qed.

(** Two maps of which a third is the entry-wise sum. *)
Lemma mtotal_plus m d r : (forall a, at_ r a = at_ m a + at_ d a) -> mtotal r = mtotal m + mtotal d.
Proof.
  intros Hr. set (X := dom m ∪ dom d ∪ dom r).
  rewrite (mtotal_over X m), (mtotal_over X d), (mtotal_over X r), <-zsum_fmap_add by (subst X; set_solver).
  f_equal. apply list_fmap_ext. intros _ a _. apply Hr.
Qed.

(** No entry passes the total when none of the sums is negative. *)
Lemma mtotal_bound m d a :
  (forall b, 0 <= at_ m b + at_ d b) -> at_ m a + at_ d a <= mtotal m + mtotal d.
Proof.
  intros Hpos. set (X := {[ a ]} ∪ dom m ∪ dom d).
  rewrite (mtotal_over X m), (mtotal_over X d), <-zsum_fmap_add by (subst X; set_solver).
  apply (zsum_fmap_elem (fun b => at_ m b + at_ d b)); [|auto].
  apply elem_of_elements. subst X. set_solver.
Qed.

Lemma at_le_total m a : (forall b, 0 <= at_ m b) -> at_ m a <= mtotal m.
Proof.
  intros Hm. pose proof (mtotal_bound m ∅ a) as Hb. rewrite at_empty, mtotal_empty, !Z.add_0_r in Hb.
  apply Hb. intros b. rewrite at_empty, Z.add_0_r. apply Hm.
Qed.
