(* ===== verification/StorageProof.v ===== *)
(** * Proofs of storage

    Model of [ego-desktop/src-tauri/src/proof.rs] (the Merkle tree over the pieces of
    a file, commitments, challenges and their answers) and of [storage_proof.rs] (the
    transaction that carries the answers, and its check against the chain), with what
    they show: an honest host is always accepted; answers whose paths reach from the
    leaves to the root are those of the data; and paths that do not, which the code
    accepts as well, prove nothing.

    A [usize] that comes from a transaction is a [Z] of 64 bits; [None] is a panic. *)
From stdpp Require Import pretty.
From S2P Require Import Prelude Crypto Ledger LedgerFacts RuleText.
Local Open Scope string_scope.
Local Open Scope list_scope.
Local Open Scope Z_scope.
Local Open Scope ego_scope.

Definition CHUNK_SIZE : nat := 1024.
Definition POST_N_CHALLENGES : nat := 8.
Definition POREP_TAG : bytes := ascii_bytes "ego/porep/v1".
Definition POST_PROOF_TX : string := "post_proof".
Definition SEED_DOMAIN : bytes := ascii_bytes "ego/post-challenge/v1:".
Definition CHALLENGE_MAX_AGE : Z := 100.
Definition CHALLENGE_MIN_AGE : Z := 1.

Record MerkleTree : Type := MkTree {
  root : bytes;
  nodes : list bytes;
  n_padded : nat;
  n_real : nat;
}.

Record MerkleProof : Type := MkProof {
  mp_leaf_index : Z;
  mp_leaf : bytes;
  mp_path : list bytes;
}.

Record PoRepCommitment : Type := MkPoRep {
  pr_comm_d : bytes;
  comm_r : bytes;
  replica_id : bytes;
  pr_n_real_leaves : nat;
  pr_n_padded_leaves : nat;
}.

Record ProofLeaf : Type := MkProofLeaf {
  leaf_index : Z;
  pl_leaf : string;
  path : list string;
  chunk : string;
}.

Record PostProofBody : Type := MkBody {
  cid : string;
  comm_d : string;
  n_real_leaves : Z;
  n_padded_leaves : Z;
  challenge_height : Z;
  proofs : list ProofLeaf;
}.

Record BlockEntry : Type := MkBlockEntry {
  block_cid : string;
  nonce_hex : string;
  size : Z;
  be_comm_r : string;
}.

Record FileManifest : Type := MkManifest {
  manifest_cid : string;
  file_name : string;
  total_size : Z;
  blocks : list BlockEntry;
}.

(** Of [chain_db.rs]: what the owner of a file recorded of it. *)
Record StorageFileRecord : Type := MkFileRecord {
  fr_cid : string;
  fr_comm_d : string;
  fr_n_real_leaves : Z;
  fr_n_padded_leaves : Z;
  fr_bytes : Z;
}.

Record RecordedStorageFile : Type := MkRecorded {
  rf_owner : string;
  record : StorageFileRecord;
  rf_height : Z;
}.

(** [data.chunks(CHUNK_SIZE)], which the loop of [build_from_reader] cuts as well. *)
Fixpoint chunks_fuel (n : nat) (d : bytes) : list bytes :=
  match n with
  | O => []
  | S n => if bool_decide (d = []) then [] else take CHUNK_SIZE d :: chunks_fuel n (drop CHUNK_SIZE d)
  end.
Definition chunks (d : bytes) : list bytes := chunks_fuel (length d) d.

(** [usize::next_power_of_two] of a positive number. *)
Definition next_power_of_two (n : nat) : nat := 2 ^ Nat.log2_up n.

Section Proofs.
Context `{CryptoPrims}.

(** ** The tree *)

Definition leaf_hash (c : bytes) : bytes := blake3 c.
Definition hash_pair (left right : bytes) : bytes := blake3 (left ++ right).

(** An index that is in range. *)
Definition at_node (l : list bytes) (i : nat) : bytes := default ZERO_HASH (l !! i).

(** The leaves are written at [n], [n + 1], ... *)
Fixpoint put_leaves (n : nat) (leaves : list bytes) (l : list bytes) : list bytes :=
  match leaves with
  | [] => l
  | x :: leaves => put_leaves (S n) leaves (<[n := x]> l)
  end.

(** The inner nodes [i], [i - 1], ..., 1. *)
Fixpoint fill (i : nat) (l : list bytes) : list bytes :=
  match i with
  | O => l
  | S j => fill j (<[i := hash_pair (at_node l (2 * i)) (at_node l (2 * i + 1))]> l)
  end.

Definition from_leaves (leaves : list bytes) : MerkleTree :=
  let real := Nat.max (length leaves) 1 in
  let padded := next_power_of_two real in
  let l := replicate (2 * padded + 1) ZERO_HASH in
  let l := put_leaves padded leaves l in
  let l := fill (padded - 1) l in
  MkTree (at_node l 1) l padded real.

Definition build (data : bytes) : MerkleTree := from_leaves (leaf_hash <$> chunks data).

(** The loop of [proof]; [None] is an index out of range, or no fuel. *)
Fixpoint siblings (fuel : nat) (l : list bytes) (pos : nat) : option (list bytes) :=
  if bool_decide (pos <= 1)%nat then Some []
  else
    match fuel with
    | O => None
    | S fuel =>
        x ← l !! (if bool_decide (pos mod 2 = 0)%nat then pos + 1 else pos - 1)%nat;
        rest ← siblings fuel l (pos / 2)%nat;
        Some (x :: rest)
    end.

Definition proof (idx : nat) (t : MerkleTree) : option MerkleProof :=
  let pos := (t.(n_padded) + idx)%nat in
  leaf ← t.(nodes) !! pos;
  p ← siblings pos t.(nodes) pos;
  Some (MkProof (Z.of_nat idx) leaf p).

(** The loop of [verify]. *)
Fixpoint climb (p : list bytes) (pos : Z) (current : bytes) : bytes :=
  match p with
  | [] => current
  | sibling :: p =>
      climb p (pos / 2)
        (if bool_decide (pos mod 2 = 0) then hash_pair current sibling else hash_pair sibling current)
  end.

Definition verify (top : bytes) (padded : Z) (p : MerkleProof) : bool :=
  bool_decide (climb p.(mp_path) ((padded + p.(mp_leaf_index)) mod (u64_max + 1)) p.(mp_leaf) = top).

Definition compute_porep_commitment (enc_bytes : bytes) (prover_addr file : string) : PoRepCommitment :=
  let t := build enc_bytes in
  let id := blake3 (ascii_bytes prover_addr ++ ascii_bytes ":" ++ ascii_bytes file) in
  MkPoRep t.(root) (blake3 (t.(root) ++ id ++ POREP_TAG)) id t.(n_real) t.(n_padded).

(** ** Challenges *)

Definition challenge_index (seed : bytes) (real : Z) (i : nat) : Z :=
  from_le_bytes (take 8 (blake3 (seed ++ u64_le (Z.of_nat i)))) mod real.

(** A remainder by zero panics. *)
Definition derive_challenge_indices (seed : bytes) (real : Z) : option (list Z) :=
  if bool_decide (real = 0) then None
  else Some (challenge_index seed real <$> seq 0 POST_N_CHALLENGES).

Definition generate_post_proofs (enc_bytes seed : bytes) (real : Z) : option (list MerkleProof) :=
  let t := build enc_bytes in
  indices ← derive_challenge_indices seed real;
  mapM (fun i => proof (Z.to_nat i) t) indices.

Definition verify_post_proofs (ps : list MerkleProof) (top seed : bytes) (real padded : Z) : option bool :=
  if bool_decide (length ps <> POST_N_CHALLENGES) then Some false
  else
    expected ← derive_challenge_indices seed real;
    Some (forallb (fun '(p, i) => bool_decide (p.(mp_leaf_index) = i) && verify top padded p) (zip ps expected)).

(** ** The transaction *)

Context `{ChainPrims} `{Json PostProofBody}.

Definition hex32 (s : string) : option bytes :=
  b ← hex_decode (trim s); if bool_decide (length b = 32%nat) then Some b else None.

Definition chunk_matches (p : ProofLeaf) : bool :=
  match hex_decode p.(chunk), hex32 p.(pl_leaf) with
  | Some c, Some l =>
      negb (bool_decide (c = [])) && bool_decide (length c <= CHUNK_SIZE)%nat && bool_decide (leaf_hash c = l)
  | _, _ => false
  end.

Definition chunks_match (b : PostProofBody) : bool :=
  negb (bool_decide (b.(proofs) = [])) && forallb chunk_matches b.(proofs).

Definition bytes_proven (b : PostProofBody) : Z := Z.min u64_max (b.(n_real_leaves) * Z.of_nat CHUNK_SIZE).

Definition challenge_seed (block_hash file prover : string) : bytes :=
  blake3 (SEED_DOMAIN ++ ascii_bytes block_hash ++ ascii_bytes ":" ++ ascii_bytes file
          ++ ascii_bytes ":" ++ ascii_bytes prover).

(** What [ManifestReader] reads: the blocks in order; [load_block] is a file. *)
Definition manifest_bytes (load_block : string -> result bytes string) (m : FileManifest) : result bytes string :=
  foldr (fun e rest => let? b := load_block e.(block_cid) in let? rest := rest in Ok (b ++ rest)) (Ok []) m.(blocks).

(** [manifest_commitment]; the sizes of the files come from the file system. *)
Definition manifest_commitment (load_block : string -> result bytes string)
    (file_size : string -> result Z string) (m : FileManifest) : result (string * Z * Z * Z) string :=
  let? data := manifest_bytes load_block m in
  let t := build data in
  let? total := foldl (fun acc e => let? acc := acc in let? n := file_size e.(block_cid) in
                                    Ok ((acc + n) mod (u64_max + 1))) (Ok 0) m.(blocks) in
  Ok (hex_encode t.(root), Z.of_nat t.(n_real), Z.of_nat t.(n_padded), total).

(** One answer of [manifest_proof], with the piece itself. *)
Definition answer (data : bytes) (t : MerkleTree) (i : Z) : option ProofLeaf :=
  p ← proof (Z.to_nat i) t;
  Some (MkProofLeaf p.(mp_leaf_index) (hex_encode p.(mp_leaf)) (hex_encode <$> p.(mp_path))
          (hex_encode (default [] (chunks data !! Z.to_nat i)))).

Definition proof_of_data (data : bytes) (file prover : string) (height : Z) (block_hash : string)
    : option PostProofBody :=
  let t := build data in
  indices ← derive_challenge_indices (challenge_seed block_hash file prover) (Z.of_nat t.(n_real));
  answers ← mapM (answer data t) indices;
  Some (MkBody file (hex_encode t.(root)) (Z.of_nat t.(n_real)) (Z.of_nat t.(n_padded)) height answers).

Definition manifest_proof (load_block : string -> result bytes string) (m : FileManifest)
    (file prover : string) (height : Z) (block_hash : string) : result (option PostProofBody) string :=
  let? data := manifest_bytes load_block m in
  Ok (proof_of_data data file prover height block_hash).

Definition parse_body (args : string) : result PostProofBody string :=
  match from_json (ascii_bytes args) with
  | Err e => Err ("proof body is not readable: " +:+ e)
  | Ok b =>
      if bool_decide (trim b.(cid) = "") then Err "proof names no file"
      else if bool_decide (b.(n_real_leaves) = 0) || bool_decide (b.(n_padded_leaves) < b.(n_real_leaves))
      then Err ("proof claims " +:+ pretty b.(n_real_leaves) +:+ " real leaves inside "
                +:+ pretty b.(n_padded_leaves) +:+ " padded")
      else if bool_decide (length b.(proofs) <> POST_N_CHALLENGES)
      then Err ("proof answers " +:+ pretty (Z.of_nat (length b.(proofs))) +:+ " challenges, not "
                +:+ pretty (Z.of_nat POST_N_CHALLENGES))
      else Ok b
  end.

Definition to_merkle_proof (p : ProofLeaf) : result MerkleProof string :=
  let? l := ok_or (hex32 p.(pl_leaf)) "a proof leaf is not 32 bytes of hex" in
  let? q := ok_or (mapM hex32 p.(path)) "a proof path entry is not 32 bytes of hex" in
  Ok (MkProof p.(leaf_index) l q).

Fixpoint to_merkle_proofs (l : list ProofLeaf) : result (list MerkleProof) string :=
  match l with
  | [] => Ok []
  | p :: l => let? q := to_merkle_proof p in let? rest := to_merkle_proofs l in Ok (q :: rest)
  end.

Definition validate_against_chain (tx : LedgerTx) (tip : Z) (block_hash_at : Z -> option string)
    : option (result Z string) :=
  if bool_decide (tx.(tx_type) <> POST_PROOF_TX) then Some (Err "not a storage proof")
  else if bool_decide (trim tx.(tx_from) = "") then Some (Err "proof names no prover")
  else if bool_decide (tx.(tx_amount) <> 0) then Some (Err "a storage proof moves no coins")
  else
    match parse_body tx.(call_args) with
    | Err e => Some (Err e)
    | Ok b =>
        let age := sat_sub tip b.(challenge_height) in
        if bool_decide (b.(challenge_height) > tip) || bool_decide (age < CHALLENGE_MIN_AGE)
        then Some (Err ("proof answers a challenge from block " +:+ pretty b.(challenge_height)
                        +:+ " but the chain is only at " +:+ pretty tip))
        else if bool_decide (age > CHALLENGE_MAX_AGE)
        then Some (Err ("proof answers a challenge " +:+ pretty age +:+ " blocks old; only the last "
                        +:+ pretty CHALLENGE_MAX_AGE +:+ " count"))
        else
          match block_hash_at b.(challenge_height) with
          | None => Some (Err ("this node has no block " +:+ pretty b.(challenge_height)
                               +:+ " to check the challenge against"))
          | Some block_hash =>
              match hex32 b.(comm_d) with
              | None => Some (Err "comm_d is not 32 bytes of hex")
              | Some top =>
                  match to_merkle_proofs b.(proofs) with
                  | Err e => Some (Err e)
                  | Ok ps =>
                      ok ← verify_post_proofs ps top (challenge_seed block_hash b.(cid) tx.(tx_from))
                             b.(n_real_leaves) b.(n_padded_leaves);
                      Some (if (ok : bool) then Ok (bytes_proven b)
                            else Err "the proof does not answer this chain's challenge")
                  end
              end
          end
    end.

(** [storage_proof_earns_in] of [chain_db.rs]: whether a proof counts toward pay. *)
Definition storage_proof_earns_in (recorded : string -> option RecordedStorageFile) (tx : LedgerTx) : option string :=
  match parse_body tx.(call_args) with
  | Err _ => None
  | Ok b =>
      r ← recorded b.(cid);
      if negb (bool_decide (r.(rf_owner) = tx.(tx_from))) && bool_decide (r.(record).(fr_comm_d) = b.(comm_d))
         && bool_decide (r.(record).(fr_n_real_leaves) = b.(n_real_leaves))
         && bool_decide (r.(record).(fr_n_padded_leaves) = b.(n_padded_leaves)) && chunks_match b
      then Some b.(cid) else None
  end.
End Proofs.

(** ** Facts about the tree *)

Section Tree.
Context `{CryptoPrims}.
Implicit Types l : list bytes.

(** 32 bytes, as BLAKE3 returns. *)
Definition digest (x : bytes) : Prop := length x = 32%nat /\ Forall in_u8 x.

Context (blake3_digest : forall d, digest (blake3 d)).

Lemma node_insert l i j x :
  (i < length l)%nat -> at_node (<[i := x]> l) j = if bool_decide (i = j) then x else at_node l j.
Proof.
  intros Hi. unfold at_node. case_bool_decide as E; [subst; by rewrite list_lookup_insert_eq|].
  by rewrite list_lookup_insert_ne.
Qed.

Lemma length_fill i l : length (fill i l) = length l.
Proof. revert l. induction i as [|i IH]; intros l; [done|]. simpl. by rewrite IH, length_insert. Qed.

Lemma length_put_leaves n leaves l : length (put_leaves n leaves l) = length l.
Proof. revert n l. induction leaves as [|x leaves IH]; intros n l; [done|]. simpl. by rewrite IH, length_insert. Qed.

Lemma fill_above i l j : (i < j)%nat -> (i < length l)%nat -> at_node (fill i l) j = at_node l j.
Proof.
  revert l. induction i as [|i IH]; intros l Hij Hl; [done|]. simpl.
  rewrite IH by (rewrite ?length_insert; lia). rewrite node_insert by done. by rewrite bool_decide_false by lia.
Qed.

(** Every inner node that was filled is the hash of its children. *)
Lemma fill_node i l j :
  (1 <= j <= i)%nat -> (2 * i + 1 < length l)%nat ->
  at_node (fill i l) j = hash_pair (at_node (fill i l) (2 * j)) (at_node (fill i l) (2 * j + 1)).
Proof.
  revert l. induction i as [|i IH]; intros l Hj Hl; [lia|].
  cbn [fill]. set (h := hash_pair _ _). destruct (decide (j = S i)) as [->|Hne].
  - rewrite !fill_above by (rewrite ?length_insert; lia). rewrite !node_insert by lia.
    rewrite bool_decide_true by done. by rewrite !bool_decide_false by lia.
  - apply IH; [lia|rewrite length_insert; lia].
Qed.

Lemma put_leaves_at n leaves l j :
  (n + length leaves <= length l)%nat ->
  at_node (put_leaves n leaves l) j
  = if bool_decide (n <= j)%nat then default (at_node l j) (leaves !! (j - n)%nat) else at_node l j.
Proof.
  revert n l. induction leaves as [|x leaves IH]; intros n l Hl; simpl in *.
  - by case_bool_decide.
  - rewrite IH by (rewrite length_insert; lia). rewrite node_insert by lia.
    destruct (decide (j = n)) as [->|Hne].
    + rewrite (bool_decide_false (S n <= n)%nat), !bool_decide_true by lia. by rewrite Nat.sub_diag.
    + rewrite (bool_decide_false (n = j)) by done. repeat case_bool_decide; try lia; [|done].
      by replace (j - n)%nat with (S (j - S n)) by lia.
Qed.

(** What the tree of some leaves holds. *)
Record tree_of (leaves : list bytes) (t : MerkleTree) : Prop := MkTreeOf {
  to_root : root t = at_node t.(nodes) 1;
  to_length : length t.(nodes) = (2 * t.(n_padded) + 1)%nat;
  to_inner : forall i, (1 <= i < t.(n_padded))%nat ->
    at_node t.(nodes) i = hash_pair (at_node t.(nodes) (2 * i)) (at_node t.(nodes) (2 * i + 1));
  to_leaf : forall i x, leaves !! i = Some x -> at_node t.(nodes) (t.(n_padded) + i) = x;
  to_digests : Forall digest leaves -> forall i, (1 <= i)%nat -> digest (at_node t.(nodes) i);
}.

Lemma next_power_ge n : (1 <= n)%nat -> (n <= next_power_of_two n)%nat.
Proof.
  intros Hn. unfold next_power_of_two. destruct (decide (n = 1)%nat) as [->|]; [done|].
  apply Nat.log2_up_spec. lia.
Qed.

Lemma from_leaves_tree leaves : tree_of leaves (from_leaves leaves).
Proof.
  unfold from_leaves. set (real := Nat.max (length leaves) 1). set (padded := next_power_of_two real).
  assert (real <= padded)%nat as Hp by (apply next_power_ge; lia).
  set (l0 := put_leaves padded leaves (replicate (2 * padded + 1) ZERO_HASH)).
  assert (length l0 = 2 * padded + 1)%nat as Hl0 by (unfold l0; by rewrite length_put_leaves, length_replicate).
  assert (forall j, at_node l0 j = if bool_decide (padded <= j)%nat
    then default ZERO_HASH (leaves !! (j - padded)%nat) else ZERO_HASH) as Hat.
  { intros j. unfold l0. rewrite put_leaves_at by (rewrite length_replicate; lia).
    assert (at_node (replicate (2 * padded + 1) ZERO_HASH) j = ZERO_HASH) as ->; [|done].
    unfold at_node. destruct (_ !! j) as [x|] eqn:E; [|done]. by apply lookup_replicate in E as [-> _]. }
  assert (forall i, (1 <= i < padded)%nat -> at_node (fill (padded - 1) l0) i
    = hash_pair (at_node (fill (padded - 1) l0) (2 * i)) (at_node (fill (padded - 1) l0) (2 * i + 1))) as Hin.
  { intros i Hi. apply fill_node; lia. }
  split; simpl; [done| | |..]; [by rewrite length_fill|exact Hin| |].
  - intros i x Hx. rewrite fill_above by lia. rewrite Hat, bool_decide_true by lia.
    by replace (padded + i - padded)%nat with i by lia; rewrite Hx.
  - intros Hd i Hi. destruct (decide (i < padded)%nat); [rewrite Hin by lia; apply blake3_digest|].
    rewrite fill_above, Hat, bool_decide_true by lia. destruct (leaves !! _) as [x|] eqn:E; simpl; [|split; [done|repeat constructor; done]].
    by apply (Forall_lookup_1 _ _ _ _ Hd E).
Qed.

Lemma hash_pair_inj a b c d :
  length a = 32%nat -> length c = 32%nat -> hash_pair a b = hash_pair c d -> (a = c /\ b = d) \/ blake3_collision.
Proof.
  intros Ha Hc E. destruct (decide (a ++ b = c ++ d)) as [Eq|Hne]; [|right; by exists (a ++ b), (c ++ d)].
  left. apply app_inj_1 in Eq; [done|congruence].
Qed.

Lemma half_pos (pos : nat) : Z.of_nat pos / 2 = Z.of_nat (pos / 2).
Proof. by rewrite Nat2Z.inj_div. Qed.

Lemma parity (pos : nat) : bool_decide (Z.of_nat pos mod 2 = 0) = bool_decide (pos mod 2 = 0)%nat.
Proof. apply bool_decide_ext. pose proof (Nat2Z.inj_mod pos 2) as E. change (Z.of_nat 2) with 2 in E. lia. Qed.

(** The siblings of a position climb from it to the root. *)
Lemma siblings_climb leaves t fuel pos p :
  tree_of leaves t -> (1 <= pos < 2 * t.(n_padded))%nat ->
  siblings fuel t.(nodes) pos = Some p -> climb p (Z.of_nat pos) (at_node t.(nodes) pos) = root t.
Proof.
  intros Ht. revert pos p. induction fuel as [|fuel IH]; intros pos p Hpos Hp; cbn [siblings] in Hp.
  all: case_bool_decide as H1; [assert (pos = 1)%nat as -> by lia; injection Hp as <-; by rewrite (to_root _ _ Ht)|].
  { done. }
  apply bind_Some in Hp as (x & Hx & Hp). apply bind_Some in Hp as (rest & Hrest & [= <-]).
  assert (at_node t.(nodes) (if bool_decide (pos mod 2 = 0)%nat then pos + 1 else pos - 1) = x) as Hat
    by (unfold at_node; by rewrite Hx).
  pose proof (Nat.div_mod_eq pos 2). pose proof (Nat.mod_upper_bound pos 2 ltac:(lia)).
  cbn [climb]. rewrite parity, half_pos, <-(IH (pos / 2)%nat rest) by (done || lia).
  f_equal. rewrite (to_inner _ _ Ht (pos / 2)%nat) by lia. rewrite <-Hat.
  case_bool_decide; f_equal; f_equal; lia.
Qed.

(** They exist. *)
Lemma siblings_total leaves t fuel pos :
  tree_of leaves t -> (1 <= pos < 2 * t.(n_padded))%nat -> (pos <= fuel)%nat ->
  is_Some (siblings fuel t.(nodes) pos).
Proof.
  intros Ht. revert pos. induction fuel as [|fuel IH]; intros pos Hpos Hf; cbn [siblings].
  { case_bool_decide; [by eexists|lia]. }
  case_bool_decide; [by eexists|].
  pose proof (Nat.div_mod_eq pos 2). pose proof (Nat.mod_upper_bound pos 2 ltac:(lia)).
  destruct (IH (pos / 2)%nat) as [rest Hr]; [lia|lia|].
  destruct (lookup_lt_is_Some_2 t.(nodes) (if bool_decide (pos mod 2 = 0)%nat then pos + 1 else pos - 1)%nat) as [x Hx].
  { rewrite (to_length _ _ Ht). case_bool_decide; lia. }
  rewrite Hx. cbn [mbind option_bind]. rewrite Hr. by eexists.
Qed.

Lemma siblings_digests (P : bytes -> Prop) fuel l pos p :
  (forall i, (1 <= i)%nat -> P (at_node l i)) -> siblings fuel l pos = Some p -> Forall P p.
Proof.
  intros HP. revert pos p. induction fuel as [|fuel IH]; intros pos p Hp; cbn [siblings] in Hp.
  { case_bool_decide; by simplify_eq. }
  case_bool_decide; [by simplify_eq|].
  apply bind_Some in Hp as (x & Hx & Hp). apply bind_Some in Hp as (rest & Hrest & [= <-]).
  constructor; [|by eapply IH]. pose proof (HP (if bool_decide (pos mod 2 = 0)%nat then pos + 1 else pos - 1)%nat) as Hi.
  unfold at_node in Hi. rewrite Hx in Hi. apply Hi. case_bool_decide; lia.
Qed.

(** A path of full length that climbs to the root starts from the node at its position. *)
Lemma path_sound leaves t k pos p cur :
  tree_of leaves t -> Forall digest leaves ->
  (2 ^ k <= pos < 2 ^ S k)%nat -> (pos < 2 * t.(n_padded))%nat -> length p = k -> length cur = 32%nat ->
  climb p (Z.of_nat pos) cur = root t -> cur = at_node t.(nodes) pos \/ blake3_collision.
Proof.
  intros Ht Hd. revert pos p cur. induction k as [|k IH]; intros pos p cur Hk Hpos Hl Hc E.
  - destruct p; [|done]. simpl in *. assert (pos = 1)%nat as -> by lia. left. by rewrite <-(to_root _ _ Ht).
  - destruct p as [|x p]; [done|]. cbn [climb] in E. rewrite parity, half_pos in E.
    pose proof (Nat.div_mod_eq pos 2). pose proof (Nat.mod_upper_bound pos 2 ltac:(lia)).
    cbn [Nat.pow] in Hk. pose proof (Nat.pow_nonzero 2 k ltac:(done)).
    apply IH in E as [E|]; [|by right|cbn [Nat.pow]; lia|lia|by injection Hl|by case_bool_decide; apply blake3_digest].
    rewrite (to_inner _ _ Ht (pos / 2)%nat) in E by lia.
    assert (forall i, (1 <= i)%nat -> length (at_node t.(nodes) i) = 32%nat) as H32 by (intros i Hi; by apply (to_digests _ _ Ht)).
    case_bool_decide as Hev.
    + apply hash_pair_inj in E as [[E _]|]; [|by right|done|apply H32; lia]. left. rewrite E. f_equal. lia.
    + destruct (decide (length x = 32%nat)) as [Hx|Hx].
      * apply hash_pair_inj in E as [[_ E]|]; [|by right|done|apply H32; lia]. left. rewrite E. f_equal. lia.
      * right. eexists _, _. split; [|exact E]. intros Eq. apply (f_equal length) in Eq.
        rewrite !length_app, !H32, Hc in Eq by lia. lia.
Qed.
End Tree.

(** ** What the proofs show *)

(** Documented behaviour of [blake3] and [hex]. *)
Class ProofLaws `{CryptoPrims} `{ChainPrims} : Prop := {
  law_blake3 : forall d, digest (blake3 d);
  law_hex : forall b, Forall in_u8 b -> hex_decode (hex_encode b) = Some b;
  law_trim : forall b, trim (hex_encode b) = hex_encode b;
}.

Section Theorems.
Context `{CryptoPrims} `{ChainPrims} `{!ProofLaws} `{Json PostProofBody}.

Lemma hex32_encode b : digest b -> hex32 (hex_encode b) = Some b.
Proof.
  intros [Hl Hb]. unfold hex32. rewrite law_trim, law_hex by done. simpl. by rewrite bool_decide_true.
Qed.

Lemma chunks_bytes n d : Forall in_u8 d -> Forall (Forall in_u8) (chunks_fuel n d).
Proof.
  revert d. induction n as [|n IH]; intros d Hd; cbn [chunks_fuel]; [done|]. case_bool_decide; [done|].
  constructor; [by apply Forall_take|]. apply IH. by apply Forall_drop.
Qed.

Lemma chunks_sizes n d c : c ∈ chunks_fuel n d -> c <> [] /\ (length c <= CHUNK_SIZE)%nat.
Proof.
  revert d. induction n as [|n IH]; intros d Hc; cbn [chunks_fuel] in Hc; [set_solver|]. case_bool_decide; [set_solver|].
  apply elem_of_cons in Hc as [->|Hc]; [|by eapply IH]. rewrite length_take. split; [|lia].
  destruct d; [done|]. by unfold CHUNK_SIZE.
Qed.

Lemma chunks_nonempty d : d <> [] -> (1 <= length (chunks d))%nat.
Proof. destruct d as [|x d]; [done|]. intros _. unfold chunks. cbn [length chunks_fuel]. simpl. lia. Qed.

Lemma chunks_cover n d :
  (length d <= n)%nat -> (length d <= CHUNK_SIZE * length (chunks_fuel n d))%nat.
Proof.
  assert (1 <= CHUNK_SIZE)%nat as Hc by (unfold CHUNK_SIZE; lia).
  revert d. induction n as [|n IH]; intros d Hn; cbn [chunks_fuel]; [simpl; lia|].
  case_bool_decide as E; [subst; simpl; lia|]. assert (length d <> 0)%nat by by destruct d.
  specialize (IH (drop CHUNK_SIZE d)). rewrite length_drop in IH. rewrite length_cons, Nat.mul_succ_r. lia.
Qed.

Lemma build_digests d : Forall digest (leaf_hash <$> chunks d).
Proof. apply Forall_fmap, Forall_forall. intros c _. apply law_blake3. Qed.

Lemma n_real_chunks d : d <> [] -> n_real (build d) = length (chunks d).
Proof. intros Hd. unfold build, from_leaves. simpl. rewrite length_fmap. pose proof (chunks_nonempty d Hd). lia. Qed.

Lemma n_real_padded d : (n_real (build d) <= n_padded (build d))%nat /\ (1 <= n_real (build d))%nat.
Proof. unfold build, from_leaves. simpl. split; [apply next_power_ge; lia|lia]. Qed.

Lemma build_tree d : tree_of (leaf_hash <$> chunks d) (build d).
Proof. apply from_leaves_tree, law_blake3. Qed.

Lemma build_node d i : (1 <= i)%nat -> digest (at_node (build d).(nodes) i).
Proof. apply (to_digests _ _ (build_tree d)), build_digests. Qed.

Lemma build_leaf d i c : chunks d !! i = Some c -> at_node (build d).(nodes) (n_padded (build d) + i) = leaf_hash c.
Proof. intros Hc. apply (to_leaf _ _ (build_tree d)). by rewrite list_lookup_fmap, Hc. Qed.

(** The proof of a leaf exists, consists of digests and verifies. *)
Lemma proof_verifies d i :
  (i < n_padded (build d))%nat -> 2 * Z.of_nat (n_padded (build d)) <= u64_max ->
  exists p, proof i (build d) = Some p /\ mp_leaf_index p = Z.of_nat i
    /\ mp_leaf p = at_node (build d).(nodes) (n_padded (build d) + i)
    /\ Forall digest (mp_leaf p :: mp_path p) /\ verify (root (build d)) (Z.of_nat (n_padded (build d))) p = true.
Proof.
  intros Hi Hw. set (t := build d) in *. pose proof (build_tree d) as Ht. fold t in Ht.
  set (pos := (n_padded t + i)%nat).
  assert (1 <= pos < 2 * n_padded t)%nat as Hpos by (unfold pos; lia).
  destruct (lookup_lt_is_Some_2 t.(nodes) pos) as [x Hx]; [rewrite (to_length _ _ Ht); lia|].
  destruct (siblings_total _ t pos pos Ht Hpos ltac:(done)) as [p Hp].
  exists (MkProof (Z.of_nat i) x p). unfold proof. fold pos. rewrite Hx. cbn [mbind option_bind]. rewrite Hp.
  assert (at_node t.(nodes) pos = x) as Hat by (unfold at_node; by rewrite Hx).
  split_and!; [done|done|done| |].
  - constructor; [rewrite <-Hat; apply build_node; lia|]. eapply siblings_digests; [|exact Hp]. apply build_node.
  - unfold verify. apply bool_decide_eq_true. cbn [mp_path mp_leaf_index mp_leaf].
    rewrite Z.mod_small by (unfold u64_max in *; lia). rewrite <-Nat2Z.inj_add, <-Hat. by eapply siblings_climb.
Qed.

(** One challenge, answered from the data. *)
Lemma honest_answer d i :
  Forall in_u8 d -> (i < length (chunks d))%nat -> 2 * Z.of_nat (n_padded (build d)) <= u64_max ->
  exists a p, answer d (build d) (Z.of_nat i) = Some a /\ to_merkle_proof a = Ok p /\ chunk_matches a = true
    /\ mp_leaf_index p = Z.of_nat i /\ verify (root (build d)) (Z.of_nat (n_padded (build d))) p = true.
Proof.
  intros Hd Hi Hw. assert (d <> []) as Hne by (intros ->; simpl in Hi; lia).
  pose proof (n_real_padded d) as [Hrp _]. rewrite (n_real_chunks d Hne) in Hrp.
  destruct (proof_verifies d i ltac:(lia) Hw) as (p & Hp & Hidx & Hleaf & Hdig & Hv).
  apply Forall_cons in Hdig as [Hl Hpath]. destruct (lookup_lt_is_Some_2 _ _ Hi) as [c Hc].
  unfold answer. rewrite Nat2Z.id, Hp, Hc. cbn [mbind option_bind default from_option].
  eexists _, p. split; [reflexivity|]. split_and!; [| |done|done].
  - unfold to_merkle_proof. cbn [pl_leaf path leaf_index]. rewrite hex32_encode by done. cbn [ok_or result_bind].
    assert (mapM hex32 (hex_encode <$> mp_path p) = Some (mp_path p)) as ->.
    { induction Hpath as [|x l Hx _ IH]; [done|]. rewrite fmap_cons. simpl. by rewrite hex32_encode, IH by done. }
    simpl. by destruct p.
  - unfold chunk_matches. cbn [chunk pl_leaf]. rewrite hex32_encode by done.
    pose proof (list_elem_of_lookup_2 _ _ _ Hc) as Hin. unfold chunks in Hin.
    rewrite law_hex by (by apply (proj1 (Forall_forall _ _) (chunks_bytes (length d) d Hd))).
    destruct (chunks_sizes _ _ _ Hin) as [Hc0 Hcl].
    rewrite bool_decide_false, !bool_decide_true; [done| |done|done]. rewrite Hleaf. symmetry. by apply build_leaf.
Qed.

Lemma honest_answers d (is_ : list nat) :
  Forall in_u8 d -> Forall (fun i => i < length (chunks d))%nat is_ -> 2 * Z.of_nat (n_padded (build d)) <= u64_max ->
  exists l ps, mapM (answer d (build d)) (Z.of_nat <$> is_) = Some l /\ to_merkle_proofs l = Ok ps
    /\ length l = length is_ /\ length ps = length is_ /\ forallb chunk_matches l = true
    /\ forallb (fun '(p, i) => bool_decide (p.(mp_leaf_index) = i) && verify (root (build d)) (Z.of_nat (n_padded (build d))) p)
         (zip ps (Z.of_nat <$> is_)) = true.
Proof.
  intros Hd Hi Hw. induction Hi as [|i is_ Hi _ (l & ps & Hl & Hps & Hl1 & Hl2 & Hl3 & Hl4)].
  - exists [], []. done.
  - destruct (honest_answer d i Hd Hi Hw) as (a & p & Ha & Hp & Hc & Hidx & Hv).
    exists (a :: l), (p :: ps). rewrite fmap_cons. cbn [mapM to_merkle_proofs].
    rewrite Ha, Hp. cbn [mbind option_bind result_bind]. rewrite Hl, Hps. cbn [mbind option_bind result_bind].
    split_and!; [done|done|by simpl; rewrite Hl1|by simpl; rewrite Hl2|by simpl; rewrite Hc|].
    cbn [zip_with forallb]. by rewrite Hl4, Hv, bool_decide_true.
Qed.

Lemma challenge_index_range seed real i : 0 < real -> 0 <= challenge_index seed real i < real.
Proof. intros Hr. unfold challenge_index. by apply Z.mod_pos_bound. Qed.

(** The indices as numbers of pieces. *)
Lemma challenge_indices seed (real : nat) :
  (1 <= real)%nat -> exists is_, derive_challenge_indices seed (Z.of_nat real) = Some (Z.of_nat <$> is_)
    /\ length is_ = POST_N_CHALLENGES /\ Forall (fun i => i < real)%nat is_.
Proof.
  intros Hr. unfold derive_challenge_indices. rewrite bool_decide_false by lia.
  exists ((fun i => Z.to_nat (challenge_index seed (Z.of_nat real) i)) <$> seq 0 POST_N_CHALLENGES). split_and!.
  - f_equal. rewrite <-list_fmap_compose. apply list_fmap_ext. intros _ i _. simpl.
    pose proof (challenge_index_range seed (Z.of_nat real) i). lia.
  - by rewrite length_fmap, length_seq.
  - apply Forall_fmap, Forall_forall. intros i _. pose proof (challenge_index_range seed (Z.of_nat real) i). simpl. lia.
Qed.

(** A transaction that carries a proof of storage. *)
Definition carries (tx : LedgerTx) (prover : string) (b : PostProofBody) : Prop :=
  tx.(tx_type) = POST_PROOF_TX /\ tx.(tx_from) = prover /\ tx.(tx_amount) = 0
  /\ from_json (ascii_bytes tx.(call_args)) = Ok b.

(** C39: An honest host is accepted.  Whoever holds the data of a file can answer the
    challenge of a recent block: the proof exists, and every node that has the block
    accepts a transaction that carries it, for at least the size of the data, with the
    pieces it needs for pay. *)
Theorem honest_storage_accepted d file prover height block_hash tip block_hash_at tx :
  Forall in_u8 d -> d <> [] -> 2 * Z.of_nat (n_padded (build d)) <= u64_max ->
  trim file <> "" -> trim prover <> "" -> height < tip <= height + CHALLENGE_MAX_AGE ->
  block_hash_at height = Some block_hash ->
  exists b, proof_of_data d file prover height block_hash = Some b /\
    Z.min u64_max (Z.of_nat (length d)) <= bytes_proven b /\
    (carries tx prover b ->
     validate_against_chain tx tip block_hash_at = Some (Ok (bytes_proven b)) /\ chunks_match b = true).
Proof.
  intros Hd Hne Hw Hfile Hprover Hage Hhash. pose proof (n_real_padded d) as [Hrp Hr1].
  set (seed := challenge_seed block_hash file prover).
  destruct (challenge_indices seed (n_real (build d)) Hr1) as (is_ & Hder & Hlen & Hlt).
  destruct (honest_answers d is_ Hd) as (l & ps & Hl & Hps & Hl1 & Hl2 & Hl3 & Hl4); [by rewrite <-n_real_chunks|done|].
  eexists. unfold proof_of_data. fold seed. rewrite Hder. cbn [mbind option_bind]. rewrite Hl. split_and!; [reflexivity| |].
  { unfold bytes_proven. cbn [n_real_leaves]. rewrite n_real_chunks by done.
    pose proof (chunks_cover (length d) d ltac:(done)). unfold chunks. lia. }
  intros (Hty & Hfrom & Hamt & Hjson). split.
  - unfold validate_against_chain, parse_body. rewrite Hty, Hfrom, Hamt, Hjson. cbn [cid n_real_leaves n_padded_leaves proofs].
    rewrite !bool_decide_false by (intros Hx; first [by apply Hx|congruence|lia]). cbn [orb challenge_height comm_d cid n_real_leaves n_padded_leaves proofs].
    unfold sat_sub, CHALLENGE_MIN_AGE, CHALLENGE_MAX_AGE in *. rewrite !bool_decide_false by lia. cbn [orb].
    rewrite Hhash, hex32_encode by (rewrite (to_root _ _ (build_tree d)); apply build_node; lia).
    rewrite Hps. fold seed. unfold verify_post_proofs. rewrite bool_decide_false by lia.
    rewrite Hder. cbn [mbind option_bind]. by rewrite Hl4.
  - unfold chunks_match. cbn [proofs]. rewrite Hl3. destruct l; [simpl in Hl1; by rewrite Hlen in Hl1|done].
Qed.

Lemma to_merkle_proofs_lookup l ps k p :
  to_merkle_proofs l = Ok ps -> l !! k = Some p -> exists q, ps !! k = Some q /\ to_merkle_proof p = Ok q.
Proof.
  revert ps k. induction l as [|x l IH]; intros ps k Hl Hk; [done|]. cbn [to_merkle_proofs] in Hl.
  destruct (to_merkle_proof x) as [q|] eqn:Hq; [|done]. cbn [result_bind] in Hl.
  destruct (to_merkle_proofs l) as [qs|]; [|done]. injection Hl as <-. destruct k as [|k]; simpl in *.
  - simplify_eq. eauto.
  - by apply IH.
Qed.

Lemma to_merkle_proof_Ok p q :
  to_merkle_proof p = Ok q -> hex32 p.(pl_leaf) = Some (mp_leaf q) /\ length (mp_path q) = length p.(path)
    /\ length (mp_leaf q) = 32%nat.
Proof.
  unfold to_merkle_proof. destruct (hex32 p.(pl_leaf)) as [x|] eqn:Hx; [|done]. cbn [ok_or result_bind].
  destruct (mapM hex32 p.(path)) as [y|] eqn:Hy; [|done]. intros [= <-]. apply length_mapM in Hy. simpl.
  split_and!; [done|done|]. unfold hex32 in Hx. apply bind_Some in Hx as (z & _ & Hz). by case_bool_decide; simplify_eq.
Qed.

(** What an accepted transaction was checked for. *)
Lemma validated_proofs tx tip block_hash_at n b block_hash top k p :
  validate_against_chain tx tip block_hash_at = Some (Ok n) -> parse_body tx.(call_args) = Ok b ->
  block_hash_at b.(challenge_height) = Some block_hash -> hex32 b.(comm_d) = Some top -> b.(proofs) !! k = Some p ->
  exists q, to_merkle_proof p = Ok q /\ verify top b.(n_padded_leaves) q = true
    /\ mp_leaf_index q = challenge_index (challenge_seed block_hash b.(cid) tx.(tx_from)) b.(n_real_leaves) k.
Proof.
  intros Hv Hb Hh Htop Hk. unfold validate_against_chain in Hv. do 3 (case_bool_decide; [done|]). rewrite Hb in Hv.
  destruct (_ || _); [done|]. case_bool_decide; [done|]. rewrite Hh, Htop in Hv.
  destruct (to_merkle_proofs b.(proofs)) as [ps|] eqn:Hps; [|done].
  apply bind_Some in Hv as (ok & Hok & Hn). destruct ok; [|done]. clear Hn.
  unfold verify_post_proofs in Hok. case_bool_decide as Hlen; [done|]. apply bind_Some in Hok as (is_ & His & [= Hall]).
  unfold derive_challenge_indices in His. case_bool_decide; [done|].
  set (f := challenge_index _ _) in *. assert (is_ = f <$> seq 0 POST_N_CHALLENGES) as -> by congruence. clear His.
  destruct (to_merkle_proofs_lookup _ _ _ _ Hps Hk) as (q & Hq & Hpq). exists q. split; [done|].
  apply lookup_lt_Some in Hq as Hlt. rewrite forallb_forall in Hall.
  specialize (Hall (q, f k)).
  cbv beta iota in Hall. apply andb_true_iff in Hall as [Hi Hver]; [split; [done|by apply bool_decide_eq_true in Hi]|].
  apply list_elem_of_In, (list_elem_of_lookup_2 _ k), lookup_zip_Some. split; [done|].
  rewrite list_lookup_fmap, lookup_seq_lt by lia. done.
Qed.


(** ** What short paths show *)

(** Answers to all challenges that repeat one piece, with empty paths. *)
Definition short_body (file : string) (real padded height : Z) (seed c : bytes) : PostProofBody :=
  MkBody file (hex_encode (leaf_hash c)) real padded height
    ((fun k => MkProofLeaf (challenge_index seed real k) (hex_encode (leaf_hash c)) [] (hex_encode c))
       <$> seq 0 POST_N_CHALLENGES).

Lemma short_merkle_proofs (seed c : bytes) real (is_ : list nat) :
  to_merkle_proofs ((fun k => MkProofLeaf (challenge_index seed real k) (hex_encode (leaf_hash c)) [] (hex_encode c)) <$> is_)
  = Ok ((fun k => MkProof (challenge_index seed real k) (leaf_hash c) []) <$> is_).
Proof.
  induction is_ as [|k is_ IH]; [done|]. rewrite !fmap_cons. cbn [to_merkle_proofs]. rewrite IH.
  unfold to_merkle_proof. cbn [pl_leaf path leaf_index]. rewrite hex32_encode by apply law_blake3. done.
Qed.

Lemma short_chunks_match file real padded height (seed c : bytes) :
  Forall in_u8 c -> c <> [] -> (length c <= CHUNK_SIZE)%nat ->
  chunks_match (short_body file real padded height seed c) = true.
Proof.
  intros Hc Hne Hlen. unfold chunks_match, short_body. cbn [proofs].
  rewrite bool_decide_false by done. cbn [negb andb].
  apply forallb_forall. intros p Hp%list_elem_of_In. apply list_elem_of_fmap in Hp as (k & -> & _).
  unfold chunk_matches. cbn [chunk pl_leaf]. rewrite law_hex, hex32_encode by (done || apply law_blake3).
  by rewrite bool_decide_false, !bool_decide_true.
Qed.

(** The code does not look at the length of a path: whoever holds one piece of at most
    1024 bytes proves any amount of storage with it. *)
Theorem short_paths_accepted (c : bytes) file prover real padded height block_hash tip block_hash_at tx :
  Forall in_u8 c -> c <> [] -> (length c <= CHUNK_SIZE)%nat -> 0 < real <= padded ->
  trim file <> "" -> trim prover <> "" -> height < tip <= height + CHALLENGE_MAX_AGE ->
  block_hash_at height = Some block_hash ->
  let b := short_body file real padded height (challenge_seed block_hash file prover) c in
  carries tx prover b ->
  validate_against_chain tx tip block_hash_at = Some (Ok (bytes_proven b)) /\ chunks_match b = true.
Proof.
  intros Hc Hne Hlen Hreal Hfile Hprover Hage Hhash b (Hty & Hfrom & Hamt & Hjson).
  set (seed := challenge_seed block_hash file prover) in *. split.
  - unfold validate_against_chain, parse_body. rewrite Hty, Hfrom, Hamt, Hjson.
    unfold b, short_body. cbn [cid n_real_leaves n_padded_leaves proofs].
    rewrite !bool_decide_false; try (intros Hx; first [by apply Hx|congruence|lia]).
    cbn [orb challenge_height comm_d cid n_real_leaves n_padded_leaves proofs].
    unfold sat_sub, CHALLENGE_MIN_AGE, CHALLENGE_MAX_AGE in *. rewrite !bool_decide_false by lia. cbn [orb].
    rewrite Hhash, hex32_encode, short_merkle_proofs by apply law_blake3. fold seed. unfold verify_post_proofs.
    rewrite bool_decide_false by (rewrite length_fmap, length_seq; by intros Hx).
    unfold derive_challenge_indices. rewrite bool_decide_false by lia. cbn [mbind option_bind].
    rewrite (proj2 (forallb_forall _ _)); [done|]. intros [q i] Hq%list_elem_of_In.
    apply list_elem_of_lookup in Hq as [k Hk]. apply lookup_zip_Some in Hk as [Hq Hi].
    rewrite list_lookup_fmap in Hq. rewrite list_lookup_fmap in Hi. destruct (seq 0 POST_N_CHALLENGES !! k) as [j|]; [|done].
    simplify_eq/=. unfold verify. simpl. by rewrite !bool_decide_true.
  - by apply short_chunks_match.
Qed.

(** And a host is paid for a recorded file of two or more pieces when it kept 64 bytes
    of hashes: the children of the root are a piece that hashes to the commitment. *)
Theorem two_hashes_earn (d : bytes) file prover height block_hash recorded r tx :
  let c := at_node (build d).(nodes) 2 ++ at_node (build d).(nodes) 3 in
  let b := short_body file (Z.of_nat (n_real (build d))) (Z.of_nat (n_padded (build d))) height
             (challenge_seed block_hash file prover) c in
  (2 <= n_real (build d))%nat -> trim file <> "" -> recorded file = Some r -> r.(rf_owner) <> prover ->
  r.(record).(fr_comm_d) = hex_encode (root (build d)) ->
  r.(record).(fr_n_real_leaves) = Z.of_nat (n_real (build d)) ->
  r.(record).(fr_n_padded_leaves) = Z.of_nat (n_padded (build d)) ->
  carries tx prover b -> length c = 64%nat /\ storage_proof_earns_in recorded tx = Some file.
Proof.
  intros c b Hd Hfile Hrec Hown Hcomm Hreal Hpad (_ & Hfrom & _ & Hjson).
  pose proof (n_real_padded d) as [Hrp _]. pose proof (build_node d 2 ltac:(lia)) as [H2l H2b].
  pose proof (build_node d 3 ltac:(lia)) as [H3l H3b].
  assert (length c = 64%nat) as Hlen by (unfold c; rewrite length_app; lia). split; [done|].
  assert (leaf_hash c = root (build d)) as Hroot.
  { rewrite (to_root _ _ (build_tree d)), (to_inner _ _ (build_tree d) 1) by lia. done. }
  unfold storage_proof_earns_in, parse_body. rewrite Hjson. unfold b, short_body.
  cbn [cid n_real_leaves n_padded_leaves proofs].
  rewrite !bool_decide_false; try (intros Hx; first [congruence|lia]).
  2:{ intros Hx. apply Hx. by rewrite length_fmap, length_seq. }
  cbn [orb cid comm_d n_real_leaves n_padded_leaves]. rewrite Hrec. cbn [mbind option_bind].
  rewrite Hcomm, Hreal, Hpad, Hfrom, Hroot, bool_decide_false, !bool_decide_true by done. cbn [negb andb].
  assert (chunks_match b = true) as Hm; [|unfold b, short_body in Hm; rewrite Hroot in Hm; by rewrite Hm].
  apply short_chunks_match; [unfold c; by apply Forall_app|by intros E; rewrite E in Hlen|unfold CHUNK_SIZE; lia].
Qed.
End Theorems.

(** ** A file of two pieces

    The stand-ins: a checksum for BLAKE3, hexadecimal as it is, and a reader of bodies
    that knows one body. *)
Module StorageDemo.
#[export] Instance crypto : CryptoPrims :=
  {| blake2s d := []; blake3 d := to_le_bytes 32 (foldl (fun a x => (a * 31 + x) mod 65521) 7 d);
     ed25519_verify _ _ _ := Ok false; ml_dsa_verify _ _ _ := false; slh_dsa_verify _ _ _ := Ok false;
     ed25519_sign _ _ := []; ml_dsa_sign _ _ := [] |}.
#[export] Instance chain : ChainPrims :=
  {| hex_encode := Hex.encode; hex_decode := Hex.decode; bech32m_encode _ _ := None; dalek_verify _ _ _ := false |}.

(** A printable character starts no white space. *)
Definition inky (c : Ascii.ascii) : Prop := 33 <= Z.of_nat (Ascii.nat_of_ascii c) <= 126.

Lemma digit_inky n : inky (Hex.digit n).
Proof.
  unfold Hex.digit. destruct (Hex.digits !! Z.to_nat n) as [c|] eqn:E; [|by vm_compute].
  assert (Forall inky Hex.digits) as Hall by (unfold Hex.digits; repeat constructor; by vm_compute).
  by apply (Forall_lookup_1 _ _ _ _ Hall E).
Qed.

Lemma skip_white_inky b l : 33 <= b <= 126 -> skip_white (b :: l) = b :: l.
Proof.
  intros Hb. cbn [skip_white]. rewrite !(bool_decide_false (_ <= b <= _)), (bool_decide_false (b = 32)) by lia.
  cbn [orb]. destruct l as [|c l]; [done|]. unfold white2, white3.
  rewrite (bool_decide_false (b = 0xC2)) by lia. cbn [andb]. destruct l as [|d l]; [done|].
  by rewrite !(bool_decide_false (b = _ /\ _)) by lia.
Qed.

Lemma string_of_ascii_bytes s : string_of_bytes (ascii_bytes s) = s.
Proof.
  induction s as [|c s IH]; [done|]. cbn [ascii_bytes string_of_bytes].
  by rewrite Nat2Z.id, Ascii.ascii_nat_embedding, IH.
Qed.

Lemma trim_end_encode b : trim_end (Hex.encode b) = Hex.encode b.
Proof.
  assert (forall n s, blank (String (Hex.digit n) s) = false) as Hb.
  { intros n s. unfold blank. cbn [ascii_bytes]. rewrite skip_white_inky by apply digit_inky. done. }
  induction b as [|x b IH]; [done|]. cbn [Hex.encode trim_end]. by rewrite !Hb, IH.
Qed.

Lemma trim_encode b : trim (Hex.encode b) = Hex.encode b.
Proof.
  unfold trim. rewrite <-trim_end_encode at 2. f_equal. destruct b as [|x b]; [done|].
  cbn [Hex.encode ascii_bytes]. rewrite skip_white_inky by apply digit_inky.
  apply (string_of_ascii_bytes (Hex.encode (x :: b))).
Qed.

#[export] Instance laws : ProofLaws.
Proof.
  split; [|exact Hex.decode_encode|exact trim_encode].
  intros d. split; [apply length_to_le_bytes|]. cbn [blake3 crypto].
  generalize (foldl (fun a x => (a * 31 + x) mod 65521) 7 d). intros z.
  generalize 32%nat. intros n. revert z. induction n as [|n IH]; intros z; constructor; [|apply IH].
  unfold in_u8, u8_max. pose proof (Z.mod_pos_bound z 256). lia.
Qed.

Definition DATA : bytes := replicate 1024 5 ++ [6; 7].
Definition FILE : string := "ego-file".
Definition HOST : string := "egot1host".
Definition BLOCK : string := "0xabcd".
Definition block_at (h : Z) : option string := if bool_decide (h = 10) then Some BLOCK else None.
Definition BODY : PostProofBody := default (MkBody "" "" 0 0 0 []) (proof_of_data DATA FILE HOST 10 BLOCK).
Definition only (b : PostProofBody) : Json PostProofBody := {| to_json _ := []; from_json _ := Ok b |}.
#[export] Instance json : Json PostProofBody := only BODY.
Definition proof_tx (args : string) : LedgerTx :=
  MkTx "0x01" HOST "" 0 None 1700 "" "Confirmed" None 1 "" "" "" POST_PROOF_TX 0 0 "" "" "" args "" "" 3 1 "" "" false "" "".

Lemma honest_storage_accepted_witness :
  validate_against_chain (proof_tx "body") 20 block_at = Some (Ok 2048) /\ chunks_match BODY = true.
Proof.
  destruct (honest_storage_accepted DATA FILE HOST 10 BLOCK 20 block_at (proof_tx "body")) as (b & Hb & _ & Hok).
  - unfold DATA. apply Forall_app. split; [apply Forall_replicate|repeat constructor]; done.
  - done.
  - by vm_compute.
  - done.
  - done.
  - done.
  - done.
  - assert (b = BODY) as -> by (unfold BODY; by rewrite Hb).
    destruct Hok as [Hok Hm]; [repeat split|]. split; [|exact Hm]. rewrite Hok. vm_compute. reflexivity.
Defined.


(** The two hashes under the root stand for the whole file, with no path at all. *)
Definition HASHES : bytes := at_node (build DATA).(nodes) 2 ++ at_node (build DATA).(nodes) 3.

Example hashes_for_the_file :
  let b := short_body FILE 2 2 10 (challenge_seed BLOCK FILE HOST) HASHES in
  length HASHES = 64%nat /\ comm_d b = comm_d BODY /\ chunks_match b = true
  /\ validate_against_chain (H1 := only b) (proof_tx "body") 20 block_at
     = Some (Ok 2048).
Proof. cbv zeta. repeat split; vm_compute; reflexivity. Qed.
End StorageDemo.
