(* ===== verification/Vault.v ===== *)
(** * The wallet vault

    Model of [ego-desktop/src-tauri/src/vault_chain.rs]: a wallet's own rules on
    what may leave it.  A vault has a daily limit, sends above it wait out a
    delay in a queue, a helper can freeze the wallet or cancel what waits, and
    every change that loosens the rules waits too, unless the second key signs.
    The mempool check [admit], which reads the clock and the database of the
    process, is not modelled; a block is judged by [validate] and applied by
    [apply_block]. *)
From stdpp Require Import pretty.
From Stdlib Require Import Ascii.
From S2P Require Import Prelude Crypto Ledger RuleText.
Local Open Scope string_scope.
Local Open Scope list_scope.
Local Open Scope Z_scope.
Local Open Scope ego_scope.

Definition ACTIVATION_HEIGHT : option Z := Some 67922.
Definition RETIRED_FROM_HEIGHT : Z := 72580.
Definition RETIRED : string := "the wallet vault was removed from Ego".

Definition TX_SET : string := "vault_set".
Definition TX_OFF : string := "vault_off".
Definition TX_FREEZE : string := "vault_freeze".
Definition TX_UNFREEZE : string := "vault_unfreeze".
Definition TX_CANCEL : string := "vault_cancel".
Definition TX_QUEUE : string := "vault_queue".
Definition VAULT_TYPES : list string := [TX_SET; TX_OFF; TX_FREEZE; TX_UNFREEZE; TX_CANCEL; TX_QUEUE].

Definition SWEEP_MEMO : string := "vault:sweep".
Definition EXEC_PREFIX : string := "vault:exec:".
Definition CANCEL_CHANGE : string := "change".

Definition DAY_SECS : Z := 86400.
Definition MIN_DELAY_SECS : Z := 3600.
Definition MAX_DELAY_SECS : Z := 30 * DAY_SECS.
Definition MAX_GUARDIANS : nat := 5.
Definition MAX_QUEUED : Z := 32.
Definition FEE_ALLOWANCE_UEGOC : Z := 100000.
Definition FEES_V2_FROM_HEIGHT : Z := 71000.
(** [tokenomics::TRANSFER_FEE_UEGOC]. *)
Definition FEE_ALLOWANCE_V2_UEGOC : Z := 500000.
Definition MAX_BODY_BYTES : nat := 4096.
Definition LIST_LIMIT : nat := 256.

Definition BODY_DOMAIN : bytes := ascii_bytes "ego/vault/body/v1:".
Definition COSIGN_DOMAIN : bytes := ascii_bytes "ego/vault/cosign/v1:".
Definition QUEUE_DOMAIN : bytes := ascii_bytes "ego/vault/queue/v1:".

(** ** Data *)

Record Settings : Type := MkSettings {
  limit : Z;
  delay : Z;
  high_limit : Z;
  high_delay : Z;
  recovery : string;
  second_key : string;
  guardians : list string;
}.

Inductive Change : Type :=
| ChangeSet (settings : Settings)
| ChangeOff
| ChangeUnfreeze.

Record Pending : Type := MkPending {
  p_change : Change;
  p_at : Z;
}.

Record Vault : Type := MkVault {
  settings : Settings;
  frozen : bool;
  pending : option Pending;
}.

Record Queued : Type := MkQueued {
  q_id : string;
  q_to : string;
  q_amount : Z;
  q_at : Z;
  q_created : Z;
}.

Record Spent : Type := MkSpent {
  sp_day : Z;
  sp_amount : Z;
}.

Record SetBody : Type := MkSetBody { sb_settings : Settings }.
Record OwnerBody : Type := MkOwnerBody { ob_owner : string }.
Record CancelBody : Type := MkCancelBody { cb_owner : string; cb_target : string }.
Record QueueBody : Type := MkQueueBody { qb_to : string; qb_amount : Z }.
Record EmptyBody : Type := MkEmptyBody {}.

Definition set_settings (s : Settings) (v : Vault) : Vault := MkVault s v.(frozen) v.(pending).
Definition set_frozen (f : bool) (v : Vault) : Vault := MkVault v.(settings) f v.(pending).
Definition set_pending (p : option Pending) (v : Vault) : Vault := MkVault v.(settings) v.(frozen) p.

Inductive Gate : Type :=
| GateFree
| GateCounted (more : Z)
| GateExec (id : string)
| GateRefused (reason : string) (transient : bool).

(** ** Rules *)

Definition valid_addr (s : string) : bool :=
  (starts_with s "egot1" || starts_with s "ego1") &&
  bool_decide (20 <= String.length s <= 100)%nat &&
  all_bytes (fun b => is_lower b || is_digit b) s.

Definition rule_active (height : Z) : bool :=
  match ACTIVATION_HEIGHT with
  | Some h => bool_decide (h <= height)
  | None => false
  end && bool_decide (height < RETIRED_FROM_HEIGHT).

Definition is_vault_op (tx : LedgerTx) : bool := bool_decide (tx.(tx_type) ∈ VAULT_TYPES).

Definition exec_id (tx : LedgerTx) : option string :=
  m ← tx.(tx_memo); strip_prefix EXEC_PREFIX m.

(** The loop over the guardians. *)
Fixpoint check_guardians (owner : string) (seen : gset string) (gs : list string) : bool :=
  match gs with
  | [] => true
  | g :: gs =>
      if negb (valid_addr g) || bool_decide (g = owner) || bool_decide (g ∈ seen) then false
      else check_guardians owner ({[g]} ∪ seen) gs
  end.

(** The check of the recovery address and of the second key. *)
Definition check_other (owner a : string) : bool :=
  negb (bool_decide (a <> "") && (negb (valid_addr a) || bool_decide (a = owner))).

Definition check_settings (owner : string) (s : Settings) : result unit string :=
  if negb (bool_decide (MIN_DELAY_SECS <= s.(delay) <= MAX_DELAY_SECS)) then
    Err "the delay is between 1 hour and 30 days"
  else if bool_decide (s.(high_limit) = 0) && bool_decide (s.(high_delay) <> 0) then
    Err "a longer delay needs a higher limit"
  else if bool_decide (s.(high_limit) <> 0) &&
          (bool_decide (s.(high_limit) <= s.(limit)) || bool_decide (s.(high_delay) <= s.(delay)) ||
           bool_decide (MAX_DELAY_SECS < s.(high_delay))) then
    Err "the higher limit and its delay must both be above the first ones, at most 30 days"
  else if negb (check_other owner s.(recovery)) then
    Err "the recovery address must be another valid address"
  else if negb (check_other owner s.(second_key)) then
    Err "the second key must be another valid address"
  else if bool_decide (MAX_GUARDIANS < length s.(guardians))%nat then Err "at most 5 guardians"
  else if check_guardians owner ∅ s.(guardians) then Ok tt
  else Err "each guardian must be a different valid address".

Definition longest_delay (s : Settings) : Z := Z.max s.(delay) s.(high_delay).

Definition delay_for (s : Settings) (amount : Z) : Z :=
  if bool_decide (0 < s.(high_limit)) && bool_decide (s.(high_limit) < amount) then s.(high_delay)
  else s.(delay).

Definition tighter (new old : Settings) : bool :=
  let high_ok :=
    if bool_decide (old.(high_limit) = 0) then
      bool_decide (new.(high_limit) = 0) || bool_decide (old.(delay) <= new.(high_delay))
    else
      bool_decide (0 < new.(high_limit)) && bool_decide (new.(high_limit) <= old.(high_limit)) &&
      bool_decide (old.(high_delay) <= new.(high_delay)) in
  bool_decide (new.(limit) <= old.(limit)) && bool_decide (old.(delay) <= new.(delay)) && high_ok &&
  bool_decide (new.(recovery) = old.(recovery)) && bool_decide (new.(second_key) = old.(second_key)) &&
  forallb (fun g => bool_decide (g ∈ new.(guardians))) old.(guardians).

Definition effective (v : Vault) (now : Z) : option Vault :=
  match v.(pending) with
  | None => Some v
  | Some p =>
      if bool_decide (now < p.(p_at)) then Some v
      else
        let v := set_pending None v in
        match p.(p_change) with
        | ChangeSet s => Some (set_settings s v)
        | ChangeOff => None
        | ChangeUnfreeze => Some (set_frozen false v)
        end
  end.

(** ** Keys *)

Definition vault_key (owner : string) : bytes := ascii_bytes ("vault:v:" +:+ owner).
Definition queue_prefix (owner : string) : bytes := ascii_bytes ("vault:q:" +:+ owner +:+ ":").
Definition queue_key (owner id : string) : bytes :=
  ascii_bytes ("vault:q:" +:+ owner +:+ ":" +:+ id).
Definition queue_count_key (owner : string) : bytes := ascii_bytes ("vault:qn:" +:+ owner).
Definition spent_key (owner : string) : bytes := ascii_bytes ("vault:sp:" +:+ owner).
Definition helper_key (helper owner : string) : bytes :=
  ascii_bytes ("vault:h:" +:+ helper +:+ ":" +:+ owner).

Definition helpers (s : Settings) : gset string :=
  list_to_set s.(guardians) ∪ (if bool_decide (s.(second_key) <> "") then {[s.(second_key)]} else ∅).

Definition all_helpers (v : Vault) : gset string :=
  helpers v.(settings) ∪
  match v.(pending) with
  | Some (MkPending (ChangeSet s) _) => helpers s
  | _ => ∅
  end.

Definition can_help (v : Vault) (owner sender : string) : bool :=
  bool_decide (sender = owner) || bool_decide (sender ∈ helpers v.(settings)).

Definition outflow (tx : LedgerTx) (height : Z) : Z :=
  let v2 := bool_decide (FEES_V2_FROM_HEIGHT <= height) in
  let allowance := if v2 then FEE_ALLOWANCE_V2_UEGOC else FEE_ALLOWANCE_UEGOC in
  let fee := sat_sub tx.(fee_uegoc) allowance in
  let stays := is_unstake_tx tx || (v2 && is_stake_tx tx) in
  if stays || bool_decide (tx.(tx_to) = tx.(tx_from)) then fee
  else sat_add u64_max tx.(tx_amount) fee.

Definition fits_limit (v : Vault) (already more : Z) : bool :=
  bool_decide (more = 0) || bool_decide (sat_add u64_max already more <= v.(settings).(limit)).

Definition subject (tx : LedgerTx) : bool :=
  bool_decide (tx.(tx_from) <> "") && negb (is_reserved_system_source tx.(tx_from)) &&
  bool_decide (tx.(tx_signature) <> "coinbase") && negb (is_settle tx).

(** ** Addresses and co-signatures *)

Section Cosign.
Context `{CryptoPrims} `{ChainPrims}.

Definition address_of (pk : bytes) (chain_id : Z) : string :=
  let hrp := if bool_decide (chain_id = 1) then "egot" else "ego" in
  default "" (bech32m_encode hrp (ego_address pk chain_id)).

Definition cosign_message (tx : LedgerTx) : bytes := COSIGN_DOMAIN ++ tx_signing_bytes_for tx.

(** [try_into] of a decoded [Vec<u8>] to an array of [n] bytes. *)
Definition try_array (n : nat) (b : bytes) : option bytes :=
  if bool_decide (length b = n) then Some b else None.

Definition cosign_signer (tx : LedgerTx) : option string :=
  '(pk, sig) ← split_once ":"%char tx.(vault_cosig);
  pk ← hex_decode pk ≫= try_array 32;
  sig ← hex_decode sig ≫= try_array 64;
  if dalek_verify pk (cosign_message tx) sig then Some (address_of pk tx.(tx_chain_id)) else None.

Definition cosigned (v : Vault) (tx : LedgerTx) : bool :=
  bool_decide (v.(settings).(second_key) <> "") &&
  bool_decide (cosign_signer tx = Some v.(settings).(second_key)).

Definition body_hash (args : string) : string := hex_encode (blake3 (BODY_DOMAIN ++ ascii_bytes args)).

Definition memo_for (type args : string) : option string :=
  if negb (bool_decide (type ∈ VAULT_TYPES)) then None
  else op ← strip_prefix "vault_" type; Some ("vault:" +:+ op +:+ ":" +:+ body_hash args).

(** The first 16 characters of the digest in hexadecimal. *)
Definition queue_id (hash : string) : string :=
  String.substring 0 16 (hex_encode (blake3 (QUEUE_DOMAIN ++ ascii_bytes hash))).
End Cosign.

(** ** The vault chain *)

Section VaultChain.
Context `{CryptoPrims} `{ChainPrims}.
Context `{Json Vault} `{Json Queued} `{Json Spent}.
Context `{Json SetBody} `{Json OwnerBody} `{Json CancelBody} `{Json QueueBody} `{Json EmptyBody}.

Definition raw_vault (ov : Ov) (owner : string) : option Vault := load ov (vault_key owner).

Definition load_vault (ov : Ov) (owner : string) (now : Z) : option Vault :=
  v ← raw_vault ov owner; effective v now.

Definition queued (ov : Ov) (owner id : string) : option Queued := load ov (queue_key owner id).

Definition queue_of (ov : Ov) (owner : string) : list Queued :=
  omap (load ov) (committed_keys (queue_prefix owner) LIST_LIMIT (fun _ => false) ov).

Definition spent_today (ov : Ov) (owner : string) (now : Z) : Z :=
  let s := default (MkSpent 0 0) (load ov (spent_key owner)) in
  if bool_decide (s.(sp_day) = now / DAY_SECS) then s.(sp_amount) else 0.

Definition store (ov : Ov) (owner : string) (before after : option Vault) : Ov :=
  let old := from_option all_helpers ∅ before in
  let new := from_option all_helpers ∅ after in
  let ov := foldl (fun ov h => ov_del (helper_key h owner) ov) ov (btree_set (old ∖ new)) in
  let ov := foldl (fun ov h => ov_put (helper_key h owner) (ascii_bytes "1") ov) ov
              (btree_set (new ∖ old)) in
  match after with
  | Some v => save ov (vault_key owner) v
  | None => ov_del (vault_key owner) ov
  end.

Definition unreadable {A} (r : result A string) : result A string :=
  match r with
  | Ok a => Ok a
  | Err e => Err ("the body is not readable: " +:+ e)
  end.

Definition well_formed (tx : LedgerTx) : result unit string :=
  if negb (is_vault_op tx) then Err (tx.(tx_type) +:+ " is not a vault transaction")
  else if bool_decide (tx.(tx_from) = "") || bool_decide (tx.(tx_to) <> tx.(tx_from)) ||
          bool_decide (tx.(tx_amount) <> 0) then
    Err "a vault transaction is a zero-amount transaction to the sender itself"
  else if bool_decide (MAX_BODY_BYTES < String.length tx.(call_args))%nat then
    Err "the body is longer than 4096 bytes"
  else if negb (bool_decide (tx.(tx_memo) = memo_for tx.(tx_type) tx.(call_args))) then
    Err "the memo does not commit to the body"
  else if bool_decide (tx.(tx_type) = TX_SET) then
    let? b := unreadable (from_str tx.(call_args)) in
    check_settings tx.(tx_from) b.(sb_settings)
  else if bool_decide (tx.(tx_type) = TX_FREEZE) then
    let? b := unreadable (from_str tx.(call_args)) in
    if negb (valid_addr b.(ob_owner)) then Err "the freeze names no wallet" else Ok tt
  else if bool_decide (tx.(tx_type) = TX_CANCEL) then
    let? b := unreadable (from_str tx.(call_args)) in
    let id_ok := bool_decide (String.length b.(cb_target) = 16%nat) &&
                 all_bytes is_hexdigit b.(cb_target) in
    if negb (valid_addr b.(cb_owner)) ||
       negb (bool_decide (b.(cb_target) = CANCEL_CHANGE) || id_ok)
    then Err "the cancel names no wallet or waiting item" else Ok tt
  else if bool_decide (tx.(tx_type) = TX_QUEUE) then
    let? b := unreadable (from_str tx.(call_args)) in
    if negb (valid_addr b.(qb_to)) || bool_decide (b.(qb_to) = tx.(tx_from)) ||
       bool_decide (b.(qb_amount) = 0)
    then Err "a waiting send names another address and an amount" else Ok tt
  else
    let? _ := unreadable (from_str (A := EmptyBody) tx.(call_args)) in Ok tt.

Definition gate (v : Vault) (ov : Ov) (tx : LedgerTx) (now height : Z) : Gate :=
  if is_vault_op tx then GateCounted (outflow tx height)
  else if bool_decide (tx.(tx_memo) = Some SWEEP_MEMO) && bool_decide (v.(settings).(recovery) <> "") &&
          bool_decide (tx.(tx_to) = v.(settings).(recovery)) then GateFree
  else if v.(frozen) then
    GateRefused "this wallet is frozen; only a sweep to its recovery address can leave it" true
  else
    match exec_id tx with
    | Some id =>
        match queued ov tx.(tx_from) id with
        | None => GateRefused ("no waiting send " +:+ id) false
        | Some q =>
            if bool_decide (q.(q_to) <> tx.(tx_to)) || bool_decide (q.(q_amount) <> tx.(tx_amount)) ||
               bool_decide (tx.(tx_type) <> "transfer")
            then GateRefused ("the transfer does not match waiting send " +:+ id) false
            else if bool_decide (now < q.(q_at)) then
              GateRefused ("waiting send " +:+ id +:+ " can go out at " +:+ pretty q.(q_at)) true
            else GateExec id
        end
    | None => if cosigned v tx then GateFree else GateCounted (outflow tx height)
    end.

(** *** Judging a block *)

Record Planner : Type := MkPlanner {
  pl_vaults : gmap string (option Vault);
  pl_counted : gmap string Z;
  pl_execs : gset (string * string);
  pl_now : Z;
  pl_height : Z;
}.

Definition planner_new (height now : Z) : Planner := MkPlanner ∅ ∅ ∅ now height.

(** [entry(owner).or_insert_with(|| load_vault(ov, owner, now))]. *)
Definition cached_vault (cache : gmap string (option Vault)) (ov : Ov) (owner : string) (now : Z)
    : option Vault :=
  match cache !! owner with
  | Some v => v
  | None => load_vault ov owner now
  end.

Definition judge (ov : Ov) (tx : LedgerTx) (p : Planner) : Planner * Fit :=
  if negb (subject tx) then (p, FitYes)
  else
    let owner := tx.(tx_from) in
    let now := p.(pl_now) in
    let entry := cached_vault p.(pl_vaults) ov owner now in
    let vaults := <[owner := entry]> p.(pl_vaults) in
    let p := MkPlanner vaults p.(pl_counted) p.(pl_execs) now p.(pl_height) in
    match entry with
    | None => (p, FitYes)
    | Some v =>
        match gate v ov tx now p.(pl_height) with
        | GateFree => (p, FitYes)
        | GateExec id =>
            if bool_decide ((owner, id) ∈ p.(pl_execs)) then
              (p, FitNever ("waiting send " +:+ id +:+ " is already in this block"))
            else (MkPlanner vaults p.(pl_counted) ({[(owner, id)]} ∪ p.(pl_execs)) now p.(pl_height), FitYes)
        | GateCounted more =>
            let c := default 0 (p.(pl_counted) !! owner) in
            let already := wrapping_add64 (spent_today ov owner now) c in
            if fits_limit v already more then
              (MkPlanner vaults (<[owner := wrapping_add64 c more]> p.(pl_counted)) p.(pl_execs) now
                 p.(pl_height), FitYes)
            else (p, FitLater "over the wallet's vault limit for today")
        | GateRefused e true => (p, FitLater e)
        | GateRefused e false => (p, FitNever e)
        end
    end.

Definition fit (ov : Ov) (tx : LedgerTx) (p : Planner) : Planner * Fit :=
  if is_vault_op tx && bool_decide (RETIRED_FROM_HEIGHT <= p.(pl_height)) then (p, FitNever RETIRED)
  else if is_vault_op tx && negb (rule_active p.(pl_height)) then
    (p, FitLater "vault transactions start at block Some(67922)")
  else
    match if is_vault_op tx then well_formed tx else Ok tt with
    | Err e => (p, FitNever e)
    | Ok _ => if negb (rule_active p.(pl_height)) then (p, FitYes) else judge ov tx p
    end.

(** The first loop of [validate]. *)
Fixpoint check_ops (active : bool) (height : Z) (txs : list LedgerTx) : result unit string :=
  match txs with
  | [] => Ok tt
  | tx :: txs =>
      if negb (is_vault_op tx) then check_ops active height txs
      else if negb active then
        Err (tx.(tx_type) +:+ " " +:+ tx.(tx_hash) +:+ " refused: vault transactions are not active at block " +:+
             pretty height)
      else
        match well_formed tx with
        | Err e => Err (tx.(tx_type) +:+ " " +:+ tx.(tx_hash) +:+ " rejected: " +:+ e)
        | Ok _ => check_ops active height txs
        end
  end.

(** The second one. *)
Fixpoint plan_all (ov : Ov) (txs : list LedgerTx) (p : Planner) : result Planner string :=
  match txs with
  | [] => Ok p
  | tx :: txs =>
      match fit ov tx p with
      | (p, FitYes) => plan_all ov txs p
      | (_, FitLater e) | (_, FitNever e) =>
          Err (tx.(tx_type) +:+ " " +:+ tx.(tx_hash) +:+ " refused by the sender's vault: " +:+ e)
      end
  end.

Definition validate (ov : Ov) (block : LedgerBlock) (txs : list LedgerTx) : result unit string :=
  let active := rule_active block.(b_height) in
  let? _ := check_ops active block.(b_height) txs in
  if negb active then Ok tt
  else let? _ := plan_all ov txs (planner_new block.(b_height) block.(b_timestamp)) in Ok tt.

(** *** Operations *)

(** [before.and_then(|v| effective(v, now)).ok_or(e)]. *)
Definition current (before : option Vault) (now : Z) : option Vault := v ← before; effective v now.

Definition op_set (ov : Ov) (tx : LedgerTx) (now : Z) : result Ov string :=
  let? b := from_str tx.(call_args) in
  let new := b.(sb_settings) in
  let? _ := check_settings tx.(tx_from) new in
  let before := raw_vault ov tx.(tx_from) in
  let after :=
    match current before now with
    | None => MkVault new false None
    | Some v =>
        if tighter new v.(settings) || cosigned v tx then set_settings new v
        else set_pending (Some (MkPending (ChangeSet new) (isat_add now (longest_delay v.(settings))))) v
    end in
  Ok (store ov tx.(tx_from) before (Some after)).

Definition op_off (ov : Ov) (tx : LedgerTx) (now : Z) : result Ov string :=
  let owner := tx.(tx_from) in
  let before := raw_vault ov owner in
  let? v := ok_or (current before now) "this wallet has no vault" in
  if cosigned v tx then
    let ov := store ov owner before None in
    let ov := foldl (fun ov q => ov_del (queue_key owner q.(q_id)) ov) ov (queue_of ov owner) in
    let ov := put_u64 ov (queue_count_key owner) 0 in
    Ok (ov_del (spent_key owner) ov)
  else
    let p := MkPending ChangeOff (isat_add now (longest_delay v.(settings))) in
    Ok (store ov owner before (Some (set_pending (Some p) v))).

Definition op_unfreeze (ov : Ov) (tx : LedgerTx) (now : Z) : result Ov string :=
  let owner := tx.(tx_from) in
  let before := raw_vault ov owner in
  let? v := ok_or (current before now) "this wallet has no vault" in
  if negb v.(frozen) then Err "the wallet is not frozen"
  else
    let after :=
      if cosigned v tx then set_frozen false v
      else set_pending
             (Some (MkPending ChangeUnfreeze (isat_add now (longest_delay v.(settings))))) v in
    Ok (store ov owner before (Some after)).

Definition op_freeze (ov : Ov) (tx : LedgerTx) (now : Z) : result Ov string :=
  let? b := from_str tx.(call_args) in
  let owner := b.(ob_owner) in
  let before := raw_vault ov owner in
  let? v := ok_or (current before now) "that wallet has no vault" in
  if negb (can_help v owner tx.(tx_from)) then
    Err "only the owner, its second key or a guardian can freeze a wallet"
  else
    let v := set_frozen true v in
    let v :=
      match v.(pending) with
      | Some (MkPending ChangeUnfreeze _) => set_pending None v
      | _ => v
      end in
    Ok (store ov owner before (Some v)).

Definition op_cancel (ov : Ov) (tx : LedgerTx) (now : Z) : result Ov string :=
  let? b := from_str tx.(call_args) in
  let owner := b.(cb_owner) in
  let before := raw_vault ov owner in
  let? v := ok_or (current before now) "that wallet has no vault" in
  if negb (can_help v owner tx.(tx_from)) then
    Err "only the owner, its second key or a guardian can cancel"
  else if bool_decide (b.(cb_target) = CANCEL_CHANGE) then
    match v.(pending) with
    | None => Err "there is no waiting change"
    | Some _ => Ok (store ov owner before (Some (set_pending None v)))
    end
  else
    match queued ov owner b.(cb_target) with
    | None => Err ("no waiting send " +:+ b.(cb_target))
    | Some _ =>
        let ov := ov_del (queue_key owner b.(cb_target)) ov in
        let n := u64_at ov (queue_count_key owner) in
        Ok (put_u64 ov (queue_count_key owner) (sat_sub n 1))
    end.

Definition op_queue (ov : Ov) (tx : LedgerTx) (now : Z) : result Ov string :=
  let owner := tx.(tx_from) in
  let? b := from_str tx.(call_args) in
  let? v := ok_or (load_vault ov owner now) "this wallet has no vault" in
  let n := u64_at ov (queue_count_key owner) in
  if bool_decide (MAX_QUEUED <= n) then Err "at most 32 sends can wait at once"
  else
    let id := queue_id tx.(tx_hash) in
    match queued ov owner id with
    | Some _ => Err "this send is already waiting"
    | None =>
        let at_ := isat_add now (delay_for v.(settings) b.(qb_amount)) in
        let ov := save ov (queue_key owner id) (MkQueued id b.(qb_to) b.(qb_amount) at_ now) in
        Ok (put_u64 ov (queue_count_key owner) (n + 1))
    end.

Definition apply_op (ov : Ov) (block : LedgerBlock) (tx : LedgerTx) : result Ov string :=
  let? _ := well_formed tx in
  let now := block.(b_timestamp) in
  if bool_decide (tx.(tx_type) = TX_SET) then op_set ov tx now
  else if bool_decide (tx.(tx_type) = TX_OFF) then op_off ov tx now
  else if bool_decide (tx.(tx_type) = TX_UNFREEZE) then op_unfreeze ov tx now
  else if bool_decide (tx.(tx_type) = TX_FREEZE) then op_freeze ov tx now
  else if bool_decide (tx.(tx_type) = TX_CANCEL) then op_cancel ov tx now
  else op_queue ov tx now.

(** *** Applying a block *)

(** What the first loop of [apply_effects] collects: the outflow counted for each
    wallet and the waiting sends that went out. *)
Record Effects : Type := MkEffects {
  ef_cache : gmap string (option Vault);
  ef_counted : gmap string Z;
  ef_execs : list (string * string);
}.

Definition collect_effect (ov : Ov) (now height : Z) (e : Effects) (tx : LedgerTx) : Effects :=
  let owner := tx.(tx_from) in
  let entry := cached_vault e.(ef_cache) ov owner now in
  let cache := <[owner := entry]> e.(ef_cache) in
  match entry with
  | None => MkEffects cache e.(ef_counted) e.(ef_execs)
  | Some v =>
      match gate v ov tx now height with
      | GateCounted n =>
          if bool_decide (0 < n) then
            MkEffects cache
              (<[owner := wrapping_add64 (default 0 (e.(ef_counted) !! owner)) n]> e.(ef_counted)) e.(ef_execs)
          else MkEffects cache e.(ef_counted) e.(ef_execs)
      | GateExec id => MkEffects cache e.(ef_counted) (e.(ef_execs) ++ [(owner, id)])
      | _ => MkEffects cache e.(ef_counted) e.(ef_execs)
      end
  end.

Definition collect_effects (ov : Ov) (now height : Z) (txs : list LedgerTx) : Effects :=
  foldl (collect_effect ov now height) (MkEffects ∅ ∅ []) (filter (fun tx => subject tx = true) txs).

Definition count_spent (now : Z) (ov : Ov) (on : string * Z) : Ov :=
  let total := sat_add u64_max (spent_today ov on.1 now) on.2 in
  save ov (spent_key on.1) (MkSpent (now / DAY_SECS) total).

Definition drop_exec (ov : Ov) (oi : string * string) : Ov :=
  match queued ov oi.1 oi.2 with
  | None => ov
  | Some _ =>
      let ov := ov_del (queue_key oi.1 oi.2) ov in
      let n := u64_at ov (queue_count_key oi.1) in
      put_u64 ov (queue_count_key oi.1) (sat_sub n 1)
  end.

(** An operation that fails has no effect. *)
Definition try_op (block : LedgerBlock) (ov : Ov) (tx : LedgerTx) : Ov :=
  match apply_op ov block tx with
  | Ok ov => ov
  | Err _ => ov
  end.

Definition apply_effects (ov : Ov) (block : LedgerBlock) (txs : list LedgerTx) : Ov :=
  let now := block.(b_timestamp) in
  let e := collect_effects ov now block.(b_height) txs in
  let ov := foldl (count_spent now) ov (btree_map e.(ef_counted)) in
  let ov := foldl drop_exec ov e.(ef_execs) in
  foldl (try_op block) ov (filter (fun tx => is_vault_op tx = true) txs).

Definition apply_block (ov : Ov) (block : LedgerBlock) (txs : list LedgerTx) : Ov :=
  if rule_active block.(b_height) then apply_effects ov block txs else ov.
End VaultChain.
