(* ===== verification/VaultFacts.v ===== *)
(** * Lemmas about the wallet vault

    Keys of different wallets never meet; [tighter] is an order under which
    limits fall and delays grow; what one operation does to a wallet. *)
From Stdlib Require Import Ascii.
From S2P Require Import Prelude Crypto Ledger RuleText LedgerFacts Vault.
Local Open Scope string_scope.
Local Open Scope list_scope.
Local Open Scope Z_scope.
Local Open Scope ego_scope.

(** ** Keys *)

Lemma valid_addr_no_colon s : valid_addr s = true -> no_colon s = true.
Proof.
  unfold valid_addr, no_colon, all_bytes. intros [_ Hs]%andb_prop.
  rewrite forallb_forall in Hs |- *. intros b Hb. specialize (Hs b Hb).
  unfold is_lower, is_digit in Hs. destruct (Z.eqb_spec b 58) as [->|]; [|done]. done.
Qed.

Lemma vault_key_inj o o' : vault_key o = vault_key o' -> o = o'.
Proof. intros E%ascii_bytes_inj. by injection E. Qed.

Lemma spent_key_inj o o' : spent_key o = spent_key o' -> o = o'.
Proof. intros E%ascii_bytes_inj. by injection E. Qed.

Lemma queue_key_inj o id o' id' :
  no_colon o = true -> no_colon o' = true -> queue_key o id = queue_key o' id' -> o = o' /\ id = id'.
Proof. intros Ho Ho' E%ascii_bytes_inj. injection E as E. by apply colon_split. Qed.

(** Keys of different kinds differ in their first letters. *)
Ltac keys_differ :=
  let E := fresh in
  intros E; unfold vault_key, queue_key, queue_count_key, spent_key, helper_key in E;
  apply ascii_bytes_inj in E; discriminate E.

#[export] Hint Extern 1 (_ <> _) => keys_differ : keys.

(** ** Settings *)

Lemma tighter_spec new old :
  tighter new old = true <->
  new.(limit) <= old.(limit) /\ old.(delay) <= new.(delay) /\
  (old.(high_limit) = 0 -> new.(high_limit) = 0 \/ old.(delay) <= new.(high_delay)) /\
  (old.(high_limit) <> 0 -> 0 < new.(high_limit) <= old.(high_limit) /\ old.(high_delay) <= new.(high_delay)) /\
  new.(recovery) = old.(recovery) /\ new.(second_key) = old.(second_key) /\
  (forall g, g ∈ old.(guardians) -> g ∈ new.(guardians)).
Proof.
  unfold tighter. rewrite !andb_true_iff, !bool_decide_eq_true, forallb_forall.
  assert (Hg : (forall g, List.In g old.(guardians) -> bool_decide (g ∈ new.(guardians)) = true) <->
               (forall g, g ∈ old.(guardians) -> g ∈ new.(guardians))).
  { split; intros Hg g Hi; specialize (Hg g); rewrite ?bool_decide_eq_true, <-?list_elem_of_In in *; auto. }
  rewrite Hg. case_bool_decide as Hz; rewrite ?orb_true_iff, ?andb_true_iff, ?bool_decide_eq_true;
    naive_solver lia.
Qed.

Lemma tighter_refl s : 0 <= s.(high_limit) -> tighter s s = true.
Proof. intros. apply tighter_spec. split_and!; auto with lia. Qed.

Lemma tighter_trans a b c : tighter a b = true -> tighter b c = true -> tighter a c = true.
Proof.
  rewrite !tighter_spec. intros (?&?&Ha&Hb&?&?&?) (?&?&Hc&Hd&?&?&?).
  split_and!; [lia|lia| | |congruence|congruence|auto].
  - intros Hz. destruct (Hc Hz) as [Hm|Hm].
    + destruct (Ha Hm); [by left|right; lia].
    + destruct (decide (b.(high_limit) = 0)) as [Hm0|Hm0]; [destruct (Ha Hm0); [by left|right; lia]|].
      destruct (Hb Hm0). right. lia.
  - intros Hz. destruct (Hd Hz) as [? ?]. destruct (Hb ltac:(lia)). lia.
Qed.

(** What [check_settings] guarantees. *)
Lemma check_settings_ok owner s :
  check_settings owner s = Ok tt ->
  MIN_DELAY_SECS <= s.(delay) <= MAX_DELAY_SECS /\
  (s.(high_limit) = 0 -> s.(high_delay) = 0) /\
  (s.(high_limit) <> 0 -> s.(limit) < s.(high_limit) /\ s.(delay) < s.(high_delay) <= MAX_DELAY_SECS).
Proof.
  unfold check_settings.
  destruct (bool_decide (MIN_DELAY_SECS <= s.(delay) <= MAX_DELAY_SECS)) eqn:E1; [|done].
  apply bool_decide_eq_true in E1. cbn [negb].
  destruct (bool_decide (s.(high_limit) = 0) && bool_decide (s.(high_delay) <> 0)) eqn:E2; [done|].
  destruct (bool_decide (s.(high_limit) <> 0) && _) eqn:E3; [done|]. intros _.
  split; [done|]. split.
  - intros Hz. rewrite bool_decide_true in E2 by done. apply bool_decide_eq_false in E2.
    by destruct (decide (s.(high_delay) = 0)).
  - intros Hnz. rewrite bool_decide_true in E3 by done. cbn [andb] in E3.
    rewrite !orb_false_iff, !bool_decide_eq_false in E3. lia.
Qed.

(** A tighter vault makes every send wait at least as long. *)
Lemma delay_for_tighter owner new old amount :
  check_settings owner old = Ok tt -> tighter new old = true ->
  delay_for old amount <= delay_for new amount.
Proof.
  intros (_ & _ & Hhi)%check_settings_ok (?&?&H1&H2&_)%tighter_spec. unfold delay_for.
  destruct (decide (old.(high_limit) = 0)) as [Hz|Hz].
  - specialize (H1 Hz). repeat (case_bool_decide; cbn [andb]); try lia.
  - specialize (H2 Hz). specialize (Hhi Hz). repeat (case_bool_decide; cbn [andb]); lia.
Qed.

Lemma delay_for_least owner s amount :
  check_settings owner s = Ok tt -> s.(delay) <= delay_for s amount <= MAX_DELAY_SECS.
Proof.
  intros (Hd & _ & Hhi)%check_settings_ok. unfold delay_for.
  destruct (decide (s.(high_limit) = 0)) as [Hz|Hz].
  - rewrite (bool_decide_false (0 < _)) by lia. cbn. lia.
  - specialize (Hhi Hz). repeat (case_bool_decide; cbn [andb]); lia.
Qed.

(** ** What the operations write *)

Section Views.
Context `{CryptoPrims} `{ChainPrims}.
Context `{Json Vault} `{Json Queued} `{Json Spent}.
Context `{!JsonRoundTrip Vault} `{!JsonRoundTrip Queued} `{!JsonRoundTrip Spent}.
Context `{Json SetBody} `{Json OwnerBody} `{Json CancelBody} `{Json QueueBody} `{Json EmptyBody}.
Implicit Types ov : Ov.

Lemma store_get_ne ov o before after k :
  (forall h, helper_key h o <> k) -> vault_key o <> k -> ov_get k (store ov o before after) = ov_get k ov.
Proof.
  intros Hh Hv. unfold store.
  assert (Hrest : ov_get k
     (foldl (fun ov h => ov_put (helper_key h o) (ascii_bytes "1") ov)
        (foldl (fun ov h => ov_del (helper_key h o) ov) ov
           (btree_set (from_option all_helpers ∅ before ∖ from_option all_helpers ∅ after)))
        (btree_set (from_option all_helpers ∅ after ∖ from_option all_helpers ∅ before))) = ov_get k ov).
  { rewrite fold_get_ne by (intros; by apply ov_get_put_ne).
    apply fold_get_ne. intros. by apply ov_get_del_ne. }
  destruct after; [unfold save; rewrite ov_get_put_ne by done|rewrite ov_get_del_ne by done]; apply Hrest.
Qed.

Lemma store_raw ov o before after : raw_vault (store ov o before (Some after)) o = Some after.
Proof. unfold raw_vault, store. apply load_save. Qed.

Lemma store_raw_ne ov o before after o' :
  o <> o' -> raw_vault (store ov o before after) o' = raw_vault ov o'.
Proof.
  intros Hne. apply load_same, store_get_ne; [intros h; keys_differ|].
  by intros ?%vault_key_inj.
Qed.

Lemma store_queued ov o before after o' id :
  queued (store ov o before after) o' id = queued ov o' id.
Proof. apply load_same, store_get_ne; [intros h; keys_differ|keys_differ]. Qed.

Lemma store_spent ov o before after o' now :
  spent_today (store ov o before after) o' now = spent_today ov o' now.
Proof.
  unfold spent_today. erewrite load_same; [done|].
  apply store_get_ne; [intros h; keys_differ|keys_differ].
Qed.

(** What a wallet's rules are made of, and whether a step left it alone. *)
Record same_wallet (o : string) (now : Z) (ov ov' : Ov) : Prop := {
  same_raw : raw_vault ov' o = raw_vault ov o;
  same_queued : forall id, queued ov' o id = queued ov o id;
  same_spent : spent_today ov' o now = spent_today ov o now;
}.

Lemma same_wallet_keys o now ov ov' :
  (forall k, k = vault_key o \/ k = spent_key o \/ (exists id, k = queue_key o id) ->
     ov_get k ov' = ov_get k ov) -> same_wallet o now ov ov'.
Proof.
  intros Hk. split.
  - apply load_same, Hk. by left.
  - intros id. apply load_same, Hk. right. right. by eexists.
  - unfold spent_today. erewrite load_same; [done|]. apply Hk. auto.
Qed.

Lemma same_wallet_refl o now ov : same_wallet o now ov ov.
Proof. by split. Qed.

Lemma same_wallet_trans o now a b c : same_wallet o now a b -> same_wallet o now b c -> same_wallet o now a c.
Proof. intros [Ea Eb Ec] [Ea' Eb' Ec']. split; [congruence|intros; congruence|congruence]. Qed.

Lemma same_wallet_put_count o now ov o' n : same_wallet o now ov (put_u64 ov (queue_count_key o') n).
Proof.
  apply same_wallet_keys. intros k [->|[->|(id & ->)]]; apply ov_get_put_u64_ne; auto with keys.
Qed.

Lemma same_wallet_store o now ov o' before after :
  o' <> o -> same_wallet o now ov (store ov o' before after).
Proof.
  intros Hne. split; [by apply store_raw_ne|intros; apply store_queued|apply store_spent].
Qed.

Lemma same_wallet_del_queue o now ov o' id :
  no_colon o = true -> no_colon o' = true -> o' <> o ->
  same_wallet o now ov (ov_del (queue_key o' id) ov).
Proof.
  intros Ho Ho' Hne. apply same_wallet_keys. intros k Hk. apply ov_get_del_ne.
  destruct Hk as [->|[->|(id' & ->)]]; [keys_differ|keys_differ|].
  intros [? _]%queue_key_inj; done.
Qed.

Lemma same_wallet_save_queue o now ov o' id (q : Queued) :
  no_colon o = true -> no_colon o' = true -> o' <> o ->
  same_wallet o now ov (save ov (queue_key o' id) q).
Proof.
  intros Ho Ho' Hne. apply same_wallet_keys. intros k Hk. apply ov_get_put_ne.
  destruct Hk as [->|[->|(id' & ->)]]; [keys_differ|keys_differ|].
  intros [? _]%queue_key_inj; done.
Qed.

Lemma same_wallet_del_spent o now ov o' : o' <> o -> same_wallet o now ov (ov_del (spent_key o') ov).
Proof.
  intros Hne. apply same_wallet_keys. intros k Hk. apply ov_get_del_ne.
  destruct Hk as [->|[->|(id & ->)]]; [keys_differ|by intros ?%spent_key_inj|keys_differ].
Qed.

Lemma same_wallet_fold {A} o now (f : Ov -> A -> Ov) (l : list A) ov :
  (forall ov a, a ∈ l -> same_wallet o now ov (f ov a)) -> same_wallet o now ov (foldl f ov l).
Proof.
  revert ov; induction l as [|a l IH]; intros ov Hf; [apply same_wallet_refl|]. cbn [foldl].
  apply (same_wallet_trans _ _ _ (f ov a)); [apply Hf, list_elem_of_here|].
  apply IH. intros. by apply Hf, list_elem_of_further.
Qed.

(** *** Operations on another wallet *)

(** The wallet an operation is about. *)
Definition op_target (tx : LedgerTx) : string :=
  if bool_decide (tx.(tx_type) = TX_FREEZE) then
    match from_str (A := OwnerBody) tx.(call_args) with
    | Ok b => b.(ob_owner)
    | Err _ => tx.(tx_from)
    end
  else if bool_decide (tx.(tx_type) = TX_CANCEL) then
    match from_str (A := CancelBody) tx.(call_args) with
    | Ok b => b.(cb_owner)
    | Err _ => tx.(tx_from)
    end
  else tx.(tx_from).

Lemma well_formed_target tx :
  well_formed tx = Ok tt -> no_colon tx.(tx_from) = true -> no_colon (op_target tx) = true.
Proof.
  intros Hw Hf. unfold op_target.
  case_bool_decide as E1; [|case_bool_decide as E2; [|done]].
  - destruct (from_str tx.(call_args)) as [b|] eqn:Eb; [|done]. apply valid_addr_no_colon.
    unfold well_formed in Hw. rewrite E1 in Hw.
    destruct (negb _); [done|]. destruct (_ || _); [done|]. destruct (bool_decide _); [done|].
    destruct (negb _); [done|]. rewrite bool_decide_false, bool_decide_true, Eb in Hw by done. cbn in Hw.
    by destruct (valid_addr b.(ob_owner)).
  - destruct (from_str tx.(call_args)) as [b|] eqn:Eb; [|done]. apply valid_addr_no_colon.
    unfold well_formed in Hw. rewrite E2 in Hw.
    destruct (negb _); [done|]. destruct (_ || _); [done|]. destruct (bool_decide _); [done|].
    destruct (negb _); [done|].
    rewrite bool_decide_false, bool_decide_false, bool_decide_true, Eb in Hw by done. cbn in Hw.
    by destruct (valid_addr b.(cb_owner)).
Qed.

Lemma op_set_other o t ov tx now ov' :
  tx.(tx_from) <> o -> op_set ov tx now = Ok ov' -> same_wallet o t ov ov'.
Proof. intros Hne Hop. unfold op_set in Hop. op_cases. by apply same_wallet_store. Qed.

Lemma op_unfreeze_other o t ov tx now ov' :
  tx.(tx_from) <> o -> op_unfreeze ov tx now = Ok ov' -> same_wallet o t ov ov'.
Proof. intros Hne Hop. unfold op_unfreeze in Hop. op_cases; by apply same_wallet_store. Qed.

Lemma op_off_other o t ov tx now ov' :
  no_colon o = true -> no_colon tx.(tx_from) = true ->
  tx.(tx_from) <> o -> op_off ov tx now = Ok ov' -> same_wallet o t ov ov'.
Proof.
  intros Ho Hf Hne Hop. unfold op_off in Hop. op_cases; [|by apply same_wallet_store].
  eapply same_wallet_trans; [|by apply same_wallet_del_spent].
  eapply same_wallet_trans; [|apply same_wallet_put_count].
  eapply same_wallet_trans; [|apply same_wallet_fold; intros; by apply same_wallet_del_queue].
  by apply same_wallet_store.
Qed.

Lemma op_freeze_other o t ov tx now ov' b :
  from_str tx.(call_args) = Ok b -> b.(ob_owner) <> o ->
  op_freeze ov tx now = Ok ov' -> same_wallet o t ov ov'.
Proof.
  intros Eb Hne Hop. unfold op_freeze in Hop. rewrite Eb in Hop. cbn [result_bind] in Hop. op_cases.
  by apply same_wallet_store.
Qed.

Lemma op_cancel_other o t ov tx now ov' b :
  from_str tx.(call_args) = Ok b -> b.(cb_owner) <> o -> no_colon o = true -> no_colon b.(cb_owner) = true ->
  op_cancel ov tx now = Ok ov' -> same_wallet o t ov ov'.
Proof.
  intros Eb Hne Ho Hb Hop. unfold op_cancel in Hop. rewrite Eb in Hop. cbn [result_bind] in Hop. op_cases.
  - by apply same_wallet_store.
  - eapply same_wallet_trans; [|apply same_wallet_put_count]. by apply same_wallet_del_queue.
Qed.

Lemma op_queue_other o t ov tx now ov' :
  no_colon o = true -> no_colon tx.(tx_from) = true ->
  tx.(tx_from) <> o -> op_queue ov tx now = Ok ov' -> same_wallet o t ov ov'.
Proof.
  intros Ho Hf Hne Hop. unfold op_queue in Hop. op_cases.
  eapply same_wallet_trans; [|apply same_wallet_put_count]. by apply same_wallet_save_queue.
Qed.

(** The operation a transaction is, by its type. *)
Lemma apply_op_cases ov block tx ov' :
  apply_op ov block tx = Ok ov' ->
  well_formed tx = Ok tt /\
  let now := block.(b_timestamp) in
  (tx.(tx_type) = TX_SET /\ op_set ov tx now = Ok ov') \/
  (tx.(tx_type) = TX_OFF /\ op_off ov tx now = Ok ov') \/
  (tx.(tx_type) = TX_UNFREEZE /\ op_unfreeze ov tx now = Ok ov') \/
  (tx.(tx_type) = TX_FREEZE /\ op_freeze ov tx now = Ok ov') \/
  (tx.(tx_type) = TX_CANCEL /\ op_cancel ov tx now = Ok ov') \/
  (tx.(tx_type) <> TX_FREEZE /\ tx.(tx_type) <> TX_CANCEL /\ op_queue ov tx now = Ok ov').
Proof.
  unfold apply_op. intros ([] & Hw & Hop)%result_bind_Ok. split; [done|].
  repeat case_bool_decide; tauto.
Qed.

Lemma apply_op_other o t ov block tx ov' :
  no_colon o = true -> no_colon tx.(tx_from) = true -> op_target tx <> o ->
  apply_op ov block tx = Ok ov' -> same_wallet o t ov ov'.
Proof.
  intros Ho Hf Ht (Hw & Hop)%apply_op_cases. cbn zeta in Hop.
  pose proof (well_formed_target tx Hw Hf) as Htc. unfold op_target in Ht, Htc.
  destruct Hop as [[E Hop]|[[E Hop]|[[E Hop]|[[E Hop]|[[E Hop]|(E & E' & Hop)]]]]];
    try rewrite E in Ht; try rewrite E in Htc.
  - by apply (op_set_other o t) in Hop.
  - by apply (op_off_other o t) in Hop.
  - by apply (op_unfreeze_other o t) in Hop.
  - rewrite bool_decide_true in Ht by done. pose proof Hop as Hop'. unfold op_freeze in Hop'.
    destruct (from_str tx.(call_args)) as [b|] eqn:Eb; [|done]. by eapply op_freeze_other.
  - rewrite bool_decide_false, bool_decide_true in Ht, Htc by done.
    pose proof Hop as Hop'. unfold op_cancel in Hop'.
    destruct (from_str tx.(call_args)) as [b|] eqn:Eb; [|done]. by eapply op_cancel_other.
  - rewrite !bool_decide_false in Ht by done. by apply (op_queue_other o t) in Hop.
Qed.
End Views.
