(* ===== verification/VaultGuard.v ===== *)
(** * What a vault guards

    While the second key does not sign, nothing the owner's key can do loosens
    the vault before the delay of the settings in force has passed. *)
From S2P Require Import Prelude Crypto Ledger RuleText LedgerFacts Vault VaultFacts.
Local Open Scope string_scope.
Local Open Scope list_scope.
Local Open Scope Z_scope.
Local Open Scope ego_scope.

Section Guard.
Context `{CryptoPrims} `{ChainPrims}.
Context `{Json Vault} `{Json Queued} `{Json Spent}.
Context `{!JsonRoundTrip Vault} `{!JsonRoundTrip Queued} `{!JsonRoundTrip Spent}.
Context `{Json SetBody} `{Json OwnerBody} `{Json CancelBody} `{Json QueueBody} `{Json EmptyBody}.
Implicit Types ov : Ov.

(** The wallet, the settings in force at time [t0], whether it was frozen then, and
    the sends that were waiting then. *)
Context (owner : string) (s : Settings) (t0 : Z) (fz : bool) (waiting : string -> option Queued).

Record Guarded (ov : Ov) : Prop := {
  guarded_vault : exists v, raw_vault ov owner = Some v /\
    tighter v.(settings) s = true /\
    (forall p, v.(pending) = Some p -> t0 + s.(delay) <= p.(p_at)) /\
    (fz = true -> v.(frozen) = true);
  guarded_queue : forall id q, queued ov owner id = Some q ->
    waiting id = Some q \/ t0 + delay_for s q.(q_amount) <= q.(q_at);
}.

(** The second key has not signed the transaction. *)
Definition unsigned (tx : LedgerTx) : Prop :=
  s.(second_key) = "" \/ cosign_signer tx <> Some s.(second_key).

Context (Hs : check_settings owner s = Ok tt).
Context (Ho : no_colon owner = true).
Context (Ht0 : i64_min <= t0 /\ t0 + MAX_DELAY_SECS <= i64_max).

Lemma unsigned_cosigned v tx :
  tighter v.(settings) s = true -> unsigned tx -> cosigned v tx = false.
Proof.
  intros (_&_&_&_&_&Ek&_)%tighter_spec Hu. unfold cosigned. rewrite Ek.
  destruct Hu as [->|Hu]; [done|].
  rewrite (bool_decide_false (cosign_signer tx = _)) by done. apply andb_false_r.
Qed.

(** Waiting at least [d] from a time in the window reaches past [t0 + d']. *)
Lemma isat_add_late now d d' :
  t0 <= now -> d' <= d -> d' <= MAX_DELAY_SECS -> t0 + d' <= isat_add now d.
Proof. unfold isat_add. lia. Qed.

Lemma delay_bounds : 0 < s.(delay) <= MAX_DELAY_SECS.
Proof. destruct (check_settings_ok owner s Hs) as (Hd & _). unfold MIN_DELAY_SECS in Hd. lia. Qed.

Lemma longest_late v now :
  tighter v.(settings) s = true -> t0 <= now -> t0 + s.(delay) <= isat_add now (longest_delay v.(settings)).
Proof.
  intros (_&Hd&_)%tighter_spec Hn. pose proof delay_bounds. apply isat_add_late; [done| |lia].
  unfold longest_delay. lia.
Qed.

(** In the window the stored vault is the effective one. *)
Lemma effective_now v now :
  (forall p, v.(pending) = Some p -> t0 + s.(delay) <= p.(p_at)) -> now < t0 + s.(delay) ->
  effective v now = Some v.
Proof.
  intros Hp Hn. unfold effective. destruct v.(pending) as [p|]; [|done].
  specialize (Hp p eq_refl). by rewrite bool_decide_true by lia.
Qed.

(** A step that leaves the wallet alone, or only takes from its queue. *)
Lemma guarded_shrink ov ov' :
  raw_vault ov' owner = raw_vault ov owner ->
  (forall id q, queued ov' owner id = Some q -> queued ov owner id = Some q) ->
  Guarded ov -> Guarded ov'.
Proof.
  intros Er Eq [Hv Hq]. split; [by rewrite Er|]. intros id q Hi. by apply Hq, Eq.
Qed.

Lemma guarded_same t ov ov' : same_wallet owner t ov ov' -> Guarded ov -> Guarded ov'.
Proof. intros [Er Eq _]. apply guarded_shrink; [done|]. intros id q. by rewrite Eq. Qed.

(** Storing a vault that is still guarded. *)
Lemma guarded_store ov before v :
  Guarded ov -> tighter v.(settings) s = true ->
  (forall p, v.(pending) = Some p -> t0 + s.(delay) <= p.(p_at)) -> (fz = true -> v.(frozen) = true) ->
  Guarded (store ov owner before (Some v)).
Proof.
  intros [_ Hq] Htig Hp Hf. split.
  - exists v. by rewrite store_raw.
  - intros id q. rewrite store_queued. apply Hq.
Qed.

Lemma guarded_del_queue ov id n :
  Guarded ov -> Guarded (put_u64 (ov_del (queue_key owner id) ov) (queue_count_key owner) n).
Proof.
  intros Hg. apply (guarded_same t0 (ov_del (queue_key owner id) ov)); [apply same_wallet_put_count|].
  revert Hg. apply guarded_shrink.
  - apply load_same, ov_get_del_ne. keys_differ.
  - intros id' q. unfold queued, load. rewrite ov_get_del. case_bool_decide; [done|]. done.
Qed.

(** *** One operation on the wallet itself *)

Section Ops.
Context (now : Z) (Hnow : t0 <= now < t0 + s.(delay)).

Lemma guarded_current ov :
  Guarded ov -> exists v, raw_vault ov owner = Some v /\ current (raw_vault ov owner) now = Some v /\
    load_vault ov owner now = Some v /\ tighter v.(settings) s = true /\
    (forall p, v.(pending) = Some p -> t0 + s.(delay) <= p.(p_at)) /\ (fz = true -> v.(frozen) = true).
Proof.
  intros [(v & Ev & Htig & Hp & Hf) _]. exists v. unfold current, load_vault. rewrite Ev. cbn [mbind option_bind].
  rewrite effective_now by (done || lia). done.
Qed.

Lemma op_set_guarded ov tx ov' :
  tx.(tx_from) = owner -> unsigned tx -> Guarded ov -> op_set ov tx now = Ok ov' -> Guarded ov'.
Proof.
  intros Ef Hu Hg Hop. unfold op_set in Hop. rewrite Ef in Hop.
  destruct (guarded_current ov Hg) as (v & _ & Ec & _ & Htig & Hp & Hf). rewrite Ec in Hop. op_cases.
  rewrite (unsigned_cosigned v tx Htig Hu), orb_false_r.
  destruct (tighter _ v.(settings)) eqn:Et; apply guarded_store; try done.
  - by apply (tighter_trans _ v.(settings)).
  - intros p [= <-]. cbn [p_at]. apply longest_late; [done|lia].
Qed.

Lemma op_off_guarded ov tx ov' :
  tx.(tx_from) = owner -> unsigned tx -> Guarded ov -> op_off ov tx now = Ok ov' -> Guarded ov'.
Proof.
  intros Ef Hu Hg Hop. unfold op_off in Hop. rewrite Ef in Hop.
  destruct (guarded_current ov Hg) as (v & _ & Ec & _ & Htig & Hp & Hf). rewrite Ec in Hop.
  cbn [ok_or result_bind] in Hop. rewrite (unsigned_cosigned v tx Htig Hu) in Hop. op_cases.
  apply guarded_store; try done. intros p [= <-]. apply longest_late; [done|lia].
Qed.

Lemma op_unfreeze_guarded ov tx ov' :
  tx.(tx_from) = owner -> unsigned tx -> Guarded ov -> op_unfreeze ov tx now = Ok ov' -> Guarded ov'.
Proof.
  intros Ef Hu Hg Hop. unfold op_unfreeze in Hop. rewrite Ef in Hop.
  destruct (guarded_current ov Hg) as (v & _ & Ec & _ & Htig & Hp & Hf). rewrite Ec in Hop.
  cbn [ok_or result_bind] in Hop. rewrite (unsigned_cosigned v tx Htig Hu) in Hop. op_cases.
  apply guarded_store; try done. intros p [= <-]. apply longest_late; [done|lia].
Qed.

Lemma op_freeze_guarded ov tx ov' b :
  from_str tx.(call_args) = Ok b -> b.(ob_owner) = owner -> Guarded ov ->
  op_freeze ov tx now = Ok ov' -> Guarded ov'.
Proof.
  intros Eb Eo Hg Hop. unfold op_freeze in Hop. rewrite Eb in Hop. cbn [result_bind] in Hop. rewrite Eo in Hop.
  destruct (guarded_current ov Hg) as (v & _ & Ec & _ & Htig & Hp & Hf). rewrite Ec in Hop.
  cbn [ok_or result_bind] in Hop. op_cases.
  assert (Hfr : forall p, p = v.(pending) \/ p = None ->
    Guarded (store ov owner (raw_vault ov owner) (Some (MkVault v.(settings) true p)))).
  { intros p Hpp. apply guarded_store; try done. intros p' Ep. cbn in Ep. subst p.
    destruct Hpp as [E|]; [|done]. by apply Hp. }
  destruct v as [vs vf [[[] ?]|]]; apply Hfr; auto.
Qed.

Lemma op_cancel_guarded ov tx ov' b :
  from_str tx.(call_args) = Ok b -> b.(cb_owner) = owner -> Guarded ov ->
  op_cancel ov tx now = Ok ov' -> Guarded ov'.
Proof.
  intros Eb Eo Hg Hop. unfold op_cancel in Hop. rewrite Eb in Hop. cbn [result_bind] in Hop. rewrite Eo in Hop.
  destruct (guarded_current ov Hg) as (v & _ & Ec & _ & Htig & Hp & Hf). rewrite Ec in Hop.
  cbn [ok_or result_bind] in Hop. op_cases.
  - by apply guarded_store.
  - by apply guarded_del_queue.
Qed.

Lemma op_queue_guarded ov tx ov' :
  tx.(tx_from) = owner -> Guarded ov -> op_queue ov tx now = Ok ov' -> Guarded ov'.
Proof.
  intros Ef Hg Hop. unfold op_queue in Hop. rewrite Ef in Hop.
  destruct (guarded_current ov Hg) as (v & _ & _ & El & Htig & Hp & Hf). rewrite El in Hop.
  apply result_bind_Ok in Hop as (b & _ & Hop). cbn [ok_or result_bind] in Hop. op_cases.
  eapply (guarded_same t0); [apply same_wallet_put_count|]. destruct Hg as [Hv Hq]. split.
  - destruct Hv as (v' & Ev & Hv). exists v'. split; [|done]. rewrite <-Ev. apply load_same, ov_get_put_ne.
    keys_differ.
  - intros id q. destruct (decide (id = queue_id tx.(tx_hash))) as [->|Hne].
    + unfold queued at 1. rewrite load_save. intros [= <-]. right. cbn [q_amount q_at].
      apply isat_add_late; [lia| |].
      * by apply (delay_for_tighter owner).
      * apply (delay_for_least owner s _ Hs).
    + unfold queued at 1. erewrite load_same; [apply Hq|]. apply ov_get_put_ne.
      intros [_ ?]%queue_key_inj; done.
Qed.

(** *** Any operation in a block *)
Lemma try_op_guarded block ov tx :
  block.(b_timestamp) = now -> no_colon tx.(tx_from) = true -> (tx.(tx_from) = owner -> unsigned tx) ->
  Guarded ov -> Guarded (try_op block ov tx).
Proof.
  intros Eb Hf Hu Hg. unfold try_op. destruct (apply_op ov block tx) as [ov'|] eqn:Hop; [|done].
  destruct (decide (op_target tx = owner)) as [Et|Hne]; [|by eapply (guarded_same t0), Hg; eapply apply_op_other].
  apply apply_op_cases in Hop as (Hw & Hop). cbn zeta in Hop. rewrite Eb in Hop. unfold op_target in Et.
  destruct Hop as [[E Hop]|[[E Hop]|[[E Hop]|[[E Hop]|[[E Hop]|(E & E' & Hop)]]]]];
    try rewrite E in Et.
  - by apply op_set_guarded in Hop; auto.
  - by apply op_off_guarded in Hop; auto.
  - by apply op_unfreeze_guarded in Hop; auto.
  - rewrite bool_decide_true in Et by done. pose proof Hop as Hop'. unfold op_freeze in Hop'.
    destruct (from_str tx.(call_args)) as [b|] eqn:Ef; [|done]. by eapply op_freeze_guarded.
  - rewrite bool_decide_false, bool_decide_true in Et by done. pose proof Hop as Hop'. unfold op_cancel in Hop'.
    destruct (from_str tx.(call_args)) as [b|] eqn:Ef; [|done]. by eapply op_cancel_guarded.
  - rewrite !bool_decide_false in Et by done. by apply op_queue_guarded in Hop.
Qed.

Lemma try_op_spent block ov tx t :
  block.(b_timestamp) = now -> no_colon tx.(tx_from) = true -> (tx.(tx_from) = owner -> unsigned tx) ->
  Guarded ov -> spent_today (try_op block ov tx) owner t = spent_today ov owner t.
Proof.
  intros Eb Hf Hu Hg. unfold try_op. destruct (apply_op ov block tx) as [ov'|] eqn:Hop; [|done].
  destruct (decide (op_target tx = owner)) as [Et|Hne]; [|by eapply same_spent, apply_op_other].
  apply apply_op_cases in Hop as (Hw & Hop). cbn zeta in Hop. rewrite Eb in Hop. unfold op_target in Et.
  destruct (guarded_current ov Hg) as (v & _ & Ec & El & Htig & _).
  destruct Hop as [[E Hop]|[[E Hop]|[[E Hop]|[[E Hop]|[[E Hop]|(E & E' & Hop)]]]]];
    try rewrite E in Et.
  - unfold op_set in Hop. op_cases. apply store_spent.
  - rewrite !bool_decide_false in Et by done. unfold op_off in Hop. rewrite Et, Ec in Hop. cbn [ok_or result_bind] in Hop.
    rewrite unsigned_cosigned in Hop by auto. op_cases. apply store_spent.
  - unfold op_unfreeze in Hop. op_cases; apply store_spent.
  - unfold op_freeze in Hop. op_cases. apply store_spent.
  - unfold op_cancel in Hop. op_cases; [apply store_spent|].
    unfold spent_today. erewrite load_same; [done|].
    rewrite ov_get_put_u64_ne by auto with keys. apply ov_get_del_ne. auto with keys.
  - unfold op_queue in Hop. op_cases. unfold spent_today. erewrite load_same; [done|].
    rewrite ov_get_put_u64_ne by auto with keys. apply ov_get_put_ne. auto with keys.
Qed.

(** *** All the operations of a block *)
Lemma ops_guarded block txs ov t :
  block.(b_timestamp) = now ->
  Forall (fun tx => no_colon tx.(tx_from) = true /\ (tx.(tx_from) = owner -> unsigned tx)) txs ->
  Guarded ov ->
  Guarded (foldl (try_op block) ov txs) /\
  spent_today (foldl (try_op block) ov txs) owner t = spent_today ov owner t.
Proof.
  intros Eb Htx. revert ov; induction Htx as [|tx txs [Hc Hu] _ IH]; intros ov Hg; [done|].
  cbn [foldl]. destruct (IH (try_op block ov tx)) as [Hg' Hs']; [by apply try_op_guarded|].
  split; [done|]. rewrite Hs'. by apply try_op_spent.
Qed.
End Ops.
End Guard.

(** ** Counting what leaves *)

Section Count.
Context `{CryptoPrims} `{ChainPrims}.
Context `{Json Vault} `{Json Queued} `{Json Spent}.
Context `{!JsonRoundTrip Vault} `{!JsonRoundTrip Queued} `{!JsonRoundTrip Spent}.
Context `{Json SetBody} `{Json OwnerBody} `{Json CancelBody} `{Json QueueBody} `{Json EmptyBody}.
Implicit Types ov : Ov.

(** Amounts and fees are [u64]. *)
Definition tx_fits (tx : LedgerTx) : Prop := in_u64 tx.(tx_amount) /\ in_u64 tx.(fee_uegoc).

Lemma outflow_bounds tx height : tx_fits tx -> in_u64 (outflow tx height).
Proof.
  intros [Ha Hf]. unfold outflow.
  assert (0 <= (if bool_decide (FEES_V2_FROM_HEIGHT <= height)
                then FEE_ALLOWANCE_V2_UEGOC else FEE_ALLOWANCE_UEGOC)) by (by case_bool_decide).
  destruct (_ || _); machine_lia.
Qed.

Section Wallet.
Context (ov : Ov) (owner : string) (v : Vault) (now height : Z).
Context (Hv : load_vault ov owner now = Some v).

(** What a transaction counts against the limit of the wallet. *)
Definition counted_out (tx : LedgerTx) : option Z :=
  if subject tx && bool_decide (tx.(tx_from) = owner) then
    match gate v ov tx now height with
    | GateCounted n => Some n
    | _ => None
    end
  else None.

Definition counted_sum (txs : list LedgerTx) : Z := zsum (omap counted_out txs).

Lemma counted_out_bounds tx n : tx_fits tx -> counted_out tx = Some n -> in_u64 n.
Proof.
  intros Ht. unfold counted_out. destruct (_ && _); [|done].
  destruct (gate v ov tx now height) eqn:E; try done. intros [= <-].
  assert (more = outflow tx height) as ->; [|by apply outflow_bounds].
  unfold gate in E. repeat (case_match; try congruence).
Qed.

Lemma counted_sum_cons tx txs :
  counted_sum (tx :: txs) = default 0 (counted_out tx) + counted_sum txs.
Proof. unfold counted_sum. cbn [omap list_omap]. by destruct (counted_out tx). Qed.

Lemma counted_sum_nonneg txs : Forall tx_fits txs -> 0 <= counted_sum txs.
Proof.
  induction 1 as [|tx txs Ht _ IH]; [done|]. rewrite counted_sum_cons.
  destruct (counted_out tx) as [n|] eqn:E; cbn; [|lia]. apply counted_out_bounds in E; [|done].
  machine_lia.
Qed.

Definition cache_ok (cache : gmap string (option Vault)) : Prop :=
  forall o x, cache !! o = Some x -> x = load_vault ov o now.

Lemma cached_vault_ok cache o : cache_ok cache -> cached_vault cache ov o now = load_vault ov o now.
Proof. intros Hc. unfold cached_vault. destruct (cache !! o) eqn:E; [|done]. by apply Hc. Qed.

Lemma cache_ok_insert cache o : cache_ok cache -> cache_ok (<[o := load_vault ov o now]> cache).
Proof.
  intros Hc o' x. destruct (decide (o = o')) as [<-|].
  - rewrite lookup_insert_eq. by intros [= <-].
  - rewrite lookup_insert_ne by done. apply Hc.
Qed.

Lemma wrapping_small a b : 0 <= a -> 0 <= b -> a + b <= u64_max -> wrapping_add64 a b = a + b.
Proof. intros. unfold wrapping_add64. apply Z.mod_small. lia. Qed.

(** *** The judgement of a block *)

Lemma judge_yes tx p p' :
  judge ov tx p = (p', FitYes) -> p.(pl_now) = now -> p.(pl_height) = height ->
  cache_ok p.(pl_vaults) ->
  p'.(pl_now) = now /\ p'.(pl_height) = height /\ cache_ok p'.(pl_vaults) /\
  match counted_out tx with
  | Some n =>
      fits_limit v (wrapping_add64 (spent_today ov owner now) (default 0 (p.(pl_counted) !! owner))) n = true /\
      default 0 (p'.(pl_counted) !! owner) = wrapping_add64 (default 0 (p.(pl_counted) !! owner)) n
  | None => default 0 (p'.(pl_counted) !! owner) = default 0 (p.(pl_counted) !! owner)
  end /\
  (subject tx = true -> tx.(tx_from) = owner ->
   forall e b, gate v ov tx now height <> GateRefused e b).
Proof.
  unfold judge, counted_out. intros Hj En Eh Hc.
  destruct (subject tx); cbn [negb andb] in *; [|injection Hj as <-; by split_and!].
  rewrite En, Eh, cached_vault_ok in Hj by done. rewrite ?En, ?Eh in Hj.
  pose proof (cache_ok_insert p.(pl_vaults) tx.(tx_from) Hc) as Hc'.
  destruct (decide (tx.(tx_from) = owner)) as [Eo|Ho].
  - rewrite bool_decide_true by done. rewrite Eo, Hv in *. cbn [pl_height pl_counted pl_execs] in Hj.
    rewrite ?En, ?Eh in Hj.
    destruct (gate v ov tx now height) as [|n|id|e [|]] eqn:Eg; cbn [pl_counted] in Hj.
    + injection Hj as <-. by split_and!.
    + destruct (fits_limit _ _ _) eqn:Ef; [|done]. injection Hj as <-.
      split_and!; cbn; try done. by rewrite lookup_insert_eq.
    + case_bool_decide; [done|]. injection Hj as <-. by split_and!.
    + done.
    + done.
  - rewrite bool_decide_false by done.
    destruct (load_vault ov tx.(tx_from) now) as [w|] eqn:Ew; [|injection Hj as <-; by split_and!].
    cbn [pl_height pl_counted pl_execs] in Hj. rewrite ?En, ?Eh in Hj.
    destruct (gate w ov tx now height) as [|n|id|e [|]] eqn:Eg; cbn [pl_counted] in Hj; try done.
    + injection Hj as <-. by split_and!.
    + destruct (fits_limit _ _ _) eqn:Ef; [|done]. injection Hj as <-.
      split_and!; cbn; try done. by rewrite lookup_insert_ne.
    + case_bool_decide; [done|]. injection Hj as <-. by split_and!.
Qed.

Lemma fit_yes tx p p' :
  rule_active p.(pl_height) = true -> fit ov tx p = (p', FitYes) -> judge ov tx p = (p', FitYes).
Proof.
  unfold fit. intros Ha. rewrite Ha. cbn [negb]. rewrite andb_false_r.
  destruct (_ && _); [done|]. by destruct (if is_vault_op tx then _ else _).
Qed.

(** The counted amounts of a block that is accepted stay within the limit. *)
Lemma plan_all_counted txs p p' :
  rule_active height = true -> Forall tx_fits txs ->
  v.(settings).(limit) < u64_max -> in_u64 (spent_today ov owner now) ->
  plan_all ov txs p = Ok p' -> p.(pl_now) = now -> p.(pl_height) = height -> cache_ok p.(pl_vaults) ->
  let c := default 0 (p.(pl_counted) !! owner) in
  0 <= c -> c = 0 \/ spent_today ov owner now + c <= v.(settings).(limit) ->
  (c + counted_sum txs = 0 \/
   spent_today ov owner now + (c + counted_sum txs) <= v.(settings).(limit)) /\
  Forall (fun tx => subject tx = true -> tx.(tx_from) = owner ->
            forall e b, gate v ov tx now height <> GateRefused e b) txs.
Proof.
  intros Ha Htx Hl Hsp. revert p. induction Htx as [|tx txs Ht Htx IH]; intros p Hp En Eh Hc c Hc0 Hcl.
  - unfold counted_sum. cbn. rewrite Z.add_0_r. auto.
  - cbn [plan_all] in Hp. destruct (fit ov tx p) as [p1 []] eqn:Ef; try done.
    apply fit_yes in Ef; [|by rewrite Eh].
    destruct (judge_yes tx p p1 Ef En Eh Hc) as (En1 & Eh1 & Hc1 & Hcount & Hgate).
    specialize (IH p1 Hp En1 Eh1 Hc1). cbn zeta in IH. rewrite counted_sum_cons.
    pose proof (counted_sum_nonneg txs Htx) as Hnn.
    assert (Hstep : default 0 (p1.(pl_counted) !! owner) = c + default 0 (counted_out tx) /\
      0 <= default 0 (counted_out tx) /\
      (c + default 0 (counted_out tx) = 0 \/
       spent_today ov owner now + (c + default 0 (counted_out tx)) <= v.(settings).(limit))).
    { destruct (counted_out tx) as [n|] eqn:Eo; cbn; [|rewrite Hcount; fold c; split_and!; [lia|lia|]; by rewrite Z.add_0_r].
      destruct Hcount as [Hfit ->]. fold c in Hfit |- *.
      pose proof (counted_out_bounds tx n Ht Eo) as Hn. unfold in_u64 in *.
      unfold fits_limit in Hfit. rewrite wrapping_small in Hfit by lia.
      apply orb_prop in Hfit as [->%bool_decide_eq_true|Hfit%bool_decide_eq_true].
      - rewrite Z.add_0_r, wrapping_small by lia. split_and!; [lia|lia|done].
      - unfold sat_add in Hfit. rewrite wrapping_small by lia. split_and!; [lia|lia|]. right. lia. }
    destruct Hstep as (E1 & Hn0 & Hlim). rewrite E1 in IH.
    destruct IH as [IH1 IH2]; [lia|done|]. split; [|by constructor].
    rewrite Z.add_assoc. done.
Qed.

(** *** The effects of a block *)

Lemma collect_counted txs e :
  Forall tx_fits txs -> Forall (fun tx => subject tx = true) txs -> cache_ok e.(ef_cache) ->
  let c := default 0 (e.(ef_counted) !! owner) in
  0 <= c -> c + counted_sum txs <= u64_max ->
  default 0 ((foldl (collect_effect ov now height) e txs).(ef_counted) !! owner) = c + counted_sum txs.
Proof.
  intros Htx. revert e; induction Htx as [|tx txs Ht Htx IH]; intros e Hsub Hc c Hc0 Hmax.
  - unfold counted_sum. cbn. lia.
  - apply Forall_cons in Hsub as [Hst Hsub]. rewrite counted_sum_cons in *. cbn [foldl].
    pose proof (counted_sum_nonneg txs Htx) as Hnn.
    assert (Hone : cache_ok (collect_effect ov now height e tx).(ef_cache) /\
      default 0 ((collect_effect ov now height e tx).(ef_counted) !! owner)
      = c + default 0 (counted_out tx) /\ 0 <= default 0 (counted_out tx)).
    { unfold collect_effect. rewrite cached_vault_ok by done.
      pose proof (cache_ok_insert e.(ef_cache) tx.(tx_from) Hc) as Hc'.
      assert (Hb : forall n, counted_out tx = Some n -> in_u64 n) by (intros; by eapply counted_out_bounds).
      unfold counted_out in *. rewrite Hst in *. cbn [andb] in *.
      destruct (decide (tx.(tx_from) = owner)) as [Eo|Ho].
      - rewrite bool_decide_true in * by done. rewrite Eo, Hv in *.
        destruct (gate v ov tx now height) as [|n|id|e' b] eqn:Eg; try (split_and!; [done|cbn; lia|cbn; lia]).
        specialize (Hb n eq_refl). unfold in_u64 in Hb.
        case_bool_decide; cbn [ef_cache ef_counted default from_option id] in *.
        + rewrite lookup_insert_eq. cbn. rewrite wrapping_small by (fold c; lia). fold c. split_and!; [done|lia|lia].
        + split_and!; [done| |lia]. fold c. lia.
      - rewrite bool_decide_false in * by done. cbn [default from_option id].
        destruct (load_vault ov tx.(tx_from) now) as [w|]; [|split_and!; [done|cbn; lia|lia]].
        destruct (gate w ov tx now height) as [|n|id|e' b]; try (split_and!; [done|cbn; lia|lia]).
        case_bool_decide; cbn [ef_cache ef_counted]; [rewrite lookup_insert_ne by done|];
          split_and!; done || (fold c; lia). }
    destruct Hone as (Hc1 & E1 & Hn0). rewrite IH; [rewrite E1; lia|done|done|rewrite E1; lia|rewrite E1; lia].
Qed.

Lemma counted_sum_subject txs :
  counted_sum (filter (fun tx => subject tx = true) txs) = counted_sum txs.
Proof.
  induction txs as [|tx txs IH]; [done|]. rewrite filter_cons. case_decide as E.
  - by rewrite !counted_sum_cons, IH.
  - rewrite counted_sum_cons, IH. unfold counted_out. by destruct (subject tx).
Qed.
End Wallet.

(** *** Writing the counted amounts *)

Lemma count_spent_wallet l ov' t o :
  (forall ov, raw_vault (foldl (count_spent t) ov l) o = raw_vault ov o) /\
  (forall id, queued (foldl (count_spent t) ov' l) o id = queued ov' o id).
Proof.
  split; [intros ov1|intros id]; apply load_same, fold_get_ne; intros ov2 a _;
    unfold count_spent, save; apply ov_get_put_ne; keys_differ.
Qed.

Lemma count_spent_other l ov' t o :
  o ∉ l.*1 -> spent_today (foldl (count_spent t) ov' l) o t = spent_today ov' o t.
Proof.
  intros Hl. unfold spent_today. erewrite load_same; [done|]. apply fold_get_ne. intros ov1 [o' n] Ha.
  unfold count_spent, save. apply ov_get_put_ne. intros E%spent_key_inj. apply Hl, list_elem_of_fmap.
  cbn in E. subst o'. by exists (o, n).
Qed.

Lemma count_spent_sum l ov' t o :
  NoDup l.*1 -> in_u64 (spent_today ov' o t) ->
  spent_today (foldl (count_spent t) ov' l) o t
  = sat_add u64_max (spent_today ov' o t) (default 0 ((list_to_map l : gmap string Z) !! o)).
Proof.
  revert ov'; induction l as [|[o' n] l IH]; intros ov' Hnd Hsp.
  - cbn. rewrite lookup_empty. cbn. machine_lia.
  - apply NoDup_cons in Hnd as [Ho' Hnd]. cbn [foldl list_to_map foldr fst snd]. cbn in Ho'.
    destruct (decide (o' = o)) as [->|Hne].
    + rewrite count_spent_other by done. rewrite lookup_insert_eq. cbn [default from_option id].
      unfold count_spent, spent_today at 1. cbn [fst snd]. rewrite load_save. cbn [default from_option id sp_day sp_amount].
      by rewrite bool_decide_true.
    + rewrite lookup_insert_ne by done.
      assert (E : spent_today (count_spent t ov' (o', n)) o t = spent_today ov' o t).
      { apply (count_spent_other [(o', n)] ov'). cbn. set_solver. }
      rewrite IH by (done || by rewrite E). by rewrite E.
Qed.

Lemma btree_map_lookup {A} (m : gmap string A) : list_to_map (btree_map m) = m.
Proof.
  unfold btree_map. rewrite (list_to_map_proper (M := gmap string) _ (map_to_list m)).
  - apply list_to_map_to_list.
  - rewrite stable_sort_perm. apply NoDup_fst_map_to_list.
  - apply stable_sort_perm.
Qed.

Lemma drop_exec_wallet l ov' t o :
  raw_vault (foldl drop_exec ov' l) o = raw_vault ov' o /\
  spent_today (foldl drop_exec ov' l) o t = spent_today ov' o t /\
  (forall id q, queued (foldl drop_exec ov' l) o id = Some q -> queued ov' o id = Some q).
Proof.
  assert (Hone : forall ov1 a, raw_vault (drop_exec ov1 a) o = raw_vault ov1 o /\
    spent_today (drop_exec ov1 a) o t = spent_today ov1 o t /\
    (forall id q, queued (drop_exec ov1 a) o id = Some q -> queued ov1 o id = Some q)).
  { intros ov1 a. unfold drop_exec. destruct (queued ov1 a.1 a.2); [|done].
    destruct (same_wallet_put_count o t (ov_del (queue_key a.1 a.2) ov1) a.1
      (sat_sub (u64_at (ov_del (queue_key a.1 a.2) ov1) (queue_count_key a.1)) 1)) as [Er Eq Es].
    rewrite Er, Es. split_and!.
    - apply load_same, ov_get_del_ne. keys_differ.
    - unfold spent_today. erewrite load_same; [done|]. apply ov_get_del_ne. keys_differ.
    - intros id q'. rewrite Eq. unfold queued, load. rewrite ov_get_del. by case_bool_decide. }
  revert ov'; induction l as [|a l IH]; intros ov'; [done|]. cbn [foldl].
  destruct (IH (drop_exec ov' a)) as (-> & -> & Hq). destruct (Hone ov' a) as (-> & -> & Hq').
  split_and!; [done|done|]. eauto.
Qed.
End Count.
