(* ===== verification/VaultHelpers.v ===== *)
(** * What others can do to a vault

    Guardians and the second key can freeze a wallet and cancel what waits;
    nobody but the owner can do anything else. *)
From S2P Require Import Prelude Crypto Ledger RuleText LedgerFacts Vault VaultFacts VaultGuard.
Local Open Scope string_scope.
Local Open Scope list_scope.
Local Open Scope Z_scope.
Local Open Scope ego_scope.

Section Helpers.
Context `{CryptoPrims} `{ChainPrims}.
Context `{Json Vault} `{Json Queued} `{Json Spent}.
Context `{!JsonRoundTrip Vault} `{!JsonRoundTrip Queued} `{!JsonRoundTrip Spent}.
Context `{Json SetBody} `{Json OwnerBody} `{Json CancelBody} `{Json QueueBody} `{Json EmptyBody}.
Implicit Types ov : Ov.

Lemma effective_idem v now w : effective v now = Some w -> effective w now = Some w.
Proof.
  unfold effective at 1. destruct v as [vs vf [[c at_]|]]; cbn; [|by intros [= <-]].
  case_bool_decide as Hn.
  - intros [= <-]. unfold effective. cbn. by rewrite bool_decide_true.
  - by destruct c; intros [= <-].
Qed.

Context (owner : string) (now : Z).

(** The vault of the wallet before and after: frozen or with its pending change
    cancelled, its queue shorter, nothing else. *)
Record only_protected (v0 : Vault) (ov0 ov : Ov) : Prop := {
  prot_vault : exists v, load_vault ov owner now = Some v /\
    v.(settings) = v0.(settings) /\ (v0.(frozen) = true -> v.(frozen) = true) /\
    (v.(pending) = v0.(pending) \/ v.(pending) = None);
  prot_queue : forall id q, queued ov owner id = Some q -> queued ov0 owner id = Some q;
  prot_spent : spent_today ov owner now = spent_today ov0 owner now;
}.

Lemma only_protected_same v0 ov0 ov ov' :
  same_wallet owner now ov ov' -> only_protected v0 ov0 ov -> only_protected v0 ov0 ov'.
Proof.
  intros [Er Eq Es] [Hv Hq Hs]. split.
  - unfold load_vault in *. by rewrite Er.
  - intros id q. rewrite Eq. apply Hq.
  - congruence.
Qed.

Lemma load_store ov before v :
  effective v now = Some v -> load_vault (store ov owner before (Some v)) owner now = Some v.
Proof. intros E. unfold load_vault. by rewrite store_raw. Qed.

(** The vault an operation on the wallet finds, and who may change it. *)
Lemma prot_current v0 ov0 ov :
  only_protected v0 ov0 ov -> exists v, current (raw_vault ov owner) now = Some v /\
    effective v now = Some v /\ v.(settings) = v0.(settings) /\ (v0.(frozen) = true -> v.(frozen) = true) /\
    (v.(pending) = v0.(pending) \/ v.(pending) = None).
Proof.
  intros [(v & El & Hv) _ _]. exists v. split; [exact El|]. split; [|done].
  unfold load_vault in El. apply bind_Some in El as (w & _ & El). by eapply effective_idem.
Qed.

Lemma prot_store v0 ov0 ov before v :
  only_protected v0 ov0 ov -> effective v now = Some v -> v.(settings) = v0.(settings) ->
  (v0.(frozen) = true -> v.(frozen) = true) -> v.(pending) = v0.(pending) \/ v.(pending) = None ->
  only_protected v0 ov0 (store ov owner before (Some v)).
Proof.
  intros [_ Hq Hsp] He Hset Hfr Hp. split.
  - exists v. by rewrite load_store.
  - intros id q. rewrite store_queued. apply Hq.
  - by rewrite store_spent.
Qed.

Lemma effective_frozen v : effective v now = Some v ->
  forall p, p = v.(pending) \/ p = None -> effective (MkVault v.(settings) true p) now = Some (MkVault v.(settings) true p).
Proof.
  intros E p [->| ->]; [|done]. destruct v as [vs vf [[c at_]|]]; [|done]. unfold effective in *. cbn in *.
  case_bool_decide; [done|]. by destruct c.
Qed.

Lemma try_op_protects block v0 ov0 ov tx :
  block.(b_timestamp) = now -> no_colon owner = true -> no_colon tx.(tx_from) = true ->
  tx.(tx_from) <> owner -> only_protected v0 ov0 ov ->
  only_protected v0 ov0 (try_op block ov tx) /\
  (tx.(tx_from) ∉ helpers v0.(settings) -> same_wallet owner now ov (try_op block ov tx)).
Proof.
  intros Eb Ho Hf Hne Hp. unfold try_op. destruct (apply_op ov block tx) as [ov'|] eqn:Hop;
    [|split; [done|intros; apply same_wallet_refl]].
  destruct (decide (op_target tx = owner)) as [Et|Hnt].
  2:{ pose proof (apply_op_other owner now ov block tx ov' Ho Hf Hnt Hop) as Hsame.
      split; [by eapply only_protected_same|done]. }
  apply apply_op_cases in Hop as (Hw & Hop). cbn zeta in Hop. rewrite Eb in Hop. unfold op_target in Et.
  destruct (prot_current v0 ov0 ov Hp) as (v & Ec & Ee & Eset & Hfr & Hpen).
  assert (Hhelp : can_help v owner tx.(tx_from) = true -> tx.(tx_from) ∈ helpers v0.(settings)).
  { unfold can_help. rewrite (bool_decide_false (_ = owner)) by done. rewrite Eset. cbn.
    apply bool_decide_eq_true. }
  destruct Hop as [[E Hop]|[[E Hop]|[[E Hop]|[[E Hop]|[[E Hop]|(E & E' & Hop)]]]]];
    try rewrite E in Et; try (rewrite !bool_decide_false in Et by done; done).
  - rewrite bool_decide_true in Et by done. unfold op_freeze in Hop.
    destruct (from_str tx.(call_args)) as [b|]; [|done]. cbn [result_bind] in Hop. rewrite Et, Ec in Hop.
    cbn [ok_or result_bind] in Hop. destruct (can_help v owner tx.(tx_from)) eqn:Eh; [|done].
    cbn [negb] in Hop. op_cases. split; [|intros Hn; by destruct Hn; apply Hhelp].
    pose proof (effective_frozen v Ee) as Hef.
    destruct v as [vs vf [[[] ?]|]]; apply prot_store; try done; try (apply (Hef None); by right);
      try (apply Hef; by left); by right.
  - rewrite bool_decide_false, bool_decide_true in Et by done. unfold op_cancel in Hop.
    destruct (from_str tx.(call_args)) as [b|]; [|done]. cbn [result_bind] in Hop. rewrite Et, Ec in Hop.
    cbn [ok_or result_bind] in Hop. destruct (can_help v owner tx.(tx_from)) eqn:Eh; [|done].
    cbn [negb] in Hop. split; [|intros Hn; by destruct Hn; apply Hhelp]. op_cases.
    + apply prot_store; try done. by right.
    + eapply only_protected_same; [apply same_wallet_put_count|]. destruct Hp as [Hv Hq Hs]. split.
      * unfold load_vault, raw_vault in *. erewrite load_same; [done|]. apply ov_get_del_ne. keys_differ.
      * intros id1 q1. unfold queued at 1, load. rewrite ov_get_del. destruct (bool_decide (queue_key owner _ = _)); [done|]. apply Hq.
      * rewrite <-Hs. unfold spent_today.
        rewrite (load_same ov (ov_del (queue_key owner b.(cb_target)) ov)); [done|].
        apply ov_get_del_ne. keys_differ.
Qed.

Lemma ops_protect block v0 ov0 txs ov :
  block.(b_timestamp) = now -> no_colon owner = true ->
  Forall (fun tx => no_colon tx.(tx_from) = true /\ tx.(tx_from) <> owner) txs ->
  only_protected v0 ov0 ov ->
  only_protected v0 ov0 (foldl (try_op block) ov txs) /\
  (Forall (fun tx => tx.(tx_from) ∉ helpers v0.(settings)) txs ->
   same_wallet owner now ov (foldl (try_op block) ov txs)).
Proof.
  intros Eb Ho Htx. revert ov; induction Htx as [|tx txs [Hc Hne] _ IH]; intros ov Hp.
  - split; [done|]. intros _. apply same_wallet_refl.
  - cbn [foldl]. destruct (try_op_protects block v0 ov0 ov tx Eb Ho Hc Hne Hp) as [Hp' Hs].
    destruct (IH _ Hp') as [Hp'' Hs']. split; [done|]. intros [Hn Hns]%Forall_cons.
    eapply same_wallet_trans; [by apply Hs|by apply Hs'].
Qed.

(** *** The counted amounts and executed sends are the senders' *)

Lemma collect_senders ov height txs e :
  (forall o id, (o, id) ∈ e.(ef_execs) -> o <> owner /\ no_colon o = true) ->
  e.(ef_counted) !! owner = None ->
  Forall (fun tx => no_colon tx.(tx_from) = true /\ tx.(tx_from) <> owner) txs ->
  let e' := foldl (collect_effect ov now height) e txs in
  (forall o id, (o, id) ∈ e'.(ef_execs) -> o <> owner /\ no_colon o = true) /\ e'.(ef_counted) !! owner = None.
Proof.
  intros He Hc Htx. revert e He Hc; induction Htx as [|tx txs [Hcol Hne] _ IH]; intros e He Hc; [done|].
  cbn [foldl]. apply IH; unfold collect_effect; repeat (case_match; cbn [ef_execs ef_counted]; try done).
  - intros o id0 [Hin|[= -> ->]%list_elem_of_singleton]%elem_of_app; [by eapply He|done].
  - by rewrite lookup_insert_ne.
Qed.

Lemma apply_block_protects ov block txs v0 :
  block.(b_timestamp) = now -> no_colon owner = true -> load_vault ov owner now = Some v0 ->
  Forall (fun tx => no_colon tx.(tx_from) = true /\ tx.(tx_from) <> owner) txs ->
  only_protected v0 ov (apply_block ov block txs) /\
  (Forall (fun tx => tx.(tx_from) ∉ helpers v0.(settings)) txs ->
   same_wallet owner now ov (apply_block ov block txs)).
Proof.
  intros Eb Ho El Htx.
  assert (Hstart : only_protected v0 ov ov) by (split; [exists v0; naive_solver|done|done]).
  unfold apply_block. destruct (rule_active _); [|split; [done|intros _; apply same_wallet_refl]].
  unfold apply_effects. rewrite Eb.
  set (e := collect_effects ov now block.(b_height) txs).
  destruct (collect_senders ov block.(b_height) (filter (fun tx => subject tx = true) txs) (MkEffects ∅ ∅ []))
    as [Hex Hct]; [by intros ?? ?%not_elem_of_nil|apply lookup_empty| |].
  { apply Forall_forall. intros tx [_ Hin]%list_elem_of_filter. by eapply Forall_forall in Htx. }
  fold (collect_effects ov now block.(b_height) txs) in Hex, Hct. fold e in Hex, Hct.
  set (ov2 := foldl drop_exec (foldl (count_spent now) ov (btree_map e.(ef_counted))) e.(ef_execs)).
  assert (Hsame : same_wallet owner now ov ov2).
  { eapply same_wallet_trans; [|apply same_wallet_fold].
    - destruct (count_spent_wallet (btree_map e.(ef_counted)) ov now owner) as [Er Eq].
      split; [apply Er|apply Eq|]. apply count_spent_other.
      intros ([o n] & -> & Hin)%list_elem_of_fmap. unfold btree_map in Hin. rewrite stable_sort_perm in Hin.
      apply elem_of_map_to_list in Hin. cbn in Hct. congruence.
    - intros ov1 [o id] [Hne Hc]%Hex. unfold drop_exec. destruct (queued _ _ _); [|apply same_wallet_refl].
      eapply same_wallet_trans; [|apply same_wallet_put_count]. by apply same_wallet_del_queue. }
  destruct (ops_protect block v0 ov (filter (fun tx => is_vault_op tx = true) txs) ov2) as [Hp Hs]; try done.
  { apply Forall_forall. intros tx [_ Hin]%list_elem_of_filter. by eapply Forall_forall in Htx. }
  { by eapply only_protected_same. }
  split; [done|]. intros Hn. eapply same_wallet_trans; [done|]. apply Hs.
  apply Forall_forall. intros tx [_ Hin]%list_elem_of_filter. by eapply Forall_forall in Hn.
Qed.
End Helpers.
