(* ===== verification/VaultTheorems.v ===== *)
(** * The theorems about the wallet vault *)
From S2P Require Import Prelude Crypto Ledger RuleText LedgerFacts Vault VaultFacts VaultGuard VaultHelpers.
Local Open Scope string_scope.
Local Open Scope list_scope.
Local Open Scope Z_scope.
Local Open Scope ego_scope.

Section Runs.
Context `{CryptoPrims} `{ChainPrims}.
Context `{Json Vault} `{Json Queued} `{Json Spent}.
Context `{!JsonRoundTrip Vault} `{!JsonRoundTrip Queued} `{!JsonRoundTrip Spent}.
Context `{Json SetBody} `{Json OwnerBody} `{Json CancelBody} `{Json QueueBody} `{Json EmptyBody}.
Implicit Types ov : Ov.

(** A run of blocks: each is judged on the store its predecessor left, applied, and
    written. *)
Definition commit (ov : Ov) : Ov := ov_new (flush ov).

Fixpoint vault_run (ov : Ov) (blocks : list (LedgerBlock * list LedgerTx)) : option Ov :=
  match blocks with
  | [] => Some ov
  | (b, txs) :: blocks =>
      match validate ov b txs with
      | Ok _ => vault_run (commit (apply_block ov b txs)) blocks
      | Err _ => None
      end
  end.

Lemma commit_get ov k : ov_get k (commit ov) = ov_get k ov.
Proof. unfold commit, ov_get at 1, ov_committed, ov_new. cbn. rewrite lookup_empty. apply flush_lookup. Qed.

Lemma commit_wallet ov o t : same_wallet o t ov (commit ov).
Proof. apply same_wallet_keys. intros k _. apply commit_get. Qed.

(** The wallet and the settings in force at the start of the window. *)
Context (owner : string) (s : Settings) (t0 : Z).

(** The blocks of the window: while the rule is active, before the delay has
    passed, with no signature of the second key on the owner's transactions. *)
Definition in_window (bt : LedgerBlock * list LedgerTx) : Prop :=
  rule_active bt.1.(b_height) = true /\
  t0 <= bt.1.(b_timestamp) < t0 + s.(delay) /\
  Forall (fun tx => tx_fits tx /\ no_colon tx.(tx_from) = true /\
            (tx.(tx_from) = owner -> unsigned s tx)) bt.2.

(** What a transaction of the owner takes from the day's limit: nothing when it is a
    sweep to the recovery address or a send that has waited. *)
Definition charge (height : Z) (tx : LedgerTx) : Z :=
  if subject tx && bool_decide (tx.(tx_from) = owner) then
    if is_vault_op tx then outflow tx height
    else if bool_decide (tx.(tx_memo) = Some SWEEP_MEMO) && bool_decide (s.(recovery) <> "") &&
            bool_decide (tx.(tx_to) = s.(recovery)) then 0
    else if bool_decide (is_Some (exec_id tx)) then 0
    else outflow tx height
  else 0.

Definition block_charge (bt : LedgerBlock * list LedgerTx) : Z :=
  zsum (charge bt.1.(b_height) <$> bt.2).

Context (Hs : check_settings owner s = Ok tt) (Ho : valid_addr owner = true).
Context (Ht0 : i64_min <= t0 /\ t0 + MAX_DELAY_SECS <= i64_max).
Context (Hlim : 0 <= s.(limit) < u64_max /\ 0 <= s.(high_limit)).

Section Window.
Context (fz : bool) (waiting : string -> option Queued).

Lemma counted_charge ov v now height tx :
  tighter v.(settings) s = true -> (tx.(tx_from) = owner -> unsigned s tx) ->
  (subject tx = true -> tx.(tx_from) = owner -> forall e b, gate v ov tx now height <> GateRefused e b) ->
  default 0 (counted_out ov owner v now height tx) = charge height tx.
Proof.
  intros Htig Hu Hg. unfold counted_out, charge.
  destruct (subject tx); [|done]. case_bool_decide as Eo; [|done]. cbn [andb].
  specialize (Hg eq_refl Eo). specialize (Hu Eo). pose proof (unsigned_cosigned s v tx Htig Hu) as Hc.
  apply tighter_spec in Htig as (_&_&_&_&Er&_&_). unfold gate in *. rewrite Er, Hc in *.
  destruct (is_vault_op tx); [done|]. destruct (_ && _); [done|].
  destruct v.(frozen); [by destruct (Hg _ _ eq_refl)|].
  destruct (exec_id tx) as [id|]; [|by rewrite bool_decide_false by (by intros [])].
  rewrite (bool_decide_true (is_Some (Some id))) by (by eexists).
  destruct (queued ov tx.(tx_from) id) as [q|]; [|by destruct (Hg _ _ eq_refl)].
  destruct (_ || _); [by destruct (Hg _ _ eq_refl)|].
  case_bool_decide; [by destruct (Hg _ _ eq_refl)|]. done.
Qed.

Definition spent_fits ov : Prop := forall t, in_u64 (spent_today ov owner t).

Lemma count_spent_fits l ov t :
  Forall (fun x => 0 <= x.2) l -> spent_fits ov -> spent_fits (foldl (count_spent t) ov l).
Proof.
  intros Hl. revert ov; induction Hl as [|[o n] l Hn _ IH]; intros ov Hf; [done|]. cbn [foldl].
  apply IH. intros t'. cbn in Hn. destruct (decide (o = owner)) as [->|Hne].
  - unfold count_spent, spent_today at 1. cbn [fst snd]. rewrite load_save.
    cbn [default from_option id sp_day sp_amount]. specialize (Hf t). case_bool_decide; machine_lia.
  - unfold spent_today. erewrite load_same; [apply Hf|].
    apply ov_get_put_ne. intros E%spent_key_inj. cbn in E. congruence.
Qed.

Lemma collect_nonneg ov now height txs e :
  map_Forall (fun _ n => 0 <= n) e.(ef_counted) ->
  map_Forall (fun _ n => 0 <= n) (foldl (collect_effect ov now height) e txs).(ef_counted).
Proof.
  revert e; induction txs as [|tx txs IH]; intros e He; [done|]. cbn [foldl]. apply IH.
  unfold collect_effect. repeat (case_match; cbn [ef_counted]; try done).
  apply map_Forall_insert_2; [|done]. unfold wrapping_add64. apply Z.mod_pos_bound. unfold u64_max. lia.
Qed.

Lemma effects_nonneg ov now height txs :
  Forall (fun x => 0 <= x.2) (btree_map (collect_effects ov now height txs).(ef_counted)).
Proof.
  apply Forall_forall. intros [o n]. unfold btree_map. rewrite stable_sort_perm.
  intros Hm%elem_of_map_to_list. revert o n Hm. apply collect_nonneg, map_Forall_empty.
Qed.

(** *** One block of the window *)

Lemma filter_Forall {A} (P Q : A -> Prop) `{!forall x, Decision (P x)} (l : list A) :
  Forall Q l -> Forall Q (filter P l).
Proof. rewrite !Forall_forall. intros Hl x [_ Hx]%list_elem_of_filter. auto. Qed.

(** The judgement of the block for the wallet. *)
Lemma validate_window ov b txs :
  Guarded owner s t0 fz waiting ov -> in_window (b, txs) -> spent_fits ov ->
  validate ov b txs = Ok tt ->
  exists v, load_vault ov owner b.(b_timestamp) = Some v /\ tighter v.(settings) s = true /\
    (fz = true -> v.(frozen) = true) /\
    counted_sum ov owner v b.(b_timestamp) b.(b_height) txs = block_charge (b, txs) /\
    0 <= block_charge (b, txs) /\
    (block_charge (b, txs) = 0 \/
     spent_today ov owner b.(b_timestamp) + block_charge (b, txs) <= s.(limit)) /\
    Forall (fun tx => subject tx = true -> tx.(tx_from) = owner ->
              forall e r, gate v ov tx b.(b_timestamp) b.(b_height) <> GateRefused e r) txs.
Proof.
  intros Hg (Ha & Ht & Htx) Hsp Hval. cbn [fst snd] in *.
  destruct (guarded_current owner s t0 fz waiting b.(b_timestamp) Ht ov Hg)
    as (v & _ & _ & El & Htig & _ & Hf).
  exists v. split; [done|]. split; [done|]. split; [done|].
  unfold validate in Hval. rewrite Ha in Hval. apply result_bind_Ok in Hval as (? & _ & Hval).
  cbn [negb] in Hval. apply result_bind_Ok in Hval as (p' & Hplan & _).
  assert (Hfit : Forall tx_fits txs) by (eapply Forall_impl; [apply Htx|]; naive_solver).
  assert (Hvl : v.(settings).(limit) <= s.(limit)) by (by apply tighter_spec in Htig as [? _]).
  destruct (plan_all_counted ov owner v b.(b_timestamp) b.(b_height) El txs
    (planner_new b.(b_height) b.(b_timestamp)) p' Ha Hfit) as [Hsum Hgate]; try done; [lia|by left|].
  assert (Ec : counted_sum ov owner v b.(b_timestamp) b.(b_height) txs = block_charge (b, txs)).
  { unfold block_charge. cbn [fst snd]. clear Hsum Hfit Hplan.
    induction Htx as [|tx txs (Hf1 & Hc1 & Hu1) _ IH]; [done|].
    apply Forall_cons in Hgate as [Hg1 Hgate]. rewrite counted_sum_cons, fmap_cons, zsum_cons, IH by done.
    f_equal. by apply counted_charge. }
  pose proof (counted_sum_nonneg ov owner v b.(b_timestamp) b.(b_height) txs Hfit).
  split; [done|]. cbn in Hsum. rewrite lookup_empty, Ec in Hsum. cbn [default from_option id] in Hsum.
  rewrite <-Ec at 1. split_and!; [done| |done].
  destruct Hsum; [by left|right; lia].
Qed.

Lemma apply_window ov b txs :
  Guarded owner s t0 fz waiting ov -> in_window (b, txs) -> spent_fits ov -> validate ov b txs = Ok tt ->
  let ov' := commit (apply_block ov b txs) in
  Guarded owner s t0 fz waiting ov' /\ spent_fits ov' /\
  spent_today ov' owner b.(b_timestamp) = spent_today ov owner b.(b_timestamp) + block_charge (b, txs).
Proof.
  intros Hg Hw Hsp Hval.
  destruct (validate_window ov b txs Hg Hw Hsp Hval) as (v & El & Htig & _ & Ec & Hnn & Hb & _).
  destruct Hw as (Ha & Ht & Htx). cbn [fst snd] in *. cbn zeta.
  assert (Hfit : Forall tx_fits txs) by (eapply Forall_impl; [apply Htx|]; naive_solver).
  unfold apply_block. rewrite Ha. unfold apply_effects.
  set (e := collect_effects ov b.(b_timestamp) b.(b_height) txs).
  set (ov1 := foldl (count_spent b.(b_timestamp)) ov (btree_map e.(ef_counted))).
  set (ov2 := foldl drop_exec ov1 e.(ef_execs)).
  destruct (count_spent_wallet (btree_map e.(ef_counted)) ov b.(b_timestamp) owner) as [Er1 Eq1].
  specialize (Er1 ov). fold ov1 in Er1, Eq1.
  destruct (drop_exec_wallet e.(ef_execs) ov1 b.(b_timestamp) owner) as (Er2 & _ & Eq2).
  fold ov2 in Er2, Eq2.
  assert (Hg2 : Guarded owner s t0 fz waiting ov2).
  { revert Hg. apply guarded_shrink; [congruence|]. intros id q Hq. rewrite <-Eq1. by apply Eq2. }
  assert (Hsp2 : forall t, spent_today ov2 owner t = spent_today ov1 owner t).
  { intros t. by destruct (drop_exec_wallet e.(ef_execs) ov1 t owner) as (_ & E & _). }
  assert (Hops : forall t, Guarded owner s t0 fz waiting
      (foldl (try_op b) ov2 (filter (fun tx => is_vault_op tx = true) txs)) /\
    spent_today (foldl (try_op b) ov2 (filter (fun tx => is_vault_op tx = true) txs)) owner t
    = spent_today ov2 owner t).
  { intros t. apply (ops_guarded owner s t0 fz waiting Hs (valid_addr_no_colon _ Ho) Ht0 b.(b_timestamp) Ht);
      [done| |done]. apply filter_Forall. eapply Forall_impl; [apply Htx|]. naive_solver. }
  assert (E1 : spent_today ov1 owner b.(b_timestamp)
               = spent_today ov owner b.(b_timestamp) + block_charge (b, txs)).
  { unfold ov1. rewrite count_spent_sum by (done || unfold btree_map; rewrite stable_sort_perm; apply NoDup_fst_map_to_list).
    rewrite btree_map_lookup. unfold e, collect_effects.
    rewrite (collect_counted ov owner v b.(b_timestamp) b.(b_height) El).
    - rewrite counted_sum_subject, Ec. cbn [ef_counted]. rewrite lookup_empty. cbn [default from_option id].
      specialize (Hsp b.(b_timestamp)). unfold sat_add, in_u64 in *. lia.
    - by apply filter_Forall.
    - apply Forall_forall. by intros tx [? _]%list_elem_of_filter.
    - intros o x. cbn. by rewrite lookup_empty.
    - cbn. by rewrite lookup_empty.
    - cbn [ef_counted]. rewrite lookup_empty, counted_sum_subject, Ec. cbn [default from_option id].
      specialize (Hsp b.(b_timestamp)). unfold in_u64 in *. lia. }
  set (ov3 := foldl (try_op b) ov2 (filter (fun tx => is_vault_op tx = true) txs)) in *.
  split_and!.
  - apply (guarded_same owner s t0 fz waiting t0 ov3); [apply commit_wallet|]. apply (Hops t0).
  - intros t. rewrite (same_spent _ _ _ _ (commit_wallet ov3 owner t)).
    destruct (Hops t) as [_ ->]. rewrite Hsp2. apply count_spent_fits; [apply effects_nonneg|done].
  - rewrite (same_spent _ _ _ _ (commit_wallet ov3 owner _)).
    destruct (Hops b.(b_timestamp)) as [_ ->]. by rewrite Hsp2.
Qed.

(** A transaction of the owner that an accepted block carries. *)
Definition may_leave (bt : LedgerBlock * list LedgerTx) (tx : LedgerTx) : Prop :=
  (tx.(tx_to) = s.(recovery) /\ tx.(tx_memo) = Some SWEEP_MEMO) \/
  (fz = false /\ exists id q, exec_id tx = Some id /\ waiting id = Some q /\
     q.(q_to) = tx.(tx_to) /\ q.(q_amount) = tx.(tx_amount) /\ q.(q_at) <= bt.1.(b_timestamp)) \/
  ((fz = true -> is_vault_op tx = true) /\ outflow tx bt.1.(b_height) <= s.(limit)).

Lemma charge_le_block bt tx :
  Forall tx_fits bt.2 -> tx ∈ bt.2 -> charge bt.1.(b_height) tx <= block_charge bt.
Proof.
  intros Hf Hin. unfold block_charge. induction Hf as [|tx' txs Ht Htx IH]; [by apply not_elem_of_nil in Hin|].
  rewrite fmap_cons, zsum_cons.
  assert (Hnn : forall tx, tx_fits tx -> 0 <= charge bt.1.(b_height) tx).
  { intros x Hx. pose proof (outflow_bounds x bt.1.(b_height) Hx) as Ho'. unfold charge, in_u64 in *.
    repeat case_match; lia. }
  assert (0 <= zsum (charge bt.1.(b_height) <$> txs)).
  { apply zsum_nonneg, Forall_fmap. eapply Forall_impl; [apply Htx|]. auto. }
  pose proof (Hnn tx' Ht). apply elem_of_cons in Hin as [->|Hin]; [lia|]. specialize (IH Hin). lia.
Qed.

Lemma window_leaves ov b txs tx :
  Guarded owner s t0 fz waiting ov -> in_window (b, txs) -> spent_fits ov -> validate ov b txs = Ok tt ->
  tx ∈ txs -> subject tx = true -> tx.(tx_from) = owner -> may_leave (b, txs) tx.
Proof.
  intros Hg Hw Hsp Hval Hin Hsub Ef.
  destruct (validate_window ov b txs Hg Hw Hsp Hval) as (v & El & Htig & Hfz & _ & _ & Hb & Hgate).
  destruct Hw as (Ha & Ht & Htx). cbn [fst snd] in *. rewrite Forall_forall in Hgate, Htx.
  specialize (Hgate tx Hin Hsub Ef). destruct (Htx tx Hin) as (Hfit & _ & Hu). specialize (Hu Ef).
  assert (Hch : charge b.(b_height) tx <= s.(limit)).
  { assert (Hall : Forall tx_fits txs) by (apply Forall_forall; intros; by apply Htx).
    pose proof (charge_le_block (b, txs) tx Hall Hin). specialize (Hsp b.(b_timestamp)).
    unfold in_u64 in *. cbn [fst snd] in *. lia. }
  unfold may_leave, charge in *. rewrite Hsub, bool_decide_true in Hch by done. cbn [andb fst] in *.
  pose proof (unsigned_cosigned s v tx Htig Hu) as Hcs.
  apply tighter_spec in Htig as (_&_&_&_&Er&_&_). unfold gate in Hgate. rewrite Er, Hcs in Hgate.
  destruct (is_vault_op tx); [by right; right|].
  destruct (bool_decide (tx.(tx_memo) = Some SWEEP_MEMO) && _ && _) eqn:Esw.
  { rewrite !andb_true_iff, !bool_decide_eq_true in Esw. left. tauto. }
  destruct v.(frozen) eqn:Efr; [by destruct (Hgate _ _ eq_refl)|].
  assert (fz = false) by (by destruct fz; [specialize (Hfz eq_refl)|]).
  destruct (exec_id tx) as [id|]; right; [left|right].
  - rewrite Ef in Hgate. destruct (queued ov owner id) as [q|] eqn:Eq; [|by destruct (Hgate _ _ eq_refl)].
    destruct (_ || _) eqn:Em; [by destruct (Hgate _ _ eq_refl)|].
    destruct (bool_decide (b.(b_timestamp) < q.(q_at))) eqn:Hq; [by destruct (Hgate _ _ eq_refl)|].
    apply bool_decide_eq_false in Hq.
    rewrite !orb_false_iff, !bool_decide_eq_false in Em. destruct Em as [[Em1 Em2] _].
    split; [done|]. exists id, q. destruct (guarded_queue _ _ _ _ _ _ Hg id q Eq) as [Hwq|Hlate].
    + split_and!; [done|done| | |lia].
      * by destruct (decide (q.(q_to) = tx.(tx_to))).
      * by destruct (decide (q.(q_amount) = tx.(tx_amount))).
    + pose proof (delay_for_least owner s q.(q_amount) Hs). lia.
  - rewrite bool_decide_false in Hch by (by intros []). by split; [congruence|].
Qed.

Lemma run_window ov blocks ov' :
  Guarded owner s t0 fz waiting ov -> Forall in_window blocks -> spent_fits ov ->
  vault_run ov blocks = Some ov' ->
  Guarded owner s t0 fz waiting ov' /\
  Forall (fun bt => Forall (fun tx => subject tx = true -> tx.(tx_from) = owner -> may_leave bt tx) bt.2) blocks.
Proof.
  intros Hg Hw. revert ov Hg; induction Hw as [|[b txs] blocks Hb _ IH]; intros ov Hg Hsp Hrun.
  - injection Hrun as <-. auto.
  - cbn [vault_run] in Hrun. destruct (validate ov b txs) as [[]|] eqn:Hval; [|done].
    destruct (apply_window ov b txs Hg Hb Hsp Hval) as (Hg' & Hsp' & _).
    destruct (IH _ Hg' Hsp' Hrun) as [Hend Hrest]. split; [done|]. constructor; [|done].
    apply Forall_forall. intros tx Hin. cbn [snd] in Hin. by apply (window_leaves ov b txs).
Qed.

Lemma spent_same_day ov t t' : t / DAY_SECS = t' / DAY_SECS -> spent_today ov owner t = spent_today ov owner t'.
Proof. intros E. unfold spent_today. by rewrite E. Qed.

Lemma run_day ov blocks ov' t :
  Guarded owner s t0 fz waiting ov -> Forall in_window blocks -> spent_fits ov ->
  Forall (fun bt => bt.1.(b_timestamp) / DAY_SECS = t / DAY_SECS) blocks ->
  vault_run ov blocks = Some ov' ->
  zsum (block_charge <$> blocks) = 0 \/
  spent_today ov owner t + zsum (block_charge <$> blocks) <= s.(limit).
Proof.
  intros Hg Hw. revert ov Hg; induction Hw as [|[b txs] blocks Hb Hw IH]; intros ov Hg Hsp Hday Hrun.
  - by left.
  - apply Forall_cons in Hday as [Hd Hday]. cbn [fst] in Hd.
    cbn [vault_run] in Hrun. destruct (validate ov b txs) as [[]|] eqn:Hval; [|done].
    destruct (validate_window ov b txs Hg Hb Hsp Hval) as (v & _ & _ & _ & _ & Hnn & Hbl & _).
    destruct (apply_window ov b txs Hg Hb Hsp Hval) as (Hg' & Hsp' & Es).
    rewrite fmap_cons, zsum_cons. rewrite (spent_same_day ov _ _ Hd) in Hbl.
    rewrite !(spent_same_day _ _ _ Hd) in Es.
    specialize (IH _ Hg' Hsp' Hday Hrun). rewrite Es in IH. lia.
Qed.
End Window.

Lemma start_guarded ov fz :
  raw_vault ov owner = Some (MkVault s fz None) -> Guarded owner s t0 fz (queued ov owner) ov.
Proof.
  intros E. split.
  - exists (MkVault s fz None). split_and!; [done| |done|done]. apply tighter_refl. lia.
  - intros id q Hq. by left.
Qed.

(** C16: A stolen key is not enough: whatever the owner's key signs, and whoever else
    acts, until the delay of the vault's settings has passed and as long as the
    second key does not sign, the settings only get tighter, a frozen wallet stays
    frozen, and every transaction of the wallet in an accepted block is a sweep to
    the recovery address, a send that was already waiting when the window began
    (not from a frozen wallet), or within the limit (a vault transaction, if the
    wallet is frozen). *)
Theorem vault_guards ov fz blocks ov' :
  raw_vault ov owner = Some (MkVault s fz None) -> spent_fits ov ->
  Forall in_window blocks -> vault_run ov blocks = Some ov' ->
  (exists v, raw_vault ov' owner = Some v /\ tighter v.(settings) s = true /\
     (fz = true -> v.(frozen) = true)) /\
  Forall (fun bt => Forall (fun tx => subject tx = true -> tx.(tx_from) = owner ->
    may_leave fz (queued ov owner) bt tx) bt.2) blocks.
Proof.
  intros Ev Hsp Hw Hrun.
  destruct (run_window fz (queued ov owner) ov blocks ov' (start_guarded ov fz Ev) Hw Hsp Hrun)
    as [[(v & ? & ? & _ & ?) _] Hall].
  split; [by exists v|done].
Qed.

End Runs.

Section Others.
Context `{CryptoPrims} `{ChainPrims}.
Context `{Json Vault} `{Json Queued} `{Json Spent}.
Context `{!JsonRoundTrip Vault} `{!JsonRoundTrip Queued} `{!JsonRoundTrip Spent}.
Context `{Json SetBody} `{Json OwnerBody} `{Json CancelBody} `{Json QueueBody} `{Json EmptyBody}.

(** Others can only protect: a block in which the owner sends nothing leaves the
    vault's settings and the amount spent today as they are; a freeze is never
    lifted, a waiting change or send can only disappear, and even that needs a
    transaction of a guardian or of the second key. *)
Theorem vault_others_protect ov owner block txs v :
  no_colon owner = true -> load_vault ov owner block.(b_timestamp) = Some v ->
  Forall (fun tx => no_colon tx.(tx_from) = true /\ tx.(tx_from) <> owner) txs ->
  only_protected owner block.(b_timestamp) v ov (apply_block ov block txs) /\
  (Forall (fun tx => tx.(tx_from) ∉ helpers v.(settings)) txs ->
   same_wallet owner block.(b_timestamp) ov (apply_block ov block txs)).
Proof. intros. by apply apply_block_protects. Qed.

(** ** Two gaps *)

(** The fee of a sweep is not counted: whatever it is, and frozen or not, the
    transaction is free. *)
Lemma sweep_fee_uncounted v ov tx now height :
  is_vault_op tx = false -> tx.(tx_memo) = Some SWEEP_MEMO -> v.(settings).(recovery) <> "" ->
  tx.(tx_to) = v.(settings).(recovery) -> gate v ov tx now height = GateFree.
Proof.
  intros Ho Em Hr Et. unfold gate. rewrite Ho, Em, Et.
  rewrite (bool_decide_true (Some SWEEP_MEMO = _)), (bool_decide_true (_ <> "")),
    (bool_decide_true (recovery _ = _)) by done. done.
Qed.

(** Turning the vault off clears only the sends that were waiting before the block:
    one queued in the same block stays, and is found again by a later vault. *)
Lemma off_keeps_new_queue ov tx now ov' id q :
  ov.(ov_db) = ∅ -> op_off ov tx now = Ok ov' ->
  queued ov tx.(tx_from) id = Some q -> queued ov' tx.(tx_from) id = Some q.
Proof.
  intros Edb Hop Hq. unfold op_off in Hop. op_cases; [|by rewrite store_queued].
  assert (Eq : queue_of (store ov tx.(tx_from) (raw_vault ov tx.(tx_from)) None) tx.(tx_from) = []).
  { unfold queue_of, committed_keys.
    assert (Hdb : forall {A} (f : Ov -> A -> Ov) l ov0, (forall ov1 a, ov_db (f ov1 a) = ov_db ov1) ->
      ov_db (foldl f ov0 l) = ov_db ov0).
    { intros A f l. induction l as [|a l IH]; intros ov0 Hf; [done|]. cbn. rewrite IH by done. apply Hf. }
    unfold store. rewrite ov_db_del, !Hdb, Edb by done. done. }
  rewrite Eq. cbn [foldl]. unfold queued. erewrite load_same; [apply Hq|].
  rewrite ov_get_del_ne by keys_differ. rewrite ov_get_put_u64_ne by keys_differ.
  apply store_get_ne; [intros h; keys_differ|keys_differ].
Qed.
End Others.

(** ** Witnesses *)

Module VaultDemo.
#[local] Instance Settings_eq_dec : EqDecision Settings.
Proof. solve_decision. Defined.
#[local] Instance Settings_countable : Countable Settings.
Proof.
  refine (inj_countable' (fun s => (limit s, delay s, high_limit s, high_delay s, recovery s, second_key s, guardians s))
    (fun '(a, b, c, d, e, f, g) => MkSettings a b c d e f g) _). by intros [].
Defined.
#[local] Instance Change_eq_dec : EqDecision Change.
Proof. solve_decision. Defined.
#[local] Instance Change_countable : Countable Change.
Proof.
  refine (inj_countable' (fun c => match c with ChangeSet s => inl s | ChangeOff => inr true | ChangeUnfreeze => inr false end)
    (fun x => match x with inl s => ChangeSet s | inr true => ChangeOff | inr false => ChangeUnfreeze end) _).
  by intros [].
Defined.
#[local] Instance Pending_eq_dec : EqDecision Pending.
Proof. solve_decision. Defined.
#[local] Instance Pending_countable : Countable Pending.
Proof. refine (inj_countable' (fun p => (p_change p, p_at p)) (fun '(a, b) => MkPending a b) _). by intros []. Defined.
#[local] Instance Vault_eq_dec : EqDecision Vault.
Proof. solve_decision. Defined.
#[local] Instance Vault_countable : Countable Vault.
Proof.
  refine (inj_countable' (fun v => (settings v, frozen v, pending v)) (fun '(a, b, c) => MkVault a b c) _).
  by intros [].
Defined.
#[local] Instance Queued_eq_dec : EqDecision Queued.
Proof. solve_decision. Defined.
#[local] Instance Queued_countable : Countable Queued.
Proof.
  refine (inj_countable' (fun q => (q_id q, q_to q, q_amount q, q_at q, q_created q))
    (fun '(a, b, c, d, e) => MkQueued a b c d e) _). by intros [].
Defined.
#[local] Instance Spent_eq_dec : EqDecision Spent.
Proof. solve_decision. Defined.
#[local] Instance Spent_countable : Countable Spent.
Proof. refine (inj_countable' (fun s => (sp_day s, sp_amount s)) (fun '(a, b) => MkSpent a b) _). by intros []. Defined.

Definition vault_json : Json Vault := count_json.
Definition queued_json : Json Queued := count_json.
Definition spent_json : Json Spent := count_json.

Definition crypto : CryptoPrims :=
  {| blake2s d := []; blake3 d := to_le_bytes 32 (foldl (fun a x => a * 31 + x) 7 d);
     ed25519_verify _ _ _ := Ok false; ml_dsa_verify _ _ _ := false; slh_dsa_verify _ _ _ := Ok false;
     ed25519_sign _ _ := []; ml_dsa_sign _ _ := [] |}.
Definition chain : ChainPrims :=
  {| hex_encode := Hex.encode; hex_decode := Hex.decode; bech32m_encode _ _ := None;
     dalek_verify _ _ _ := false |}.

Definition OWNER : string := "egot1owner000000000000".
Definition FRIEND : string := "egot1friend00000000000".
Definition SAFE : string := "egot1safe0000000000000".
Definition THIEF : string := "egot1thief000000000000".

Definition rules : Settings := MkSettings 100 DAY_SECS 0 0 SAFE "" [FRIEND].
(** What the thief would like: a higher limit and another recovery address. *)
Definition loose : Settings := MkSettings 100000 DAY_SECS 0 0 THIEF "" [FRIEND].

Definition set_json : Json SetBody := named_json "loose" (MkSetBody loose).
Definition owner_json : Json OwnerBody := named_json "owner" (MkOwnerBody OWNER).
Definition cancel_json : Json CancelBody := named_json "change" (MkCancelBody OWNER CANCEL_CHANGE).
Definition queue_json : Json QueueBody := named_json "send" (MkQueueBody THIEF 5000).
Definition empty_json : Json EmptyBody := named_json "{}" MkEmptyBody.

#[export] Existing Instance crypto.
#[export] Existing Instance chain.
#[export] Existing Instance vault_json.
#[export] Existing Instance queued_json.
#[export] Existing Instance spent_json.
#[export] Existing Instance set_json.
#[export] Existing Instance owner_json.
#[export] Existing Instance cancel_json.
#[export] Existing Instance queue_json.
#[export] Existing Instance empty_json.

#[export] Instance vault_rt : JsonRoundTrip Vault := count_json_rt.
#[export] Instance queued_rt : JsonRoundTrip Queued := count_json_rt.
#[export] Instance spent_rt : JsonRoundTrip Spent := count_json_rt.

(** A transaction of a user. *)
Definition send (hash from to : string) (amount : Z) (memo : option string) (type args : string) : LedgerTx :=
  MkTx hash from to amount memo 0 "ab" "" None 0 "" "" "" type 1000 0 "" "" "" args "" "" 3 1 "" "" false "" "".
Definition op (hash from type args : string) : LedgerTx :=
  send hash from from 0 (memo_for type args) type args.

Definition start (fz : bool) : Ov := commit (save (ov_new ∅) (vault_key OWNER) (MkVault rules fz None)).

(** The thief takes what the limit allows, queues a large send and asks for looser
    rules; a friend freezes the wallet; the owner sweeps it. *)
Definition blocks : list (LedgerBlock * list LedgerTx) :=
  [(MkBlock 70000 "a" 1000,
     [send "1" OWNER THIEF 60 None "transfer" ""; op "2" OWNER TX_QUEUE "send"; op "3" OWNER TX_SET "loose"]);
   (MkBlock 70001 "b" 1010, [send "4" OWNER THIEF 40 None "transfer" ""; op "5" FRIEND TX_FREEZE "owner"]);
   (MkBlock 70002 "c" 1020, [send "6" OWNER SAFE 9000 (Some SWEEP_MEMO) "transfer" ""])].

Definition final : Ov := default (start false) (vault_run (start false) blocks).

Lemma start_spent fz : spent_fits OWNER (start fz).
Proof.
  intros t. unfold spent_today.
  assert (E : load (A := Spent) (start fz) (spent_key OWNER) = None) by (destruct fz; vm_compute; reflexivity).
  rewrite E. cbn. case_bool_decide; machine_lia.
Qed.

(** A decidable form of [in_window], for a vault without a second key. *)
Definition windowb (bt : LedgerBlock * list LedgerTx) : bool :=
  rule_active bt.1.(b_height) && bool_decide (1000 <= bt.1.(b_timestamp) < 1000 + DAY_SECS) &&
  forallb (fun tx => bool_decide (in_u64 tx.(tx_amount)) && bool_decide (in_u64 tx.(fee_uegoc)) &&
             no_colon tx.(tx_from)) bt.2.

Lemma windowb_ok bt : windowb bt = true -> in_window OWNER rules 1000 bt.
Proof.
  unfold windowb. rewrite !andb_true_iff, bool_decide_eq_true, forallb_forall. intros [[Ha Ht] Htx].
  split; [done|]. split; [done|]. apply Forall_forall. intros tx Hin%list_elem_of_In%Htx.
  rewrite !andb_true_iff, !bool_decide_eq_true in Hin. destruct Hin as [[? ?] ?].
  split; [done|]. split; [done|]. intros _. by left.
Qed.

Lemma blocks_window : Forall (in_window OWNER rules 1000) blocks.
Proof.
  apply (Forall_impl (fun bt => windowb bt = true)); [|intros; by apply windowb_ok].
  unfold blocks. rewrite !Forall_cons. split_and!; [vm_compute; reflexivity..|by apply Forall_nil].
Qed.
End VaultDemo.

Import VaultDemo.

Lemma vault_guards_witness :
  (exists v, raw_vault final OWNER = Some v /\ tighter v.(settings) rules = true /\
     (false = true -> v.(frozen) = true)) /\
  Forall (fun bt => Forall (fun tx => subject tx = true -> tx.(tx_from) = OWNER ->
    may_leave rules false (queued (start false) OWNER) bt tx) bt.2) blocks.
Proof.
  apply (vault_guards OWNER rules 1000).
  - vm_compute. reflexivity.
  - vm_compute. reflexivity.
  - unfold i64_min, i64_max, MAX_DELAY_SECS, DAY_SECS. lia.
  - cbn. unfold u64_max. lia.
  - vm_compute. reflexivity.
  - apply start_spent.
  - apply blocks_window.
  - apply is_Some_default. vm_compute. reflexivity.
Defined.


(** A friend freezes the wallet while a stranger tries to. *)
Lemma vault_others_protect_witness :
  let block := MkBlock 70000 "a" 1000 in
  let txs := [op "1" THIEF TX_FREEZE "owner"; op "2" FRIEND TX_FREEZE "owner"] in
  only_protected OWNER 1000 (MkVault rules false None) (start false) (apply_block (start false) block txs).
Proof.
  apply (vault_others_protect (start false) OWNER (MkBlock 70000 "a" 1000)
    [op "1" THIEF TX_FREEZE "owner"; op "2" FRIEND TX_FREEZE "owner"] (MkVault rules false None)).
  - vm_compute. reflexivity.
  - vm_compute. reflexivity.
  - rewrite !Forall_cons. split_and!; done.
Defined.
