(* ===== verification/Hold.v ===== *)
(** * Theft holds

    Model of [ego-desktop/src-tauri/src/hold_chain.rs]: a victim of theft asks
    for a hold, a drawn committee certifies how much of which addresses is
    covered, stakers and nodes vote, and a second vote can return the coins.

    The height from which the rule applies, [None] in the source so far, is the
    argument [activation] of the definitions that read it.  What the rule reads
    of the node pool ([drs.rs], [state_cert.rs]) and of BLS signatures is a
    parameter ([NodePool], [Bls]).  The mempool check [admit], which reads the
    clock and the database of the process and changes nothing, is left out. *)
From stdpp Require Import pretty.
From Stdlib Require Import Ascii.
From S2P Require Import Prelude Crypto Ledger RuleText.
Local Open Scope string_scope.
Local Open Scope list_scope.
Local Open Scope Z_scope.
Local Open Scope ego_scope.

Definition TX_REQUEST : string := "hold_request".
Definition TX_VOTE : string := "hold_vote".
Definition TX_NODE_VOTE : string := "hold_node_vote".
Definition TX_APPEAL : string := "hold_appeal".
Definition TX_RETURN : string := "hold_return".
Definition TX_CERT : string := "hold_cert".
Definition TX_SETTLE : string := "hold_settle".
Definition USER_TYPES : list string := [TX_REQUEST; TX_VOTE; TX_NODE_VOTE; TX_APPEAL; TX_RETURN].
Definition PHASE_CONFIRM : string := "confirm".
Definition PHASE_RETURN : string := "return".

Definition MIN_NODE_POOL : Z := 64.
Definition REQUEST_FEE_UEGOC : Z := 10000000.
Definition MIN_BOND_UEGOC : Z := 100000000.
Definition SIGN_WINDOW_SECS : Z := 3600.
Definition VOTE_SECS : Z := 72 * 3600.
Definition CONFIRM_SECS : Z := 90 * 86400.
Definition COOLDOWN_SECS : Z := 30 * 86400.
Definition MAX_TXS : nat := 64.
Definition MAX_HELD : nat := 32.
Definition MAX_HOLDS_PER_ADDR : nat := 8.
Definition MAX_LIVE : nat := 256.
Definition MAX_TEXT_BYTES : nat := 2000.
Definition MAX_BODY_BYTES : nat := 16384.
Definition MIN_VOTERS : Z := 3.
Definition MIN_STAKE_PERCENT : Z := 1.
Definition MIN_NODE_PERCENT : Z := 5.

Definition BODY_DOMAIN : bytes := ascii_bytes "ego/hold/body/v1:".
Definition CERT_DOMAIN : bytes := ascii_bytes "ego/hold/cert/v1:".
Definition ID_DOMAIN : bytes := ascii_bytes "ego/hold/id/v1:".
Definition SETTLE_DOMAIN : bytes := ascii_bytes "ego/hold/settle/v1:".

(** ** Data *)

Record RequestBody : Type := MkRequestBody {
  victim : string;
  theft : list string;
  hops : list string;
  case : string;
  bond : Z;
}.

Record VoteBody : Type := MkVoteBody { vb_id : string; vb_phase : string; vb_yes : bool }.
Record AppealBody : Type := MkAppealBody { ab_id : string; ab_text : string }.
Record IdBody : Type := MkIdBody { ib_id : string }.
Record HoldBody : Type := MkHoldBody { hb_id : string; hb_amounts : list (string * Z) }.
Record HoldCert : Type := MkHoldCert { hc_body : HoldBody; hc_signers : list Z; hc_sig : string }.

Record Hold : Type := MkHold {
  h_id : string;
  requester : string;
  request : RequestBody;
  created : Z;
  height : Z;
  keys : list string;
  amounts : list (string * Z);
  held_at : Z;
  stake_total : Z;
  node_total : Z;
  appeals : list (string * string);
  return_opened : Z;
  paid : bool;
}.

Record Tally : Type := MkTally {
  stake_yes : Z;
  stake_no : Z;
  stake_voters : Z;
  node_yes : Z;
  node_no : Z;
  node_voters : Z;
}.

Inductive Outcome : Type :=
| Pass
| Fail_
| NoQuorum.

Inductive Phase : Type :=
| Signing
| Failed
| Voting
| Confirmed
| ReturnVoting
| Returned
| Rejected
| Lapsed
| Expired.

#[export] Instance Phase_eq_dec : EqDecision Phase.
Proof. solve_decision. Defined.

Record Settlement : Type := MkSettlement { st_from : string; st_to : string; owed : Z }.

Definition set_paid (h : Hold) : Hold :=
  MkHold h.(h_id) h.(requester) h.(request) h.(created) h.(height) h.(keys) h.(amounts) h.(held_at)
    h.(stake_total) h.(node_total) h.(appeals) h.(return_opened) true.

Definition set_held (amounts : list (string * Z)) (now staked nodes : Z) (h : Hold) : Hold :=
  MkHold h.(h_id) h.(requester) h.(request) h.(created) h.(height) h.(keys) amounts now
    staked nodes h.(appeals) h.(return_opened) h.(paid).

Definition add_appeal (a : string * string) (h : Hold) : Hold :=
  MkHold h.(h_id) h.(requester) h.(request) h.(created) h.(height) h.(keys) h.(amounts) h.(held_at)
    h.(stake_total) h.(node_total) (h.(appeals) ++ [a]) h.(return_opened) h.(paid).

Definition set_return (now : Z) (h : Hold) : Hold :=
  MkHold h.(h_id) h.(requester) h.(request) h.(created) h.(height) h.(keys) h.(amounts) h.(held_at)
    h.(stake_total) h.(node_total) h.(appeals) now h.(paid).

(** ** Text *)

Definition is_hold_op (tx : LedgerTx) : bool := bool_decide (tx.(tx_type) ∈ USER_TYPES).

Definition is_id (s : string) : bool :=
  bool_decide (String.length s = 20%nat) && starts_with s "hold" && all_bytes is_hexdigit (skip 4 s).

Definition is_tx_hash (s : string) : bool :=
  bool_decide (String.length s = 66%nat) && starts_with s "0x" && all_bytes is_hexdigit (skip 2 s).

Definition valid_addr (s : string) : bool :=
  (starts_with s "egot1" || starts_with s "ego1") &&
  bool_decide (20 <= String.length s <= 100)%nat &&
  all_bytes (fun b => is_lower b || is_digit b) s.

(** [theft.iter().chain(hops).all(|h| is_tx_hash(h) && seen.insert(h))]. *)
Fixpoint check_hashes (seen : gset string) (l : list string) : bool :=
  match l with
  | [] => true
  | h :: l => is_tx_hash h && negb (bool_decide (h ∈ seen)) && check_hashes ({[ h ]} ∪ seen) l
  end.

Definition check_request (from : string) (b : RequestBody) : result unit string :=
  if negb (valid_addr b.(victim)) then Err "the request names no victim"
  else if bool_decide (b.(theft) = []) || bool_decide (MAX_TXS < length b.(theft) + length b.(hops))%nat then
    Err "a request lists between 1 and 64 transactions"
  else if negb (check_hashes ∅ (b.(theft) ++ b.(hops))) then
    Err "each listed transaction is a distinct transaction hash"
  else if blank b.(case) || bool_decide (MAX_TEXT_BYTES < String.length b.(case))%nat then
    Err "the case is between 1 and 2000 bytes"
  else if bool_decide (b.(bond) < MIN_BOND_UEGOC) then Err "the bond is at least 100 EGOC"
  else if bool_decide (from = "") then Err "the request has no sender"
  else Ok tt.

(** ** Keys *)

Definition hold_key (id : string) : bytes := ascii_bytes ("hold:r:" +:+ id).
Definition addr_key (addr : string) : bytes := ascii_bytes ("hold:a:" +:+ addr).
Definition bond_key (addr : string) : bytes := ascii_bytes ("hold:b:" +:+ addr).
Definition lock_key (addr : string) : bytes := ascii_bytes ("hold:lock:" +:+ addr).
Definition tally_key (id phase : string) : bytes := ascii_bytes ("hold:t:" +:+ id +:+ ":" +:+ phase).
Definition vote_key (id phase kind voter : string) : bytes :=
  ascii_bytes ("hold:v:" +:+ id +:+ ":" +:+ phase +:+ ":" +:+ kind +:+ ":" +:+ voter).
Definition LIVE_KEY : bytes := ascii_bytes "hold:live".

(** ** Votes and phases *)

Definition outcome (t : Tally) (h : Hold) : Outcome :=
  let stake_cast := sat_add u64_max t.(stake_yes) t.(stake_no) in
  let node_cast := sat_add u64_max t.(node_yes) t.(node_no) in
  let stake_quorum := bool_decide (MIN_VOTERS <= t.(stake_voters)) &&
    bool_decide (h.(stake_total) * MIN_STAKE_PERCENT <= stake_cast * 100) in
  let node_quorum := bool_decide (MIN_VOTERS <= t.(node_voters)) &&
    bool_decide (h.(node_total) * MIN_NODE_PERCENT <= node_cast * 100) in
  if negb (stake_quorum && node_quorum) then NoQuorum
  else
    let two_thirds yes cast := bool_decide (cast * 2 <= yes * 3) in
    if two_thirds t.(stake_yes) stake_cast && two_thirds t.(node_yes) node_cast then Pass else Fail_.

Definition vote_end (h : Hold) : Z := isat_add h.(held_at) VOTE_SECS.

(** [phase] as a function of the two tallies it reads. *)
Definition phase_of (confirm return_ : Tally) (h : Hold) (now : Z) : Phase :=
  if bool_decide (h.(held_at) = 0) then
    if bool_decide (now < isat_add h.(created) SIGN_WINDOW_SECS) then Signing else Failed
  else if bool_decide (now < vote_end h) then Voting
  else
    match outcome confirm h with
    | Fail_ => Rejected
    | NoQuorum => Lapsed
    | Pass =>
        let after :=
          if bool_decide (now < isat_add (vote_end h) CONFIRM_SECS) then Confirmed else Expired in
        if bool_decide (0 < h.(return_opened)) then
          if bool_decide (now < isat_add h.(return_opened) VOTE_SECS) then ReturnVoting
          else match outcome return_ h with Pass => Returned | _ => after end
        else after
    end.

Definition holds_coins (p : Phase) (h : Hold) : bool :=
  match p with
  | Voting | Confirmed | ReturnVoting => true
  | Returned => negb h.(paid)
  | _ => false
  end.

Definition binds_bond (p : Phase) (h : Hold) : bool :=
  match p with
  | Signing | Voting => true
  | Rejected => negb h.(paid)
  | _ => false
  end.

(** ** Transactions *)

Definition is_cert_tx (tx : LedgerTx) : bool :=
  bool_decide (tx.(tx_type) = TX_CERT) && bool_decide (tx.(tx_from) = "") &&
  bool_decide (tx.(tx_to) = NODE_POOL_ADDR) && bool_decide (tx.(tx_amount) = 0) &&
  bool_decide (tx.(tx_signature) = "coinbase").

Definition subject (tx : LedgerTx) : bool :=
  bool_decide (tx.(tx_from) <> "") && negb (is_reserved_system_source tx.(tx_from)) &&
  bool_decide (tx.(tx_signature) <> "coinbase") && negb (is_settle tx).

Definition outflow (tx : LedgerTx) : Z :=
  if is_unstake_tx tx || bool_decide (tx.(tx_to) = tx.(tx_from)) then tx.(fee_uegoc)
  else sat_add u64_max tx.(tx_amount) tx.(fee_uegoc).

(** The loop of [check_amounts]. *)
Fixpoint check_each (v : string) (seen : gset string) (l : list (string * Z)) : bool :=
  match l with
  | [] => true
  | (a, n) :: l =>
      if negb (valid_addr a) || bool_decide (a = v) || bool_decide (n = 0) || bool_decide (a ∈ seen) then false
      else check_each v ({[ a ]} ∪ seen) l
  end.

Definition check_amounts (h : Hold) (l : list (string * Z)) : result unit string :=
  if bool_decide (l = []) || bool_decide (MAX_HELD < length l)%nat then
    Err "a hold covers between 1 and 32 addresses"
  else if check_each h.(request).(victim) ∅ l then Ok tt
  else Err "each held address appears once, is not the victim and holds a positive amount".

(** *** Settlement transactions *)

Definition settle_memo (id : string) (index : nat) : string :=
  "hold:settle:" +:+ id +:+ ":" +:+ pretty index.

(** [str::rsplit_once] at a character. *)
Fixpoint rsplit_once (c : Ascii.ascii) (s : string) : option (string * string) :=
  match s with
  | EmptyString => None
  | String d s =>
      match rsplit_once c s with
      | Some (a, b) => Some (String d a, b)
      | None => if bool_decide (c = d) then Some (EmptyString, s) else None
      end
  end.

(** [usize::from_str]: an optional sign, then digits; it must fit 64 bits. *)
Definition digits_value (l : bytes) : Z := foldl (fun acc b => acc * 10 + (b - 48)) 0 l.

Definition parse_usize (s : string) : option nat :=
  let l := ascii_bytes s in
  let l := match l with 43 :: l' => l' | _ => l end in
  if bool_decide (l = []) || negb (forallb is_digit l) then None
  else if bool_decide (digits_value l <= u64_max) then Some (Z.to_nat (digits_value l)) else None.

Definition settle_parts (tx : LedgerTx) : option (string * nat) :=
  m ← tx.(tx_memo);
  rest ← strip_prefix "hold:settle:" m;
  '(id, i) ← rsplit_once ":"%char rest;
  i ← parse_usize i;
  Some (id, i).

Section Text.
Context `{CryptoPrims} `{ChainPrims}.

Definition body_hash (args : string) : string := hex_encode (blake3 (BODY_DOMAIN ++ ascii_bytes args)).

Definition memo_for (type args : string) : option string :=
  if negb (bool_decide (type ∈ USER_TYPES)) then None
  else op ← strip_prefix "hold_" type; Some ("hold:" +:+ op +:+ ":" +:+ body_hash args).

Definition hold_id (hash : string) : string :=
  "hold" +:+ String.substring 0 16 (hex_encode (blake3 (ID_DOMAIN ++ ascii_bytes hash))).

Definition settle_text (id : string) (index : nat) (from to : string) (amount : Z) : string :=
  id +:+ ":" +:+ pretty index +:+ ":" +:+ from +:+ ":" +:+ to +:+ ":" +:+ pretty amount.

Definition settle_hash (id : string) (index : nat) (from to : string) (amount : Z) : string :=
  "0x" +:+ hex_encode (blake3 (SETTLE_DOMAIN ++ ascii_bytes (settle_text id index from to amount))).

Definition settle_is_well_formed (tx : LedgerTx) : bool :=
  is_settle tx && bool_decide (tx.(tx_signature) = "hold") && bool_decide (tx.(tx_version) = 3) &&
  bool_decide (tx.(tx_nonce) = 0) && bool_decide (tx.(fee_uegoc) = 0) &&
  bool_decide (tx.(priority_fee_uegoc) = 0) && bool_decide (0 < tx.(tx_amount)) &&
  match settle_parts tx with
  | Some (id, i) => bool_decide (tx.(tx_hash) = settle_hash id i tx.(tx_from) tx.(tx_to) tx.(tx_amount))
  | None => false
  end.

(** [drs::batch_hash]. *)
Definition batch_hash (kind : string) (height : Z) (args : string) : string :=
  "0x" +:+ hex_encode (blake3 (ascii_bytes (kind +:+ ":" +:+ pretty height +:+ ":" +:+ args))).
End Text.

(** [state_cert::quorum]. *)
Definition quorum (n : nat) : nat := (n * 2) `div` 3 + 1.

(** [dao_chain::stake_of]. *)
Definition stake_of (ov : Ov) (addr : string) : Z := u64_at ov (ascii_bytes ("stake:" +:+ addr)).
