(* ===== verification/HoldChain.v ===== *)
(** * Theft holds: the state of the chain

    The second half of [ego-desktop/src-tauri/src/hold_chain.rs]: what is read
    of the overlay, the judgement of a block ([Planner], [validate]) and its
    effects ([apply_block]). *)
From stdpp Require Import pretty.
From Stdlib Require Import Ascii.
From S2P Require Import Prelude Crypto Ledger RuleText Hold.
Local Open Scope string_scope.
Local Open Scope list_scope.
Local Open Scope Z_scope.
Local Open Scope ego_scope.

(** What the rule asks the node pool: [drs::node_count], [drs::total_weight],
    the weight in the record [drs::load_rec] finds, and
    [state_cert::draw_answering]. *)
Class NodePool : Type := {
  node_count : Ov -> Z;
  total_weight : Ov -> Z -> Z;
  node_weight : Ov -> string -> Z -> option Z;
  draw_answering : Ov -> Z -> list string;
}.

(** [bls_agg::verify_shared], [verify_shared_aggregate] and [aggregate_shared]. *)
Class Bls : Type := {
  verify_shared : bytes -> bytes -> bytes -> bool;
  verify_shared_aggregate : bytes -> list bytes -> bytes -> bool;
  aggregate_shared : list bytes -> option bytes;
}.

(** [drs::period_of]. *)
Definition period_of (height : Z) : Z := (height + 50) / 100.

Definition tally_default : Tally := MkTally 0 0 0 0 0 0.

(** [Hold { id, requester, request, created, height, keys, ..Hold::default() }]. *)
Definition new_hold (id requester : string) (b : RequestBody) (now height : Z) (keys : list string) : Hold :=
  MkHold id requester b now height keys [] 0 0 0 [] 0 false.

(** The error of a refused transaction. *)
Definition refused (tx : LedgerTx) (e : string) : string :=
  tx.(tx_type) +:+ " " +:+ tx.(tx_hash) +:+ " refused: " +:+ e.

Record Planner : Type := MkPlanner {
  pl_height : Z;
  pl_now : Z;
  pl_spent : gmap string Z;
  pl_requests : gset string;
  pl_certs : gset string;
  pl_voters : gset string;
}.

Definition planner_new (height now : Z) : Planner := MkPlanner height now ∅ ∅ ∅ ∅.

Definition add_voter (a : string) (p : Planner) : Planner :=
  MkPlanner p.(pl_height) p.(pl_now) p.(pl_spent) p.(pl_requests) p.(pl_certs) ({[ a ]} ∪ p.(pl_voters)).
Definition add_cert (id : string) (p : Planner) : Planner :=
  MkPlanner p.(pl_height) p.(pl_now) p.(pl_spent) p.(pl_requests) ({[ id ]} ∪ p.(pl_certs)) p.(pl_voters).
Definition add_request (a : string) (p : Planner) : Planner :=
  MkPlanner p.(pl_height) p.(pl_now) p.(pl_spent) ({[ a ]} ∪ p.(pl_requests)) p.(pl_certs) p.(pl_voters).
Definition set_spent (a : string) (n : Z) (p : Planner) : Planner :=
  MkPlanner p.(pl_height) p.(pl_now) (<[ a := n ]> p.(pl_spent)) p.(pl_requests) p.(pl_certs) p.(pl_voters).

Section HoldChain.
Context (activation : option Z).
Context `{CryptoPrims} `{ChainPrims} `{NodePool} `{Bls}.
Context `{Json RequestBody} `{Json VoteBody} `{Json AppealBody} `{Json IdBody}.
Context `{Json HoldBody} `{Json HoldCert}.
Context `{Json Hold} `{Json Tally} `{Json (list string)} `{Json string} `{Json Z}.

Definition rule_active (height : Z) : bool :=
  match activation with
  | Some h => bool_decide (h <= height)
  | None => false
  end.

(** [{:?}] of the constant. *)
Definition show_activation : string :=
  match activation with
  | Some h => "Some(" +:+ pretty h +:+ ")"
  | None => "None"
  end.

(** ** Reading the state *)

Definition load_hold (ov : Ov) (id : string) : option Hold := load ov (hold_key id).

Definition live (ov : Ov) : list string := default [] (load ov LIVE_KEY).

Definition my_vote (ov : Ov) (id phase : string) (node : bool) (voter : string) : option bool :=
  (fun v => bool_decide (head v = Some 1)) <$> ov_get (vote_key id phase (if node then "n" else "s") voter) ov.

Definition tally (ov : Ov) (id phase : string) : Tally := default tally_default (load ov (tally_key id phase)).

Definition phase (ov : Ov) (h : Hold) (now : Z) : Phase :=
  phase_of (tally ov h.(h_id) PHASE_CONFIRM) (tally ov h.(h_id) PHASE_RETURN) h now.

Definition ended_at (ov : Ov) (h : Hold) : Z :=
  match phase ov h i64_max with
  | Failed => isat_add h.(created) SIGN_WINDOW_SECS
  | Rejected | Lapsed => vote_end h
  | _ => i64_max
  end.

(** The holds an address is listed in. *)
Definition ids_of (ov : Ov) (addr : string) : list string := default [] (load ov (addr_key addr)).
Definition holds_of (ov : Ov) (addr : string) : list Hold := omap (load_hold ov) (ids_of ov addr).

(** [sum::<u64>()] of the amounts of one hold on an address. *)
Definition amount_on (addr : string) (h : Hold) : Z :=
  foldl wrapping_add64 0 (snd <$> filter (fun an : string * Z => an.1 = addr) h.(amounts)).

Definition held_on (ov : Ov) (addr : string) (now : Z) : Z :=
  foldl (sat_add u64_max) 0
    (amount_on addr <$> filter (fun h => holds_coins (phase ov h now) h = true) (holds_of ov addr)).

Definition bond_on (ov : Ov) (addr : string) (now : Z) : Z :=
  match load ov (bond_key addr) with
  | None => 0
  | Some id =>
      match load_hold ov id with
      | None => 0
      | Some h => if binds_bond (phase ov h now) h then h.(request).(bond) else 0
      end
  end.

Definition locked (ov : Ov) (addr : string) (now : Z) : Z :=
  sat_add u64_max (held_on ov addr now) (bond_on ov addr now).

Definition stake_locked_until (ov : Ov) (addr : string) : Z := default 0 (load ov (lock_key addr)).

Definition cooling (ov : Ov) (addr : string) (now : Z) : bool :=
  existsb (fun h =>
    let end_ := ended_at ov h in
    bool_decide (end_ <> i64_max) && bool_decide (0 < h.(held_at)) &&
    bool_decide (now < isat_add end_ COOLDOWN_SECS)) (holds_of ov addr).

(** ** Settlements *)

(** [max_by(|a, b| a.1.cmp(&b.1).then(b.0.cmp(&a.0)))]: the later of two equal
    elements is kept. *)
Definition held_cmp (a b : string * Z) : comparison :=
  match Z.compare a.2 b.2 with
  | Eq => String.compare b.1 a.1
  | c => c
  end.

Definition max_held (l : list (string * Z)) : option (string * Z) :=
  match l with
  | [] => None
  | x :: l => Some (foldl (fun m y => match held_cmp m y with Gt => m | _ => y end) x l)
  end.

Definition settlements (ov : Ov) (h : Hold) (now : Z) : list Settlement :=
  if h.(paid) then []
  else
    match phase ov h now with
    | Rejected =>
        match max_held h.(amounts) with
        | Some (to, _) => [MkSettlement h.(requester) to h.(request).(bond)]
        | None => []
        end
    | Returned => (fun an : string * Z => MkSettlement an.1 h.(request).(victim) an.2) <$> h.(amounts)
    | _ => []
    end.

Definition settle_tx (id : string) (height now : Z) (i : nat) (s : Settlement) (amount : Z) : LedgerTx :=
  system_tx (settle_hash id i s.(st_from) s.(st_to) amount) s.(st_from) s.(st_to) amount
    (Some (settle_memo id i)) now "Confirmed" (Some height) TX_SETTLE "hold" 3 1.

(** The payments due for one hold; an address without coins pays nothing. *)
Definition settle_txs_of (ov : Ov) (height now : Z) (balance : string -> Z) (id : string) : list LedgerTx :=
  match load_hold ov id with
  | None => []
  | Some h =>
      omap (fun is_ : nat * Settlement =>
              let amount := Z.min is_.2.(owed) (balance is_.2.(st_from)) in
              if bool_decide (amount = 0) then None else Some (settle_tx id height now is_.1 is_.2 amount))
        (imap pair (settlements ov h now))
  end.

Definition settle_txs (ov : Ov) (height now : Z) (balance : string -> Z) : list LedgerTx :=
  if negb (rule_active height) then []
  else concat (settle_txs_of ov height now balance <$> live ov).

(** ** Certificates *)

Definition message (b : HoldBody) : bytes := CERT_DOMAIN ++ blake3 (to_json b).

(** [windows(2).any(|w| w[0] >= w[1])]. *)
Fixpoint out_of_order (l : list Z) : bool :=
  match l with
  | [] => false
  | x :: l' => match l' with [] => false | y :: _ => bool_decide (y <= x) || out_of_order l' end
  end.

Definition verify_cert (cert : HoldCert) (keys : list string) : result unit string :=
  let q := quorum (length keys) in
  if bool_decide (keys = []) || bool_decide (length cert.(hc_signers) < q)%nat then
    Err ("the hold has " +:+ pretty (length cert.(hc_signers)) +:+ " of the " +:+ pretty q +:+
         " committee signatures it needs")
  else if out_of_order cert.(hc_signers) ||
          existsb (fun p => bool_decide (Z.of_nat (length keys) <= p)) cert.(hc_signers) then
    Err "the hold lists its signers out of order or out of range"
  else
    let pks := omap (fun p => k ← keys !! Z.to_nat p; hex_decode k) cert.(hc_signers) in
    match hex_decode cert.(hc_sig) with
    | None => Err "the hold signature is not hex"
    | Some sig =>
        if negb (bool_decide (length pks = length cert.(hc_signers))) ||
           negb (verify_shared_aggregate sig pks (message cert.(hc_body)))
        then Err "the hold signature does not verify"
        else Ok tt
    end.

Definition vote_ok (body : HoldBody) (signer sig : string) (keys : list string) : bool :=
  bool_decide (signer ∈ keys) &&
  match hex_decode signer, hex_decode sig with
  | Some pk, Some s => verify_shared s pk (message body)
  | _, _ => false
  end.

(** The keys whose vote is found, with their positions; these ascend, so the
    sort changes nothing. *)
Definition assemble (body : HoldBody) (votes : list (string * string)) (keys : list string) : option HoldCert :=
  let picked :=
    omap (fun ik : nat * string =>
            '(_, sg) ← list_find (fun sg : string * string =>
                         sg.1 = ik.2 /\ vote_ok body sg.1 sg.2 keys = true) votes;
            s ← hex_decode sg.2; Some (Z.of_nat ik.1, s)) (imap pair keys) in
  agg ← aggregate_shared picked.*2;
  let cert := MkHoldCert body picked.*1 (hex_encode agg) in
  match verify_cert cert keys with
  | Ok _ => Some cert
  | Err _ => None
  end.

(** ** Well-formed transactions *)

(** [serde_json::from_str(..).map_err(unreadable)]. *)
Definition read_body {A} `{Json A} (args : string) : result A string :=
  match from_str args with
  | Ok a => Ok a
  | Err e => Err ("the body is not readable: " +:+ e)
  end.

Definition well_formed (tx : LedgerTx) : result unit string :=
  if negb (is_hold_op tx) then Err (tx.(tx_type) +:+ " is not a hold transaction")
  else if bool_decide (tx.(tx_from) = "") || bool_decide (tx.(tx_to) <> tx.(tx_from)) ||
          bool_decide (tx.(tx_amount) <> 0) then
    Err "a hold transaction is a zero-amount transaction to the sender itself"
  else if bool_decide (MAX_BODY_BYTES < String.length tx.(call_args))%nat then
    Err "the body is longer than 16384 bytes"
  else if bool_decide (tx.(tx_memo) <> memo_for tx.(tx_type) tx.(call_args)) then
    Err "the memo does not commit to the body"
  else if bool_decide (tx.(tx_type) = TX_REQUEST) then
    if bool_decide (tx.(fee_uegoc) < REQUEST_FEE_UEGOC) then
      Err "a hold request burns a fee of at least 10 EGOC"
    else let? b := read_body (A := RequestBody) tx.(call_args) in check_request tx.(tx_from) b
  else if bool_decide (tx.(tx_type) = TX_VOTE) || bool_decide (tx.(tx_type) = TX_NODE_VOTE) then
    let? b := read_body (A := VoteBody) tx.(call_args) in
    if negb (is_id b.(vb_id)) ||
       negb (bool_decide (b.(vb_phase) = PHASE_CONFIRM) || bool_decide (b.(vb_phase) = PHASE_RETURN))
    then Err "the vote names no hold or phase" else Ok tt
  else if bool_decide (tx.(tx_type) = TX_APPEAL) then
    let? b := read_body (A := AppealBody) tx.(call_args) in
    if negb (is_id b.(ab_id)) || blank b.(ab_text) || bool_decide (MAX_TEXT_BYTES < String.length b.(ab_text))%nat
    then Err "an appeal names a hold and says why in at most 2000 bytes" else Ok tt
  else
    let? b := read_body (A := IdBody) tx.(call_args) in
    if negb (is_id b.(ib_id)) then Err "the request names no hold" else Ok tt.

(** ** Judging a block *)

Definition check_cert (ov : Ov) (tx : LedgerTx) (p : Planner) : Planner * result unit string :=
  if bool_decide (tx.(tx_hash) <> batch_hash TX_CERT p.(pl_height) tx.(call_args)) then
    (p, Err "the hold certificate is not bound to this block")
  else
    match from_str (A := HoldCert) tx.(call_args) with
    | Err e => (p, Err ("the hold certificate is unreadable: " +:+ e))
    | Ok cert =>
        if bool_decide (cert.(hc_body).(hb_id) ∈ p.(pl_certs)) then (p, Err "one certificate per hold")
        else
          let p := add_cert cert.(hc_body).(hb_id) p in
          (p, let? h := ok_or (load_hold ov cert.(hc_body).(hb_id)) "the certificate names no hold" in
              if negb (bool_decide (phase ov h p.(pl_now) = Signing)) then
                Err "the hold is not waiting for its committee"
              else
                let? _ := check_amounts h cert.(hc_body).(hb_amounts) in
                verify_cert cert h.(keys))
    end.

Section Balance.
Context (balance : string -> Z).

(** The last part of [judge]: what must stay after the sender's outflow. *)
Definition judge_spend (tx : LedgerTx) (need : Z) (p : Planner) : Planner * Fit :=
  if bool_decide (need = 0) && negb (bool_decide (tx.(tx_from) ∈ p.(pl_requests))) then (p, FitYes)
  else
    let spent := sat_add u64_max (default 0 (p.(pl_spent) !! tx.(tx_from))) (outflow tx) in
    if bool_decide (sat_sub (balance tx.(tx_from)) spent < need) then
      (p, FitLater "the coins are held by a theft hold or a hold bond")
    else (set_spent tx.(tx_from) spent p, FitYes).

(** The part of [judge] for a transaction of a user. *)
Definition judge_subject (ov : Ov) (tx : LedgerTx) (p : Planner) : Planner * Fit :=
  let need := locked ov tx.(tx_from) p.(pl_now) in
  if bool_decide (tx.(tx_type) = TX_REQUEST) then
    match from_str (A := RequestBody) tx.(call_args) with
    | Ok b =>
        if bool_decide (tx.(tx_from) ∈ p.(pl_requests)) then
          (p, FitNever "the sender already has an open hold request")
        else
          let p := add_request tx.(tx_from) p in
          if bool_decide (0 < bond_on ov tx.(tx_from) p.(pl_now)) then
            (p, FitNever "the sender already has an open hold request")
          else judge_spend tx (sat_add u64_max need b.(bond)) p
    | Err _ => judge_spend tx need p
    end
  else judge_spend tx need p.

Definition judge (ov : Ov) (tx : LedgerTx) (p : Planner) : Planner * Fit :=
  match if is_hold_op tx then well_formed tx else Ok tt with
  | Err e => (p, FitNever e)
  | Ok _ =>
      let p := if is_hold_op tx && bool_decide (tx.(tx_type) = TX_VOTE) then add_voter tx.(tx_from) p else p in
      if is_cert_tx tx then
        match check_cert ov tx p with
        | (p, Ok _) => (p, FitYes)
        | (p, Err e) => (p, FitNever e)
        end
      else if is_settle tx then (p, FitYes)
      else if is_unstake_tx tx && bool_decide (tx.(tx_from) ∈ p.(pl_voters)) then
        (p, FitLater "the sender votes on a hold with this stake in this block")
      else if is_unstake_tx tx && bool_decide (p.(pl_now) < stake_locked_until ov tx.(tx_from)) then
        (p, FitLater "the stake is locked by a hold vote")
      else if negb (subject tx) then (p, FitYes)
      else judge_subject ov tx p
  end.

Definition fit (ov : Ov) (tx : LedgerTx) (p : Planner) : Planner * Fit :=
  let active := rule_active p.(pl_height) in
  if (is_hold_op tx || is_cert_tx tx || is_settle tx) && negb active then
    (p, FitLater ("theft holds start at block " +:+ show_activation))
  else if negb active then (p, FitYes)
  else judge ov tx p.

(** The first loop of [validate]. *)
Fixpoint plan_all (ov : Ov) (height : Z) (txs : list LedgerTx) (p : Planner) : result Planner string :=
  match txs with
  | [] => Ok p
  | tx :: txs =>
      if negb (rule_active height) && (is_hold_op tx || is_cert_tx tx || is_settle tx) then
        Err (refused tx ("theft holds are not active at block " +:+ pretty height))
      else
        match fit ov tx p with
        | (p, FitYes) => plan_all ov height txs p
        | (_, FitLater e) | (_, FitNever e) => Err (refused tx e)
        end
  end.

(** [expected.insert(tx.hash, tx)] for every payment due. *)
Definition expected_of (l : list LedgerTx) : gmap string LedgerTx :=
  foldl (fun m tx => <[ tx.(tx_hash) := tx ]> m) ∅ l.

(** The loop over the settlements of the block. *)
Fixpoint check_settles (expected : gmap string LedgerTx) (l : list LedgerTx) (by_hold : gmap string nat)
    : result (gmap string nat) string :=
  match l with
  | [] => Ok by_hold
  | tx :: l =>
      if negb (settle_is_well_formed tx) then Err ("hold settlement " +:+ tx.(tx_hash) +:+ " is malformed")
      else
        match expected !! tx.(tx_hash) with
        | None => Err ("hold settlement " +:+ tx.(tx_hash) +:+ " is not due")
        | Some e =>
            if bool_decide (e.(tx_from) <> tx.(tx_from)) || bool_decide (e.(tx_to) <> tx.(tx_to)) ||
               bool_decide (e.(tx_amount) <> tx.(tx_amount))
            then Err ("hold settlement " +:+ tx.(tx_hash) +:+ " does not match what is due")
            else
              let id := from_option fst "" (settle_parts tx) in
              check_settles expected l (<[ id := S (default 0%nat (by_hold !! id)) ]> by_hold)
        end
  end.

Definition due_of (expected : gmap string LedgerTx) (id : string) : nat :=
  length (filter (fun ht : string * LedgerTx => fst <$> settle_parts ht.2 = Some id) (map_to_list expected)).

Fixpoint check_due (expected : gmap string LedgerTx) (l : list (string * nat)) : result unit string :=
  match l with
  | [] => Ok tt
  | (id, n) :: l =>
      let due := due_of expected id in
      if bool_decide (n <> due) then
        Err ("hold " +:+ id +:+ " settles " +:+ pretty n +:+ " of its " +:+ pretty due +:+
             " payments; all go in one block")
      else check_due expected l
  end.

Definition validate (ov : Ov) (block : LedgerBlock) (txs : list LedgerTx) : result unit string :=
  let? _ := plan_all ov block.(b_height) txs (planner_new block.(b_height) block.(b_timestamp)) in
  if negb (rule_active block.(b_height)) then Ok tt
  else
    let settles := filter (fun tx => is_settle tx = true) txs in
    if bool_decide (settles = []) then Ok tt
    else
      let expected := expected_of (settle_txs ov block.(b_height) block.(b_timestamp) balance) in
      let? by_hold := check_settles expected settles ∅ in
      check_due expected (btree_map by_hold).
End Balance.

(** ** Effects *)

Definition still_open (ov : Ov) (now : Z) (id : string) : bool :=
  match load_hold ov id with
  | None => false
  | Some h =>
      match phase ov h now with
      | Failed | Lapsed | Expired => false
      | Rejected | Returned => negb h.(paid)
      | _ => true
      end
  end.

Definition add_live (ov : Ov) (id : string) (now : Z) : result Ov string :=
  let ids := live ov in
  let ids := if bool_decide (MAX_LIVE <= length ids)%nat
             then filter (fun i => still_open ov now i = true) ids else ids in
  if bool_decide (MAX_LIVE <= length ids)%nat then
    Err "too many holds are open across the network right now"
  else Ok (save ov LIVE_KEY (ids ++ [id])).

Definition op_request (ov : Ov) (block : LedgerBlock) (tx : LedgerTx) : result Ov string :=
  let? b := from_str (A := RequestBody) tx.(call_args) in
  if bool_decide (node_count ov < MIN_NODE_POOL) then Err "theft holds need at least 64 nodes in the pool"
  else if bool_decide (0 < bond_on ov tx.(tx_from) block.(b_timestamp)) then
    Err "the sender already has an open hold request"
  else
    let keys := draw_answering ov block.(b_height) in
    if bool_decide (length keys < 4)%nat then Err "no committee can be drawn for a hold right now"
    else
      let id := hold_id tx.(tx_hash) in
      match load_hold ov id with
      | Some _ => Err "this hold exists"
      | None =>
          let? ov := add_live ov id block.(b_timestamp) in
          let h := new_hold id tx.(tx_from) b block.(b_timestamp) block.(b_height) keys in
          Ok (save (save ov (hold_key id) h) (bond_key tx.(tx_from)) id)
      end.

(** One address of a certificate: a cooling or crowded address is passed over. *)
Definition hold_addr (id : string) (now : Z) (acc : Ov * list (string * Z)) (an : string * Z)
    : Ov * list (string * Z) :=
  let '(ov, kept) := acc in
  if cooling ov an.1 now then (ov, kept)
  else
    let keep i :=
      match load_hold ov i with
      | Some o => bool_decide (ended_at ov o = i64_max) ||
                  bool_decide (now < isat_add (ended_at ov o) COOLDOWN_SECS)
      | None => false
      end in
    let ids := filter (fun i => keep i = true) (ids_of ov an.1) in
    if bool_decide (MAX_HOLDS_PER_ADDR <= length ids)%nat then (ov, kept)
    else (save ov (addr_key an.1) (ids ++ [id]), kept ++ [an]).

Definition apply_cert (ov : Ov) (block : LedgerBlock) (tx : LedgerTx) (staked : Z) : result Ov string :=
  let? cert := from_str (A := HoldCert) tx.(call_args) in
  let? h := ok_or (load_hold ov cert.(hc_body).(hb_id)) "no such hold" in
  let now := block.(b_timestamp) in
  let '(ov, kept) := foldl (hold_addr h.(h_id) now) (ov, []) cert.(hc_body).(hb_amounts) in
  let h := set_held kept now staked (total_weight ov (period_of block.(b_height))) h in
  Ok (save ov (hold_key h.(h_id)) h).

Definition add_vote (node yes : bool) (weight : Z) (t : Tally) : Tally :=
  if node then
    MkTally t.(stake_yes) t.(stake_no) t.(stake_voters)
      (if yes then sat_add u64_max t.(node_yes) weight else t.(node_yes))
      (if yes then t.(node_no) else sat_add u64_max t.(node_no) weight) (t.(node_voters) + 1)
  else
    MkTally (if yes then sat_add u64_max t.(stake_yes) weight else t.(stake_yes))
      (if yes then t.(stake_no) else sat_add u64_max t.(stake_no) weight) (t.(stake_voters) + 1)
      t.(node_yes) t.(node_no) t.(node_voters).

Definition op_vote (ov : Ov) (block : LedgerBlock) (tx : LedgerTx) (node : bool) : result Ov string :=
  let? b := from_str (A := VoteBody) tx.(call_args) in
  let? h := ok_or (load_hold ov b.(vb_id)) "no such hold" in
  let now := block.(b_timestamp) in
  let p := phase ov h now in
  let '(open, ends) :=
    if bool_decide (b.(vb_phase) = PHASE_CONFIRM) then (bool_decide (p = Voting), vote_end h)
    else (bool_decide (p = ReturnVoting), isat_add h.(return_opened) VOTE_SECS) in
  if negb open then Err "that vote is not open"
  else
    let vk := vote_key h.(h_id) b.(vb_phase) (if node then "n" else "s") tx.(tx_from) in
    match ov_get vk ov with
    | Some _ => Err "already voted"
    | None =>
        let? weight :=
          if node then ok_or (node_weight ov tx.(tx_from) (period_of block.(b_height)))
                         "only a node in the pool casts a node vote"
          else Ok (stake_of ov tx.(tx_from)) in
        if bool_decide (weight = 0) then Err "a vote needs weight"
        else
          let t := add_vote node b.(vb_yes) weight (tally ov h.(h_id) b.(vb_phase)) in
          let ov := if node then ov
                    else save ov (lock_key tx.(tx_from)) (Z.max (stake_locked_until ov tx.(tx_from)) ends) in
          let ov := save ov (tally_key h.(h_id) b.(vb_phase)) t in
          Ok (ov_put vk [if b.(vb_yes) then 1 else 0] ov)
    end.

Definition op_appeal (ov : Ov) (block : LedgerBlock) (tx : LedgerTx) : result Ov string :=
  let? b := from_str (A := AppealBody) tx.(call_args) in
  let? h := ok_or (load_hold ov b.(ab_id)) "no such hold" in
  if match phase ov h block.(b_timestamp) with Voting | Confirmed | ReturnVoting => false | _ => true end then
    Err "the hold takes no appeals now"
  else if negb (existsb (fun an => bool_decide (an.1 = tx.(tx_from))) h.(amounts)) ||
          existsb (fun at_ => bool_decide (at_.1 = tx.(tx_from))) h.(appeals) then
    Err "each held address appeals once"
  else Ok (save ov (hold_key h.(h_id)) (add_appeal (tx.(tx_from), b.(ab_text)) h)).

Definition op_return (ov : Ov) (block : LedgerBlock) (tx : LedgerTx) : result Ov string :=
  let? b := from_str (A := IdBody) tx.(call_args) in
  let? h := ok_or (load_hold ov b.(ib_id)) "no such hold" in
  if bool_decide (h.(request).(victim) <> tx.(tx_from)) || bool_decide (0 < h.(return_opened)) ||
     negb (bool_decide (phase ov h block.(b_timestamp) = Confirmed)) then
    Err "only the victim opens one return vote on a confirmed hold"
  else Ok (save ov (hold_key h.(h_id)) (set_return block.(b_timestamp) h)).

Definition apply_op (ov : Ov) (block : LedgerBlock) (tx : LedgerTx) : result Ov string :=
  let? _ := well_formed tx in
  if bool_decide (tx.(tx_type) = TX_REQUEST) then op_request ov block tx
  else if bool_decide (tx.(tx_type) = TX_VOTE) then op_vote ov block tx false
  else if bool_decide (tx.(tx_type) = TX_NODE_VOTE) then op_vote ov block tx true
  else if bool_decide (tx.(tx_type) = TX_APPEAL) then op_appeal ov block tx
  else op_return ov block tx.

(** What fails has no effect. *)
Definition or_same (ov : Ov) (r : result Ov string) : Ov := match r with Ok ov => ov | Err _ => ov end.

(** The holds the settlements of the block name. *)
Definition paid_ids (txs : list LedgerTx) : gset string :=
  list_to_set (omap (fun tx => fst <$> settle_parts tx) (filter (fun tx => is_settle tx = true) txs)).

Definition mark_paid (ov : Ov) (id : string) : Ov :=
  match load_hold ov id with
  | Some h => save ov (hold_key id) (set_paid h)
  | None => ov
  end.

Definition apply_effects (ov : Ov) (block : LedgerBlock) (txs : list LedgerTx) (staked : Z) : Ov :=
  let ov := foldl mark_paid ov (btree_set (paid_ids txs)) in
  let ov := foldl (fun ov tx => or_same ov (apply_cert ov block tx staked)) ov
              (filter (fun tx => is_cert_tx tx = true) txs) in
  foldl (fun ov tx => or_same ov (apply_op ov block tx)) ov (filter (fun tx => is_hold_op tx = true) txs).

Definition apply_block (ov : Ov) (block : LedgerBlock) (txs : list LedgerTx) (staked : Z) : Ov :=
  if rule_active block.(b_height) then apply_effects ov block txs staked else ov.
End HoldChain.
