(* ===== verification/HoldTrace.v ===== *)
(** * Theft holds: tracing stolen coins

    [trace] of [ego-desktop/src-tauri/src/hold_chain.rs], by which a committee
    member works out which addresses hold how much of what was stolen, and the
    facts about it. *)
From stdpp Require Import pretty.
From Stdlib Require Import Ascii.
From S2P Require Import Prelude Crypto Ledger RuleText Hold LedgerFacts Totals.
Local Open Scope string_scope.
Local Open Scope list_scope.
Local Open Scope Z_scope.
Local Open Scope ego_scope.

Record Event : Type := MkEvent {
  ev_height : Z;
  ev_pos : Z;
  ev_hash : string;
  ev_from : string;
  ev_to : string;
  ev_amount : Z;
  ev_fee : Z;
  unstake : bool;
}.

#[export] Instance Event_eq_dec : EqDecision Event.
Proof. solve_decision. Defined.

(** [(a.height, a.pos, &a.hash) <= (b.height, b.pos, &b.hash)]. *)
Definition event_leb (a b : Event) : bool :=
  match Z.compare a.(ev_height) b.(ev_height) with
  | Lt => true
  | Gt => false
  | Eq =>
      match Z.compare a.(ev_pos) b.(ev_pos) with
      | Lt => true
      | Gt => false
      | Eq => String.leb a.(ev_hash) b.(ev_hash)
      end
  end.

(** [dedup_by(|a, b| a.hash == b.hash)]: an event goes when the one kept before
    it has its hash. *)
Fixpoint dedup_from (prev : Event) (l : list Event) : list Event :=
  match l with
  | [] => []
  | e :: l => if bool_decide (e.(ev_hash) = prev.(ev_hash)) then dedup_from prev l else e :: dedup_from e l
  end.

Definition dedup (l : list Event) : list Event :=
  match l with
  | [] => []
  | e :: l => e :: dedup_from e l
  end.

Definition order_events (events : list Event) : list Event := dedup (stable_sort event_leb events).

(** [ordered[first..]], from the first event that satisfies [p]. *)
Fixpoint from_first (p : Event -> bool) (l : list Event) : option (list Event) :=
  match l with
  | [] => None
  | e :: l' => if p e then Some l else from_first p l'
  end.

(** The balances before the event, from those after it. *)
Definition back_step (e : Event) (m : gmap string Z) : gmap string Z :=
  let m := alter (fun b => if e.(unstake) then b else b - e.(ev_amount)) e.(ev_to) m in
  let m := alter (fun b => b + (if e.(unstake) then e.(ev_fee) else e.(ev_amount) + e.(ev_fee))) e.(ev_from) m in
  if e.(unstake) then alter (fun b => b - e.(ev_amount)) e.(ev_from) m else m.

Record Tracing : Type := MkTracing { bal : gmap string Z; traced : gmap string Z }.

(** The sender's side of an event; the second result is what it carries along. *)
Definition send_step (theft listed : gset string) (e : Event) (s : Tracing) : Tracing * Z :=
  if bool_decide (e.(ev_hash) ∈ theft) then (s, e.(ev_amount))
  else
    match s.(bal) !! e.(ev_from) with
    | None => (s, 0)
    | Some b =>
        let out := if e.(unstake) then e.(ev_fee) else sat_add u64_max e.(ev_amount) e.(ev_fee) in
        let t := default 0 (s.(traced) !! e.(ev_from)) in
        let new_bal := sat_sub b out in
        let '(rest, carried) :=
          if bool_decide (e.(ev_hash) ∈ listed) then
            let carried := Z.min e.(ev_amount) t in (t - carried, carried)
          else
            let own := sat_sub b t in (sat_sub t (sat_sub out own), 0) in
        let b' := if e.(unstake) then sat_add u64_max new_bal e.(ev_amount) else new_bal in
        (MkTracing (<[ e.(ev_from) := b' ]> s.(bal)) (<[ e.(ev_from) := Z.min rest new_bal ]> s.(traced)), carried)
    end.

(** The receiver's side. *)
Definition receive_step (listed : gset string) (e : Event) (carried : Z) (s : Tracing) : Tracing :=
  match s.(bal) !! e.(ev_to) with
  | None => s
  | Some b =>
      let b := if e.(unstake) then b else sat_add u64_max b e.(ev_amount) in
      let traced :=
        if bool_decide (e.(ev_hash) ∈ listed) && bool_decide (0 < carried) then
          let t := sat_add u64_max (default 0 (s.(traced) !! e.(ev_to))) carried in
          <[ e.(ev_to) := Z.min t b ]> s.(traced)
        else s.(traced) in
      MkTracing (<[ e.(ev_to) := b ]> s.(bal)) traced
  end.

Definition forward_step (theft listed : gset string) (s : Tracing) (e : Event) : Tracing :=
  let '(s, carried) := send_step theft listed e s in receive_step listed e carried s.

(** The order of a pair of a string and an integer. *)
Definition held_leb (a b : string * Z) : bool :=
  match String.compare a.1 b.1 with
  | Lt => true
  | Gt => false
  | Eq => a.2 <=? b.2
  end.

Section Trace.
Context (now_balance : string -> Z) (stops : string -> bool).

(** The addresses to follow: where a listed transaction went. *)
Definition tracked_of (victim : string) (listed : gset string) (ordered : list Event) : gset string :=
  list_to_set (ev_to <$> filter (fun e : Event =>
    e.(ev_hash) ∈ listed /\ stops e.(ev_to) = false /\ e.(ev_to) <> victim) ordered).

(** Where tracing starts: nothing traced, the balances wound back to before the theft. *)
Definition start_of (tracked : gset string) (rest : list Event) : Tracing :=
  let balance := foldl (fun m e => back_step e m) (set_to_map (fun a => (a, now_balance a)) tracked : gmap string Z)
                   (reverse rest) in
  MkTracing (clamp64 <$> balance) (gset_to_gmap 0 tracked).

Definition result_of (s : Tracing) : list (string * Z) :=
  let capped := (fun at_ : string * Z => (at_.1, Z.min at_.2 (now_balance at_.1))) <$> btree_map s.(traced) in
  take MAX_HELD (stable_sort held_leb (filter (fun at_ : string * Z => 0 < at_.2) capped)).

Definition trace (victim : string) (theft hops : list string) (events : list Event)
    : result (list (string * Z)) string :=
  let theft_set := list_to_set theft : gset string in
  let listed := list_to_set (theft ++ hops) : gset string in
  let ordered := order_events events in
  match list_find (fun h => h ∉ ev_hash <$> ordered) (btree_set listed) with
  | Some (_, h) => Err ("listed transaction " +:+ h +:+ " is not in the history")
  | None =>
      match list_find (fun e : Event => e.(ev_hash) ∈ theft_set /\ e.(ev_from) <> victim) ordered with
      | Some (_, e) => Err ("theft transaction " +:+ e.(ev_hash) +:+ " does not leave the victim")
      | None =>
          match from_first (fun e => bool_decide (e.(ev_hash) ∈ theft_set)) ordered with
          | None => Err "no theft transaction in the history"
          | Some rest =>
              let s := start_of (tracked_of victim listed ordered) rest in
              Ok (result_of (foldl (forward_step theft_set listed) s rest))
          end
      end
  end.
End Trace.

(** ** Theft holds: facts about tracing *)

Lemma zsum_submseteq (l k : list Z) : l ⊆+ k -> Forall (fun x => 0 <= x) k -> zsum l <= zsum k.
Proof.
  intros [m E]%submseteq_Permutation Hk. rewrite (zsum_perm _ _ E), zsum_app.
  rewrite E in Hk. apply Forall_app in Hk as [_ Hm]. pose proof (zsum_nonneg m Hm). lia.
Qed.

(** ** Events in order *)

Lemma string_leb_refl s : String.leb s s = true.
Proof. destruct (String.leb_total s s); done. Qed.

Lemma event_leb_antisym a b : event_leb a b = true -> event_leb b a = true -> ev_hash a = ev_hash b.
Proof.
  unfold event_leb. rewrite (Z.compare_antisym (ev_height a)), (Z.compare_antisym (ev_pos a)).
  destruct (ev_height a ?= ev_height b); cbn; try done.
  destruct (ev_pos a ?= ev_pos b); cbn; try done. apply String.leb_antisym.
Qed.

Lemma event_leb_total a b : event_leb a b = false -> event_leb b a = true.
Proof.
  unfold event_leb. rewrite (Z.compare_antisym (ev_height a)), (Z.compare_antisym (ev_pos a)).
  destruct (ev_height a ?= ev_height b); cbn; try done.
  destruct (ev_pos a ?= ev_pos b); cbn; try done. intros E.
  destruct (String.leb_total (ev_hash a) (ev_hash b)); congruence.
Qed.

Lemma event_leb_spec a b :
  event_leb a b = true <->
  ev_height a < ev_height b \/
  ev_height a = ev_height b /\
    (ev_pos a < ev_pos b \/ ev_pos a = ev_pos b /\ String.leb (ev_hash a) (ev_hash b) = true).
Proof.
  unfold event_leb. destruct (Z.compare_spec (ev_height a) (ev_height b));
    destruct (Z.compare_spec (ev_pos a) (ev_pos b)); naive_solver lia.
Qed.

Lemma string_leb_trans a b c : String.leb a b = true -> String.leb b c = true -> String.leb a c = true.
Proof.
  revert b c; induction a as [|x a IH]; intros [|y b] [|z c]; try done.
  unfold String.leb. cbn [String.compare].
  unfold Ascii.compare. intros H1 H2.
  destruct (N.compare_spec (Ascii.N_of_ascii x) (Ascii.N_of_ascii y)) as [E1|E1|E1]; try done;
  destruct (N.compare_spec (Ascii.N_of_ascii y) (Ascii.N_of_ascii z)) as [E2|E2|E2]; try done;
  destruct (N.compare_spec (Ascii.N_of_ascii x) (Ascii.N_of_ascii z)) as [E3|E3|E3]; try done; try lia.
  by apply (IH b c).
Qed.

Lemma event_leb_trans a b c : event_leb a b = true -> event_leb b c = true -> event_leb a c = true.
Proof.
  rewrite !event_leb_spec. intros H1 H2. pose proof (string_leb_trans (ev_hash a) (ev_hash b) (ev_hash c)).
  naive_solver lia.
Qed.

Lemma dedup_from_sublist p l : dedup_from p l `sublist_of` l.
Proof.
  revert p; induction l as [|e l IH]; intros p; cbn [dedup_from]; [done|].
  case_bool_decide; [by apply sublist_cons|]. by apply sublist_skip.
Qed.

Lemma dedup_sublist l : dedup l `sublist_of` l.
Proof. destruct l; [done|]. apply sublist_skip, dedup_from_sublist. Qed.

(** Where a hash names one event, ordering leaves one copy of it. *)
Lemma dedup_from_NoDup p l :
  (forall a b, a ∈ p :: l -> b ∈ p :: l -> ev_hash a = ev_hash b -> a = b) ->
  StronglySorted (fun a b => event_leb a b = true) (p :: l) -> NoDup (p :: dedup_from p l).
Proof.
  revert p; induction l as [|e l IH]; intros p Hone Hs; cbn [dedup_from]; [apply NoDup_singleton|].
  apply StronglySorted_inv in Hs as [Hs Hp]. case_bool_decide as E.
  - assert (e = p) as -> by (apply Hone; set_solver). apply IH; [|done]. set_solver.
  - constructor; [|apply IH; [set_solver|done]].
    intros [->|Hin]%elem_of_cons; [done|].
    apply StronglySorted_inv in Hs as [_ He]. rewrite Forall_forall in He.
    apply E. symmetry. apply event_leb_antisym; [by rewrite Forall_forall in Hp; apply Hp; set_solver|].
    apply He. by eapply elem_of_submseteq, sublist_submseteq, dedup_from_sublist.
Qed.

Section Order.
Context (events : list Event).
Hypothesis one_event : forall a b, a ∈ events -> b ∈ events -> ev_hash a = ev_hash b -> a = b.

Lemma order_events_elem e : e ∈ order_events events -> e ∈ events.
Proof.
  intros Hin. rewrite <-(stable_sort_perm event_leb events).
  by eapply elem_of_submseteq, sublist_submseteq, dedup_sublist.
Qed.

Lemma order_events_NoDup : NoDup (order_events events).
Proof.
  unfold order_events. pose proof (stable_sort_sorted _ event_leb_total event_leb_trans events) as Hs.
  assert (forall a b, a ∈ stable_sort event_leb events -> b ∈ stable_sort event_leb events ->
    ev_hash a = ev_hash b -> a = b) as Hone by (intros a b; rewrite !stable_sort_perm; apply one_event).
  destruct (stable_sort event_leb events) as [|p l]; [constructor|]. by apply dedup_from_NoDup.
Qed.
End Order.

(** ** One step of tracing *)

Record tracing_ok (s : Tracing) : Prop := {
  ok_dom : dom s.(bal) = dom s.(traced);
  ok_bal : forall a b, s.(bal) !! a = Some b -> 0 <= b;
  ok_traced : forall a t, s.(traced) !! a = Some t -> 0 <= t;
}.

Definition event_ok (e : Event) : Prop := 0 <= e.(ev_amount) /\ 0 <= e.(ev_fee).

Lemma traced_lookup s a b :
  tracing_ok s -> s.(bal) !! a = Some b ->
  exists t, s.(traced) !! a = Some t /\ default 0 (s.(traced) !! a) = t /\ 0 <= t.
Proof.
  intros Hs Hb. assert (a ∈ dom s.(traced)) as [t Ht]%elem_of_dom by (rewrite <-(ok_dom s Hs); by eapply elem_of_dom_2).
  exists t. rewrite Ht. by split_and!; [..|eapply ok_traced].
Qed.

(** Writing both maps at a followed address. *)
Lemma tracing_ok_insert s a b b' t' :
  tracing_ok s -> s.(bal) !! a = Some b -> 0 <= b' -> 0 <= t' ->
  tracing_ok (MkTracing (<[ a := b' ]> s.(bal)) (<[ a := t' ]> s.(traced))).
Proof.
  intros Hs Hb Hb' Ht'. split; cbn.
  - by rewrite !dom_insert_L, (ok_dom s Hs).
  - intros k x [[_ <-]|[_ E]]%lookup_insert_Some; [done|by eapply ok_bal].
  - intros k x [[_ <-]|[_ E]]%lookup_insert_Some; [done|by eapply ok_traced].
Qed.

Lemma send_step_ok theft listed e s s' c :
  tracing_ok s -> event_ok e -> send_step theft listed e s = (s', c) ->
  tracing_ok s' /\ 0 <= c /\ dom s'.(traced) = dom s.(traced) /\
  mtotal s'.(traced) + c <= mtotal s.(traced) + (if bool_decide (e.(ev_hash) ∈ theft) then e.(ev_amount) else 0).
Proof.
  intros Hs [Ha Hf]. unfold send_step. case_bool_decide; [intros [= <- <-]; split_and!; [done..|lia]|].
  destruct (bal s !! ev_from e) as [b|] eqn:Hb; [|intros [= <- <-]; split_and!; [done..|lia]].
  destruct (traced_lookup s _ b Hs Hb) as (t & Ht & -> & Ht0). pose proof (ok_bal s Hs _ _ Hb).
  assert (forall rest carried b', 0 <= carried -> 0 <= b' -> 0 <= rest -> rest + carried <= t ->
    let s' := MkTracing (<[ ev_from e := b' ]> (bal s)) (<[ ev_from e := rest ]> (traced s)) in
    tracing_ok s' /\ 0 <= carried /\ dom s'.(traced) = dom s.(traced) /\
    mtotal s'.(traced) + carried <= mtotal s.(traced) + 0) as Hgo.
  { intros rest carried b' ????. cbn. split_and!; [by eapply tracing_ok_insert|done|..].
    - rewrite dom_insert_L. assert (ev_from e ∈ dom (traced s)) by by eapply elem_of_dom_2. set_solver.
    - rewrite (mtotal_insert _ _ t) by done. lia. }
  case_bool_decide; intros [= <- <-]; apply Hgo; try (unfold sat_add, sat_sub, u64_max; lia);
    destruct (unstake e); unfold sat_add, sat_sub, u64_max; lia.
Qed.

Lemma receive_step_ok listed e c s :
  tracing_ok s -> event_ok e -> 0 <= c ->
  let s' := receive_step listed e c s in
  tracing_ok s' /\ dom s'.(traced) = dom s.(traced) /\ mtotal s'.(traced) <= mtotal s.(traced) + c.
Proof.
  intros Hs [Ha Hf] Hc. unfold receive_step.
  destruct (bal s !! ev_to e) as [b|] eqn:Hb; [|split_and!; [done..|lia]].
  destruct (traced_lookup s _ b Hs Hb) as (t & Ht & -> & Ht0). pose proof (ok_bal s Hs _ _ Hb).
  set (b' := if unstake e then b else _).
  assert (0 <= b') by (subst b'; destruct (unstake e); unfold sat_add, u64_max; lia).
  destruct (_ && _); cbn.
  - split_and!; [eapply tracing_ok_insert; [done..|]; unfold sat_add, u64_max; lia|..].
    + rewrite dom_insert_L. assert (ev_to e ∈ dom (traced s)) by by eapply elem_of_dom_2. set_solver.
    + rewrite (mtotal_insert _ _ t) by done. unfold sat_add. lia.
  - split_and!; [|done|lia]. split; cbn.
    + rewrite dom_insert_L, (ok_dom s Hs).
      assert (ev_to e ∈ dom (traced s)) by by eapply elem_of_dom_2. set_solver.
    + intros k x [[_ <-]|[_ E]]%lookup_insert_Some; [done|by eapply ok_bal].
    + by eapply ok_traced.
Qed.

(** What a listed theft moved. *)
Definition stolen (theft : gset string) (l : list Event) : Z :=
  zsum (ev_amount <$> filter (fun e : Event => e.(ev_hash) ∈ theft) l).

Lemma forward_ok theft listed l s :
  tracing_ok s -> Forall event_ok l ->
  let s' := foldl (forward_step theft listed) s l in
  tracing_ok s' /\ dom s'.(traced) = dom s.(traced) /\ mtotal s'.(traced) <= mtotal s.(traced) + stolen theft l.
Proof.
  revert s; induction l as [|e l IH]; intros s Hs Hl; cbn [foldl]; [unfold stolen; cbn; split_and!; [done..|lia]|].
  apply Forall_cons in Hl as [He Hl]. unfold forward_step at 2 4 6.
  destruct (send_step theft listed e s) as [s1 c] eqn:E1.
  apply send_step_ok in E1 as (Hs1 & Hc & Hd1 & Ht1); [|done..].
  destruct (receive_step_ok listed e c s1 Hs1 He Hc) as (Hs2 & Hd2 & Ht2).
  destruct (IH _ Hs2 Hl) as (Hs3 & Hd3 & Ht3). split_and!; [done|congruence|].
  unfold stolen in *. rewrite filter_cons. case_bool_decide; destruct (decide _); try done;
    rewrite ?fmap_cons, ?zsum_cons; lia.
Qed.

(** ** The result *)

Lemma back_step_dom e m : dom (back_step e m) = dom m.
Proof. unfold back_step. destruct (unstake e); by rewrite !dom_alter_L. Qed.

Lemma clamp64_nonneg b : 0 <= clamp64 b.
Proof. unfold clamp64. apply Z.mod_pos_bound. unfold u64_max. lia. Qed.

Lemma start_ok now_balance tracked rest :
  let s := start_of now_balance tracked rest in
  tracing_ok s /\ dom s.(traced) = tracked /\ mtotal s.(traced) = 0.
Proof.
  cbn. split_and!; [|apply dom_gset_to_gmap|apply mtotal_zero].
  assert (forall l (m : gmap string Z), dom (foldl (fun m e => back_step e m) m l) = dom m) as Hd.
  { induction l as [|e l IH]; intros m; [done|]. cbn [foldl]. by rewrite IH, back_step_dom. }
  split; cbn.
  - rewrite dom_fmap_L, Hd, dom_gset_to_gmap. apply set_eq. intros a.
    rewrite elem_of_dom. unfold is_Some. setoid_rewrite lookup_set_to_map; [|done].
    split; [intros (? & y & Hy & [= -> _]); done|eauto].
  - intros a b. rewrite lookup_fmap. intros (x & _ & ->)%fmap_Some. apply clamp64_nonneg.
  - by intros a t [_ <-]%lookup_gset_to_gmap_Some.
Qed.

Lemma from_first_sublist p l r : from_first p l = Some r -> r `sublist_of` l.
Proof.
  induction l as [|e l IH]; cbn [from_first]; [done|].
  destruct (p e); [by intros [= <-]|]. intros E. apply sublist_cons, IH, E.
Qed.

Section Result.
Context (now_balance : string -> Z) (s : Tracing).
Hypothesis s_ok : tracing_ok s.

(** The list before it is cut: sorted, capped by the balance. *)
Definition full_result : list (string * Z) :=
  stable_sort held_leb (filter (fun at_ : string * Z => 0 < at_.2)
    ((fun at_ : string * Z => (at_.1, Z.min at_.2 (now_balance at_.1))) <$> btree_map s.(traced))).

Lemma result_sublist : result_of now_balance s `sublist_of` full_result.
Proof. apply sublist_take. Qed.

Lemma result_keys : NoDup (result_of now_balance s).*1.
Proof.
  eapply sublist_NoDup; [|apply sublist_fmap, result_sublist].
  unfold full_result. rewrite stable_sort_perm.
  eapply sublist_NoDup; [|apply sublist_fmap, sublist_filter].
  rewrite <-list_fmap_compose. cbn. unfold btree_map.
  rewrite stable_sort_perm. apply NoDup_fst_map_to_list.
Qed.

Lemma result_entry a n :
  (a, n) ∈ result_of now_balance s -> 0 < n <= now_balance a /\ a ∈ dom s.(traced).
Proof.
  intros Hin. eapply elem_of_submseteq in Hin; [|apply sublist_submseteq, result_sublist].
  unfold full_result in Hin. rewrite stable_sort_perm in Hin.
  apply list_elem_of_filter in Hin as [Hn ([k v] & [= -> ->] & Hin)%list_elem_of_fmap]. cbn in *.
  unfold btree_map in Hin. rewrite stable_sort_perm in Hin. apply elem_of_map_to_list in Hin.
  split; [lia|by eapply elem_of_dom_2].
Qed.

Lemma result_total : zsum (result_of now_balance s).*2 <= mtotal s.(traced).
Proof.
  assert (Forall (fun x => 0 <= x) full_result.*2) as Hpos.
  { apply Forall_forall. intros x ([a n] & -> & Hin)%list_elem_of_fmap. cbn.
    unfold full_result in Hin. rewrite stable_sort_perm in Hin.
    apply list_elem_of_filter in Hin as [Hn _]. cbn in Hn. lia. }
  etrans; [apply zsum_submseteq; [apply sublist_submseteq, sublist_fmap, result_sublist|done]|].
  unfold full_result, mtotal.
  rewrite (zsum_perm _ _ (fmap_Permutation _ _ _ (stable_sort_perm held_leb _))).
  rewrite <-(zsum_perm (btree_map (traced s)).*2 (map_to_list (traced s)).*2)
    by (apply fmap_Permutation, stable_sort_perm).
  assert (forall k v, (k, v) ∈ btree_map (traced s) -> 0 <= v) as Hv.
  { intros k v Hin. unfold btree_map in Hin. rewrite stable_sort_perm in Hin.
    apply elem_of_map_to_list in Hin. by eapply ok_traced. }
  induction (btree_map (traced s)) as [|[k v] l IH]; [done|].
  rewrite fmap_cons, filter_cons. cbn [fst snd]. specialize (IH ltac:(set_solver)).
  pose proof (Hv k v ltac:(set_solver)).
  destruct (decide _); rewrite !fmap_cons, !zsum_cons || rewrite fmap_cons, zsum_cons; cbn in *; lia.
Qed.

Lemma result_length : (length (result_of now_balance s) <= MAX_HELD)%nat.
Proof. unfold result_of. rewrite length_take. lia. Qed.
End Result.

Lemma tracked_elem stops victim listed l a :
  a ∈ tracked_of stops victim listed l ->
  a <> victim /\ stops a = false /\ exists e, e ∈ l /\ ev_hash e ∈ listed /\ ev_to e = a.
Proof.
  intros (e & -> & ((?&?&?) & ?)%list_elem_of_filter)%elem_of_list_to_set%list_elem_of_fmap. naive_solver.
Qed.

(** The list a trace gives passes the check of a certificate. *)
Lemma check_each_ok v seen l :
  NoDup l.*1 ->
  (forall a n, (a, n) ∈ l -> valid_addr a = true /\ a <> v /\ n <> 0 /\ a ∉ seen) -> check_each v seen l = true.
Proof.
  revert seen; induction l as [|[a n] l IH]; intros seen Hd Hl; [done|].
  cbn [check_each]. rewrite fmap_cons in Hd. apply NoDup_cons in Hd as [Ha Hd].
  destruct (Hl a n) as (-> & ? & ? & ?); [set_solver|].
  rewrite !bool_decide_eq_false_2 by done. cbn. apply IH; [done|].
  intros b m Hb. destruct (Hl b m) as (?&?&?&?); [set_solver|]. split_and!; [done..|].
  intros [->%elem_of_singleton|?]%elem_of_union; [|done]. apply Ha. apply list_elem_of_fmap. by exists (a, m).
Qed.

Lemma stolen_submseteq theft l k : l ⊆+ k -> Forall event_ok k -> stolen theft l <= stolen theft k.
Proof.
  intros Hs Hk. unfold stolen. apply zsum_submseteq.
  { apply submseteq_Permutation in Hs as [m ->]. rewrite filter_app, fmap_app. by apply submseteq_inserts_r. }
  apply Forall_fmap, Forall_forall. intros e [_ He]%list_elem_of_filter.
  rewrite Forall_forall in Hk. by destruct (Hk e He).
Qed.
