(* ===== verification/HoldFacts.v ===== *)
(** * Theft holds: what a block does to a hold

    The steps a hold can take ([hold_step]), what they keep ([evolves]), and
    that the effects of an accepted block on every hold are such steps. *)
From stdpp Require Import pretty.
From Stdlib Require Import Ascii.
From S2P Require Import Prelude Crypto Ledger RuleText LedgerFacts Hold HoldChain.
Local Open Scope string_scope.
Local Open Scope list_scope.
Local Open Scope Z_scope.
Local Open Scope ego_scope.

(** ** Phases *)

(** The phases a hold can be found in later; five of them are final. *)
Definition can_become (p q : Phase) : bool :=
  bool_decide (p = q) ||
  match p, q with
  | Signing, _ => true
  | Voting, (Signing | Failed) => false
  | Voting, _ => true
  | Confirmed, (ReturnVoting | Returned | Expired) => true
  | ReturnVoting, (Confirmed | Returned | Expired) => true
  | _, _ => false
  end.

Definition final (p : Phase) : bool :=
  match p with Failed | Rejected | Lapsed | Returned | Expired => true | _ => false end.

Lemma can_become_refl p : can_become p p = true.
Proof. by destruct p. Qed.

Lemma can_become_trans p q r : can_become p q = true -> can_become q r = true -> can_become p r = true.
Proof. by destruct p, q, r. Qed.

Lemma final_stays p q : final p = true -> can_become p q = true -> q = p.
Proof. by destruct p, q. Qed.

(** Time alone moves a hold forward. *)
Lemma phase_of_time c r h now now' :
  now <= now' -> can_become (phase_of c r h now) (phase_of c r h now') = true.
Proof.
  intros Hle. unfold phase_of.
  repeat (case_bool_decide; try lia; try done; try apply can_become_refl);
    destruct (outcome c h); try done; try apply can_become_refl;
    repeat (case_bool_decide; try lia; try done; try apply can_become_refl);
    destruct (outcome r h); done.
Qed.

(** ** Steps *)

(** A hold with its two tallies. *)
Definition HoldView : Type := (Hold * Tally * Tally)%type.

Definition view_phase (v : HoldView) (now : Z) : Phase := phase_of v.1.2 v.2 v.1.1 now.

(** The times at which no deadline of a vote leaves the range of 64 bits. *)
Definition good_time (now : Z) : Prop := 0 < now /\ now + VOTE_SECS <= i64_max.

Inductive hold_step (now : Z) : HoldView -> HoldView -> Prop :=
| step_paid h c r : hold_step now (h, c, r) (set_paid h, c, r)
| step_cert h c r l staked nodes :
    phase_of c r h now = Signing -> hold_step now (h, c, r) (set_held l now staked nodes h, c, r)
| step_appeal h c r a : hold_step now (h, c, r) (add_appeal a h, c, r)
| step_return h c r :
    phase_of c r h now = Confirmed -> h.(return_opened) <= 0 -> hold_step now (h, c, r) (set_return now h, c, r)
| step_vote h c r c' :
    phase_of c r h now = Voting -> hold_step now (h, c, r) (h, c', r)
| step_vote_return h c r r' :
    phase_of c r h now = ReturnVoting -> hold_step now (h, c, r) (h, c, r').

(** What no step changes. *)
Record evolves (h h' : Hold) : Prop := {
  ev_id : h'.(h_id) = h.(h_id);
  ev_requester : h'.(requester) = h.(requester);
  ev_request : h'.(request) = h.(request);
  ev_created : h'.(created) = h.(created);
  ev_keys : h'.(keys) = h.(keys);
  ev_held : h.(held_at) <> 0 ->
    h'.(held_at) = h.(held_at) /\ h'.(amounts) = h.(amounts) /\
    h'.(stake_total) = h.(stake_total) /\ h'.(node_total) = h.(node_total);
  ev_return : 0 < h.(return_opened) -> h'.(return_opened) = h.(return_opened);
  ev_paid : h.(paid) = true -> h'.(paid) = true;
  ev_appeals : h.(appeals) `prefix_of` h'.(appeals);
}.

#[export] Instance evolves_preorder : PreOrder evolves.
Proof.
  split.
  - intros h. by split.
  - intros a b c [? ? ? ? ? Hh Hr Hp Ha] [? ? ? ? ? Hh' Hr' Hp' Ha'].
    split; try congruence; try (by etrans); [| |auto].
    + intros Hne. destruct (Hh Hne) as (E & ? & ? & ?). destruct Hh' as (? & ? & ? & ?); [by rewrite E|].
      split_and!; congruence.
    + intros Hpos. specialize (Hr Hpos). specialize (Hr' ltac:(lia)). congruence.
Qed.

Lemma phase_signing c r h now : phase_of c r h now = Signing -> h.(held_at) = 0.
Proof.
  unfold phase_of. case_bool_decide; [done|]. case_bool_decide; [done|].
  destruct (outcome c h); try done. repeat case_bool_decide; try done; destruct (outcome r h); done.
Qed.

Lemma hold_step_evolves now v v' : hold_step now v v' -> evolves v.1.1 v'.1.1.
Proof.
  destruct 1 as [| ? ? ? ? ? ? Hs%phase_signing | ? ? ? a | | |]; split; cbn; try done; try lia; try by (eexists).
Qed.

Lemma hold_step_phase now v v' :
  good_time now -> hold_step now v v' -> can_become (view_phase v now) (view_phase v' now) = true.
Proof.
  intros [Hpos Hmax] Hs. unfold view_phase. destruct Hs as [h c r|h c r l s n Hp|h c r a|h c r Hp _|h c r c' Hp|h c r r' Hp];
    cbn [fst snd]; try (apply can_become_refl); try (rewrite Hp).
  - by destruct (phase_of c r (set_held l now s n h) now).
  - revert Hp. unfold phase_of. cbn. case_bool_decide; [case_bool_decide; done|].
    change (vote_end (set_return now h)) with (vote_end h).
    change (outcome c (set_return now h)) with (outcome c h).
    case_bool_decide; [done|]. destruct (outcome c h); try done. intros _.
    rewrite (bool_decide_eq_true_2 (0 < now)) by done.
    rewrite bool_decide_eq_true_2; [done|]. unfold isat_add, VOTE_SECS, i64_min, i64_max in *. lia.
  - assert (phase_of c' r h now = Voting) as ->; [|done]. revert Hp. unfold phase_of.
    case_bool_decide; [case_bool_decide; done|]. case_bool_decide; [done|].
    destruct (outcome c h); try done. repeat case_bool_decide; try done; destruct (outcome r h); done.
  - assert (phase_of c r' h now = ReturnVoting) as ->; [|done]. revert Hp. unfold phase_of.
    case_bool_decide; [case_bool_decide; done|]. case_bool_decide; [done|].
    destruct (outcome c h); try done. repeat case_bool_decide; try done; destruct (outcome r h); done.
Qed.

Lemma hold_steps_evolve now v v' : rtc (hold_step now) v v' -> evolves v.1.1 v'.1.1.
Proof. induction 1 as [|??? Hs _ IH]; [done|]. by etrans; [eapply hold_step_evolves|]. Qed.

Lemma hold_steps_phase now v v' :
  good_time now -> rtc (hold_step now) v v' -> can_become (view_phase v now) (view_phase v' now) = true.
Proof.
  intros Ht. induction 1 as [|??? Hs _ IH]; [apply can_become_refl|].
  eapply can_become_trans; [by eapply hold_step_phase|done].
Qed.

(** ** Keys *)

Lemma last_sep {A} (x : A) a b u v :
  x ∉ u -> x ∉ v -> a ++ x :: u = b ++ x :: v -> a = b /\ u = v.
Proof.
  intros Hu Hv [(k & -> & E)|(k & -> & E)]%app_eq_inv.
  - destruct k as [|y k]; [rewrite app_nil_r; by injection E as <-|]. injection E as -> ->. set_solver.
  - destruct k as [|y k]; [rewrite app_nil_r; by injection E as <-|]. injection E as -> ->. set_solver.
Qed.

(** Splitting at the last colon. *)
Lemma colon_rsplit a b x y :
  58 ∉ ascii_bytes x -> 58 ∉ ascii_bytes y -> a +:+ ":" +:+ x = b +:+ ":" +:+ y -> a = b /\ x = y.
Proof.
  intros Hx Hy E. apply (f_equal ascii_bytes) in E. rewrite !ascii_bytes_app in E.
  apply last_sep in E as [E1 E2]; [|done..]. split; by apply ascii_bytes_inj.
Qed.

Definition a_phase (s : string) : Prop := s = PHASE_CONFIRM \/ s = PHASE_RETURN.

Lemma a_phase_no_colon s : a_phase s -> 58 ∉ ascii_bytes s.
Proof. intros [-> | ->]; apply (bool_decide_eq_true_1 _); by vm_compute. Qed.

Lemma tally_key_inj id id' p p' :
  a_phase p -> a_phase p' -> tally_key id p = tally_key id' p' -> id = id' /\ p = p'.
Proof.
  intros Hp Hp' E%ascii_bytes_inj. injection E as E.
  apply colon_rsplit in E; [done|by apply a_phase_no_colon..].
Qed.

Lemma hold_key_inj id id' : hold_key id = hold_key id' -> id = id'.
Proof. intros E%ascii_bytes_inj. by injection E. Qed.

(** Keys of different kinds differ in their first letters. *)
Ltac hold_keys_differ :=
  let E := fresh in
  intros E; unfold hold_key, addr_key, bond_key, lock_key, tally_key, vote_key, LIVE_KEY in E;
  apply ascii_bytes_inj in E; discriminate E.

(** A key that holds neither a hold nor a tally. *)
Definition other_key (k : bytes) : Prop :=
  forall id p, k <> hold_key id /\ k <> tally_key id p.

Ltac other_key_tac := intros ? ?; split; hold_keys_differ.

Lemma other_addr a : other_key (addr_key a). Proof. other_key_tac. Qed.
Lemma other_bond a : other_key (bond_key a). Proof. other_key_tac. Qed.
Lemma other_lock a : other_key (lock_key a). Proof. other_key_tac. Qed.
Lemma other_vote id p k v : other_key (vote_key id p k v). Proof. other_key_tac. Qed.
Lemma other_live : other_key LIVE_KEY. Proof. other_key_tac. Qed.

#[export] Hint Resolve other_addr other_bond other_lock other_vote other_live : holds.

(** ** The holds of an overlay *)

Section Holds.
Context (activation : option Z).
Context `{CryptoPrims} `{ChainPrims} `{NodePool} `{Bls}.
Context `{Json RequestBody} `{Json VoteBody} `{Json AppealBody} `{Json IdBody}.
Context `{Json HoldBody} `{Json HoldCert}.
Context `{Json Hold} `{Json Tally} `{Json (list string)} `{Json string} `{Json Z}.
Context `{!JsonRoundTrip Hold}.
Implicit Types ov : Ov.

Definition hview (ov : Ov) (id : string) (h : Hold) : HoldView :=
  (h, tally ov id PHASE_CONFIRM, tally ov id PHASE_RETURN).

(** A hold is stored under its own identifier. *)
Definition ids_ok (ov : Ov) : Prop := forall id h, load_hold ov id = Some h -> h.(h_id) = id.

Lemma phase_view ov id h now :
  ids_ok ov -> load_hold ov id = Some h -> phase ov h now = view_phase (hview ov id h) now.
Proof. intros Hid E. unfold phase, view_phase, hview. cbn. by rewrite (Hid id h E). Qed.

(** Every hold takes steps, none is lost. *)
Definition holds_step (now : Z) (ov ov' : Ov) : Prop :=
  ids_ok ov -> ids_ok ov' /\
  forall id h, load_hold ov id = Some h ->
    exists h', load_hold ov' id = Some h' /\ rtc (hold_step now) (hview ov id h) (hview ov' id h').

Lemma holds_step_intro now ov ov' : (ids_ok ov -> holds_step now ov ov') -> holds_step now ov ov'.
Proof. intros Hs Hid. by apply Hs. Qed.

#[export] Instance holds_step_preorder now : PreOrder (holds_step now).
Proof.
  split.
  - intros ov Hid. split; [done|]. intros id h E. by exists h.
  - intros a b c Hab Hbc Hid. destruct (Hab Hid) as [Hidb Hb], (Hbc Hidb) as [Hidc Hc]. split; [done|].
    intros id h (h1 & E1 & S1)%Hb. destruct (Hc id h1 E1) as (h2 & E2 & S2).
    exists h2. split; [done|]. by etrans.
Qed.

(** The holds and tallies of two overlays agree. *)
Definition same_holds (ov ov' : Ov) : Prop :=
  (forall id, load_hold ov' id = load_hold ov id) /\
  (forall id p, a_phase p -> tally ov' id p = tally ov id p).

#[export] Instance same_holds_equiv : Equivalence same_holds.
Proof.
  split.
  - by intros ov.
  - intros a b [? ?]. split; intros; symmetry; auto.
  - intros a b c [Ha Ha'] [Hb Hb']. split; intros; [by rewrite Hb|by rewrite Hb', Ha'].
Qed.

Lemma same_view ov ov' id h : same_holds ov ov' -> hview ov' id h = hview ov id h.
Proof. intros [_ Ht]. unfold hview. by rewrite !Ht by (by constructor). Qed.

Lemma same_holds_step now ov ov' : same_holds ov ov' -> holds_step now ov ov'.
Proof.
  intros Hs. pose proof Hs as [Hl _]. intros Hid. split.
  - intros id h. rewrite Hl. apply Hid.
  - intros id h E. exists h. rewrite Hl, (same_view _ _ _ _ Hs). by split.
Qed.

Lemma same_holds_put ov k v : other_key k -> same_holds ov (ov_put k v ov).
Proof.
  intros Hk. split.
  - intros id. apply load_same, ov_get_put_ne, (Hk id "").
  - intros id p _. unfold tally. f_equal. apply load_same, ov_get_put_ne, Hk.
Qed.

Lemma same_holds_save {A} `{Json A} ov k (v : A) : other_key k -> same_holds ov (save ov k v).
Proof. apply same_holds_put. Qed.

(** Writing a hold. *)
Lemma load_save_hold ov h id :
  load_hold (save ov (hold_key h.(h_id)) h) id = if bool_decide (h.(h_id) = id) then Some h else load_hold ov id.
Proof.
  case_bool_decide as E; [subst; apply load_save|].
  apply load_same, ov_get_put_ne. by intros ?%hold_key_inj.
Qed.

Lemma tally_save_hold ov id (h : Hold) i p : tally (save ov (hold_key id) h) i p = tally ov i p.
Proof. unfold tally. f_equal. apply load_same, ov_get_put_ne. hold_keys_differ. Qed.

Lemma save_hold_step now ov h h' :
  load_hold ov h.(h_id) = Some h -> h'.(h_id) = h.(h_id) ->
  hold_step now (hview ov h.(h_id) h) (hview ov h.(h_id) h') ->
  holds_step now ov (save ov (hold_key h.(h_id)) h').
Proof.
  intros E Eid Hs Hid. rewrite <-Eid. split.
  - intros id h2. rewrite load_save_hold. case_bool_decide; [by intros [= <-]|apply Hid].
  - intros id h2 E2. rewrite load_save_hold. unfold hview. rewrite !tally_save_hold. case_bool_decide as Ei.
    + exists h'. split; [done|]. apply rtc_once. rewrite Eid in Ei. subst id.
      rewrite E2 in E. injection E as ->. apply Hs.
    + by exists h2.
Qed.

Lemma save_new_step now ov h : load_hold ov h.(h_id) = None -> holds_step now ov (save ov (hold_key h.(h_id)) h).
Proof.
  intros E Hid. split.
  - intros id h2. rewrite load_save_hold. case_bool_decide; [by intros [= <-]|apply Hid].
  - intros id h2 E2. rewrite load_save_hold. unfold hview. rewrite !tally_save_hold.
    case_bool_decide; [congruence|]. by exists h2.
Qed.

(** Writing a tally. *)
Lemma save_tally_step now ov h p (t : Tally) :
  load_hold ov h.(h_id) = Some h -> a_phase p ->
  phase ov h now = (if bool_decide (p = PHASE_CONFIRM) then Voting else ReturnVoting) ->
  holds_step now ov (save ov (tally_key h.(h_id) p) t).
Proof.
  intros E Hp Hph Hid. set (ov' := save _ _ _).
  assert (forall id, load_hold ov' id = load_hold ov id) as Hl.
  { intros id. apply load_same, ov_get_put_ne. hold_keys_differ. }
  assert (forall id q, a_phase q -> id <> h_id h \/ q <> p -> tally ov' id q = tally ov id q) as Ht.
  { intros id q Hq Hne. unfold tally. f_equal. apply load_same, ov_get_put_ne.
    intros ?%tally_key_inj; [naive_solver|done..]. }
  split; [intros id h2; rewrite Hl; apply Hid|]. intros id h2 E2. exists h2. rewrite Hl. split; [done|].
  unfold hview. destruct (decide (id = h_id h)) as [->|Hne]; [|by rewrite !Ht by (by constructor || left)].
  rewrite E in E2. injection E2 as <-. apply rtc_once.
  destruct Hp as [-> | ->].
  - rewrite (Ht _ PHASE_RETURN) by (by constructor || right). by apply step_vote.
  - rewrite (Ht _ PHASE_CONFIRM) by (by constructor || right). by apply step_vote_return.
Qed.
End Holds.
