(* ===== verification/HoldSteps.v ===== *)
(** * Theft holds: the effects of an accepted block

    Each operation moves every hold by steps of [hold_step], and so does a block
    that [validate] accepted. *)
From stdpp Require Import pretty.
From Stdlib Require Import Ascii.
From S2P Require Import Prelude Crypto Ledger RuleText LedgerFacts Hold HoldChain HoldFacts.
Local Open Scope string_scope.
Local Open Scope list_scope.
Local Open Scope Z_scope.
Local Open Scope ego_scope.

Lemma sublist_omap {A B} (f : A -> option B) (l k : list A) :
  l `sublist_of` k -> omap f l `sublist_of` omap f k.
Proof.
  induction 1 as [|x l k _ IH|x l k _ IH]; [done|..]; cbn [omap list_omap]; destruct (f x);
    auto using sublist_skip, sublist_cons.
Qed.

Lemma sublist_filter_mono {A} (P : A -> Prop) `{!forall x, Decision (P x)} (l k : list A) :
  l `sublist_of` k -> filter P l `sublist_of` filter P k.
Proof.
  induction 1 as [|x l k _ IH|x l k _ IH]; [done|..]; rewrite ?filter_cons; destruct (decide (P x));
    auto using sublist_skip, sublist_cons.
Qed.

Section Steps.
Context (activation : option Z).
Context `{CryptoPrims} `{ChainPrims} `{NodePool} `{Bls}.
Context `{Json RequestBody} `{Json VoteBody} `{Json AppealBody} `{Json IdBody}.
Context `{Json HoldBody} `{Json HoldCert}.
Context `{Json Hold} `{Json Tally} `{Json (list string)} `{Json string} `{Json Z}.
Context `{!JsonRoundTrip Hold}.
Implicit Types ov : Ov.

(** Name the hold an operation loaded. *)
Ltac the_hold Hid :=
  match goal with
  | E : load_hold _ _ = Some ?x |- _ =>
      pose proof (Hid _ _ E) as Eid; rename x into h; rename E into Eh
  end.

(** ** Operations *)

Lemma mark_paid_step now ov id : holds_step now ov (mark_paid ov id).
Proof.
  apply holds_step_intro; intros Hid. unfold mark_paid. destruct (load_hold ov id) as [h|] eqn:E; [|by apply same_holds_step].
  pose proof (Hid id h E) as <-. apply save_hold_step; [done..|]. constructor.
Qed.

Lemma hold_addr_same id now l ov kept : same_holds ov (foldl (hold_addr id now) (ov, kept) l).1.
Proof.
  revert ov kept; induction l as [|[a n] l IH]; intros ov kept; [done|]. cbn [foldl hold_addr fst snd].
  destruct (cooling ov a now); [apply IH|]. case_bool_decide; [apply IH|].
  etrans; [|apply IH]. apply same_holds_save. auto with holds.
Qed.

(** What a certificate writes, for the hold it names. *)
Lemma apply_cert_step ov block tx staked ov' :
  apply_cert ov block tx staked = Ok ov' ->
  (forall cert h, from_str (A := HoldCert) tx.(call_args) = Ok cert ->
     load_hold ov cert.(hc_body).(hb_id) = Some h -> phase ov h block.(b_timestamp) = Signing) ->
  holds_step block.(b_timestamp) ov ov'.
Proof.
  unfold apply_cert. intros Ha Hsign. apply holds_step_intro; intros Hid. op_cases. rename x into cert. the_hold Hid.
  destruct (foldl _ _ _) as [ov1 kept] eqn:Hf. op_cases.
  pose proof (hold_addr_same (h_id h) (b_timestamp block) (hb_amounts (hc_body cert)) ov []) as Hsame.
  rewrite Hf in Hsame. cbn [fst] in Hsame. pose proof Hsame as [Hl _].
  etrans; [by apply same_holds_step|].
  match goal with |- holds_step _ _ (save _ (hold_key (h_id ?h')) _) => change (h_id h') with (h_id h) end.
  apply save_hold_step; [by rewrite Hl, Eid|done|]. apply step_cert.
  rewrite <-(Hsign cert h) by done. unfold phase. destruct Hsame as [_ Ht].
  by rewrite !Ht by by constructor.
Qed.

Lemma add_live_same ov id now ov' : add_live ov id now = Ok ov' -> same_holds ov ov'.
Proof. unfold add_live. intros Hr. op_cases. apply same_holds_save. auto with holds. Qed.

Lemma op_request_step ov block tx ov' :
  op_request ov block tx = Ok ov' -> holds_step block.(b_timestamp) ov ov'.
Proof.
  unfold op_request. intros Hr. op_cases.
  match goal with Hl : add_live _ _ _ = Ok ?o |- _ => apply add_live_same in Hl; rename Hl into Hlive; set (ov1 := o) in * end.
  etrans; [by apply same_holds_step|]. pose proof Hlive as [Hl _].
  etrans; [|apply same_holds_step, same_holds_save; auto with holds].
  match goal with |- holds_step _ _ (save _ (hold_key ?i) ?h) => change i with (h_id h) end.
  apply save_new_step. cbn [h_id new_hold]. by rewrite Hl.
Qed.

Lemma op_vote_step ov block tx node ov' :
  op_vote ov block tx node = Ok ov' ->
  (forall b, from_str (A := VoteBody) tx.(call_args) = Ok b -> a_phase b.(vb_phase)) ->
  holds_step block.(b_timestamp) ov ov'.
Proof.
  unfold op_vote. intros Hr Hph. apply holds_step_intro; intros Hid. op_cases. rename x into b. the_hold Hid.
  destruct (if bool_decide (vb_phase b = PHASE_CONFIRM) then _ else _) as [open ends] eqn:Eo.
  assert (open = true -> phase ov h (b_timestamp block) =
    (if bool_decide (vb_phase b = PHASE_CONFIRM) then Voting else ReturnVoting)) as Hp.
  { destruct (bool_decide (vb_phase b = PHASE_CONFIRM)); injection Eo as <- _; apply bool_decide_eq_true. }
  specialize (Hph b ltac:(done)). clear Eo.
  assert (forall ov1 (t : Tally), same_holds ov ov1 -> open = true ->
    holds_step (b_timestamp block) ov (save ov1 (tally_key (h_id h) (vb_phase b)) t)) as Hgo.
  { intros ov1 t Hs Hopen. etrans; [by apply same_holds_step|]. pose proof Hs as [Hl Ht].
    apply save_tally_step; [by rewrite Hl, Eid|done|]. rewrite <-Hp by done. unfold phase.
    by rewrite !Ht by by constructor. }
  op_cases; match goal with Hn : negb open = false |- _ => apply negb_false_iff in Hn end;
    (etrans; [|apply same_holds_step, same_holds_put; auto with holds]); apply Hgo; try done.
  apply same_holds_save. auto with holds.
Qed.

Lemma op_appeal_step ov block tx ov' :
  op_appeal ov block tx = Ok ov' -> holds_step block.(b_timestamp) ov ov'.
Proof.
  unfold op_appeal. intros Hr. apply holds_step_intro; intros Hid. op_cases. the_hold Hid.
  apply save_hold_step; [by rewrite Eid|done|]. constructor.
Qed.

Lemma op_return_step ov block tx ov' :
  op_return ov block tx = Ok ov' -> holds_step block.(b_timestamp) ov ov'.
Proof.
  unfold op_return. intros Hr. apply holds_step_intro; intros Hid. op_cases. the_hold Hid.
  match goal with Hb : _ || _ || _ = false |- _ =>
    apply orb_false_iff in Hb as [[_ Hb1]%orb_false_iff Hb2] end.
  apply bool_decide_eq_false in Hb1. apply negb_false_iff, bool_decide_eq_true in Hb2.
  apply save_hold_step; [by rewrite Eid|done|]. apply step_return; [done|lia].
Qed.

Lemma well_formed_vote tx b :
  well_formed tx = Ok tt -> (tx.(tx_type) = TX_VOTE \/ tx.(tx_type) = TX_NODE_VOTE) ->
  from_str (A := VoteBody) tx.(call_args) = Ok b -> a_phase b.(vb_phase).
Proof.
  intros Hw Hty Hb. unfold well_formed, read_body in Hw. rewrite Hb in Hw.
  assert (bool_decide (tx_type tx = TX_REQUEST) = false) as Hreq
    by (apply bool_decide_eq_false; destruct Hty as [-> | ->]; discriminate).
  assert (bool_decide (tx_type tx = TX_VOTE) || bool_decide (tx_type tx = TX_NODE_VOTE) = true) as Hv
    by (apply orb_true_iff; by rewrite !bool_decide_eq_true).
  rewrite Hreq, Hv in Hw. cbn [result_bind] in Hw. op_cases.
  match goal with Hx : _ || negb _ = false |- _ => apply orb_false_iff in Hx as [_ Hx%negb_false_iff] end.
  by rewrite orb_true_iff, !bool_decide_eq_true in Heqb4.
Qed.

Lemma apply_op_step ov block tx ov' :
  apply_op ov block tx = Ok ov' -> holds_step block.(b_timestamp) ov ov'.
Proof.
  unfold apply_op. intros Hr. op_cases; match goal with u : unit |- _ => destruct u end.
  - by eapply op_request_step.
  - eapply op_vote_step; [done|]. intros b. apply well_formed_vote; [done|left]. by apply bool_decide_eq_true in Heqb0.
  - eapply op_vote_step; [done|]. intros b. apply well_formed_vote; [done|right]. by apply bool_decide_eq_true in Heqb1.
  - by eapply op_appeal_step.
  - by eapply op_return_step.
Qed.

(** ** Certificates *)

Definition cert_id (tx : LedgerTx) : option string :=
  match from_str (A := HoldCert) tx.(call_args) with
  | Ok cert => Some cert.(hc_body).(hb_id)
  | Err _ => None
  end.

(** The hold, if there is one, waits for its committee. *)
Definition signing (now : Z) (ov : Ov) (id : string) : Prop :=
  forall h, load_hold ov id = Some h -> phase ov h now = Signing.

Lemma mark_paid_signing now ov i id : ids_ok ov -> signing now ov id -> signing now (mark_paid ov i) id.
Proof.
  intros Hid Hs h'. unfold mark_paid. destruct (load_hold ov i) as [h|] eqn:E; [|apply Hs].
  pose proof (Hid i h E) as <-. change (h_id h) with (h_id (set_paid h)). rewrite load_save_hold.
  unfold phase. rewrite !tally_save_hold. case_bool_decide as Ei; [|apply Hs].
  intros [= <-]. cbn in Ei. subst id. apply (Hs h E).
Qed.

Lemma apply_cert_signing ov block tx staked ov' id :
  ids_ok ov -> apply_cert ov block tx staked = Ok ov' -> cert_id tx <> Some id ->
  signing block.(b_timestamp) ov id -> signing block.(b_timestamp) ov' id.
Proof.
  unfold apply_cert. intros Hid Ha Hne Hs. op_cases. rename x into cert. the_hold Hid.
  destruct (foldl _ _ _) as [ov1 kept] eqn:Hf. op_cases.
  pose proof (hold_addr_same (h_id h) (b_timestamp block) (hb_amounts (hc_body cert)) ov []) as [Hl Ht].
  rewrite Hf in Hl, Ht. cbn [fst] in Hl, Ht.
  assert (id <> h_id h) as Hidne. { unfold cert_id in Hne. rewrite Eid. destruct (from_str _); congruence. }
  intros h'. rewrite load_save_hold, bool_decide_eq_false_2 by (cbn; done). rewrite Hl.
  unfold phase. rewrite !tally_save_hold, !Ht by by constructor. apply Hs.
Qed.

Lemma certs_step ov block staked l :
  NoDup (omap cert_id l) ->
  (forall id, id ∈ omap cert_id l -> signing block.(b_timestamp) ov id) ->
  holds_step block.(b_timestamp) ov (foldl (fun ov tx => or_same ov (apply_cert ov block tx staked)) ov l).
Proof.
  revert ov; induction l as [|tx l IH]; intros ov Hd Hs; cbn [foldl]; [done|].
  apply holds_step_intro; intros Hid.
  destruct (apply_cert ov block tx staked) as [ov'|e] eqn:Ha; cbn [or_same].
  - assert (exists cert, from_str (A := HoldCert) (call_args tx) = Ok cert) as [cert Ec].
    { unfold apply_cert in Ha. op_cases. eauto. }
    assert (cert_id tx = Some (hb_id (hc_body cert))) as Ei by (unfold cert_id; by rewrite Ec).
    cbn [omap list_omap] in Hd, Hs. rewrite Ei in Hd, Hs. apply NoDup_cons in Hd as [Hni Hd].
    etrans; [eapply apply_cert_step; [done|]|apply IH; [done|]].
    + intros c h Ec' Eh. rewrite Ec in Ec'. apply Ok_inj in Ec' as <-. refine (Hs _ _ h Eh). set_solver.
    + intros id Hin. eapply apply_cert_signing; [done|done| |apply Hs; set_solver]. congruence.
  - cbn [omap list_omap] in Hd, Hs. destruct (cert_id tx); [|by apply IH].
    apply NoDup_cons in Hd as [_ Hd]. apply IH; [done|]. intros id Hin. apply Hs. set_solver.
Qed.

Lemma paid_step now ov l : holds_step now ov (foldl mark_paid ov l).
Proof. revert ov; induction l as [|i l IH]; intros ov; [done|]. cbn [foldl]. etrans; [apply mark_paid_step|apply IH]. Qed.

Lemma paid_signing now ov l id : ids_ok ov -> signing now ov id -> signing now (foldl mark_paid ov l) id.
Proof.
  revert ov; induction l as [|i l IH]; intros ov Hid Hs; [done|]. cbn [foldl].
  apply IH; [by apply (mark_paid_step now ov i)|by apply mark_paid_signing].
Qed.

Lemma ops_step ov block l :
  holds_step block.(b_timestamp) ov (foldl (fun ov tx => or_same ov (apply_op ov block tx)) ov l).
Proof.
  revert ov; induction l as [|tx l IH]; intros ov; [done|]. cbn [foldl]. etrans; [|apply IH].
  destruct (apply_op ov block tx) eqn:E; cbn; [by eapply apply_op_step|done].
Qed.

(** ** Judging *)

Section Judge.
Context (balance : string -> Z).

Definition planner_le (p p' : Planner) : Prop :=
  p'.(pl_height) = p.(pl_height) /\ p'.(pl_now) = p.(pl_now) /\ p.(pl_certs) ⊆ p'.(pl_certs).

Lemma judge_subject_le ov tx p p' f : judge_subject balance ov tx p = (p', f) -> planner_le p p'.
Proof.
  clear JsonRoundTrip0.
  unfold judge_subject, judge_spend. intros Hj.
  repeat match type of Hj with context [if ?b then _ else _] => destruct b
  | context [match ?r with Ok _ => _ | Err _ => _ end] => destruct r end;
    injection Hj as <- _; by split_and!.
Qed.

Lemma judge_le ov tx p p' f : judge balance ov tx p = (p', f) -> planner_le p p'.
Proof.
  clear JsonRoundTrip0.
  unfold judge. destruct (if is_hold_op tx then _ else _); [|by intros [= <- _]].
  set (p1 := if is_hold_op tx && _ then _ else p).
  assert (planner_le p p1) as Hp1 by (subst p1; by destruct (_ && _)). clearbody p1.
  destruct (is_cert_tx tx).
  - unfold check_cert. case_bool_decide; [by intros [= <- _]|].
    destruct (from_str _); [|by intros [= <- _]]. case_bool_decide; [by intros [= <- _]|].
    destruct (result_bind _ _); intros [= <- _]; (split_and!; [apply Hp1|apply Hp1|cbn; destruct Hp1 as (_ & _ & ?); set_solver]).
  - destruct (is_settle tx); [by intros [= <- _]|]. destruct (_ && _); [by intros [= <- _]|].
    destruct (_ && _); [by intros [= <- _]|]. destruct (negb _); [by intros [= <- _]|].
    intros (? & ? & ?)%judge_subject_le. destruct Hp1 as (? & ? & ?). split_and!; [congruence..|set_solver].
Qed.

(** What a certificate that fits has shown. *)
Lemma judge_cert ov tx p p' :
  is_cert_tx tx = true -> judge balance ov tx p = (p', FitYes) ->
  exists id, cert_id tx = Some id /\ id ∉ p.(pl_certs) /\ id ∈ p'.(pl_certs) /\ signing p.(pl_now) ov id.
Proof.
  intros Hc. unfold judge. destruct (if is_hold_op tx then _ else _); [|done]. rewrite Hc.
  set (p1 := if is_hold_op tx && _ then _ else p).
  assert (pl_certs p1 = pl_certs p /\ pl_now p1 = pl_now p) as [E1 E2] by (subst p1; by destruct (_ && _)). clearbody p1.
  unfold check_cert, cert_id. case_bool_decide; [done|]. destruct (from_str _) as [cert|]; [|done].
  case_bool_decide as Hin; [done|]. destruct (result_bind _ _) eqn:Hb; [|done]. intros [= <-].
  exists (hb_id (hc_body cert)). rewrite E1 in Hin. split_and!; [done|done|cbn; set_solver|].
  op_cases. intros h' Eh. rewrite Eh in Heqo. injection Heqo as ->.
  apply negb_false_iff, bool_decide_eq_true in Heqb. by rewrite <-E2.
Qed.

(** One transaction of an accepted list. *)
Lemma plan_cons ov height tx txs p p' :
  rule_active activation height = true -> p.(pl_height) = height ->
  plan_all activation balance ov height (tx :: txs) p = Ok p' ->
  exists p1, judge balance ov tx p = (p1, FitYes) /\ plan_all activation balance ov height txs p1 = Ok p'.
Proof.
  clear JsonRoundTrip0.
  intros Hact Hp. cbn [plan_all]. rewrite Hact. cbn [negb andb]. unfold fit. rewrite Hp, Hact.
  cbn [negb]. rewrite andb_false_r. destruct (judge balance ov tx p) as [p1 []]; try done. eauto.
Qed.

Lemma plan_certs ov height txs p p' :
  rule_active activation height = true -> p.(pl_height) = height ->
  plan_all activation balance ov height txs p = Ok p' ->
  let ids := omap cert_id (filter (fun tx => is_cert_tx tx = true) txs) in
  NoDup ids /\ forall id, id ∈ ids -> id ∉ p.(pl_certs) /\ signing p.(pl_now) ov id.
Proof.
  intros Hact. cbn zeta. revert p; induction txs as [|tx txs IH]; intros p Hp Hplan.
  { split; [constructor|]. intros id Hin. by apply elem_of_nil in Hin. }
  apply plan_cons in Hplan as (p1 & Hj & Hplan); [|done..].
  pose proof (judge_le _ _ _ _ _ Hj) as (Eh & En & Hsub).
  destruct (IH p1) as [Hd Hs]; [congruence|done|]. rewrite filter_cons.
  assert (forall id, id ∈ omap cert_id (filter (fun tx => is_cert_tx tx = true) txs) ->
    id ∉ pl_certs p /\ signing (pl_now p) ov id) as Hs'.
  { intros id [? ?]%Hs. rewrite <-En. split; [set_solver|done]. }
  destruct (decide _) as [Hc|]; [|done].
  destruct (judge_cert _ _ _ _ Hc Hj) as (id & Ei & Hni & Hin & Hsg). cbn [omap list_omap]. rewrite Ei. split.
  - apply NoDup_cons. split; [|done]. by intros [? _]%Hs.
  - intros i [->|Hi]%elem_of_cons; [done|by apply Hs'].
Qed.

Lemma validate_plan ov block txs :
  validate activation balance ov block txs = Ok tt ->
  exists p, plan_all activation balance ov block.(b_height) txs
              (planner_new block.(b_height) block.(b_timestamp)) = Ok p.
Proof.
  clear JsonRoundTrip0. unfold validate. intros Hv. destruct (plan_all _ _ _ _ _ _) as [p|]; [eauto|done].
Qed.

(** What a block does once the holds it settles are marked. *)
Lemma effects_rest ov block txs applied staked :
  validate activation balance ov block txs = Ok tt -> applied `sublist_of` txs ->
  rule_active activation block.(b_height) = true -> ids_ok ov ->
  holds_step block.(b_timestamp) (foldl mark_paid ov (btree_set (paid_ids applied)))
    (apply_effects ov block applied staked).
Proof.
  intros [p Hp]%validate_plan Hsub Hact Hid.
  destruct (plan_certs ov (b_height block) txs (planner_new (b_height block) (b_timestamp block)) p Hact eq_refl Hp)
    as [Hd Hs].
  assert (omap cert_id (filter (fun tx => is_cert_tx tx = true) applied) `sublist_of`
    omap cert_id (filter (fun tx => is_cert_tx tx = true) txs)) as Hsub'
    by by apply sublist_omap, sublist_filter_mono.
  unfold apply_effects. etrans; [apply certs_step|apply ops_step].
  - by eapply sublist_NoDup.
  - intros id Hin. apply paid_signing; [done|].
    assert (id ∈ omap cert_id (filter (fun tx => is_cert_tx tx = true) txs)) as [_ ?]%Hs; [|done].
    by eapply elem_of_submseteq, sublist_submseteq.
Qed.

(** What a block does to every hold, when only some of its transactions were applied. *)
Lemma block_step ov block txs applied staked :
  validate activation balance ov block txs = Ok tt -> applied `sublist_of` txs ->
  holds_step block.(b_timestamp) ov (apply_block activation ov block applied staked).
Proof.
  intros Hv Hsub. unfold apply_block.
  destruct (rule_active activation (b_height block)) eqn:Hact; [|done]. apply holds_step_intro; intros Hid.
  etrans; [apply paid_step|by eapply effects_rest].
Qed.
End Judge.
End Steps.
