(* ===== verification/HoldRuns.v ===== *)
(** * Theft holds: settlements, spending and whole runs of the chain *)
From stdpp Require Import pretty.
From Stdlib Require Import Ascii.
From S2P Require Import Prelude Crypto Ledger RuleText LedgerFacts Hold HoldChain HoldFacts HoldSteps.
Local Open Scope string_scope.
Local Open Scope list_scope.
Local Open Scope Z_scope.
Local Open Scope ego_scope.

(** ** Numbers in text *)

Lemma pretty_N_go_no_colon x s : 58 ∉ ascii_bytes s -> 58 ∉ ascii_bytes (pretty_N_go x s).
Proof.
  revert s. induction (N.lt_wf_0 x) as [x _ IH]; intros s Hs.
  destruct (decide (x = 0%N)) as [->|Hx]; [by rewrite pretty_N_go_0|].
  rewrite pretty_N_go_step by lia. apply IH; [apply N.div_lt; lia|].
  cbn [ascii_bytes]. apply not_elem_of_cons. split; [|done].
  unfold pretty_N_char. repeat case_match; vm_compute; discriminate.
Qed.

Lemma pretty_nat_no_colon (n : nat) : 58 ∉ ascii_bytes (pretty n).
Proof.
  unfold pretty, pretty_nat, pretty, pretty_N. case_decide; [|apply pretty_N_go_no_colon, not_elem_of_nil].
  cbn. apply not_elem_of_cons. split; [discriminate|apply not_elem_of_nil].
Qed.

Lemma max_held_elem l x : max_held l = Some x -> x ∈ l.
Proof.
  destruct l as [|y l]; [done|]. intros [= <-]. revert y; induction l as [|z l IH]; intros y; [set_solver|].
  cbn [foldl]. specialize (IH (match held_cmp y z with Gt => y | _ => z end)).
  destruct (held_cmp y z); set_solver.
Qed.

Section Runs.
Context (activation : option Z).
Context `{CryptoPrims} `{ChainPrims} `{NodePool} `{Bls}.
Context `{Json RequestBody} `{Json VoteBody} `{Json AppealBody} `{Json IdBody}.
Context `{Json HoldBody} `{Json HoldCert}.
Context `{Json Hold} `{Json Tally} `{Json (list string)} `{Json string} `{Json Z}.
Implicit Types ov : Ov.

(** ** Settlements *)

(** BLAKE3 gives bytes, and [hex] reads what it writes. *)
Definition hex_digests : Prop :=
  (forall d, Forall in_u8 (blake3 d)) /\ (forall b, Forall in_u8 b -> hex_decode (hex_encode b) = Some b).

(** The hash of a settlement fixes the hold and the payment. *)
Lemma settle_hash_inj (digests : hex_digests) id i id' i' from to amount :
  settle_hash id i from to amount = settle_hash id' i' from to amount ->
  (id = id' /\ i = i') \/ blake3_collision.
Proof.
  unfold settle_hash. intros E. apply (f_equal ascii_bytes) in E. rewrite !ascii_bytes_app in E.
  apply app_inv_head, ascii_bytes_inj in E. apply (f_equal hex_decode) in E.
  destruct digests as [Hb Hx]. rewrite !Hx in E by done. apply (inj Some) in E.
  destruct (decide (settle_text id i from to amount = settle_text id' i' from to amount)) as [Et|Hne].
  - left. apply (f_equal ascii_bytes) in Et. unfold settle_text in Et. rewrite !ascii_bytes_app in Et.
    rewrite !(assoc_L (++)) in Et. do 6 apply app_inv_tail in Et. rewrite <-!(assoc_L (++)) in Et.
    apply last_sep in Et as [E1 E2]; [|apply pretty_nat_no_colon..].
    split; [by apply ascii_bytes_inj|by apply ascii_bytes_inj, (inj pretty) in E2].
  - right. eexists _, _. split; [|exact E]. intros ?%app_inv_head%ascii_bytes_inj. done.
Qed.

Lemma expected_lookup l k e : expected_of l !! k = Some e -> e ∈ l /\ tx_hash e = k.
Proof.
  unfold expected_of. assert (forall m : gmap string LedgerTx, foldl (fun m tx => <[ tx.(tx_hash) := tx ]> m) m l !! k = Some e ->
    m !! k = Some e \/ (e ∈ l /\ tx_hash e = k)) as Hgen.
  { induction l as [|x l IH]; intros m; cbn [foldl]; [by left|].
    intros [[[Ek <-]|[_ ?]]%lookup_insert_Some|[? ?]]%IH; [right|by left|right]; split; done || set_solver. }
  intros [E|?]%Hgen; [|done]. by rewrite lookup_empty in E.
Qed.

(** A payment that is due. *)
Definition due_payment (ov : Ov) (now : Z) (balance : string -> Z) (id : string) (i : nat) (from to : string)
    (amount : Z) : Prop :=
  exists h s, load_hold ov id = Some h /\ settlements ov h now !! i = Some s /\
    from = s.(st_from) /\ to = s.(st_to) /\ amount = Z.min s.(owed) (balance from) /\ amount <> 0.

Lemma settle_txs_elem ov height now balance e :
  e ∈ settle_txs activation ov height now balance ->
  exists id i, tx_hash e = settle_hash id i (tx_from e) (tx_to e) (tx_amount e) /\
    due_payment ov now balance id i (tx_from e) (tx_to e) (tx_amount e).
Proof.
  unfold settle_txs. destruct (negb _); [intros Hin; by apply elem_of_nil in Hin|].
  rewrite list_elem_of_In, in_concat. intros (l & Hl & Hin). apply list_elem_of_In in Hl, Hin.
  apply list_elem_of_fmap in Hl as (id & -> & _). unfold settle_txs_of in Hin.
  destruct (load_hold ov id) as [h|] eqn:Eh; [|by apply elem_of_nil in Hin].
  apply list_elem_of_omap in Hin as ([i s] & (k & s' & [= -> ->] & Hs)%elem_of_lookup_imap & Hin).
  cbn [fst snd] in Hin. case_bool_decide; [done|]. injection Hin as <-.
  exists id, k. split; [done|]. by exists h, s'.
Qed.

Lemma check_settles_elem expected l m m' tx :
  check_settles expected l m = Ok m' -> tx ∈ l ->
  settle_is_well_formed tx = true /\ exists e, expected !! tx.(tx_hash) = Some e /\
    tx_from e = tx_from tx /\ tx_to e = tx_to tx /\ tx_amount e = tx_amount tx.
Proof.
  revert m; induction l as [|x l IH]; intros m; [intros _ Hin; by apply elem_of_nil in Hin|].
  cbn [check_settles]. destruct (settle_is_well_formed x) eqn:Hw; [|done]. cbn [negb].
  destruct (expected !! tx_hash x) as [e|] eqn:Ee; [|done].
  destruct (bool_decide (tx_from e <> _) || _ || _) eqn:Hb; [done|].
  intros Hc [->|Hin]%elem_of_cons; [|by eapply IH]. split; [done|]. exists e. split; [done|].
  rewrite !orb_false_iff, !bool_decide_eq_false in Hb. destruct Hb as [[? ?] ?].
  split_and!; by apply dec_stable.
Qed.

(** Every settlement of an accepted block is a payment that is due. *)
Lemma settlement_due (digests : hex_digests) balance ov block txs tx :
  validate activation balance ov block txs = Ok tt -> rule_active activation block.(b_height) = true ->
  tx ∈ txs -> is_settle tx = true ->
  (exists id i, settle_parts tx = Some (id, i) /\
     due_payment ov block.(b_timestamp) balance id i tx.(tx_from) tx.(tx_to) tx.(tx_amount)) \/ blake3_collision.
Proof.
  intros Hv Hact Hin Hs. unfold validate in Hv.
  destruct (plan_all _ _ _ _ _ _); [|done]. cbn [result_bind] in Hv. rewrite Hact in Hv. cbn [negb] in Hv.
  assert (tx ∈ filter (fun tx => is_settle tx = true) txs) as Hf by by apply list_elem_of_filter.
  case_bool_decide as Hnil; [rewrite Hnil in Hf; by apply elem_of_nil in Hf|].
  cbn zeta in Hv. destruct (check_settles _ _ _) as [m|] eqn:Hc; [|done].
  destruct (check_settles_elem _ _ _ _ _ Hc Hf) as (Hw & e & He & E1 & E2 & E3).
  apply expected_lookup in He as [He Eh]. apply settle_txs_elem in He as (id & i & Ehash & Hdue).
  unfold settle_is_well_formed in Hw. apply andb_prop in Hw as [_ Hw].
  destruct (settle_parts tx) as [[id' i']|]; [|done]. apply bool_decide_eq_true in Hw.
  rewrite <-Eh, Ehash, <-E1, <-E2, <-E3 in Hw.
  apply (settle_hash_inj digests) in Hw as [[-> ->]|?]; [|by right]. left. exists id', i'. split; [done|].
  by rewrite <-E1, <-E2, <-E3.
Qed.

(** A payment is due only from a hold that ended in one of two ways and was not paid. *)
Lemma due_unpaid ov now balance id i from to amount :
  due_payment ov now balance id i from to amount ->
  exists h, load_hold ov id = Some h /\ h.(paid) = false /\
    ((phase ov h now = Rejected /\ from = h.(requester) /\ amount <= h.(request).(bond) /\ to ∈ h.(amounts).*1) \/
     (phase ov h now = Returned /\ to = h.(request).(victim) /\
      exists n, (from, n) ∈ h.(amounts) /\ amount <= n)).
Proof.
  intros (h & s & Eh & Hs & -> & -> & -> & _). exists h. split; [done|]. unfold settlements in Hs.
  destruct (paid h); [done|]. split; [done|]. destruct (phase ov h now); try done.
  - right. apply list_lookup_fmap_Some in Hs as ([a n] & -> & Hl). split_and!; [done..|].
    exists n. cbn. split; [by eapply list_elem_of_lookup_2|lia].
  - left. destruct (max_held (amounts h)) as [[to n]|] eqn:Em; [|done].
    destruct i as [|i]; [|done]. injection Hs as <-. cbn. split_and!; [done|done|lia|].
    apply list_elem_of_fmap. exists (to, n). split; [done|]. by apply max_held_elem.
Qed.

(** ** Spending *)

Section Spending.
Context (balance : string -> Z) (a : string).

Definition spends (tx : LedgerTx) : Prop := subject tx = true /\ tx.(tx_from) = a.

(** What the transactions of the address take out of it. *)
Definition total_out (txs : list LedgerTx) : Z := zsum (outflow <$> filter spends txs).

Definition spent_by (p : Planner) : Z := default 0 (p.(pl_spent) !! a).

Lemma judge_spend_ok tx need p p' :
  judge_spend balance tx need p = (p', FitYes) -> 0 < need -> balance a <= u64_max -> tx.(tx_from) = a ->
  spent_by p' = spent_by p + outflow tx /\ spent_by p' + need <= balance a.
Proof.
  unfold judge_spend, spent_by. intros Hj Hn Hb <-. rewrite bool_decide_eq_false_2 in Hj by lia. cbn [andb] in Hj.
  case_bool_decide as Hs; [done|]. injection Hj as <-. cbn. rewrite lookup_insert_eq. cbn.
  unfold sat_add, sat_sub in *. lia.
Qed.

Lemma judge_spend_other tx need p p' f :
  judge_spend balance tx need p = (p', f) -> tx.(tx_from) <> a -> spent_by p' = spent_by p.
Proof.
  unfold judge_spend, spent_by. intros Hj Hne. destruct (_ && _); [by injection Hj as <- _|].
  case_bool_decide; injection Hj as <- _; [done|]. cbn. by rewrite lookup_insert_ne.
Qed.

Lemma request_bond tx b :
  well_formed tx = Ok tt -> tx.(tx_type) = TX_REQUEST ->
  from_str (A := RequestBody) tx.(call_args) = Ok b -> 0 <= b.(bond).
Proof.
  intros Hw Hty Hb. unfold well_formed, read_body in Hw. rewrite Hb in Hw.
  rewrite (bool_decide_eq_true_2 (tx_type tx = TX_REQUEST)) in Hw by done. cbn [result_bind] in Hw.
  op_cases. unfold check_request in Hw. op_cases.
  match goal with Hx : bool_decide (bond b < _) = false |- _ => apply bool_decide_eq_false in Hx; unfold MIN_BOND_UEGOC in Hx end.
  lia.
Qed.

Lemma judge_spent ov tx p p' :
  judge balance ov tx p = (p', FitYes) -> 0 < locked ov a p.(pl_now) -> balance a <= u64_max ->
  (spends tx -> spent_by p' = spent_by p + outflow tx /\ spent_by p' + locked ov a p.(pl_now) <= balance a) /\
  (~ spends tx -> spent_by p' = spent_by p).
Proof.
  unfold judge. destruct (if is_hold_op tx then _ else _) as [[]|] eqn:Hw; [|done].
  set (p1 := if is_hold_op tx && _ then _ else p).
  assert (spent_by p1 = spent_by p /\ pl_now p1 = pl_now p) as [<- <-] by (subst p1; by destruct (_ && _)).
  clearbody p1. intros Hj Hl Hb. destruct (is_cert_tx tx) eqn:Hc.
  { assert (~ spends tx).
    { intros [Hs _]. unfold is_cert_tx, subject in *. rewrite !andb_true_iff, !bool_decide_eq_true in *. naive_solver. }
    split; [done|]. intros _. unfold check_cert in Hj. repeat (case_bool_decide || destruct (from_str _)); try done.
    destruct (result_bind _ _); [|done]. by injection Hj as <-. }
  destruct (is_settle tx) eqn:Hset.
  { split; [|by injection Hj as <-]. intros [Hs _]. unfold subject in Hs. by rewrite Hset, andb_false_r in Hs. }
  destruct (_ && _); [done|]. destruct (_ && _); [done|].
  destruct (subject tx) eqn:Hsub; cbn [negb] in Hj; [|split; [by intros [? _]; congruence|by injection Hj as <-]].
  unfold judge_subject in Hj.
  assert (forall need q, judge_spend balance tx need q = (p', FitYes) -> spent_by q = spent_by p1 ->
    (tx_from tx = a -> locked ov a (pl_now p1) <= need) ->
    (spends tx -> spent_by p' = spent_by p1 + outflow tx /\ spent_by p' + locked ov a (pl_now p1) <= balance a) /\
    (~ spends tx -> spent_by p' = spent_by p1)) as Hgo.
  { intros need q Hq <- Hneed. split.
    - intros [_ Ea]. specialize (Hneed Ea). destruct (judge_spend_ok tx need q p' Hq); [lia|done|done|lia].
    - intros Hns. eapply judge_spend_other; [done|]. intros Ea. by apply Hns. }
  case_bool_decide as Hty; [|eapply Hgo; [exact Hj|done|intros ->; lia]].
  destruct (from_str _) as [b|] eqn:Eb; [|eapply Hgo; [exact Hj|done|intros ->; lia]].
  case_bool_decide; [done|]. case_bool_decide; [done|]. eapply Hgo; [done|done|]. intros <-.
  assert (0 <= bond b).
  { eapply request_bond; [|done|done]. destruct (is_hold_op tx) eqn:Ho; [done|].
    exfalso. unfold is_hold_op in Ho. rewrite Hty in Ho. vm_compute in Ho. discriminate Ho. }
  assert (locked ov (tx_from tx) (pl_now p1) <= u64_max) by (unfold locked, sat_add; lia).
  unfold sat_add. lia.
Qed.

Lemma plan_spent ov height txs p p' :
  rule_active activation height = true -> p.(pl_height) = height ->
  plan_all activation balance ov height txs p = Ok p' ->
  0 < locked ov a p.(pl_now) -> balance a <= u64_max -> Forall (fun tx => 0 <= outflow tx) txs ->
  spent_by p' = spent_by p + total_out txs /\
  (forall tx, tx ∈ txs -> spends tx -> spent_by p + total_out txs + locked ov a p.(pl_now) <= balance a).
Proof.
  intros Hact. revert p; induction txs as [|tx txs IH]; intros p Hp Hplan Hl Hb Hout.
  { injection Hplan as <-. unfold total_out. cbn. split; [lia|]. intros ? Hin. by apply elem_of_nil in Hin. }
  apply plan_cons in Hplan as (p1 & Hj & Hplan); [|done..]. apply Forall_cons in Hout as [Ho Hout].
  pose proof (judge_le _ _ _ _ _ _ Hj) as (Eh & En & _).
  destruct (judge_spent ov tx p p1 Hj Hl Hb) as [Hy Hn].
  destruct (IH p1) as [Es Hsp]; [congruence|done|by rewrite En|done|done|]. rewrite En in Hsp.
  assert (spent_by p + total_out (tx :: txs) = spent_by p1 + total_out txs) as Et.
  { unfold total_out. rewrite filter_cons. destruct (decide (spends tx)) as [Hs|Hs];
      [rewrite fmap_cons, zsum_cons; destruct (Hy Hs); lia|rewrite (Hn Hs); lia]. }
  rewrite Et. split; [done|]. intros x [->|Hin]%elem_of_cons Hs; [|by eapply Hsp].
  destruct (decide (Exists spends txs)) as [[y [Hy1 Hy2]]%Exists_exists|Hno]; [by eapply Hsp|].
  assert (total_out txs = 0) as ->; [|destruct (Hy Hs); lia].
  unfold total_out. destruct (filter spends txs) as [|y l] eqn:Ef; [done|]. exfalso. apply Hno, Exists_exists.
  exists y. assert (y ∈ filter spends txs) as [? ?]%list_elem_of_filter by (rewrite Ef; set_solver). done.
Qed.
End Spending.

(** ** Runs of the chain *)

(** The keys of this rule are untouched. *)
Definition same_hold_keys (ov ov' : Ov) : Prop :=
  forall k, has_prefix (ascii_bytes "hold:") k = true -> ov_get k ov' = ov_get k ov.

(** From one state and time to another: accepted blocks, of whose transactions
    some were applied, with times that do not go back, and anything that leaves
    the keys of this rule alone. *)
Inductive chain_run : Ov -> Z -> Ov -> Z -> Prop :=
| run_here ov t : chain_run ov t ov t
| run_block ov t ov1 t1 balance block txs applied staked :
    chain_run ov t ov1 t1 -> t1 <= block.(b_timestamp) -> good_time block.(b_timestamp) ->
    validate activation balance ov1 block txs = Ok tt -> applied `sublist_of` txs ->
    chain_run ov t (apply_block activation ov1 block applied staked) block.(b_timestamp)
| run_other ov t ov1 t1 ov2 :
    chain_run ov t ov1 t1 -> same_hold_keys ov1 ov2 -> chain_run ov t ov2 t1.

Lemma same_hold_keys_holds ov ov' : same_hold_keys ov ov' -> same_holds ov ov'.
Proof.
  intros Hs. assert (forall s, has_prefix (ascii_bytes "hold:") (ascii_bytes ("hold:" +:+ s)) = true) as Hp.
  { intros s. by apply bool_decide_eq_true. }
  split.
  - intros id. apply load_same, Hs, (Hp ("r:" +:+ id)).
  - intros id p _. unfold tally. f_equal. apply load_same, Hs, (Hp ("t:" +:+ id +:+ ":" +:+ p)).
Qed.

Context `{!JsonRoundTrip Hold}.

Lemma run_ids ov t ov' t' : chain_run ov t ov' t' -> ids_ok ov -> ids_ok ov'.
Proof.
  induction 1 as [|ov t ov1 t1 balance block txs applied staked _ IH _ _ Hv Hsub|ov t ov1 t1 ov2 _ IH Hs]; intros Hid.
  - done.
  - by apply (block_step activation balance _ _ _ _ staked Hv Hsub (IH Hid)).
  - by apply (same_holds_step 0 _ _ (same_hold_keys_holds _ _ Hs) (IH Hid)).
Qed.

Lemma run_time ov t ov' t' : chain_run ov t ov' t' -> t <= t'.
Proof. induction 1; lia. Qed.

(** What becomes of one hold. *)
Lemma run_hold ov t ov' t' id h :
  chain_run ov t ov' t' -> ids_ok ov -> load_hold ov id = Some h ->
  exists h', load_hold ov' id = Some h' /\ evolves h h' /\
    can_become (phase ov h t) (phase ov' h' t') = true.
Proof.
  intros Hrun Hid Eh. induction Hrun as [ov t|ov t ov1 t1 balance block txs applied staked Hrun IH Ht Hg Hv Hsub|ov t ov1 t1 ov2 Hrun IH Hs].
  - exists h. split_and!; [done|done|apply can_become_refl].
  - destruct (IH Hid Eh) as (h1 & E1 & Hev & Hph). pose proof (run_ids _ _ _ _ Hrun Hid) as Hid1.
    destruct (block_step activation balance _ _ _ _ staked Hv Hsub Hid1) as [Hid2 Hst].
    destruct (Hst id h1 E1) as (h2 & E2 & Hsteps). exists h2. split_and!; [done|..].
    + etrans; [done|]. by apply (hold_steps_evolve _ _ _ Hsteps).
    + eapply can_become_trans; [exact Hph|]. rewrite (phase_view _ id h2) by done.
      rewrite (phase_view _ id h1) by done.
      eapply can_become_trans; [|by eapply hold_steps_phase]. by apply phase_of_time.
  - destruct (IH Hid Eh) as (h1 & E1 & Hev & Hph). apply same_hold_keys_holds in Hs as [Hl Ht].
    exists h1. rewrite Hl. split_and!; [done|done|]. unfold phase at 2. rewrite !Ht by by constructor. done.
Qed.

(** A hold one of whose settlements was applied is marked. *)
Lemma marked_paid ov applied tx id i h :
  ids_ok ov -> tx ∈ applied -> is_settle tx = true -> settle_parts tx = Some (id, i) -> load_hold ov id = Some h ->
  exists h', load_hold (foldl mark_paid ov (btree_set (paid_ids applied))) id = Some h' /\ h'.(paid) = true.
Proof.
  intros Hid Hin Hs Hp Eh.
  assert (id ∈ btree_set (paid_ids applied)) as Hmem.
  { unfold btree_set. rewrite stable_sort_perm. apply elem_of_elements, elem_of_list_to_set, list_elem_of_omap.
    exists tx. split; [by apply list_elem_of_filter|by rewrite Hp]. }
  revert ov h Hid Eh. induction (btree_set (paid_ids applied)) as [|j l IH]; intros ov h Hid Eh; [set_solver|].
  cbn [foldl]. pose proof (mark_paid_step 0 ov j Hid) as [Hid' Hst].
  destruct (decide (j = id)) as [->|Hne].
  - assert (load_hold (mark_paid ov id) id = Some (set_paid h)) as E1.
    { unfold mark_paid. rewrite Eh. apply load_save. }
    destruct (paid_step 0 (mark_paid ov id) l Hid') as [_ Hst']. destruct (Hst' id _ E1) as (h' & E' & Hsteps).
    exists h'. split; [done|]. by apply (ev_paid _ _ (hold_steps_evolve _ _ _ Hsteps)).
  - destruct (Hst id h Eh) as (h1 & E1 & _). apply (IH ltac:(set_solver) _ h1 Hid' E1).
Qed.

Lemma settled_paid balance ov block txs applied staked tx id i h :
  validate activation balance ov block txs = Ok tt -> applied `sublist_of` txs ->
  rule_active activation block.(b_height) = true -> ids_ok ov ->
  tx ∈ applied -> is_settle tx = true -> settle_parts tx = Some (id, i) -> load_hold ov id = Some h ->
  exists h', load_hold (apply_block activation ov block applied staked) id = Some h' /\ h'.(paid) = true.
Proof.
  intros Hv Hsub Hact Hid Hin Hs Hp Eh.
  destruct (marked_paid ov applied tx id i h Hid Hin Hs Hp Eh) as (h1 & E1 & Hp1).
  unfold apply_block. rewrite Hact.
  destruct (paid_step 0 ov (btree_set (paid_ids applied)) Hid) as [Hid1 _].
  destruct (effects_rest activation balance ov block txs applied staked Hv Hsub Hact Hid Hid1) as [_ Hst].
  destruct (Hst id h1 E1) as (h2 & E2 & Hsteps). exists h2. split; [done|].
  by apply (ev_paid _ _ (hold_steps_evolve _ _ _ Hsteps)).
Qed.
End Runs.
