(* ===== verification/HoldTheorems.v ===== *)
(** * Theft holds: theorems *)
From stdpp Require Import pretty.
From S2P Require Import Prelude Crypto Ledger RuleText LedgerFacts Hold HoldChain HoldTrace HoldFacts HoldSteps HoldRuns.
Local Open Scope string_scope.
Local Open Scope list_scope.
Local Open Scope Z_scope.
Local Open Scope ego_scope.

(** tracing never finds more than was stolen.  For a history in which a
    hash names one event, the amounts [trace] returns add up to at most what the
    listed theft transactions moved; they are for at most 32 distinct addresses,
    each the recipient of a listed transaction, never the victim or an address
    tracing stops at, and each amount is positive and at most the address's
    balance today.  If the addresses are well formed, a certificate for the
    result passes [check_amounts]. *)
Theorem trace_bounded now_balance stops v theft hops (events : list Event) out :
  Forall event_ok events ->
  (forall a b, a ∈ events -> b ∈ events -> ev_hash a = ev_hash b -> a = b) ->
  trace now_balance stops v theft hops events = Ok out ->
  zsum out.*2 <= stolen (list_to_set theft) (remove_dups events) /\
  (length out <= MAX_HELD)%nat /\ NoDup out.*1 /\
  (forall a n, (a, n) ∈ out ->
     0 < n <= now_balance a /\ a <> v /\ stops a = false /\
     exists e, e ∈ events /\ ev_hash e ∈ theft ++ hops /\ ev_to e = a) /\
  (forall h : Hold, h.(request).(victim) = v -> out <> [] ->
     (forall a, a ∈ out.*1 -> valid_addr a = true) -> check_amounts h out = Ok tt).
Proof.
  intros Hev Hone. unfold trace. destruct (list_find _ _) as [[]|]; [done|]. cbv zeta.
  destruct (list_find _ _) as [[]|]; [done|]. set (ordered := order_events events).
  destruct (from_first _ _) as [rest|] eqn:Hfirst; [|done].
  set (tracked := tracked_of _ _ _ _). intros <-%Ok_inj.
  assert (rest `sublist_of` ordered) as Hrest by by eapply from_first_sublist.
  assert (Forall event_ok (remove_dups events)) as Hok.
  { apply Forall_forall. intros e. rewrite elem_of_remove_dups, Forall_forall in *. apply Hev. }
  assert (ordered ⊆+ remove_dups events) as Hord.
  { apply NoDup_submseteq; [by apply order_events_NoDup|].
    intros e He%order_events_elem. by apply elem_of_remove_dups. }
  destruct (start_ok now_balance tracked rest) as (Hs & Hd & Ht).
  destruct (forward_ok (list_to_set theft) (list_to_set (theft ++ hops)) rest _ Hs) as (Hs' & Hd' & Ht').
  { apply Forall_forall. intros e He. rewrite Forall_forall in Hev. apply Hev, order_events_elem.
    by eapply elem_of_submseteq, sublist_submseteq, Hrest. }
  set (s' := foldl _ _ rest) in *.
  assert (forall a n, (a, n) ∈ result_of now_balance s' ->
    0 < n <= now_balance a /\ a <> v /\ stops a = false /\
    exists e, e ∈ events /\ ev_hash e ∈ theft ++ hops /\ ev_to e = a) as Hent.
  { intros a n Hin. destruct (result_entry _ _ _ _ Hin) as [Hn Ha]. split; [done|].
    rewrite Hd', Hd in Ha. apply tracked_elem in Ha as (?&?&e&He&Hl&?). split_and!; [done..|].
    exists e. split_and!; [by apply order_events_elem|set_solver|done]. }
  split_and!; [|apply result_length|apply result_keys|done|].
  - pose proof (result_total now_balance s' Hs'). pose proof (stolen_submseteq (list_to_set theft) _ _
      (submseteq_trans _ _ _ (sublist_submseteq _ _ Hrest) Hord) Hok). lia.
  - intros h Hv Hne Hval. unfold check_amounts. rewrite Hv, bool_decide_eq_false_2 by done.
    rewrite bool_decide_eq_false_2 by (pose proof (result_length now_balance s'); lia). cbn [orb].
    rewrite check_each_ok; [done|apply result_keys|]. intros a n Hin.
    destruct (Hent a n Hin) as (?&?&_). split_and!; [|done|lia|set_solver].
    apply Hval, list_elem_of_fmap. by exists (a, n).
Qed.

Section Holds.
Context (activation : option Z).
Context `{CryptoPrims} `{ChainPrims} `{NodePool} `{Bls}.
Context `{Json RequestBody} `{Json VoteBody} `{Json AppealBody} `{Json IdBody}.
Context `{Json HoldBody} `{Json HoldCert}.
Context `{Json Hold} `{Json Tally} `{Json (list string)} `{Json string} `{Json Z}.

(** C22: held coins stay where they are.  In a block that [validate] accepts
    while the rule is active, the transactions of an address with locked coins
    (held by theft holds or bound as a bond) take out, together, at most its
    balance less what is locked, in whatever order and number they come. *)
Theorem held_coins_stay balance ov block txs a :
  rule_active activation block.(b_height) = true -> validate activation balance ov block txs = Ok tt ->
  0 < locked ov a block.(b_timestamp) -> balance a <= u64_max -> Forall (fun tx => 0 <= outflow tx) txs ->
  forall tx, tx ∈ txs -> spends a tx ->
  total_out a txs + locked ov a block.(b_timestamp) <= balance a.
Proof.
  intros Hact [p Hp]%validate_plan Hl Hb Hout tx Hin Hs.
  eapply plan_spent in Hp as [_ Hsp]; [exact (Hsp tx Hin Hs)|done..].
Qed.

Context `{!JsonRoundTrip Hold}.

(** C23: the life of a hold.  Along any run of the chain (accepted blocks with
    times that do not go back, of whose transactions any part was applied, and
    any change that leaves this rule's keys alone) a stored hold is never lost;
    its request and committee never change, nor do the amounts and totals once
    it is certified, nor the opening of its return vote, and the mark that it
    was settled stays; and its phase moves only forward: Failed, Rejected,
    Lapsed, Returned and Expired are final. *)
Theorem hold_lifecycle ov t ov' t' u id h :
  chain_run activation ov t ov' t' -> t' <= u -> ids_ok ov -> load_hold ov id = Some h ->
  exists h', load_hold ov' id = Some h' /\ evolves h h' /\
    can_become (phase ov h t) (phase ov' h' u) = true /\
    (final (phase ov h t) = true -> phase ov' h' u = phase ov h t).
Proof.
  intros Hrun Hu Hid Eh. destruct (run_hold activation _ _ _ _ id h Hrun Hid Eh) as (h' & E' & Hev & Hph).
  exists h'. split_and!; [done|done|..].
  all: assert (can_become (phase ov h t) (phase ov' h' u) = true) as Hc
    by (eapply can_become_trans; [exact Hph|by apply phase_of_time]).
  - done.
  - intros Hf. by apply final_stays.
Qed.

(** C24: a hold is settled once, and only as it ended.  Every settlement of an
    accepted block pays what is due from a hold that was not settled before:
    the bond, from the requester to a held address, when the vote rejected the
    hold; or held coins, to the victim, when the return vote passed.  After one
    settlement of a hold was applied, no later accepted block of any run has
    another for it.  Both hold unless a collision of BLAKE3 is found. *)
Theorem hold_settled_once balance ov block txs tx :
  hex_digests ->
  rule_active activation block.(b_height) = true -> ids_ok ov ->
  validate activation balance ov block txs = Ok tt -> tx ∈ txs -> is_settle tx = true ->
  (exists id i h, settle_parts tx = Some (id, i) /\ load_hold ov id = Some h /\ h.(paid) = false /\
     tx.(tx_amount) <> 0 /\ tx.(tx_amount) <= balance tx.(tx_from) /\
     ((phase ov h block.(b_timestamp) = Rejected /\ tx.(tx_from) = h.(requester) /\
       tx.(tx_amount) <= h.(request).(bond) /\ tx.(tx_to) ∈ h.(amounts).*1) \/
      (phase ov h block.(b_timestamp) = Returned /\ tx.(tx_to) = h.(request).(victim) /\
       exists n, (tx.(tx_from), n) ∈ h.(amounts) /\ tx.(tx_amount) <= n)) /\
     forall applied staked ov2 t2 balance2 block2 txs2 tx2 i2,
       applied `sublist_of` txs -> tx ∈ applied ->
       chain_run activation (apply_block activation ov block applied staked) block.(b_timestamp) ov2 t2 ->
       rule_active activation block2.(b_height) = true ->
       validate activation balance2 ov2 block2 txs2 = Ok tt ->
       tx2 ∈ txs2 -> is_settle tx2 = true -> settle_parts tx2 = Some (id, i2) -> blake3_collision)
  \/ blake3_collision.
Proof.
  intros digests Hact Hid Hv Hin Hs.
  destruct (settlement_due activation digests balance ov block txs tx Hv Hact Hin Hs) as [(id & i & Hp & Hdue)|]; [left|by right].
  destruct (due_unpaid _ _ _ _ _ _ _ _ Hdue) as (h & Eh & Hunpaid & Hcase). exists id, i, h.
  split_and!; [done..|by destruct Hdue as (? & ? & _ & _ & _ & _ & _ & ?)
    |destruct Hdue as (? & ? & _ & _ & _ & _ & -> & _); lia|done|].
  intros applied staked ov2 t2 balance2 block2 txs2 tx2 i2 Hsub Happ Hrun Hact2 Hv2 Hin2 Hs2 Hp2.
  destruct (settled_paid activation balance _ _ _ _ staked _ _ _ _ Hv Hsub Hact Hid Happ Hs Hp Eh) as (h1 & E1 & Hpaid).
  assert (ids_ok (apply_block activation ov block applied staked)) as Hid1
    by by apply (block_step activation balance _ _ _ _ staked Hv Hsub Hid).
  destruct (run_hold activation _ _ _ _ id h1 Hrun Hid1 E1) as (h2 & E2 & Hev & _).
  destruct (settlement_due activation digests balance2 ov2 block2 txs2 tx2 Hv2 Hact2 Hin2 Hs2) as [(id' & i' & Hp' & Hdue')|]; [|done].
  rewrite Hp2 in Hp'. injection Hp' as <- <-.
  destruct (due_unpaid _ _ _ _ _ _ _ _ Hdue') as (h3 & E3 & Hun & _).
  rewrite E2 in E3. injection E3 as <-. pose proof (ev_paid _ _ Hev Hpaid). congruence.
Qed.
End Holds.

(** ** Examples *)

Module HoldDemo.
#[local] Instance RequestBody_eq_dec : EqDecision RequestBody.
Proof. solve_decision. Defined.
#[local] Instance RequestBody_countable : Countable RequestBody.
Proof.
  refine (inj_countable' (fun b => ((victim b, theft b), (hops b, (case b, bond b))))
    (fun '((a, b), (c, (d, e))) => MkRequestBody a b c d e) _). by intros [].
Defined.
#[local] Instance Hold_eq_dec : EqDecision Hold.
Proof. solve_decision. Defined.
#[local] Instance Hold_countable : Countable Hold.
Proof.
  refine (inj_countable' (fun h =>
      (((h_id h, requester h), (request h, created h)), ((height h, keys h), (amounts h, held_at h)),
       ((stake_total h, node_total h), (appeals h, (return_opened h, paid h)))))
    (fun '(((a, b), (c, d)), ((e, f), (g, h)), ((i, j), (k, (l, m)))) => MkHold a b c d e f g h i j k l m) _).
  by intros [].
Defined.
#[local] Instance Tally_eq_dec : EqDecision Tally.
Proof. solve_decision. Defined.
#[local] Instance Tally_countable : Countable Tally.
Proof.
  refine (inj_countable' (fun t => ((stake_yes t, stake_no t), (stake_voters t, node_yes t), (node_no t, node_voters t)))
    (fun '((a, b), (c, d), (e, f)) => MkTally a b c d e f) _). by intros [].
Defined.

Definition EGOC : Z := 1000000.
Definition ALICE : string := "egot1alice00000000000000000000000000000000000".
Definition A : string := "egot1thiefa0000000000000000000000000000000000".
Definition B : string := "egot1thiefb0000000000000000000000000000000000".
Definition EXCHANGE : string := "egot1exchange00000000000000000000000000000000".
Definition REQ : string := "egot1requester000000000000000000000000000000".
Definition ID : string := "hold0123456789abcdef".
Definition THEFT : string := "0x0000000000000000000000000000000000000000000000000000000000000002".
Definition HOP : string := "0x0000000000000000000000000000000000000000000000000000000000000003".

Definition body : RequestBody := MkRequestBody ALICE [THEFT] [] "stolen" (100 * EGOC).

Definition crypto : CryptoPrims :=
  {| blake2s d := []; blake3 d := to_le_bytes 32 (foldl (fun a x => a * 31 + x) 7 d);
     ed25519_verify _ _ _ := Ok false; ml_dsa_verify _ _ _ := false; slh_dsa_verify _ _ _ := Ok false;
     ed25519_sign _ _ := []; ml_dsa_sign _ _ := [] |}.
Definition chain : ChainPrims :=
  {| hex_encode := Hex.encode; hex_decode := Hex.decode; bech32m_encode _ _ := None;
     dalek_verify _ _ _ := false |}.
Definition pool : NodePool :=
  {| node_count _ := 64; total_weight _ _ := 1000; node_weight _ _ _ := Some 100;
     draw_answering _ _ := ["00"; "01"; "02"; "03"] |}.
Definition bls : Bls :=
  {| verify_shared _ _ _ := true; verify_shared_aggregate _ _ _ := true; aggregate_shared _ := None |}.
Definition hold_json : Json Hold := count_json.
Definition tally_json : Json Tally := count_json.
Definition ids_json : Json (list string) := count_json.
Definition string_json : Json string := count_json.
Definition Z_json : Json Z := count_json.
Definition request_json : Json RequestBody := named_json "request" body.
Definition vote_json : Json VoteBody := named_json "vote" (MkVoteBody ID PHASE_CONFIRM true).
Definition appeal_json : Json AppealBody := named_json "appeal" (MkAppealBody ID "mine").
Definition id_json : Json IdBody := named_json "id" (MkIdBody ID).
Definition hold_body_json : Json HoldBody := named_json "body" (MkHoldBody ID [(A, 300 * EGOC)]).
Definition cert_json : Json HoldCert := named_json "cert" (MkHoldCert (MkHoldBody ID [(A, 300 * EGOC)]) [0; 1; 2] "00").

#[export] Existing Instance crypto.
#[export] Existing Instance chain.
#[export] Existing Instance pool.
#[export] Existing Instance bls.
#[export] Existing Instance hold_json.
#[export] Existing Instance tally_json.
#[export] Existing Instance ids_json.
#[export] Existing Instance string_json.
#[export] Existing Instance Z_json.
#[export] Existing Instance request_json.
#[export] Existing Instance vote_json.
#[export] Existing Instance appeal_json.
#[export] Existing Instance id_json.
#[export] Existing Instance hold_body_json.
#[export] Existing Instance cert_json.
#[export] Instance hold_rt : JsonRoundTrip Hold := count_json_rt.

Definition ACTIVE : option Z := Some 1.

(** A certified hold on 300 of A's and 50 of B's coins. *)
Definition hold : Hold :=
  MkHold ID REQ body 1000 10 ["00"; "01"; "02"; "03"] [(A, 300 * EGOC); (B, 50 * EGOC)] 2000
    (1000 * EGOC) 1000 [] 0 false.
Definition held : Ov :=
  save (save (save (save (ov_new ∅) (hold_key ID) hold) (addr_key A) [ID]) (bond_key REQ) ID) LIVE_KEY [ID].
(** The vote rejected it. *)
Definition rejected : Ov := save held (tally_key ID PHASE_CONFIRM) (MkTally 10 (90 * EGOC) 3 1 200 3).

Definition send (hash from to : string) (amount fee : Z) (memo : option string) (type args : string) : LedgerTx :=
  MkTx hash from to amount memo 0 "ab" "" None 0 "" "" "" type fee 0 "" "" "" args "" "" 3 1 "" "" false "" "".
Definition op (hash from type args : string) (fee : Z) : LedgerTx :=
  send hash from from 0 fee (memo_for type args) type args.

Definition balance (a : string) : Z :=
  if bool_decide (a = A) then 1000 * EGOC else if bool_decide (a = REQ) then 150 * EGOC else 0.

Definition during : LedgerBlock := MkBlock 20 "b" 2001.
Definition ending : LedgerBlock := MkBlock 30 "c" 261200.

Definition appeal : LedgerTx := op "0xa" A TX_APPEAL "appeal" 0.
Definition payment : LedgerTx := send "0xs" A EXCHANGE (700 * EGOC) 0 None "transfer" "".
Definition settling : list LedgerTx := settle_txs ACTIVE rejected 30 261200 balance.

Lemma hex_digests_here : hex_digests.
Proof.
  split; [|apply Hex.decode_encode]. intros d. apply (to_le_bytes_byte 32).
Qed.

Lemma held_ids : ids_ok held.
Proof.
  assert (ids_ok (ov_new ∅)) as H0
    by (intros id h; unfold load_hold, load, ov_get, ov_committed; cbn; by rewrite lookup_empty).
  assert (load_hold (ov_new ∅) (h_id hold) = None) as Hnone by (vm_compute; reflexivity).
  apply (save_new_step 0 (ov_new ∅) hold Hnone) in H0 as [H1 _].
  assert (same_holds (save (ov_new ∅) (hold_key ID) hold) held) as Hs
    by (unfold held; repeat (etrans; [|apply same_holds_save; solve [auto with holds]]); done).
  by apply (same_holds_step 0 _ _ Hs) in H1 as [? _].
Qed.

Lemma rejected_ids : ids_ok rejected.
Proof.
  intros id h E. apply held_ids. rewrite <-E. symmetry. apply load_same, ov_get_put_ne. hold_keys_differ.
Qed.

(** The stolen coins are followed over one hop; what went on to an exchange is gone. *)
Definition events : list Event :=
  [MkEvent 2 0 THEFT ALICE A (1000 * EGOC) 0 false; MkEvent 3 0 HOP A B (700 * EGOC) 0 false;
   MkEvent 4 0 "0x4" A EXCHANGE (200 * EGOC) 0 false].
Definition balance_now (a : string) : Z :=
  if bool_decide (a = A) then 100 * EGOC else if bool_decide (a = B) then 700 * EGOC else 0.

(** The overlay after A's appeal. *)
Definition appealed : Ov := apply_block ACTIVE held during [appeal] (1000 * EGOC).

(** The payment of the bond. *)
Definition settlement : LedgerTx := default payment (head settling).
End HoldDemo.

Import HoldDemo.

Lemma trace_bounded_witness :
  trace balance_now (fun _ => false) ALICE [THEFT] [HOP] events = Ok [(A, 100 * EGOC); (B, 700 * EGOC)] /\
  100 * EGOC + (700 * EGOC + 0) <= stolen {[ THEFT ]} events.
Proof.
  split; [vm_compute; reflexivity|].
  pose proof (trace_bounded balance_now (fun _ => false) ALICE [THEFT] [HOP] events
    [(A, 100 * EGOC); (B, 700 * EGOC)]) as Ht.
  destruct Ht as [Ht _]; [| |vm_compute; reflexivity|vm_compute in Ht |- *; exact Ht].
  - unfold events, event_ok, EGOC. repeat (apply Forall_cons; split; [cbn; lia|]). by apply Forall_nil.
  - intros a b Ha Hb. unfold events in *. rewrite !elem_of_cons, elem_of_nil in *.
    destruct Ha as [->|[->|[->|[]]]], Hb as [->|[->|[->|[]]]]; try done; intros E; by vm_compute in E.
Defined.

Lemma held_coins_stay_witness :
  validate ACTIVE balance held during [appeal; payment] = Ok tt /\ locked held A 2001 = 300 * EGOC /\
  total_out A [appeal; payment] + locked held A 2001 <= balance A.
Proof.
  split; [vm_compute; reflexivity|]. split; [vm_compute; reflexivity|].
  apply (held_coins_stay ACTIVE balance held during [appeal; payment] A) with (tx := payment).
  - vm_compute. reflexivity.
  - vm_compute. reflexivity.
  - vm_compute. reflexivity.
  - vm_compute. discriminate.
  - apply (bool_decide_eq_true_1 _). vm_compute. reflexivity.
  - set_solver.
  - split; vm_compute; reflexivity.
Defined.

Lemma hold_lifecycle_witness :
  phase held hold 2001 = Voting /\
  exists h', load_hold appealed ID = Some h' /\ evolves hold h' /\
    can_become (phase held hold 2001) (phase appealed h' 261200) = true /\
    (final (phase held hold 2001) = true -> phase appealed h' 261200 = phase held hold 2001).
Proof.
  split; [vm_compute; reflexivity|].
  apply (hold_lifecycle ACTIVE held 2001 appealed 2001 261200 ID hold).
  - apply (run_block ACTIVE held 2001 held 2001 balance during [appeal; payment] [appeal] (1000 * EGOC)).
    + constructor.
    + done.
    + split; vm_compute; [reflexivity|discriminate].
    + vm_compute. reflexivity.
    + apply sublist_skip, sublist_nil_l.
  - lia.
  - apply held_ids.
  - vm_compute. reflexivity.
Defined.

Lemma hold_settled_once_witness :
  settlement.(tx_from) = REQ /\ settlement.(tx_to) = A /\ settlement.(tx_amount) = 100 * EGOC /\
  ((exists id i h, settle_parts settlement = Some (id, i) /\ load_hold rejected id = Some h /\
      h.(paid) = false) \/ blake3_collision).
Proof.
  split_and!; [vm_compute; reflexivity..|].
  destruct (hold_settled_once ACTIVE balance rejected ending settling settlement) as [(id & i & h & Ha & Hb & Hc & _)|Hcol].
  - apply hex_digests_here.
  - vm_compute. reflexivity.
  - apply rejected_ids.
  - vm_compute. reflexivity.
  - apply (bool_decide_eq_true_1 _). vm_compute. reflexivity.
  - vm_compute. reflexivity.
  - left. exists id, i, h. exact (conj Ha (conj Hb Hc)).
  - right. exact Hcol.
Defined.

(** The bond is not kept back inside the block of the request: a requester who
    has 150 EGOC sends 140 of them after (or before) the request that binds 100
    of them, and the block is accepted. *)
Lemma bond_spent_in_block :
  let req := op "0xr" REQ TX_REQUEST "request" (10 * EGOC) in
  let pay := send "0xp" REQ EXCHANGE (140 * EGOC) 0 None "transfer" "" in
  validate ACTIVE balance (ov_new ∅) during [req; pay] = Ok tt /\
  validate ACTIVE balance (ov_new ∅) during [pay; req] = Ok tt /\
  bond_on (apply_block ACTIVE (ov_new ∅) during [req; pay] 0) REQ 2001 = 100 * EGOC /\
  balance REQ - outflow req - outflow pay = 0.
Proof. vm_compute. split_and!; reflexivity. Qed.
