(* ===== verification/Balances.v ===== *)
(** * Balances

    Model of how a block moves coins in [ego-desktop/src-tauri/src/chain_db.rs]:
    the checks of [validate_block_protocol_txs_inner], which walks through the
    transactions with simulated balances, and the part of [write_block_batch]
    that computes the new balances and the books of [invariants.rs] it is
    checked against; with them the rewards and fees of [tokenomics.rs], and the
    reversal of a block's balances in a reorganisation.

    The columns of the database these read are the record [Db].  The rest of a
    block's record, its indices, registrations and other side effects, is left
    out.  What other parts decide is a parameter ([ChainRules]): signatures, the
    proof of an equivocation, the block reward, the market's plan, and what is due
    under the node weights and storage rules. *)
From stdpp Require Import pretty.
From Stdlib Require Import Ascii.
From S2P Require Import Prelude Crypto Ledger RuleText Totals.
Local Open Scope string_scope.
Local Open Scope list_scope.
Local Open Scope Z_scope.
Local Open Scope ego_scope.

(** ** The books of a block *)

Definition u128_max : Z := 340282366920938463463374607431768211455.

Record SupplyLedger : Type := MkSupply { minted_uegoc : Z; burned_uegoc : Z }.

Definition supply_new : SupplyLedger := MkSupply 0 0.
Definition mint (n : Z) (s : SupplyLedger) : SupplyLedger :=
  MkSupply (sat_add u128_max s.(minted_uegoc) n) s.(burned_uegoc).
Definition burn (n : Z) (s : SupplyLedger) : SupplyLedger :=
  MkSupply s.(minted_uegoc) (sat_add u128_max s.(burned_uegoc) n).
(** [minted as i128 - burned as i128]; both stay below [2 ^ 127], see [supply_accounted]. *)
Definition expected_net (s : SupplyLedger) : Z := s.(minted_uegoc) - s.(burned_uegoc).

(** The violations the balances can show. *)
Inductive Violation : Type :=
| SupplyDrift (height expected_net actual_net minted burned : Z)
| NegativeBalance (height : Z) (address : string) (current delta : Z).

Definition supply_violation (height : Z) (s : SupplyLedger) (deltas : gmap string Z) : option Violation :=
  if bool_decide (mtotal deltas = expected_net s) then None
  else Some (SupplyDrift height (expected_net s) (mtotal deltas) s.(minted_uegoc) s.(burned_uegoc)).

Definition balance_violation (height : Z) (address : string) (current delta : Z) : option Violation :=
  if bool_decide (0 <= current + delta) then None else Some (NegativeBalance height address current delta).

(** ** Tokenomics *)

Definition UEGOC_PER_EGOC : Z := 1000000.
Definition TOTAL_SUPPLY_UEGOC : Z := 1000000000 * UEGOC_PER_EGOC.
Definition FOUNDATION_EGOC : Z := 150000000.
Definition FAUCET_EGOC : Z := 10000000.
Definition MINER_FEE_PCT : Z := 60.
Definition STAKING_APR_BPS : Z := 1250.
Definition SECONDS_PER_YEAR : Z := 31536000.

(** [tx_fees * MINER_FEE_PCT / 100], which wraps in a release build. *)
Definition miner_fee_share (tx_fees : Z) : Z := ((tx_fees * MINER_FEE_PCT) mod (u64_max + 1)) / 100.
Definition contributor_fee_share (tx_fees : Z) : Z := (tx_fees - miner_fee_share tx_fees) mod (u64_max + 1).

Definition effective_apr_bps (lock_days : Z) : Z :=
  STAKING_APR_BPS +
  (if bool_decide (365 <= lock_days) then 1000 else if bool_decide (180 <= lock_days) then 500
   else if bool_decide (90 <= lock_days) then 200 else 0).

Definition staking_reward_uegoc (principal lock_days secs : Z) : Z :=
  if bool_decide (principal = 0) || bool_decide (secs = 0) then 0
  else ((principal * effective_apr_bps lock_days * secs) / (10000 * SECONDS_PER_YEAR)) mod (u64_max + 1).

(** ** Addresses and kinds of transactions *)

Definition ECOSYSTEM_ADDR : string := "egot1ecosystem00000000000000000000000000000000".
Definition FOUNDATION_ADDR : string := "egot1foundation00000000000000000000000000000000".
Definition SHIELDED_POOL_ADDR : string := "egot1shieldedpool000000000000000000000000000".
Definition MARKET_ESCROW_ADDR : string := "egot1marketescrow000000000000000000000000000".
Definition COMPUTE_ESCROW_ADDR : string := "egot1computeescrow000000000000000000000000000".
Definition RESERVATION_ESCROW_ADDR : string := "egot1reserveescrow00000000000000000000000000".
Definition STORAGE_ESCROW_ADDR : string := "egot1storageescrow000000000000000000000000".
Definition CLUSTER_ESCROW_ADDR : string := "egot1clusterescrow00000000000000000000000".
Definition TX_UNSHIELD : string := "unshield".
Definition TX_MARKET_SETTLE : string := "market_settle".
Definition SLASH_BPS : Z := 1000.
Definition SEAT_RULES_FROM_HEIGHT : Z := 29306.
Definition STORAGE_PAY_FROM_HEIGHT : Z := 35000.
Definition FAUCET_STEP_UEGOC : Z := 1000 * 1000000.
Definition FAUCET_CAP_UEGOC : Z := 5000 * 1000000.
Definition TX_V3_FROM_HEIGHT : Z := 30000.
Definition TX_V2_UNTIL_HEIGHT : Z := 40000.
Definition MAX_MEMO_BYTES : nat := 256.

Definition is_unshield (tx : LedgerTx) : bool := bool_decide (tx.(tx_from) = SHIELDED_POOL_ADDR).
Definition is_deposit (tx : LedgerTx) : bool := bool_decide (tx.(tx_to) = SHIELDED_POOL_ADDR).
Definition is_market_settle (tx : LedgerTx) : bool := bool_decide (tx.(tx_from) = MARKET_ESCROW_ADDR).
Definition is_escrow_deposit (tx : LedgerTx) : bool := bool_decide (tx.(tx_to) = MARKET_ESCROW_ADDR).

Definition pays_fee_from_amount (tx : LedgerTx) : bool := is_unshield tx || is_market_settle tx.

Definition credited_to_recipient (tx : LedgerTx) : Z :=
  if pays_fee_from_amount tx then sat_sub tx.(tx_amount) tx.(fee_uegoc) else tx.(tx_amount).

Definition is_escrow_source (addr : string) : bool :=
  bool_decide (addr = RESERVATION_ESCROW_ADDR) || bool_decide (addr = COMPUTE_ESCROW_ADDR) ||
  bool_decide (addr = CLUSTER_ESCROW_ADDR) || bool_decide (addr = STORAGE_ESCROW_ADDR) ||
  starts_with addr "egot1storagefees".

Definition is_contributor_fee_tx (tx : LedgerTx) : bool :=
  bool_decide (tx.(tx_type) = "fee_distribution") && bool_decide (tx.(tx_from) = "") &&
  bool_decide (tx.(tx_to) = NODE_POOL_ADDR) && bool_decide (tx.(tx_signature) = "coinbase").

(** [drs::is_batch_tx]. *)
Definition is_batch_tx (tx : LedgerTx) : bool :=
  bool_decide (tx.(tx_type) ∈
    ["checkin_batch"; "ready_batch"; "tm_ready_batch"; "coverage_batch"; "state_cert"; "hold_cert"]) &&
  bool_decide (tx.(tx_from) = "") && bool_decide (tx.(tx_to) = NODE_POOL_ADDR) &&
  bool_decide (tx.(tx_amount) = 0) && bool_decide (tx.(tx_signature) = "coinbase").

Definition is_system_emission_type (type : string) : bool :=
  bool_decide (type ∈
    ["cluster_escrow"; "compute_escrow"; "storage_escrow"; "reservation_escrow"; "early_termination_penalty";
     "early_termination_refund"; "slash_storage"; "burn_collateral"; "unlock_collateral"; "lock_collateral";
     "fee_distribution"; "post_reward"]) || contains type "escrow".

Definition unstake_credit_amount (tx : LedgerTx) : Z :=
  if bool_decide (tx.(tx_memo) = Some "unstake:early") then sat_sub tx.(tx_amount) (tx.(tx_amount) / 10)
  else tx.(tx_amount).

Definition seat_rules_active (height : Z) : bool := bool_decide (SEAT_RULES_FROM_HEIGHT <= height).

Definition faucet_grant_fits (tx : LedgerTx) : result unit string :=
  if bool_decide (tx.(tx_amount) = 0) || bool_decide (FAUCET_STEP_UEGOC < tx.(tx_amount)) then
    Err ("faucet grant of " +:+ pretty tx.(tx_amount) +:+ " uEGOC is outside 1..=1000000000 uEGOC")
  else Ok tt.

Definition check_tx_version_known (tx : LedgerTx) : result unit string :=
  if bool_decide (3 < tx.(tx_version)) then Err ("unknown transaction version " +:+ pretty tx.(tx_version))
  else if bool_decide (tx.(tx_version) = 3) &&
          bool_decide (MAX_MEMO_BYTES < from_option String.length 0 tx.(tx_memo))%nat
  then Err "memo longer than 256 bytes" else Ok tt.

Definition check_tx_version_at (tx : LedgerTx) (height : Z) : result unit string :=
  let? _ := check_tx_version_known tx in
  if bool_decide (tx.(tx_version) = 3) && bool_decide (height < TX_V3_FROM_HEIGHT) then
    Err "version 3 transactions are valid from block 30000"
  else if bool_decide (tx.(tx_version) < 3) && bool_decide (TX_V2_UNTIL_HEIGHT <= height) then
    Err ("version " +:+ pretty tx.(tx_version) +:+
         " transactions do not sign their fee and were retired at block 40000; update the wallet")
  else Ok tt.

(** ** The database *)

(** The columns the balances depend on: [CF_BALANCES], the keys of [CF_TXS], the
    stakes and confirmed nonces, and of [CF_META] the stake starts with their
    lock days, the slashed validators, and the marks and totals of faucet coins. *)
Record Db : Type := MkDb {
  balances : gmap string Z;
  committed_txs : gset string;
  stakes : gmap string Z;
  nonces : gmap string Z;
  stake_meta : gmap string (Z * Z);
  slashed : gset string;
  faucet_marks : gmap string Z;
  faucet_totals : gmap string Z;
}.

Definition balance_of (db : Db) (a : string) : Z := at_ db.(balances) a.

(** The fields of [LedgerBlock] that [validate_block_protocol_txs_inner] reads. *)
Record BlockInfo : Type := MkBlockInfo {
  bi_block :> LedgerBlock;
  prev_hash : string;
  miner : string;
  tx_count : Z;
  reward : Z;
  coinbase_tx : option string;
}.

(** What the balances depend on of other parts of the node. *)
Class ChainRules : Type := {
  (* [escrow_rule_enabled_at_tip], [emission_v2_active] *)
  escrow_rule_enabled : bool;
  emission_v2_active : Z -> bool;
  (* [expected_block_reward_inner] and [get_faucet_address] *)
  expected_block_reward : Db -> Z -> Z -> Z -> string -> Z;
  faucet_address : string;
  verify_confirmed_tx_sig : LedgerTx -> result unit string;
  (* [validate_equivocation_proof_tx_inner]: the accused validator *)
  equivocation_accused : Db -> LedgerTx -> result string string;
  (* [Plan::takes_effect] of the market *)
  takes_effect : string -> bool;
  (* [foundation_vested_egoc(now) * UEGOC_PER_EGOC], saturating *)
  vested_uegoc : Z;
  (* what the weights of the nodes that checked in are due, before the pool's
     balance cuts it, and [storage_pay_in] *)
  node_due : list (string * Z);
  storage_pay : list (string * Z);
}.

Definition circulating_supply `{ChainRules} (db : Db) : Z :=
  let base := sat_add u64_max TOTAL_SUPPLY_UEGOC (FAUCET_EGOC * UEGOC_PER_EGOC) in
  sat_sub (sat_sub (sat_sub (sat_sub (sat_sub base (balance_of db NODE_POOL_ADDR)) (balance_of db ECOSYSTEM_ADDR))
    (balance_of db FOUNDATION_ADDR)) (balance_of db STAKING_POOL_ADDR)) (balance_of db faucet_address).

Definition is_protocol_system_tx `{ChainRules} (tx : LedgerTx) : bool :=
  (bool_decide (tx.(tx_type) = "faucet") && bool_decide (tx.(tx_from) = NODE_POOL_ADDR)) ||
  (is_escrow_source tx.(tx_from) &&
   (ends_with tx.(tx_signature) "_escrow_system" || bool_decide (tx.(tx_signature) = "provider")) &&
   escrow_rule_enabled) ||
  (bool_decide (tx.(tx_from) = NODE_POOL_ADDR) && bool_decide (tx.(tx_signature) = "coinbase") &&
   bool_decide (tx.(tx_type) ∈
     ["reward"; "coinbase"; "fee_distribution"; "post_reward"; "uptime_reward"; "storage_reward"])).

(** ** Marks of faucet coins *)

(** [entry(a).or_insert_with(|| mark_of(a))]. *)
Definition entry_or (mark_of : string -> Z) (m : gmap string Z) (a : string) : Z := default (mark_of a) (m !! a).

Definition apply_faucet_marks (mark_of : string -> Z) (tx : LedgerTx) (marks : gmap string Z) : gmap string Z :=
  if bool_decide (tx.(tx_type) = "faucet") && bool_decide (tx.(tx_from) = NODE_POOL_ADDR) then
    <[ tx.(tx_to) := sat_add u64_max (entry_or mark_of marks tx.(tx_to)) tx.(tx_amount) ]> marks
  else if bool_decide (tx.(tx_from) = "") || is_unstake_tx tx then marks
  else
    let '(spent, delivered) :=
      if pays_fee_from_amount tx then (tx.(tx_amount), sat_sub tx.(tx_amount) tx.(fee_uegoc))
      else if is_stake_tx tx then (tx.(fee_uegoc), 0)
      else (sat_add u64_max tx.(tx_amount) tx.(fee_uegoc), tx.(tx_amount)) in
    let from_mark := entry_or mark_of marks tx.(tx_from) in
    let used := Z.min spent from_mark in
    let marks := <[ tx.(tx_from) := from_mark - used ]> marks in
    let carried := Z.min used delivered in
    if bool_decide (0 < carried) && bool_decide (tx.(tx_to) <> "") then
      <[ tx.(tx_to) := sat_add u64_max (entry_or mark_of marks tx.(tx_to)) carried ]> marks
    else marks.

(** ** Checking a block *)

Section Balances.
Context `{CryptoPrims} `{ChainPrims} `{ChainRules}.

Definition nonce_leb (a b : LedgerTx) : bool := a.(tx_nonce) <=? b.(tx_nonce).

Fixpoint check_hashes (height : Z) (seen : gset string) (txs : list LedgerTx) : result unit string :=
  match txs with
  | [] => Ok tt
  | tx :: txs =>
      if bool_decide (tx.(tx_hash) = "") then
        Err ("empty tx hash in block #" +:+ pretty height +:+ " (type=" +:+ tx.(tx_type) +:+ " from=" +:+ tx.(tx_from) +:+ ")")
      else if bool_decide (tx.(tx_hash) ∈ seen) then
        Err ("duplicate tx hash " +:+ String.substring 0 12 tx.(tx_hash) +:+ " in block #" +:+ pretty height)
      else check_hashes height ({[ tx.(tx_hash) ]} ∪ seen) txs
  end.

Definition tx_fees_sum (txs : list LedgerTx) : Z :=
  foldl wrapping_add64 0 (fee_uegoc <$> filter (fun tx => is_protocol_system_tx tx = false) txs).

Definition text_hash (s : string) : string := "0x" +:+ hex_encode (blake3 (ascii_bytes s)).

(** The reward and its coinbase transaction. *)
Definition check_reward (db : Db) (block : BlockInfo) (txs : list LedgerTx) (fees : Z) : result unit string :=
  let remaining := sat_sub TOTAL_SUPPLY_UEGOC (circulating_supply db) in
  let v2 := emission_v2_active block.(b_height) in
  let expected_reward :=
    Z.min (expected_block_reward db block.(b_height) block.(b_timestamp) fees block.(prev_hash)) remaining in
  let? _ :=
    if v2 then
      if bool_decide (expected_reward < block.(reward)) then
        Err ("invalid block reward: got " +:+ pretty block.(reward) +:+ ", v2 cap is " +:+ pretty expected_reward)
      else Ok tt
    else if bool_decide (block.(reward) <> expected_reward) && bool_decide (block.(reward) <> 0) then
      Err ("invalid block reward: got " +:+ pretty block.(reward) +:+ ", expected " +:+ pretty expected_reward)
    else Ok tt in
  let coinbase_txs := filter (fun tx => Some tx.(tx_hash) = block.(coinbase_tx)) txs in
  if bool_decide (0 < block.(reward)) then
    let? cb := ok_or (head coinbase_txs) "coinbase tx missing" in
    let reward_for_cb := if v2 then block.(reward) else expected_reward in
    let expected_hash :=
      text_hash ("coinbase:" +:+ pretty block.(b_height) +:+ ":" +:+ block.(miner) +:+ ":" +:+
                 pretty reward_for_cb +:+ ":" +:+ pretty block.(b_timestamp)) in
    if bool_decide (cb.(tx_from) <> NODE_POOL_ADDR) || bool_decide (cb.(tx_to) <> block.(miner)) ||
       bool_decide (cb.(tx_amount) <> reward_for_cb) || bool_decide (cb.(tx_signature) <> "coinbase") ||
       bool_decide (cb.(tx_type) <> "reward") || bool_decide (cb.(tx_hash) <> expected_hash)
    then Err "invalid coinbase tx" else Ok tt
  else if bool_decide (block.(coinbase_tx) <> None) || bool_decide (coinbase_txs <> []) then
    Err "coinbase present when expected reward is zero"
  else Ok tt.

(** The contributors' share of the fees. *)
Definition check_fee_share (block : BlockInfo) (txs : list LedgerTx) (fees : Z) : result unit string :=
  let expected := contributor_fee_share fees in
  let fee_txs := filter (fun tx => tx.(tx_type) = "fee_distribution") txs in
  if bool_decide (0 < expected) then
    match fee_txs with
    | [sf] =>
        let expected_hash :=
          text_hash ("contributorfee:" +:+ pretty block.(b_height) +:+ ":" +:+ pretty expected +:+ ":" +:+
                     pretty block.(b_timestamp)) in
        if bool_decide (sf.(tx_from) <> "") || bool_decide (sf.(tx_to) <> NODE_POOL_ADDR) ||
           bool_decide (sf.(tx_amount) <> expected) || bool_decide (sf.(tx_signature) <> "coinbase") ||
           bool_decide (sf.(tx_hash) <> expected_hash)
        then Err "invalid contributor fee tx" else Ok tt
    | _ => Err ("expected exactly one contributor fee tx, got " +:+ pretty (length fee_txs))
    end
  else if bool_decide (fee_txs <> []) then Err "unexpected contributor fee tx"
  else Ok tt.

(** [map_err(|e| format!(...))]. *)
Definition prefix_err {A} (p : string) (r : result A string) : result A string :=
  match r with
  | Ok a => Ok a
  | Err e => Err (p +:+ e)
  end.

Definition faucet_in_block (to : string) (txs : list LedgerTx) : Z :=
  foldl wrapping_add64 0 (tx_amount <$> filter (fun tx =>
    tx.(tx_type) = "faucet" /\ tx.(tx_from) = NODE_POOL_ADDR /\ tx.(tx_to) = to) txs).

(** Who may be the source of a transaction. *)
Definition check_source (db : Db) (block : BlockInfo) (txs : list LedgerTx) (tx : LedgerTx) : result unit string :=
  if is_protocol_system_tx tx then
    let is_coinbase := bool_decide (Some tx.(tx_hash) = block.(coinbase_tx)) in
    let is_faucet := bool_decide (tx.(tx_type) = "faucet") in
    if negb is_coinbase && negb is_faucet && negb (is_system_emission_type tx.(tx_type)) then
      Err ("unexpected protocol system tx " +:+ tx.(tx_hash) +:+ " (type: '" +:+ tx.(tx_type) +:+ "')")
    else if bool_decide (tx.(tx_type) = "post_reward") then
      Err ("post_reward tx " +:+ tx.(tx_hash) +:+
           " refused: nothing in the protocol issues one, and it would pay any amount from the node pool")
    else if is_faucet then
      let? _ := prefix_err ("faucet tx " +:+ tx.(tx_hash) +:+ ": ") (faucet_grant_fits tx) in
      if seat_rules_active block.(b_height) &&
         bool_decide (FAUCET_CAP_UEGOC <
           sat_add u64_max (at_ db.(faucet_totals) tx.(tx_to)) (faucet_in_block tx.(tx_to) txs))
      then Err ("faucet tx " +:+ tx.(tx_hash) +:+ " would take " +:+ tx.(tx_to) +:+ " past the 5000000000 uEGOC faucet total")
      else Ok tt
    else Ok tt
  else if is_reserved_system_source tx.(tx_from) then
    let unshield := bool_decide (tx.(tx_type) = TX_UNSHIELD) && bool_decide (tx.(tx_from) = SHIELDED_POOL_ADDR) in
    let settle := bool_decide (tx.(tx_type) = TX_MARKET_SETTLE) && bool_decide (tx.(tx_from) = MARKET_ESCROW_ADDR) in
    if negb unshield && negb settle && negb (is_contributor_fee_tx tx) && negb (is_batch_tx tx) then
      Err ("forbidden system-source tx " +:+ tx.(tx_hash) +:+ " (type: '" +:+ tx.(tx_type) +:+ "')")
    else Ok tt
  else
    let? _ := prefix_err ("tx " +:+ tx.(tx_hash) +:+ " rejected: ") (check_tx_version_at tx block.(b_height)) in
    prefix_err ("tx " +:+ tx.(tx_hash) +:+ " rejected: ") (verify_confirmed_tx_sig tx).

Fixpoint check_sources (db : Db) (block : BlockInfo) (all txs : list LedgerTx) : result unit string :=
  match txs with
  | [] => Ok tt
  | tx :: txs => let? _ := check_source db block all tx in check_sources db block all txs
  end.

(** *** The simulation *)

Record Simulated : Type := MkSimulated {
  sim_balances : gmap string Z;
  sim_nonces : gmap string Z;
  sim_stakes : gmap string Z;
  sim_marks : gmap string Z;
}.

Definition simulated_new : Simulated := MkSimulated ∅ ∅ ∅ ∅.

Definition sim_balance (db : Db) (s : Simulated) (a : string) : Z := entry_or (balance_of db) s.(sim_balances) a.
Definition sim_stake (db : Db) (s : Simulated) (a : string) : Z := entry_or (at_ db.(stakes)) s.(sim_stakes) a.

Definition set_balance (a : string) (n : Z) (s : Simulated) : Simulated :=
  MkSimulated (<[ a := n ]> s.(sim_balances)) s.(sim_nonces) s.(sim_stakes) s.(sim_marks).
Definition set_nonce (a : string) (n : Z) (s : Simulated) : Simulated :=
  MkSimulated s.(sim_balances) (<[ a := n ]> s.(sim_nonces)) s.(sim_stakes) s.(sim_marks).
Definition set_stake (a : string) (n : Z) (s : Simulated) : Simulated :=
  MkSimulated s.(sim_balances) s.(sim_nonces) (<[ a := n ]> s.(sim_stakes)) s.(sim_marks).
Definition set_marks (m : gmap string Z) (s : Simulated) : Simulated :=
  MkSimulated s.(sim_balances) s.(sim_nonces) s.(sim_stakes) m.

Definition credit_sim (db : Db) (a : string) (n : Z) (s : Simulated) : Simulated :=
  set_balance a (sat_add u64_max (sim_balance db s a) n) s.

(** Faucet coins are not staked. *)
Definition check_marks (db : Db) (marks_apply : bool) (tx : LedgerTx) (s : Simulated) : result Simulated string :=
  if marks_apply then
    let mark := entry_or (at_ db.(faucet_marks)) s.(sim_marks) tx.(tx_from) in
    if is_stake_tx tx &&
       bool_decide (sat_sub (sim_balance db s tx.(tx_from)) mark < sat_add u64_max tx.(tx_amount) tx.(fee_uegoc))
    then Err ("stake tx " +:+ tx.(tx_hash) +:+ " would stake faucet coins")
    else Ok (set_marks (apply_faucet_marks (at_ db.(faucet_marks)) tx s.(sim_marks)) s)
  else Ok s.

Definition sim_emission (db : Db) (tx : LedgerTx) (s : Simulated) : result Simulated string :=
  let pool := sim_balance db s tx.(tx_from) in
  if bool_decide (pool < tx.(tx_amount)) then
    Err ("system-emission tx " +:+ tx.(tx_hash) +:+ " (type '" +:+ tx.(tx_type) +:+ "') overdraws pool " +:+
         tx.(tx_from) +:+ " (" +:+ pretty pool +:+ " < " +:+ pretty tx.(tx_amount) +:+ ")")
  else
    let s := set_balance tx.(tx_from) (sat_sub pool tx.(tx_amount)) s in
    Ok (if bool_decide (tx.(tx_to) <> "") then credit_sim db tx.(tx_to) (credited_to_recipient tx) s else s).

Definition sim_unstake (db : Db) (tx : LedgerTx) (s : Simulated) : result Simulated string :=
  let stake_left := sim_stake db s tx.(tx_from) in
  if bool_decide (tx.(tx_amount) = 0) || bool_decide (stake_left < tx.(tx_amount)) then
    Err ("unstake tx " +:+ tx.(tx_hash) +:+ " exceeds active stake")
  else
    let credit := unstake_credit_amount tx in
    if bool_decide (credit < tx.(fee_uegoc)) then Err ("unstake tx " +:+ tx.(tx_hash) +:+ " credit below fee")
    else
      let staking_balance := sim_balance db s STAKING_ADDR in
      if bool_decide (staking_balance < credit) then
        Err ("unstake tx " +:+ tx.(tx_hash) +:+ " exceeds staking contract balance")
      else
        let s := set_balance STAKING_ADDR (sat_sub staking_balance credit) s in
        let s := set_stake tx.(tx_from) (sat_sub stake_left tx.(tx_amount)) s in
        Ok (set_balance tx.(tx_from)
              (sat_sub (sat_add u64_max (sim_balance db s tx.(tx_from)) credit) tx.(fee_uegoc)) s).

Definition sim_transfer (db : Db) (tx : LedgerTx) (s : Simulated) : result Simulated string :=
  let balance := sim_balance db s tx.(tx_from) in
  let required := sat_add u64_max tx.(tx_amount) tx.(fee_uegoc) in
  if bool_decide (balance < required) then
    Err ("insufficient balance for tx " +:+ tx.(tx_hash) +:+ ": has " +:+ pretty balance +:+ ", needs " +:+ pretty required)
  else
    let s := set_balance tx.(tx_from) (sat_sub balance required) s in
    Ok (if bool_decide (tx.(tx_to) <> "") &&
           (negb (is_reserved_system_source tx.(tx_to)) || is_deposit tx || is_escrow_deposit tx)
        then credit_sim db tx.(tx_to) tx.(tx_amount) s else s).

Definition sim_nonce (db : Db) (tx : LedgerTx) (s : Simulated) : result Simulated string :=
  if bool_decide (0 < tx.(tx_nonce)) then
    let last := entry_or (at_ db.(nonces)) s.(sim_nonces) tx.(tx_from) in
    if bool_decide (tx.(tx_nonce) <= last) then
      Err ("stale nonce for tx " +:+ tx.(tx_hash) +:+ ": " +:+ pretty tx.(tx_nonce) +:+ " <= " +:+ pretty last)
    else Ok (set_nonce tx.(tx_from) tx.(tx_nonce) s)
  else Ok s.

(** One turn of the loop over the transactions. *)
Definition simulate_tx (db : Db) (height : Z) (tx : LedgerTx) (s : Simulated) : result Simulated string :=
  let? s := check_marks db (seat_rules_active height) tx s in
  if is_protocol_system_tx tx then Ok s
  else if bool_decide (tx.(tx_from) <> "") && is_reserved_system_source tx.(tx_from) then sim_emission db tx s
  else if bool_decide (tx.(tx_from) = "") then Ok s
  else
    let? s := if is_unstake_tx tx then sim_unstake db tx s else sim_transfer db tx s in
    sim_nonce db tx s.

Fixpoint simulate (db : Db) (height : Z) (txs : list LedgerTx) (s : Simulated) : result Simulated string :=
  match txs with
  | [] => Ok s
  | tx :: txs => let? s := simulate_tx db height tx s in simulate db height txs s
  end.

Definition validate_block_protocol_txs (db : Db) (block : BlockInfo) (txs : list LedgerTx) : result unit string :=
  if bool_decide (0 < block.(b_height)) && bool_decide (block.(tx_count) <> Z.of_nat (length txs)) then
    Err ("tx_count mismatch: block says " +:+ pretty block.(tx_count) +:+ ", received " +:+ pretty (length txs))
  else
    let sorted_txs := stable_sort nonce_leb txs in
    let? _ := check_hashes block.(b_height) ∅ sorted_txs in
    let fees := tx_fees_sum sorted_txs in
    let? _ := check_reward db block sorted_txs fees in
    let? _ := check_fee_share block sorted_txs fees in
    let? _ := check_sources db block sorted_txs sorted_txs in
    let? _ := simulate db block.(b_height) sorted_txs simulated_new in
    Ok tt.

(** ** Applying a block *)

(** What the loop of [write_block_batch] over the transactions gathers. *)
Record Applying : Type := MkApplying {
  balance_delta : gmap string Z;
  supply : SupplyLedger;
  new_tx_count : Z;
  stake_sim : gmap string Z;
  slashed_seen : gset string;
  newly_slashed : list (string * Z);
  reward_events : list (string * string * Z * string);
}.

Definition applying_new (db : Db) : Applying := MkApplying ∅ supply_new 0 ∅ db.(slashed) [] [].

Definition add_delta (a : string) (n : Z) (s : Applying) : Applying :=
  MkApplying (<[ a := at_ s.(balance_delta) a + n ]> s.(balance_delta)) s.(supply) s.(new_tx_count) s.(stake_sim)
    s.(slashed_seen) s.(newly_slashed) s.(reward_events).
Definition with_supply (f : SupplyLedger -> SupplyLedger) (s : Applying) : Applying :=
  MkApplying s.(balance_delta) (f s.(supply)) s.(new_tx_count) s.(stake_sim) s.(slashed_seen) s.(newly_slashed) s.(reward_events).
Definition set_stake_sim (a : string) (n : Z) (s : Applying) : Applying :=
  MkApplying s.(balance_delta) s.(supply) s.(new_tx_count) (<[ a := n ]> s.(stake_sim))
    s.(slashed_seen) s.(newly_slashed) s.(reward_events).
Definition add_slashed (a : string) (n : Z) (s : Applying) : Applying :=
  MkApplying s.(balance_delta) s.(supply) s.(new_tx_count) s.(stake_sim)
    ({[ a ]} ∪ s.(slashed_seen)) (s.(newly_slashed) ++ [(a, n)]) s.(reward_events).
Definition count_tx (s : Applying) : Applying :=
  MkApplying s.(balance_delta) s.(supply) (s.(new_tx_count) + 1) s.(stake_sim)
    s.(slashed_seen) s.(newly_slashed) s.(reward_events).
Definition add_event (mine : gset string) (a kind : string) (n : Z) (hash : string) (s : Applying) : Applying :=
  if bool_decide (a ∈ mine) then
    MkApplying s.(balance_delta) s.(supply) s.(new_tx_count) s.(stake_sim)
      s.(slashed_seen) s.(newly_slashed) (s.(reward_events) ++ [(a, kind, n, hash)])
  else s.

(** What an address has, with the changes so far: [(bal as i128 + pending).max(0) as u64]. *)
Definition effective (db : Db) (s : Applying) (a : string) : Z := clamp64 (balance_of db a + at_ s.(balance_delta) a).

Definition stake_now (db : Db) (s : Applying) (a : string) : Z := entry_or (at_ db.(stakes)) s.(stake_sim) a.

Definition staking_reward_for_unstake (db : Db) (tx : LedgerTx) (s : Applying) : Z :=
  match db.(stake_meta) !! tx.(tx_from) with
  | None => 0
  | Some (start_ts, lock_days) =>
      let secs := Z.max 0 (tx.(tx_timestamp) - start_ts) in
      let entitled := staking_reward_uegoc tx.(tx_amount) lock_days secs in
      if bool_decide (entitled = 0) then 0 else Z.min entitled (effective db s STAKING_POOL_ADDR)
  end.

(** [slash_from_equivocation_tx]; the stake of the accused is put in the table
    before the test of the amount. *)
Definition slash_from_equivocation_tx (db : Db) (tx : LedgerTx) (s : Applying)
    : Applying * result (string * Z) string :=
  match equivocation_accused db tx with
  | Err e => (s, Err e)
  | Ok accused =>
      if bool_decide (accused ∈ s.(slashed_seen)) then (s, Err ("validator " +:+ accused +:+ " already slashed"))
      else
        let stake := stake_now db s accused in
        let slash_amount := sat_mul u64_max stake SLASH_BPS / 10000 in
        let s := set_stake_sim accused stake s in
        if bool_decide (slash_amount = 0) then (s, Err ("validator " +:+ accused +:+ " has no slashable stake"))
        else (set_stake_sim accused (sat_sub stake slash_amount) s, Ok (accused, slash_amount))
  end.

(** The vesting of the foundation's coins. *)
Definition foundation_blocked (db : Db) (tx : LedgerTx) (s : Applying) : bool :=
  bool_decide (tx.(tx_from) = FOUNDATION_ADDR) && bool_decide (0 < tx.(tx_amount)) &&
  (let already_out := sat_sub (FOUNDATION_EGOC * UEGOC_PER_EGOC) (effective db s FOUNDATION_ADDR) in
   let total_out := sat_add u64_max tx.(tx_amount) tx.(fee_uegoc) in
   bool_decide (vested_uegoc < sat_add u64_max already_out total_out)).

(** A system source pays at most what it has. *)
Definition credited_amount (db : Db) (tx : LedgerTx) (s : Applying) : Z :=
  if bool_decide (tx.(tx_from) <> "") && is_reserved_system_source tx.(tx_from) && bool_decide (0 < tx.(tx_amount))
  then Z.min tx.(tx_amount) (effective db s tx.(tx_from)) else tx.(tx_amount).

Definition apply_unstake (db : Db) (mine : gset string) (tx : LedgerTx) (s : Applying) : Applying :=
  let credit := unstake_credit_amount tx in
  let s := add_delta STAKING_ADDR (- credit) (add_delta tx.(tx_from) (credit - tx.(fee_uegoc)) s) in
  let reward := staking_reward_for_unstake db tx s in
  let s := if bool_decide (0 < reward) then
             add_event mine tx.(tx_from) "staking" reward tx.(tx_hash)
               (add_delta STAKING_POOL_ADDR (- reward) (add_delta tx.(tx_from) reward s))
           else s in
  let s := set_stake_sim tx.(tx_from) (sat_sub (stake_now db s tx.(tx_from)) tx.(tx_amount)) s in
  with_supply (burn tx.(fee_uegoc)) s.

Definition apply_slash (db : Db) (tx : LedgerTx) (s : Applying) : Applying :=
  match slash_from_equivocation_tx db tx s with
  | (s, Ok (accused, slash_amount)) =>
      add_slashed accused slash_amount (with_supply (burn slash_amount) (add_delta STAKING_ADDR (- slash_amount) s))
  | (s, Err _) => s
  end.

Definition apply_transfer (db : Db) (tx : LedgerTx) (credited : Z) (s : Applying) : Applying :=
  let s := add_delta tx.(tx_to) credited s in
  if bool_decide (tx.(tx_from) = "") then with_supply (mint credited) s
  else if is_reserved_system_source tx.(tx_from) then add_delta tx.(tx_from) (- credited) s
  else
    let s := with_supply (burn tx.(fee_uegoc)) (add_delta tx.(tx_from) (- (tx.(tx_amount) + tx.(fee_uegoc))) s) in
    if is_stake_tx tx then
      set_stake_sim tx.(tx_from) (sat_add u64_max (stake_now db s tx.(tx_from)) tx.(tx_amount)) s
    else s.

Definition apply_tx (db : Db) (mine : gset string) (s : Applying) (tx : LedgerTx) : Applying :=
  if bool_decide (tx.(tx_hash) ∈ db.(committed_txs)) then s
  else if negb (takes_effect tx.(tx_hash)) then count_tx s
  else if foundation_blocked db tx s then s
  else
    let credited := credited_amount db tx s in
    count_tx
      (if is_unstake_tx tx then apply_unstake db mine tx s
       else if bool_decide (tx.(tx_type) = "equivocation_proof") then apply_slash db tx s
       else if pays_fee_from_amount tx then
         with_supply (burn (Z.min tx.(fee_uegoc) credited))
           (add_delta tx.(tx_from) (- credited) (add_delta tx.(tx_to) (sat_sub credited tx.(fee_uegoc)) s))
       else apply_transfer db tx credited s).

Definition apply_txs (db : Db) (mine : gset string) (txs : list LedgerTx) : Applying :=
  foldl (apply_tx db mine) (applying_new db) txs.

(** *** What the node pool pays *)

(** Payments cut to what is left of the pool: the check-ins of [drs::apply_block],
    and the storage pay. *)
Fixpoint cut_pay (pool_left : Z) (l : list (string * Z)) : list (string * Z) :=
  match l with
  | [] => []
  | (host, pay) :: l =>
      let pay := Z.min pay pool_left in
      (if bool_decide (0 < pay) then [(host, pay)] else []) ++ cut_pay (pool_left - pay) l
  end.

Definition pay_one (s : Applying) (ap : string * Z) : Applying :=
  add_delta NODE_POOL_ADDR (- ap.2) (add_delta ap.1 ap.2 s).

Definition pay_nodes (db : Db) (mine : gset string) (height : Z) (s : Applying) : Applying :=
  let pool_now := balance_of db NODE_POOL_ADDR + at_ s.(balance_delta) NODE_POOL_ADDR in
  let credits := cut_pay (clamp64 pool_now) node_due in
  let pool_left := foldl (fun left (ap : string * Z) => sat_sub left ap.2) (Z.max 0 pool_now) credits in
  let storage := if bool_decide (STORAGE_PAY_FROM_HEIGHT <= height) then cut_pay pool_left storage_pay else [] in
  let s := foldl (fun s (ap : string * Z) => add_event mine ap.1 "node" ap.2 "" s) s credits in
  let s := foldl (fun s (ap : string * Z) => add_event mine ap.1 "storage" ap.2 "" s) s storage in
  foldl pay_one s (credits ++ storage).

(** *** The new balances *)

(** [new_balances], and the batch that writes them. *)
Definition new_balance (db : Db) (s : Applying) (a : string) : Z := effective db s a.

Definition write_balance (db : Db) (s : Applying) (m : gmap string Z) (a : string) : gmap string Z :=
  if bool_decide (new_balance db s a = 0) then delete a m else <[ a := new_balance db s a ]> m.

(** The addresses of [balance_delta]; their order is the map's and does not matter. *)
Definition touched (s : Applying) : list string := (map_to_list s.(balance_delta)).*1.

Definition gather (db : Db) (mine : gset string) (height : Z) (txs : list LedgerTx) : Applying :=
  pay_nodes db mine height (apply_txs db mine txs).

Definition write_balances (db : Db) (s : Applying) : gmap string Z :=
  foldl (write_balance db s) db.(balances) (touched s).

(** What [check_supply] and [check_balance] report. *)
Definition reported (db : Db) (height : Z) (s : Applying) : list Violation :=
  option_list (supply_violation height s.(supply) s.(balance_delta)) ++
  omap (fun a => balance_violation height a (balance_of db a) (at_ s.(balance_delta) a)) (touched s).

(** ** Reversing a block *)

Definition rev_add (a : string) (n : Z) (m : gmap string Z) : gmap string Z := <[ a := at_ m a + n ]> m.

Definition reorg_reverse_balance_delta (m : gmap string Z) (tx : LedgerTx) : gmap string Z :=
  if bool_decide (tx.(tx_type) = "equivocation_proof") then m
  else if is_unshield tx then
    rev_add SHIELDED_POOL_ADDR tx.(tx_amount) (rev_add tx.(tx_to) (- credited_to_recipient tx) m)
  else if is_market_settle tx then
    rev_add MARKET_ESCROW_ADDR tx.(tx_amount) (rev_add tx.(tx_to) (- sat_sub tx.(tx_amount) tx.(fee_uegoc)) m)
  else
    let is_system := bool_decide (tx.(tx_from) = NODE_POOL_ADDR) || bool_decide (tx.(tx_from) = "") in
    if is_unstake_tx tx then
      let credit := unstake_credit_amount tx in
      rev_add STAKING_ADDR credit (rev_add tx.(tx_from) (- (credit - tx.(fee_uegoc))) m)
    else
      let m := rev_add tx.(tx_to) (- tx.(tx_amount)) m in
      if negb is_system then rev_add tx.(tx_from) (tx.(tx_amount) + tx.(fee_uegoc)) m
      else if bool_decide (tx.(tx_from) = NODE_POOL_ADDR) then rev_add NODE_POOL_ADDR tx.(tx_amount) m
      else m.

(** The balances [truncate_from] writes for the transactions it removes, those
    the market had rejected apart. *)
Definition reverse_balance (bals reverse : gmap string Z) (m : gmap string Z) (a : string) : gmap string Z :=
  if bool_decide (a = "") then m
  else
    let new_bal := clamp64 (at_ bals a + at_ reverse a) in
    if bool_decide (new_bal = 0) then delete a m else <[ a := new_bal ]> m.

Definition truncate_balances (bals : gmap string Z) (txs : list LedgerTx) : gmap string Z :=
  let reverse := foldl reorg_reverse_balance_delta ∅ (filter (fun tx => takes_effect tx.(tx_hash) = true) txs) in
  foldl (reverse_balance bals reverse) bals (map_to_list reverse).*1.
End Balances.
