(* ===== verification/BalancesFacts.v ===== *)
(** * Balances: facts

    What one transaction does to the books of a block, and how the balances a
    block writes relate to those its check walked through. *)
From S2P Require Import Prelude Crypto Ledger RuleText Totals Balances.
Local Open Scope string_scope.
Local Open Scope list_scope.
Local Open Scope Z_scope.
Local Open Scope ego_scope.

Lemma clamp64_id n : 0 <= n <= u64_max -> clamp64 n = n.
Proof. intros Hn. unfold clamp64. rewrite Z.max_r by lia. apply Z.mod_small. lia. Qed.

(** ** Projections of the loop's state *)

Lemma delta_add a n s : (add_delta a n s).(balance_delta) = <[ a := at_ s.(balance_delta) a + n ]> s.(balance_delta).
Proof. done. Qed.
Lemma delta_with_supply f s : (with_supply f s).(balance_delta) = s.(balance_delta).
Proof. done. Qed.
Lemma delta_set_stake a n s : (set_stake_sim a n s).(balance_delta) = s.(balance_delta).
Proof. done. Qed.
Lemma delta_add_slashed a n s : (add_slashed a n s).(balance_delta) = s.(balance_delta).
Proof. done. Qed.
Lemma delta_count s : (count_tx s).(balance_delta) = s.(balance_delta).
Proof. done. Qed.
Lemma delta_event mine a k n h s : (add_event mine a k n h s).(balance_delta) = s.(balance_delta).
Proof. unfold add_event. by case_bool_decide. Qed.
Lemma supply_event mine a k n h s : (add_event mine a k n h s).(supply) = s.(supply).
Proof. unfold add_event. by case_bool_decide. Qed.

Lemma at_add_delta a n s b :
  at_ (add_delta a n s).(balance_delta) b = at_ s.(balance_delta) b + if bool_decide (a = b) then n else 0.
Proof. rewrite delta_add, at_insert. case_bool_decide; subst; lia. Qed.

Lemma total_add_delta a n s : mtotal (add_delta a n s).(balance_delta) = mtotal s.(balance_delta) + n.
Proof. apply mtotal_add. Qed.

#[export] Hint Rewrite delta_with_supply delta_set_stake delta_add_slashed delta_count delta_event
  at_add_delta total_add_delta : deltas.
Ltac deltas := autorewrite with deltas.

(** ** The books *)

(** The balances moved by [mi] coins made and [bu] coins destroyed, as the
    books say, when these do not saturate. *)
Definition booked (s s' : Applying) (mi bu : Z) : Prop :=
  mtotal s'.(balance_delta) = mtotal s.(balance_delta) + mi - bu /\
  (s.(supply).(minted_uegoc) + mi <= u128_max ->
     s'.(supply).(minted_uegoc) = s.(supply).(minted_uegoc) + mi) /\
  (s.(supply).(burned_uegoc) + bu <= u128_max ->
     s'.(supply).(burned_uegoc) = s.(supply).(burned_uegoc) + bu).

Lemma booked_id s s' :
  mtotal s'.(balance_delta) = mtotal s.(balance_delta) -> s'.(supply) = s.(supply) -> booked s s' 0 0.
Proof. intros Hd Hs. unfold booked. rewrite Hd, Hs. lia. Qed.

Lemma booked_burn s s' bu :
  mtotal s'.(balance_delta) = mtotal s.(balance_delta) - bu -> s'.(supply) = burn bu s.(supply) -> booked s s' 0 bu.
Proof.
  intros Hd Hs. unfold booked. rewrite Hd, Hs. cbn [burn minted_uegoc burned_uegoc]. unfold sat_add. lia.
Qed.

Lemma booked_mint s s' mi :
  mtotal s'.(balance_delta) = mtotal s.(balance_delta) + mi -> s'.(supply) = mint mi s.(supply) -> booked s s' mi 0.
Proof.
  intros Hd Hs. unfold booked. rewrite Hd, Hs. cbn [mint minted_uegoc burned_uegoc]. unfold sat_add. lia.
Qed.

Section Facts.
Context `{CryptoPrims} `{ChainPrims} `{ChainRules}.
Implicit Types (db : Db) (tx : LedgerTx) (s : Applying).

Lemma credited_le db tx s : credited_amount db tx s <= tx.(tx_amount).
Proof. unfold credited_amount. destruct (_ && _); lia. Qed.

Lemma credited_ordinary db tx s :
  is_reserved_system_source tx.(tx_from) = false -> credited_amount db tx s = tx.(tx_amount).
Proof. intros Hr. unfold credited_amount. by rewrite Hr, andb_false_r. Qed.

Lemma unstake_booked db mine tx s : booked s (apply_unstake db mine tx s) 0 tx.(fee_uegoc).
Proof.
  unfold apply_unstake. set (r := staking_reward_for_unstake _ _ _). clearbody r.
  apply booked_burn; case_bool_decide; deltas; try lia; cbn [with_supply set_stake_sim supply];
    by rewrite ?supply_event.
Qed.

Lemma slash_le db tx s s' a n : slash_from_equivocation_tx db tx s = (s', Ok (a, n)) -> n <= u64_max.
Proof.
  unfold slash_from_equivocation_tx. destruct (equivocation_accused db tx); [|done].
  case_bool_decide; [done|]. case_bool_decide; [done|]. intros [= _ _ <-].
  unfold sat_mul, u64_max. apply Z.div_le_upper_bound; lia.
Qed.

Lemma slash_keeps db tx s s' r :
  slash_from_equivocation_tx db tx s = (s', r) -> s'.(balance_delta) = s.(balance_delta) /\ s'.(supply) = s.(supply).
Proof.
  unfold slash_from_equivocation_tx. destruct (equivocation_accused db tx); [|by intros [= <- _]].
  case_bool_decide; [by intros [= <- _]|]. case_bool_decide; by intros [= <- _].
Qed.

Lemma slash_booked db tx s : exists bu, bu <= u64_max /\ booked s (apply_slash db tx s) 0 bu.
Proof.
  unfold apply_slash. destruct (slash_from_equivocation_tx db tx s) as [s' r] eqn:E.
  pose proof (slash_keeps _ _ _ _ _ E) as [Hd Hs]. destruct r as [[a n]|e].
  - exists n. split; [by eapply slash_le|]. apply booked_burn; deltas; [rewrite Hd; lia|].
    cbn [with_supply add_slashed supply]. by rewrite <-Hs.
  - exists 0. split; [unfold u64_max; lia|]. apply booked_id; by rewrite ?Hd.
Qed.

(** A transaction makes at most its amount and destroys at most a fee or a slash. *)
Lemma tx_booked db mine tx s :
  tx.(tx_amount) <= u64_max -> tx.(fee_uegoc) <= u64_max ->
  exists mi bu, mi <= u64_max /\ bu <= u64_max /\ booked s (apply_tx db mine s tx) mi bu.
Proof.
  intros Ha Hf. unfold apply_tx. assert (0 <= u64_max) by (unfold u64_max; lia).
  case_bool_decide; [exists 0, 0; split_and!; [done..|by apply booked_id]|].
  destruct (negb _); [exists 0, 0; split_and!; [done..|by apply booked_id]|].
  destruct (foundation_blocked _ _ _); [exists 0, 0; split_and!; [done..|by apply booked_id]|].
  pose proof (credited_le db tx s) as Hc. pose proof (credited_ordinary db tx s) as Hord. set (c := credited_amount db tx s) in *. clearbody c.
  destruct (is_unstake_tx tx); [exists 0, tx.(fee_uegoc); split_and!; [done..|apply unstake_booked]|].
  case_bool_decide; [destruct (slash_booked db tx s) as (bu & Hbu & Hb); by exists 0, bu|].
  destruct (pays_fee_from_amount tx).
  { exists 0, (Z.min tx.(fee_uegoc) c). split_and!; [done|lia|].
    apply booked_burn; deltas; [unfold sat_sub; lia|done]. }
  unfold apply_transfer. case_bool_decide.
  { exists c, 0. split_and!; [lia|done|]. apply booked_mint; deltas; [lia|done]. }
  destruct (is_reserved_system_source _); [|specialize (Hord eq_refl)].
  { exists 0, 0. split_and!; [done..|]. apply booked_id; deltas; [lia|done]. }
  exists 0, tx.(fee_uegoc). split_and!; [done..|].
  destruct (is_stake_tx tx); apply booked_burn; deltas; try lia; done.
Qed.

Definition books_ok (n : nat) s : Prop :=
  mtotal s.(balance_delta) = expected_net s.(supply) /\
  s.(supply).(minted_uegoc) <= Z.of_nat n * u64_max /\ s.(supply).(burned_uegoc) <= Z.of_nat n * u64_max.

Lemma books_step n db mine tx s :
  Z.of_nat n < u64_max -> tx.(tx_amount) <= u64_max -> tx.(fee_uegoc) <= u64_max ->
  books_ok n s -> books_ok (S n) (apply_tx db mine s tx).
Proof.
  intros Hn Ha Hf (Hd & Hmi & Hbu).
  destruct (tx_booked db mine tx s Ha Hf) as (mi & bu & Hmi' & Hbu' & Hd' & Hm & Hb).
  assert (forall x y, x <= Z.of_nat n * u64_max -> y <= u64_max ->
    x + y <= Z.of_nat (S n) * u64_max /\ x + y <= u128_max) as Hbound.
  { intros x y Hx Hy. assert (Z.of_nat n * u64_max <= (u64_max - 1) * u64_max)
      by (apply Z.mul_le_mono_nonneg_r; unfold u64_max in *; lia).
    unfold u64_max, u128_max in *. lia. }
  destruct (Hbound _ _ Hmi Hmi') as [Hm1 Hm2], (Hbound _ _ Hbu Hbu') as [Hb1 Hb2].
  unfold books_ok, expected_net in *. rewrite Hm, Hb, Hd', Hd by done. lia.
Qed.

Lemma books_run db mine txs n s :
  Z.of_nat n + Z.of_nat (length txs) <= u64_max ->
  Forall (fun tx => tx.(tx_amount) <= u64_max /\ tx.(fee_uegoc) <= u64_max) txs ->
  books_ok n s -> books_ok (n + length txs) (foldl (apply_tx db mine) s txs).
Proof.
  revert n s. induction txs as [|tx txs IH]; intros n s Hn Htxs Hs; [by rewrite Nat.add_0_r|].
  apply Forall_cons in Htxs as [[Ha Hf] Htxs]. cbn [foldl length] in *.
  replace (n + S (length txs))%nat with (S n + length txs)%nat by lia.
  apply IH; [lia|done|]. apply books_step; [lia|done..].
Qed.

(** ** The node pool's payments *)

Lemma foldl_keeps {A} (f : Applying -> A -> Applying) (l : list A) s :
  (forall s x, (f s x).(balance_delta) = s.(balance_delta) /\ (f s x).(supply) = s.(supply)) ->
  (foldl f s l).(balance_delta) = s.(balance_delta) /\ (foldl f s l).(supply) = s.(supply).
Proof.
  intros Hf. revert s. induction l as [|x l IH]; intros s; [done|]. cbn [foldl].
  destruct (IH (f s x)) as [-> ->]. apply Hf.
Qed.

Lemma pay_list_total (l : list (string * Z)) s :
  mtotal (foldl pay_one s l).(balance_delta) = mtotal s.(balance_delta) /\ (foldl pay_one s l).(supply) = s.(supply).
Proof.
  revert s. induction l as [|[a n] l IH]; intros s; [done|]. cbn [foldl].
  destruct (IH (pay_one s (a, n))) as [-> ->]. unfold pay_one. deltas. cbn [fst snd]. split; [lia|done].
Qed.

Lemma pay_list_at (l : list (string * Z)) s a :
  Forall (fun ap => 0 <= ap.2) l ->
  at_ s.(balance_delta) a - (if bool_decide (NODE_POOL_ADDR = a) then zsum l.*2 else 0)
    <= at_ (foldl pay_one s l).(balance_delta) a.
Proof.
  revert s. induction l as [|[b n] l IH]; intros s Hl.
  - cbn. case_bool_decide; lia.
  - apply Forall_cons in Hl as [Hn Hl]. cbn [foldl]. etrans; [|by apply IH].
    unfold pay_one. deltas. cbn [fst snd] in *. rewrite fmap_cons, zsum_cons. cbn [snd].
    repeat case_bool_decide; lia.
Qed.

Lemma cut_pay_ok left l :
  0 <= left -> Forall (fun ap => 0 <= ap.2) l ->
  Forall (fun ap => 0 <= ap.2) (cut_pay left l) /\ zsum (cut_pay left l).*2 <= left.
Proof.
  intros Hl Hpos. revert left Hl. induction Hpos as [|[h p] l Hp Hpos IH]; intros left Hleft; [done|].
  cbn [cut_pay snd] in *. destruct (IH (left - Z.min p left) ltac:(lia)) as [H1' H2'].
  rewrite fmap_app, zsum_app. split.
  - apply Forall_app. split; [|done]. case_bool_decide; [|done]. apply Forall_singleton. cbn. lia.
  - case_bool_decide; cbn [fmap list_fmap zsum foldr snd] in *; unfold zsum in *; lia.
Qed.

Lemma left_after (l : list (string * Z)) left :
  Forall (fun ap => 0 <= ap.2) l -> zsum l.*2 <= left ->
  foldl (fun left (ap : string * Z) => sat_sub left ap.2) left l = left - zsum l.*2.
Proof.
  intros Hl. revert left. induction Hl as [|[a n] l Hn Hl IH]; intros left Hleft; [cbn; lia|].
  cbn [foldl]. rewrite fmap_cons, zsum_cons in *. cbn [snd] in *.
  assert (0 <= zsum l.*2) by (apply zsum_nonneg; rewrite Forall_fmap; exact Hl).
  unfold sat_sub at 2. rewrite IH; lia.
Qed.

(** What [pay_nodes] adds is a list of payments out of the node pool. *)
Lemma pay_nodes_shape db mine height s :
  exists s' l, pay_nodes db mine height s = foldl pay_one s' l /\
    s'.(balance_delta) = s.(balance_delta) /\ s'.(supply) = s.(supply) /\
    (0 <= balance_of db NODE_POOL_ADDR + at_ s.(balance_delta) NODE_POOL_ADDR <= u64_max ->
     Forall (fun ap => 0 <= ap.2) node_due -> Forall (fun ap => 0 <= ap.2) storage_pay ->
     Forall (fun ap => 0 <= ap.2) l /\
     zsum l.*2 <= balance_of db NODE_POOL_ADDR + at_ s.(balance_delta) NODE_POOL_ADDR).
Proof.
  unfold pay_nodes. set (pool := balance_of db NODE_POOL_ADDR + _).
  set (credits := cut_pay (clamp64 pool) node_due).
  set (left := foldl _ (Z.max 0 pool) credits).
  set (storage := if bool_decide _ then cut_pay left storage_pay else []).
  eexists _, _. split; [reflexivity|].
  edestruct (foldl_keeps (fun s (ap : string * Z) => add_event mine ap.1 "storage" ap.2 "" s) storage) as [-> ->].
  { intros ??. by rewrite delta_event, supply_event. }
  edestruct (foldl_keeps (fun s (ap : string * Z) => add_event mine ap.1 "node" ap.2 "" s) credits) as [-> ->].
  { intros ??. by rewrite delta_event, supply_event. }
  split_and!; [done..|]. intros Hpool Hn Hst.
  destruct (cut_pay_ok (clamp64 pool) node_due) as [Hc1 Hc2]; [rewrite clamp64_id; lia|done|].
  fold credits in Hc1, Hc2. rewrite clamp64_id in Hc2 by done.
  assert (left = pool - zsum credits.*2) as Hleft.
  { subst left. rewrite Z.max_r by lia. by apply left_after. }
  destruct (cut_pay_ok left storage_pay) as [Hs1 Hs2]; [lia|done|].
  rewrite fmap_app, zsum_app, Forall_app. subst storage. case_bool_decide; [|cbn; lia || (split; [done|cbn; lia])].
  split; [done|lia].
Qed.

Lemma pay_nodes_books n db mine height s : books_ok n s -> books_ok n (pay_nodes db mine height s).
Proof.
  destruct (pay_nodes_shape db mine height s) as (s' & l & -> & Hd & Hs & _).
  unfold books_ok. destruct (pay_list_total l s') as [-> ->]. by rewrite Hd, Hs.
Qed.
End Facts.
