(* ===== verification/BalancesSim.v ===== *)
(** * Balances: the check and the write agree

    A block that passes [validate_block_protocol_txs] is written by
    [write_block_batch]: transaction by transaction, no address holds less in
    the written balances than in the simulated ones, apart from the pools the
    simulation leaves out, which pay at most what they hold. *)
From S2P Require Import Prelude Crypto Ledger RuleText Totals Balances BalancesFacts.
Local Open Scope string_scope.
Local Open Scope list_scope.
Local Open Scope Z_scope.
Local Open Scope ego_scope.

(** The pools that the simulation does not follow. *)
Definition unfollowed (a : string) : bool :=
  is_reserved_system_source a && negb (bool_decide (a = SHIELDED_POOL_ADDR)) &&
  negb (bool_decide (a = MARKET_ESCROW_ADDR)) && negb (bool_decide (a = STAKING_ADDR)).

Section Sim.
Context `{CryptoPrims} `{ChainPrims} `{ChainRules}.
Implicit Types (db : Db) (tx : LedgerTx) (s : Applying) (v : Simulated).

(** What a block may hold besides: see [accepted_block_conserves]. *)
Definition ordinary db tx : Prop :=
  0 <= tx.(tx_amount) <= u64_max /\ 0 <= tx.(fee_uegoc) <= u64_max /\
  tx.(tx_hash) ∉ db.(committed_txs) /\ takes_effect tx.(tx_hash) = true /\
  tx.(tx_from) <> FOUNDATION_ADDR /\ is_escrow_source tx.(tx_from) = false /\
  tx.(tx_type) <> "equivocation_proof".

(** An address' coins with the changes so far. *)
Definition now db s (a : string) : Z := balance_of db a + at_ s.(balance_delta) a.

Definition minted_by tx : Z := if bool_decide (tx.(tx_from) = "") then tx.(tx_amount) else 0.
Definition burned_by tx : Z :=
  if bool_decide (tx.(tx_from) = "") || is_protocol_system_tx tx then 0 else tx.(fee_uegoc).

(** ** The kinds of transactions the check lets through *)

Inductive Kind tx : Prop :=
| KPool : is_protocol_system_tx tx = true -> tx.(tx_from) = NODE_POOL_ADDR -> is_unstake_tx tx = false -> Kind tx
| KMint : is_protocol_system_tx tx = false -> tx.(tx_from) = "" ->
    (tx.(tx_type) <> "fee_distribution" -> tx.(tx_amount) = 0) -> Kind tx
| KFromPool : is_protocol_system_tx tx = false ->
    tx.(tx_from) = SHIELDED_POOL_ADDR \/ tx.(tx_from) = MARKET_ESCROW_ADDR -> is_unstake_tx tx = false -> Kind tx
| KUser : is_protocol_system_tx tx = false -> is_reserved_system_source tx.(tx_from) = false -> Kind tx.

Lemma unstake_type tx : tx.(tx_type) <> "unstake" -> is_unstake_tx tx = false.
Proof. intros Ht. unfold is_unstake_tx. by rewrite (bool_decide_eq_false_2 _ Ht). Qed.

Lemma check_source_kind db block txs tx :
  is_escrow_source tx.(tx_from) = false -> check_source db block txs tx = Ok tt -> Kind tx.
Proof.
  intros Hesc. unfold check_source. destruct (is_protocol_system_tx tx) eqn:Hp.
  - intros _. pose proof Hp as Hp'. unfold is_protocol_system_tx in Hp'. rewrite Hesc in Hp'. cbn [andb] in Hp'.
    rewrite orb_false_r in Hp'.
    apply orb_true_iff in Hp' as [[Ht Hf]%andb_true_iff|[[Hf _]%andb_true_iff Ht]%andb_true_iff];
      apply bool_decide_eq_true in Ht, Hf; apply KPool; [done..| |done|done|]; apply unstake_type; [by rewrite Ht|].
    intros E. rewrite E in Ht. set_solver.
  - destruct (is_reserved_system_source tx.(tx_from)) eqn:Hr; [|intros _; by apply KUser].
    destruct (negb _ && negb _ && negb (is_contributor_fee_tx tx) && negb _) eqn:E; [done|]. intros _.
    rewrite <-!negb_orb, negb_false_iff in E. rewrite !orb_true_iff, !andb_true_iff, !bool_decide_eq_true in E.
    destruct E as [[[[Ht Hf]|[Ht Hf]]|Hc]|Hb].
    + apply KFromPool; [done|by left|apply unstake_type; by rewrite Ht].
    + apply KFromPool; [done|by right|apply unstake_type; by rewrite Ht].
    + unfold is_contributor_fee_tx in Hc. rewrite !andb_true_iff, !bool_decide_eq_true in Hc.
      destruct Hc as [[[Ht Hf] _] _]. by apply KMint.
    + unfold is_batch_tx in Hb. rewrite !andb_true_iff, !bool_decide_eq_true in Hb.
      destruct Hb as [[[[Ht Hf] _] Ha] _]. by apply KMint.
Qed.

(** ** Reading the simulated balances *)

Lemma sim_set_balance db a n v b :
  sim_balance db (set_balance a n v) b = if bool_decide (a = b) then n else sim_balance db v b.
Proof.
  unfold sim_balance, entry_or. cbn [set_balance sim_balances].
  case_bool_decide; subst; [by rewrite lookup_insert_eq|by rewrite lookup_insert_ne].
Qed.

Lemma sim_credit db a n v b :
  sim_balance db (credit_sim db a n v) b =
  if bool_decide (a = b) then sat_add u64_max (sim_balance db v a) n else sim_balance db v b.
Proof. apply sim_set_balance. Qed.

Lemma sim_set_stake db a n v b : sim_balance db (set_stake a n v) b = sim_balance db v b.
Proof. done. Qed.

Lemma check_marks_balances db on tx v v' b :
  check_marks db on tx v = Ok v' -> sim_balance db v' b = sim_balance db v b.
Proof. unfold check_marks. destruct on; [|by intros ->%Ok_inj]. destruct (_ && _); [done|]. by intros <-%Ok_inj. Qed.

Lemma sim_nonce_balances db tx v v' b :
  sim_nonce db tx v = Ok v' -> sim_balance db v' b = sim_balance db v b.
Proof.
  unfold sim_nonce. case_bool_decide; [|by intros ->%Ok_inj]. case_bool_decide; [done|]. by intros <-%Ok_inj.
Qed.

(** ** The invariant *)

Definition agree db v s : Prop :=
  (forall a, 0 <= now db s a) /\
  (forall a, unfollowed a = false -> 0 <= sim_balance db v a <= now db s a).

(** Every coin there is and will be fits in a [u64]. *)
Definition fits db s (more : Z) : Prop := mtotal db.(balances) + mtotal s.(balance_delta) + more < u64_max.

Lemma agree_ext db v v' s :
  (forall a, sim_balance db v' a = sim_balance db v a) -> agree db v s -> agree db v' s.
Proof. intros E [Hp Hv]. split; [done|]. intros a Ha. rewrite E. by apply Hv. Qed.

Lemma now_lt db v s more a : agree db v s -> fits db s more -> 0 <= more -> 0 <= now db s a < u64_max.
Proof.
  intros [Hp _] Hf Hm. unfold fits in Hf. split; [apply Hp|]. unfold now.
  pose proof (mtotal_bound db.(balances) s.(balance_delta) a) as Hb. unfold balance_of.
  assert (at_ db.(balances) a + at_ s.(balance_delta) a <= mtotal db.(balances) + mtotal s.(balance_delta)) by
    (apply Hb; intros b; apply Hp). lia.
Qed.

Lemma effective_is_now db v s more a : agree db v s -> fits db s more -> 0 <= more -> effective db s a = now db s a.
Proof. intros Ha Hf Hm. pose proof (now_lt db v s more a Ha Hf Hm). apply clamp64_id. unfold now in *. lia. Qed.

Lemma now_add db a n s b : now db (add_delta a n s) b = now db s b + if bool_decide (a = b) then n else 0.
Proof. unfold now. rewrite at_add_delta. lia. Qed.
Lemma now_supply db f s b : now db (with_supply f s) b = now db s b.
Proof. done. Qed.
Lemma now_stake db a n s b : now db (set_stake_sim a n s) b = now db s b.
Proof. done. Qed.
Lemma now_count db s b : now db (count_tx s) b = now db s b.
Proof. done. Qed.
Lemma now_event db mine a k n h s b : now db (add_event mine a k n h s) b = now db s b.
Proof. unfold now. by rewrite delta_event. Qed.

(** What [apply_tx] does with a transaction that is applied. *)
Lemma apply_ordinary db mine tx s :
  ordinary db tx ->
  apply_tx db mine s tx =
  count_tx
    (if is_unstake_tx tx then apply_unstake db mine tx s
     else if pays_fee_from_amount tx then
       with_supply (burn (Z.min tx.(fee_uegoc) (credited_amount db tx s)))
         (add_delta tx.(tx_from) (- credited_amount db tx s)
            (add_delta tx.(tx_to) (sat_sub (credited_amount db tx s) tx.(fee_uegoc)) s))
     else apply_transfer db tx (credited_amount db tx s) s).
Proof.
  intros (_ & _ & Hfresh & Heff & Hfound & _ & Heq). unfold apply_tx.
  rewrite (bool_decide_eq_false_2 _ Hfresh), Heff. cbn [negb]. unfold foundation_blocked.
  rewrite (bool_decide_eq_false_2 _ Hfound). cbn [andb]. by rewrite (bool_decide_eq_false_2 _ Heq).
Qed.

Lemma unfollowed_reserved a : unfollowed a = true -> is_reserved_system_source a = true.
Proof. unfold unfollowed. rewrite !andb_true_iff. tauto. Qed.

(** A pool of the protocol pays at most what it holds. *)
Lemma credited_pool db v s more tx :
  agree db v s -> fits db s more -> 0 <= more -> 0 <= tx.(tx_amount) ->
  is_reserved_system_source tx.(tx_from) = true -> tx.(tx_from) <> "" ->
  credited_amount db tx s = Z.min tx.(tx_amount) (now db s tx.(tx_from)).
Proof.
  intros Ha Hf Hm Hamt Hr Hne. unfold credited_amount. rewrite Hr, (bool_decide_eq_true_2 _ Hne). cbn [andb].
  rewrite (effective_is_now db v s more) by done. case_bool_decide; [done|].
  destruct Ha as [Hp _]. specialize (Hp tx.(tx_from)). lia.
Qed.
End Sim.
#[export] Hint Rewrite @now_add @now_supply @now_stake @now_count @now_event @sim_set_balance @sim_credit
  @sim_set_stake : nows.

(** ** One transaction *)

Section Steps.
Context `{CryptoPrims} `{ChainPrims} `{ChainRules}.
Implicit Types (db : Db) (tx : LedgerTx) (s : Applying) (v : Simulated).

(** A transaction adds no more than it mints, and burns its fee when the
    amount pays it. *)
Definition moved tx s s' : Prop :=
  mtotal s'.(balance_delta) <= mtotal s.(balance_delta) + minted_by tx /\
  ((pays_fee_from_amount tx = true -> tx.(fee_uegoc) <= tx.(tx_amount)) ->
   mtotal s'.(balance_delta) = mtotal s.(balance_delta) + minted_by tx - burned_by tx).

(** The invariant after a step that says how each side changed. *)
Lemma agree_step db v v' s s' :
  agree db v s ->
  (forall a, unfollowed a = true -> 0 <= now db s' a) ->
  (forall a, unfollowed a = false -> 0 <= sim_balance db v a <= now db s a -> 0 <= sim_balance db v' a <= now db s' a) ->
  agree db v' s'.
Proof.
  intros [Hp Hv] Hun Hf. assert (forall a, unfollowed a = false -> 0 <= sim_balance db v' a <= now db s' a) as Hf' by auto.
  split; [|done]. intros a. destruct (unfollowed a) eqn:E; [auto|]. specialize (Hf' a E). lia.
Qed.

Ltac step_cases tx :=
  intros; autorewrite with nows; unfold sat_add, sat_sub in *;
  set (f := tx.(tx_from)) in *; set (t := tx.(tx_to)) in *; clearbody f t;
  repeat case_bool_decide; subst; try lia; try congruence; try discriminate;
  try (match goal with Hu : unfollowed _ = _ |- _ => vm_compute in Hu; discriminate Hu end).

Lemma step_pool db mine tx v s :
  agree db v s -> fits db s (minted_by tx) -> ordinary db tx ->
  is_protocol_system_tx tx = true -> tx.(tx_from) = NODE_POOL_ADDR -> is_unstake_tx tx = false ->
  agree db v (apply_tx db mine s tx) /\ moved tx s (apply_tx db mine s tx).
Proof.
  intros Ha Hfit Hord Hp Hfrom Hun. pose proof Hord as (Hamt & Hfee & _).
  assert (Hmb : minted_by tx = 0) by (unfold minted_by; by rewrite Hfrom).
  assert (Hpays : pays_fee_from_amount tx = false).
  { unfold pays_fee_from_amount, is_unshield, is_market_settle. by rewrite Hfrom. }
  rewrite apply_ordinary, Hun, Hpays by done.
  rewrite (credited_pool db v s (minted_by tx)) by (first [done|lia|by rewrite Hfrom]).
  set (c := Z.min _ _). assert (Hc : 0 <= c <= now db s NODE_POOL_ADDR).
  { subst c. rewrite Hfrom. destruct Ha as [Hpos _]. specialize (Hpos NODE_POOL_ADDR). lia. }
  clearbody c. unfold apply_transfer. rewrite Hfrom, bool_decide_eq_false_2 by done.
  change (is_reserved_system_source NODE_POOL_ADDR) with true. cbn iota. split.
  - destruct Ha as [Hpos Hv]. apply (agree_step db v v s); [done| |]; intros a Hua; specialize (Hpos a);
      step_cases tx.
  - unfold moved, burned_by. rewrite Hmb, Hp, orb_true_r. deltas. lia.
Qed.

Lemma step_mint db mine tx v s :
  agree db v s -> ordinary db tx -> is_protocol_system_tx tx = false -> tx.(tx_from) = "" ->
  agree db v (apply_tx db mine s tx) /\ moved tx s (apply_tx db mine s tx).
Proof.
  intros Ha Hord Hp Hfrom. pose proof Hord as (Hamt & Hfee & _).
  assert (Hmb : minted_by tx = tx.(tx_amount)) by (unfold minted_by; by rewrite Hfrom).
  assert (Hpays : pays_fee_from_amount tx = false).
  { unfold pays_fee_from_amount, is_unshield, is_market_settle. by rewrite Hfrom. }
  assert (Hun : is_unstake_tx tx = false).
  { unfold is_unstake_tx. rewrite Hfrom. by rewrite andb_false_r. }
  assert (Hcr : credited_amount db tx s = tx.(tx_amount)) by (unfold credited_amount; by rewrite Hfrom).
  rewrite apply_ordinary, Hun, Hpays, Hcr by done. unfold apply_transfer. rewrite Hfrom, bool_decide_eq_true_2 by done.
  split.
  - destruct Ha as [Hpos Hv]. apply (agree_step db v v s); [done| |]; intros a Hua; specialize (Hpos a); step_cases tx.
  - unfold moved, burned_by. rewrite Hmb, Hfrom. deltas. cbn [bool_decide]. 
    rewrite bool_decide_eq_true_2 by done. cbn [orb]. lia.
Qed.

Lemma step_from_pool db mine tx v v' s :
  agree db v s -> fits db s (minted_by tx) -> ordinary db tx ->
  is_protocol_system_tx tx = false -> tx.(tx_from) = SHIELDED_POOL_ADDR \/ tx.(tx_from) = MARKET_ESCROW_ADDR ->
  is_unstake_tx tx = false -> sim_emission db tx v = Ok v' ->
  agree db v' (apply_tx db mine s tx) /\ moved tx s (apply_tx db mine s tx).
Proof.
  intros Ha Hfit Hord Hp Hfrom Hun Hsim. pose proof Hord as (Hamt & Hfee & _).
  assert (Hne : tx.(tx_from) <> "") by (by destruct Hfrom as [-> | ->]).
  assert (Hr : is_reserved_system_source tx.(tx_from) = true) by (by destruct Hfrom as [-> | ->]).
  assert (Hfol : unfollowed tx.(tx_from) = false) by (by destruct Hfrom as [-> | ->]).
  assert (Hmb : minted_by tx = 0) by (unfold minted_by; by rewrite bool_decide_eq_false_2).
  assert (Hpays : pays_fee_from_amount tx = true).
  { unfold pays_fee_from_amount, is_unshield, is_market_settle. destruct Hfrom as [-> | ->]; done. }
  unfold sim_emission in Hsim. case_bool_decide as Hpool; [done|]. apply Ok_inj in Hsim.
  pose proof (proj2 Ha _ Hfol) as Hsp.
  rewrite apply_ordinary, Hun, Hpays by done.
  assert (credited_amount db tx s = tx.(tx_amount)) as ->.
  { rewrite (credited_pool db v s (minted_by tx)) by (first [done|lia]). lia. }
  split.
  - subst v'. unfold credited_to_recipient. rewrite Hpays. destruct Ha as [Hpos Hv].
    apply (agree_step db v _ s); [done| |]; intros a Hua; specialize (Hpos a); [step_cases tx|].
    intros Hva. case_bool_decide; step_cases tx.
  - unfold moved, burned_by. rewrite Hmb, Hp, (bool_decide_eq_false_2 _ Hne). deltas. unfold sat_sub. cbn [orb].
    split; [lia|]. intros Hle. specialize (Hle Hpays). lia.
Qed.

Lemma unstake_credit_range tx : 0 <= tx.(tx_amount) -> 0 <= unstake_credit_amount tx.
Proof. intros Ha. unfold unstake_credit_amount, sat_sub. case_bool_decide; lia. Qed.

Lemma reward_range db v s more tx s' :
  agree db v s -> fits db s more -> 0 <= more -> now db s' STAKING_POOL_ADDR = now db s STAKING_POOL_ADDR ->
  0 <= staking_reward_for_unstake db tx s' <= now db s STAKING_POOL_ADDR.
Proof.
  intros Ha Hf Hm Hs. pose proof (now_lt db v s more STAKING_POOL_ADDR Ha Hf Hm) as Hn.
  assert (effective db s' STAKING_POOL_ADDR = now db s STAKING_POOL_ADDR) as Heff.
  { unfold effective. rewrite clamp64_id; [done|]. unfold now in *. lia. }
  unfold staking_reward_for_unstake. destruct (_ !! _) as [[start days]|]; [|lia].
  rewrite Heff. set (e := staking_reward_uegoc _ _ _). assert (0 <= e).
  { subst e. unfold staking_reward_uegoc. destruct (_ || _); [lia|].
    apply Z.mod_pos_bound. unfold u64_max. lia. }
  clearbody e. case_bool_decide; lia.
Qed.

Lemma user_source tx :
  is_reserved_system_source tx.(tx_from) = false ->
  tx.(tx_from) <> "" /\ tx.(tx_from) <> STAKING_ADDR /\ tx.(tx_from) <> STAKING_POOL_ADDR /\
  unfollowed tx.(tx_from) = false /\ pays_fee_from_amount tx = false.
Proof.
  intros Hr. assert (forall a, is_reserved_system_source a = true -> tx.(tx_from) <> a) as Hne
    by (intros a Ha E; congruence).
  split_and!; try (by apply Hne). - unfold unfollowed. by rewrite Hr.
  - unfold pays_fee_from_amount, is_unshield, is_market_settle.
    rewrite !bool_decide_eq_false_2; [done|by apply Hne..].
Qed.

Lemma step_unstake db mine tx v v' s :
  agree db v s -> fits db s (minted_by tx) -> ordinary db tx ->
  is_protocol_system_tx tx = false -> is_reserved_system_source tx.(tx_from) = false ->
  is_unstake_tx tx = true -> sim_unstake db tx v = Ok v' ->
  agree db v' (apply_tx db mine s tx) /\ moved tx s (apply_tx db mine s tx).
Proof.
  intros Ha Hfit Hord Hp Hr Hun Hsim. pose proof Hord as (Hamt & Hfee & _).
  destruct (user_source tx Hr) as (Hne & Hns & Hnsp & Hfol & Hpays).
  assert (Hmb : minted_by tx = 0) by (unfold minted_by; by rewrite bool_decide_eq_false_2).
  pose proof (unstake_credit_range tx ltac:(lia)) as Hcr.
  unfold sim_unstake in Hsim. destruct (_ || _); [done|]. case_bool_decide as Hcf; [done|].
  case_bool_decide as Hst; [done|]. apply Ok_inj in Hsim.
  rewrite apply_ordinary, Hun by done. unfold apply_unstake.
  set (s1 := add_delta STAKING_ADDR _ _) in *.
  assert (0 <= staking_reward_for_unstake db tx s1 <= now db s STAKING_POOL_ADDR) as Hrew.
  { apply (reward_range db v s (minted_by tx)); [done|done|lia|]. subst s1. autorewrite with nows.
    rewrite !bool_decide_eq_false_2 by done. lia. }
  set (r := staking_reward_for_unstake db tx s1) in *. clearbody r. set (credit := unstake_credit_amount tx) in *.
  pose proof (proj2 Ha _ Hfol) as Hsf. pose proof (proj2 Ha STAKING_ADDR eq_refl) as Hss.
  split.
  - subst v'. destruct Ha as [Hpos Hv].
    apply (agree_step db v _ s); [done| |]; intros a Hua; specialize (Hpos a); subst s1 credit; clear Hord Hv.
    + case_bool_decide; step_cases tx.
    + intros Hva. case_bool_decide; step_cases tx.
  - subst s1. unfold moved, burned_by. rewrite Hmb, Hp, (bool_decide_eq_false_2 _ Hne). cbn [orb].
    case_bool_decide; deltas; lia.
Qed.

(** What a transfer between users moves. *)
Lemma transfer_delta db tx s :
  is_reserved_system_source tx.(tx_from) = false -> tx.(tx_from) <> "" ->
  (forall b, now db (apply_transfer db tx tx.(tx_amount) s) b =
     now db (add_delta tx.(tx_from) (- (tx.(tx_amount) + tx.(fee_uegoc))) (add_delta tx.(tx_to) tx.(tx_amount) s)) b) /\
  mtotal (apply_transfer db tx tx.(tx_amount) s).(balance_delta) = mtotal s.(balance_delta) - tx.(fee_uegoc).
Proof.
  intros Hr Hne. unfold apply_transfer. rewrite (bool_decide_eq_false_2 _ Hne), Hr.
  destruct (is_stake_tx tx); split; intros; deltas; try lia; done.
Qed.

Lemma step_transfer db mine tx v v' s :
  agree db v s -> fits db s (minted_by tx) -> ordinary db tx ->
  is_protocol_system_tx tx = false -> is_reserved_system_source tx.(tx_from) = false ->
  is_unstake_tx tx = false -> sim_transfer db tx v = Ok v' ->
  agree db v' (apply_tx db mine s tx) /\ moved tx s (apply_tx db mine s tx).
Proof.
  intros Ha Hfit Hord Hp Hr Hun Hsim. pose proof Hord as (Hamt & Hfee & _).
  destruct (user_source tx Hr) as (Hne & Hns & Hnsp & Hfol & Hpays).
  assert (Hmb : minted_by tx = 0) by (unfold minted_by; by rewrite bool_decide_eq_false_2).
  unfold sim_transfer in Hsim. case_bool_decide as Hbal; [done|]. apply Ok_inj in Hsim.
  pose proof (proj2 Ha _ Hfol) as Hsf.
  pose proof (now_lt db v s (minted_by tx) tx.(tx_from) Ha Hfit ltac:(lia)) as Hlt.
  assert (Hreq : sat_add u64_max tx.(tx_amount) tx.(fee_uegoc) = tx.(tx_amount) + tx.(fee_uegoc)).
  { unfold sat_add in *. lia. }
  rewrite Hreq in *.
  rewrite apply_ordinary, Hun, Hpays, credited_ordinary by done.
  destruct (transfer_delta db tx s Hr Hne) as [Hd Ht].
  split.
  - subst v'. destruct Ha as [Hpos Hv].
    apply (agree_step db v _ s); [done| |]; intros a Hua; specialize (Hpos a); rewrite now_count, Hd; clear Hord Hv Hd Ht.
    + step_cases tx.
    + intros Hva. destruct (bool_decide (tx.(tx_to) <> "") && _); step_cases tx.
  - unfold moved, burned_by. rewrite delta_count, Ht, Hmb, Hp, (bool_decide_eq_false_2 _ Hne). cbn [orb]. lia.
Qed.

(** Any transaction the check lets through. *)
Lemma step_ok db mine height tx v v' s :
  agree db v s -> fits db s (minted_by tx) -> ordinary db tx -> Kind tx -> simulate_tx db height tx v = Ok v' ->
  agree db v' (apply_tx db mine s tx) /\ moved tx s (apply_tx db mine s tx).
Proof.
  intros Ha Hfit Hord Hk Hsim. unfold simulate_tx in Hsim. apply result_bind_Ok in Hsim as (v1 & Hmarks & Hsim).
  apply (agree_ext db v v1) in Ha; [|intros a; by eapply check_marks_balances]. clear Hmarks.
  destruct Hk as [Hp Hfrom Hun|Hp Hfrom _|Hp Hfrom Hun|Hp Hr]; rewrite Hp in Hsim.
  - apply Ok_inj in Hsim as <-. by apply step_pool.
  - rewrite (bool_decide_eq_false_2 (tx.(tx_from) <> "")), (bool_decide_eq_true_2 (tx.(tx_from) = "")) in Hsim by tauto.
    apply Ok_inj in Hsim as <-. by apply step_mint.
  - rewrite bool_decide_eq_true_2 in Hsim by (by destruct Hfrom as [-> | ->]).
    replace (is_reserved_system_source tx.(tx_from)) with true in Hsim by (by destruct Hfrom as [-> | ->]).
    by eapply step_from_pool.
  - rewrite Hr, andb_false_r in Hsim. destruct (user_source tx Hr) as (Hne & _).
    rewrite (bool_decide_eq_false_2 _ Hne) in Hsim. apply result_bind_Ok in Hsim as (v2 & Hsim & Hnonce).
    assert (agree db v2 (apply_tx db mine s tx) /\ moved tx s (apply_tx db mine s tx)) as [Hag Hmv].
    { destruct (is_unstake_tx tx) eqn:Hun; [by eapply step_unstake|by eapply step_transfer]. }
    split; [|done]. eapply agree_ext; [|done]. intros a. by eapply sim_nonce_balances.
Qed.

Definition burns_its_fee tx : Prop := pays_fee_from_amount tx = true -> tx.(fee_uegoc) <= tx.(tx_amount).

Lemma minted_nonneg db tx : ordinary db tx -> 0 <= minted_by tx.
Proof. intros (Hamt & _). unfold minted_by. case_bool_decide; lia. Qed.

Lemma minted_all_nonneg db txs : Forall (ordinary db) txs -> 0 <= zsum (minted_by <$> txs).
Proof.
  intros Hord. apply zsum_nonneg, Forall_fmap. eapply Forall_impl; [exact Hord|]. intros t Ht. by eapply minted_nonneg.
Qed.

(** A whole block. *)
Lemma run_ok db mine height txs v v' s :
  agree db v s -> fits db s (zsum (minted_by <$> txs)) -> Forall (ordinary db) txs -> Forall Kind txs ->
  simulate db height txs v = Ok v' ->
  let s' := foldl (apply_tx db mine) s txs in
  agree db v' s' /\ fits db s' 0 /\
  (Forall burns_its_fee txs ->
   mtotal s'.(balance_delta) = mtotal s.(balance_delta) + zsum (minted_by <$> txs) - zsum (burned_by <$> txs)).
Proof.
  revert v s. induction txs as [|tx txs IH]; intros v s Ha Hfit Hord Hk Hsim.
  - cbn in *. apply Ok_inj in Hsim as <-. split_and!; [done..|]. intros _. lia.
  - apply Forall_cons in Hord as [Ho Hord], Hk as [Hk1 Hk]. rewrite fmap_cons, zsum_cons in Hfit.
    cbn [simulate] in Hsim. apply result_bind_Ok in Hsim as (v1 & Hs1 & Hsim).
    pose proof (minted_all_nonneg db txs Hord).
    destruct (step_ok db mine height tx v v1 s) as [Ha1 [Hm1 Hm2]]; [done|unfold fits in *; lia|done..|].
    cbn [foldl]. destruct (IH v1 (apply_tx db mine s tx)) as (Ha' & Hf' & Hmt); [done|unfold fits in *; lia|done..|].
    split_and!; [done..|]. intros [Hb1 Hb]%Forall_cons. rewrite (Hmt Hb), (Hm2 Hb1), !fmap_cons, !zsum_cons. lia.
Qed.

(** ** What is written *)

Lemma pay_nodes_ok db mine height v s :
  agree db v s -> fits db s 0 -> Forall (fun ap => 0 <= ap.2) node_due -> Forall (fun ap => 0 <= ap.2) storage_pay ->
  let s' := pay_nodes db mine height s in
  (forall a, 0 <= now db s' a <= u64_max) /\ mtotal s'.(balance_delta) = mtotal s.(balance_delta).
Proof.
  intros Ha Hfit Hn Hst. pose proof (now_lt db v s 0 NODE_POOL_ADDR Ha Hfit ltac:(lia)) as Hnp.
  destruct (pay_nodes_shape db mine height s) as (s1 & l & -> & Hd & _ & Hl). cbn zeta.
  destruct Hl as [Hpos Hsum]; [unfold now in Hnp; lia|done..|].
  destruct (pay_list_total l s1) as [Ht _]. rewrite Hd in Ht. split; [|done].
  assert (forall a, 0 <= now db (foldl pay_one s1 l) a) as Hnow.
  { intros a. unfold now. pose proof (pay_list_at l s1 a Hpos) as Hat. rewrite Hd in Hat.
    destruct Ha as [Hp _]. specialize (Hp a). unfold now in Hp. case_bool_decide; [subst a|]; lia. }
  intros a. split; [apply Hnow|]. pose proof (mtotal_bound db.(balances) (foldl pay_one s1 l).(balance_delta) a Hnow).
  unfold now, balance_of, fits in *. lia.
Qed.

Lemma write_at db s l m a :
  at_ (foldl (write_balance db s) m l) a = if bool_decide (a ∈ l) then new_balance db s a else at_ m a.
Proof.
  revert m. induction l as [|b l IH]; intros m; [by rewrite bool_decide_eq_false_2 by set_solver|].
  cbn [foldl]. rewrite IH. destruct (decide (a ∈ l)) as [Hin|Hnin].
  - by rewrite !bool_decide_eq_true_2 by set_solver.
  - rewrite (bool_decide_eq_false_2 (a ∈ l)) by done. unfold write_balance.
    destruct (decide (b = a)) as [->|Hne].
    + rewrite (bool_decide_eq_true_2 (a ∈ a :: l)) by set_solver.
      destruct (decide (new_balance db s a = 0)) as [Hz|Hz].
      * rewrite bool_decide_eq_true_2, at_delete, bool_decide_eq_true_2 by done. lia.
      * by rewrite bool_decide_eq_false_2, at_insert_eq.
    + rewrite (bool_decide_eq_false_2 (a ∈ b :: l)) by set_solver.
      destruct (decide (new_balance db s b = 0)) as [Hz|Hz].
      * by rewrite bool_decide_eq_true_2, at_delete, bool_decide_eq_false_2.
      * by rewrite bool_decide_eq_false_2, at_insert_ne.
Qed.

Lemma touched_spec s a : a ∈ touched s <-> a ∈ dom s.(balance_delta).
Proof.
  unfold touched. rewrite list_elem_of_fmap, elem_of_dom. split.
  - intros ([b n] & -> & Hin%elem_of_map_to_list). by exists n.
  - intros [n Hn]. exists (a, n). by rewrite elem_of_map_to_list.
Qed.

(** Nothing is clamped when no sum leaves the range. *)
Lemma write_exact db s a :
  (forall b, 0 <= now db s b <= u64_max) -> at_ (write_balances db s) a = now db s a.
Proof.
  intros Hr. unfold write_balances. rewrite write_at. case_bool_decide as Hin.
  - unfold new_balance, effective. apply clamp64_id, Hr.
  - rewrite touched_spec in Hin. unfold now. rewrite (at_not_dom s.(balance_delta)) by done.
    unfold balance_of. lia.
Qed.

Lemma written_total db s :
  (forall b, 0 <= now db s b <= u64_max) ->
  mtotal (write_balances db s) = mtotal db.(balances) + mtotal s.(balance_delta).
Proof. intros Hr. apply mtotal_plus. intros a. by rewrite write_exact. Qed.

Lemma no_balance_report db height s :
  (forall b, 0 <= now db s b <= u64_max) ->
  omap (fun a => balance_violation height a (balance_of db a) (at_ s.(balance_delta) a)) (touched s) = [].
Proof.
  intros Hr. induction (touched s) as [|a l IH]; [done|]. cbn. unfold balance_violation at 1.
  rewrite bool_decide_eq_true_2 by apply (Hr a). exact IH.
Qed.
End Steps.
