(* ===== verification/BalancesReorg.v ===== *)
(** * Balances: removing a block

    What each transaction moves, as a function of the transaction alone, both
    when its block is written and when a reorganisation removes it. *)
From S2P Require Import Prelude Crypto Ledger RuleText Totals Balances BalancesFacts BalancesSim.
Local Open Scope string_scope.
Local Open Scope list_scope.
Local Open Scope Z_scope.
Local Open Scope ego_scope.

Section Reorg.
Context `{CryptoPrims} `{ChainPrims} `{ChainRules}.
Implicit Types (db : Db) (tx : LedgerTx) (s : Applying) (v : Simulated).

(** [n] at one address. *)
Definition only (a : string) (n : Z) (b : string) : Z := if bool_decide (a = b) then n else 0.

(** What a transaction that is paid in full moves. *)
Definition effect tx (b : string) : Z :=
  if is_unstake_tx tx then
    only tx.(tx_from) (unstake_credit_amount tx - tx.(fee_uegoc)) b - only STAKING_ADDR (unstake_credit_amount tx) b
  else if pays_fee_from_amount tx then
    only tx.(tx_to) (sat_sub tx.(tx_amount) tx.(fee_uegoc)) b - only tx.(tx_from) tx.(tx_amount) b
  else
    only tx.(tx_to) tx.(tx_amount) b -
    (if bool_decide (tx.(tx_from) = "") then 0
     else if is_reserved_system_source tx.(tx_from) then only tx.(tx_from) tx.(tx_amount) b
     else only tx.(tx_from) (tx.(tx_amount) + tx.(fee_uegoc)) b).

Definition from_node_pool tx : Z := if bool_decide (tx.(tx_from) = NODE_POOL_ADDR) then tx.(tx_amount) else 0.

Lemma at_rev_add a n m b : at_ (rev_add a n m) b = at_ m b + only a n b.
Proof. unfold rev_add, only. rewrite at_insert. case_bool_decide; subst; lia. Qed.

Lemma only_opp a n b : only a (- n) b = - only a n b.
Proof. unfold only. case_bool_decide; lia. Qed.

(** Evaluate the tests on a known source. *)
Ltac source_flags :=
  repeat match goal with
  | |- context [bool_decide (?a = ?b :> string)] =>
      let r := eval vm_compute in (bool_decide (a = b :> string)) in
      lazymatch r with true => idtac | false => idtac end; change (bool_decide (a = b :> string)) with r
  | |- context [is_reserved_system_source ?a] =>
      let r := eval vm_compute in (is_reserved_system_source a) in
      lazymatch r with true => idtac | false => idtac end; change (is_reserved_system_source a) with r
  end; cbn [orb negb].

(** The reversal takes back what the transaction moves. *)
Lemma reverse_effect tx m b :
  Kind tx -> tx.(tx_type) <> "equivocation_proof" ->
  at_ (reorg_reverse_balance_delta m tx) b = at_ m b - effect tx b.
Proof.
  intros Hk Heq. unfold reorg_reverse_balance_delta. rewrite (bool_decide_eq_false_2 _ Heq).
  unfold effect, credited_to_recipient, pays_fee_from_amount, is_unshield, is_market_settle.
  destruct Hk as [_ Hf Hun|_ Hf _|_ Hf Hun|_ Hr].
  - rewrite Hun, Hf. source_flags. rewrite !at_rev_add, only_opp. lia.
  - assert (is_unstake_tx tx = false) as -> by (unfold is_unstake_tx; by rewrite Hf, andb_false_r).
    rewrite Hf. source_flags. rewrite at_rev_add, only_opp. lia.
  - rewrite Hun. destruct Hf as [Hf|Hf]; rewrite Hf; source_flags; rewrite !at_rev_add, only_opp; lia.
  - assert (forall a, is_reserved_system_source a = true -> bool_decide (tx.(tx_from) = a) = false) as Hne
      by (intros a Ha; apply bool_decide_eq_false_2; congruence).
    rewrite !(Hne SHIELDED_POOL_ADDR), !(Hne MARKET_ESCROW_ADDR), !(Hne NODE_POOL_ADDR), !(Hne "") by done.
    cbn [orb negb]. rewrite Hr. destruct (is_unstake_tx tx); rewrite !at_rev_add, only_opp; lia.
Qed.

Lemma reverse_all txs m b :
  Forall Kind txs -> Forall (fun tx => tx.(tx_type) <> "equivocation_proof") txs ->
  at_ (foldl reorg_reverse_balance_delta m txs) b = at_ m b - zsum ((fun tx => effect tx b) <$> txs).
Proof.
  intros Hk. revert m. induction Hk as [|tx txs Hk1 Hk IH]; intros m Ht; [cbn; lia|].
  apply Forall_cons in Ht as [Ht1 Ht]. cbn [foldl]. rewrite IH, reverse_effect, fmap_cons, zsum_cons by done. lia.
Qed.

(** ** What is written *)

(** Nothing is cut short when the node pool can pay. *)
Lemma credited_full db height v v' s tx :
  agree db v s -> fits db s (minted_by tx) -> ordinary db tx -> Kind tx ->
  from_node_pool tx <= now db s NODE_POOL_ADDR -> simulate_tx db height tx v = Ok v' ->
  credited_amount db tx s = tx.(tx_amount).
Proof.
  intros Ha Hfit Hord Hk Hnp Hsim. pose proof (minted_nonneg _ _ Hord) as Hmn. pose proof Hord as (Hamt & _).
  destruct Hk as [_ Hf _|_ Hf _|Hp Hf _|_ Hr].
  - rewrite (credited_pool db v s (minted_by tx)) by (first [done|lia|by rewrite Hf]).
    unfold from_node_pool in Hnp. rewrite (bool_decide_eq_true_2 _ Hf) in Hnp. rewrite Hf. lia.
  - unfold credited_amount. by rewrite Hf.
  - assert (Hne : tx.(tx_from) <> "") by (by destruct Hf as [-> | ->]).
    assert (Hr : is_reserved_system_source tx.(tx_from) = true) by (by destruct Hf as [-> | ->]).
    assert (Hfol : unfollowed tx.(tx_from) = false) by (by destruct Hf as [-> | ->]).
    rewrite (credited_pool db v s (minted_by tx)) by (first [done|lia]).
    unfold simulate_tx in Hsim. apply result_bind_Ok in Hsim as (v1 & Hm & Hsim).
    rewrite Hp, Hr, bool_decide_eq_true_2 in Hsim by done. cbn [andb] in Hsim. unfold sim_emission in Hsim.
    case_bool_decide as Hpool; [done|]. rewrite (check_marks_balances _ _ _ _ _ _ Hm) in Hpool.
    pose proof (proj2 Ha _ Hfol). lia.
  - by apply credited_ordinary.
Qed.

(** An unstake without a stake's start earns no reward. *)
Definition no_reward db tx : Prop := is_unstake_tx tx = true -> db.(stake_meta) !! tx.(tx_from) = None.

Lemma write_effect db mine height v v' s tx b :
  agree db v s -> fits db s (minted_by tx) -> ordinary db tx -> Kind tx ->
  from_node_pool tx <= now db s NODE_POOL_ADDR -> no_reward db tx -> simulate_tx db height tx v = Ok v' ->
  at_ (apply_tx db mine s tx).(balance_delta) b = at_ s.(balance_delta) b + effect tx b.
Proof.
  intros Ha Hfit Hord Hk Hnp Hnr Hsim. rewrite apply_ordinary by done.
  rewrite (credited_full db height v v' s tx) by done. unfold effect, no_reward in *.
  destruct (is_unstake_tx tx).
  - unfold apply_unstake, staking_reward_for_unstake. rewrite Hnr by done. cbn [bool_decide].
    rewrite bool_decide_eq_false_2 by lia. deltas. unfold only. repeat case_bool_decide; lia.
  - destruct (pays_fee_from_amount tx); [deltas; unfold only; repeat case_bool_decide; lia|].
    unfold apply_transfer. destruct (decide (tx.(tx_from) = "")) as [Hf|Hf].
    + rewrite (bool_decide_eq_true_2 _ Hf). deltas. unfold only. case_bool_decide; lia.
    + rewrite (bool_decide_eq_false_2 _ Hf). destruct (is_reserved_system_source _); [|destruct (is_stake_tx tx)];
        deltas; unfold only; repeat case_bool_decide; lia.
Qed.

Lemma node_pool_left tx :
  Kind tx -> 0 <= tx.(tx_amount) -> 0 <= tx.(fee_uegoc) -> - from_node_pool tx <= effect tx NODE_POOL_ADDR.
Proof.
  intros Hk Ha Hf. unfold effect, from_node_pool, only, sat_sub, pays_fee_from_amount, is_unshield, is_market_settle.
  destruct Hk as [_ Hfrom Hun|_ Hfrom _|_ Hfrom Hun|_ Hr].
  - rewrite Hun, Hfrom. source_flags. case_bool_decide; lia.
  - assert (is_unstake_tx tx = false) as -> by (unfold is_unstake_tx; by rewrite Hfrom, andb_false_r).
    rewrite Hfrom. source_flags. case_bool_decide; lia.
  - rewrite Hun. destruct Hfrom as [Hfrom|Hfrom]; rewrite Hfrom; source_flags; case_bool_decide; lia.
  - assert (forall a, is_reserved_system_source a = true -> bool_decide (tx.(tx_from) = a) = false) as Hne
      by (intros a Hra; apply bool_decide_eq_false_2; congruence).
    rewrite Hr, !(Hne NODE_POOL_ADDR), !(Hne SHIELDED_POOL_ADDR), !(Hne MARKET_ESCROW_ADDR), !(Hne "") by done.
    source_flags. destruct (is_unstake_tx tx); [lia|]. case_bool_decide; lia.
Qed.

Lemma written_effects db mine height txs v v' s b :
  agree db v s -> fits db s (zsum (minted_by <$> txs)) -> Forall (ordinary db) txs -> Forall Kind txs ->
  zsum (from_node_pool <$> txs) <= now db s NODE_POOL_ADDR -> Forall (no_reward db) txs ->
  simulate db height txs v = Ok v' ->
  at_ (foldl (apply_tx db mine) s txs).(balance_delta) b =
    at_ s.(balance_delta) b + zsum ((fun tx => effect tx b) <$> txs).
Proof.
  revert v s. induction txs as [|tx txs IH]; intros v s Ha Hfit Hord Hk Hnp Hnr Hsim; [cbn; lia|].
  apply Forall_cons in Hord as [Ho Hord], Hk as [Hk1 Hk], Hnr as [Hnr1 Hnr].
  rewrite fmap_cons, zsum_cons in Hfit, Hnp. cbn [simulate] in Hsim.
  apply result_bind_Ok in Hsim as (v1 & Hs1 & Hsim).
  assert (0 <= zsum (minted_by <$> txs) /\ 0 <= zsum (from_node_pool <$> txs)) as [Hm0 Hn0].
  { split; apply zsum_nonneg, Forall_fmap; (eapply Forall_impl; [exact Hord|]); intros t Ht; cbn.
    - by eapply minted_nonneg.
    - destruct Ht as (Hat & _). unfold from_node_pool. case_bool_decide; lia. }
  assert (Hfit1 : fits db s (minted_by tx)) by (unfold fits in *; lia).
  assert (Heff : forall a, at_ (apply_tx db mine s tx).(balance_delta) a = at_ s.(balance_delta) a + effect tx a).
  { intros a. apply (write_effect db mine height v v1); try done. lia. }
  destruct (step_ok db mine height tx v v1 s) as [Ha1 [Hm1 _]]; [done..|].
  cbn [foldl]. rewrite (IH v1), Heff, fmap_cons, zsum_cons; [lia|done|unfold fits in *; lia|done..| |done|done].
  unfold now in *. rewrite Heff. destruct Ho as (Hat & Hft & _).
  pose proof (node_pool_left tx Hk1 ltac:(lia) ltac:(lia)). lia.
Qed.

(** ** What is restored *)

Lemma restored_at bals reverse l m a :
  a <> "" ->
  at_ (foldl (reverse_balance bals reverse) m l) a =
    if bool_decide (a ∈ l) then clamp64 (at_ bals a + at_ reverse a) else at_ m a.
Proof.
  intros Hne. revert m. induction l as [|b l IH]; intros m; [by rewrite bool_decide_eq_false_2 by set_solver|].
  cbn [foldl]. rewrite IH. destruct (decide (a ∈ l)) as [Hin|Hnin].
  - by rewrite !bool_decide_eq_true_2 by set_solver.
  - rewrite (bool_decide_eq_false_2 (a ∈ l)) by done. unfold reverse_balance.
    destruct (decide (b = a)) as [->|Hba].
    + rewrite (bool_decide_eq_true_2 (a ∈ a :: l)), (bool_decide_eq_false_2 _ Hne) by set_solver.
      destruct (decide (clamp64 (at_ bals a + at_ reverse a) = 0)) as [Hz|Hz].
      * rewrite bool_decide_eq_true_2, at_delete, bool_decide_eq_true_2 by done. lia.
      * by rewrite bool_decide_eq_false_2, at_insert_eq.
    + rewrite (bool_decide_eq_false_2 (a ∈ b :: l)) by set_solver.
      destruct (decide (b = "")) as [Hb|Hb]; [by rewrite (bool_decide_eq_true_2 _ Hb)|].
      rewrite (bool_decide_eq_false_2 _ Hb).
      destruct (decide (clamp64 (at_ bals b + at_ reverse b) = 0)) as [Hz|Hz].
      * by rewrite bool_decide_eq_true_2, at_delete, bool_decide_eq_false_2.
      * by rewrite bool_decide_eq_false_2, at_insert_ne.
Qed.
End Reorg.
