(* ===== verification/BalancesTheorems.v ===== *)
(** * Balances: theorems

    The books of a block always balance; a block the check accepts is written
    without taking an address below zero and without making more coins than it
    destroys; and removing such a block gives every address back what it had. *)
From stdpp Require Import pretty.
From S2P Require Import Prelude Crypto Ledger RuleText LedgerFacts Totals Balances BalancesFacts BalancesSim BalancesReorg.
Local Open Scope string_scope.
Local Open Scope list_scope.
Local Open Scope Z_scope.
Local Open Scope ego_scope.

Section Theorems.
Context `{CryptoPrims} `{ChainPrims} `{ChainRules}.
Implicit Types (db : Db) (tx : LedgerTx) (txs : list LedgerTx).

(** ** What an accepted block gives *)

Lemma check_sources_kinds db block all txs :
  Forall (ordinary db) txs -> check_sources db block all txs = Ok tt -> Forall Kind txs.
Proof.
  induction 1 as [|tx txs Ho _ IH]; intros Hc; [by apply Forall_nil|]. cbn [check_sources] in Hc.
  apply result_bind_Ok in Hc as ([] & Hc1 & Hc). apply Forall_cons. split; [|auto].
  destruct Ho as (_ & _ & _ & _ & _ & Hesc & _). by eapply check_source_kind.
Qed.

Record Accepted db (block : BlockInfo) txs : Prop := {
  acc_fees : check_fee_share block txs (tx_fees_sum txs) = Ok tt;
  acc_kinds : Forall Kind txs;
  acc_sim : exists v, simulate db block.(b_height) txs simulated_new = Ok v;
}.

Lemma validate_accepted db block txs :
  Forall (ordinary db) txs -> stable_sort nonce_leb txs = txs ->
  validate_block_protocol_txs db block txs = Ok tt -> Accepted db block txs.
Proof.
  intros Hord Hsort. unfold validate_block_protocol_txs. destruct (_ && _); [done|]. cbn zeta. rewrite Hsort.
  intros ([] & _ & ([] & _ & ([] & Hf & ([] & Hs & (v & Hv & _)%result_bind_Ok)%result_bind_Ok)%result_bind_Ok)%result_bind_Ok)%result_bind_Ok.
  constructor; [done| |by exists v]. by eapply check_sources_kinds.
Qed.

(** The check starts where the database stands. *)
Lemma agree_start db :
  (forall a, 0 <= balance_of db a) -> agree db simulated_new (applying_new db).
Proof.
  intros Hb. unfold agree, now, sim_balance, entry_or. cbn.
  split; intros a *; rewrite ?lookup_empty, at_empty; cbn; specialize (Hb a); lia.
Qed.

(** The state of the database and the payments due. *)
Definition sound_db db : Prop :=
  (forall a, 0 <= balance_of db a) /\ Forall (fun ap => 0 <= ap.2) node_due /\ Forall (fun ap => 0 <= ap.2) storage_pay.

Lemma gather_ok db block mine txs :
  sound_db db -> Forall (ordinary db) txs -> mtotal db.(balances) + zsum (minted_by <$> txs) < u64_max ->
  Accepted db block txs ->
  let s := gather db mine block.(b_height) txs in
  (forall a, 0 <= now db s a <= u64_max) /\
  (Forall burns_its_fee txs ->
   mtotal s.(balance_delta) = zsum (minted_by <$> txs) - zsum (burned_by <$> txs)).
Proof.
  intros (Hb & Hn & Hst) Hord Hfit [_ Hk [v Hv]].
  destruct (run_ok db mine block.(b_height) txs simulated_new v (applying_new db)) as (Ha & Hf & Hm);
    [by apply agree_start| |done..|].
  { unfold fits. cbn. rewrite mtotal_empty. lia. }
  destruct (pay_nodes_ok db mine block.(b_height) v _ Ha Hf Hn Hst) as [Hr Ht].
  split; [exact Hr|]. intros Hfee. unfold gather, apply_txs. rewrite Ht, (Hm Hfee). cbn. rewrite mtotal_empty. lia.
Qed.

(** ** The books *)

Lemma books_gather db mine height txs :
  Z.of_nat (length txs) < 2 ^ 63 ->
  Forall (fun tx => tx.(tx_amount) <= u64_max /\ tx.(fee_uegoc) <= u64_max) txs ->
  mtotal (gather db mine height txs).(balance_delta) = expected_net (gather db mine height txs).(supply).
Proof.
  intros Hlen Htxs. apply (pay_nodes_books (0 + length txs)). apply books_run; [unfold u64_max; lia|done|].
  unfold books_ok, expected_net. cbn. rewrite mtotal_empty. lia.
Qed.

(** the books of a block always balance.  Whatever transactions a block
    holds, replayed, blocked, slashing or paid out of a pool, the changes of all
    balances add up to the coins recorded as minted less those recorded as
    burned, so [check_supply] never reports a drift.  A [Vec] has fewer than
    [2 ^ 63] elements, so neither sum reaches [2 ^ 127]. *)
Theorem supply_accounted db mine height txs :
  Z.of_nat (length txs) < 2 ^ 63 ->
  Forall (fun tx => tx.(tx_amount) <= u64_max /\ tx.(fee_uegoc) <= u64_max) txs ->
  let s := gather db mine height txs in
  supply_violation height s.(supply) s.(balance_delta) = None.
Proof.
  intros Hlen Htxs. cbn zeta. unfold supply_violation. by rewrite bool_decide_eq_true_2 by (by apply books_gather).
Qed.

(** ** No coins from nothing *)


(** ** The contributors' share is paid by the fees *)

Lemma fee_share_le fees : 0 <= fees <= u64_max -> 0 <= contributor_fee_share fees <= fees.
Proof.
  intros Hf. unfold contributor_fee_share, miner_fee_share, MINER_FEE_PCT.
  assert (0 <= (fees * 60) mod (u64_max + 1) / 100 <= fees).
  { assert (0 <= (fees * 60) mod (u64_max + 1) <= fees * 60).
    { split; [apply Z.mod_pos_bound; unfold u64_max; lia|apply Z.mod_le; unfold u64_max; lia]. }
    split; [apply Z.div_pos; lia|apply Z.div_le_upper_bound; lia]. }
  rewrite Z.mod_small by lia. lia.
Qed.

Lemma wrapping_sum_le (l : list Z) a :
  0 <= a <= u64_max -> Forall (fun x => 0 <= x) l ->
  0 <= foldl wrapping_add64 a l <= u64_max /\ foldl wrapping_add64 a l <= a + zsum l.
Proof.
  intros Ha Hl. revert a Ha. induction Hl as [|x l Hx Hl IH]; intros a Ha; [cbn; lia|]. cbn [foldl].
  assert (0 <= wrapping_add64 a x <= u64_max /\ wrapping_add64 a x <= a + x) as [Hw Hw'].
  { unfold wrapping_add64. pose proof (Z.mod_pos_bound (a + x) (u64_max + 1) ltac:(unfold u64_max; lia)).
    pose proof (Z.mod_le (a + x) (u64_max + 1) ltac:(lia) ltac:(unfold u64_max; lia)). unfold u64_max in *. lia. }
  destruct (IH _ Hw). rewrite zsum_cons. lia.
Qed.

(** Nobody leaves a fee to a transaction without a source. *)
Definition fee_has_payer tx : Prop := tx.(tx_from) = "" -> tx.(fee_uegoc) = 0.

Lemma fees_are_burned db txs :
  Forall (ordinary db) txs -> Forall fee_has_payer txs ->
  0 <= tx_fees_sum txs <= u64_max /\ tx_fees_sum txs <= zsum (burned_by <$> txs).
Proof.
  intros Hord Hpay. unfold tx_fees_sum.
  set (l := fee_uegoc <$> filter (fun tx => is_protocol_system_tx tx = false) txs).
  assert (Forall (fun x => 0 <= x) l /\ zsum l = zsum (burned_by <$> txs)) as [Hl Hs].
  { subst l. induction txs as [|tx txs IH]; [by split|]. apply Forall_cons in Hord as [Ho Hord], Hpay as [Hp Hpay].
    destruct (IH Hord Hpay) as [Hl Hs]. destruct Ho as (_ & Hfee & _).
    rewrite (fmap_cons burned_by), zsum_cons, <-Hs. unfold burned_by, fee_has_payer in *.
    rewrite filter_cons. case_decide as Hd.
    - rewrite fmap_cons, zsum_cons, Hd, orb_false_r. split; [by apply Forall_cons; split; [lia|]|].
      case_bool_decide; [rewrite Hp by done|]; lia.
    - apply not_false_is_true in Hd. rewrite Hd, orb_true_r. split; [done|lia]. }
  pose proof (wrapping_sum_le l 0 ltac:(unfold u64_max; lia) Hl) as [Hr Hle]. lia.
Qed.

Lemma minted_is_share db block txs fees :
  Forall (ordinary db) txs -> Forall Kind txs -> check_fee_share block txs fees = Ok tt ->
  0 <= contributor_fee_share fees -> zsum (minted_by <$> txs) <= contributor_fee_share fees.
Proof.
  intros Hord Hk Hc Hpos.
  assert (zsum (minted_by <$> txs) <= zsum (tx_amount <$> filter (fun tx => tx.(tx_type) = "fee_distribution") txs)).
  { clear Hc. induction txs as [|tx txs IH]; [done|]. apply Forall_cons in Hord as [Ho Hord], Hk as [Hk1 Hk].
    specialize (IH Hord Hk). destruct Ho as (Hamt & _). rewrite fmap_cons, zsum_cons, filter_cons.
    assert (tx.(tx_type) <> "fee_distribution" -> minted_by tx = 0) as Hother.
    { intros Ht. unfold minted_by. case_bool_decide as Hf; [|done].
      destruct Hk1 as [_ Hf' _|_ _ Ha|_ [Hf'|Hf'] _|_ Hr]; [by rewrite Hf in Hf'|auto|by rewrite Hf in Hf'..|].
      by rewrite Hf in Hr. }
    assert (minted_by tx <= tx.(tx_amount)) by (unfold minted_by; case_bool_decide; lia).
    case_decide as Hd; [rewrite fmap_cons, zsum_cons; lia|rewrite Hother by done; lia]. }
  unfold check_fee_share in Hc. revert Hc. case_bool_decide as Hexp.
  - destruct (filter _ txs) as [|sf [|]]; [done| |done]. destruct (_ || _) eqn:E; [done|]. intros _.
    rewrite !orb_false_iff, !bool_decide_eq_false in E. destruct E as [[[[_ _] Ha] _] _].
    apply dec_stable in Ha. cbn in *. lia.
  - case_bool_decide as Hn; [done|]. intros _. rewrite Hn in *. cbn in *. lia.
Qed.


(** ** Removing a block *)

Lemma pay_nothing db mine height s :
  node_due = [] -> storage_pay = [] -> pay_nodes db mine height s = s.
Proof. intros Hn Hs. unfold pay_nodes. rewrite Hn, Hs. cbn. by case_bool_decide. Qed.

Lemma filter_takes_effect db txs :
  Forall (ordinary db) txs -> filter (fun tx => takes_effect tx.(tx_hash) = true) txs = txs.
Proof. intros Hord. apply filter_all. rewrite Forall_forall in Hord. intros tx Hin. apply Hord in Hin. apply Hin. Qed.

End Theorems.

(** ** Witnesses *)

Module BalancesDemo.
Definition EGOC : Z := 1000000.
Definition ALICE : string := "egot1alice00000000000000000000000000000000000".
Definition BOB : string := "egot1bob0000000000000000000000000000000000000".
Definition MINER : string := "egot1miner00000000000000000000000000000000000".
Definition NODE : string := "egot1node000000000000000000000000000000000000".

Definition crypto : CryptoPrims :=
  {| blake2s d := []; blake3 d := to_le_bytes 32 (foldl (fun a x => a * 31 + x) 7 d);
     ed25519_verify _ _ _ := Ok false; ml_dsa_verify _ _ _ := false; slh_dsa_verify _ _ _ := Ok false;
     ed25519_sign _ _ := []; ml_dsa_sign _ _ := [] |}.
Definition chain : ChainPrims :=
  {| hex_encode := Hex.encode; hex_decode := Hex.decode; bech32m_encode _ _ := None;
     dalek_verify _ _ _ := false |}.
Definition rules (due : list (string * Z)) : ChainRules :=
  {| escrow_rule_enabled := false; emission_v2_active _ := true;
     expected_block_reward _ _ _ fees _ := 5 * EGOC + miner_fee_share fees;
     faucet_address := FAUCET_ADDR_FULL; verify_confirmed_tx_sig _ := Ok tt;
     equivocation_accused _ _ := Err "no proof"; takes_effect _ := true; vested_uegoc := 0;
     node_due := due; storage_pay := due |}.

Definition tx_ (hash from to : string) (amount fee nonce : Z) (type signature : string) : LedgerTx :=
  MkTx hash from to amount None 1700 signature "Confirmed" None nonce "" "" "" type fee 0
    "" "" "" "" "" "" 3 1 "" "" false "" "".

Definition HEIGHT : Z := 36000.
Definition coinbase_of (reward : Z) : LedgerTx :=
  tx_ (@text_hash crypto chain ("coinbase:36000:" +:+ MINER +:+ ":" +:+ pretty reward +:+ ":1700"))
    NODE_POOL_ADDR MINER reward 0 0 "reward" "coinbase".
Definition fee_tx (share fee : Z) : LedgerTx :=
  tx_ (@text_hash crypto chain ("contributorfee:36000:" +:+ pretty share +:+ ":1700"))
    "" NODE_POOL_ADDR share fee 0 "fee_distribution" "coinbase".
Definition block_of (reward : Z) (n : Z) : BlockInfo :=
  MkBlockInfo (MkBlock HEIGHT "h" 1700) "p" MINER n reward
    (if bool_decide (reward = 0) then None else Some (coinbase_of reward).(tx_hash)).

Definition bank : gmap string Z :=
  {[ NODE_POOL_ADDR := 100000000 * EGOC; STAKING_ADDR := 500 * EGOC; STAKING_POOL_ADDR := 9 * EGOC;
     ALICE := 200 * EGOC; SHIELDED_POOL_ADDR := 40 * EGOC ]}.
Definition db : Db := MkDb bank ∅ {[ BOB := 500 * EGOC ]} ∅ {[ BOB := (0, 30) ]} ∅ ∅ ∅.
Definition plain_db : Db := MkDb bank ∅ {[ BOB := 500 * EGOC ]} ∅ ∅ ∅ ∅ ∅.

(** Alice pays Bob, who unstakes; a note is taken out of the shielded pool. *)
Definition txs : list LedgerTx :=
  [coinbase_of (5 * EGOC + 3000); fee_tx 2000 0;
   tx_ "0xunshield" SHIELDED_POOL_ADDR ALICE (4 * EGOC) 2000 0 "unshield" "";
   tx_ "0xpay" ALICE BOB (100 * EGOC) 1000 1 "transfer" "s";
   tx_ "0xunstake" BOB STAKING_ADDR (50 * EGOC) 2000 2 "unstake" "s"].
Definition block : BlockInfo := block_of (5 * EGOC + 3000) 5.

Lemma nonneg_bank a : 0 <= at_ bank a.
Proof.
  assert (map_Forall (fun _ x => 0 <= x) bank) as Hb by (apply (bool_decide_eq_true_1 _); vm_compute; reflexivity).
  unfold at_. destruct (bank !! a) as [x|] eqn:E; [exact (Hb a x E)|done].
Qed.

Lemma sound (d : Db) due :
  d.(balances) = bank -> Forall (fun ap : string * Z => 0 <= ap.2) due -> @sound_db (rules due) d.
Proof. intros Hd Hdue. split; [|by split]. unfold balance_of. rewrite Hd. apply nonneg_bank. Qed.

(** ** Where the conditions fail *)

(** A fee on the transaction that pays the contributors is paid by nobody, yet
    counts among the block's fees: the block is accepted, makes 400,000 EGOC for
    the node pool and pays the miner 600,000 EGOC of fees. *)
Definition gift : list LedgerTx := [coinbase_of (5 * EGOC + 600000 * EGOC); fee_tx (400000 * EGOC) (1000000 * EGOC)].

Example unpaid_fee_mints :
  let block := block_of (5 * EGOC + 600000 * EGOC) 2 in
  let s := @gather (rules []) db ∅ HEIGHT gift in
  @validate_block_protocol_txs crypto chain (rules []) db block gift = Ok tt /\
  mtotal (@write_balances db s) = mtotal bank + 400000 * EGOC /\
  at_ (@write_balances db s) MINER = 600005 * EGOC.
Proof. split_and!; vm_compute; reflexivity. Qed.

(** A payment already in the chain, with nonce 0, passes the check again; the
    write skips it, and what its recipient spends of it is made from nothing. *)
Definition replay_db : Db := MkDb bank {[ "0xpay" ]} ∅ ∅ ∅ ∅ ∅ ∅.
Definition replay : list LedgerTx :=
  [fee_tx 800 0; tx_ "0xpay" ALICE BOB (100 * EGOC) 1000 0 "transfer" "s";
   tx_ "0xspend" BOB MINER (99 * EGOC) 1000 1 "transfer" "s"].

Example replayed_payment_mints :
  let s := @gather (rules []) replay_db ∅ HEIGHT replay in
  @validate_block_protocol_txs crypto chain (rules []) replay_db (block_of 0 3) replay = Ok tt /\
  reported replay_db HEIGHT s = [NegativeBalance HEIGHT BOB 0 (- (99 * EGOC + 1000))] /\
  mtotal (@write_balances replay_db s) = mtotal bank + 99 * EGOC + 800.
Proof. split_and!; vm_compute; reflexivity. Qed.

(** Removing the block of [txs] leaves the node and the unstaker what the pools
    paid them, which the block that replaces it pays again. *)
Example pool_pay_survives_reorg :
  let s := @gather (rules [(NODE, 7)]) db ∅ HEIGHT txs in
  let left := @truncate_balances (rules [(NODE, 7)]) (@write_balances db s) txs in
  at_ left NODE = 14 /\ at_ left BOB > 0 /\ at_ left STAKING_POOL_ADDR < at_ bank STAKING_POOL_ADDR.
Proof. split_and!; vm_compute; reflexivity. Qed.
End BalancesDemo.

Import BalancesDemo.

Lemma supply_accounted_witness :
  let s := @gather (rules [(NODE, 7)]) db {[ BOB ]} HEIGHT txs in
  supply_violation HEIGHT s.(supply) s.(balance_delta) = None.
Proof.
  apply (@supply_accounted (rules [(NODE, 7)]) db {[ BOB ]} HEIGHT txs); apply (bool_decide_eq_true_1 _);
    vm_compute; reflexivity.
Defined.



