(* ===== verification/Mempool.v ===== *)
(** * The node's transaction pool

    Model of [bins/ego-node/src/mempool.rs]: 64 shards, each a binary heap with
    lazy deletion (the set [map] says which entries of the heap still count), a
    counter of pending transactions and an index from (sender, nonce) to the
    pending hash.

    [insert], [drain_n] and [remove] hold the lock of the nonce index from
    their first access to the pool to their end, so each is one atomic step of
    the model; [contains] and [len] read one shard or the counter.  The clock
    read by [insert] is its argument [now_secs].

    [hex::encode] is a parameter, and so is the heap: [BinaryHeap] promises
    that [pop] removes a greatest element, and which of several equally great
    ones it removes is unspecified ([MaxHeap]). *)
From S2P Require Import Prelude Crypto.
Local Open Scope Z_scope.

(** [Transaction], of which the pool reads the fields named here; [rest] stands
    for the others (payload, signature, keys, shard, versions). *)
Record Transaction : Type := MkTransaction {
  hash : Hash;
  from : Address;
  nonce : Z;
  timestamp : Timestamp;
  ru_limit : Z;
  pob_burn_credits : Z;
  priority_hint : Z;
  rest : bytes;
}.

#[export] Instance Transaction_eq_dec : EqDecision Transaction.
Proof. solve_decision. Defined.

(** [Timestamp::as_secs]: the timestamp counts milliseconds. *)
Definition as_secs (t : Timestamp) : Z := t / 1000.

Definition SHARD_COUNT : nat := 64.
Definition MAX_TOTAL : Z := 50000.
Definition BASE_FEE_PER_RU : Z := 10.
Definition MAX_TX_AGE_SECS : Z := 3600.

Definition effective_fee (tx : Transaction) : Z :=
  let gross := tx.(ru_limit) * BASE_FEE_PER_RU in
  let net := sat_sub gross tx.(pob_burn_credits) in
  net + tx.(priority_hint).

Record HeapEntry : Type := MkHeapEntry {
  fee : Z;
  ts_secs : Z;
  hash_hex : string;
  tx : Transaction;
}.

(** [Ord::cmp]: the higher fee wins; on ties the older transaction. *)
Definition entry_cmp (e o : HeapEntry) : comparison :=
  match Z.compare e.(fee) o.(fee) with
  | Eq => Z.compare o.(ts_secs) e.(ts_secs)
  | c => c
  end.

(** [std::collections::BinaryHeap]: the elements in some order. *)
Class MaxHeap {A : Type} (cmp : A -> A -> comparison) : Type := {
  heap_pop : list A -> option (A * list A);
  heap_pop_None : forall l, heap_pop l = None <-> l = [];
  heap_pop_Some : forall l x r, heap_pop l = Some (x, r) ->
    l ≡ₚ x :: r /\ forall y, y ∈ l -> cmp x y <> Lt;
}.

(** [hex::encode]. *)
Class HexEncode : Type := hex : bytes -> string.

(** [Shard]: the elements of [heap], and the keys of [map]. *)
Record Shard : Type := MkShard {
  heap : list HeapEntry;
  map : gset string;
}.

Definition Shard_new : Shard := MkShard [] ∅.

Definition shard_is_empty (s : Shard) : bool := bool_decide (s.(map) = ∅).

Definition shard_contains (h : string) (s : Shard) : bool := bool_decide (h ∈ s.(map)).

(** The entry made for a transaction. *)
Definition entry_of (t : Transaction) (h : string) : HeapEntry :=
  MkHeapEntry (effective_fee t) (as_secs t.(timestamp)) h t.

(** [BinaryHeap::push] adds one element. *)
Definition push (t : Transaction) (h : string) (s : Shard) : Shard :=
  MkShard (entry_of t h :: s.(heap)) ({[ h ]} ∪ s.(map)).

Definition remove_by_hash (h : string) (s : Shard) : bool * Shard :=
  (bool_decide (h ∈ s.(map)), MkShard s.(heap) (s.(map) ∖ {[ h ]})).

(** Types of the answers; the errors are the source's string literals. *)
Inductive InsertError : Type :=
| Expired
| NonceConflict
| Full
| Duplicate.

#[export] Instance InsertError_eq_dec : EqDecision InsertError.
Proof. solve_decision. Defined.

Record ShardedMempool : Type := MkMempool {
  shards : list Shard;
  total : Z;
  nonce_index : gmap (Address * Z) string;
}.

Definition mempool_new : ShardedMempool := MkMempool (repeat Shard_new SHARD_COUNT) 0 ∅.

(** [wrapping_mul], then the exclusive or with the byte. *)
Definition fnv_step (acc b : Z) : Z := Z.lxor ((acc * 0x00000001000001b3) mod (u64_max + 1)) b.

(** The hash of the first 16 characters of the hexadecimal form. *)
Definition shard_idx (h : string) : nat :=
  let slice := take 16 (ascii_bytes h) in
  Z.to_nat (foldl fnv_step 0xcbf29ce484222325 slice mod Z.of_nat SHARD_COUNT).

(** [self.shards[i]]; the index is always in range. *)
Definition shard (i : nat) (p : ShardedMempool) : Shard := default Shard_new (p.(shards) !! i).

Definition set_shard (i : nat) (s : Shard) (p : ShardedMempool) : ShardedMempool :=
  MkMempool (<[ i := s ]> p.(shards)) p.(total) p.(nonce_index).

(** [AtomicU64::fetch_add] and [fetch_sub] of one. *)
Definition fetch_add1 (p : ShardedMempool) : ShardedMempool :=
  MkMempool p.(shards) ((p.(total) + 1) mod (u64_max + 1)) p.(nonce_index).
Definition fetch_sub1 (p : ShardedMempool) : ShardedMempool :=
  MkMempool p.(shards) ((p.(total) - 1) mod (u64_max + 1)) p.(nonce_index).

Definition set_index (ni : gmap (Address * Z) string) (p : ShardedMempool) : ShardedMempool :=
  MkMempool p.(shards) p.(total) ni.

Definition nonce_key (t : Transaction) : Address * Z := (t.(from), t.(nonce)).

(** [ni.get(&nonce_key)] is there and is another hash. *)
Definition conflicting (t : Transaction) (h : string) (p : ShardedMempool) : bool :=
  match p.(nonce_index) !! nonce_key t with
  | Some existing => negb (bool_decide (existing = h))
  | None => false
  end.

(** A transaction more than an hour old, or more than 30 seconds ahead. *)
Definition stale (now_secs : Z) (t : Transaction) : bool :=
  let age := now_secs - as_secs t.(timestamp) in
  bool_decide (age > MAX_TX_AGE_SECS) || bool_decide (age < -30).

Section Pool.
Context `{HexEncode} `{!MaxHeap entry_cmp}.

(** The loop of [pop_best]; an entry whose hash [map] no longer holds was
    removed and is discarded. *)
Fixpoint pop_loop (fuel : nat) (s : Shard) : option Transaction * Shard :=
  match fuel with
  | O => (None, s)
  | S fuel =>
      match heap_pop s.(heap) with
      | None => (None, s)
      | Some (entry, heap) =>
          if bool_decide (entry.(hash_hex) ∈ s.(map))
          then (Some entry.(tx), MkShard heap (s.(map) ∖ {[ entry.(hash_hex) ]}))
          else pop_loop fuel (MkShard heap s.(map))
      end
  end.

Definition pop_best (s : Shard) : option Transaction * Shard :=
  pop_loop (S (length s.(heap))) s.

Definition insert (now_secs : Z) (t : Transaction) (p : ShardedMempool) :
    result () InsertError * ShardedMempool :=
  if stale now_secs t then (Err Expired, p)
  else
    let h := hex t.(hash) in
    if conflicting t h p then (Err NonceConflict, p)
    else if bool_decide (MAX_TOTAL <= p.(total)) then (Err Full, p)
    else
      let s := shard (shard_idx h) p in
      if shard_contains h s then (Err Duplicate, p)
      else
        let p := set_shard (shard_idx h) (push t h s) p in
        let p := set_index (<[ nonce_key t := h ]> p.(nonce_index)) p in
        (Ok (), fetch_add1 p).

Definition contains (h : string) (p : ShardedMempool) : bool :=
  shard_contains h (shard (shard_idx h) p).

(** One turn of the inner loop of [drain_n]. *)
Definition drain_pop (i : nat) (p : ShardedMempool) : option Transaction * ShardedMempool :=
  let '(o, s) := pop_best (shard i p) in
  let p := set_shard i s p in
  match o with
  | None => (None, p)
  | Some t => (Some t, fetch_sub1 (set_index (delete (nonce_key t) p.(nonce_index)) p))
  end.

(** [for _ in 0..take]. *)
Fixpoint drain_take (take : nat) (i : nat) (p : ShardedMempool) :
    list Transaction * ShardedMempool :=
  match take with
  | O => ([], p)
  | S take =>
      match drain_pop i p with
      | (None, p) => ([], p)
      | (Some t, p) =>
          let '(out, p) := drain_take take i p in
          (t :: out, p)
      end
  end.

(** [for shard_lock in &self.shards]; [n] counts what is still wanted. *)
Fixpoint drain_shards (is_ : list nat) (per_shard n : nat) (p : ShardedMempool) :
    list Transaction * ShardedMempool :=
  match is_ with
  | [] => ([], p)
  | i :: is_ =>
      if bool_decide (n = 0%nat) then ([], p)
      else if shard_is_empty (shard i p) then drain_shards is_ per_shard n p
      else
        let '(out, p) := drain_take (per_shard `min` n) i p in
        let '(out', p) := drain_shards is_ per_shard (n - length out) p in
        (out ++ out', p)
  end.

Definition per_shard (n : nat) : nat := ((n + SHARD_COUNT - 1) `div` SHARD_COUNT) `max` 1.

Definition drain_n (n : nat) (p : ShardedMempool) : list Transaction * ShardedMempool :=
  drain_shards (seq 0 SHARD_COUNT) (per_shard n) n p.

Definition remove (h : string) (p : ShardedMempool) : ShardedMempool :=
  let '(removed, s) := remove_by_hash h (shard (shard_idx h) p) in
  let p := set_shard (shard_idx h) s p in
  if removed
  then fetch_sub1
         (set_index (filter (fun kv : (Address * Z) * string => kv.2 <> h) p.(nonce_index)) p)
  else p.

Definition len (p : ShardedMempool) : Z := p.(total).

Definition is_empty (p : ShardedMempool) : bool := bool_decide (len p = 0).
End Pool.
