(* ===== verification/MempoolSpec.v ===== *)
(** * What the transaction pool promises

    The abstract pool is a finite map from hashes to pending transactions.  The
    operations of [Mempool] are simulated by operations on that map: the heaps,
    their stale entries, the shards, the counter and the nonce index are gone.  The
    lemmas of the simulation follow it. *)
From S2P Require Import Prelude Crypto Mempool.
Local Open Scope Z_scope.

(** ** The abstract pool *)

Abbreviation Pending := (gmap string Transaction).

(** The better of two transactions pays more, or as much and is older. *)
Definition better (t u : Transaction) : bool :=
  bool_decide (effective_fee u < effective_fee t) ||
  (bool_decide (effective_fee u = effective_fee t) &&
   bool_decide (as_secs t.(timestamp) < as_secs u.(timestamp))).

(** Another pending transaction spends the same nonce of the same sender. *)
Definition spent (t : Transaction) (h : string) (a : Pending) : bool :=
  bool_decide (map_Exists (fun h' u => nonce_key u = nonce_key t /\ h' <> h) a).

(** The pending transactions of one shard. *)
Definition of_shard (i : nat) (a : Pending) : Pending :=
  filter (fun hu : string * Transaction => shard_idx hu.1 = i) a.

Section Spec.
Context `{HexEncode}.

Definition spec_insert (now_secs : Z) (t : Transaction) (a : Pending) :
    result () InsertError * Pending :=
  if stale now_secs t then (Err Expired, a)
  else if spent t (hex t.(hash)) a then (Err NonceConflict, a)
  else if bool_decide (MAX_TOTAL <= Z.of_nat (size a)) then (Err Full, a)
  else if bool_decide (is_Some (a !! hex t.(hash))) then (Err Duplicate, a)
  else (Ok (), <[ hex t.(hash) := t ]> a).

(** [k] transactions leave shard [i], each no worse than any other that is
    still there; fewer leave only when the shard is exhausted. *)
Inductive takes (i : nat) : nat -> Pending -> list Transaction -> Pending -> Prop :=
| takes_enough a : takes i 0 a [] a
| takes_exhausted k a : of_shard i a = ∅ -> takes i k a [] a
| takes_one k a t out a' :
    of_shard i a !! hex t.(hash) = Some t ->
    (forall h u, of_shard i a !! h = Some u -> better u t = false) ->
    takes i k (delete (hex t.(hash)) a) out a' ->
    takes i (S k) a (t :: out) a'.

(** The shards are visited in turn until [n] transactions have left, at most
    [per] of each. *)
Inductive drains (per : nat) : list nat -> nat -> Pending -> list Transaction -> Pending -> Prop :=
| drains_done n a : drains per [] n a [] a
| drains_enough is_ a : drains per is_ 0 a [] a
| drains_shard i is_ n a out a1 out' a2 :
    takes i (per `min` n) a out a1 ->
    drains per is_ (n - length out) a1 out' a2 ->
    drains per (i :: is_) n a (out ++ out') a2.

(** ** Sequences of operations *)

Inductive Op : Type :=
| OInsert (now_secs : Z) (t : Transaction)
| OContains (h : string)
| ODrain (n : nat)
| ORemove (h : string)
| OLen
| OIsEmpty.

Inductive Answer : Type :=
| AInsert (r : result () InsertError)
| AContains (b : bool)
| ADrain (out : list Transaction)
| ARemove
| ALen (n : Z)
| AIsEmpty (b : bool).

Inductive spec_step : Pending -> Op -> Answer -> Pending -> Prop :=
| spec_step_insert a now t :
    spec_step a (OInsert now t) (AInsert (spec_insert now t a).1) (spec_insert now t a).2
| spec_step_contains a h : spec_step a (OContains h) (AContains (bool_decide (is_Some (a !! h)))) a
| spec_step_drain a n out a' :
    drains (per_shard n) (seq 0 SHARD_COUNT) n a out a' -> spec_step a (ODrain n) (ADrain out) a'
| spec_step_remove a h : spec_step a (ORemove h) ARemove (delete h a)
| spec_step_len a : spec_step a OLen (ALen (Z.of_nat (size a))) a
| spec_step_is_empty a : spec_step a OIsEmpty (AIsEmpty (bool_decide (a = ∅))) a.

Inductive spec_run : Pending -> list Op -> list Answer -> Pending -> Prop :=
| spec_run_nil a : spec_run a [] [] a
| spec_run_cons a op x a1 ops xs a2 :
    spec_step a op x a1 -> spec_run a1 ops xs a2 -> spec_run a (op :: ops) (x :: xs) a2.

(** The transactions offered to the pool. *)
Definition offered (ops : list Op) : list Transaction :=
  omap (fun op => match op with OInsert _ t => Some t | _ => None end) ops.

(** The digest of a transaction identifies it among those offered. *)
Definition digests_identify (ops : list Op) : Prop :=
  Forall (fun t => Forall (fun u => hex t.(hash) = hex u.(hash) -> t = u) (offered ops)) (offered ops).

#[global] Instance digests_identify_dec ops : Decision (digests_identify ops).
Proof. unfold digests_identify. apply _. Defined.
End Spec.

(** ** The concrete pool run on a sequence of operations *)

Section Run.
Context `{HexEncode} `{!MaxHeap entry_cmp}.

Definition pool_step (p : ShardedMempool) (op : Op) : Answer * ShardedMempool :=
  match op with
  | OInsert now t => let '(r, p) := insert now t p in (AInsert r, p)
  | OContains h => (AContains (contains h p), p)
  | ODrain n => let '(out, p) := drain_n n p in (ADrain out, p)
  | ORemove h => (ARemove, remove h p)
  | OLen => (ALen (len p), p)
  | OIsEmpty => (AIsEmpty (is_empty p), p)
  end.

Fixpoint pool_run (p : ShardedMempool) (ops : list Op) : list Answer * ShardedMempool :=
  match ops with
  | [] => ([], p)
  | op :: ops =>
      let '(x, p) := pool_step p op in
      let '(xs, p) := pool_run p ops in
      (x :: xs, p)
  end.
End Run.

(** ** The transaction pool implements its specification

    The simulation relation between the concrete pool and the map of pending
    transactions, and one lemma an operation. *)

Lemma shard_idx_lt h : (shard_idx h < SHARD_COUNT)%nat.
Proof.
  unfold shard_idx. pose proof (Z.mod_pos_bound
    (foldl fnv_step 0xcbf29ce484222325 (take 16 (ascii_bytes h))) (Z.of_nat SHARD_COUNT)).
  unfold SHARD_COUNT in *. lia.
Qed.
#[global] Hint Resolve shard_idx_lt : mempool.

Lemma of_shard_lookup i a h t :
  of_shard i a !! h = Some t <-> a !! h = Some t /\ shard_idx h = i.
Proof. unfold of_shard. by rewrite map_lookup_filter_Some. Qed.

Lemma of_shard_empty i a : of_shard i a = ∅ <-> forall h t, a !! h = Some t -> shard_idx h <> i.
Proof.
  split.
  - intros E h t Ht Hi. assert (Hl : of_shard i a !! h = Some t) by by apply of_shard_lookup.
    by rewrite E, lookup_empty in Hl.
  - intros Hn. apply map_empty. intros h. apply eq_None_not_Some. intros [t [Ht Hi]%of_shard_lookup].
    exact (Hn h t Ht Hi).
Qed.

(** The order of the heap is the order of the transactions. *)
Lemma entry_cmp_better t u h k :
  entry_cmp (entry_of t h) (entry_of u k) <> Lt -> better u t = false.
Proof.
  unfold entry_cmp, better, entry_of. simpl.
  destruct (Z.compare_spec (effective_fee t) (effective_fee u)) as [E|E|E]; [|done|].
  - destruct (Z.compare_spec (as_secs (timestamp u)) (as_secs (timestamp t))); [| done |];
      intros _; repeat case_bool_decide; simpl; try done; lia.
  - intros _. repeat case_bool_decide; simpl; try done; lia.
Qed.

Section Facts.
Context `{HexEncode} `{!MaxHeap entry_cmp}.
Implicit Types (p : ShardedMempool) (a : Pending) (s : Shard).

(** ** Shards *)

Lemma shard_set_shard i j s p :
  (j < length p.(shards))%nat ->
  shard i (set_shard j s p) = if decide (i = j) then s else shard i p.
Proof.
  intros Hj. unfold shard, set_shard. simpl. case_decide; subst.
  - by rewrite list_lookup_insert_eq.
  - by rewrite list_lookup_insert_ne by done.
Qed.

(** Popping a shard: nothing counted is left, or the entry popped is a best one
    among those that count, and all other entries that count stay. *)
Lemma pop_loop_spec fuel s o s' :
  (length s.(heap) < fuel)%nat -> pop_loop fuel s = (o, s') ->
  match o with
  | None => (forall e, e ∈ s.(heap) -> e.(hash_hex) ∉ s.(map)) /\ s' = MkShard [] s.(map)
  | Some t => exists e, e ∈ s.(heap) /\ e.(tx) = t /\ e.(hash_hex) ∈ s.(map) /\
      (forall y, y ∈ s.(heap) -> y.(hash_hex) ∈ s.(map) -> entry_cmp e y <> Lt) /\
      s'.(map) = s.(map) ∖ {[ e.(hash_hex) ]} /\
      (forall y, y ∈ s'.(heap) -> y ∈ s.(heap)) /\
      (forall y, y ∈ s.(heap) -> y.(hash_hex) ∈ s.(map) -> y.(hash_hex) <> e.(hash_hex) ->
         y ∈ s'.(heap))
  end.
Proof.
  revert s. induction fuel as [|fuel IH]; intros s Hf; [lia|]. cbn [pop_loop].
  destruct (heap_pop s.(heap)) as [[e r]|] eqn:E.
  - apply heap_pop_Some in E as [Hp Hmax]. case_bool_decide as He.
    + intros [= <- <-]. exists e. split_and!; auto; [rewrite Hp; set_solver|..]; simpl.
      * intros y Hy. rewrite Hp. set_solver.
      * intros y Hy Hm Hne. rewrite Hp in Hy. set_solver.
    + intros E. apply IH in E; [|apply Permutation_length in Hp; simpl in *; lia].
      destruct o as [t|]; simpl in *.
      * destruct E as (x & Hx & Ht & Hm & Hb & Hmap & Hsub & Hkeep).
        exists x. split_and!; auto; setoid_rewrite Hp; set_solver.
      * destruct E as [Hn Hs]. split; [|done]. intros y. rewrite Hp. set_solver.
  - apply heap_pop_None in E. intros [= <- <-]. destruct s as [l m]; simpl in *. subst l.
    split; [set_solver|done].
Qed.

(** ** The simulation relation *)

Context (U : list Transaction).

Record refines p a : Prop := {
  rf_length : length p.(shards) = SHARD_COUNT;
  rf_map : forall i h, (i < SHARD_COUNT)%nat ->
    h ∈ (shard i p).(map) <-> is_Some (of_shard i a !! h);
  rf_heap : forall i e, (i < SHARD_COUNT)%nat -> e ∈ (shard i p).(heap) ->
    e = entry_of e.(tx) (hex e.(tx).(hash)) /\ e.(tx) ∈ U;
  rf_has : forall h t, a !! h = Some t -> entry_of t h ∈ (shard (shard_idx h) p).(heap);
  rf_key : forall h t, a !! h = Some t -> h = hex t.(hash) /\ t ∈ U;
  rf_total : p.(total) = Z.of_nat (size a);
  rf_bound : Z.of_nat (size a) <= MAX_TOTAL;
  rf_index : forall k h, p.(nonce_index) !! k = Some h <->
    exists t, a !! h = Some t /\ nonce_key t = k;
}.

Lemma refines_new : refines mempool_new ∅.
Proof.
  assert (Hs : forall i, shard i mempool_new = Shard_new).
  { intros i. unfold shard, mempool_new. cbn [shards].
    destruct (repeat Shard_new SHARD_COUNT !! i) as [s|] eqn:E; [|done].
    apply list_elem_of_lookup_2, list_elem_of_In, repeat_spec in E. by subst. }
  split; try setoid_rewrite Hs.
  - apply repeat_length.
  - intros i h _. unfold of_shard. rewrite map_filter_empty, lookup_empty. split; [set_solver|by intros [? ?]].
  - set_solver.
  - by setoid_rewrite lookup_empty.
  - by setoid_rewrite lookup_empty.
  - done.
  - done.
  - intros k h. rewrite !lookup_empty. naive_solver.
Qed.

Lemma refines_shard_contains p a h :
  refines p a -> shard_contains h (shard (shard_idx h) p) = bool_decide (is_Some (a !! h)).
Proof.
  intros R. unfold shard_contains. apply bool_decide_ext.
  rewrite (rf_map _ _ R) by apply shard_idx_lt. unfold is_Some.
  setoid_rewrite of_shard_lookup. naive_solver.
Qed.

Lemma refines_conflicting p a t h :
  refines p a -> conflicting t h p = spent t h a.
Proof.
  intros R. unfold conflicting, spent. apply eq_true_iff_eq. rewrite bool_decide_eq_true. split.
  - destruct (nonce_index p !! nonce_key t) as [h'|] eqn:E; [|done].
    apply (rf_index _ _ R) in E as (u & Hu & Hk). rewrite negb_true_iff, bool_decide_eq_false.
    intros Hne. exists h', u. auto.
  - intros (h' & u & Hu & Hk & Hne).
    rewrite (proj2 (rf_index _ _ R (nonce_key t) h')) by eauto.
    by rewrite bool_decide_false.
Qed.

(** A pending transaction leaves: [p'] is the pool [p] in which shard [i] has
    forgotten one hash. *)
Lemma refines_delete p a h t s :
  refines p a -> a !! h = Some t ->
  s.(map) = (shard (shard_idx h) p).(map) ∖ {[ h ]} ->
  (forall e, e ∈ s.(heap) -> e ∈ (shard (shard_idx h) p).(heap)) ->
  (forall e, e ∈ (shard (shard_idx h) p).(heap) -> e.(hash_hex) ∈ (shard (shard_idx h) p).(map) ->
     e.(hash_hex) <> h -> e ∈ s.(heap)) ->
  forall ni, (forall k h', ni !! k = Some h' <-> p.(nonce_index) !! k = Some h' /\ h' <> h) ->
  refines (fetch_sub1 (set_index ni (set_shard (shard_idx h) s p))) (delete h a).
Proof.
  intros R Hh Hm Hsub Hkeep ni Hni.
  assert (Hsize : size a = S (size (delete h a))).
  { rewrite <-(insert_delete_id a h t Hh) at 1. apply map_size_insert_None, lookup_delete_eq. }
  assert (Hsh : forall i, shard i (fetch_sub1 (set_index ni (set_shard (shard_idx h) s p))) =
                          if decide (i = shard_idx h) then s else shard i p).
  { intros i. apply (shard_set_shard i (shard_idx h) s p). rewrite (rf_length _ _ R). apply shard_idx_lt. }
  split.
  - simpl. rewrite length_insert. apply R.
  - intros i k Hi. rewrite Hsh. unfold is_Some. setoid_rewrite of_shard_lookup.
    setoid_rewrite lookup_delete_Some.
    pose proof (rf_map _ _ R i k Hi) as Hrm. unfold is_Some in Hrm. setoid_rewrite of_shard_lookup in Hrm.
    case_decide as Hc; subst; rewrite ?Hm, ?elem_of_difference, ?elem_of_singleton, ?Hrm; [naive_solver|].
    split; [|naive_solver]. intros (u & Hu & Hi'). exists u. split_and!; [intros ->|..]; done.
  - intros i e Hi. rewrite Hsh. case_decide; subst.
    + intros He. eapply (rf_heap _ _ R); [done|]. by apply Hsub.
    + by apply (rf_heap _ _ R).
  - intros k u [Hne Hu]%lookup_delete_Some. rewrite Hsh. pose proof (rf_has _ _ R k u Hu) as He.
    case_decide as Hc; [|done]. rewrite Hc in He. apply Hkeep; [done| |].
    + apply (rf_map _ _ R); [apply shard_idx_lt|]. exists u. by apply of_shard_lookup.
    + simpl. congruence.
  - intros k u [_ Hu]%lookup_delete_Some. by apply (rf_key _ _ R).
  - cbn [total fetch_sub1 set_index set_shard]. rewrite (rf_total _ _ R).
    pose proof (rf_bound _ _ R). rewrite Z.mod_small; [lia|].
    unfold MAX_TOTAL, u64_max in *. lia.
  - pose proof (rf_bound _ _ R). lia.
  - intros k h'. cbn [nonce_index fetch_sub1 set_index set_shard]. rewrite Hni, (rf_index _ _ R).
    setoid_rewrite lookup_delete_Some. naive_solver.
Qed.

(** ** The operations *)

(** A transaction that is not pending is added. *)
Lemma refines_push p a t h :
  refines p a -> t ∈ U -> h = hex t.(hash) -> a !! h = None -> spent t h a = false ->
  Z.of_nat (size a) < MAX_TOTAL ->
  refines (fetch_add1 (set_index (<[ nonce_key t := h ]> p.(nonce_index))
             (set_shard (shard_idx h) (push t h (shard (shard_idx h) p)) p)))
    (<[ h := t ]> a).
Proof.
  intros R HU Eh Hnone Hspent Hsz.
  assert (Hfree : forall h' u, a !! h' = Some u -> nonce_key u <> nonce_key t).
  { intros h' u Hu Hk. unfold spent in Hspent. rewrite bool_decide_eq_false in Hspent.
    apply Hspent. exists h', u. split_and!; [done|done|]. intros ->. congruence. }
  assert (Hsh : forall i, shard i (fetch_add1 (set_index (<[ nonce_key t := h ]> p.(nonce_index))
             (set_shard (shard_idx h) (push t h (shard (shard_idx h) p)) p))) =
          if decide (i = shard_idx h) then push t h (shard (shard_idx h) p) else shard i p).
  { intros i. apply (shard_set_shard i (shard_idx h) _ p). rewrite (rf_length _ _ R). apply shard_idx_lt. }
  split.
  - simpl. rewrite length_insert. apply R.
  - intros i k Hi. rewrite Hsh. unfold is_Some. setoid_rewrite of_shard_lookup.
    setoid_rewrite lookup_insert_Some.
    pose proof (rf_map _ _ R i k Hi) as Hrm. unfold is_Some in Hrm. setoid_rewrite of_shard_lookup in Hrm.
    case_decide as Hc; [subst i|]; cbn [push map]; rewrite ?elem_of_union, ?elem_of_singleton, Hrm;
      destruct (decide (h = k)); naive_solver.
  - intros i e Hi. rewrite Hsh. case_decide; [subst i|by apply (rf_heap _ _ R)].
    cbn [push heap]. rewrite elem_of_cons. intros [->|He]; [by subst|]. by eapply (rf_heap _ _ R).
  - intros k u [[<- <-]|[Hne Hu]]%lookup_insert_Some; rewrite Hsh.
    + rewrite decide_True by done. set_solver.
    + pose proof (rf_has _ _ R k u Hu) as He. case_decide as Hc; [|done].
      rewrite Hc in He. set_solver.
  - intros k u [[<- <-]|[Hne Hu]]%lookup_insert_Some; [done|]. by apply (rf_key _ _ R).
  - cbn [total fetch_add1 set_index set_shard]. rewrite (rf_total _ _ R), map_size_insert_None by done.
    rewrite Z.mod_small; [lia|]. unfold MAX_TOTAL, u64_max in *. lia.
  - rewrite map_size_insert_None by done. lia.
  - intros k h'. cbn [nonce_index fetch_add1 set_index set_shard].
    rewrite lookup_insert_Some, (rf_index _ _ R). setoid_rewrite lookup_insert_Some.
    split.
    + intros [[<- <-]|[Hne (u & Hu & <-)]]; [eauto|]. exists u. split; [|done].
      right. split; [|done]. intros ->. congruence.
    + intros (u & [[<- <-]|[Hne Hu]] & <-); [by left|]. right. split; [|eauto].
      intros E. by apply (Hfree h' u).
Qed.

Lemma refines_insert p a now t :
  refines p a -> t ∈ U ->
  (insert now t p).1 = (spec_insert now t a).1 /\
  refines (insert now t p).2 (spec_insert now t a).2.
Proof.
  intros R HU. unfold insert, spec_insert. destruct (stale now t); [done|].
  rewrite (refines_conflicting p a) by done. destruct (spent t _ a) eqn:Hs; [done|].
  rewrite (rf_total _ _ R). case_bool_decide as Hfull; [done|].
  rewrite (refines_shard_contains p a) by done. case_bool_decide as Hd; [done|].
  split; [done|]. apply eq_None_not_Some in Hd.
  exact (refines_push p a t (hex t.(hash)) R HU eq_refl Hd Hs ltac:(lia)).
Qed.

Lemma refines_remove p a h : refines p a -> refines (remove h p) (delete h a).
Proof.
  intros R. unfold remove, remove_by_hash. rewrite (bool_decide_ext _ (is_Some (a !! h))).
  2: { rewrite (rf_map _ _ R) by apply shard_idx_lt. unfold is_Some.
       setoid_rewrite of_shard_lookup. naive_solver. }
  case_bool_decide as Hh.
  - destruct Hh as [t Ht]. eapply (refines_delete p a h t); eauto.
    intros k h'. cbn [nonce_index set_shard]. by rewrite map_lookup_filter_Some.
  - rewrite delete_id by by apply eq_None_not_Some.
    assert (E : set_shard (shard_idx h) (MkShard (heap (shard (shard_idx h) p))
                  (map (shard (shard_idx h) p) ∖ {[h]})) p = p); [|by rewrite E].
    assert (Hn : h ∉ map (shard (shard_idx h) p)).
    { rewrite (rf_map _ _ R) by apply shard_idx_lt. unfold is_Some.
      setoid_rewrite of_shard_lookup. naive_solver. }
    replace (map (shard (shard_idx h) p) ∖ {[h]}) with (map (shard (shard_idx h) p)) by set_solver.
    unfold set_shard, shard. destruct p as [ss n ni]; cbn [shards total nonce_index]. f_equal.
    destruct (lookup_lt_is_Some_2 ss (shard_idx h)) as [s Es].
    { pose proof (rf_length _ _ R) as Hl. simpl in Hl. rewrite Hl. apply shard_idx_lt. }
    rewrite Es. destruct s. by apply list_insert_id.
Qed.

(** Two transactions of one digest are the same. *)
Hypothesis U_ok : forall t u, t ∈ U -> u ∈ U -> hex t.(hash) = hex u.(hash) -> t = u.

(** The entry of a pending hash holds the pending transaction. *)
Lemma refines_entry p a i e :
  refines p a -> (i < SHARD_COUNT)%nat -> e ∈ (shard i p).(heap) ->
  e.(hash_hex) ∈ (shard i p).(map) ->
  e = entry_of e.(tx) (hex e.(tx).(hash)) /\ of_shard i a !! hex e.(tx).(hash) = Some e.(tx).
Proof.
  intros R Hi He Hm. destruct (rf_heap _ _ R i e Hi He) as [Ee HU]. split; [done|].
  apply (rf_map _ _ R) in Hm as [t Ht]; [|done]. rewrite Ee in Ht. cbn [hash_hex entry_of] in Ht.
  rewrite Ht. f_equal. apply of_shard_lookup in Ht as [Ht _].
  destruct (rf_key _ _ R _ t Ht) as [E HUt]. symmetry. by apply U_ok.
Qed.

Lemma refines_drain_pop p a i :
  refines p a -> (i < SHARD_COUNT)%nat ->
  match drain_pop i p with
  | (None, p') => of_shard i a = ∅ /\ refines p' a
  | (Some t, p') =>
      of_shard i a !! hex t.(hash) = Some t /\
      (forall h u, of_shard i a !! h = Some u -> better u t = false) /\
      refines p' (delete (hex t.(hash)) a)
  end.
Proof.
  intros R Hi. unfold drain_pop. destruct (pop_best (shard i p)) as [o s] eqn:E.
  unfold pop_best in E. apply pop_loop_spec in E; [|lia]. destruct o as [t|].
  - destruct E as (e & He & <- & Hm & Hbest & Hmap & Hsub & Hkeep).
    destruct (refines_entry p a i e R Hi He Hm) as [Ee Ha].
    assert (Hh : e.(hash_hex) = hex e.(tx).(hash)) by (by rewrite Ee).
    apply of_shard_lookup in Ha as [Ha Hsi]. subst i. split_and!.
    + by apply of_shard_lookup.
    + intros h u [Hu Hx]%of_shard_lookup. rewrite Ee in Hbest. eapply entry_cmp_better, Hbest.
      * pose proof (rf_has _ _ R h u Hu) as Hin. rewrite Hx in Hin. exact Hin.
      * apply (rf_map _ _ R); [done|]. exists u. by apply of_shard_lookup.
    + rewrite Hh in *. eapply (refines_delete p a _ e.(tx)); eauto. intros k h'.
      cbn [nonce_index set_shard]. rewrite lookup_delete_Some, (rf_index _ _ R). split.
      * intros [Hk (u & Hu & Ek)]. split; [eauto|]. intros ->. congruence.
      * intros [(u & Hu & <-) Hne]. split; [|eauto]. intros Ek. apply Hne.
        assert (E1 : p.(nonce_index) !! nonce_key u = Some h') by (apply (rf_index _ _ R); eauto).
        assert (E2 : p.(nonce_index) !! nonce_key u = Some (hex (hash (tx e)))).
        { apply (rf_index _ _ R). eauto. }
        congruence.
  - destruct E as [Hn ->].
    assert (Hemp : forall h t, a !! h = Some t -> shard_idx h <> i).
    { intros h t Ht <-. apply (Hn _ (rf_has _ _ R h t Ht)). apply (rf_map _ _ R); [done|].
      exists t. by apply of_shard_lookup. }
    split; [by apply of_shard_empty|].
    assert (Hsh : forall j, shard j (set_shard i (MkShard [] (map (shard i p))) p) =
             if decide (j = i) then MkShard [] (map (shard i p)) else shard j p).
    { intros j. apply shard_set_shard. by rewrite (rf_length _ _ R). }
    destruct R as [Rl Rm Rh Rs Rk Rt Rb Ri]. split; auto.
    + simpl. by rewrite length_insert.
    + intros j h Hj. rewrite Hsh. case_decide; subst; simpl; auto.
    + intros j e Hj. rewrite Hsh. case_decide; [set_solver|by apply Rh].
    + intros h t Ht. rewrite Hsh. rewrite decide_False by eauto. auto.
Qed.

Lemma refines_drain_take k p a i :
  refines p a -> (i < SHARD_COUNT)%nat ->
  exists a', takes i k a (drain_take k i p).1 a' /\ refines (drain_take k i p).2 a'.
Proof.
  intros R Hi. revert p a R. induction k as [|k IH]; intros p a R; cbn [drain_take].
  { exists a. split; [constructor|done]. }
  pose proof (refines_drain_pop p a i R Hi) as Hp. destruct (drain_pop i p) as [[t|] p'].
  - destruct Hp as (Ht & Hb & R'). destruct (IH _ _ R') as (a' & Htk & R2).
    destruct (drain_take k i p') as [out p2]. exists a'. split; [|done]. by econstructor.
  - destruct Hp as [He R']. exists a. split; [by constructor|done].
Qed.

Lemma takes_none i k a : of_shard i a = ∅ -> takes i k a [] a.
Proof. constructor; done. Qed.

Lemma refines_drain_shards is_ per n p a :
  refines p a -> Forall (fun i => (i < SHARD_COUNT)%nat) is_ ->
  exists a', drains per is_ n a (drain_shards is_ per n p).1 a' /\
             refines (drain_shards is_ per n p).2 a'.
Proof.
  intros R His. revert n p a R. induction His as [|i is_ Hi His IH]; intros n p a R; cbn [drain_shards].
  { exists a. split; [constructor|done]. }
  case_bool_decide as Hn; [subst; exists a; split; [constructor|done]|].
  unfold shard_is_empty. case_bool_decide as He.
  - destruct (IH n p a R) as (a' & Hd & R'). exists a'. split; [|done].
    apply (drains_shard per i is_ n a [] a); [|by rewrite Nat.sub_0_r].
    apply takes_none, map_empty. intros h. apply eq_None_not_Some. rewrite <-(rf_map _ _ R i h Hi).
    set_solver.
  - destruct (refines_drain_take (per `min` n) p a i R Hi) as (a1 & Ht & R1).
    destruct (drain_take (per `min` n) i p) as [out p1]; simpl in Ht, R1.
    destruct (IH (n - length out)%nat p1 a1 R1) as (a2 & Hd & R2).
    destruct (drain_shards is_ per (n - length out) p1) as [out' p2]; simpl in Hd, R2.
    exists a2. split; [by econstructor|done].
Qed.

#[local] Opaque drain_shards.
Lemma refines_step p a op :
  refines p a -> (forall now t, op = OInsert now t -> t ∈ U) ->
  exists a', spec_step a op (pool_step p op).1 a' /\ refines (pool_step p op).2 a'.
Proof.
  intros R HU. destruct op as [now t|h|n|h| |]; cbn [pool_step].
  - destruct (refines_insert p a now t R (HU now t eq_refl)) as [E R'].
    destruct (insert now t p) as [r p']; simpl in *. subst r. eexists; split; [constructor|done].
  - exists a. unfold contains. rewrite (refines_shard_contains p a) by done. split; [constructor|done].
  - destruct (refines_drain_shards (seq 0 SHARD_COUNT) (per_shard n) n p a R) as (a' & Hd & R').
    { apply Forall_forall. intros i. rewrite elem_of_seq. lia. }
    change (drain_shards _ _ _ p) with (drain_n n p) in Hd, R'.
    destruct (drain_n n p) as [out p']. exists a'.
    split; [by constructor|done].
  - exists (delete h a). split; [constructor|]. by apply refines_remove.
  - exists a. unfold len. rewrite (rf_total _ _ R). split; [constructor|done].
  - exists a. split; [|done]. unfold is_empty, len. rewrite (rf_total _ _ R).
    rewrite (bool_decide_ext (Z.of_nat (size a) = 0) (a = ∅)); [constructor|].
    rewrite <-map_size_empty_iff. lia.
Qed.

Lemma refines_run ops p a :
  refines p a -> (forall t, t ∈ offered ops -> t ∈ U) ->
  exists a', spec_run a ops (pool_run p ops).1 a' /\ refines (pool_run p ops).2 a'.
Proof.
  revert p a. induction ops as [|op ops IH]; intros p a R HU; cbn [pool_run].
  { exists a. split; [constructor|done]. }
  destruct (refines_step p a op R) as (a1 & Hs & R1).
  { intros now t ->. apply HU. unfold offered. simpl. set_solver. }
  destruct (pool_step p op) as [x p1]; simpl in Hs, R1.
  destruct (IH p1 a1 R1) as (a2 & Hr & R2).
  { intros t Ht. apply HU. unfold offered. destruct op; simpl; set_solver. }
  destruct (pool_run p1 ops) as [xs p2]; simpl in Hr, R2.
  exists a2. split; [by econstructor|done].
Qed.
End Facts.
