(* ===== verification/MempoolTheorems.v ===== *)
(** * The theorems about the transaction pool *)
From S2P Require Import LedgerFacts.
From S2P Require Import Prelude Crypto Mempool MempoolSpec.
Local Open Scope Z_scope.

Section Theorems.
Context `{HexEncode} `{!MaxHeap entry_cmp}.

Lemma offered_identify ops t u :
  digests_identify ops -> t ∈ offered ops -> u ∈ offered ops -> hex t.(hash) = hex u.(hash) -> t = u.
Proof.
  intros Hd Ht Hu. unfold digests_identify in Hd. rewrite Forall_forall in Hd.
  specialize (Hd t Ht). rewrite Forall_forall in Hd. by apply Hd.
Qed.

(** The map that a run of the pool stands for. *)
Lemma run_refines ops :
  digests_identify ops ->
  exists a, spec_run ∅ ops (pool_run mempool_new ops).1 a /\
            refines (offered ops) (pool_run mempool_new ops).2 a.
Proof.
  intros Hd. apply (refines_run (offered ops) (fun t u => offered_identify ops t u Hd)); [|done].
  apply refines_new.
Qed.

(** The same when one more transaction is about to be offered. *)
Lemma run_refines_more ops t :
  digests_identify (ops ++ [OInsert 0 t]) ->
  exists a, refines (offered ops ++ [t]) (pool_run mempool_new ops).2 a.
Proof.
  intros Hd. assert (Ho : offered (ops ++ [OInsert 0 t]) = offered ops ++ [t]).
  { unfold offered. by rewrite omap_app. }
  destruct (refines_run (offered ops ++ [t])
              ltac:(rewrite <-Ho; exact (fun t u => offered_identify _ t u Hd))
              ops mempool_new ∅) as (a & _ & R).
  - apply refines_new.
  - set_solver.
  - by exists a.
Qed.

(** A pending transaction other than [t] spends the nonce of [t]. *)
Definition rival (ops : list Op) (p : ShardedMempool) (t u : Transaction) : Prop :=
  u ∈ offered ops /\ nonce_key u = nonce_key t /\
  hex u.(hash) <> hex t.(hash) /\ contains (hex u.(hash)) p = true.

Lemma contains_refines U p a h : refines U p a -> contains h p = bool_decide (is_Some (a !! h)).
Proof. apply refines_shard_contains. Qed.

Lemma spent_rival ops p a t :
  digests_identify (ops ++ [OInsert 0 t]) -> refines (offered ops ++ [t]) p a ->
  spent t (hex t.(hash)) a = true <-> exists u, rival ops p t u.
Proof.
  intros Hd R. unfold spent, rival. rewrite bool_decide_eq_true. split.
  - intros (h & u & Hu & Hk & Hne). destruct (rf_key _ _ _ R h u Hu) as [-> HU]. exists u.
    rewrite (contains_refines _ p a _ R), bool_decide_true by eauto. split_and!; try done.
    apply elem_of_app in HU as [HU|HU]; [done|]. apply list_elem_of_singleton in HU. by subst.
  - intros (u & HU & Hk & Hne & Hc). rewrite (contains_refines _ p a _ R), bool_decide_eq_true in Hc.
    destruct Hc as [v Hv]. exists (hex u.(hash)), v. split_and!; [done| |done].
    destruct (rf_key _ _ _ R _ v Hv) as [E HUv]. rewrite <-Hk. f_equal.
    apply (offered_identify _ v u Hd); [unfold offered in *; rewrite omap_app; set_solver..|done].
Qed.

(** C18: The pool refines a plain map of pending transactions: every sequence of
    insertions, removals, drains and queries is answered exactly as the map
    answers it - each error of an insertion included, and each drain taking
    best transactions of each shard in turn - whatever order the heap breaks
    ties in, provided no two transactions offered share a digest. *)
Theorem mempool_refines ops :
  digests_identify ops ->
  exists a, spec_run ∅ ops (pool_run mempool_new ops).1 a /\
            len (pool_run mempool_new ops).2 = Z.of_nat (size a) /\
            Z.of_nat (size a) <= MAX_TOTAL.
Proof.
  intros Hd. destruct (run_refines ops Hd) as (a & Hr & R). exists a.
  split_and!; [done|apply R|apply R].
Qed.

(** What an insertion answers, in terms of what the pool can be asked: it is
    refused exactly when the transaction is too old or too new, when a pending
    transaction of another digest spends the same nonce, when the pool holds
    [MAX_TOTAL], or when it is pending already, in this order; a refusal
    changes nothing, and an acceptance makes exactly this digest pending. *)
Theorem mempool_insert_answers ops now t :
  digests_identify (ops ++ [OInsert 0 t]) ->
  let p := (pool_run mempool_new ops).2 in
  match insert now t p with
  | (Err e, p') => p' = p /\
      match e with
      | Expired => stale now t = true
      | NonceConflict => stale now t = false /\ exists u, rival ops p t u
      | Full => stale now t = false /\ (forall u, ~ rival ops p t u) /\ len p = MAX_TOTAL
      | Duplicate => stale now t = false /\ (forall u, ~ rival ops p t u) /\ len p < MAX_TOTAL /\
          contains (hex t.(hash)) p = true
      end
  | (Ok _, p') => stale now t = false /\ (forall u, ~ rival ops p t u) /\ len p < MAX_TOTAL /\
      contains (hex t.(hash)) p = false /\ len p' = len p + 1 /\
      forall h, contains h p' = bool_decide (h = hex t.(hash)) || contains h p
  end.
Proof.
  intros Hd. destruct (run_refines_more ops t Hd) as [a R]. cbv zeta.
  set (p := (pool_run mempool_new ops).2) in *.
  pose proof (spent_rival ops p a t Hd R) as Hrival.
  destruct (refines_insert (offered ops ++ [t]) p a now t R) as [E R']; [set_solver|].
  assert (Hsame : forall e, (insert now t p).1 = Err e -> (insert now t p).2 = p).
  { intros e. unfold insert. repeat case_match; intros; simplify_eq/=; done. }
  unfold spec_insert in E, R'. rewrite (contains_refines _ p a _ R).
  destruct (insert now t p) as [r p'] eqn:Ei; simpl in E, R', Hsame. unfold len.
  rewrite (rf_total _ _ _ R). pose proof (rf_bound _ _ _ R).
  destruct (stale now t); simpl in *; [subst r; eauto|].
  destruct (spent t (hex (hash t)) a); simpl in *; [subst r; intuition eauto|].
  assert (forall u, ~ rival ops p t u) by (intros u Hu; apply (eq_true_false_abs false); [|done]; naive_solver).
  case_bool_decide; simpl in *; [subst r; split_and!; eauto; lia|].
  case_bool_decide as Hin; simpl in *; subst r.
  - split_and!; eauto. lia.
  - split_and!; [done|done|lia|done| |].
    + rewrite (rf_total _ _ _ R'), map_size_insert_None; [lia|]. by apply eq_None_not_Some.
    + intros h. rewrite (contains_refines _ p' _ h R'), (contains_refines _ p a h R).
      destruct (decide (h = hex (hash t))) as [->|Hne].
      * by rewrite lookup_insert_eq, !bool_decide_true by eauto.
      * rewrite lookup_insert_ne, (bool_decide_false (h = _)) by done. done.
Qed.
End Theorems.

(** ** A heap and transactions to run the pool on *)
Module PoolDemo.

(** A greatest element, the last pushed of those that are. *)
Fixpoint pop_max (l : list HeapEntry) : option (HeapEntry * list HeapEntry) :=
  match l with
  | [] => None
  | x :: l =>
      match pop_max l with
      | None => Some (x, [])
      | Some (y, r) => match entry_cmp x y with
                       | Lt => Some (y, x :: r)
                       | _ => Some (x, l)
                       end
      end
  end.

Lemma entry_cmp_le x y :
  entry_cmp x y <> Lt <->
  y.(fee) < x.(fee) \/ (y.(fee) = x.(fee) /\ x.(ts_secs) <= y.(ts_secs)).
Proof.
  unfold entry_cmp. destruct (Z.compare_spec (fee x) (fee y));
    [destruct (Z.compare_spec (ts_secs y) (ts_secs x))|..]; intuition (try done; lia).
Qed.

Lemma pop_max_None l : pop_max l = None <-> l = [].
Proof. destruct l; simpl; [done|]. repeat case_match; naive_solver. Qed.

Lemma pop_max_Some l x r :
  pop_max l = Some (x, r) -> l ≡ₚ x :: r /\ forall y, y ∈ l -> entry_cmp x y <> Lt.
Proof.
  revert x r. induction l as [|z l IH]; intros x r; simpl; [done|].
  destruct (pop_max l) as [[y q]|] eqn:E.
  - destruct (IH _ _ eq_refl) as [Hp Hm]. setoid_rewrite entry_cmp_le in Hm.
    pose proof (entry_cmp_le z y) as Hc. setoid_rewrite elem_of_cons. setoid_rewrite entry_cmp_le.
    destruct (entry_cmp z y); intros [= <- <-].
    + split; [done|]. intros w [->|Hw]; [lia|]. specialize (Hm w Hw). intuition (try done; lia).
    + split; [rewrite Hp; constructor|]. intros w [->|Hw]; [|by apply Hm].
      assert (~ (fee y < fee z \/ fee y = fee z /\ ts_secs z <= ts_secs y)) by (rewrite <-Hc; tauto). lia.
    + split; [done|]. intros w [->|Hw]; [lia|]. specialize (Hm w Hw). intuition (try done; lia).
  - apply pop_max_None in E as ->. intros [= <- <-]. split; [done|].
    setoid_rewrite entry_cmp_le. intros y. rewrite list_elem_of_singleton. intros ->. lia.
Qed.

#[export] Instance list_heap : MaxHeap entry_cmp :=
  {| heap_pop := pop_max; heap_pop_None := pop_max_None; heap_pop_Some := pop_max_Some |}.

#[export] Instance hex_digits : HexEncode := Hex.encode.

Definition pay (digest sender n secs ru : Z) : Transaction :=
  MkTransaction (repeat digest 32) (repeat sender 20) n (secs * 1000) ru 0 0 [].

(** Three senders; one nonce offered twice; a removal; a drain; a late one. *)
Definition demo_ops : list Op :=
  [ OInsert 1000 (pay 1 7 1 1000 50); OInsert 1000 (pay 2 7 1 1000 90);
    OInsert 1000 (pay 3 8 1 990 70); OInsert 1000 (pay 4 9 1 980 70); OInsert 1000 (pay 3 8 1 990 70);
    ORemove (Hex.encode (repeat 1 32)); OInsert 1000 (pay 2 7 1 1000 90); OLen;
    ODrain 2; OContains (Hex.encode (repeat 4 32)); OInsert 9000 (pay 5 9 2 980 70); ODrain 9 ].

Example demo_answers :
  (pool_run mempool_new demo_ops).1 =
  [ AInsert (Ok ()); AInsert (Err NonceConflict); AInsert (Ok ()); AInsert (Ok ());
    AInsert (Err Duplicate); ARemove; AInsert (Ok ()); ALen 3;
    ADrain [pay 3 8 1 990 70; pay 2 7 1 1000 90]; AContains true;
    AInsert (Err Expired); ADrain [pay 4 9 1 980 70] ].
Proof. vm_compute. reflexivity. Qed.

Lemma mempool_refines_witness :
  digests_identify demo_ops /\
  exists a, spec_run ∅ demo_ops (pool_run mempool_new demo_ops).1 a /\
            len (pool_run mempool_new demo_ops).2 = Z.of_nat (size a) /\
            Z.of_nat (size a) <= MAX_TOTAL.
Proof.
  assert (Hd : digests_identify demo_ops) by (apply (bool_decide_eq_true_1 _); vm_compute; reflexivity).
  split; [exact Hd|]. exact (mempool_refines demo_ops Hd).
Defined.

Definition offer : Transaction := pay 6 8 1 985 10.

Lemma mempool_insert_answers_witness :
  digests_identify (take 4 demo_ops ++ [OInsert 0 offer]) /\
  insert 1000 offer (pool_run mempool_new (take 4 demo_ops)).2 =
    (Err NonceConflict, (pool_run mempool_new (take 4 demo_ops)).2) /\
  exists u, rival (take 4 demo_ops) (pool_run mempool_new (take 4 demo_ops)).2 offer u.
Proof.
  assert (Hd : digests_identify (take 4 demo_ops ++ [OInsert 0 offer]))
    by (apply (bool_decide_eq_true_1 _); vm_compute; reflexivity).
  split; [exact Hd|]. pose proof (mempool_insert_answers (take 4 demo_ops) 1000 offer Hd) as Ha.
  cbv zeta in Ha.
  assert (E : (insert 1000 offer (pool_run mempool_new (take 4 demo_ops)).2).1 = Err NonceConflict)
    by (vm_compute; reflexivity).
  destruct (insert 1000 offer _) as [r p']. simpl in E. subst r.
  destruct Ha as [-> [_ Hr]]. split; [reflexivity|exact Hr].
Defined.

(** The pool trusts the digest field.  When a transaction is offered under the
    digest of one that was removed before, a drain can hand out the removed one
    instead, and the nonce of the other stays taken in an empty pool: the next
    transaction that spends it is refused. *)
Lemma shared_digest_leaks_nonce :
  let a := pay 1 7 1 1000 90 in
  let b := pay 1 8 1 1000 50 in
  let c := pay 2 8 1 1000 50 in
  (pool_run mempool_new
     [ OInsert 1000 a; ORemove (Hex.encode (repeat 1 32)); OInsert 1000 b; ODrain 1; OLen;
       OInsert 1000 c ]).1 =
  [ AInsert (Ok ()); ARemove; AInsert (Ok ()); ADrain [a]; ALen 0; AInsert (Err NonceConflict) ].
Proof. vm_compute. reflexivity. Qed.
End PoolDemo.
