(* ===== verification/Abi.v ===== *)
(** * The contract ABI

    Model of [crates/ego-vm/src/abi.rs]: the types and values of call data,
    their encoding, the decoder with all its errors, and function selectors. *)
From S2P Require Import Prelude Crypto.
From stdpp Require Import pretty.
Local Open Scope Z_scope.
Local Open Scope ego_scope.

(** ** UTF-8

    What [str::from_utf8] accepts: the well-formed byte sequences of the
    Unicode standard. *)
Definition cont (b : Z) : bool := bool_decide (0x80 <= b <= 0xBF).

Fixpoint utf8_valid (l : bytes) : bool :=
  match l with
  | [] => true
  | b :: l =>
      if bool_decide (0 <= b <= 0x7F) then utf8_valid l
      else
        match l with
        | [] => false
        | c :: l =>
            if bool_decide (0xC2 <= b <= 0xDF) then cont c && utf8_valid l
            else
              match l with
              | [] => false
              | d :: l =>
                  if bool_decide (0xE0 <= b <= 0xEF) then
                    (if bool_decide (b = 0xE0) then bool_decide (0xA0 <= c <= 0xBF)
                     else if bool_decide (b = 0xED) then bool_decide (0x80 <= c <= 0x9F)
                     else cont c) && cont d && utf8_valid l
                  else
                    match l with
                    | [] => false
                    | e :: l =>
                        (if bool_decide (b = 0xF0) then bool_decide (0x90 <= c <= 0xBF)
                         else if bool_decide (b = 0xF4) then bool_decide (0x80 <= c <= 0x8F)
                         else bool_decide (0xF1 <= b <= 0xF3) && cont c) &&
                        cont d && cont e && utf8_valid l
                    end
              end
        end
  end.

(** The text of a [Utf8Error]. *)
Class Utf8Text : Type := utf8_error : bytes -> string.

(** ** Types, values and errors *)

Inductive AbiError : Type :=
| BufferUnderflow (need offset have : nat)
| InvalidBool (byte : Z) (offset : nat)
| InvalidUtf8 (offset : nat) (detail : string)
| InvalidFixedBytesLen (len : nat)
| TypeMismatch (expected got : string)
| MissingSelector (have : nat)
| CountMismatch (types values : nat)
| TrailingBytes (trailing : nat).

Inductive AbiType : Type :=
| TUint8
| TUint16
| TUint32
| TUint64
| TUint128
| TInt8
| TInt16
| TInt32
| TInt64
| TBool
| TAddress
| TBytes
| TString
| TFixedBytes (n : Z).

#[export] Instance AbiType_eq_dec : EqDecision AbiType.
Proof. solve_decision. Defined.

Definition canonical (t : AbiType) : string :=
  match t with
  | TUint8 => "uint8"
  | TUint16 => "uint16"
  | TUint32 => "uint32"
  | TUint64 => "uint64"
  | TUint128 => "uint128"
  | TInt8 => "int8"
  | TInt16 => "int16"
  | TInt32 => "int32"
  | TInt64 => "int64"
  | TBool => "bool"
  | TAddress => "address"
  | TBytes => "bytes"
  | TString => "string"
  | TFixedBytes n => "bytes" +:+ pretty n
  end%string.

Definition fixed_size (t : AbiType) : option nat :=
  match t with
  | TUint8 => Some 1
  | TUint16 => Some 2
  | TUint32 => Some 4
  | TUint64 => Some 8
  | TUint128 => Some 16
  | TInt8 => Some 1
  | TInt16 => Some 2
  | TInt32 => Some 4
  | TInt64 => Some 8
  | TBool => Some 1
  | TAddress => Some 20
  | TFixedBytes n => Some (Z.to_nat n)
  | TBytes | TString => None
  end%nat.

(** A [String] is the list of its bytes. *)
Inductive AbiValue : Type :=
| Uint8 (v : Z)
| Uint16 (v : Z)
| Uint32 (v : Z)
| Uint64 (v : Z)
| Uint128 (v : Z)
| Int8 (v : Z)
| Int16 (v : Z)
| Int32 (v : Z)
| Int64 (v : Z)
| VBool (b : bool)
| VAddress (a : bytes)
| VBytes (b : bytes)
| VString (s : bytes)
| FixedBytes (b : bytes).

#[export] Instance AbiValue_eq_dec : EqDecision AbiValue.
Proof. solve_decision. Defined.

(** [v.len() as u8] keeps the low byte. *)
Definition abi_type (v : AbiValue) : AbiType :=
  match v with
  | Uint8 _ => TUint8
  | Uint16 _ => TUint16
  | Uint32 _ => TUint32
  | Uint64 _ => TUint64
  | Uint128 _ => TUint128
  | Int8 _ => TInt8
  | Int16 _ => TInt16
  | Int32 _ => TInt32
  | Int64 _ => TInt64
  | VBool _ => TBool
  | VAddress _ => TAddress
  | VBytes _ => TBytes
  | VString _ => TString
  | FixedBytes v => TFixedBytes (Z.of_nat (length v) mod 256)
  end.

(** ** The encoder *)

(** [b.len() as u32] keeps the low 32 bits; [to_le_bytes] of a negative value
    gives its two's complement. *)
Definition encode_one (v : AbiValue) : bytes :=
  match v with
  | Uint8 v => [v]
  | Uint16 v => to_le_bytes 2 v
  | Uint32 v => to_le_bytes 4 v
  | Uint64 v => to_le_bytes 8 v
  | Uint128 v => to_le_bytes 16 v
  | Int8 v => [v mod 256]
  | Int16 v => to_le_bytes 2 v
  | Int32 v => to_le_bytes 4 v
  | Int64 v => to_le_bytes 8 v
  | VBool b => [if b then 1 else 0]
  | VAddress a => a
  | VBytes b => u32_le (Z.of_nat (length b)) ++ b
  | VString s => u32_le (Z.of_nat (length s)) ++ s
  | FixedBytes b => b
  end.

Definition encode (values : list AbiValue) : bytes := concat (encode_one <$> values).

(** ** The decoder *)

(** The value of an integer of [n] bytes in two's complement. *)
Definition signed (n : nat) (x : Z) : Z :=
  if bool_decide (x < 256 ^ Z.of_nat n / 2) then x else x - 256 ^ Z.of_nat n.

Definition read_bytes (data : bytes) (offset need : nat) : result (bytes * nat) AbiError :=
  let have := (length data - offset)%nat in
  if bool_decide (have < need)%nat then Err (BufferUnderflow need offset have)
  else Ok (take need (drop offset data), (offset + need)%nat).

(** A value of [n] bytes read as an integer. *)
Definition read_int (n : nat) (f : Z -> AbiValue) (data : bytes) (offset : nat) :
    result (AbiValue * nat) AbiError :=
  let? '(b, offset) := read_bytes data offset n in
  Ok (f (from_le_bytes b), offset).

(** A length of four bytes, then so many bytes. *)
Definition read_sized (data : bytes) (offset : nat) : result (bytes * nat) AbiError :=
  let? '(len_bytes, offset) := read_bytes data offset 4 in
  read_bytes data offset (Z.to_nat (from_le_bytes len_bytes)).

Section Decoder.
Context `{Utf8Text}.

Definition decode_one (t : AbiType) (data : bytes) (offset : nat) :
    result (AbiValue * nat) AbiError :=
  match t with
  | TUint8 => read_int 1 Uint8 data offset
  | TUint16 => read_int 2 Uint16 data offset
  | TUint32 => read_int 4 Uint32 data offset
  | TUint64 => read_int 8 Uint64 data offset
  | TUint128 => read_int 16 Uint128 data offset
  | TInt8 => read_int 1 (fun x => Int8 (signed 1 x)) data offset
  | TInt16 => read_int 2 (fun x => Int16 (signed 2 x)) data offset
  | TInt32 => read_int 4 (fun x => Int32 (signed 4 x)) data offset
  | TInt64 => read_int 8 (fun x => Int64 (signed 8 x)) data offset
  | TBool =>
      let? '(b, offset) := read_bytes data offset 1 in
      let byte := from_le_bytes b in
      if bool_decide (byte = 0) then Ok (VBool false, offset)
      else if bool_decide (byte = 1) then Ok (VBool true, offset)
      else Err (InvalidBool byte (offset - 1))
  | TAddress =>
      let? '(b, offset) := read_bytes data offset 20 in
      Ok (VAddress b, offset)
  | TBytes =>
      let? '(body, offset) := read_sized data offset in
      Ok (VBytes body, offset)
  | TString =>
      let? '(body, offset) := read_sized data offset in
      if utf8_valid body then Ok (VString body, offset)
      else Err (InvalidUtf8 (offset - length body) (utf8_error body))
  | TFixedBytes n =>
      let n := Z.to_nat n in
      if bool_decide (n = 0%nat) || bool_decide (32 < n)%nat then Err (InvalidFixedBytesLen n)
      else
        let? '(b, offset) := read_bytes data offset n in
        Ok (FixedBytes b, offset)
  end.

Fixpoint decode_all (types : list AbiType) (data : bytes) (offset : nat) :
    result (list AbiValue * nat) AbiError :=
  match types with
  | [] => Ok ([], offset)
  | t :: types =>
      let? '(v, offset) := decode_one t data offset in
      let? '(vs, offset) := decode_all types data offset in
      Ok (v :: vs, offset)
  end.

Definition decode (types : list AbiType) (data : bytes) : result (list AbiValue) AbiError :=
  let? '(values, offset) := decode_all types data 0 in
  if negb (bool_decide (offset = length data)) then Err (TrailingBytes (length data - offset))
  else Ok values.

(** ** Selectors *)

Context `{CryptoPrims}.

Definition signature (fn_name : string) (param_types : list AbiType) : string :=
  (fn_name +:+ "(" +:+ String.concat "," (canonical <$> param_types) +:+ ")")%string.

Definition compute (fn_name : string) (param_types : list AbiType) : bytes :=
  take 4 (blake2s (ascii_bytes (signature fn_name param_types))).

(** [None]: the lengths differ and the assertion fails. *)
Definition encode_call (fn_name : string) (param_types : list AbiType) (args : list AbiValue) :
    option bytes :=
  if bool_decide (length param_types = length args)
  then Some (compute fn_name param_types ++ encode args) else None.

Definition decode_call (param_types : list AbiType) (data : bytes) :
    result (bytes * list AbiValue) AbiError :=
  if bool_decide (length data < 4)%nat then Err (MissingSelector (length data))
  else
    let? args := decode param_types (drop 4 data) in
    Ok (take 4 data, args).
End Decoder.
