(* ===== verification/AbiTheorems.v ===== *)
(** * The theorems about the contract ABI *)
From S2P Require Import Prelude Crypto Abi.
Local Open Scope Z_scope.
Local Open Scope ego_scope.

(** ** Values of their types *)

Definition small_bytes (max : Z) (b : bytes) : Prop :=
  Z.of_nat (length b) <= max /\ Forall in_u8 b.

(** The values a Rust program can hold; a [FixedBytes] of 1 to 32 bytes, and
    [Bytes] and [String] whose length fits 32 bits. *)
Definition value_ok (v : AbiValue) : Prop :=
  match v with
  | Uint8 v => 0 <= v < 256 ^ 1
  | Uint16 v => 0 <= v < 256 ^ 2
  | Uint32 v => 0 <= v < 256 ^ 4
  | Uint64 v => 0 <= v < 256 ^ 8
  | Uint128 v => 0 <= v < 256 ^ 16
  | Int8 v => - (256 ^ 1 / 2) <= v < 256 ^ 1 / 2
  | Int16 v => - (256 ^ 2 / 2) <= v < 256 ^ 2 / 2
  | Int32 v => - (256 ^ 4 / 2) <= v < 256 ^ 4 / 2
  | Int64 v => - (256 ^ 8 / 2) <= v < 256 ^ 8 / 2
  | VBool _ => True
  | VAddress a => length a = 20%nat /\ Forall in_u8 a
  | VBytes b => small_bytes u32_max b
  | VString s => small_bytes u32_max s /\ utf8_valid s = true
  | FixedBytes b => (1 <= length b)%nat /\ small_bytes 32 b
  end.

#[export] Instance value_ok_dec v : Decision (value_ok v).
Proof. destruct v; unfold value_ok, small_bytes; apply _. Defined.

(** ** Reading *)

Lemma read_bytes_Ok data offset need b offset' :
  (offset <= length data)%nat ->
  read_bytes data offset need = Ok (b, offset') <->
  length b = need /\ offset' = (offset + need)%nat /\ b `prefix_of` drop offset data.
Proof.
  intros Ho. unfold read_bytes. case_bool_decide as Hn.
  - split; [done|]. intros (Hl & _ & Hp). apply prefix_length in Hp. rewrite length_drop in Hp. lia.
  - split.
    + intros [= <- <-]. split_and!; [rewrite length_take, length_drop; lia|done|].
      apply prefix_take.
    + intros (<- & -> & [k ->]). by rewrite take_app_length.
Qed.

Lemma prefix_in_u8 (b data : bytes) offset :
  Forall in_u8 data -> b `prefix_of` drop offset data -> Forall in_u8 b.
Proof.
  intros Hd [k E]. apply (Forall_drop _ offset) in Hd. rewrite E in Hd.
  apply Forall_app in Hd. tauto.
Qed.

Section Reading.
Context (data : bytes) (Hdata : Forall in_u8 data) (offset : nat) (Ho : (offset <= length data)%nat).

Lemma read_int_Ok n f v offset' :
  read_int n f data offset = Ok (v, offset') <->
  exists x, 0 <= x < 256 ^ Z.of_nat n /\ v = f x /\ offset' = (offset + n)%nat /\
            to_le_bytes n x `prefix_of` drop offset data.
Proof.
  unfold read_int. rewrite result_bind_Ok. split.
  - intros ([b o] & [Hl [Ho' Hp]]%read_bytes_Ok & [= <- <-]); [|done].
    assert (Hb : Forall in_u8 b) by by eapply prefix_in_u8.
    exists (from_le_bytes b). rewrite <-Hl, to_from_le_bytes by done. split_and!; [| |done|subst; lia|done].
    + pose proof (from_le_bytes_bound b Hb). lia.
    + pose proof (from_le_bytes_bound b Hb). lia.
  - intros (x & Hx & -> & -> & Hp). exists (to_le_bytes n x, (offset + n)%nat).
    rewrite read_bytes_Ok, length_to_le_bytes, from_to_le_bytes by done. done.
Qed.

Lemma read_sized_Ok b offset' :
  read_sized data offset = Ok (b, offset') <->
  Z.of_nat (length b) <= u32_max /\
  offset' = (offset + length (u32_le (Z.of_nat (length b)) ++ b))%nat /\
  (u32_le (Z.of_nat (length b)) ++ b) `prefix_of` drop offset data.
Proof.
  unfold read_sized. rewrite result_bind_Ok. rewrite length_app, length_u32_le. split.
  - intros ([l o] & [Hl [-> Hp]]%read_bytes_Ok & E); [|done].
    assert (Hb : Forall in_u8 l) by by eapply prefix_in_u8.
    assert (Hlen : (offset + 4 <= length data)%nat).
    { apply prefix_length in Hp. rewrite length_drop in Hp. lia. }
    pose proof (from_le_bytes_bound l Hb) as Hbd. rewrite Hl in Hbd.
    apply read_bytes_Ok in E as (Hlb & -> & [k Ek]); [|done]. destruct Hp as [k' Ek'].
    rewrite <-drop_drop, Ek', drop_app_length' in Ek by done. rewrite Hlb, Z2Nat.id by lia.
    split_and!; [machine_lia|lia|]. unfold u32_le. rewrite <-Hl, to_from_le_bytes, Ek', Ek by done.
    rewrite app_assoc. by apply prefix_app_r.
  - intros (Hmax & -> & [k Ek]). exists (u32_le (Z.of_nat (length b)), (offset + 4)%nat). split.
    + rewrite read_bytes_Ok, length_u32_le by done. split_and!; [done..|].
      rewrite Ek, <-app_assoc. by apply prefix_app_r.
    + unfold u32_le. rewrite from_to_le_bytes, Nat2Z.id by (machine_lia || simpl; machine_lia).
      rewrite read_bytes_Ok.
      * split_and!; [done|lia|]. rewrite <-drop_drop, Ek, <-app_assoc, drop_app_length'; [|done].
        by apply prefix_app_r.
      * apply (f_equal length) in Ek. rewrite !length_app, length_drop, length_u32_le in Ek. lia.
Qed.
End Reading.

(** Two's complement. *)
Lemma signed_range n x :
  (0 < n)%nat -> 0 <= x < 256 ^ Z.of_nat n ->
  - (256 ^ Z.of_nat n / 2) <= signed n x < 256 ^ Z.of_nat n / 2.
Proof.
  intros Hn Hx. unfold signed. destruct n as [|n]; [lia|].
  rewrite Nat2Z.inj_succ, Z.pow_succ_r in * by lia.
  replace (256 * 256 ^ Z.of_nat n) with (128 * 256 ^ Z.of_nat n * 2) in * by lia.
  rewrite Z.div_mul in * by lia. case_bool_decide; lia.
Qed.

Lemma signed_bytes n x : to_le_bytes n (signed n x) = to_le_bytes n x.
Proof.
  unfold signed. case_bool_decide; [done|]. rewrite <-to_le_bytes_mod.
  replace (x - 256 ^ Z.of_nat n) with (x + (-1) * 256 ^ Z.of_nat n) by lia.
  by rewrite Z_mod_plus_full, to_le_bytes_mod.
Qed.

Lemma signed_mod n v :
  (0 < n)%nat -> - (256 ^ Z.of_nat n / 2) <= v < 256 ^ Z.of_nat n / 2 ->
  signed n (v mod 256 ^ Z.of_nat n) = v.
Proof.
  intros Hn Hv. unfold signed. destruct n as [|n]; [lia|].
  rewrite Nat2Z.inj_succ, Z.pow_succ_r in * by lia.
  assert (0 < 256 ^ Z.of_nat n) by (apply Z.pow_pos_nonneg; lia).
  replace (256 * 256 ^ Z.of_nat n) with (128 * 256 ^ Z.of_nat n * 2) in * by lia.
  rewrite Z.div_mul in * by lia. set (w := 128 * 256 ^ Z.of_nat n) in *.
  destruct (decide (0 <= v)).
  - rewrite Z.mod_small by lia. rewrite bool_decide_true by lia. done.
  - assert (v mod (w * 2) = v + w * 2) as ->.
    { symmetry. apply (Z.mod_unique _ _ (-1)); [left|]; lia. }
    rewrite bool_decide_false by lia. lia.
Qed.

(** ** One value *)

(** [decode_one] reads exactly the encodings of the values of the type. *)
Definition reads (t : AbiType) (data : bytes) (offset : nat) (v : AbiValue) (offset' : nat) : Prop :=
  value_ok v /\ abi_type v = t /\ offset' = (offset + length (encode_one v))%nat /\
  encode_one v `prefix_of` drop offset data.

Section DecodeOne.
Context `{Utf8Text}.
Context (data : bytes) (Hdata : Forall in_u8 data) (offset : nat) (Ho : (offset <= length data)%nat).

Lemma reads_unsigned n (c : Z -> AbiValue) t v offset' :
  (forall x, value_ok (c x) <-> 0 <= x < 256 ^ Z.of_nat n) ->
  (forall x, encode_one (c x) = to_le_bytes n x \/ ~ 0 <= x < 256 ^ Z.of_nat n) ->
  (forall v, abi_type v = t <-> exists x, v = c x) ->
  read_int n c data offset = Ok (v, offset') <-> reads t data offset v offset'.
Proof.
  intros Hok Henc Ht. rewrite read_int_Ok by done. unfold reads. rewrite Ht. split.
  - intros (x & Hx & -> & -> & Hp). destruct (Henc x) as [->|]; [|done].
    rewrite length_to_le_bytes, Hok. eauto.
  - intros (Hv & [x ->] & -> & Hp). apply Hok in Hv. exists x. destruct (Henc x) as [E|]; [|done].
    rewrite E in *. by rewrite length_to_le_bytes.
Qed.

Lemma reads_signed n (c : Z -> AbiValue) t v offset' :
  (0 < n)%nat ->
  (forall x, value_ok (c x) <-> - (256 ^ Z.of_nat n / 2) <= x < 256 ^ Z.of_nat n / 2) ->
  (forall x, encode_one (c x) = to_le_bytes n x) ->
  (forall v, abi_type v = t <-> exists x, v = c x) ->
  read_int n (fun x => c (signed n x)) data offset = Ok (v, offset') <-> reads t data offset v offset'.
Proof.
  intros Hn Hok Henc Ht. rewrite read_int_Ok by done. unfold reads. rewrite Ht. split.
  - intros (x & Hx & -> & -> & Hp). rewrite Henc, signed_bytes, length_to_le_bytes, Hok.
    split_and!; eauto; by apply signed_range.
  - intros (Hv & [x ->] & -> & Hp). apply Hok in Hv. rewrite Henc in *. rewrite length_to_le_bytes.
    exists (x mod 256 ^ Z.of_nat n). rewrite signed_mod, to_le_bytes_mod by done.
    split_and!; try done; apply Z.mod_pos_bound, Z.pow_pos_nonneg; lia.
Qed.

Ltac by_cases := let v := fresh in intros v; destruct v; naive_solver.

Lemma to_le_bytes_1 x : to_le_bytes 1 x = [x mod 256].
Proof. done. Qed.

Lemma to_le_bytes_1_small x : [x] = to_le_bytes 1 x \/ ~ 0 <= x < 256 ^ Z.of_nat 1.
Proof.
  rewrite to_le_bytes_1. destruct (decide (0 <= x < 256)); [left|right; simpl; lia].
  by rewrite Z.mod_small.
Qed.

Lemma decode_one_Ok t v offset' :
  (forall n, t = TFixedBytes n -> 0 <= n < 256) ->
  decode_one t data offset = Ok (v, offset') <-> reads t data offset v offset'.
Proof.
  intros Hfb. destruct t; cbn [decode_one].
  - apply reads_unsigned; [done|apply to_le_bytes_1_small|by_cases].
  - apply reads_unsigned; [done|by left|by_cases].
  - apply reads_unsigned; [done|by left|by_cases].
  - apply reads_unsigned; [done|by left|by_cases].
  - apply reads_unsigned; [done|by left|by_cases].
  - apply reads_signed; [lia|done|done|by_cases].
  - apply reads_signed; [lia|done|done|by_cases].
  - apply reads_signed; [lia|done|done|by_cases].
  - apply reads_signed; [lia|done|done|by_cases].
  - rewrite result_bind_Ok. unfold reads. split.
    + intros ([b o] & [Hl [-> Hp]]%read_bytes_Ok & E); [|done].
      destruct b as [|x [|]]; [done| |done]. cbn [from_le_bytes] in E. revert E.
      repeat case_bool_decide; intros; simplify_eq/=; rewrite Z.add_0_r in *; subst; done.
    + destruct v as [| | | | | | | | |b| | | |]; try naive_solver.
      intros (_ & _ & -> & Hp). exists ([if b then 1 else 0], (offset + 1)%nat).
      rewrite read_bytes_Ok by done. split; [done|]. by destruct b.
  - rewrite result_bind_Ok. unfold reads. split.
    + intros ([b o] & [Hl [-> Hp]]%read_bytes_Ok & [= <- <-]); [|done].
      split; [split; [done|by eapply prefix_in_u8]|]. split_and!; [done|simpl; lia|done].
    + destruct v as [| | | | | | | | | |a| | |]; try naive_solver.
      intros ([Hl _] & _ & -> & Hp). exists (a, (offset + 20)%nat).
      rewrite read_bytes_Ok by done. simpl. by rewrite Hl.
  - rewrite result_bind_Ok. unfold reads. split.
    + intros ([b o] & (Hl & -> & Hp)%read_sized_Ok & [= <- <-]); [|done..].
      split_and!; try done. split; [done|].
      apply (prefix_in_u8 _ _ _ Hdata) in Hp. apply Forall_app in Hp. tauto.
    + destruct v as [| | | | | | | | | | |b| |]; try naive_solver.
      intros ([Hl _] & _ & -> & Hp). exists (b, (offset + length (encode_one (VBytes b)))%nat).
      by rewrite read_sized_Ok.
  - rewrite result_bind_Ok. unfold reads. split.
    + intros ([b o] & (Hl & -> & Hp)%read_sized_Ok & E); [|done..].
      destruct (utf8_valid b) eqn:Hu; [|done]. injection E as <- <-.
      split_and!; try done. split; [|done]. split; [done|].
      apply (prefix_in_u8 _ _ _ Hdata) in Hp. apply Forall_app in Hp. tauto.
    + destruct v as [| | | | | | | | | | | |b|]; try naive_solver.
      intros ([[Hl _] Hu] & _ & -> & Hp). exists (b, (offset + length (encode_one (VString b)))%nat).
      rewrite read_sized_Ok, Hu by done. done.
  - specialize (Hfb n eq_refl). unfold reads. destruct (bool_decide _ || _) eqn:Hn.
    + split; [done|]. intros (Hv & Ht & _). destruct v as [| | | | | | | | | | | | |b]; try naive_solver.
      destruct Hv as [H1 [H2 _]]. injection Ht as Ht. rewrite Z.mod_small in Ht by lia.
      apply orb_true_iff in Hn as [Hn|Hn]; apply bool_decide_eq_true in Hn; lia.
    + apply orb_false_iff in Hn as [H1 H2]. rewrite bool_decide_eq_false in H1, H2.
      rewrite result_bind_Ok. split.
      * intros ([b o] & [Hl [-> Hp]]%read_bytes_Ok & [= <- <-]); [|done].
        split; [split; [lia|split; [lia|by eapply prefix_in_u8]]|].
        split_and!; simpl; [|by rewrite Hl|done].
        rewrite Hl, Z2Nat.id, Z.mod_small by lia. done.
      * destruct v as [| | | | | | | | | | | | |b]; try naive_solver.
        intros ([Hl1 [Hl2 _]] & Ht & -> & Hp). injection Ht as Ht.
        rewrite Z.mod_small in Ht by lia. subst n. exists (b, (offset + length b)%nat).
        rewrite read_bytes_Ok by done. simpl. split; [|done]. rewrite Nat2Z.id. done.
Qed.
End DecodeOne.

(** ** Call data *)

(** The length of a [FixedBytes] type is a [u8]. *)
Definition type_ok (t : AbiType) : Prop := match t with TFixedBytes n => 0 <= n < 256 | _ => True end.

#[export] Instance type_ok_dec t : Decision (type_ok t).
Proof. destruct t; unfold type_ok; apply _. Defined.

Lemma type_ok_fixed t : type_ok t -> forall n, t = TFixedBytes n -> 0 <= n < 256.
Proof. by intros Ht n ->. Qed.

Lemma encode_cons v vs : encode (v :: vs) = encode_one v ++ encode vs.
Proof. done. Qed.

Lemma prefix_app_iff (a b l : bytes) :
  (a ++ b) `prefix_of` l <-> a `prefix_of` l /\ b `prefix_of` drop (length a) l.
Proof.
  split.
  - intros [k ->]. rewrite <-app_assoc. split; [by apply prefix_app_r|].
    rewrite drop_app_length. by apply prefix_app_r.
  - intros [[k ->] Hb]. rewrite drop_app_length in Hb. by apply prefix_app.
Qed.

Section Decode.
Context `{Utf8Text}.
Context (data : bytes) (Hdata : Forall in_u8 data).

Lemma decode_all_Ok types offset vs offset' :
  Forall type_ok types -> (offset <= length data)%nat ->
  decode_all types data offset = Ok (vs, offset') <->
  Forall value_ok vs /\ abi_type <$> vs = types /\
  offset' = (offset + length (encode vs))%nat /\ encode vs `prefix_of` drop offset data.
Proof.
  intros Ht. revert offset vs offset'. induction Ht as [|t types Ht _ IH]; intros offset vs offset' Ho; cbn [decode_all].
  - split.
    + intros [= <- <-]. split_and!; [constructor|done|simpl; lia|apply prefix_nil].
    + intros (_ & E & -> & _). apply fmap_nil_inv in E as ->. simpl. by rewrite Nat.add_0_r.
  - rewrite result_bind_Ok. split.
    + intros ([v o] & (Hv & <- & -> & Hp)%decode_one_Ok & E); [|done..|by apply type_ok_fixed].
      apply result_bind_Ok in E as ([ws o] & E & [= <- <-]).
      assert (offset + length (encode_one v) <= length data)%nat.
      { apply prefix_length in Hp. rewrite length_drop in Hp. lia. }
      apply IH in E as (Hw & <- & -> & Hq); [|done].
      rewrite encode_cons, length_app, prefix_app_iff, drop_drop. split_and!; [by constructor|done|lia|done..].
    + intros (Hv & E & -> & Hp). apply fmap_cons_inv in E as (v & ws & -> & Et & ->).
      inversion Hv as [|? ? Hv1 Hv2]; subst. rewrite encode_cons in *.
      apply prefix_app_iff in Hp as [Hp Hq]. rewrite drop_drop in Hq. rewrite length_app.
      exists (v, (offset + length (encode_one v))%nat). split.
      * apply decode_one_Ok; [done|done|by apply type_ok_fixed|]. by split_and!.
      * apply result_bind_Ok. exists (ws, (offset + (length (encode_one v) + length (encode ws)))%nat).
        split; [|done]. apply IH; [|split_and!; [done|done|lia|done]].
        apply prefix_length in Hp. rewrite length_drop in Hp. lia.
Qed.

Lemma decode_Ok types vs :
  Forall type_ok types ->
  decode types data = Ok vs <->
  Forall value_ok vs /\ abi_type <$> vs = types /\ encode vs = data.
Proof.
  intros Ht. unfold decode. rewrite result_bind_Ok. split.
  - intros ([ws o] & (Hv & E & -> & [k Ek])%decode_all_Ok & Eq); [|done|lia].
    rewrite drop_0 in Ek. revert Eq. case_bool_decide as Hl; [|done]. intros [= <-]. split_and!; [done..|].
    apply (f_equal length) in Ek as El. rewrite length_app in El. simpl in Hl.
    destruct k; [|simpl in El; lia]. by rewrite app_nil_r in Ek.
  - intros (Hv & E & Ed). exists (vs, length data). split.
    + apply decode_all_Ok; [done|lia|]. rewrite Ed, drop_0. by split_and!.
    + by rewrite bool_decide_true.
Qed.

(** Where the errors come from. *)
Definition explains (types : list AbiType) (e : AbiError) : Prop :=
  match e with
  | BufferUnderflow need offset have =>
      (offset <= length data)%nat /\ have = (length data - offset)%nat /\ (have < need)%nat
  | InvalidBool byte offset => data !! offset = Some byte /\ byte <> 0 /\ byte <> 1
  | InvalidUtf8 offset _ => exists len, utf8_valid (take len (drop offset data)) = false
  | InvalidFixedBytesLen len => TFixedBytes (Z.of_nat len) ∈ types /\ (len = 0 \/ 32 < len)%nat
  | TrailingBytes n => (0 < n <= length data)%nat /\
      exists vs, decode types (take (length data - n) data) = Ok vs
  | _ => False
  end.

Lemma result_bind_Err {T U E} (r : result T E) (f : T -> result U E) e :
  result_bind r f = Err e <-> r = Err e \/ exists t, r = Ok t /\ f t = Err e.
Proof. destruct r; simpl; naive_solver. Qed.

Lemma read_bytes_Err types offset need e :
  (offset <= length data)%nat -> read_bytes data offset need = Err e -> explains types e.
Proof. intros Ho. unfold read_bytes. case_bool_decide; [|done]. intros [= <-]. done. Qed.

Lemma read_bytes_in data' offset need b o :
  (offset <= length data')%nat -> read_bytes data' offset need = Ok (b, o) -> (o <= length data')%nat.
Proof. intros Ho (Hl & -> & Hp)%read_bytes_Ok; [|done]. apply prefix_length in Hp. rewrite length_drop in Hp. lia. Qed.

Lemma read_sized_Err types offset e :
  (offset <= length data)%nat -> read_sized data offset = Err e -> explains types e.
Proof.
  intros Ho. unfold read_sized. rewrite result_bind_Err. intros [Hr|([b o] & Hr & E)].
  - by eapply read_bytes_Err.
  - eapply read_bytes_Err, E. by eapply read_bytes_in.
Qed.

Lemma read_int_Err types n f offset e :
  (offset <= length data)%nat -> read_int n f data offset = Err e -> explains types e.
Proof.
  intros Ho. unfold read_int. rewrite result_bind_Err. intros [Hr|([b o] & _ & E)]; [|done].
  by eapply read_bytes_Err.
Qed.

Lemma decode_one_Err types t offset e :
  t ∈ types -> type_ok t ->
  (offset <= length data)%nat -> decode_one t data offset = Err e -> explains types e.
Proof.
  intros Hin Hok Ho. destruct t; cbn [decode_one]; try by apply read_int_Err.
  - rewrite result_bind_Err. intros [Hr|([b o] & Hr & E)]; [by eapply read_bytes_Err|].
    apply read_bytes_Ok in Hr as (Hl & -> & [k Ek]); [|done].
    destruct b as [|x [|]]; [done| |done]. cbn [from_le_bytes] in E. rewrite Z.mul_0_r, Z.add_0_r in E.
    revert E. repeat case_bool_decide; intros [= <-]; try done. split_and!; [|done..].
    replace (offset + 1 - 1)%nat with (offset + 0)%nat by lia. by rewrite <-lookup_drop, Ek.
  - rewrite result_bind_Err. intros [Hr|([b o] & _ & E)]; [by eapply read_bytes_Err|done].
  - rewrite result_bind_Err. intros [Hr|([b o] & _ & E)]; [by eapply read_sized_Err|done].
  - rewrite result_bind_Err. intros [Hr|([b o] & Hr & E)]; [by eapply read_sized_Err|].
    destruct (utf8_valid b) eqn:Hu; [done|]. injection E as <-. exists (length b).
    apply read_sized_Ok in Hr as (_ & -> & Hp); [|done..].
    apply prefix_app_iff in Hp as [_ [k Ek]]. rewrite drop_drop in Ek.
    rewrite length_app in *.
    replace (offset + (length (u32_le (Z.of_nat (length b))) + length b) - length b)%nat
      with (offset + length (u32_le (Z.of_nat (length b))))%nat by lia.
    by rewrite Ek, take_app_length.
  - destruct (_ || _) eqn:Hn.
    + intros [= <-]. unfold explains. simpl in Hok. rewrite Z2Nat.id by lia. split; [done|].
      apply orb_true_iff in Hn as [Hn|Hn]; apply bool_decide_eq_true in Hn; auto.
    + rewrite result_bind_Err. intros [Hr|([b o] & _ & E)]; [by eapply read_bytes_Err|done].
Qed.

Lemma decode_all_Err types ts offset e :
  (forall t, t ∈ ts -> t ∈ types /\ type_ok t) ->
  (offset <= length data)%nat -> decode_all ts data offset = Err e -> explains types e.
Proof.
  revert offset. induction ts as [|t ts IH]; intros offset Ht Ho; cbn [decode_all]; [done|].
  destruct (Ht t) as [Hin Hok]; [set_solver|].
  rewrite result_bind_Err. intros [Hr|([v o] & Hr & E)]; [by eapply decode_one_Err|].
  apply result_bind_Err in E as [E|([vs o'] & _ & E)]; [|done].
  apply (IH o); [set_solver| |done].
  apply decode_one_Ok in Hr as (_ & _ & -> & Hp); [|done..|by apply type_ok_fixed].
  apply prefix_length in Hp. rewrite length_drop in Hp. lia.
Qed.
End Decode.

Section Theorems.
Context `{Utf8Text}.

(** C19: Decoding is exactly the inverse of encoding: call data decodes to a list
    of values if and only if these are proper values of the requested types and
    their encoding is the whole of the data.  So what is encoded reads back, and
    no two byte strings decode to the same values. *)
Theorem abi_decode_exact types data vs :
  Forall type_ok types -> Forall in_u8 data ->
  decode types data = Ok vs <->
  Forall value_ok vs /\ abi_type <$> vs = types /\ encode vs = data.
Proof. intros Ht Hd. by apply decode_Ok. Qed.

(** Every error the decoder returns is true of the data: an underflow names an
    offset inside the data and the bytes really left, an invalid bool the byte
    at its offset, an invalid string bytes that are not UTF-8, a bad length a
    type that was asked for, and trailing bytes a proper prefix that decodes. *)
Theorem abi_decode_errors types data e :
  Forall type_ok types -> Forall in_u8 data ->
  decode types data = Err e -> explains data types e.
Proof.
  intros Ht Hd. unfold decode. rewrite result_bind_Err. intros [E|([vs o] & E & E')].
  - eapply (decode_all_Err data Hd types types 0); [|lia|exact E]. intros t Hin. split; [done|].
    rewrite Forall_forall in Ht. auto.
  - apply decode_all_Ok in E as (Hv & Hty & -> & Hp); [|done..|lia]. simpl in E'.
    revert E'. case_bool_decide as Hl; [done|]. intros [= <-]. rewrite drop_0 in Hp.
    pose proof (prefix_length _ _ Hp). split; [lia|]. exists vs.
    replace (length data - (length data - length (encode vs)))%nat with (length (encode vs)) by lia.
    destruct Hp as [k Ek].
    assert (Et : take (length (encode vs)) data = encode vs) by by rewrite Ek, take_app_length.
    rewrite Et. apply decode_Ok; [|done|done]. rewrite <-Et. by apply Forall_take.
Qed.

(** A call is read back with its selector. *)
Lemma decode_encode_call `{CryptoPrims} fn_name types args data :
  (forall d, length (blake2s d) = 32%nat) -> (forall d, Forall in_u8 (blake2s d)) ->
  Forall type_ok types -> Forall value_ok args -> abi_type <$> args = types ->
  Forall in_u8 (encode args) ->
  encode_call fn_name types args = Some data ->
  decode_call types data = Ok (compute fn_name types, args).
Proof.
  intros Hlen Hu8 Ht Hv Hty Hd. unfold encode_call. case_bool_decide; [|done].
  intros [= <-]. unfold decode_call.
  assert (Hc : length (compute fn_name types) = 4%nat).
  { unfold compute. rewrite length_take, Hlen. lia. }
  rewrite bool_decide_false by (rewrite length_app; lia).
  rewrite drop_app_length', take_app_length' by done.
  by rewrite (proj2 (decode_Ok (encode args) Hd types args Ht)).
Qed.
End Theorems.

Module AbiDemo.
#[export] Instance no_text : Utf8Text := fun _ => EmptyString.

Definition demo_values : list AbiValue :=
  [Uint64 5; Int16 (-2); VBool true; VString (ascii_bytes "egó"); FixedBytes [7; 8; 9]; Int8 (-128)].

Definition demo_types : list AbiType := [TUint64; TInt16; TBool; TString; TFixedBytes 3; TInt8].

Lemma abi_decode_exact_witness :
  (Forall type_ok demo_types /\ Forall in_u8 (encode demo_values)) /\
  decode demo_types (encode demo_values) = Ok demo_values.
Proof.
  assert (H1 : Forall type_ok demo_types) by (apply (bool_decide_eq_true_1 _); vm_compute; reflexivity).
  assert (H2 : Forall in_u8 (encode demo_values)) by (apply (bool_decide_eq_true_1 _); vm_compute; reflexivity).
  split; [split; assumption|]. apply (abi_decode_exact demo_types (encode demo_values) demo_values H1 H2).
  split; [apply (bool_decide_eq_true_1 _); vm_compute; reflexivity|]. split; reflexivity.
Defined.

Definition cut_off : bytes := encode [Uint64 5; VBool true] ++ [2; 0; 0].

Lemma abi_decode_errors_witness :
  decode [TUint64; TBool; TBytes] cut_off = Err (BufferUnderflow 4 9 3) /\
  explains cut_off [TUint64; TBool; TBytes] (BufferUnderflow 4 9 3).
Proof.
  assert (E : decode [TUint64; TBool; TBytes] cut_off = Err (BufferUnderflow 4 9 3))
    by (vm_compute; reflexivity).
  split; [exact E|]. refine (abi_decode_errors _ cut_off _ _ _ E);
    apply (bool_decide_eq_true_1 _); vm_compute; reflexivity.
Defined.
End AbiDemo.
