(* ===== verification/Vm.v ===== *)
(** * The contract virtual machine

    Model of [crates/ego-vm/src/{state,host,types,error,executor}.rs]: the
    storage of contracts, the functions the host offers to a running contract,
    and deploying and calling contracts with their cross-contract calls.

    WebAssembly itself is run by [wasmtime], a parameter ([WasmRuntime]): a
    running guest is a tree of the host calls it makes, each with the contents
    of its memory at that moment, that ends with its results or a trap.  Guests
    run on limited fuel, so the trees are finite.

    A Rust [String] is the list of its UTF-8 bytes.  The contract directory on
    disk is a map from addresses; [disk_error] says where writing fails. *)
From S2P Require Import Prelude Crypto Abi.
From stdpp Require Import pretty.
Local Open Scope Z_scope.
Local Open Scope ego_scope.

Abbreviation str := bytes.

(** ** Errors and results *)

Inductive VmError : Type :=
| CompileError (s : str)
| InstantiationError (s : str)
| ExecutionError (s : str)
| FuelExhausted
| MemoryLimit
| InvalidAbi (s : str)
| StorageError (s : str)
| HostCallError (s : str)
| Unauthorized (s : str).

(** [to_string]. *)
Definition vm_error_text (e : VmError) : str :=
  match e with
  | CompileError s => ascii_bytes "Compile error: " ++ s
  | InstantiationError s => ascii_bytes "Instantiation error: " ++ s
  | ExecutionError s => ascii_bytes "Execution error: " ++ s
  | FuelExhausted => ascii_bytes "Fuel exhausted (RU limit reached)"
  | MemoryLimit => ascii_bytes "Memory limit exceeded"
  | InvalidAbi s => ascii_bytes "Invalid ABI: " ++ s
  | StorageError s => ascii_bytes "Storage error: " ++ s
  | HostCallError s => ascii_bytes "Host call error: " ++ s
  | Unauthorized s => ascii_bytes "Unauthorized: " ++ s
  end.

Definition DEFAULT_CALL_FUEL : Z := 10000000.
Definition MAX_CODE_SIZE : nat := 512 * 1024.
Definition MAX_STORAGE_KEY_LEN : Z := 256.
Definition MAX_STORAGE_VAL_LEN : Z := 65536.
Definition MAX_CROSS_CALL_FUEL : Z := DEFAULT_CALL_FUEL.
Definition TRANSFERS_DISABLED : str :=
  ascii_bytes "this contract tried to move EGOC, which contracts cannot do yet".

Record ContractEvent : Type := MkContractEvent {
  ev_contract : str;
  topic : str;
  payload : bytes;
  ev_height : Z;
  ev_timestamp : Z;
}.

Record CallResult : Type := MkCallResult {
  success : bool;
  return_val : bytes;
  ru_used : Z;
  events : list ContractEvent;
  call_error : option str;
  transfers : list (str * Z);
}.

Inductive UpgradePolicy : Type :=
| Immutable
| Proxy (timelock_secs : Z).

Record ContractManifest : Type := MkContractManifest {
  cm_name : str;
  cm_version : str;
  cm_code_hash : str;
  cm_deployer : str;
  cm_deployed_at : Z;
  cm_upgrade_policy : UpgradePolicy;
}.

Record DeployResult : Type := MkDeployResult {
  dr_contract_address : str;
  dr_code_hash : str;
  dr_ru_used : Z;
  dr_events : list ContractEvent;
  dr_transfers : list (str * Z);
}.

(** ** The storage of a contract *)

(** [ContractState]: by prefix and key, the value in hexadecimal. *)
Abbreviation ContractState := (gmap str (gmap str str)).

(** [hex::encode] and [hex::decode] on text, and BLAKE3. *)
Class VmPrims : Type := {
  hex_text : bytes -> str;
  hex_read : str -> option bytes;
  hash3 : bytes -> bytes;
}.

Section Storage.
Context `{VmPrims}.

Definition state_get (s : ContractState) (prefix key : str) : option bytes :=
  m ← s !! prefix; v ← m !! key; hex_read v.

Definition state_set (s : ContractState) (prefix key : str) (value : bytes) : ContractState :=
  <[ prefix := <[ key := hex_text value ]> (default ∅ (s !! prefix)) ]> s.

Definition state_del (s : ContractState) (prefix key : str) : ContractState :=
  match s !! prefix with
  | None => s
  | Some m =>
      let m := delete key m in
      if bool_decide (m = ∅) then delete prefix s else <[ prefix := m ]> s
  end.
End Storage.

(** ** The context of a running contract *)

Record CrossCallRequest : Type := MkCrossCallRequest {
  cc_contract_addr : str;
  cc_entrypoint : str;
  cc_args : bytes;
  cc_fuel : Z;
}.

(** [HostCtx]; the limiter of the memory belongs to the runtime. *)
Record HostCtx : Type := MkHostCtx {
  h_contract_addr : str;
  h_caller : str;
  h_block_height : Z;
  h_timestamp : Z;
  h_state : ContractState;
  h_events : list ContractEvent;
  h_transfers : list (str * Z);
  h_host_ru : Z;
  h_call_depth : Z;
  h_pending_cross_calls : list CrossCallRequest;
}.

Definition HostCtx_new (contract_addr caller : str) (block_height timestamp : Z)
    (state : ContractState) : HostCtx :=
  MkHostCtx contract_addr caller block_height timestamp state [] [] 0 0 [].

Definition with_state (c : HostCtx) (s : ContractState) : HostCtx :=
  MkHostCtx c.(h_contract_addr) c.(h_caller) c.(h_block_height) c.(h_timestamp) s
    c.(h_events) c.(h_transfers) c.(h_host_ru) c.(h_call_depth) c.(h_pending_cross_calls).

Definition emit (c : HostCtx) (topic payload : str) : HostCtx :=
  MkHostCtx c.(h_contract_addr) c.(h_caller) c.(h_block_height) c.(h_timestamp) c.(h_state)
    (c.(h_events) ++ [MkContractEvent c.(h_contract_addr) topic payload c.(h_block_height) c.(h_timestamp)])
    c.(h_transfers) c.(h_host_ru) c.(h_call_depth) c.(h_pending_cross_calls).

Definition add_transfer (c : HostCtx) (to : str) (amount : Z) : HostCtx :=
  MkHostCtx c.(h_contract_addr) c.(h_caller) c.(h_block_height) c.(h_timestamp) c.(h_state)
    c.(h_events) (c.(h_transfers) ++ [(to, amount)]) c.(h_host_ru) c.(h_call_depth)
    c.(h_pending_cross_calls).

Definition charge (c : HostCtx) (ru : Z) : HostCtx :=
  MkHostCtx c.(h_contract_addr) c.(h_caller) c.(h_block_height) c.(h_timestamp) c.(h_state)
    c.(h_events) c.(h_transfers) (wrapping_add64 c.(h_host_ru) ru) c.(h_call_depth)
    c.(h_pending_cross_calls).

Definition add_cross_call (c : HostCtx) (r : CrossCallRequest) : HostCtx :=
  MkHostCtx c.(h_contract_addr) c.(h_caller) c.(h_block_height) c.(h_timestamp) c.(h_state)
    c.(h_events) c.(h_transfers) c.(h_host_ru) c.(h_call_depth)
    (c.(h_pending_cross_calls) ++ [r]).

Definition with_depth (c : HostCtx) (depth : Z) : HostCtx :=
  MkHostCtx c.(h_contract_addr) c.(h_caller) c.(h_block_height) c.(h_timestamp) c.(h_state)
    c.(h_events) c.(h_transfers) c.(h_host_ru) depth c.(h_pending_cross_calls).

Definition ru_STORAGE_GET : Z := 100.
Definition ru_STORAGE_SET : Z := 500.
Definition ru_STORAGE_DEL : Z := 200.
Definition ru_EVENTS_EMIT : Z := 300.
Definition ru_BLAKE3 : Z := 200.
Definition ru_EGOC_TRANSFER : Z := 1000.
Definition ru_SYSVAR : Z := 10.
Definition ru_EGO20_EMIT_EVENT : Z := 400.
Definition ru_CROSS_CALL : Z := 5000.

(** ** Memory *)

(** The linear memory the guest exports under the name [memory], if it does. *)
Abbreviation Mem := (option bytes).

Definition mem_read_bytes (mem : bytes) (ptr len : Z) : option bytes :=
  if bool_decide (ptr < 0) || bool_decide (len < 0) then None
  else if bool_decide (Z.of_nat (length mem) < ptr + len) then None
  else Some (take (Z.to_nat len) (drop (Z.to_nat ptr) mem)).

Definition mem_read_str (mem : bytes) (ptr len : Z) : option str :=
  b ← mem_read_bytes mem ptr len; if utf8_valid b then Some b else None.

(** [Memory::write]; a negative [i32] is cast to an offset beyond any memory. *)
Definition mem_write (mem : bytes) (offset : Z) (data : bytes) : option bytes :=
  if bool_decide (0 <= offset /\ offset + Z.of_nat (length data) <= Z.of_nat (length mem))
  then Some (take (Z.to_nat offset) mem ++ data ++ drop (Z.to_nat offset + length data) mem)
  else None.

(** [let _ = mem.write(..)]: a write that does not fit is dropped. *)
Definition mem_put (mem : bytes) (offset : Z) (data : bytes) : bytes :=
  default mem (mem_write mem offset data).

(** ** Host functions *)

(** The imports of the module [env], with their arguments. *)
Inductive HostCall : Type :=
| storage_get (prefix_ptr prefix_len key_ptr key_len out_ptr : Z)
| storage_set (prefix_ptr prefix_len key_ptr key_len val_ptr val_len : Z)
| storage_del (prefix_ptr prefix_len key_ptr key_len : Z)
| events_emit (topic_ptr topic_len payload_ptr payload_len : Z)
| blake3_hash (data_ptr data_len out_ptr : Z)
| sys_caller (out_ptr : Z)
| sys_block_height
| sys_timestamp
| sys_contract_addr (out_ptr : Z)
| egoc_transfer (to_ptr to_len amount : Z)
| urego_assert (cond : Z)
| ego20_emit_transfer (from_ptr from_len to_ptr to_len amount_lo amount_hi : Z)
| ego20_emit_approval (owner_ptr owner_len spender_ptr spender_len amount_lo amount_hi : Z)
| ego20_balance_get (addr_ptr addr_len : Z)
| ego20_balance_get_hi (addr_ptr addr_len : Z)
| ego20_balance_set (addr_ptr addr_len amount_lo amount_hi : Z)
| ego20_allowance_get (owner_ptr owner_len spender_ptr spender_len : Z)
| ego20_allowance_set (owner_ptr owner_len spender_ptr spender_len amount_lo amount_hi : Z)
| ego_cross_call (contract_ptr contract_len fn_ptr fn_len args_ptr args_len fuel : Z).

(** A host function answers (0 where it answers nothing), raises a trap, or
    panics ([unwrap] of a memory that is not exported). *)
Inductive HostAnswer : Type :=
| HRet (v : Z) (mem : Mem) (ctx : HostCtx)
| HTrap (e : str)
| HPanic.

Definition EGO20_BAL : str := ascii_bytes "ego20:bal".
Definition EGO20_ALW : str := ascii_bytes "ego20:alw".

Definition as_u64 (x : Z) : Z := x mod 2 ^ 64.

(** [((hi as u128) << 64) | (lo as u64 as u128)]. *)
Definition amount128 (lo hi : Z) : Z :=
  Z.lor (Z.shiftl (hi mod 2 ^ 128) 64 mod 2 ^ 128) (as_u64 lo).

Definition amount_bytes (lo hi : Z) : bytes := to_le_bytes 8 (as_u64 lo) ++ to_le_bytes 8 (as_u64 hi).

Definition colon : str := ascii_bytes ":".

(** [format!("{}:{}:{}", from, to, amount)]. *)
Definition ego20_payload (from to : str) (lo hi : Z) : str :=
  from ++ colon ++ to ++ colon ++ ascii_bytes (pretty (amount128 lo hi)).

(** One half of the 16 bytes stored, as an [i64]. *)
Definition stored_half (half : nat) (v : option bytes) : Z :=
  match v with
  | Some v => if bool_decide (length v = 16%nat) then signed 8 (from_le_bytes (take 8 (drop (8 * half) v)))
              else 0
  | None => 0
  end.

Section Host.
Context `{VmPrims}.

Definition host_storage_get (prefix_ptr prefix_len key_ptr key_len out_ptr : Z)
    (mem : Mem) (ctx : HostCtx) : HostAnswer :=
  let ctx := charge ctx ru_STORAGE_GET in
  match mem with
  | None => HRet (-1) mem ctx
  | Some data =>
      match mem_read_str data prefix_ptr prefix_len, mem_read_str data key_ptr key_len with
      | Some prefix, Some key =>
          match state_get ctx.(h_state) prefix key with
          | Some val => HRet (signed 4 (Z.of_nat (length val) mod 2 ^ 32)) (Some (mem_put data out_ptr val)) ctx
          | None => HRet (-1) mem ctx
          end
      | _, _ => HRet (-1) mem ctx
      end
  end.

Definition host_storage_set (prefix_ptr prefix_len key_ptr key_len val_ptr val_len : Z)
    (mem : Mem) (ctx : HostCtx) : HostAnswer :=
  if bool_decide (prefix_len < 0) || bool_decide (MAX_STORAGE_KEY_LEN < prefix_len) then HRet 0 mem ctx
  else if bool_decide (key_len < 0) || bool_decide (MAX_STORAGE_KEY_LEN < key_len) then HRet 0 mem ctx
  else if bool_decide (val_len < 0) || bool_decide (MAX_STORAGE_VAL_LEN < val_len) then HRet 0 mem ctx
  else
    let ctx := charge ctx ru_STORAGE_SET in
    match mem with
    | None => HRet 0 mem ctx
    | Some data =>
        match mem_read_str data prefix_ptr prefix_len, mem_read_str data key_ptr key_len with
        | Some prefix, Some key =>
            let val := default [] (mem_read_bytes data val_ptr val_len) in
            HRet 0 mem (with_state ctx (state_set ctx.(h_state) prefix key val))
        | _, _ => HRet 0 mem ctx
        end
    end.

Definition host_storage_del (prefix_ptr prefix_len key_ptr key_len : Z)
    (mem : Mem) (ctx : HostCtx) : HostAnswer :=
  let ctx := charge ctx ru_STORAGE_DEL in
  match mem with
  | None => HRet 0 mem ctx
  | Some data =>
      match mem_read_str data prefix_ptr prefix_len, mem_read_str data key_ptr key_len with
      | Some prefix, Some key => HRet 0 mem (with_state ctx (state_del ctx.(h_state) prefix key))
      | _, _ => HRet 0 mem ctx
      end
  end.

Definition host_events_emit (topic_ptr topic_len payload_ptr payload_len : Z)
    (mem : Mem) (ctx : HostCtx) : HostAnswer :=
  let ctx := charge ctx ru_EVENTS_EMIT in
  match mem with
  | None => HRet 0 mem ctx
  | Some data =>
      let topic := default [] (mem_read_str data topic_ptr topic_len) in
      let payload := default [] (mem_read_bytes data payload_ptr payload_len) in
      HRet 0 mem (emit ctx topic payload)
  end.

Definition host_blake3_hash (data_ptr data_len out_ptr : Z)
    (mem : Mem) (ctx : HostCtx) : HostAnswer :=
  let ctx := charge ctx ru_BLAKE3 in
  match mem with
  | None => HRet 0 mem ctx
  | Some raw =>
      let input := default [] (mem_read_bytes raw data_ptr data_len) in
      HRet 0 (Some (mem_put raw out_ptr (hash3 input))) ctx
  end.

Definition host_sys_caller (out_ptr : Z) (mem : Mem) (ctx : HostCtx) : HostAnswer :=
  let ctx := charge ctx ru_SYSVAR in
  match mem with
  | None => HPanic
  | Some data =>
      HRet (signed 4 (Z.of_nat (length ctx.(h_caller)) mod 2 ^ 32))
        (Some (mem_put data out_ptr ctx.(h_caller))) ctx
  end.

Definition host_sys_block_height (mem : Mem) (ctx : HostCtx) : HostAnswer :=
  HRet (signed 8 (as_u64 ctx.(h_block_height))) mem ctx.

Definition host_sys_timestamp (mem : Mem) (ctx : HostCtx) : HostAnswer :=
  HRet ctx.(h_timestamp) mem ctx.

Definition host_sys_contract_addr (out_ptr : Z) (mem : Mem) (ctx : HostCtx) : HostAnswer :=
  let ctx := charge ctx ru_SYSVAR in
  match mem with
  | None => HPanic
  | Some data =>
      HRet (signed 4 (Z.of_nat (length ctx.(h_contract_addr)) mod 2 ^ 32))
        (Some (mem_put data out_ptr ctx.(h_contract_addr))) ctx
  end.

Definition host_egoc_transfer (to_ptr to_len amount : Z) (mem : Mem) (ctx : HostCtx) : HostAnswer :=
  let ctx := charge ctx ru_EGOC_TRANSFER in
  match mem with
  | None => HRet 0 mem ctx
  | Some data =>
      let to := default [] (mem_read_str data to_ptr to_len) in
      if negb (bool_decide (to = [])) && bool_decide (0 < amount)
      then HRet 0 mem (add_transfer ctx to amount) else HRet 0 mem ctx
  end.

Definition host_urego_assert (cond : Z) (mem : Mem) (ctx : HostCtx) : HostAnswer :=
  if bool_decide (cond = 0) then HTrap (ascii_bytes "urego assertion failed") else HRet 0 mem ctx.

Definition host_ego20_emit_transfer (from_ptr from_len to_ptr to_len amount_lo amount_hi : Z)
    (mem : Mem) (ctx : HostCtx) : HostAnswer :=
  let ctx := charge ctx ru_EGO20_EMIT_EVENT in
  match mem with
  | None => HRet 0 mem ctx
  | Some data =>
      let from := default [] (mem_read_str data from_ptr from_len) in
      let to := default [] (mem_read_str data to_ptr to_len) in
      HRet 0 mem (emit ctx (ascii_bytes "EGO20:Transfer") (ego20_payload from to amount_lo amount_hi))
  end.

Definition host_ego20_emit_approval (owner_ptr owner_len spender_ptr spender_len amount_lo amount_hi : Z)
    (mem : Mem) (ctx : HostCtx) : HostAnswer :=
  let ctx := charge ctx ru_EGO20_EMIT_EVENT in
  match mem with
  | None => HRet 0 mem ctx
  | Some data =>
      let owner := default [] (mem_read_str data owner_ptr owner_len) in
      let spender := default [] (mem_read_str data spender_ptr spender_len) in
      HRet 0 mem (emit ctx (ascii_bytes "EGO20:Approval") (ego20_payload owner spender amount_lo amount_hi))
  end.

Definition host_ego20_balance_get (addr_ptr addr_len : Z)
    (mem : Mem) (ctx : HostCtx) : HostAnswer :=
  let ctx := charge ctx ru_STORAGE_GET in
  match data ← mem; mem_read_str data addr_ptr addr_len with
  | Some addr => HRet (stored_half 0 (state_get ctx.(h_state) EGO20_BAL addr)) mem ctx
  | None => HRet 0 mem ctx
  end.

Definition host_ego20_balance_get_hi (addr_ptr addr_len : Z)
    (mem : Mem) (ctx : HostCtx) : HostAnswer :=
  let ctx := charge ctx ru_STORAGE_GET in
  match data ← mem; mem_read_str data addr_ptr addr_len with
  | Some addr => HRet (stored_half 1 (state_get ctx.(h_state) EGO20_BAL addr)) mem ctx
  | None => HRet 0 mem ctx
  end.

Definition host_ego20_balance_set (addr_ptr addr_len amount_lo amount_hi : Z)
    (mem : Mem) (ctx : HostCtx) : HostAnswer :=
  let ctx := charge ctx ru_STORAGE_SET in
  match data ← mem; mem_read_str data addr_ptr addr_len with
  | Some addr =>
      HRet 0 mem (with_state ctx
        (state_set ctx.(h_state) EGO20_BAL addr (amount_bytes amount_lo amount_hi)))
  | None => HRet 0 mem ctx
  end.

Definition host_ego20_allowance_get (owner_ptr owner_len spender_ptr spender_len : Z)
    (mem : Mem) (ctx : HostCtx) : HostAnswer :=
  let ctx := charge ctx ru_STORAGE_GET in
  match data ← mem; owner ← mem_read_str data owner_ptr owner_len;
        spender ← mem_read_str data spender_ptr spender_len;
        Some (owner ++ colon ++ spender) with
  | Some key => HRet (stored_half 0 (state_get ctx.(h_state) EGO20_ALW key)) mem ctx
  | None => HRet 0 mem ctx
  end.

Definition host_ego20_allowance_set (owner_ptr owner_len spender_ptr spender_len amount_lo amount_hi : Z)
    (mem : Mem) (ctx : HostCtx) : HostAnswer :=
  let ctx := charge ctx ru_STORAGE_SET in
  match data ← mem; owner ← mem_read_str data owner_ptr owner_len;
        spender ← mem_read_str data spender_ptr spender_len;
        Some (owner ++ colon ++ spender) with
  | Some key =>
      HRet 0 mem (with_state ctx
        (state_set ctx.(h_state) EGO20_ALW key (amount_bytes amount_lo amount_hi)))
  | None => HRet 0 mem ctx
  end.

Definition host_ego_cross_call (contract_ptr contract_len fn_ptr fn_len args_ptr args_len fuel : Z)
    (mem : Mem) (ctx : HostCtx) : HostAnswer :=
  let ctx := charge ctx ru_CROSS_CALL in
  if bool_decide (8 <= ctx.(h_call_depth)) then HRet 0 mem ctx
  else
    match mem with
    | None => HRet 0 mem ctx
    | Some data =>
        match mem_read_str data contract_ptr contract_len, mem_read_str data fn_ptr fn_len with
        | Some contract, Some entrypoint =>
            let args := default [] (mem_read_bytes data args_ptr args_len) in
            let capped_fuel := Z.min (as_u64 fuel) MAX_CROSS_CALL_FUEL in
            HRet 1 mem (add_cross_call ctx (MkCrossCallRequest contract entrypoint args capped_fuel))
        | _, _ => HRet 0 mem ctx
        end
    end.

(** The import a call names. *)
Definition host (c : HostCall) (mem : Mem) (ctx : HostCtx) : HostAnswer :=
  match c with
  | storage_get prefix_ptr prefix_len key_ptr key_len out_ptr => host_storage_get prefix_ptr prefix_len key_ptr key_len out_ptr mem ctx
  | storage_set prefix_ptr prefix_len key_ptr key_len val_ptr val_len => host_storage_set prefix_ptr prefix_len key_ptr key_len val_ptr val_len mem ctx
  | storage_del prefix_ptr prefix_len key_ptr key_len => host_storage_del prefix_ptr prefix_len key_ptr key_len mem ctx
  | events_emit topic_ptr topic_len payload_ptr payload_len => host_events_emit topic_ptr topic_len payload_ptr payload_len mem ctx
  | blake3_hash data_ptr data_len out_ptr => host_blake3_hash data_ptr data_len out_ptr mem ctx
  | sys_caller out_ptr => host_sys_caller out_ptr mem ctx
  | sys_block_height => host_sys_block_height mem ctx
  | sys_timestamp => host_sys_timestamp mem ctx
  | sys_contract_addr out_ptr => host_sys_contract_addr out_ptr mem ctx
  | egoc_transfer to_ptr to_len amount => host_egoc_transfer to_ptr to_len amount mem ctx
  | urego_assert cond => host_urego_assert cond mem ctx
  | ego20_emit_transfer from_ptr from_len to_ptr to_len amount_lo amount_hi => host_ego20_emit_transfer from_ptr from_len to_ptr to_len amount_lo amount_hi mem ctx
  | ego20_emit_approval owner_ptr owner_len spender_ptr spender_len amount_lo amount_hi => host_ego20_emit_approval owner_ptr owner_len spender_ptr spender_len amount_lo amount_hi mem ctx
  | ego20_balance_get addr_ptr addr_len => host_ego20_balance_get addr_ptr addr_len mem ctx
  | ego20_balance_get_hi addr_ptr addr_len => host_ego20_balance_get_hi addr_ptr addr_len mem ctx
  | ego20_balance_set addr_ptr addr_len amount_lo amount_hi => host_ego20_balance_set addr_ptr addr_len amount_lo amount_hi mem ctx
  | ego20_allowance_get owner_ptr owner_len spender_ptr spender_len => host_ego20_allowance_get owner_ptr owner_len spender_ptr spender_len mem ctx
  | ego20_allowance_set owner_ptr owner_len spender_ptr spender_len amount_lo amount_hi => host_ego20_allowance_set owner_ptr owner_len spender_ptr spender_len amount_lo amount_hi mem ctx
  | ego_cross_call contract_ptr contract_len fn_ptr fn_len args_ptr args_len fuel => host_ego_cross_call contract_ptr contract_len fn_ptr fn_len args_ptr args_len fuel mem ctx
  end.
End Host.
