(* ===== verification/VmExec.v ===== *)
(** * Running, deploying and calling contracts

    Model of the second half of [crates/ego-vm/src/executor.rs] and of
    [StateStore] of [crates/ego-vm/src/state.rs]: entry points, deployment, a
    call with the rounds of cross-contract calls it causes, and what is written
    to the contract directory. *)
From S2P Require Import Prelude Crypto Abi Vm.
From stdpp Require Import pretty.
Local Open Scope Z_scope.
Local Open Scope ego_scope.

(** ** Guests *)

(** How [func.call] fails. *)
Inductive Trap : Type :=
| OutOfFuel
| Trapped (message : str).

(** A running guest: it stops, or calls the host with its memory and goes on
    with the answer and the memory the host left. *)
Inductive Guest (A : Type) : Type :=
| Stop (r : result A Trap)
| Host (c : HostCall) (mem : Mem) (k : Z -> Mem -> Guest A).
Arguments Stop {A} r.
Arguments Host {A} c mem k.

Inductive Ran (A : Type) : Type :=
| Finished (a : A) (ctx : HostCtx)
| Failed (t : Trap)
| Panicked.
Arguments Finished {A} a ctx.
Arguments Failed {A} t.
Arguments Panicked {A}.

Fixpoint run_guest `{VmPrims} {A} (g : Guest A) (ctx : HostCtx) : Ran A :=
  match g with
  | Stop (Ok a) => Finished a ctx
  | Stop (Err t) => Failed t
  | Host c mem k =>
      match host c mem ctx with
      | HRet v mem ctx => run_guest (k v mem) ctx
      | HTrap e => Failed (Trapped e)
      | HPanic => Panicked
      end
  end.

Inductive ValType : Type :=
| TI32
| TI64
| TF32
| TF64
| TOther.

Inductive Val : Type :=
| I32 (v : Z)
| I64 (v : Z)
| F32 (bits : Z)
| F64 (bits : Z)
| Other.

Definition default_val (vt : ValType) : Val :=
  match vt with
  | TI64 => I64 0
  | TF32 => F32 0
  | TF64 => F64 0
  | _ => I32 0
  end.

Definition result_bytes (results : list Val) : bytes :=
  match results with
  | I64 v :: _ => to_le_bytes 8 v
  | I32 v :: _ => to_le_bytes 4 v
  | F32 bits :: _ => to_le_bytes 4 bits
  | F64 bits :: _ => to_le_bytes 8 bits
  | _ => []
  end.

(** What is used of [wasmtime]; [Inst] is a store with its instance. *)
Class WasmRuntime : Type := {
  Module_ : Type;
  Inst : Type;
  module_new : bytes -> result Module_ str;
  instantiate : Module_ -> Z -> Guest Inst;
  get_memory : Inst -> Mem;
  set_memory : Inst -> bytes -> Inst;
  has_set_args : Inst -> bool;
  set_args_call : Inst -> Z -> Z -> Guest Inst;
  func_type : Inst -> str -> option (list ValType * list ValType);
  func_call : Inst -> str -> list Val -> Guest (list Val * Inst);
  get_fuel : Inst -> Z;
  trap_text : Trap -> str;
  write_error_text : str;
}.

(** What [call_on] and its callees return: a value, an error or a panic. *)
Inductive Outcome (A : Type) : Type :=
| Done (r : result A VmError)
| Panic.
Arguments Done {A} r.
Arguments Panic {A}.

Definition outcome_bind {A B} (o : Outcome A) (f : A -> Outcome B) : Outcome B :=
  match o with
  | Done (Ok a) => f a
  | Done (Err e) => Done (Err e)
  | Panic => Panic
  end.

Notation "'let!' x := r 'in' k" := (outcome_bind r (fun x => k))
  (at level 10, x name, r at level 100, k at level 200) : ego_scope.
Notation "'let!' ' p := r 'in' k" := (outcome_bind r (fun p => k))
  (at level 10, p strict pattern, r at level 100, k at level 200) : ego_scope.

Record ExecEnv : Type := MkExecEnv {
  block_height : Z;
  timestamp : Z;
  fuel : Z;
  allow_transfers : bool;
}.

Record CallEffects : Type := MkCallEffects {
  ce_result : CallResult;
  ce_states : gmap str ContractState;
}.

Record DeployEffects : Type := MkDeployEffects {
  de_result : DeployResult;
  existed : bool;
  de_code : bytes;
  de_state : ContractState;
  de_manifest : option ContractManifest;
}.

(** [ContractSource]. *)
Record ContractSource : Type := MkContractSource {
  src_code : str -> option bytes;
  src_state : str -> ContractState;
}.

(** The arguments of an entry point, read off [args] by its parameter types;
    the first that does not fit, and all after it, get their default. *)
Fixpoint decode_args (param_types : list ValType) (args : bytes) : list Val :=
  match param_types with
  | [] => []
  | vt :: rest =>
      let take_le n (f : Z -> Val) :=
        if bool_decide (length args < n)%nat then default_val <$> param_types
        else f (from_le_bytes (take n args)) :: decode_args rest (drop n args) in
      match vt with
      | TI32 => take_le 4%nat (fun x => I32 (signed 4 x))
      | TI64 => take_le 8%nat (fun x => I64 (signed 8 x))
      | TF32 => take_le 4%nat F32
      | TF64 => take_le 8%nat F64
      | TOther => default_val vt :: decode_args rest args
      end
  end.

Section Executor.
Context `{VmPrims} `{WasmRuntime}.

(** [get_or_compile]: a cached module is the compiled one, so the cache does
    not show. *)
Definition get_or_compile (wasm_bytes : bytes) : result Module_ VmError :=
  match module_new wasm_bytes with
  | Ok m => Ok m
  | Err e => Err (CompileError e)
  end.

(** A guest run to its end, a failure turned into an error of the machine. *)
Definition run_or {A} (g : Guest A) (ctx : HostCtx) (fail : Trap -> VmError) : Outcome (A * HostCtx) :=
  match run_guest g ctx with
  | Finished a ctx => Done (Ok (a, ctx))
  | Failed t => Done (Err (fail t))
  | Panicked => Panic
  end.

Definition exec_error (t : Trap) : VmError := ExecutionError (trap_text t).

(** The optional export [__set_args] is given the arguments, copied to the
    start of the memory. *)
Definition give_args (inst : Inst) (ctx : HostCtx) (args : bytes) : Outcome (Inst * HostCtx) :=
  if has_set_args inst then
    match get_memory inst with
    | None => Done (Err (ExecutionError (ascii_bytes "No memory export")))
    | Some mem =>
        match mem_write mem 0 args with
        | None => Done (Err (ExecutionError write_error_text))
        | Some mem =>
            run_or (set_args_call (set_memory inst mem) 0 (signed 4 (Z.of_nat (length args) mod 2 ^ 32)))
              ctx exec_error
        end
    end
  else Done (Ok (inst, ctx)).

Definition run_entrypoint (module : Module_) (ctx : HostCtx) (entrypoint : str) (args : bytes)
    (fuel : Z) : Outcome (HostCtx * Z * bytes) :=
  let! '(inst, ctx) := run_or (instantiate module fuel) ctx
                         (fun t => InstantiationError (trap_text t)) in
  let! '(inst, ctx) := give_args inst ctx args in
  match func_type inst entrypoint with
  | None => Done (Err (InvalidAbi (ascii_bytes "Entrypoint '" ++ entrypoint ++ ascii_bytes "' not found")))
  | Some (param_types, _) =>
      let wasm_args := decode_args param_types args in
      let! '(results, inst, ctx) :=
        run_or (func_call inst entrypoint wasm_args) ctx
          (fun t => match t with OutOfFuel => FuelExhausted | _ => exec_error t end) in
      let ru_used := sat_sub fuel (get_fuel inst) in
      Done (Ok (ctx, ru_used, result_bytes results))
  end.

Definition contract_address_for (deployer_addr : str) (wasm_bytes : bytes) : str * str :=
  let code_hash_bytes := hash3 (deployer_addr ++ hex_text wasm_bytes) in
  (hex_text (take 20 code_hash_bytes), hex_text code_hash_bytes).

Definition deploy_on (src : ContractSource) (wasm_bytes : bytes) (deployer_addr : str)
    (init_args : bytes) (env : ExecEnv) : Outcome DeployEffects :=
  if bool_decide (MAX_CODE_SIZE < length wasm_bytes)%nat
  then Done (Err (InvalidAbi (ascii_bytes ("Code too large: " +:+ pretty (length wasm_bytes) +:+
         " bytes (max " +:+ pretty MAX_CODE_SIZE +:+ ")"))))
  else
    let '(contract_addr, code_hash) := contract_address_for deployer_addr wasm_bytes in
    match src.(src_code) contract_addr with
    | Some _ =>
        Done (Ok (MkDeployEffects (MkDeployResult contract_addr code_hash 0 [] []) true [] ∅ None))
    | None =>
        let! module := Done (get_or_compile wasm_bytes) in
        let ctx := HostCtx_new contract_addr deployer_addr env.(block_height) env.(timestamp) ∅ in
        let! '(ctx_out, ru_used, _) :=
          run_entrypoint module ctx (ascii_bytes "init") init_args env.(fuel) in
        if negb env.(allow_transfers) && negb (bool_decide (length ctx_out.(h_transfers) = 0%nat))
        then Done (Err (ExecutionError TRANSFERS_DISABLED))
        else
          let manifest :=
            MkContractManifest (ascii_bytes "contract_" ++ take 8 contract_addr)
              (ascii_bytes "0.1.0") code_hash deployer_addr env.(timestamp) Immutable in
          Done (Ok (MkDeployEffects
            (MkDeployResult contract_addr code_hash ru_used ctx_out.(h_events) ctx_out.(h_transfers))
            false wasm_bytes ctx_out.(h_state) (Some manifest)))
    end.

Definition failed_call (ru_used : Z) (error : str) : CallEffects :=
  MkCallEffects (MkCallResult false [] ru_used [] (Some error) []) ∅.

(** What a call has gathered: the states it touched, its events, transfers and
    resource units, and the cross-contract calls still to make. *)
Record Gathered : Type := MkGathered {
  touched : gmap str ContractState;
  all_events : list ContractEvent;
  all_transfers : list (str * Z);
  all_ru : Z;
  pending : list CrossCallRequest;
}.

(** One request of a round; one that fails leaves no trace. *)
Definition cross_call (src : ContractSource) (contract_addr : str) (env : ExecEnv) (depth : Z)
    (g : Gathered) (req : CrossCallRequest) : Outcome Gathered :=
  match src.(src_code) req.(cc_contract_addr) with
  | None => Done (Ok g)
  | Some cross_wasm =>
      match get_or_compile cross_wasm with
      | Err _ => Done (Ok g)
      | Ok cross_module =>
          let cross_state :=
            default (src.(src_state) req.(cc_contract_addr)) (g.(touched) !! req.(cc_contract_addr)) in
          let cross_ctx :=
            with_depth (HostCtx_new req.(cc_contract_addr) contract_addr env.(block_height)
                          env.(timestamp) cross_state) depth in
          let cross_fuel := Z.min req.(cc_fuel) MAX_CROSS_CALL_FUEL in
          match run_entrypoint cross_module cross_ctx req.(cc_entrypoint) req.(cc_args) cross_fuel with
          | Done (Ok (out, cross_ru, _)) =>
              Done (Ok (MkGathered
                (<[ req.(cc_contract_addr) := out.(h_state) ]> g.(touched))
                (g.(all_events) ++ out.(h_events))
                (g.(all_transfers) ++ out.(h_transfers))
                (wrapping_add64 g.(all_ru) cross_ru)
                (g.(pending) ++ out.(h_pending_cross_calls))))
          | Done (Err _) => Done (Ok g)
          | Panic => Panic
          end
      end
  end.

Fixpoint cross_calls (src : ContractSource) (contract_addr : str) (env : ExecEnv) (depth : Z)
    (g : Gathered) (reqs : list CrossCallRequest) : Outcome Gathered :=
  match reqs with
  | [] => Done (Ok g)
  | req :: reqs =>
      let! g := cross_call src contract_addr env depth g req in
      cross_calls src contract_addr env depth g reqs
  end.

(** [while !pending.is_empty() && depth < 8], from depth 1: [left] rounds are
    left at depth [8 - left]. *)
Fixpoint rounds (left : nat) (src : ContractSource) (contract_addr : str) (env : ExecEnv)
    (g : Gathered) : Outcome Gathered :=
  match left with
  | O => Done (Ok g)
  | S left' =>
      if bool_decide (length g.(pending) = 0%nat) then Done (Ok g)
      else
        let current := g.(pending) in
        let g := MkGathered g.(touched) g.(all_events) g.(all_transfers) g.(all_ru) [] in
        let! g := cross_calls src contract_addr env (8 - Z.of_nat left) g current in
        rounds left' src contract_addr env g
  end.

Definition call_on (src : ContractSource) (contract_addr caller_addr entrypoint : str)
    (args : bytes) (env : ExecEnv) : Outcome CallEffects :=
  match src.(src_code) contract_addr with
  | None => Done (Err (StorageError (ascii_bytes "Code not found for " ++ contract_addr)))
  | Some wasm_bytes =>
      let! module := Done (get_or_compile wasm_bytes) in
      let ctx := HostCtx_new contract_addr caller_addr env.(block_height) env.(timestamp)
                   (src.(src_state) contract_addr) in
      match run_entrypoint module ctx entrypoint args env.(fuel) with
      | Panic => Panic
      | Done (Err FuelExhausted) => Done (Ok (failed_call env.(fuel) (ascii_bytes "Fuel exhausted")))
      | Done (Err e) => Done (Ok (failed_call 0 (vm_error_text e)))
      | Done (Ok (ctx_out, ru_used, return_val)) =>
          let g := MkGathered {[ contract_addr := ctx_out.(h_state) ]} ctx_out.(h_events)
                     ctx_out.(h_transfers) ru_used ctx_out.(h_pending_cross_calls) in
          let! g := rounds 7 src contract_addr env g in
          if negb env.(allow_transfers) && negb (bool_decide (length g.(all_transfers) = 0%nat))
          then Done (Ok (failed_call g.(all_ru) TRANSFERS_DISABLED))
          else
            Done (Ok (MkCallEffects
              (MkCallResult true return_val g.(all_ru) g.(all_events) None g.(all_transfers))
              g.(touched)))
      end
  end.

(** ** The contract directory *)

Record StateStore : Type := MkStateStore {
  st_code : gmap str bytes;
  st_states : gmap str ContractState;
  st_manifests : gmap str ContractManifest;
}.

(** Writing in the directory of a contract fails. *)
Context (disk_error : str -> option str).

Definition guard_disk (addr : str) (s : StateStore) : result StateStore VmError :=
  match disk_error addr with
  | Some e => Err (StorageError e)
  | None => Ok s
  end.

Definition store_code (addr : str) (wasm : bytes) (s : StateStore) : result StateStore VmError :=
  guard_disk addr (MkStateStore (<[ addr := wasm ]> s.(st_code)) s.(st_states) s.(st_manifests)).

Definition save_state (addr : str) (state : ContractState) (s : StateStore) : result StateStore VmError :=
  guard_disk addr (MkStateStore s.(st_code) (<[ addr := state ]> s.(st_states)) s.(st_manifests)).

Definition store_manifest (addr : str) (m : ContractManifest) (s : StateStore) : result StateStore VmError :=
  guard_disk addr (MkStateStore s.(st_code) s.(st_states) (<[ addr := m ]> s.(st_manifests))).

Definition load_state (s : StateStore) (addr : str) : ContractState := default ∅ (s.(st_states) !! addr).

Definition store_source (s : StateStore) : ContractSource :=
  MkContractSource (fun addr => s.(st_code) !! addr) (load_state s).

(** The states are saved in the order of the addresses; the first failure
    stops, and what was saved before it stays. *)
Definition str_leb (x y : str * ContractState) : bool :=
  match bytes_compare x.1 y.1 with Gt => false | _ => true end.

Fixpoint save_states (l : list (str * ContractState)) (s : StateStore) :
    option VmError * StateStore :=
  match l with
  | [] => (None, s)
  | (addr, state) :: l =>
      match save_state addr state s with
      | Err e => (Some e, s)
      | Ok s => save_states l s
      end
  end.

Definition executor_call (contract_addr caller_addr entrypoint : str) (args : bytes)
    (block_height timestamp fuel : Z) (s : StateStore) : Outcome CallResult * StateStore :=
  let env := MkExecEnv block_height timestamp fuel true in
  match call_on (store_source s) contract_addr caller_addr entrypoint args env with
  | Panic => (Panic, s)
  | Done (Err e) => (Done (Err e), s)
  | Done (Ok fx) =>
      match save_states (stable_sort str_leb (map_to_list fx.(ce_states))) s with
      | (Some e, s) => (Done (Err e), s)
      | (None, s) => (Done (Ok fx.(ce_result)), s)
      end
  end.

Definition executor_deploy (wasm_bytes : bytes) (deployer_addr : str) (init_args : bytes)
    (block_height timestamp fuel : Z) (s : StateStore) : Outcome DeployResult * StateStore :=
  let env := MkExecEnv block_height timestamp fuel true in
  match deploy_on (store_source s) wasm_bytes deployer_addr init_args env with
  | Panic => (Panic, s)
  | Done (Err e) => (Done (Err e), s)
  | Done (Ok fx) =>
      if existed fx then (Done (Ok fx.(de_result)), s)
      else
        let addr := fx.(de_result).(dr_contract_address) in
        match store_code addr fx.(de_code) s with
        | Err e => (Done (Err e), s)
        | Ok s =>
            match save_state addr fx.(de_state) s with
            | Err e => (Done (Err e), s)
            | Ok s =>
                match fx.(de_manifest) with
                | None => (Done (Ok fx.(de_result)), s)
                | Some m =>
                    match store_manifest addr m s with
                    | Err e => (Done (Err e), s)
                    | Ok s => (Done (Ok fx.(de_result)), s)
                    end
                end
            end
        end
  end.
End Executor.
