(* ===== verification/VmFacts.v ===== *)
(** * Facts about the contract machine

    Storage operations, what a host call can change, and how an invariant of
    the storage of one contract becomes an invariant of the directory. *)
From S2P Require Import Prelude Crypto Abi Vm VmExec.
Local Open Scope Z_scope.
Local Open Scope ego_scope.

(** ** Reading memory *)

Lemma mem_read_bytes_length mem ptr len b :
  mem_read_bytes mem ptr len = Some b -> 0 <= len /\ Z.of_nat (length b) = len.
Proof.
  unfold mem_read_bytes. case_bool_decide; [done|]. case_bool_decide; [done|]. simpl.
  case_bool_decide; [done|]. intros [= <-]. rewrite length_take, length_drop. lia.
Qed.

Lemma mem_read_str_length mem ptr len b :
  mem_read_str mem ptr len = Some b -> 0 <= len /\ Z.of_nat (length b) = len.
Proof.
  unfold mem_read_str. destruct (mem_read_bytes mem ptr len) as [c|] eqn:E; [|done].
  cbn [mbind option_bind]. destruct (utf8_valid c); [|done]. intros [= <-].
  by eapply mem_read_bytes_length.
Qed.

(** ** Storage *)

Section Storage.
Context `{VmPrims}.
Implicit Types s : ContractState.

Lemma state_set_lookup s prefix key value p :
  state_set s prefix key value !! p =
  if decide (p = prefix) then Some (<[ key := hex_text value ]> (default ∅ (s !! prefix))) else s !! p.
Proof.
  unfold state_set. case_decide as E; [subst; by rewrite lookup_insert_eq|].
  by rewrite lookup_insert_ne.
Qed.

Lemma state_get_set s prefix key value p k :
  (forall b, hex_read (hex_text b) = Some b) ->
  state_get (state_set s prefix key value) p k =
  if decide (p = prefix /\ k = key) then Some value else state_get s p k.
Proof.
  intros Hhex. unfold state_get. rewrite state_set_lookup.
  destruct (decide (p = prefix)) as [->|Hp].
  - cbn [mbind option_bind]. destruct (decide (k = key)) as [->|Hk].
    + rewrite lookup_insert_eq, decide_True by done. cbn [mbind option_bind]. apply Hhex.
    + rewrite lookup_insert_ne, decide_False by naive_solver. by destruct (s !! prefix).
  - rewrite decide_False by naive_solver. done.
Qed.

Lemma state_get_del s prefix key p k :
  state_get (state_del s prefix key) p k =
  if decide (p = prefix /\ k = key) then None else state_get s p k.
Proof.
  unfold state_get, state_del. destruct (s !! prefix) as [m|] eqn:E.
  - destruct (decide (p = prefix)) as [->|Hp].
    + case_bool_decide as Hm.
      * rewrite lookup_delete_eq, E. cbn [mbind option_bind].
        destruct (decide (k = key)) as [->|Hk]; [by rewrite decide_True|].
        rewrite decide_False by naive_solver.
        rewrite <-(lookup_delete_ne m key k), Hm by done. by rewrite lookup_empty.
      * rewrite lookup_insert_eq, E. cbn [mbind option_bind].
        destruct (decide (k = key)) as [->|Hk].
        -- by rewrite lookup_delete_eq, decide_True.
        -- by rewrite lookup_delete_ne, decide_False by naive_solver.
    + rewrite decide_False by naive_solver.
      case_bool_decide; by rewrite ?lookup_delete_ne, ?lookup_insert_ne.
  - case_decide as Hd; [|done]. destruct Hd as [-> ->]. by rewrite E.
Qed.

(** ** Limits of what is stored *)

(** A prefix of at most 256 bytes; a key of at most 256, unless it was made by
    the EGO-20 functions; the hexadecimal form of at most 64 KiB. *)
Definition entry_ok (p k v : str) : Prop :=
  Z.of_nat (length p) <= MAX_STORAGE_KEY_LEN /\
  (Z.of_nat (length k) <= MAX_STORAGE_KEY_LEN \/ p = EGO20_BAL \/ p = EGO20_ALW) /\
  exists b, v = hex_text b /\ Z.of_nat (length b) <= MAX_STORAGE_VAL_LEN.

Definition state_ok s : Prop :=
  forall p m k v, s !! p = Some m -> m !! k = Some v -> entry_ok p k v.

Lemma state_ok_empty : state_ok ∅.
Proof. intros p m k v. by rewrite lookup_empty. Qed.

Lemma state_ok_set s prefix key value :
  state_ok s -> entry_ok prefix key (hex_text value) -> state_ok (state_set s prefix key value).
Proof.
  intros Hs He p m k v. rewrite state_set_lookup. case_decide as Hp; [|by apply Hs].
  subst p. intros [= <-]. rewrite lookup_insert_Some. intros [[-> <-]|[_ Hv]]; [done|].
  destruct (s !! prefix) as [m|] eqn:E; simpl in Hv; [by eapply Hs|]. by rewrite lookup_empty in Hv.
Qed.

Lemma state_ok_del s prefix key : state_ok s -> state_ok (state_del s prefix key).
Proof.
  intros Hs. unfold state_del. destruct (s !! prefix) as [m|] eqn:E; [|done].
  intros p m' k v. case_bool_decide.
  - intros [_ Hp]%lookup_delete_Some. by apply Hs.
  - intros [[<- <-]|[_ Hp]]%lookup_insert_Some; [|by apply Hs].
    intros [_ Hk]%lookup_delete_Some. by eapply Hs.
Qed.

Lemma length_amount_bytes lo hi : length (amount_bytes lo hi) = 16%nat.
Proof. unfold amount_bytes. by rewrite length_app, !length_to_le_bytes. Qed.

Lemma entry_ok_ego20 p k lo hi :
  p = EGO20_BAL \/ p = EGO20_ALW -> entry_ok p k (hex_text (amount_bytes lo hi)).
Proof.
  intros Hp. split; [|split; [tauto|]].
  - destruct Hp as [->| ->]; vm_compute; congruence.
  - eexists. split; [done|]. rewrite length_amount_bytes. vm_compute; congruence.
Qed.

(** A host call keeps the limits. *)
Lemma host_ok c mem ctx v mem' ctx' :
  state_ok ctx.(h_state) -> host c mem ctx = HRet v mem' ctx' -> state_ok ctx'.(h_state).
Proof.
  intros Hs. destruct c; cbn [host];
    unfold host_storage_get, host_storage_set, host_storage_del, host_events_emit, host_blake3_hash,
      host_sys_caller, host_sys_block_height, host_sys_timestamp, host_sys_contract_addr, host_egoc_transfer,
      host_urego_assert, host_ego20_emit_transfer, host_ego20_emit_approval, host_ego20_balance_get, host_ego20_balance_get_hi,
      host_ego20_balance_set, host_ego20_allowance_get, host_ego20_allowance_set, host_ego_cross_call;
    repeat match goal with
    | |- context [match ?x with _ => _ end] => destruct x eqn:?
    end; intros [= <- <- <-]; cbn [h_state charge with_state emit add_transfer add_cross_call]; try done.
  - apply state_ok_set; [done|].
    apply orb_false_iff in Heqb as [_ Hp]. apply orb_false_iff in Heqb0 as [_ Hk].
    apply orb_false_iff in Heqb1 as [_ Hv]. rewrite bool_decide_eq_false in Hp, Hk, Hv.
    apply mem_read_str_length in Heqo0 as [_ E1]. apply mem_read_str_length in Heqo1 as [_ E2].
    split; [lia|]. split; [left; lia|]. eexists. split; [done|].
    destruct (mem_read_bytes _ val_ptr val_len) as [b|] eqn:E; simpl; [|vm_compute; congruence].
    apply mem_read_bytes_length in E as [_ E]. lia.
  - by apply state_ok_del.
  - apply state_ok_set; [done|]. apply entry_ok_ego20. tauto.
  - apply state_ok_set; [done|]. apply entry_ok_ego20. tauto.
Qed.
End Storage.

(** ** From host calls to whole calls *)

Section Runs.
Context `{VmPrims} `{WasmRuntime}.

Lemma outcome_bind_Ok {A B} (o : Outcome A) (f : A -> Outcome B) b :
  outcome_bind o f = Done (Ok b) <-> exists a, o = Done (Ok a) /\ f a = Done (Ok b).
Proof. destruct o as [[]|]; simpl; naive_solver. Qed.

(** A property of the storage of a contract that no host call breaks. *)
Context (I : ContractState -> Prop).
Hypothesis I_host : forall c mem ctx v mem' ctx',
  I ctx.(h_state) -> host c mem ctx = HRet v mem' ctx' -> I ctx'.(h_state).

Lemma run_guest_keeps {A} (g : Guest A) ctx a ctx' :
  I ctx.(h_state) -> run_guest g ctx = Finished a ctx' -> I ctx'.(h_state).
Proof.
  revert ctx. induction g as [[a'|t]|c mem k IH]; intros ctx Hi; cbn [run_guest].
  - intros [= -> <-]. done.
  - done.
  - destruct (host c mem ctx) as [v mem' ctx1| |] eqn:E; [|done..].
    apply IH. by eapply I_host.
Qed.

Lemma run_or_keeps {A} (g : Guest A) ctx fail a ctx' :
  I ctx.(h_state) -> run_or g ctx fail = Done (Ok (a, ctx')) -> I ctx'.(h_state).
Proof.
  intros Hi. unfold run_or. destruct (run_guest g ctx) eqn:E; [|done..].
  intros [= <- <-]. by eapply run_guest_keeps.
Qed.

Lemma give_args_keeps inst ctx args inst' ctx' :
  I ctx.(h_state) -> give_args inst ctx args = Done (Ok (inst', ctx')) -> I ctx'.(h_state).
Proof.
  intros Hi. unfold give_args. destruct (has_set_args inst); [|by intros [= <- <-]].
  destruct (get_memory inst); [|done]. destruct (mem_write _ _ _); [|done]. by apply run_or_keeps.
Qed.

Lemma run_entrypoint_keeps module ctx entrypoint args fuel ctx' ru ret :
  I ctx.(h_state) -> run_entrypoint module ctx entrypoint args fuel = Done (Ok (ctx', ru, ret)) ->
  I ctx'.(h_state).
Proof.
  intros Hi. unfold run_entrypoint. rewrite outcome_bind_Ok. intros ([inst c1] & Q1 & E).
  apply run_or_keeps in Q1; [|done]. apply outcome_bind_Ok in E as ([inst2 c2] & Q2 & E).
  apply give_args_keeps in Q2; [|done]. destruct (func_type inst2 entrypoint) as [[ps rs]|]; [|done].
  apply outcome_bind_Ok in E as ([[res inst3] c3] & Q3 & [= <- <- <-]). by eapply run_or_keeps.
Qed.

(** ** Calls *)

Context (src : ContractSource).
Hypothesis src_I : forall a, I (src.(src_state) a).

(** Only contracts that have code are touched, and their storage is in order. *)
Definition gathered_ok (g : Gathered) : Prop :=
  forall a st, g.(touched) !! a = Some st -> is_Some (src.(src_code) a) /\ I st.

Lemma cross_call_keeps addr env depth g req g' :
  gathered_ok g -> cross_call src addr env depth g req = Done (Ok g') ->
  gathered_ok g' /\ dom g.(touched) ⊆ dom g'.(touched).
Proof.
  intros Hg. unfold cross_call. destruct (src_code src (cc_contract_addr req)) as [code|] eqn:Ec;
    [|by intros [= <-]].
  destruct (get_or_compile code); [|by intros [= <-]].
  destruct (run_entrypoint _ _ _ _ _) as [[[[out ru] ret]|e]|] eqn:E; [|by intros [= <-]|done].
  intros [= <-]. apply run_entrypoint_keeps in E.
  - split; [|cbn [touched]; set_solver]. intros a st. cbn [touched].
    intros [[<- <-]|[_ Ha]]%lookup_insert_Some; [|by apply Hg]. rewrite Ec. eauto.
  - cbn [h_state with_depth HostCtx_new].
    destruct (touched g !! cc_contract_addr req) eqn:Et; simpl; [by eapply Hg|apply src_I].
Qed.

Lemma cross_calls_keep addr env depth g reqs g' :
  gathered_ok g -> cross_calls src addr env depth g reqs = Done (Ok g') ->
  gathered_ok g' /\ dom g.(touched) ⊆ dom g'.(touched).
Proof.
  revert g. induction reqs as [|req reqs IH]; intros g Hg; cbn [cross_calls]; [by intros [= <-]|].
  rewrite outcome_bind_Ok. intros (g1 & E1 & E2). apply cross_call_keeps in E1 as [Q1 D1]; [|done].
  apply IH in E2 as [Q2 D2]; [|done]. split; [done|set_solver].
Qed.

Lemma rounds_keep left addr env g g' :
  gathered_ok g -> rounds left src addr env g = Done (Ok g') ->
  gathered_ok g' /\ dom g.(touched) ⊆ dom g'.(touched).
Proof.
  revert g. induction left as [|left IH]; intros g Hg; cbn [rounds]; [by intros [= <-]|].
  case_bool_decide; [by intros [= <-]|]. rewrite outcome_bind_Ok. intros (g1 & E1 & E2).
  apply cross_calls_keep in E1 as [Q1 D1]; [|exact Hg]. apply IH in E2 as [Q2 D2]; [|done].
  split; [done|set_solver].
Qed.

Definition effects_ok (addr : str) (fx : CallEffects) : Prop :=
  if fx.(ce_result).(success) then
    fx.(ce_result).(call_error) = None /\ addr ∈ dom fx.(ce_states) /\
    forall a st, fx.(ce_states) !! a = Some st -> is_Some (src.(src_code) a) /\ I st
  else
    fx.(ce_states) = ∅ /\ fx.(ce_result).(events) = [] /\ fx.(ce_result).(transfers) = [] /\
    fx.(ce_result).(return_val) = [] /\ is_Some fx.(ce_result).(call_error).

Lemma failed_call_ok addr ru e : effects_ok addr (failed_call ru e).
Proof. unfold effects_ok. simpl. split_and!; eauto. Qed.

Lemma call_on_effects addr caller entrypoint args env fx :
  call_on src addr caller entrypoint args env = Done (Ok fx) -> effects_ok addr fx.
Proof.
  unfold call_on. destruct (src_code src addr) as [code|] eqn:Ec; [|done].
  rewrite outcome_bind_Ok. intros (module & _ & E).
  destruct (run_entrypoint _ _ _ _ _) as [[[[out ru] ret]|e]|] eqn:Er; [| |done].
  - apply run_entrypoint_keeps in Er; [|apply src_I].
    apply outcome_bind_Ok in E as (g & Eg & E). apply rounds_keep in Eg as [Hg Hd].
    + destruct (_ && _); injection E as <-; [apply failed_call_ok|].
      split_and!; [done| |exact Hg]. cbn [ce_states]. cbn [touched] in Hd. set_solver.
    + intros a st. cbn [touched]. intros [<- <-]%lookup_singleton_Some. rewrite Ec. eauto.
  - destruct e; injection E as <-; apply failed_call_ok.
Qed.
End Runs.

(** ** The directory *)

Section Directory.
Context (disk_error : str -> option str).

Lemma save_states_fold l s e s' :
  save_states disk_error l s = (e, s') ->
  s'.(st_code) = s.(st_code) /\ s'.(st_manifests) = s.(st_manifests) /\
  (forall a, s'.(st_states) !! a = s.(st_states) !! a \/
     exists st, (a, st) ∈ l /\ s'.(st_states) !! a = Some st).
Proof.
  revert s. induction l as [|[addr st] l IH]; intros s; cbn [save_states].
  - intros [= <- <-]. split_and!; [done..|]. by left.
  - unfold save_state, guard_disk. destruct (disk_error addr).
    + intros [= <- <-]. split_and!; [done..|]. by left.
    + intros E. apply IH in E as (Hc & Hm & Hs). split_and!; [done..|]. intros a.
      destruct (Hs a) as [Ha|(st' & Hin & Ha)].
      * cbn [st_states] in Ha. destruct (decide (a = addr)) as [->|Hne].
        -- rewrite lookup_insert_eq in Ha. right. exists st. split; [left|done].
        -- rewrite lookup_insert_ne in Ha by done. by left.
      * right. exists st'. split; [by right|done].
Qed.

Lemma save_states_all l s e s' :
  (forall a, disk_error a = None) -> NoDup l.*1 ->
  save_states disk_error l s = (e, s') ->
  e = None /\ forall a st, (a, st) ∈ l -> s'.(st_states) !! a = Some st.
Proof.
  intros Hd. revert s. induction l as [|[addr st] l IH]; intros s Hn; cbn [save_states].
  - intros [= <- <-]. split; [done|set_solver].
  - inversion Hn as [|? ? Hn1 Hn2]; subst. unfold save_state, guard_disk. rewrite Hd. intros E.
    pose proof (save_states_fold _ _ _ _ E) as (_ & _ & Hf). apply IH in E as [-> Hall]; [|done].
    split; [done|]. intros a st' [[= -> ->]|Hin]%elem_of_cons; [|by apply Hall].
    destruct (Hf addr) as [Ha|(st' & Hin & _)].
    + rewrite Ha. cbn [st_states]. by rewrite lookup_insert_eq.
    + destruct Hn1. apply list_elem_of_fmap. by exists (addr, st').
Qed.
End Directory.
