(* ===== verification/Parallel.v ===== *)
(** * Parallel execution of contract calls

    Model of [crates/ego-vm/src/parallel.rs]: the greedy scheduler that groups
    calls whose declared accesses do not conflict, and the execution of the
    groups, the calls of one group in parallel.

    A call of [Executor::call] reads the contract directory while it runs and
    writes to it when it ends.  In a group these two moments of the calls are
    interleaved in an order chosen by the thread pool ([Interleaving]); the
    single read and the single write are taken as atomic. *)
From S2P Require Import Prelude Crypto Abi Vm VmExec.
Local Open Scope Z_scope.

Record PendingTx : Type := MkPendingTx {
  tx_id : bytes;
  contract_addr : str;
  caller_addr : str;
  entrypoint : str;
  args : bytes;
  tx_block_height : Z;
  tx_timestamp : Z;
  tx_fuel : Z;
}.

Record AccessSet : Type := MkAccessSet {
  reads : gset str;
  writes : gset str;
}.

Definition AccessSet_new : AccessSet := MkAccessSet ∅ ∅.

(** [format!("{}:{}:{}", contract, prefix, key)]. *)
Definition access_key (contract prefix key : str) : str :=
  contract ++ colon ++ prefix ++ colon ++ key.

Definition add_read (contract prefix key : str) (a : AccessSet) : AccessSet :=
  MkAccessSet ({[ access_key contract prefix key ]} ∪ a.(reads)) a.(writes).

Definition add_write (contract prefix key : str) (a : AccessSet) : AccessSet :=
  MkAccessSet a.(reads) ({[ access_key contract prefix key ]} ∪ a.(writes)).

Definition conflicts_with (a other : AccessSet) : bool :=
  negb (bool_decide (a.(writes) ∩ other.(writes) = ∅)) ||
  negb (bool_decide (a.(reads) ∩ other.(writes) = ∅)) ||
  negb (bool_decide (a.(writes) ∩ other.(reads) = ∅)).

(** [reads.extend] and [writes.extend]. *)
Definition extend (a other : AccessSet) : AccessSet :=
  MkAccessSet (a.(reads) ∪ other.(reads)) (a.(writes) ∪ other.(writes)).

(** One pass over the indices: [for i in 0..n].  [None]: an index beyond
    [access_sets] panics. *)
Fixpoint pass (access_sets : list AccessSet) (is_ : list nat) (group_access : AccessSet)
    (group : list nat) (assigned : list bool) : option (list nat * list bool) :=
  match is_ with
  | [] => Some (group, assigned)
  | i :: is_ =>
      if default false (assigned !! i) then pass access_sets is_ group_access group assigned
      else
        a ← access_sets !! i;
        if negb (conflicts_with group_access a)
        then pass access_sets is_ (extend group_access a) (group ++ [i]) (<[ i := true ]> assigned)
        else pass access_sets is_ group_access group assigned
  end.

(** [while assigned.iter().any(|&a| !a)]; out of fuel also gives [None]. *)
Fixpoint schedule_loop (fuel n : nat) (access_sets : list AccessSet) (assigned : list bool)
    (groups : list (list nat)) : option (list (list nat)) :=
  match fuel with
  | O => None
  | S fuel =>
      if bool_decide (false ∈ assigned) then
        '(group, assigned) ← pass access_sets (seq 0 n) AccessSet_new [] assigned;
        let groups := if bool_decide (group = []) then groups else groups ++ [group] in
        schedule_loop fuel n access_sets assigned groups
      else Some groups
  end.

Definition schedule_batch (txs : list PendingTx) (access_sets : list AccessSet) :
    option (list (list nat)) :=
  let n := length txs in
  schedule_loop (S n) n access_sets (replicate n false) [].

(** ** Execution *)

(** The two moments of a call. *)
Inductive Moment : Type :=
| Load (idx : nat)
| Save (idx : nat).

#[export] Instance Moment_eq_dec : EqDecision Moment.
Proof. solve_decision. Defined.

(** Every call of the group reads once and then writes once. *)
Definition valid_order (group : list nat) (ms : list Moment) : Prop :=
  NoDup ms /\
  (forall m, m ∈ ms -> match m with Load i | Save i => i ∈ group end) /\
  (forall i, i ∈ group -> exists before after, ms = before ++ Save i :: after /\ Load i ∈ before).

(** The thread pool: some such order for every group. *)
Class Interleaving : Type := {
  par_order : list nat -> list Moment;
  par_order_valid : forall group, NoDup group -> valid_order group (par_order group);
}.

Section Batch.
Context `{VmPrims} `{WasmRuntime} (disk_error : str -> option str).

Definition call_of (tx : PendingTx) (s : StateStore) : Outcome CallEffects :=
  call_on (store_source s) tx.(contract_addr) tx.(caller_addr) tx.(entrypoint) tx.(args)
    (MkExecEnv tx.(tx_block_height) tx.(tx_timestamp) tx.(tx_fuel) true).

(** The second half of [Executor::call]. *)
Definition save_of (o : Outcome CallEffects) (s : StateStore) : Outcome CallResult * StateStore :=
  match o with
  | Panic => (Panic, s)
  | Done (Err e) => (Done (Err e), s)
  | Done (Ok fx) =>
      match save_states disk_error (stable_sort str_leb (map_to_list fx.(ce_states))) s with
      | (Some e, s) => (Done (Err e), s)
      | (None, s) => (Done (Ok fx.(ce_result)), s)
      end
  end.

Record GroupState : Type := MkGroupState {
  gs_store : StateStore;
  gs_loaded : gmap nat (Outcome CallEffects);
  gs_results : gmap nat (Outcome CallResult);
}.

Definition moment (txs : list PendingTx) (g : GroupState) (m : Moment) : GroupState :=
  match m with
  | Load i =>
      match txs !! i with
      | Some tx => MkGroupState g.(gs_store) (<[ i := call_of tx g.(gs_store) ]> g.(gs_loaded)) g.(gs_results)
      | None => g
      end
  | Save i =>
      match g.(gs_loaded) !! i with
      | Some o =>
          let '(r, s) := save_of o g.(gs_store) in
          MkGroupState s g.(gs_loaded) (<[ i := r ]> g.(gs_results))
      | None => g
      end
  end.

Definition run_moments (txs : list PendingTx) (ms : list Moment) (g : GroupState) : GroupState :=
  foldl (moment txs) g ms.

Context `{Interleaving}.

(** One group; the results so far are carried along. *)
Definition run_group (txs : list PendingTx) (sr : StateStore * gmap nat (Outcome CallResult))
    (group : list nat) : StateStore * gmap nat (Outcome CallResult) :=
  let g := run_moments txs (par_order group) (MkGroupState sr.1 ∅ ∅) in
  (g.(gs_store), g.(gs_results) ∪ sr.2).

Record BatchResult : Type := MkBatchResult {
  results : list (result CallResult VmError);
  total_ru : Z;
  parallel_groups : nat;
}.

(** The result of one call; [None] where a panic was raised. *)
Definition result_of (rs : gmap nat (Outcome CallResult)) (i : nat) : option (result CallResult VmError) :=
  match rs !! i with
  | None => Some (Err (ExecutionError (ascii_bytes "not executed")))
  | Some (Done r) => Some r
  | Some Panic => None
  end.

Definition ru_of (r : result CallResult VmError) : Z :=
  match r with
  | Ok cr => cr.(ru_used)
  | Err _ => 0
  end.

(** [None]: the scheduler or a call panicked.  The average group size, a float
    computed from the two numbers, is left out. *)
Definition execute_batch (txs : list PendingTx) (access_sets : list AccessSet) (s : StateStore) :
    option (BatchResult * StateStore) :=
  groups ← schedule_batch txs access_sets;
  let '(s, rs) := foldl (run_group txs) (s, ∅) groups in
  results ← mapM (result_of rs) (seq 0 (length txs));
  Some (MkBatchResult results (foldl wrapping_add64 0 (ru_of <$> results)) (length groups), s).
End Batch.
