(* ===== verification/ParallelFacts.v ===== *)
(** * Facts about the scheduler and about interleavings *)
From S2P Require Import Prelude Crypto Abi Vm VmExec VmFacts Parallel.
Local Open Scope Z_scope.

(** ** Conflicts *)

Lemma conflicts_false a b :
  conflicts_with a b = false <->
  a.(writes) ∩ b.(writes) = ∅ /\ a.(reads) ∩ b.(writes) = ∅ /\ a.(writes) ∩ b.(reads) = ∅.
Proof. unfold conflicts_with. rewrite !orb_false_iff, !negb_false_iff, !bool_decide_eq_true. tauto. Qed.

Lemma conflicts_sym a b : conflicts_with a b = conflicts_with b a.
Proof.
  apply eq_true_iff_eq. rewrite <-!not_false_iff_true, !conflicts_false.
  rewrite (intersection_comm_L (writes a) (writes b)), (intersection_comm_L (reads a) (writes b)),
    (intersection_comm_L (writes a) (reads b)). tauto.
Qed.

Lemma conflicts_new a : conflicts_with AccessSet_new a = false.
Proof. apply conflicts_false. simpl. set_solver. Qed.

Lemma not_false_eq (x y : bool) : (x = false <-> y = false) -> x = y.
Proof. destruct x, y; intuition congruence. Qed.

Lemma conflicts_extend a b c :
  conflicts_with (extend a b) c = conflicts_with a c || conflicts_with b c.
Proof.
  apply not_false_eq. rewrite orb_false_iff, !conflicts_false. unfold extend. cbn [reads writes].
  assert (E : forall x y z : gset str, (x ∪ y) ∩ z = ∅ <-> x ∩ z = ∅ /\ y ∩ z = ∅).
  { intros x y z. by rewrite intersection_union_r_L, empty_union_L. }
  rewrite !E. tauto.
Qed.

(** ** One pass *)

Section Scheduler.
Context (sets : list AccessSet).

(** Calls [i] and [j] conflict. *)
Definition clash (i j : nat) : bool :=
  match sets !! i, sets !! j with
  | Some a, Some b => conflicts_with a b
  | _, _ => false
  end.

Definition compatible (group : list nat) : Prop :=
  forall i j, i ∈ group -> j ∈ group -> i <> j -> clash i j = false.

(** The access of a group conflicts with a call exactly when a member does. *)
Definition summary (group : list nat) (acc : AccessSet) : Prop :=
  forall j b, sets !! j = Some b ->
  conflicts_with acc b = true <-> exists i, i ∈ group /\ clash i j = true.

Definition open_ (assigned : list bool) (i : nat) : Prop := assigned !! i = Some false.

#[local] Instance open_dec assigned i : Decision (open_ assigned i).
Proof. unfold open_. apply _. Defined.

Lemma clash_sym i j : clash i j = clash j i.
Proof. unfold clash. destruct (sets !! i), (sets !! j); auto using conflicts_sym. Qed.

Record pass_ok (is_ : list nat) (group : list nat) (assigned : list bool)
    (new : list nat) (assigned' : list bool) : Prop := {
  po_length : length assigned' = length assigned;
  po_from : forall i, i ∈ new -> i ∈ is_ /\ open_ assigned i;
  po_nodup : NoDup new;
  po_closed : forall i, open_ assigned' i <-> open_ assigned i /\ i ∉ new;
  po_compatible : compatible (group ++ new);
  po_greedy : forall i, i ∈ is_ -> open_ assigned' i ->
    exists j, j ∈ group ++ new /\ clash j i = true;
}.

Lemma pass_spec is_ acc group assigned :
  NoDup is_ -> (forall i, i ∈ is_ -> (i < length sets)%nat /\ (i < length assigned)%nat) ->
  summary group acc -> compatible group -> (forall i, i ∈ group -> i ∉ is_) ->
  exists new assigned', pass sets is_ acc group assigned = Some (group ++ new, assigned') /\
    pass_ok is_ group assigned new assigned'.
Proof.
  intros Hn. revert acc group assigned. induction Hn as [|i is_ Hi Hn IH]; intros acc group assigned Hb Hs Hc Hout.
  { exists [], assigned. cbn [pass]. rewrite app_nil_r. split; [done|].
    split; rewrite ?app_nil_r; try done; try set_solver. constructor. }
  destruct (Hb i) as [Hi1 Hi2]; [set_solver|].
  destruct (lookup_lt_is_Some_2 assigned i Hi2) as [ai Hai].
  destruct (lookup_lt_is_Some_2 sets i Hi1) as [a Ha].
  cbn [pass]. rewrite Hai. cbn [default]. destruct ai.
  - destruct (IH acc group assigned) as (new & as' & E & P); [set_solver..|].
    exists new, as'. split; [done|]. destruct P as [P1 P2 P3 P4 P5 P6]. split; try done; [set_solver|].
    intros j [->|Hj]%elem_of_cons Ho; [|by apply P6]. apply P4 in Ho as [Ho _]. unfold open_ in Ho. congruence.
  - rewrite Ha. cbn [mbind option_bind]. destruct (conflicts_with acc a) eqn:Ec; cbn [negb].
    + destruct (IH acc group assigned) as (new & as' & E & P); [set_solver..|].
      exists new, as'. split; [done|]. destruct P as [P1 P2 P3 P4 P5 P6]. split; try done; [set_solver|].
      intros j [->|Hj]%elem_of_cons Ho; [|by apply P6].
      apply (Hs i a Ha) in Ec as (k & Hk & Hcl). exists k. split; [set_solver|done].
    + assert (Hfree : forall k, k ∈ group -> clash k i = false).
      { intros k Hk. apply not_true_iff_false. intros Hcl.
        assert (conflicts_with acc a = true) by (apply (Hs i a Ha); eauto). congruence. }
      destruct (IH (extend acc a) (group ++ [i]) (<[ i := true ]> assigned)) as (new & as' & E & P).
      * intros j Hj. rewrite length_insert. apply Hb. set_solver.
      * intros j b Hj. rewrite conflicts_extend, orb_true_iff, (Hs j b Hj).
        assert (Hcij : clash i j = conflicts_with a b) by (unfold clash; by rewrite Ha, Hj).
        setoid_rewrite elem_of_app. setoid_rewrite list_elem_of_singleton.
        rewrite <-Hcij. naive_solver.
      * intros x y Hx Hy Hne. apply elem_of_app in Hx, Hy. rewrite list_elem_of_singleton in Hx, Hy.
        destruct Hx as [Hx| ->], Hy as [Hy| ->]; auto; try done.
        rewrite clash_sym. auto.
      * intros j. rewrite elem_of_app, list_elem_of_singleton. intros [Hj| ->]; [|done].
        intros Hin. apply (Hout j Hj). set_solver.
      * exists (i :: new), as'. rewrite <-app_assoc in E. split; [done|].
        destruct P as [P1 P2 P3 P4 P5 P6]. rewrite length_insert in P1.
        rewrite <-app_assoc in P5.
        assert (Hopen : forall j, open_ (<[ i := true ]> assigned) j <-> open_ assigned j /\ j <> i).
        { intros j. unfold open_. destruct (decide (j = i)) as [->|Hne].
          - rewrite list_lookup_insert_eq by done. naive_solver.
          - rewrite list_lookup_insert_ne by done. naive_solver. }
        split; try done.
        -- intros j [->|Hj]%elem_of_cons; [split; [set_solver|done]|].
           apply P2 in Hj as [Hj Ho]. apply Hopen in Ho. split; [set_solver|tauto].
        -- constructor; [|done]. intros Hin. apply P2 in Hin as [_ Ho]. apply Hopen in Ho. tauto.
        -- intros j. rewrite P4, Hopen, not_elem_of_cons. tauto.
        -- intros j [->|Hj]%elem_of_cons Ho; [apply P4 in Ho as [Ho _]; apply Hopen in Ho; tauto|].
           rewrite <-app_assoc in P6. by apply P6.
Qed.

(** ** The loop *)

Definition opens (n : nat) (assigned : list bool) : list nat :=
  filter (open_ assigned) (seq 0 n).

(** The groups made so far, and the greedy choice in each. *)
Record groups_ok (n : nat) (groups : list (list nat)) (assigned : list bool) : Prop := {
  go_length : length assigned = n;
  go_partition : concat groups ++ opens n assigned ≡ₚ seq 0 n;
  go_nonempty : Forall (fun g => g <> []) groups;
  go_compatible : Forall compatible groups;
  go_greedy : forall k g i, groups !! k = Some g ->
    (i ∈ opens n assigned \/ exists k' g', (k < k')%nat /\ groups !! k' = Some g' /\ i ∈ g') ->
    exists j, j ∈ g /\ clash j i = true;
}.

Lemma elem_of_opens n assigned i :
  length assigned = n -> i ∈ opens n assigned <-> open_ assigned i.
Proof.
  intros Hl. unfold opens. rewrite list_elem_of_filter, elem_of_seq. split; [tauto|].
  intros Ho. split; [done|]. apply lookup_lt_Some in Ho. lia.
Qed.

Lemma groups_ok_next n groups assigned new assigned' :
  groups_ok n groups assigned -> pass_ok (seq 0 n) [] assigned new assigned' -> new <> [] ->
  groups_ok n (groups ++ [new]) assigned'.
Proof.
  intros [G1 G2 G3 G4 G5] [P1 P2 P3 P4 P5 P6] Hne.
  assert (Hl' : length assigned' = n) by congruence.
  assert (Hsplit : opens n assigned ≡ₚ new ++ opens n assigned').
  { apply NoDup_Permutation.
    - apply NoDup_filter, NoDup_seq.
    - apply NoDup_app. split_and!; [done| |apply NoDup_filter, NoDup_seq].
      intros i Hi Ho. apply elem_of_opens in Ho; [|done]. apply P4 in Ho. tauto.
    - intros i. rewrite elem_of_app, !elem_of_opens, P4 by done.
      destruct (decide (i ∈ new)) as [Hi|Hi]; [|tauto]. apply P2 in Hi as Hi'. tauto. }
  split; [done| | | |].
  - rewrite concat_app, concat_cons, app_nil_r, <-app_assoc, <-Hsplit. done.
  - apply Forall_app. split; [done|]. by constructor.
  - apply Forall_app. split; [done|]. by constructor.
  - intros k g i Hk Hi. apply lookup_app_Some in Hk as [Hk|[Hk Hk']].
    + apply (G5 k g i Hk). destruct Hi as [Hi|(k' & g' & Hlt & Hk' & Hi)].
      * left. rewrite Hsplit, elem_of_app. by right.
      * apply lookup_app_Some in Hk' as [Hk'|[_ Hk']]; [right; eauto|].
        left. apply list_lookup_singleton_Some in Hk' as [_ <-]. rewrite Hsplit, elem_of_app. by left.
    + apply list_lookup_singleton_Some in Hk' as [Hz <-]. destruct Hi as [Hi|(k' & g' & Hlt & Hk' & Hi)].
      * apply P6; [|by apply elem_of_opens in Hi]. unfold opens in Hi.
        by apply list_elem_of_filter in Hi as [_ Hi].
      * apply lookup_lt_Some in Hk'. rewrite length_app in Hk'. simpl in Hk'. lia.
Qed.

Lemma schedule_loop_spec fuel n groups assigned :
  (n <= length sets)%nat -> groups_ok n groups assigned ->
  (length (opens n assigned) < fuel)%nat ->
  exists groups' assigned', schedule_loop fuel n sets assigned groups = Some groups' /\
    groups_ok n groups' assigned' /\ opens n assigned' = [].
Proof.
  intros Hn. revert groups assigned. induction fuel as [|fuel IH]; intros groups assigned G Hf; [lia|].
  cbn [schedule_loop]. case_bool_decide as Hfalse.
  - destruct (pass_spec (seq 0 n) AccessSet_new [] assigned) as (new & as' & E & P).
    + apply NoDup_seq.
    + intros i. rewrite elem_of_seq, (go_length _ _ _ G). lia.
    + intros j b _. rewrite conflicts_new. set_solver.
    + intros i j. set_solver.
    + set_solver.
    + rewrite E. cbn [mbind option_bind].
      assert (Hne : new <> []).
      { intros ->. apply list_elem_of_lookup_1 in Hfalse as [i Hi].
        destruct (po_greedy _ _ _ _ _ P i) as (j & Hj & _); [|apply (po_closed _ _ _ _ _ P); set_solver|set_solver].
        apply lookup_lt_Some in Hi. rewrite (go_length _ _ _ G) in Hi. apply elem_of_seq. lia. }
      simpl app. rewrite bool_decide_false by done.
      pose proof (groups_ok_next n groups assigned new as' G P Hne) as G'.
      apply IH; [done|].
      pose proof (go_partition _ _ _ G) as Hp. pose proof (go_partition _ _ _ G') as Hp'.
      apply Permutation_length in Hp, Hp'. rewrite concat_app, !length_app in *. simpl in Hp'.
      rewrite app_nil_r in Hp'. destruct new; [done|]. simpl in Hp'. lia.
  - exists groups, assigned. split; [done|]. split; [done|]. unfold opens. apply filter_none.
    intros i _ Ho. apply Hfalse. by eapply list_elem_of_lookup_2.
Qed.

(** What the scheduler promises. *)
Record schedule_ok (n : nat) (groups : list (list nat)) : Prop := {
  so_partition : concat groups ≡ₚ seq 0 n;
  so_nonempty : Forall (fun g => g <> []) groups;
  so_compatible : Forall compatible groups;
  so_greedy : forall k k' g g' i, groups !! k = Some g -> groups !! k' = Some g' -> (k < k')%nat ->
    i ∈ g' -> exists j, j ∈ g /\ clash j i = true;
}.

Lemma opens_start n : opens n (replicate n false) = seq 0 n.
Proof.
  unfold opens. apply filter_all. intros i. rewrite elem_of_seq. intros Hi. unfold open_.
  by apply lookup_replicate_2; lia.
Qed.

Lemma schedule_batch_ok txs :
  (length txs <= length sets)%nat ->
  exists groups, schedule_batch txs sets = Some groups /\ schedule_ok (length txs) groups.
Proof.
  intros Hn. unfold schedule_batch.
  destruct (schedule_loop_spec (S (length txs)) (length txs) [] (replicate (length txs) false))
    as (groups & assigned & E & [G1 G2 G3 G4 G5] & Ho).
  - done.
  - split; [apply length_replicate|by rewrite opens_start|constructor|constructor|].
    intros k g i. by rewrite lookup_nil.
  - rewrite opens_start, length_seq. lia.
  - exists groups. split; [done|]. rewrite Ho, app_nil_r in G2. split; [done..|].
    intros k k' g g' i Hk Hk' Hlt Hi. apply (G5 k g i Hk). right. eauto.
Qed.
End Scheduler.

(** ** Interleavings *)

(** A write never comes before its read. *)
Definition reads_first (ms : list Moment) : Prop :=
  forall before i after, ms = before ++ Save i :: after -> Load i ∈ before.

Lemma NoDup_split_unique {A} (l1 l2 k1 k2 : list A) x :
  NoDup (l1 ++ x :: l2) -> l1 ++ x :: l2 = k1 ++ x :: k2 -> l1 = k1.
Proof.
  revert k1. induction l1 as [|y l1 IH]; intros k1 Hn E; destruct k1 as [|z k1]; simplify_eq/=; [done| | |].
  - apply NoDup_cons in Hn as [Hn _]. set_solver.
  - apply NoDup_cons in Hn as [Hn _]. set_solver.
  - f_equal. apply NoDup_cons in Hn as [_ Hn]. by apply (IH k1).
Qed.

Lemma valid_reads_first group ms : valid_order group ms -> reads_first ms.
Proof.
  intros (Hn & Hin & Hex) before i after ->. destruct (Hex i) as (b & a & E & Hl).
  - apply (Hin (Save i)). set_solver.
  - apply NoDup_split_unique in E as ->; done.
Qed.

Lemma reads_first_prefix ms m : reads_first (ms ++ [m]) -> reads_first ms.
Proof. intros Hr before i after ->. apply (Hr before i (after ++ [m])). by rewrite <-app_assoc. Qed.

Section Interleaved.
Context `{VmPrims} `{WasmRuntime} (disk_error : str -> option str).

Definition agree (C : gset str) (s s' : StateStore) : Prop :=
  forall a, a ∈ C -> s.(st_code) !! a = s'.(st_code) !! a /\ s.(st_states) !! a = s'.(st_states) !! a.

(** The call reads and writes only the contracts of [C]. *)
Definition confined (tx : PendingTx) (C : gset str) : Prop :=
  (forall s s', agree C s s' -> call_of tx s = call_of tx s') /\
  (forall s fx, call_of tx s = Done (Ok fx) -> dom fx.(ce_states) ⊆ C).

Lemma save_states_ext l s1 s2 a :
  s1.(st_states) !! a = s2.(st_states) !! a ->
  (save_states disk_error l s1).1 = (save_states disk_error l s2).1 /\
  (save_states disk_error l s1).2.(st_states) !! a = (save_states disk_error l s2).2.(st_states) !! a.
Proof.
  revert s1 s2. induction l as [|[addr st] l IH]; intros s1 s2 E; cbn [save_states]; [done|].
  unfold save_state, guard_disk. destruct (disk_error addr); [done|]. apply IH. simpl.
  destruct (decide (a = addr)) as [->|]; [by rewrite !lookup_insert_eq|by rewrite !lookup_insert_ne].
Qed.

Lemma save_of_ext o s1 s2 :
  (save_of disk_error o s1).1 = (save_of disk_error o s2).1 /\
  forall a, s1.(st_states) !! a = s2.(st_states) !! a ->
    (save_of disk_error o s1).2.(st_states) !! a = (save_of disk_error o s2).2.(st_states) !! a.
Proof.
  destruct o as [[fx|e]|]; cbn [save_of]; [|done..].
  set (l := stable_sort str_leb (map_to_list (ce_states fx))).
  assert (Hr : (save_states disk_error l s1).1 = (save_states disk_error l s2).1).
  { generalize l s1 s2. clear. intros l. induction l as [|[addr st] l IH]; intros s1 s2; cbn [save_states]; [done|].
    unfold save_state, guard_disk. destruct (disk_error addr); [done|]. apply IH. }
  pose proof (fun a => save_states_ext l s1 s2 a) as Hx.
  destruct (save_states disk_error l s1) as [e1 t1], (save_states disk_error l s2) as [e2 t2].
  simpl in *. subst e2. destruct e1; simpl; split; try done; intros a Ha; by apply Hx.
Qed.

Lemma save_of_frame o s :
  (save_of disk_error o s).2.(st_code) = s.(st_code) /\
  (save_of disk_error o s).2.(st_manifests) = s.(st_manifests) /\
  forall C a, (forall fx, o = Done (Ok fx) -> dom fx.(ce_states) ⊆ C) -> a ∉ C ->
    (save_of disk_error o s).2.(st_states) !! a = s.(st_states) !! a.
Proof.
  destruct o as [[fx|e]|]; cbn [save_of]; [|done..].
  destruct (save_states _ _ s) as [e t] eqn:E. apply save_states_fold in E as (Hc & Hm & Hs).
  assert (Hf : forall C a, (forall fx', Done (Ok fx) = Done (Ok fx') -> dom fx'.(ce_states) ⊆ C) -> a ∉ C ->
    t.(st_states) !! a = s.(st_states) !! a).
  { intros C a Hd Ha. destruct (Hs a) as [?|(st & Hin & _)]; [done|].
    rewrite stable_sort_perm, elem_of_map_to_list in Hin.
    specialize (Hd fx eq_refl). apply elem_of_dom_2 in Hin. set_solver. }
  by destruct e.
Qed.

Context (txs : list PendingTx) (group : list nat) (Cs : nat -> gset str).
Hypothesis group_txs : forall i, i ∈ group -> exists tx, txs !! i = Some tx /\ confined tx (Cs i).
Hypothesis apart : forall i j, i ∈ group -> j ∈ group -> i <> j -> Cs i ## Cs j.

(** What call [i] does when it runs alone on [s]. *)
Definition alone (s : StateStore) (i : nat) : Outcome CallResult * StateStore :=
  match txs !! i with
  | Some tx => save_of disk_error (call_of tx s) s
  | None => (Panic, s)
  end.

(** The state reached after the moments [ms]. *)
Record group_inv (s0 : StateStore) (ms : list Moment) (g : GroupState) : Prop := {
  gi_code : g.(gs_store).(st_code) = s0.(st_code);
  gi_manifests : g.(gs_store).(st_manifests) = s0.(st_manifests);
  gi_loaded : forall i tx, i ∈ group -> txs !! i = Some tx ->
    Load i ∈ ms -> g.(gs_loaded) !! i = Some (call_of tx s0);
  gi_results : forall i, g.(gs_results) !! i =
    if decide (Save i ∈ ms) then Some (alone s0 i).1 else None;
  gi_mine : forall i a, i ∈ group -> a ∈ Cs i ->
    g.(gs_store).(st_states) !! a =
    if decide (Save i ∈ ms) then (alone s0 i).2.(st_states) !! a else s0.(st_states) !! a;
  gi_other : forall a, (forall i, i ∈ group -> a ∉ Cs i) ->
    g.(gs_store).(st_states) !! a = s0.(st_states) !! a;
}.

Lemma group_inv_start s0 : group_inv s0 [] (MkGroupState s0 ∅ ∅).
Proof.
  split; try done. intros i tx _ _ Hl. set_solver.
Qed.

Lemma group_inv_load s0 ms g i :
  group_inv s0 ms g -> i ∈ group -> Save i ∉ ms -> Load i ∉ ms ->
  group_inv s0 (ms ++ [Load i]) (moment disk_error txs g (Load i)).
Proof.
  intros [G1 G2 G3 G4 G5 G6] Hi Hs Hl. destruct (group_txs i Hi) as (tx & Ht & Hc & _).
  cbn [moment]. rewrite Ht.
  assert (E : call_of tx g.(gs_store) = call_of tx s0).
  { apply Hc. intros a Ha. rewrite G1. split; [done|]. rewrite (G5 i a Hi Ha). by rewrite decide_False. }
  assert (Hsave : forall j, Save j ∈ ms ++ [Load i] <-> Save j ∈ ms) by set_solver.
  split; cbn [gs_store gs_loaded gs_results]; try done.
  - intros j tx' Hj Ht' Hin. destruct (decide (j = i)) as [->|Hne].
    + rewrite lookup_insert_eq, E. congruence.
    + rewrite lookup_insert_ne by done. apply (G3 j tx' Hj Ht'). set_solver.
  - intros j. rewrite G4. by rewrite (decide_ext _ _ _ _ (Hsave j)).
  - intros j a Hj Ha. rewrite (G5 j a Hj Ha). by rewrite (decide_ext _ _ _ _ (Hsave j)).
Qed.

Lemma group_inv_save s0 ms g i :
  group_inv s0 ms g -> i ∈ group -> Load i ∈ ms -> Save i ∉ ms ->
  group_inv s0 (ms ++ [Save i]) (moment disk_error txs g (Save i)).
Proof.
  intros [G1 G2 G3 G4 G5 G6] Hi Hl Hs. destruct (group_txs i Hi) as (tx & Ht & _ & Hd).
  cbn [moment]. rewrite (G3 i tx Hi Ht Hl).
  pose proof (save_of_ext (call_of tx s0) g.(gs_store) s0) as [Hr Hx].
  pose proof (save_of_frame (call_of tx s0) g.(gs_store)) as (F1 & F2 & F3).
  assert (Ha : alone s0 i = save_of disk_error (call_of tx s0) s0) by (unfold alone; by rewrite Ht).
  destruct (save_of disk_error (call_of tx s0) (gs_store g)) as [r t] eqn:Es. cbn [fst snd] in *.
  assert (Hsave : forall j, Save j ∈ ms ++ [Save i] <-> Save j ∈ ms \/ j = i) by set_solver.
  split; cbn [gs_store gs_loaded gs_results].
  - congruence.
  - congruence.
  - intros j tx' Hj Ht' Hin. apply (G3 j tx' Hj Ht'). set_solver.
  - intros j. destruct (decide (j = i)) as [->|Hne].
    + rewrite lookup_insert_eq, decide_True by set_solver. by rewrite Ha, Hr.
    + rewrite lookup_insert_ne, G4 by done.
      rewrite (decide_ext (Save j ∈ ms ++ [Save i]) (Save j ∈ ms)); [done|]. rewrite Hsave. tauto.
  - intros j a Hj Hin. destruct (decide (j = i)) as [->|Hne].
    + rewrite (decide_True (P := Save i ∈ ms ++ [Save i])) by set_solver. rewrite Ha. apply Hx.
      rewrite (G5 i a Hi Hin). by rewrite decide_False.
    + rewrite (F3 (Cs i) a (fun fx => Hd s0 fx)).
      * rewrite (G5 j a Hj Hin).
        rewrite (decide_ext (Save j ∈ ms ++ [Save i]) (Save j ∈ ms)); [done|]. rewrite Hsave. tauto.
      * pose proof (apart i j Hi Hj ltac:(congruence)). set_solver.
  - intros a Ho. rewrite (F3 (Cs i) a (fun fx => Hd s0 fx)) by auto. by apply G6.
Qed.

Lemma group_inv_run s0 ms :
  NoDup ms -> reads_first ms ->
  (forall m, m ∈ ms -> match m with Load i | Save i => i ∈ group end) ->
  group_inv s0 ms (run_moments disk_error txs ms (MkGroupState s0 ∅ ∅)).
Proof.
  induction ms as [|m ms IH] using rev_ind; intros Hn Hr Hin; [apply group_inv_start|].
  unfold run_moments in *. rewrite foldl_app. cbn [foldl].
  apply NoDup_app in Hn as (Hn & Hnew & _).
  assert (IH' := IH Hn (reads_first_prefix _ _ Hr) ltac:(intros; apply Hin; set_solver)).
  assert (Hm := Hin m ltac:(set_solver)).
  assert (Hfresh : m ∉ ms) by set_solver.
  destruct m as [i|i].
  - apply group_inv_load; [done|done| |done]. intros Hs.
    apply list_elem_of_split in Hs as (l1 & l2 & ->).
    apply Hfresh. assert (Load i ∈ l1); [|set_solver].
    apply (Hr l1 i (l2 ++ [Load i])). by rewrite <-app_assoc.
  - apply group_inv_save; [done|done| |done]. by apply (Hr ms i []).
Qed.

(** All orders of a group end the same way. *)
Lemma group_order_irrelevant s0 ms ms' :
  valid_order group ms -> valid_order group ms' ->
  let g := run_moments disk_error txs ms (MkGroupState s0 ∅ ∅) in
  let g' := run_moments disk_error txs ms' (MkGroupState s0 ∅ ∅) in
  g.(gs_store) = g'.(gs_store) /\ g.(gs_results) = g'.(gs_results).
Proof.
  intros V V'. cbv zeta.
  assert (Hall : forall ms i, valid_order group ms -> Save i ∈ ms <-> i ∈ group).
  { intros l i (_ & H1' & H2'). split; [by intros Hs%H1'|]. intros Hi.
    destruct (H2' i Hi) as (b & a & -> & _). set_solver. }
  assert (G := group_inv_run s0 ms (proj1 V) (valid_reads_first _ _ V) (proj1 (proj2 V))).
  assert (G' := group_inv_run s0 ms' (proj1 V') (valid_reads_first _ _ V') (proj1 (proj2 V'))).
  destruct (run_moments _ _ ms _) as [[c1 s1 m1] l1 r1], (run_moments _ _ ms' _) as [[c2 s2 m2] l2 r2].
  destruct G as [G1 G2 _ G4 G5 G6], G' as [K1 K2 _ K4 K5 K6].
  cbn [gs_store gs_results st_code st_states st_manifests] in *. split.
  - f_equal; [congruence| |congruence]. apply map_eq. intros a.
    destruct (decide (Exists (fun i => a ∈ Cs i) group)) as [He|He].
    + apply Exists_exists in He as (i & Hi & Ha). rewrite (G5 i a Hi Ha), (K5 i a Hi Ha).
      rewrite !decide_True by (by apply Hall). done.
    + assert (Ho : forall i, i ∈ group -> a ∉ Cs i).
      { intros i Hi Ha. apply He, Exists_exists. eauto. }
      by rewrite (G6 a Ho), (K6 a Ho).
  - apply map_eq. intros i. rewrite G4, K4.
    rewrite (decide_ext (Save i ∈ ms) (Save i ∈ ms')); [done|]. by rewrite !Hall.
Qed.
End Interleaved.
