(* ===== verification/VmTheorems.v ===== *)
(** * The theorems about the contract machine *)
From S2P Require Import Prelude Crypto Abi Vm VmExec VmFacts Parallel ParallelFacts.
Local Open Scope Z_scope.
Local Open Scope ego_scope.

(** ** Contracts in the directory *)

(** What can be asked of an [Executor]. *)
Inductive VmOp : Type :=
| OpDeploy (wasm_bytes : bytes) (deployer_addr : str) (init_args : bytes) (height time fuel : Z)
| OpCall (contract_addr caller_addr entrypoint : str) (args : bytes) (height time fuel : Z).

Section Theorems.
Context `{VmPrims} `{WasmRuntime} (disk_error : str -> option str).

Definition vm_step (s : StateStore) (op : VmOp) : StateStore :=
  match op with
  | OpDeploy w d a h t f => (executor_deploy disk_error w d a h t f s).2
  | OpCall c d e a h t f => (executor_call disk_error c d e a h t f s).2
  end.

Definition dir_ok (s : StateStore) : Prop := forall a, state_ok (load_state s a).

Lemma dir_ok_insert s s' a st :
  dir_ok s -> state_ok st -> s'.(st_states) = <[ a := st ]> s.(st_states) -> dir_ok s'.
Proof.
  intros Hs Hst E b. unfold load_state. rewrite E. destruct (decide (b = a)) as [->|Hne].
  - by rewrite lookup_insert_eq.
  - rewrite lookup_insert_ne by done. apply Hs.
Qed.

Lemma call_keeps_dir c d e a h t f s :
  dir_ok s -> dir_ok (executor_call disk_error c d e a h t f s).2.
Proof.
  intros Hs. unfold executor_call. destruct (call_on _ _ _ _ _ _) as [[fx|err]|] eqn:Ec; [|done..].
  apply (call_on_effects state_ok host_ok) in Ec; [|exact Hs]. unfold effects_ok in Ec.
  destruct (save_states _ _ s) as [err s'] eqn:Es. apply save_states_fold in Es as (_ & _ & Hf).
  assert (Hd : dir_ok s'); [|by destruct err]. intros b. unfold load_state.
  destruct (Hf b) as [->|(st & Hin & ->)]; [apply Hs|].
  rewrite stable_sort_perm, elem_of_map_to_list in Hin.
  cbn [default]. destruct (success (ce_result fx)); [apply Ec in Hin; tauto|]. destruct Ec as [E _].
  by rewrite E, lookup_empty in Hin.
Qed.

Lemma deploy_state_ok src w d a env fx :
  deploy_on src w d a env = Done (Ok fx) -> state_ok fx.(de_state).
Proof.
  unfold deploy_on. case_bool_decide; [done|]. destruct (contract_address_for d w) as [addr code].
  destruct (src_code src addr).
  - intros [= <-]. apply state_ok_empty.
  - rewrite outcome_bind_Ok. intros (module & _ & E). apply outcome_bind_Ok in E as ([[out ru] ret] & Er & E).
    destruct (_ && _); [done|]. injection E as <-. eapply (run_entrypoint_keeps _ host_ok), Er.
    apply state_ok_empty.
Qed.

Lemma deploy_keeps_dir w d a h t f s :
  dir_ok s -> dir_ok (executor_deploy disk_error w d a h t f s).2.
Proof.
  intros Hs. unfold executor_deploy. destruct (deploy_on _ _ _ _ _) as [[fx|err]|] eqn:Ed; [|done..].
  apply deploy_state_ok in Ed. destruct (existed fx); [done|].
  unfold store_code, save_state, store_manifest, guard_disk.
  destruct (disk_error _); [done|].
  destruct (de_manifest fx); by eapply dir_ok_insert.
Qed.

(** C20: Whatever code is deployed and called, in any order and with any
    arguments, nothing outgrows the storage limits: in every contract each
    prefix is at most 256 bytes, each value at most 64 KiB, and each key at
    most 256 bytes except those the EGO-20 functions wrote. *)
Theorem vm_storage_limits ops :
  dir_ok (foldl vm_step (MkStateStore ∅ ∅ ∅) ops).
Proof.
  induction ops as [|op ops IH] using rev_ind.
  - intros a. apply state_ok_empty.
  - rewrite foldl_app. destruct op; [by apply deploy_keeps_dir|by apply call_keeps_dir].
Qed.

(** What a call leaves behind.  One that fails - its contract is missing,
    traps, runs out of fuel, panics - changes no contract and reports no events,
    transfers or value; one that succeeds changes the states of contracts that
    have code, and no code or manifest. *)
Theorem vm_call_effects addr caller entry a h t f s o s' :
  (forall b, disk_error b = None) ->
  executor_call disk_error addr caller entry a h t f s = (o, s') ->
  match o with
  | Done (Ok r) =>
      if r.(success) then
        r.(call_error) = None /\ s'.(st_code) = s.(st_code) /\ s'.(st_manifests) = s.(st_manifests) /\
        is_Some (s'.(st_states) !! addr) /\
        forall b, s'.(st_states) !! b <> s.(st_states) !! b -> is_Some (s.(st_code) !! b)
      else
        s' = s /\ is_Some r.(call_error) /\ r.(events) = [] /\ r.(transfers) = [] /\ r.(return_val) = []
  | _ => s' = s
  end.
Proof.
  intros Hdisk. unfold executor_call.
  destruct (call_on _ _ _ _ _ _) as [[fx|err]|] eqn:Ec; [|by intros [= <- <-]..].
  apply (call_on_effects (fun _ => True)) in Ec; [|done..]. unfold effects_ok in Ec.
  destruct (save_states _ _ s) as [err s1] eqn:Es.
  pose proof (save_states_fold _ _ _ _ _ Es) as (Hc & Hm & Hf).
  apply (save_states_all _ _ _ _ _ Hdisk) in Es as [-> Hall].
  2: { rewrite stable_sort_perm. apply NoDup_fst_map_to_list. }
  intros [= <- <-]. destruct (success (ce_result fx)).
  - destruct Ec as (He & Hdom & Hst). split_and!; try done.
    + apply elem_of_dom in Hdom as [st Hdom]. exists st. apply Hall.
      by rewrite stable_sort_perm, elem_of_map_to_list.
    + intros b Hne. destruct (Hf b) as [?|(st & Hin & _)]; [done|].
      rewrite stable_sort_perm, elem_of_map_to_list in Hin. by apply Hst in Hin as [? _].
  - destruct Ec as (Hempty & Hev & Htr & Hret & Herr). split_and!; try done.
    destruct s as [c st m], s1 as [c' st' m']. simpl in *. subst. f_equal. apply map_eq. intros b.
    destruct (Hf b) as [?|(x & Hin & _)]; [done|].
    rewrite stable_sort_perm, elem_of_map_to_list, Hempty in Hin. by rewrite lookup_empty in Hin.
Qed.

(** ** Balances of EGO-20 tokens *)

Lemma signed_as_u64 x : in_i64 x -> signed 8 (as_u64 x) = x.
Proof.
  intros Hx. unfold signed, as_u64. change (256 ^ Z.of_nat 8) with (u64_max + 1).
  change (2 ^ 64) with (u64_max + 1). change ((u64_max + 1) / 2) with (i64_max + 1).
  destruct (decide (0 <= x)).
  - rewrite Z.mod_small by machine_lia. rewrite bool_decide_true by machine_lia. done.
  - assert (x mod (u64_max + 1) = x + (u64_max + 1)) as ->.
    { symmetry. apply (Z.mod_unique _ _ (-1)); [left|]; machine_lia. }
    rewrite bool_decide_false by machine_lia. lia.
Qed.

Lemma stored_amount lo hi :
  in_i64 lo -> in_i64 hi ->
  stored_half 0 (Some (amount_bytes lo hi)) = lo /\ stored_half 1 (Some (amount_bytes lo hi)) = hi.
Proof.
  intros Hlo Hhi. unfold stored_half. rewrite length_amount_bytes, bool_decide_true by done.
  unfold amount_bytes. rewrite drop_0, take_app_length' by (by rewrite length_to_le_bytes).
  rewrite (drop_app_length' (to_le_bytes 8 (as_u64 lo))) by (by rewrite length_to_le_bytes).
  rewrite take_ge by (by rewrite length_to_le_bytes).
  rewrite !from_to_le_bytes by (apply Z.mod_pos_bound; lia).
  by rewrite !signed_as_u64.
Qed.

(** A balance written by [ego20_balance_set] is read back by its two getters,
    and no other balance or allowance changes. *)
Lemma ego20_balance_reads_back data ctx ptr len addr lo hi :
  (forall b, hex_read (hex_text b) = Some b) ->
  mem_read_str data ptr len = Some addr -> in_i64 lo -> in_i64 hi ->
  exists ctx', host (ego20_balance_set ptr len lo hi) (Some data) ctx = HRet 0 (Some data) ctx' /\
    (exists c, host (ego20_balance_get ptr len) (Some data) ctx' = HRet lo (Some data) c) /\
    (exists c, host (ego20_balance_get_hi ptr len) (Some data) ctx' = HRet hi (Some data) c) /\
    (forall other, other <> addr ->
       state_get ctx'.(h_state) EGO20_BAL other = state_get ctx.(h_state) EGO20_BAL other) /\
    (forall key, state_get ctx'.(h_state) EGO20_ALW key = state_get ctx.(h_state) EGO20_ALW key).
Proof.
  intros Hhex Hr Hlo Hhi. cbn [host].
  unfold host_ego20_balance_set, host_ego20_balance_get, host_ego20_balance_get_hi.
  cbn [mbind option_bind]. rewrite Hr. eexists. split; [done|].
  cbn [h_state charge with_state]. rewrite state_get_set, decide_True by done.
  destruct (stored_amount lo hi Hlo Hhi) as [-> ->]. split_and!; eauto.
  - intros other Hne. rewrite state_get_set, decide_False by naive_solver. done.
  - intros key. rewrite state_get_set, decide_False; [done|by intros [? _]|done].
Qed.
End Theorems.

(** ** Scheduling and parallel execution *)

(** The scheduler ends, and its groups are a partition of the calls into
    non-empty groups without conflicts inside; it is greedy: a call is left to
    a later group only if it conflicts with a call of each earlier one. *)
Theorem schedule_partitions txs sets :
  (length txs <= length sets)%nat ->
  exists groups, schedule_batch txs sets = Some groups /\
    concat groups ≡ₚ seq 0 (length txs) /\
    Forall (fun g => g <> [] /\ compatible sets g) groups /\
    forall k k' g g' i, groups !! k = Some g -> groups !! k' = Some g' -> (k < k')%nat ->
      i ∈ g' -> exists j, j ∈ g /\ clash sets j i = true.
Proof.
  intros Hn. destruct (schedule_batch_ok sets txs Hn) as (groups & E & [S1 S2 S3 S4]).
  exists groups. split_and!; [done..| |done]. rewrite Forall_forall in *. auto.
Qed.

(** The access set of a call names every contract of [C] as written. *)
Definition declares (a : AccessSet) (C : gset str) : Prop :=
  forall c, c ∈ C -> access_key c [] [] ∈ a.(writes).

Lemma declared_apart (sets : list AccessSet) (group : list nat) (Cs : nat -> gset str) :
  compatible sets group ->
  (forall i, i ∈ group -> exists a, sets !! i = Some a /\ declares a (Cs i)) ->
  forall i j, i ∈ group -> j ∈ group -> i <> j -> Cs i ## Cs j.
Proof.
  intros Hc Hd i j Hi Hj Hne c Hci Hcj. specialize (Hc i j Hi Hj Hne).
  destruct (Hd i Hi) as (a & Ha & Da), (Hd j Hj) as (b & Hb & Db). unfold clash in Hc.
  rewrite Ha, Hb in Hc. apply conflicts_false in Hc as [Hw _].
  specialize (Da c Hci). specialize (Db c Hcj). set_solver.
Qed.

(** C21: The outcome of a batch does not depend on how the threads interleave:
    when each call reads and writes only certain contracts, and its access set
    names these contracts as written, every two interleavings give the same
    results and the same contract directory. *)
Theorem batch_deterministic `{VmPrims} `{WasmRuntime} (disk_error : str -> option str)
    (order order' : Interleaving) (txs : list PendingTx) (sets : list AccessSet)
    (Cs : nat -> gset str) (s : StateStore) :
  length txs = length sets ->
  (forall i tx, txs !! i = Some tx -> confined tx (Cs i)) ->
  (forall i a, sets !! i = Some a -> declares a (Cs i)) ->
  @execute_batch _ _ disk_error order txs sets s = @execute_batch _ _ disk_error order' txs sets s.
Proof.
  intros Hlen Hconf Hdecl. unfold execute_batch.
  destruct (schedule_batch_ok sets txs) as (groups & E & [S1 _ S3 _]); [lia|].
  rewrite E. cbn [mbind option_bind].
  assert (Hnd : forall g, g ∈ groups -> NoDup g).
  { intros g Hg. apply list_elem_of_split in Hg as (l1 & l2 & ->).
    assert (Hn : NoDup (concat (l1 ++ g :: l2))) by (rewrite S1; apply NoDup_seq).
    rewrite concat_app, concat_cons in Hn. apply NoDup_app in Hn as (_ & _ & Hn).
    by apply NoDup_app in Hn as (? & _ & _). }
  assert (Hin : forall g i, g ∈ groups -> i ∈ g -> exists tx a, txs !! i = Some tx /\ sets !! i = Some a).
  { intros g i Hg Hi. assert (Hs : i ∈ concat groups) by (apply list_elem_of_In, in_concat; exists g; by rewrite <-!list_elem_of_In).
    rewrite S1, elem_of_seq in Hs.
    destruct (lookup_lt_is_Some_2 txs i) as [tx Ht]; [lia|].
    destruct (lookup_lt_is_Some_2 sets i) as [a Ha]; [lia|]. eauto. }
  assert (Hrun : forall sr g, g ∈ groups ->
            @run_group _ _ disk_error order txs sr g = @run_group _ _ disk_error order' txs sr g).
  { intros sr g Hg. unfold run_group.
    destruct (group_order_irrelevant disk_error txs g Cs) with (s0 := sr.1)
      (ms := @par_order order g) (ms' := @par_order order' g) as [E1 E2].
    - intros i Hi. destruct (Hin g i Hg Hi) as (tx & a & Ht & _). eauto.
    - apply (declared_apart sets); [by eapply Forall_forall in S3|].
      intros i Hi. destruct (Hin g i Hg Hi) as (tx & a & _ & Ha). eauto.
    - by apply par_order_valid, Hnd.
    - by apply par_order_valid, Hnd.
    - by rewrite E1, E2. }
  assert (Hfold : forall sr l, (forall g, g ∈ l -> g ∈ groups) ->
            foldl (@run_group _ _ disk_error order txs) sr l = foldl (@run_group _ _ disk_error order' txs) sr l).
  { intros sr l. revert sr. induction l as [|g l IH]; intros sr Hl; [done|]. cbn [foldl].
    rewrite Hrun by set_solver. apply IH. set_solver. }
  by rewrite Hfold.
Qed.

(** ** A runtime to evaluate examples on *)
Module VmDemo.

(** Every contract has one entry point, which takes a number: it stores the
    number under itself, or runs out of fuel when it is 0. *)
Definition demo_call (fuel_left : Z) (vs : list Val) : Guest (list Val * Z) :=
  match vs with
  | [I32 v] =>
      if bool_decide (v = 0) then Stop (Err OutOfFuel)
      else Host (storage_set 0 1 1 1 1 1) (Some [112; v]) (fun _ _ => Stop (Ok ([], fuel_left)))
  | _ => Stop (Err (Trapped []))
  end.

#[export] Instance demo_wasm : WasmRuntime := {|
  Module_ := bytes;
  Inst := Z;
  module_new code := Ok code;
  instantiate _ fuel := Stop (Ok fuel);
  get_memory _ := None;
  set_memory i _ := i;
  has_set_args _ := false;
  set_args_call i _ _ := Stop (Ok i);
  func_type _ _ := Some ([TI32], []);
  func_call i _ vs := demo_call i vs;
  get_fuel i := i;
  trap_text _ := [];
  write_error_text := [];
|}.

#[export] Instance demo_prims : VmPrims := {| hex_text b := b; hex_read s := Some s; hash3 b := b |}.

Definition alice : str := ascii_bytes "alice".
Definition bob : str := ascii_bytes "bob".
Definition demo_store : StateStore := MkStateStore (<[ alice := [1] ]> {[ bob := [2] ]}) ∅ ∅.
Definition no_error : str -> option str := fun _ => None.
Definition tx_on (addr : str) (v : Z) : PendingTx := MkPendingTx [] addr [] [] (to_le_bytes 4 v) 1 1 10.

Lemma vm_call_effects_witness :
  (executor_call no_error alice bob [] (to_le_bytes 4 7) 1 1 10 demo_store).1 =
    Done (Ok (MkCallResult true [] 0 [] None [])) /\
  is_Some ((executor_call no_error alice bob [] (to_le_bytes 4 7) 1 1 10 demo_store).2.(st_states) !! alice).
Proof.
  assert (E : (executor_call no_error alice bob [] (to_le_bytes 4 7) 1 1 10 demo_store).1 =
    Done (Ok (MkCallResult true [] 0 [] None []))) by (vm_compute; reflexivity).
  split; [exact E|].
  pose proof (vm_call_effects no_error alice bob [] (to_le_bytes 4 7) 1 1 10 demo_store _ _
                (fun b => eq_refl) (surjective_pairing _)) as Hfx.
  rewrite E in Hfx. exact (proj1 (proj2 (proj2 (proj2 Hfx)))).
Defined.

(** *** Orders of execution *)

(** One call after the other; all reads before the first write. *)
Definition one_by_one (group : list nat) : list Moment :=
  concat ((fun i => [Load i; Save i]) <$> group).
Definition reads_then_writes (group : list nat) : list Moment := (Load <$> group) ++ (Save <$> group).

Lemma one_by_one_valid group : NoDup group -> valid_order group (one_by_one group).
Proof.
  induction 1 as [|i group Hi Hn (V1 & V2 & V3)]; unfold one_by_one in *; simpl.
  { split; [constructor|]. split; set_solver. }
  split; [|split].
  - assert (Hf : forall m, m ∈ concat ((fun i => [Load i; Save i]) <$> group) -> m <> Load i /\ m <> Save i).
    { intros m Hm. specialize (V2 m Hm). destruct m; naive_solver. }
    constructor; [|constructor; [|done]].
    + intros [?|Hm]%elem_of_cons; [done|]. by apply Hf in Hm as [? _].
    + intros Hm. by apply Hf in Hm as [_ ?].
  - intros m [->|[->|Hm]%elem_of_cons]%elem_of_cons; [set_solver..|]. specialize (V2 m Hm).
    destruct m; set_solver.
  - intros j [->|Hj]%elem_of_cons; [by exists [Load i], (concat ((fun i => [Load i; Save i]) <$> group)); set_solver|].
    destruct (V3 j Hj) as (b & a & E & Hl). exists (Load i :: Save i :: b), a.
    split; [do 2 (cbn; f_equal); exact E|set_solver].
Qed.

Lemma reads_then_writes_valid group : NoDup group -> valid_order group (reads_then_writes group).
Proof.
  intros Hn. unfold reads_then_writes. split; [|split].
  - apply NoDup_app. split_and!.
    + apply NoDup_fmap; [|done]. by intros ? ? [=].
    + intros m (i & -> & _)%list_elem_of_fmap (j & ? & _)%list_elem_of_fmap. done.
    + apply NoDup_fmap; [|done]. by intros ? ? [=].
  - intros m [(i & -> & Hi)%list_elem_of_fmap|(i & -> & Hi)%list_elem_of_fmap]%elem_of_app; done.
  - intros i Hi. assert (Hs : Save i ∈ Save <$> group) by (apply list_elem_of_fmap; eauto).
    apply list_elem_of_split in Hs as (l1 & l2 & E). exists ((Load <$> group) ++ l1), l2.
    rewrite E, <-app_assoc. split; [done|]. apply elem_of_app. left. apply list_elem_of_fmap. eauto.
Qed.

Definition sequential : Interleaving := {| par_order := one_by_one; par_order_valid := one_by_one_valid |}.
Definition overlapped : Interleaving :=
  {| par_order := reads_then_writes; par_order_valid := reads_then_writes_valid |}.

(** The contracts of the example make no calls to others. *)
Lemma demo_no_cross m ctx e a f out ru ret :
  ctx.(h_pending_cross_calls) = [] ->
  run_entrypoint m ctx e a f = Done (Ok (out, ru, ret)) -> out.(h_pending_cross_calls) = [].
Proof.
  intros Hp. unfold run_entrypoint, run_or. cbn -[decode_args demo_call host]. unfold demo_call.
  destruct (decode_args _ _) as [|[v| | | |] [|]]; try done.
  case_bool_decide; [done|]. cbn [run_guest host]. unfold host_storage_set. repeat case_match; intros; simplify_eq/=; done.
Qed.

Lemma demo_confined tx : confined tx {[ tx.(contract_addr) ]}.
Proof.
  assert (Hr : forall src addr env g, pending g = [] -> rounds 7 src addr env g = Done (Ok g)).
  { intros src addr env g Hp. cbn [rounds]. by rewrite Hp, bool_decide_true. }
  assert (Hcall : forall s, call_of tx s =
    match (s.(st_code) !! tx.(contract_addr) : option bytes) with
    | None => Done (Err (StorageError (ascii_bytes "Code not found for " ++ tx.(contract_addr))))
    | Some code =>
        match run_entrypoint code (HostCtx_new tx.(contract_addr) tx.(caller_addr) tx.(tx_block_height)
                tx.(tx_timestamp) (load_state s tx.(contract_addr))) tx.(entrypoint) tx.(args) tx.(tx_fuel) with
        | Panic => Panic
        | Done (Err FuelExhausted) => Done (Ok (failed_call tx.(tx_fuel) (ascii_bytes "Fuel exhausted")))
        | Done (Err e) => Done (Ok (failed_call 0 (vm_error_text e)))
        | Done (Ok (out, ru, ret)) =>
            Done (Ok (MkCallEffects (MkCallResult true ret ru out.(h_events) None out.(h_transfers))
              {[ tx.(contract_addr) := out.(h_state) ]}))
        end
    end).
  { intros s. unfold call_of, call_on. cbn [store_source src_code src_state].
    destruct (st_code s !! contract_addr tx) as [code|]; [|done]. cbn [outcome_bind get_or_compile module_new demo_wasm].
    destruct (run_entrypoint _ _ _ _ _) as [[[[out ru] ret]|e]|] eqn:E; [|by destruct e|done].
    rewrite Hr; [done|]. cbn [pending]. by apply demo_no_cross in E. }
  split.
  - intros s s' Ha. destruct (Ha (contract_addr tx)) as [Hc Hs]; [set_solver|].
    rewrite (Hcall s), (Hcall s'). unfold load_state.
    rewrite Hc, Hs. done.
  - intros s fx. rewrite Hcall. repeat case_match; intros [= <-]; simpl; set_solver.
Qed.

Definition whole (addr : str) : AccessSet := add_write addr [] [] AccessSet_new.

Lemma batch_deterministic_witness :
  @execute_batch _ _ no_error sequential [tx_on alice 7; tx_on bob 8] [whole alice; whole bob] demo_store =
  @execute_batch _ _ no_error overlapped [tx_on alice 7; tx_on bob 8] [whole alice; whole bob] demo_store.
Proof.
  refine (batch_deterministic no_error sequential overlapped _ _
            (fun i => match [alice; bob] !! i with Some a => {[ a ]} | None => ∅ end) _ _ _ _).
  - reflexivity.
  - intros [|[|i]] tx Ht; [injection Ht as <-|injection Ht as <-|destruct i; discriminate].
    + exact (demo_confined (tx_on alice 7)).
    + exact (demo_confined (tx_on bob 8)).
  - intros [|[|i]] a Ha; [injection Ha as <-|injection Ha as <-|destruct i; discriminate];
      intros c Hc; set_solver.
Defined.

(** Calls on different keys of one contract, as their access sets name them. *)
Definition key_of (addr : str) (v : Z) : AccessSet := add_write addr [112] [v] AccessSet_new.
Definition same_contract : list PendingTx := [tx_on alice 7; tx_on alice 8].
Definition by_key : list AccessSet := [key_of alice 7; key_of alice 8].

Lemma schedule_partitions_witness :
  (length same_contract <= length by_key)%nat /\
  exists groups, schedule_batch same_contract by_key = Some groups /\ concat groups ≡ₚ [0%nat; 1%nat].
Proof.
  assert (Hn : (length same_contract <= length by_key)%nat) by (vm_compute; lia).
  split; [exact Hn|]. destruct (schedule_partitions same_contract by_key Hn) as (groups & E & Hp & _).
  exists groups. split; assumption.
Defined.

(** *** What the access sets do not protect from *)

(** The calls do not conflict and form one group; but a call loads and saves
    the whole state of its contract, so when the two overlap the value one of
    them wrote is lost. *)
Lemma overlapping_calls_lose_a_write :
  schedule_batch same_contract by_key = Some [[0; 1]]%nat /\
  (let s := snd <$> @execute_batch _ _ no_error sequential same_contract by_key demo_store in
   (s ← s; Some (state_get (load_state s alice) [112] [7], state_get (load_state s alice) [112] [8]))
   = Some (Some [7], Some [8])) /\
  (let s := snd <$> @execute_batch _ _ no_error overlapped same_contract by_key demo_store in
   (s ← s; Some (state_get (load_state s alice) [112] [7], state_get (load_state s alice) [112] [8]))
   = Some (None, Some [8])).
Proof. split_and!; vm_compute; reflexivity. Qed.

(** The scheduler can turn the order of conflicting calls around: call 1 comes
    before call 2 and conflicts with it, but runs in a later group. *)
Lemma conflicting_calls_reordered :
  schedule_batch [tx_on alice 1; tx_on alice 2; tx_on bob 3]
    [whole alice; add_write bob [] [] (whole alice); whole bob] = Some [[0; 2]; [1]]%nat.
Proof. vm_compute. reflexivity. Qed.

(** The units of host functions are added up in the context and never charged:
    the call stores a value and uses nothing. *)
Lemma storage_set_is_free :
  exists cr, (executor_call no_error alice bob [] (to_le_bytes 4 7) 1 1 10 demo_store).1 = Done (Ok cr) /\
    cr.(success) = true /\ cr.(ru_used) = 0.
Proof. eexists. split; [vm_compute; reflexivity|]. split; reflexivity. Qed.

(** [ego20_balance_set] takes keys longer than the limit of [storage_set]. *)
Lemma ego20_key_over_limit :
  let mem := Some (replicate 300 97) in
  let ctx := HostCtx_new alice bob 1 1 ∅ in
  match host (ego20_balance_set 0 300 5 0) mem ctx, host (storage_set 0 1 0 300 0 1) mem ctx with
  | HRet _ _ c1, HRet _ _ c2 =>
      is_Some (state_get c1.(h_state) EGO20_BAL (replicate 300 97)) /\ c2.(h_state) = ∅
  | _, _ => False
  end.
Proof. vm_compute. split; [eexists; reflexivity|reflexivity]. Qed.

(** Asking for the caller without an exported memory panics instead of failing. *)
Lemma no_memory_panics ctx out_ptr : host (sys_caller out_ptr) None ctx = HPanic.
Proof. reflexivity. Qed.

(** A write to disk that fails leaves the states saved before it. *)
Lemma failed_save_keeps_earlier s st st' :
  alice <> bob ->
  let e a := if decide (a = bob) then Some (ascii_bytes "disk full") else None in
  save_states e [(alice, st); (bob, st')] s =
  (Some (StorageError (ascii_bytes "disk full")),
   MkStateStore s.(st_code) (<[ alice := st ]> s.(st_states)) s.(st_manifests)).
Proof. reflexivity. Qed.
End VmDemo.
