(* ===== verification/MarketData.v ===== *)
(** * The market: data

    Model of [ego-desktop/src-tauri/src/market_chain.rs]: its constants, the
    bodies of its transactions, the records it keeps, and the keys they are kept
    under. *)
From stdpp Require Import pretty.
From Stdlib Require Import Ascii.
From S2P Require Import Prelude Crypto Ledger RuleText Balances.
Local Open Scope string_scope.
Local Open Scope list_scope.
Local Open Scope Z_scope.
Local Open Scope ego_scope.

(** ** Constants *)

Definition MARKET_CHAIN_ID : Z := 1.

Definition TX_OFFER : string := "market_offer".
Definition TX_OFFER_CLOSE : string := "market_offer_close".
Definition TX_TRADE_OPEN : string := "market_trade_open".
Definition TX_LOCK : string := "market_lock".
Definition TX_TRADE_CANCEL : string := "market_trade_cancel".
Definition TX_PAID : string := "market_paid".
Definition TX_DISPUTE : string := "market_dispute".
Definition TX_FEEDBACK : string := "market_feedback".
Definition TX_ARBITER : string := "market_arbiter".

Definition SIGNED_OPS : list string :=
  [TX_OFFER; TX_OFFER_CLOSE; TX_TRADE_OPEN; TX_LOCK; TX_TRADE_CANCEL; TX_PAID; TX_DISPUTE; TX_FEEDBACK; TX_ARBITER].

Definition MAKER_FEE_BPS : Z := 100.
Definition MIN_TRADE_UEGOC : Z := 1000000.
Definition MAX_TRADE_UEGOC : Z := 10000000000000.
Definition MAX_OPEN_OFFERS_PER_MAKER : nat := 20.
Definition MAX_PENDING_TRADES_PER_TAKER : nat := 5.
Definition MAX_METHODS : nat := 8.
Definition MAX_METHOD_LEN : nat := 32.
Definition MAX_TERMS_BYTES : nat := 1000.
Definition MAX_NOTE_BYTES : nat := 280.
Definition MAX_BODY_BYTES : nat := 4096.
Definition MIN_PAYMENT_WINDOW_SECS : Z := 15 * 60.
Definition MAX_PAYMENT_WINDOW_SECS : Z := 24 * 60 * 60.
Definition ACCEPT_WINDOW_SECS : Z := 30 * 60.
Definition BUYER_DISPUTE_DELAY_SECS : Z := 60 * 60.
Definition OFFER_TTL_SECS : Z := 30 * 24 * 60 * 60.
Definition FEEDBACK_WINDOW_SECS : Z := 30 * 24 * 60 * 60.
Definition MAX_MARGIN_BPS : Z := 5000.
Definition MAX_PRICE_MICRO : Z := 1000000000000.
Definition MAX_TRADE_MICRO : Z := 1000000000000000.
Definition EGOC : string := "EGOC".
Definition CHAIN_TIME_WINDOW : Z := 11.
Definition OWNER_SCAN_LIMIT : nat := 512.
Definition PENDING_SCAN_LIMIT : nat := 64.
Definition CARDANO_MIN_FEE_MICRO : Z := 1000000.

(** ** Assets *)

Inductive Family : Type := Ego | Evm | Tron | Solana | Cardano.
#[export] Instance Family_eq_dec : EqDecision Family.
Proof. solve_decision. Defined.

Definition family_str (f : Family) : string :=
  match f with
  | Ego => "ego" | Evm => "evm" | Tron => "tron" | Solana => "solana" | Cardano => "cardano"
  end.

Record AssetInfo : Type := MkAsset {
  a_id : string;
  a_symbol : string;
  a_network : string;
  a_family : Family;
  a_min_micro : Z;
}.

Definition ASSETS : list AssetInfo :=
  [MkAsset "EGOC" "EGOC" "ego" Ego MIN_TRADE_UEGOC;
   MkAsset "USDT-TRC20" "USDT" "tron" Tron 1;
   MkAsset "TRX" "TRX" "tron" Tron 1;
   MkAsset "USDT-ERC20" "USDT" "ethereum" Evm 1;
   MkAsset "USDC-ERC20" "USDC" "ethereum" Evm 1;
   MkAsset "ETH" "ETH" "ethereum" Evm 1;
   MkAsset "USDT-BEP20" "USDT" "bsc" Evm 1;
   MkAsset "USDC-BEP20" "USDC" "bsc" Evm 1;
   MkAsset "BNB" "BNB" "bsc" Evm 1;
   MkAsset "USDT-POLYGON" "USDT" "polygon" Evm 1;
   MkAsset "USDC-POLYGON" "USDC" "polygon" Evm 1;
   MkAsset "POL" "POL" "polygon" Evm 1;
   MkAsset "USDC-SPL" "USDC" "solana" Solana 1;
   MkAsset "USDT-SPL" "USDT" "solana" Solana 1;
   MkAsset "SOL" "SOL" "solana" Solana 10000;
   MkAsset "ADA" "ADA" "cardano" Cardano 10000000].

Definition asset_info (id : string) : option AssetInfo := List.find (fun a => bool_decide (a.(a_id) = id)) ASSETS.

Definition is_egoc (asset : string) : bool := bool_decide (asset = EGOC).

Definition trade_limits (asset : string) : Z * Z :=
  if is_egoc asset then (MIN_TRADE_UEGOC, MAX_TRADE_UEGOC)
  else (default 1 (a_min_micro <$> asset_info asset), MAX_TRADE_MICRO).

(** [(amount as u128 * MAKER_FEE_BPS as u128).div_ceil(10_000) as u64]. *)
Definition maker_fee (amount_micro : Z) : Z := (amount_micro * MAKER_FEE_BPS + 9999) / 10000 mod (u64_max + 1).

Definition trade_fee (asset : string) (amount_micro : Z) : Z :=
  let fee := maker_fee amount_micro in
  let cardano := from_option (fun a => bool_decide (a.(a_family) = Cardano)) false (asset_info asset) in
  if cardano && bool_decide (fee < CARDANO_MIN_FEE_MICRO) then 0 else fee.

Definition fiat_for (amount_micro price_micro : Z) : option Z :=
  let v := (amount_micro * price_micro + 500000) / 1000000 in
  if bool_decide (v <= u64_max) then Some v else None.

(** ** Enumerations *)

Inductive Side : Type := Sell | Buy.
#[export] Instance Side_eq_dec : EqDecision Side.
Proof. solve_decision. Defined.
Definition side_str (s : Side) : string := match s with Sell => "sell" | Buy => "buy" end.

Inductive Price : Type := Fixed (p : Z) | MarginBps (m : Z).

Inductive Role : Type := Buyer | Seller | Arbiter.
#[export] Instance Role_eq_dec : EqDecision Role.
Proof. solve_decision. Defined.
Definition role_str (r : Role) : string :=
  match r with Buyer => "buyer" | Seller => "seller" | Arbiter => "arbiter" end.

Inductive Outcome : Type := Release | Refund.
#[export] Instance Outcome_eq_dec : EqDecision Outcome.
Proof. solve_decision. Defined.
Definition outcome_str (o : Outcome) : string := match o with Release => "release" | Refund => "refund" end.
Definition past (o : Outcome) : string := match o with Release => "released" | Refund => "refunded" end.

Inductive Rating : Type := Positive | Neutral | Negative.

Inductive TradeState : Type := AwaitingLock | Locked | Paid | Disputed | Cancelled | Released | Refunded.
#[export] Instance TradeState_eq_dec : EqDecision TradeState.
Proof. solve_decision. Defined.

(** ** Bodies of transactions *)

Record OfferBody : Type := MkOfferBody {
  ob_side : Side;
  ob_asset : string;
  ob_fiat : string;
  ob_price : Price;
  ob_min_micro : Z;
  ob_max_micro : Z;
  ob_methods : list string;
  ob_country : option string;
  ob_terms : string;
  ob_payment_window_secs : Z;
  ob_payout_address : option string;
}.

Record OfferRef : Type := MkOfferRef { or_offer_id : string }.

Record TradeOpenBody : Type := MkTradeOpenBody {
  to_offer_id : string;
  to_amount_micro : Z;
  to_price_micro : Z;
  to_fiat_micro : Z;
  to_method : string;
  to_payout_address : option string;
}.

Record TradeRef : Type := MkTradeRef { tr_trade_id : string }.

Record EscrowRef : Type := MkEscrowRef { contract : string; funder : string; er_tx : string }.

Record LockBody : Type := MkLockBody { lk_trade_id : string; lk_escrow : option EscrowRef }.

Record ArbiterBody : Type := MkArbiterBody {
  ab_evm : option string;
  ab_tron : option string;
  ab_sol : option string;
  ab_ada : option string;
}.

Record DisputeBody : Type := MkDisputeBody { db_trade_id : string; db_reason : string }.

Record FeedbackBody : Type := MkFeedbackBody { fb_trade_id : string; fb_rating : Rating; fb_comment : string }.

Record SettleBody : Type := MkSettleBody {
  sb_trade_id : string;
  sb_outcome : Outcome;
  sb_by : Role;
  sb_pubkey : string;
  sb_signature : string;
  sb_native_sig : option string;
}.

(** ** Records *)

Record ArbiterAddresses : Type := MkArbiterAddresses {
  aa_evm : option string;
  aa_tron : option string;
  aa_sol : option string;
  aa_ada : option string;
  aa_height : Z;
}.

Definition for_family (a : ArbiterAddresses) (f : Family) : option string :=
  match f with
  | Evm => a.(aa_evm)
  | Tron => a.(aa_tron)
  | Solana => a.(aa_sol)
  | Cardano => a.(aa_ada)
  | Ego => None
  end.

Record Offer : Type := MkOffer {
  o_id : string;
  o_maker : string;
  o_side : Side;
  o_asset : string;
  o_fiat : string;
  o_price : Price;
  o_min_micro : Z;
  o_max_micro : Z;
  o_methods : list string;
  o_country : option string;
  o_terms : string;
  o_payment_window_secs : Z;
  o_created_height : Z;
  o_created_at : Z;
  o_expires_at : Z;
  o_closed_height : option Z;
  o_maker_key : string;
  o_payout_address : option string;
}.

Definition is_open (o : Offer) (now : Z) : bool :=
  bool_decide (o.(o_closed_height) = None) && bool_decide (now < o.(o_expires_at)).

Definition close_offer (o : Offer) (height : Z) : Offer :=
  MkOffer o.(o_id) o.(o_maker) o.(o_side) o.(o_asset) o.(o_fiat) o.(o_price) o.(o_min_micro) o.(o_max_micro)
    o.(o_methods) o.(o_country) o.(o_terms) o.(o_payment_window_secs) o.(o_created_height) o.(o_created_at)
    o.(o_expires_at) (Some height) o.(o_maker_key) o.(o_payout_address).

Record Trade : Type := MkTrade {
  t_id : string;
  t_offer_id : string;
  t_maker : string;
  t_taker : string;
  t_seller : string;
  t_buyer : string;
  t_seller_key : string;
  t_buyer_key : string;
  t_asset : string;
  t_amount_micro : Z;
  t_maker_fee_micro : Z;
  t_locked_micro : Z;
  t_fiat : string;
  t_fiat_micro : Z;
  t_price_micro : Z;
  t_method : string;
  t_payment_window_secs : Z;
  t_state : TradeState;
  t_opened_height : Z;
  t_opened_at : Z;
  t_locked_at : option Z;
  t_paid_at : option Z;
  t_disputed_at : option Z;
  t_disputed_by : option Role;
  t_dispute_reason : string;
  t_arbiter : option string;
  t_closed_at : option Z;
  t_closed_height : option Z;
  t_closed_by : option Role;
  t_settle_tx : option string;
  t_buyer_payout : option string;
  t_arbiter_payout : option string;
  t_escrow : option EscrowRef;
  t_native_sig : option string;
}.

(** What the operations change of a trade. *)

(** [trade.arbiter = ...; trade.arbiter_payout = ...]. *)
Definition with_arbiter (t : Trade) (arbiter payout : option string) : Trade :=
  MkTrade t.(t_id) t.(t_offer_id) t.(t_maker) t.(t_taker) t.(t_seller) t.(t_buyer) t.(t_seller_key) t.(t_buyer_key)
    t.(t_asset) t.(t_amount_micro) t.(t_maker_fee_micro) t.(t_locked_micro) t.(t_fiat) t.(t_fiat_micro)
    t.(t_price_micro) t.(t_method) t.(t_payment_window_secs) t.(t_state) t.(t_opened_height) t.(t_opened_at)
    t.(t_locked_at) t.(t_paid_at) t.(t_disputed_at) t.(t_disputed_by) t.(t_dispute_reason) arbiter t.(t_closed_at)
    t.(t_closed_height) t.(t_closed_by) t.(t_settle_tx) t.(t_buyer_payout) payout t.(t_escrow) t.(t_native_sig).

(** Funded by the seller; [escrow] is new for an outside asset. *)
Definition lock_trade (t : Trade) (now : Z) (escrow : option EscrowRef) : Trade :=
  MkTrade t.(t_id) t.(t_offer_id) t.(t_maker) t.(t_taker) t.(t_seller) t.(t_buyer) t.(t_seller_key) t.(t_buyer_key)
    t.(t_asset) t.(t_amount_micro) t.(t_maker_fee_micro) t.(t_locked_micro) t.(t_fiat) t.(t_fiat_micro)
    t.(t_price_micro) t.(t_method) t.(t_payment_window_secs) Locked t.(t_opened_height) t.(t_opened_at) (Some now)
    t.(t_paid_at) t.(t_disputed_at) t.(t_disputed_by) t.(t_dispute_reason) t.(t_arbiter) t.(t_closed_at)
    t.(t_closed_height) t.(t_closed_by) t.(t_settle_tx) t.(t_buyer_payout) t.(t_arbiter_payout) escrow
    t.(t_native_sig).

(** Cancelled before it was funded. *)
Definition cancel_trade (t : Trade) (now height : Z) (role : Role) : Trade :=
  MkTrade t.(t_id) t.(t_offer_id) t.(t_maker) t.(t_taker) t.(t_seller) t.(t_buyer) t.(t_seller_key) t.(t_buyer_key)
    t.(t_asset) t.(t_amount_micro) t.(t_maker_fee_micro) t.(t_locked_micro) t.(t_fiat) t.(t_fiat_micro)
    t.(t_price_micro) t.(t_method) t.(t_payment_window_secs) Cancelled t.(t_opened_height) t.(t_opened_at)
    t.(t_locked_at) t.(t_paid_at) t.(t_disputed_at) t.(t_disputed_by) t.(t_dispute_reason) t.(t_arbiter) (Some now)
    (Some height) (Some role) t.(t_settle_tx) t.(t_buyer_payout) t.(t_arbiter_payout) t.(t_escrow) t.(t_native_sig).

(** Marked paid by the buyer. *)
Definition pay_trade (t : Trade) (now : Z) : Trade :=
  MkTrade t.(t_id) t.(t_offer_id) t.(t_maker) t.(t_taker) t.(t_seller) t.(t_buyer) t.(t_seller_key) t.(t_buyer_key)
    t.(t_asset) t.(t_amount_micro) t.(t_maker_fee_micro) t.(t_locked_micro) t.(t_fiat) t.(t_fiat_micro)
    t.(t_price_micro) t.(t_method) t.(t_payment_window_secs) Paid t.(t_opened_height) t.(t_opened_at)
    t.(t_locked_at) (Some now) t.(t_disputed_at) t.(t_disputed_by) t.(t_dispute_reason) t.(t_arbiter)
    t.(t_closed_at) t.(t_closed_height) t.(t_closed_by) t.(t_settle_tx) t.(t_buyer_payout) t.(t_arbiter_payout)
    t.(t_escrow) t.(t_native_sig).

(** Disputed, before an arbiter. *)
Definition dispute_trade (t : Trade) (now : Z) (role : Role) (reason arbiter : string) : Trade :=
  MkTrade t.(t_id) t.(t_offer_id) t.(t_maker) t.(t_taker) t.(t_seller) t.(t_buyer) t.(t_seller_key) t.(t_buyer_key)
    t.(t_asset) t.(t_amount_micro) t.(t_maker_fee_micro) t.(t_locked_micro) t.(t_fiat) t.(t_fiat_micro)
    t.(t_price_micro) t.(t_method) t.(t_payment_window_secs) Disputed t.(t_opened_height) t.(t_opened_at)
    t.(t_locked_at) t.(t_paid_at) (Some now) (Some role) reason (Some arbiter) t.(t_closed_at) t.(t_closed_height)
    t.(t_closed_by) t.(t_settle_tx) t.(t_buyer_payout) t.(t_arbiter_payout) t.(t_escrow) t.(t_native_sig).

(** Released or refunded. *)
Definition settle_trade (t : Trade) (outcome : Outcome) (now height : Z) (by_ : Role) (tx : string) (native : option string) : Trade :=
  MkTrade t.(t_id) t.(t_offer_id) t.(t_maker) t.(t_taker) t.(t_seller) t.(t_buyer) t.(t_seller_key) t.(t_buyer_key)
    t.(t_asset) t.(t_amount_micro) t.(t_maker_fee_micro) t.(t_locked_micro) t.(t_fiat) t.(t_fiat_micro)
    t.(t_price_micro) t.(t_method) t.(t_payment_window_secs)
    (match outcome with Release => Released | Refund => Refunded end) t.(t_opened_height) t.(t_opened_at)
    t.(t_locked_at) t.(t_paid_at) t.(t_disputed_at) t.(t_disputed_by) t.(t_dispute_reason) t.(t_arbiter) (Some now)
    (Some height) (Some by_) (Some tx) t.(t_buyer_payout) t.(t_arbiter_payout) t.(t_escrow) native.

Definition t_is_egoc (t : Trade) : bool := is_egoc t.(t_asset).

Definition settle_amount (t : Trade) : Z := if t_is_egoc t then t.(t_locked_micro) else 0.

Definition payout_to (t : Trade) (o : Outcome) : string :=
  match o with Release => t.(t_buyer) | Refund => t.(t_seller) end.

Definition payout_fee (t : Trade) (o : Outcome) : Z :=
  match o with Release => t.(t_maker_fee_micro) | Refund => 0 end.

Definition settle_fee (t : Trade) (o : Outcome) : Z := if t_is_egoc t then payout_fee t o else 0.

Definition role_of (t : Trade) (addr : string) : option Role :=
  if bool_decide (addr = t.(t_buyer)) then Some Buyer
  else if bool_decide (addr = t.(t_seller)) then Some Seller
  else None.

Definition counterparty (t : Trade) (r : Role) : string :=
  match r with Buyer => t.(t_seller) | _ => t.(t_buyer) end.

Definition lock_expires_at (t : Trade) : Z := isat_add t.(t_opened_at) ACCEPT_WINDOW_SECS.

Definition payment_due_at (t : Trade) : option Z :=
  (fun a => isat_add a t.(t_payment_window_secs)) <$> t.(t_locked_at).

Definition buyer_may_dispute_at (t : Trade) : option Z :=
  (fun a => isat_add a BUYER_DISPUTE_DELAY_SECS) <$> t.(t_paid_at).

Definition is_lock_expired (t : Trade) (now : Z) : bool :=
  bool_decide (t.(t_state) = AwaitingLock) && bool_decide (lock_expires_at t <= now).

Definition status (t : Trade) (now : Z) : string :=
  match t.(t_state) with
  | AwaitingLock => if is_lock_expired t now then "expired" else "awaiting_lock"
  | Locked =>
      if from_option (fun d => bool_decide (d <= now)) false (payment_due_at t) then "payment_overdue" else "locked"
  | Paid => "paid"
  | Disputed => "disputed"
  | Cancelled => "cancelled"
  | Released => "released"
  | Refunded => "refunded"
  end.

Record Feedback : Type := MkFeedback {
  f_trade_id : string;
  f_from : string;
  f_about : string;
  f_rating : Rating;
  f_comment : string;
  f_height : Z;
  f_at : Z;
}.

Record Profile : Type := MkProfile {
  completed : Z;
  as_buyer : Z;
  as_seller : Z;
  volume_uegoc : Z;
  partners : Z;
  cancelled : Z;
  timed_out : Z;
  disputes_opened : Z;
  disputes_won : Z;
  disputes_lost : Z;
  positive : Z;
  neutral : Z;
  negative : Z;
  first_trade_at : option Z;
  last_trade_at : option Z;
}.
#[export] Instance Profile_eq_dec : EqDecision Profile.
Proof. solve_decision. Defined.

Definition profile_default : Profile := MkProfile 0 0 0 0 0 0 0 0 0 0 0 0 0 None None.

(** [match (a, b) { (Some(a), Some(b)) => Some(f(a, b)), (a, b) => a.or(b) }]. *)
Definition merge_times (f : Z -> Z -> Z) (a b : option Z) : option Z :=
  match a, b with
  | Some a, Some b => Some (f a b)
  | Some a, None => Some a
  | None, b => b
  end.

Definition absorb (p d : Profile) : Profile :=
  MkProfile (sat_add u64_max p.(completed) d.(completed)) (sat_add u64_max p.(as_buyer) d.(as_buyer))
    (sat_add u64_max p.(as_seller) d.(as_seller)) (sat_add u64_max p.(volume_uegoc) d.(volume_uegoc))
    (sat_add u64_max p.(partners) d.(partners)) (sat_add u64_max p.(cancelled) d.(cancelled))
    (sat_add u64_max p.(timed_out) d.(timed_out)) (sat_add u64_max p.(disputes_opened) d.(disputes_opened))
    (sat_add u64_max p.(disputes_won) d.(disputes_won)) (sat_add u64_max p.(disputes_lost) d.(disputes_lost))
    (sat_add u64_max p.(positive) d.(positive)) (sat_add u64_max p.(neutral) d.(neutral))
    (sat_add u64_max p.(negative) d.(negative))
    (merge_times Z.min p.(first_trade_at) d.(first_trade_at)) (merge_times Z.max p.(last_trade_at) d.(last_trade_at)).

Definition traded (volume at_ : Z) (as_buyer : bool) : Profile :=
  MkProfile 1 (Z.b2z as_buyer) (Z.b2z (negb as_buyer)) volume 0 0 0 0 0 0 0 0 0 (Some at_) (Some at_).

(** [Profile { field: 1, ..Profile::default() }]. *)
Definition one_partner : Profile := MkProfile 0 0 0 0 1 0 0 0 0 0 0 0 0 None None.
Definition one_cancelled : Profile := MkProfile 0 0 0 0 0 1 0 0 0 0 0 0 0 None None.
Definition one_timed_out : Profile := MkProfile 0 0 0 0 0 0 1 0 0 0 0 0 0 None None.
Definition one_dispute_opened : Profile := MkProfile 0 0 0 0 0 0 0 1 0 0 0 0 0 None None.
Definition one_dispute_won : Profile := MkProfile 0 0 0 0 0 0 0 0 1 0 0 0 0 None None.
Definition one_dispute_lost : Profile := MkProfile 0 0 0 0 0 0 0 0 0 1 0 0 0 None None.
Definition one_rating (r : Rating) : Profile :=
  match r with
  | Positive => MkProfile 0 0 0 0 0 0 0 0 0 0 1 0 0 None None
  | Neutral => MkProfile 0 0 0 0 0 0 0 0 0 0 0 1 0 None None
  | Negative => MkProfile 0 0 0 0 0 0 0 0 0 0 0 0 1 None None
  end.

Record EscrowTotals : Type := MkEscrowTotals { held_uegoc : Z; active_trades : Z }.
Definition totals_default : EscrowTotals := MkEscrowTotals 0 0.

Inductive Refusal : Type :=
| Invalid (reason : string)
| Unknown (reason : string)
| Conflict (reason : string).

Definition reason (r : Refusal) : string :=
  match r with Invalid s => s | Unknown s => s | Conflict s => s end.

Definition is_transient (r : Refusal) : bool := match r with Invalid _ => false | _ => true end.

Definition invalid {T} (msg : string) : result T Refusal := Err (Invalid msg).

(** ** Keys *)

Definition OFFER_PREFIX : string := "market:o:".
Definition TRADE_PREFIX : string := "market:t:".
Definition PROFILE_PREFIX : string := "market:p:".
Definition FEEDBACK_PREFIX : string := "market:fb:".
Definition PAIR_PREFIX : string := "market:pair:".
Definition BOOK_PREFIX : string := "market:ob:".
Definition MAKER_OFFERS_PREFIX : string := "market:mo:".
Definition USER_TRADES_PREFIX : string := "market:ut:".
Definition ARBITER_CASES_PREFIX : string := "market:arb:".
Definition ARBITER_ADDR_PREFIX : string := "market:arbaddr:".
Definition LEADERBOARD_PREFIX : bytes := ascii_bytes "market:lb:".
Definition UNDO_PREFIX : bytes := ascii_bytes "market:undo:".
Definition ESCROW_KEY : bytes := ascii_bytes "market:escrow".

(** [to_be_bytes]. *)
Definition be8 (v : Z) : bytes := reverse (u64_le v).

Definition offer_key (id : string) : bytes := ascii_bytes (OFFER_PREFIX +:+ id).
Definition trade_key (id : string) : bytes := ascii_bytes (TRADE_PREFIX +:+ id).
Definition profile_key (addr : string) : bytes := ascii_bytes (PROFILE_PREFIX +:+ addr).
Definition feedback_key (trade_id : string) (r : Role) : bytes :=
  ascii_bytes (FEEDBACK_PREFIX +:+ trade_id +:+ ":" +:+ role_str r).
Definition pair_key (a b : string) : bytes :=
  let '(x, y) := if String.leb a b then (a, b) else (b, a) in ascii_bytes (PAIR_PREFIX +:+ x +:+ ":" +:+ y).
Definition book_prefix (asset fiat : string) (side : Side) : bytes :=
  ascii_bytes (BOOK_PREFIX +:+ asset +:+ ":" +:+ fiat +:+ ":" +:+ side_str side +:+ ":").
Definition book_key (asset fiat : string) (side : Side) (height : Z) (id : string) : bytes :=
  book_prefix asset fiat side ++ be8 height ++ ascii_bytes id.
Definition maker_offers_prefix (maker : string) : bytes := ascii_bytes (MAKER_OFFERS_PREFIX +:+ maker +:+ ":").
Definition maker_offer_key (maker id : string) : bytes := maker_offers_prefix maker ++ ascii_bytes id.
Definition user_trades_prefix (addr : string) : bytes := ascii_bytes (USER_TRADES_PREFIX +:+ addr +:+ ":").
Definition user_trade_key (addr : string) (height : Z) (id : string) : bytes :=
  user_trades_prefix addr ++ be8 height ++ ascii_bytes id.
Definition arbiter_addr_key (arbiter : string) : bytes := ascii_bytes (ARBITER_ADDR_PREFIX +:+ arbiter).
Definition arbiter_cases_prefix (arbiter : string) : bytes := ascii_bytes (ARBITER_CASES_PREFIX +:+ arbiter +:+ ":").
Definition arbiter_case_key (arbiter : string) (height : Z) (id : string) : bytes :=
  arbiter_cases_prefix arbiter ++ be8 height ++ ascii_bytes id.
Definition leaderboard_key (completed : Z) (addr : string) : bytes :=
  LEADERBOARD_PREFIX ++ be8 completed ++ ascii_bytes addr.
Definition market_undo_key (height : Z) : bytes := UNDO_PREFIX ++ be8 height.

Definition prefix_ceiling (prefix : bytes) : bytes := prefix ++ replicate 64 0xFF.
