(* ===== verification/MarketChecks.v ===== *)
(** * The market: checks without state

    Model of the checks of [market_chain.rs] that look at a transaction alone:
    texts and ids, addresses and transactions of outside chains with the parts of
    [escrow/solana.rs] and [escrow/cardano.rs] they use, the signature of a
    settlement, and the shape of offers, operations and settlements. *)
From stdpp Require Import pretty.
From Stdlib Require Import Ascii.
From S2P Require Import Prelude Crypto Ledger RuleText Balances MarketData.
Local Open Scope string_scope.
Local Open Scope list_scope.
Local Open Scope Z_scope.
Local Open Scope ego_scope.

(** What the market uses of [bs58], [bech32], [sha2], [blake2], [curve25519_dalek]
    and [ed25519_dalek] beyond [ChainPrims]. *)
Class MarketPrims : Type := {
  bs58_decode : string -> option bytes;
  (* [bech32::decode], then [convert_bits] to bytes: the human-readable part and the data *)
  bech32_bytes : string -> option (string * bytes);
  sha256 : bytes -> bytes;
  blake2b_224 : bytes -> bytes;
  on_curve : bytes -> bool;
  (* [VerifyingKey::from_bytes] accepts the key *)
  ed25519_key_ok : bytes -> bool;
  (* [verify_strict] under a key that was accepted *)
  verify_strict : bytes -> bytes -> bytes -> bool;
}.

(** ** Text *)

Definition is_upper (b : Z) : bool := (65 <=? b) && (b <=? 90).
Definition is_alphanumeric (b : Z) : bool := is_digit b || is_lower b || is_upper b.

(** The first [n] characters, as [{:.n}] prints them. *)
Definition shown (n : nat) (s : string) : string := String.substring 0 n s.

(** [trim_start_matches]. *)
Fixpoint trim_0x (s : string) : string :=
  match s with
  | String "0"%char (String "x"%char s') => trim_0x s'
  | _ => s
  end.

Definition valid_id (id : string) : bool :=
  bool_decide (String.length id = 66%nat) && starts_with id "0x" &&
  all_bytes (fun b => is_digit b || ((97 <=? b) && (b <=? 102))) (String.substring 2 64 id).

Definition valid_fiat (f : string) : bool := bool_decide (String.length f = 3%nat) && all_bytes is_upper f.
Definition valid_country (c : string) : bool := bool_decide (String.length c = 2%nat) && all_bytes is_upper c.

Definition valid_method (m : string) : bool :=
  bool_decide (m <> "") && bool_decide (String.length m <= MAX_METHOD_LEN)%nat &&
  all_bytes (fun b => is_lower b || is_digit b || (b =? 95) || (b =? 45)) m.

(** A control character other than a line feed: one byte of ASCII, or U+0080 to
    U+009F, two bytes of UTF-8. *)
Fixpoint has_control (b : bytes) : bool :=
  match b with
  | [] => false
  | x :: rest =>
      ((x <? 32) && negb (x =? 10)) || (x =? 127) ||
      ((x =? 0xC2) && match rest with y :: _ => (0x80 <=? y) && (y <=? 0x9F) | [] => false end) || has_control rest
  end.

Definition valid_text (s : string) (max : nat) : bool :=
  bool_decide (String.length s <= max)%nat && negb (has_control (ascii_bytes s)).

(** [try_into] of a decoded [Vec<u8>] to an array of [n] bytes. *)
Definition to_array (n : nat) (b : bytes) : option bytes := if bool_decide (length b = n) then Some b else None.

(** ** Outside chains *)

Module Sol.
Section Sol.
Context `{ChainPrims} `{MarketPrims}.

Definition ESCROW_SEED : bytes := ascii_bytes "escrow".
Definition AUTH_DOMAIN : bytes := ascii_bytes "ego-escrow/solana/v1".
Definition ACTION_CANCEL : Z := 2.

Definition parse_key (s : string) : result bytes string :=
  ok_or (bs58_decode (trim s) ≫= to_array 32) (shown 48 s +:+ " is not a Solana address").

Definition create_program_address (seeds : list bytes) (program : bytes) : option bytes :=
  let out := sha256 (concat seeds ++ program ++ ascii_bytes "ProgramDerivedAddress") in
  if on_curve out then None else Some out.

(** [for bump in (0..=255u8).rev()]. *)
Fixpoint find_bump (seeds : list bytes) (program : bytes) (bumps : list Z) : bytes * Z :=
  match bumps with
  | [] => (replicate 32 0, 0)
  | bump :: bumps =>
      match create_program_address (seeds ++ [[bump]]) program with
      | Some k => (k, bump)
      | None => find_bump seeds program bumps
      end
  end.
Definition find_program_address (seeds : list bytes) (program : bytes) : bytes * Z :=
  find_bump seeds program (reverse (seqZ 0 256)).

Definition escrow_address (program trade_id seller : bytes) : bytes * Z :=
  find_program_address [ESCROW_SEED; trade_id; seller] program.

Definition auth_message (program escrow : bytes) (action : Z) : bytes := AUTH_DOMAIN ++ program ++ escrow ++ [action].

Definition verify_buyer_signature (program escrow buyer : bytes) (action : Z) (signature : bytes) : bool :=
  dalek_verify buyer (auth_message program escrow action) signature.
End Sol.
End Sol.

Module Ada.
Section Ada.
Context `{ChainPrims} `{MarketPrims}.

Definition AUTH_DOMAIN : bytes := ascii_bytes "ego-escrow/cardano/v1".
Definition ACTION_CANCEL : Z := 2.
Definition CARDANO_NETWORK_ID : Z := 0.

Definition parse_address (s : string) : result bytes string :=
  let refused := Err (shown 64 s +:+ " is not a Cardano address") in
  match bech32_bytes (trim s) with
  | None => refused
  | Some (hrp, raw) =>
      match (if bool_decide (hrp = "addr") then Some 1 else if bool_decide (hrp = "addr_test") then Some 0 else None) with
      | None => refused
      | Some network =>
          let ok_len :=
            match (fun h => Z.shiftr h 4) <$> head raw with
            | Some h =>
                if bool_decide (0 <= h <= 3) then bool_decide (length raw = 57%nat)
                else if bool_decide (h = 6) || bool_decide (h = 7) then bool_decide (length raw = 29%nat) else false
            | None => false
            end in
          if negb ok_len || bool_decide (Z.land (default 0 (head raw)) 0x0f <> network)
          then Err (shown 64 s +:+ " is not a Cardano payment address") else Ok raw
      end
  end.

Definition network_of (raw : bytes) : Z := default 0 ((fun h => Z.land h 0x0f) <$> head raw).

(** [raw.get(1..29)]. *)
Definition credential (kinds : list Z) (raw : bytes) : option bytes :=
  h ← head raw;
  if bool_decide (Z.shiftr h 4 ∈ kinds) then to_array 28 (take 28 (drop 1 raw)) else None.
Definition payment_key_hash (raw : bytes) : option bytes := credential [0; 2; 6] raw.
Definition payment_script_hash (raw : bytes) : option bytes := credential [1; 3; 7] raw.

Definition auth_message (script trade_id : bytes) (action : Z) : bytes := AUTH_DOMAIN ++ script ++ trade_id ++ [action].

Definition verify_auth (vkey signature who script trade_id : bytes) (action : Z) : bool :=
  bool_decide (blake2b_224 vkey = who) && dalek_verify vkey (auth_message script trade_id action) signature.

Definition cardano_address (s : string) : option bytes :=
  match parse_address s with
  | Ok raw => if bool_decide (network_of raw = CARDANO_NETWORK_ID) then Some raw else None
  | Err _ => None
  end.
End Ada.
End Ada.

Section Checks.
Context `{CryptoPrims} `{ChainPrims} `{MarketPrims}.

Definition base58_len (s : string) (len : nat) : bool :=
  bool_decide (String.length s <= 90)%nat && bool_decide (length <$> bs58_decode s = Some len).

Definition valid_chain_address (family : Family) (s : string) : bool :=
  match family with
  | Ego => false
  | Evm => bool_decide (String.length s = 42%nat) && starts_with s "0x" && all_bytes is_hexdigit (String.substring 2 40 s)
  | Tron =>
      bool_decide (String.length s = 34%nat) && starts_with s "T" &&
      all_bytes (fun b => is_alphanumeric b && negb (bool_decide (b ∈ [48; 79; 73; 108]))) s
  | Solana => base58_len s 32
  | Cardano => bool_decide (is_Some (Ada.cardano_address s ≫= Ada.payment_key_hash))
  end.

Definition valid_escrow_contract (family : Family) (s : string) : bool :=
  match family with
  | Cardano => bool_decide (is_Some (Ada.cardano_address s ≫= Ada.payment_script_hash))
  | other => valid_chain_address other s
  end.

Definition valid_chain_tx (family : Family) (s : string) : bool :=
  let digits (d : option string) :=
    from_option (fun h => bool_decide (String.length h = 64%nat) && all_bytes is_hexdigit h) false d in
  match family with
  | Evm => digits (strip_prefix "0x" s)
  | Tron | Cardano => digits (Some s)
  | Solana => base58_len s 64
  | Ego => false
  end.

Definition native_sig_len (family : Family) : option nat :=
  match family with
  | Evm | Tron => Some 65%nat
  | Solana => Some 64%nat
  | Cardano => Some 96%nat
  | Ego => None
  end.

Definition verify_native_cancel (trade : Trade) (sig_hex : string) : result unit string :=
  let? info := ok_or (asset_info trade.(t_asset)) "the trade's asset is not listed" in
  let? len := ok_or (native_sig_len info.(a_family)) "an EGOC settlement carries no outside signature" in
  let? sig := ok_or (hex_decode sig_hex ≫= to_array len)
    ("the outside signature for " +:+ info.(a_network) +:+ " is " +:+ pretty len +:+ " hex bytes") in
  if negb (bool_decide (info.(a_family) = Solana) || bool_decide (info.(a_family) = Cardano)) then Ok tt
  else
    let? escrow := ok_or trade.(t_escrow) "the trade names no outside escrow" in
    let? payout := ok_or trade.(t_buyer_payout) "the trade names no buyer payout address" in
    let? trade_id := ok_or (hex_decode (trim_0x trade.(t_id)) ≫= to_array 32) "the trade id is not 32 bytes" in
    if bool_decide (info.(a_family) = Solana) then
      let? program := Sol.parse_key escrow.(contract) in
      let? seller := Sol.parse_key escrow.(funder) in
      let? buyer := Sol.parse_key payout in
      let '(escrow_at, _) := Sol.escrow_address program trade_id seller in
      let? signature := ok_or (to_array 64 sig) "bad signature length" in
      if negb (Sol.verify_buyer_signature program escrow_at buyer Sol.ACTION_CANCEL signature) then
        Err "the outside signature is not the buyer's cancel for this Solana escrow"
      else Ok tt
    else
      let? script := ok_or (Ada.cardano_address escrow.(contract) ≫= Ada.payment_script_hash)
        "the escrow is not a Cardano script address" in
      let? buyer := ok_or (Ada.cardano_address payout ≫= Ada.payment_key_hash)
        "the buyer payout is not a Cardano key address" in
      let? vkey := ok_or (to_array 32 (take 32 sig)) "bad key length" in
      let? signature := ok_or (to_array 64 (drop 32 sig)) "bad signature length" in
      if negb (Ada.verify_auth vkey signature buyer script trade_id Ada.ACTION_CANCEL) then
        Err "the outside signature is not the buyer's cancel for this Cardano escrow"
      else Ok tt.

(** ** Hashes and signatures *)

Definition BODY_DOMAIN : bytes := ascii_bytes "ego/market/body/v1:".
Definition SETTLE_DOMAIN : bytes := ascii_bytes "ego/market/settle/v1:".
Definition AUTH_DOMAIN : string := "ego/market/auth/v1".
Definition ARBITER_DOMAIN : bytes := ascii_bytes "ego/market/arbiter/v1:".

Definition body_hash (call_args : string) : string := hex_encode (hash_data (BODY_DOMAIN ++ ascii_bytes call_args)).

Definition op_memo (tx_type call_args : string) : option string :=
  op ← strip_prefix "market_" tx_type;
  if negb (bool_decide (tx_type ∈ SIGNED_OPS)) then None
  else Some ("market:" +:+ op +:+ ":" +:+ body_hash call_args).

Definition settle_message (trade_id : string) (outcome : Outcome) (by_ : Role) : string :=
  AUTH_DOMAIN +:+ ":1:" +:+ trade_id +:+ ":" +:+ outcome_str outcome +:+ ":" +:+ role_str by_.

Definition settle_auth_message (trade_id : string) (outcome : Outcome) (by_ : Role) (native_sig : option string) : string :=
  match native_sig with
  | Some sig => settle_message trade_id outcome by_ +:+ ":" +:+ sig
  | None => settle_message trade_id outcome by_
  end.

(** [EgoAddress::from_public_key_bytes(pubkey, 1, EOA).to_bech32("egot")]. *)
Definition market_address_of (pubkey : bytes) : string := default "" (bech32m_encode "egot" (ego_address pubkey 1)).

Definition verify_auth (body : SettleBody) : result string string :=
  let? pk := ok_or (hex_decode body.(sb_pubkey) ≫= to_array 32) "the settlement key is not 32 hex bytes" in
  let? sig := ok_or (hex_decode body.(sb_signature) ≫= to_array 64) "the settlement signature is not 64 hex bytes" in
  if negb (ed25519_key_ok pk) then Err "the settlement key is not a valid Ed25519 key"
  else if negb (verify_strict pk
    (ascii_bytes (settle_auth_message body.(sb_trade_id) body.(sb_outcome) body.(sb_by) body.(sb_native_sig))) sig)
  then Err "the settlement signature does not verify"
  else Ok (market_address_of pk).

(** ** Shapes *)

Definition check_signed_shape (tx : LedgerTx) : result unit string :=
  if negb (bool_decide (tx.(tx_type) ∈ SIGNED_OPS)) then
    Err ("transfer " +:+ tx.(tx_hash) +:+ " to the market escrow is not a market operation")
  else if bool_decide (tx.(tx_from) = "") || is_reserved_system_source tx.(tx_from) then
    Err "market operations come from user accounts"
  else
    let? key := ok_or (hex_decode tx.(tx_public_key_ed25519) ≫= to_array 32)
      "market operations carry the sender's Ed25519 key" in
    if bool_decide (market_address_of key <> tx.(tx_from)) then
      Err "market trading needs an account whose address comes from its Ed25519 key"
    else if bool_decide (tx.(tx_version) < 2) || bool_decide (tx.(tx_chain_id) <> MARKET_CHAIN_ID) then
      Err "market operations must be signed as testnet v2 transactions"
    else if bool_decide (tx.(tx_nonce) = 0) then Err "market operations carry a nonce"
    else if bool_decide (MAX_BODY_BYTES < String.length tx.(call_args))%nat then
      Err "a market body is at most 4096 bytes"
    else
      let expected := default "" (op_memo tx.(tx_type) tx.(call_args)) in
      if bool_decide (tx.(tx_memo) <> Some expected) then
        Err (tx.(tx_hash) +:+ " does not commit to its body: the memo must be " +:+ expected)
      else Ok tt.

Context `{Json SettleBody}.

(** [format!("0x{}", hash_data(SETTLE_DOMAIN ++ canonical_json))]. *)
Definition settle_tx_hash (b : SettleBody) : string := "0x" +:+ hex_encode (hash_data (SETTLE_DOMAIN ++ to_json b)).

Definition check_settle_shape (tx : LedgerTx) : result SettleBody string :=
  if bool_decide (tx.(tx_type) <> TX_MARKET_SETTLE) then
    Err ("tx " +:+ tx.(tx_hash) +:+ " from the market escrow is not a settlement")
  else if bool_decide (tx.(tx_signature) <> "") || bool_decide (tx.(tx_public_key_ed25519) <> "") ||
          bool_decide (tx.(tx_dilithium_signature) <> "") || bool_decide (tx.(tx_nonce) <> 0) then
    Err ("settlement " +:+ tx.(tx_hash) +:+ " carries its authority in the body, not a signature or nonce")
  else if bool_decide (1024 < String.length tx.(call_args))%nat then Err "a settlement body is at most 1024 bytes"
  else
    let? b := prefix_err "settlement body: " (from_str (A := SettleBody) tx.(call_args)) in
    if bool_decide (ascii_bytes tx.(call_args) <> to_json b) then
      Err ("settlement " +:+ tx.(tx_hash) +:+ " body is not in canonical form")
    else if bool_decide (tx.(tx_hash) <> settle_tx_hash b) then
      Err ("settlement " +:+ tx.(tx_hash) +:+ " body/hash mismatch")
    else if negb (valid_id b.(sb_trade_id)) then Err "the settlement names no trade"
    else if from_option (fun s =>
      negb (bool_decide (String.length s ∈ [128; 130; 192]%nat)) || negb (all_bytes is_hexdigit s)) false b.(sb_native_sig)
    then Err "the outside signature is not 64, 65 or 96 hex bytes"
    else Ok b.

Definition market_settle_is_well_formed (tx : LedgerTx) : bool :=
  is_market_settle tx && match check_settle_shape tx with Ok _ => true | Err _ => false end.

(** [i32::abs], which a release build wraps. *)
Definition abs32 (m : Z) : Z := if bool_decide (m = - 2 ^ 31) then m else Z.abs m.

Definition check_price (p : Price) : result unit string :=
  match p with
  | Fixed p => if bool_decide (p = 0) || bool_decide (MAX_PRICE_MICRO < p) then Err "the fixed price is out of range" else Ok tt
  | MarginBps m =>
      if bool_decide (MAX_MARGIN_BPS < abs32 m) then Err "the margin is limited to +/-5000 basis points" else Ok tt
  end.

Definition check_payout (info : AssetInfo) (b : OfferBody) : result unit string :=
  match info.(a_family), b.(ob_side), b.(ob_payout_address) with
  | Ego, _, Some _ => Err "EGOC offers take no payout address"
  | _, Sell, Some _ => Err "on a sell offer the buyer names the payout address when taking it"
  | Ego, Buy, None => Ok tt
  | _, Buy, None => Err ("say where you receive " +:+ info.(a_symbol) +:+ " on " +:+ info.(a_network))
  | family, Buy, Some a =>
      if negb (valid_chain_address family a) then Err (shown 64 a +:+ " is not a " +:+ info.(a_network) +:+ " address")
      else Ok tt
  | _, Sell, None => Ok tt
  end.

Definition validate_offer_body (b : OfferBody) : result unit string :=
  let? info := ok_or (asset_info b.(ob_asset)) (shown 16 b.(ob_asset) +:+ " is not traded on this market yet") in
  if negb (valid_fiat b.(ob_fiat)) then Err "the fiat currency must be a three-letter ISO code"
  else
    let? _ := check_price b.(ob_price) in
    let '(lo, hi) := trade_limits b.(ob_asset) in
    if bool_decide (b.(ob_min_micro) < lo) || bool_decide (hi < b.(ob_max_micro)) ||
       bool_decide (b.(ob_max_micro) < b.(ob_min_micro)) then
      Err ("trade limits must sit within " +:+ pretty lo +:+ "..=" +:+ pretty hi +:+ " micro-units with min <= max")
    else
      let? _ := check_payout info b in
      if bool_decide (b.(ob_methods) = []) || bool_decide (MAX_METHODS < length b.(ob_methods))%nat then
        Err "an offer lists 1 to 8 payment methods"
      else if negb (forallb valid_method b.(ob_methods)) then Err "payment methods are lowercase ids like bank_transfer"
      else if bool_decide (size (list_to_set (C := gset string) b.(ob_methods)) <> length b.(ob_methods)) then
        Err "a payment method is listed twice"
      else if from_option (fun c => negb (valid_country c)) false b.(ob_country) then
        Err "the country must be a two-letter ISO code"
      else if negb (valid_text b.(ob_terms) MAX_TERMS_BYTES) then Err "terms are at most 1000 bytes of text"
      else if bool_decide (b.(ob_payment_window_secs) < MIN_PAYMENT_WINDOW_SECS) ||
              bool_decide (MAX_PAYMENT_WINDOW_SECS < b.(ob_payment_window_secs)) then
        Err "the payment window is 900..=86400 seconds"
      else Ok tt.
End Checks.
