(* ===== verification/MarketPlan.v ===== *)
(** * The market: planning a block

    Model of the [Planner] of [market_chain.rs], which judges the market
    transactions of a block against the committed state, of [plan_block] and
    [validate_block_market_txs], which run it, and of [apply_plan] and
    [rollback], which write its plan with a journal and take it back. *)
From stdpp Require Import pretty.
From Stdlib Require Import Ascii.
From S2P Require Import Abi Prelude Crypto Ledger RuleText Balances MarketData MarketChecks.
Local Open Scope string_scope.
Local Open Scope list_scope.
Local Open Scope Z_scope.
Local Open Scope ego_scope.

(** ** Reading the column *)

(** The entries of the column in ascending order of their keys. *)
Definition sorted_entries (db : Store) : list (bytes * bytes) :=
  omap (fun k => pair k <$> db !! k) (sorted_keys db).

Fixpoint scan_from (prefix : bytes) (limit : nat) (l : list (bytes * bytes)) : list (bytes * bytes) :=
  match limit, l with
  | S limit, (k, v) :: l => if has_prefix prefix k then (k, v) :: scan_from prefix limit l else []
  | _, _ => []
  end.

Definition scan (db : Store) (prefix : bytes) (newest_first : bool) (limit : nat) : list (bytes * bytes) :=
  if newest_first then
    scan_from prefix limit (reverse (filter (fun kv => key_leb kv.1 (prefix_ceiling prefix) = true) (sorted_entries db)))
  else scan_from prefix limit (filter (fun kv => key_leb prefix kv.1 = true) (sorted_entries db)).

(** [String::from_utf8(key.get(n..)?.to_vec()).ok()]. *)
Definition id_after (key : bytes) (n : nat) : option string :=
  if bool_decide (n <= length key)%nat && utf8_valid (drop n key) then Some (string_of_bytes (drop n key)) else None.
Definition id_after_height (key : bytes) (n : nat) : option string := id_after key (n + 8).

Definition read {A} `{Json A} (db : Store) (key : bytes) : option A := v ← db !! key; result_ok (from_json v).

(** ** Plans *)

Record Plan : Type := MkPlan {
  plan_writes : gmap bytes (option bytes);
  rejected : list string;
}.

Definition plan_default : Plan := MkPlan ∅ [].
Definition plan_is_empty (p : Plan) : bool := bool_decide (p.(plan_writes) = ∅) && bool_decide (p.(rejected) = []).
Definition plan_takes_effect (p : Plan) (hash : string) : bool := negb (bool_decide (hash ∈ p.(rejected))).

Record Effects : Type := MkEffects {
  touches : list string;
  fx_writes : list (bytes * option bytes);
  fx_profiles : list (string * Profile);
  new_offer : option (string * nat);
  new_pending : option (string * nat);
  fx_pairs : list (bytes * string * string);
  fx_escrow_in : Z;
  fx_escrow_out : Z;
  fx_opened : Z;
  fx_closed : Z;
}.

(** What the judgement of a transaction reads: the committed column, the height
    and time of the block, and the arbiters. *)
Record Ctx : Type := MkCtx {
  reader : Store;
  c_height : Z;
  c_now : Z;
  arbiters : list string;
}.

Record Planner : Type := MkPlanner {
  p_ctx : Ctx;
  p_touched : gset string;
  offers_by_maker : gmap string nat;
  pending_by_taker : gmap string nat;
  p_pairs : gset bytes;
  p_writes : gmap bytes (option bytes);
  p_profiles : gmap string Profile;
  escrow_in : Z;
  escrow_out : Z;
  opened : Z;
  closed : Z;
  admitted : list string;
}.

Definition ARBITER_SCHEDULE : list (Z * list string) := [(0, ["egot1ypxxgvy0y5g8gynm3y2tkegzggs64rcts5dq7sl8"])].

Definition arbiters_at (height : Z) : list string :=
  from_option snd [] (List.find (fun e => bool_decide (e.1 <= height)) (reverse ARBITER_SCHEDULE)).

Definition planner_new (reader : Store) (height now : Z) : Planner :=
  MkPlanner (MkCtx reader height now (arbiters_at height)) ∅ ∅ ∅ ∅ ∅ ∅ 0 0 0 0 [].

Definition was_admitted (p : Planner) (tx : LedgerTx) : bool := bool_decide (tx.(tx_hash) ∈ p.(admitted)).

(** The bodies and records in JSON. *)
Class MarketJson : Type := {
  offer_body_json :: Json OfferBody;
  offer_ref_json :: Json OfferRef;
  trade_open_json :: Json TradeOpenBody;
  trade_ref_json :: Json TradeRef;
  lock_json :: Json LockBody;
  arbiter_json :: Json ArbiterBody;
  dispute_json :: Json DisputeBody;
  feedback_body_json :: Json FeedbackBody;
  settle_json :: Json SettleBody;
  offer_json :: Json Offer;
  trade_json :: Json Trade;
  profile_json :: Json Profile;
  feedback_json :: Json Feedback;
  arbiter_addresses_json :: Json ArbiterAddresses;
  totals_json :: Json EscrowTotals;
}.

Section Plan.
Context `{CryptoPrims} `{ChainPrims} `{MarketPrims} `{MarketJson}.
Implicit Types (c : Ctx) (tx : LedgerTx).

(** ** Lookups *)

Definition offer_at c (id : string) : option Offer := read c.(reader) (offer_key id).
Definition trade_at c (id : string) : option Trade := read c.(reader) (trade_key id).

Definition known_trade c (id : string) : result Trade Refusal :=
  if negb (valid_id id) then invalid (shown 80 id +:+ " is not a trade id")
  else ok_or (trade_at c id) (Unknown ("trade " +:+ id +:+ " is not on this chain")).

Definition open_offer_count c (maker : string) : nat :=
  let prefix := maker_offers_prefix maker in
  length (filter (fun o => is_open o c.(c_now) = true)
    (omap (offer_at c) (omap (fun kv => id_after kv.1 (length prefix)) (scan c.(reader) prefix false OWNER_SCAN_LIMIT)))).

Definition is_pending (taker : string) (now : Z) (t : Trade) : bool :=
  bool_decide (t.(t_taker) = taker) && bool_decide (t.(t_state) = AwaitingLock) && negb (is_lock_expired t now).

Definition pending_count c (taker : string) : nat :=
  let prefix := user_trades_prefix taker in
  length (filter (fun t => is_pending taker c.(c_now) t = true)
    (omap (trade_at c) (omap (fun kv => id_after_height kv.1 (length prefix)) (scan c.(reader) prefix true PENDING_SCAN_LIMIT)))).

Definition arbiter_candidates c (trade : Trade) : list (string * option string) :=
  let family := from_option a_family Ego (asset_info trade.(t_asset)) in
  omap (fun a =>
    if bool_decide (family = Ego) then Some (a, None)
    else
      record ← read (A := ArbiterAddresses) c.(reader) (arbiter_addr_key a);
      payout ← for_family record family;
      Some (a, Some payout))
    (filter (fun a => a <> trade.(t_buyer) /\ a <> trade.(t_seller)) c.(arbiters)).

Definition assign_arbiter c (trade : Trade) : option (string * option string) :=
  match arbiter_candidates c trade with
  | [] => None
  | candidates =>
      let digest := hash_data (ARBITER_DOMAIN ++ ascii_bytes trade.(t_id)) in
      candidates !! Z.to_nat (from_le_bytes (take 8 digest) mod Z.of_nat (length candidates))
  end.

Definition body {A} `{Json A} tx : result A Refusal :=
  match from_str tx.(call_args) with
  | Ok b => Ok b
  | Err e => Err (Invalid (tx.(tx_type) +:+ " body: " +:+ e))
  end.

(** [map_err(Refusal::Invalid)]. *)
Definition or_invalid {A} (r : result A string) : result A Refusal :=
  match r with
  | Ok a => Ok a
  | Err e => Err (Invalid e)
  end.

(** ** Offers *)

Definition offer_effects c tx : result Effects Refusal :=
  let? b := body (A := OfferBody) tx in
  let? _ := or_invalid (validate_offer_body b) in
  if bool_decide (tx.(tx_amount) <> 0) then invalid "publishing an offer moves no funds"
  else
    let id := tx.(tx_hash) in
    if bool_decide (is_Some (c.(reader) !! offer_key id)) then invalid ("offer " +:+ id +:+ " already exists")
    else
      let maker := tx.(tx_from) in
      let existing := open_offer_count c maker in
      if bool_decide (MAX_OPEN_OFFERS_PER_MAKER <= existing)%nat then
        invalid (maker +:+ " already has 20 open offers; close one first")
      else
        let offer := MkOffer id maker b.(ob_side) b.(ob_asset) b.(ob_fiat) b.(ob_price) b.(ob_min_micro) b.(ob_max_micro)
          b.(ob_methods) b.(ob_country) b.(ob_terms) b.(ob_payment_window_secs) c.(c_height) c.(c_now)
          (isat_add c.(c_now) OFFER_TTL_SECS) None tx.(tx_public_key_ed25519) b.(ob_payout_address) in
        Ok (MkEffects ["offer:" +:+ id]
          [(book_key offer.(o_asset) offer.(o_fiat) offer.(o_side) c.(c_height) id, Some []);
           (maker_offer_key maker id, Some []); (offer_key id, Some (to_json offer))]
          [] (Some (maker, existing)) None [] 0 0 0 0).

Definition offer_close_effects c tx : result Effects Refusal :=
  let? b := body (A := OfferRef) tx in
  if negb (valid_id b.(or_offer_id)) then invalid "that is not an offer id"
  else if bool_decide (tx.(tx_amount) <> 0) then invalid "closing an offer moves no funds"
  else
    let? offer := ok_or (offer_at c b.(or_offer_id)) (Unknown ("offer " +:+ b.(or_offer_id) +:+ " is not on this chain")) in
    if bool_decide (offer.(o_maker) <> tx.(tx_from)) then invalid "only the maker can close an offer"
    else if bool_decide (is_Some offer.(o_closed_height)) then invalid ("offer " +:+ offer.(o_id) +:+ " is already closed")
    else
      Ok (MkEffects ["offer:" +:+ offer.(o_id)]
        [(offer_key offer.(o_id), Some (to_json (close_offer offer c.(c_height))));
         (maker_offer_key offer.(o_maker) offer.(o_id), None);
         (book_key offer.(o_asset) offer.(o_fiat) offer.(o_side) offer.(o_created_height) offer.(o_id), None)]
        [] None None [] 0 0 0 0).

(** ** Opening a trade *)

Definition check_terms (offer : Offer) (b : TradeOpenBody) : result unit Refusal :=
  let '(lo, hi) := trade_limits offer.(o_asset) in
  if bool_decide (b.(to_amount_micro) < Z.max offer.(o_min_micro) lo) ||
     bool_decide (Z.min offer.(o_max_micro) hi < b.(to_amount_micro)) then
    invalid (pretty b.(to_amount_micro) +:+ " is outside the offer's " +:+ pretty offer.(o_min_micro) +:+ "..=" +:+
             pretty offer.(o_max_micro) +:+ " limits")
  else if negb (bool_decide (b.(to_method) ∈ offer.(o_methods))) then
    invalid ("the offer does not accept " +:+ b.(to_method))
  else
    let? _ :=
      match offer.(o_price) with
      | Fixed p =>
          if bool_decide (b.(to_price_micro) <> p) then
            invalid ("the offer's price is " +:+ pretty p +:+ ", not " +:+ pretty b.(to_price_micro))
          else Ok tt
      | MarginBps _ =>
          if bool_decide (b.(to_price_micro) = 0) || bool_decide (MAX_PRICE_MICRO < b.(to_price_micro)) then
            invalid "the quoted price is out of range"
          else Ok tt
      end in
    let fiat := default 0 (fiat_for b.(to_amount_micro) b.(to_price_micro)) in
    if bool_decide (fiat = 0) || bool_decide (fiat <> b.(to_fiat_micro)) then
      invalid (pretty b.(to_amount_micro) +:+ " at " +:+ pretty b.(to_price_micro) +:+ " comes to " +:+ pretty fiat +:+
               ", not " +:+ pretty b.(to_fiat_micro))
    else Ok tt.

(** Where the buyer of an outside asset is paid. *)
Definition buyer_payout_of (info : AssetInfo) (offer : Offer) (b : TradeOpenBody) : result (option string) Refusal :=
  if bool_decide (info.(a_family) = Ego) then
    if bool_decide (is_Some b.(to_payout_address)) then
      invalid "EGOC trades pay out on the Ego chain, so they take no payout address"
    else Ok None
  else
    let? address :=
      match offer.(o_side) with
      | Sell => Ok b.(to_payout_address)
      | Buy =>
          if bool_decide (is_Some b.(to_payout_address)) then
            invalid "the buyer of this offer already named their payout address"
          else Ok offer.(o_payout_address)
      end in
    let? address := ok_or address
      (Invalid ("the buyer must say where to receive " +:+ info.(a_symbol) +:+ " on " +:+ info.(a_network))) in
    if negb (valid_chain_address info.(a_family) address) then
      invalid (shown 64 address +:+ " is not a " +:+ info.(a_network) +:+ " address")
    else Ok (Some address).

(** The seller, the buyer, their keys, and what the seller locks. *)
Definition parties (offer : Offer) (b : TradeOpenBody) tx (fee : Z) : string * string * string * string * Z :=
  match offer.(o_side) with
  | Sell => (offer.(o_maker), tx.(tx_from), offer.(o_maker_key), tx.(tx_public_key_ed25519),
             sat_add u64_max b.(to_amount_micro) fee)
  | Buy => (tx.(tx_from), offer.(o_maker), tx.(tx_public_key_ed25519), offer.(o_maker_key), b.(to_amount_micro))
  end.

Definition trade_open_effects c tx : result Effects Refusal :=
  let? b := body (A := TradeOpenBody) tx in
  if negb (valid_id b.(to_offer_id)) then invalid "that is not an offer id"
  else if negb (valid_method b.(to_method)) then invalid "the payment method is not a method id"
  else
    let? offer := ok_or (offer_at c b.(to_offer_id)) (Unknown ("offer " +:+ b.(to_offer_id) +:+ " is not on this chain")) in
    if negb (is_open offer c.(c_now)) then invalid ("offer " +:+ offer.(o_id) +:+ " is closed or has expired")
    else if bool_decide (tx.(tx_from) = offer.(o_maker)) then invalid "a maker cannot take their own offer"
    else
      let? info := ok_or (asset_info offer.(o_asset)) (Invalid (shown 16 offer.(o_asset) +:+ " is not traded on this market")) in
      let? _ := check_terms offer b in
      let fee := trade_fee offer.(o_asset) b.(to_amount_micro) in
      let id := tx.(tx_hash) in
      if bool_decide (is_Some (c.(reader) !! trade_key id)) then invalid ("trade " +:+ id +:+ " already exists")
      else
        let egoc := bool_decide (info.(a_family) = Ego) in
        let '(seller, buyer, seller_key, buyer_key, locked) := parties offer b tx fee in
        let? buyer_payout := buyer_payout_of info offer b in
        let state := if egoc && bool_decide (offer.(o_side) = Buy) then Locked else AwaitingLock in
        let locked_at := if bool_decide (state = Locked) then Some c.(c_now) else None in
        let expected_amount := if bool_decide (state = Locked) then locked else 0 in
        if bool_decide (tx.(tx_amount) <> expected_amount) then
          invalid ("opening this trade must move " +:+ pretty expected_amount +:+ " uEGOC into escrow, not " +:+ pretty tx.(tx_amount))
        else
          let trade := MkTrade id offer.(o_id) offer.(o_maker) tx.(tx_from) seller buyer seller_key buyer_key offer.(o_asset)
            b.(to_amount_micro) fee locked offer.(o_fiat) b.(to_fiat_micro) b.(to_price_micro) b.(to_method)
            offer.(o_payment_window_secs) state c.(c_height) c.(c_now) locked_at None None None "" None None None None None
            buyer_payout None None None in
          let? trade :=
            match assign_arbiter c trade with
            | Some (arbiter, payout) => Ok (with_arbiter trade (Some arbiter) payout)
            | None =>
                if negb egoc then
                  invalid ("no arbiter has published a " +:+ family_str info.(a_family) +:+ " address yet, so " +:+
                           offer.(o_asset) +:+ " trades cannot open")
                else Ok trade
            end in
          let writes :=
            [(trade_key id, Some (to_json trade)); (user_trade_key seller c.(c_height) id, Some []);
             (user_trade_key buyer c.(c_height) id, Some [])] in
          if bool_decide (state = Locked) then Ok (MkEffects ["trade:" +:+ id] writes [] None None [] locked 0 1 0)
          else
            let existing := pending_count c tx.(tx_from) in
            if bool_decide (MAX_PENDING_TRADES_PER_TAKER <= existing)%nat then
              invalid (tx.(tx_from) +:+ " already has 5 trades waiting for a seller")
            else Ok (MkEffects ["trade:" +:+ id] writes [] None (Some (tx.(tx_from), existing)) [] 0 0 0 0).

(** ** Moving a trade *)

(** The effects of an operation that writes one trade. *)
Definition trade_write (next : Trade) : list (bytes * option bytes) := [(trade_key next.(t_id), Some (to_json next))].

Definition lock_effects c tx : result Effects Refusal :=
  let? b := body (A := LockBody) tx in
  let? trade := known_trade c b.(lk_trade_id) in
  if bool_decide (trade.(t_state) <> AwaitingLock) then
    invalid ("trade " +:+ trade.(t_id) +:+ " is not waiting for the seller")
  else if is_lock_expired trade c.(c_now) then invalid ("the time to fund trade " +:+ trade.(t_id) +:+ " has passed")
  else if bool_decide (tx.(tx_from) <> trade.(t_seller)) then invalid "only the seller funds the escrow"
  else if t_is_egoc trade then
    if bool_decide (is_Some b.(lk_escrow)) then
      invalid "EGOC is escrowed on the Ego chain itself, so no outside escrow applies"
    else if bool_decide (tx.(tx_amount) <> trade.(t_locked_micro)) then
      invalid ("trade " +:+ trade.(t_id) +:+ " needs exactly " +:+ pretty trade.(t_locked_micro) +:+ " uEGOC in escrow, not " +:+
               pretty tx.(tx_amount))
    else
      Ok (MkEffects ["trade:" +:+ trade.(t_id)] (trade_write (lock_trade trade c.(c_now) trade.(t_escrow)))
        [] None None [] trade.(t_locked_micro) 0 1 0)
  else
    let? info := ok_or (asset_info trade.(t_asset)) (Invalid (shown 16 trade.(t_asset) +:+ " is not traded on this market")) in
    if bool_decide (tx.(tx_amount) <> 0) then
      invalid ("the escrow for " +:+ trade.(t_asset) +:+ " lives on " +:+ info.(a_network) +:+ ", so this lock moves no EGOC")
    else
      let? reference := ok_or b.(lk_escrow) (Invalid "say where the escrow was funded: contract, funder and transaction") in
      if negb (valid_escrow_contract info.(a_family) reference.(contract)) ||
         negb (valid_chain_address info.(a_family) reference.(funder)) ||
         negb (valid_chain_tx info.(a_family) reference.(er_tx)) then
        invalid ("the escrow reference is not a " +:+ info.(a_network) +:+ " contract, address and transaction")
      else
        Ok (MkEffects ["trade:" +:+ trade.(t_id)] (trade_write (lock_trade trade c.(c_now) (Some reference)))
          [] None None [] 0 0 0 0).

Definition cancel_effects c tx : result Effects Refusal :=
  let? b := body (A := TradeRef) tx in
  let? trade := known_trade c b.(tr_trade_id) in
  if bool_decide (trade.(t_state) <> AwaitingLock) then
    invalid ("trade " +:+ trade.(t_id) +:+ " already holds funds; it ends by release or refund")
  else
    let? role := ok_or (role_of trade tx.(tx_from)) (Invalid "only the buyer or the seller can cancel") in
    if bool_decide (tx.(tx_amount) <> 0) then invalid "cancelling moves no funds"
    else
      Ok (MkEffects ["trade:" +:+ trade.(t_id)] (trade_write (cancel_trade trade c.(c_now) c.(c_height) role))
        [] None None [] 0 0 0 0).

Definition paid_effects c tx : result Effects Refusal :=
  let? b := body (A := TradeRef) tx in
  let? trade := known_trade c b.(tr_trade_id) in
  if bool_decide (trade.(t_state) <> Locked) then invalid ("trade " +:+ trade.(t_id) +:+ " is not waiting for payment")
  else if bool_decide (tx.(tx_from) <> trade.(t_buyer)) then invalid "only the buyer marks a trade paid"
  else if bool_decide (tx.(tx_amount) <> 0) then invalid "marking a trade paid moves no funds"
  else
    Ok (MkEffects ["trade:" +:+ trade.(t_id)] (trade_write (pay_trade trade c.(c_now))) [] None None [] 0 0 0 0).

Definition overdue (t : Trade) (now : Z) : bool := from_option (fun due => bool_decide (due <= now)) false (payment_due_at t).

Definition dispute_effects c tx : result Effects Refusal :=
  let? b := body (A := DisputeBody) tx in
  if negb (valid_text b.(db_reason) MAX_NOTE_BYTES) then invalid "a dispute reason is at most 280 bytes of text"
  else
    let? trade := known_trade c b.(db_trade_id) in
    let? role := ok_or (role_of trade tx.(tx_from)) (Invalid "only the buyer or the seller can open a dispute") in
    let no_show := negb (t_is_egoc trade) && bool_decide (trade.(t_state) = Locked) && bool_decide (role = Seller) &&
                   overdue trade c.(c_now) in
    if bool_decide (trade.(t_state) <> Paid) && negb no_show then
      invalid ("trade " +:+ trade.(t_id) +:+ " can be disputed only after the buyer marks it paid")
    else if bool_decide (tx.(tx_amount) <> 0) then invalid "opening a dispute moves no funds"
    else
      let allowed := default i64_max (buyer_may_dispute_at trade) in
      if bool_decide (role = Buyer) && bool_decide (c.(c_now) < allowed) then
        invalid ("the seller has until " +:+ pretty allowed +:+ " to release before the buyer can dispute")
      else
        let? arbiter :=
          match trade.(t_arbiter) with
          | Some a => Ok a
          | None => ok_or (fst <$> assign_arbiter c trade) (Invalid "no impartial arbiter is available")
          end in
        Ok (MkEffects ["trade:" +:+ trade.(t_id)]
          (trade_write (dispute_trade trade c.(c_now) role b.(db_reason) arbiter) ++
           [(arbiter_case_key arbiter c.(c_height) trade.(t_id), Some [])])
          [(tx.(tx_from), one_dispute_opened)] None None [] 0 0 0 0).

Definition feedback_effects c tx : result Effects Refusal :=
  let? b := body (A := FeedbackBody) tx in
  if negb (valid_text b.(fb_comment) MAX_NOTE_BYTES) then invalid "feedback is at most 280 bytes of text"
  else
    let? trade := known_trade c b.(fb_trade_id) in
    if negb (bool_decide (trade.(t_state) = Released) || bool_decide (trade.(t_state) = Refunded)) then
      invalid ("trade " +:+ trade.(t_id) +:+ " has not finished")
    else
      let? role := ok_or (role_of trade tx.(tx_from)) (Invalid "only the buyer or the seller can leave feedback") in
      if bool_decide (tx.(tx_amount) <> 0) then invalid "feedback moves no funds"
      else
        let closed := default trade.(t_opened_at) trade.(t_closed_at) in
        if bool_decide (isat_add closed FEEDBACK_WINDOW_SECS < c.(c_now)) then
          invalid "the time to leave feedback on this trade has passed"
        else
          let key := feedback_key trade.(t_id) role in
          if bool_decide (is_Some (c.(reader) !! key)) then
            invalid ("the " +:+ role_str role +:+ " already left feedback on " +:+ trade.(t_id))
          else
            let about := counterparty trade role in
            let record := MkFeedback trade.(t_id) tx.(tx_from) about b.(fb_rating) b.(fb_comment) c.(c_height) c.(c_now) in
            Ok (MkEffects ["feedback:" +:+ trade.(t_id) +:+ ":" +:+ role_str role] [(key, Some (to_json record))]
              [(about, one_rating b.(fb_rating))] None None [] 0 0 0 0).

(** ** Settling a trade *)

Definition entitled (trade : Trade) (by_ : Role) (signer : string) : bool :=
  match by_ with
  | Seller => bool_decide (signer = trade.(t_seller))
  | Buyer => bool_decide (signer = trade.(t_buyer))
  | Arbiter => bool_decide (trade.(t_arbiter) = Some signer)
  end.

Definition in_escrow (t : Trade) : bool :=
  bool_decide (t.(t_state) = Locked) || bool_decide (t.(t_state) = Paid) || bool_decide (t.(t_state) = Disputed).

Definition settle_allowed (trade : Trade) (now : Z) (o : Outcome) (by_ : Role) : result bool Refusal :=
  match o, by_ with
  | Release, Seller => Ok (in_escrow trade)
  | Release, Arbiter => Ok (bool_decide (trade.(t_state) = Disputed))
  | Release, Buyer => invalid "only the seller or an arbiter can release the escrow"
  | Refund, Buyer => Ok (in_escrow trade)
  | Refund, Arbiter => Ok (bool_decide (trade.(t_state) = Disputed))
  | Refund, Seller =>
      if negb (t_is_egoc trade) then
        invalid (trade.(t_asset) +:+ " escrow goes back to the seller through the buyer or the arbiter")
      else if bool_decide (trade.(t_state) <> Locked) then
        invalid ("the seller can reclaim trade " +:+ trade.(t_id) +:+ " only while it is unpaid")
      else
        let due := default i64_max (payment_due_at trade) in
        if bool_decide (now < due) then
          invalid ("the buyer has until " +:+ pretty due +:+ " to pay before the seller can reclaim")
        else Ok true
  end.

Definition check_native (trade : Trade) (b : SettleBody) : result unit Refusal :=
  match b.(sb_native_sig) with
  | None => Ok tt
  | Some native =>
      if t_is_egoc trade then invalid "an EGOC settlement carries no outside signature"
      else if negb (bool_decide (b.(sb_outcome) = Refund) && bool_decide (b.(sb_by) = Buyer)) then
        invalid "only the buyer's refund carries an outside signature"
      else or_invalid (verify_native_cancel trade native)
  end.

Definition settle_profiles (trade : Trade) (now : Z) (o : Outcome) (by_ : Role) : list (string * Profile) :=
  let volume := if t_is_egoc trade then trade.(t_amount_micro) else 0 in
  match o with
  | Release =>
      [(trade.(t_seller), traded volume now false); (trade.(t_buyer), traded volume now true)] ++
      (if bool_decide (by_ = Arbiter) then [(trade.(t_buyer), one_dispute_won); (trade.(t_seller), one_dispute_lost)] else [])
  | Refund =>
      match by_ with
      | Buyer => [(trade.(t_buyer), one_cancelled)]
      | Seller => [(trade.(t_buyer), one_timed_out)]
      | Arbiter => [(trade.(t_seller), one_dispute_won); (trade.(t_buyer), one_dispute_lost)]
      end
  end.

Definition settle_pairs c (trade : Trade) (o : Outcome) : list (bytes * string * string) :=
  let pk := pair_key trade.(t_seller) trade.(t_buyer) in
  if bool_decide (o = Release) && bool_decide (c.(reader) !! pk = None) then [(pk, trade.(t_seller), trade.(t_buyer))] else [].

Definition settle_effects c tx : result Effects Refusal :=
  let? b := or_invalid (check_settle_shape tx) in
  let? trade := known_trade c b.(sb_trade_id) in
  let? signer := or_invalid (verify_auth b) in
  if negb (entitled trade b.(sb_by) signer) then
    invalid ("the settlement is not signed by the trade's " +:+ role_str b.(sb_by))
  else
    let? allowed := settle_allowed trade c.(c_now) b.(sb_outcome) b.(sb_by) in
    if negb allowed then
      invalid ("trade " +:+ trade.(t_id) +:+ " cannot be " +:+ past b.(sb_outcome) +:+ " by the " +:+ role_str b.(sb_by) +:+
               " while it is " +:+ status trade c.(c_now))
    else
      let? _ := check_native trade b in
      if bool_decide (tx.(tx_to) <> payout_to trade b.(sb_outcome)) || bool_decide (tx.(tx_amount) <> settle_amount trade) ||
         bool_decide (tx.(fee_uegoc) <> settle_fee trade b.(sb_outcome)) then
        invalid ("settlement " +:+ tx.(tx_hash) +:+ " must pay " +:+ pretty (settle_amount trade) +:+ " uEGOC to " +:+
                 payout_to trade b.(sb_outcome) +:+ " with a " +:+ pretty (settle_fee trade b.(sb_outcome)) +:+ " uEGOC fee")
      else
        let next := settle_trade trade b.(sb_outcome) c.(c_now) c.(c_height) b.(sb_by) tx.(tx_hash) b.(sb_native_sig) in
        let egoc := t_is_egoc trade in
        Ok (MkEffects ["trade:" +:+ trade.(t_id)] (trade_write next)
          (settle_profiles trade c.(c_now) b.(sb_outcome) b.(sb_by)) None None (settle_pairs c trade b.(sb_outcome))
          0 (if egoc then trade.(t_locked_micro) else 0) 0 (if egoc then 1 else 0)).

(** ** Arbiters *)

Definition bad_address (family : Family) (a : option string) : bool :=
  from_option (fun a => negb (valid_chain_address family a)) false a.

Definition arbiter_effects c tx : result Effects Refusal :=
  let? b := body (A := ArbiterBody) tx in
  if bool_decide (tx.(tx_amount) <> 0) then invalid "publishing arbiter addresses moves no funds"
  else if negb (bool_decide (tx.(tx_from) ∈ c.(arbiters))) then invalid "only an arbiter publishes arbiter addresses"
  else if bool_decide (b.(ab_evm) = None) && bool_decide (b.(ab_tron) = None) && bool_decide (b.(ab_sol) = None) &&
          bool_decide (b.(ab_ada) = None) then invalid "publish at least one address"
  else if bad_address Evm b.(ab_evm) then invalid "the EVM address is not 0x followed by 40 hex digits"
  else if bad_address Tron b.(ab_tron) then invalid "the Tron address is not a T address"
  else if bad_address Solana b.(ab_sol) then invalid "the Solana address is not a 32-byte base58 key"
  else if bad_address Cardano b.(ab_ada) then invalid "the Cardano address is not a testnet key address"
  else
    let record := MkArbiterAddresses b.(ab_evm) b.(ab_tron) b.(ab_sol) b.(ab_ada) c.(c_height) in
    Ok (MkEffects ["arbiter:" +:+ tx.(tx_from)] [(arbiter_addr_key tx.(tx_from), Some (to_json record))] [] None None [] 0 0 0 0).

(** ** Admitting a transaction

    [admit_tx] is [Planner::admit]. *)

Definition signed_effects c tx : result Effects Refusal :=
  let? _ := or_invalid (check_signed_shape tx) in
  if bool_decide (tx.(tx_type) = TX_OFFER) then offer_effects c tx
  else if bool_decide (tx.(tx_type) = TX_OFFER_CLOSE) then offer_close_effects c tx
  else if bool_decide (tx.(tx_type) = TX_TRADE_OPEN) then trade_open_effects c tx
  else if bool_decide (tx.(tx_type) = TX_LOCK) then lock_effects c tx
  else if bool_decide (tx.(tx_type) = TX_TRADE_CANCEL) then cancel_effects c tx
  else if bool_decide (tx.(tx_type) = TX_PAID) then paid_effects c tx
  else if bool_decide (tx.(tx_type) = TX_DISPUTE) then dispute_effects c tx
  else if bool_decide (tx.(tx_type) = TX_FEEDBACK) then feedback_effects c tx
  else if bool_decide (tx.(tx_type) = TX_ARBITER) then arbiter_effects c tx
  else invalid (shown 40 tx.(tx_type) +:+ " is not a market operation").

(** The effects [admit_tx] judges by; [None] when the transaction is not the market's. *)
Definition effects_of c tx : result (option Effects) Refusal :=
  if is_market_settle tx then let? fx := settle_effects c tx in Ok (Some fx)
  else if is_escrow_deposit tx then let? fx := signed_effects c tx in Ok (Some fx)
  else Ok None.

(** [*map.entry(k).or_insert(0) += 1]. *)
Definition bump (m : gmap string nat) (k : option (string * nat)) : gmap string nat :=
  match k with
  | Some (k, _) => <[ k := S (default 0%nat (m !! k)) ]> m
  | None => m
  end.

(** [profiles.entry(addr).or_default().absorb(&d)]. *)
Definition absorb_at (m : gmap string Profile) (ad : string * Profile) : gmap string Profile :=
  <[ ad.1 := absorb (default profile_default (m !! ad.1)) ad.2 ]> m.

Definition put_write (m : gmap bytes (option bytes)) (kv : bytes * option bytes) : gmap bytes (option bytes) :=
  <[ kv.1 := kv.2 ]> m.

Record Merged : Type := MkMerged {
  m_pairs : gset bytes;
  m_writes : gmap bytes (option bytes);
  m_profiles : gmap string Profile;
}.

Definition merge_pair (height : Z) (m : Merged) (p : bytes * string * string) : Merged :=
  let '(key, a, b) := p in
  if bool_decide (key ∈ m.(m_pairs)) then m
  else MkMerged ({[ key ]} ∪ m.(m_pairs)) (put_write m.(m_writes) (key, Some (u64_le height)))
         (absorb_at (absorb_at m.(m_profiles) (a, one_partner)) (b, one_partner)).

Definition merge (p : Planner) (fx : Effects) : Planner :=
  let m := foldl (merge_pair p.(p_ctx).(c_height))
    (MkMerged p.(p_pairs) (foldl put_write p.(p_writes) fx.(fx_writes)) (foldl absorb_at p.(p_profiles) fx.(fx_profiles)))
    fx.(fx_pairs) in
  MkPlanner p.(p_ctx) (list_to_set fx.(touches) ∪ p.(p_touched)) (bump p.(offers_by_maker) fx.(new_offer))
    (bump p.(pending_by_taker) fx.(new_pending)) m.(m_pairs) m.(m_writes) m.(m_profiles)
    (sat_add u64_max p.(escrow_in) fx.(fx_escrow_in)) (sat_add u64_max p.(escrow_out) fx.(fx_escrow_out))
    (sat_add u64_max p.(opened) fx.(fx_opened)) (sat_add u64_max p.(closed) fx.(fx_closed)) p.(admitted).

Definition add_admitted (p : Planner) (hash : string) : Planner :=
  MkPlanner p.(p_ctx) p.(p_touched) p.(offers_by_maker) p.(pending_by_taker) p.(p_pairs) p.(p_writes) p.(p_profiles)
    p.(escrow_in) p.(escrow_out) p.(opened) p.(closed) (p.(admitted) ++ [hash]).

(** [existing + in_block >= max]. *)
Definition over (max : nat) (m : gmap string nat) (k : option (string * nat)) : option string :=
  '(who, existing) ← k;
  if bool_decide (max <= existing + default 0 (m !! who))%nat then Some who else None.

Definition admit_tx (p : Planner) tx : result Planner Refusal :=
  let? fx := effects_of p.(p_ctx) tx in
  match fx with
  | None => Ok p
  | Some fx =>
      match List.find (fun t => bool_decide (t ∈ p.(p_touched))) fx.(touches) with
      | Some t => Err (Conflict (t +:+ " is already changed by another transaction in this block"))
      | None =>
          match over MAX_OPEN_OFFERS_PER_MAKER p.(offers_by_maker) fx.(new_offer) with
          | Some maker => Err (Conflict (maker +:+ " would pass 20 open offers in this block"))
          | None =>
              match over MAX_PENDING_TRADES_PER_TAKER p.(pending_by_taker) fx.(new_pending) with
              | Some taker => Err (Conflict (taker +:+ " would pass 5 trades waiting for a seller in this block"))
              | None => Ok (add_admitted (merge p fx) tx.(tx_hash))
              end
          end
      end
  end.

(** ** Finishing the plan *)

Definition finish_profile (db : Store) (writes : gmap bytes (option bytes)) (ad : string * Profile) : gmap bytes (option bytes) :=
  let '(addr, delta) := ad in
  let before := default profile_default (read (A := Profile) db (profile_key addr)) in
  let after := absorb before delta in
  if bool_decide (after = before) then writes
  else
    let writes := put_write writes (profile_key addr, Some (to_json after)) in
    if bool_decide (before.(completed) <> after.(completed)) then
      let writes :=
        if bool_decide (0 < before.(completed)) then put_write writes (leaderboard_key before.(completed) addr, None) else writes in
      if bool_decide (0 < after.(completed)) then put_write writes (leaderboard_key after.(completed) addr, Some []) else writes
    else writes.

Definition finish (p : Planner) : Plan :=
  let db := p.(p_ctx).(reader) in
  let writes := foldl (finish_profile db) p.(p_writes) (btree_map p.(p_profiles)) in
  let writes :=
    if bool_decide (0 < p.(escrow_in)) || bool_decide (0 < p.(escrow_out)) || bool_decide (0 < p.(opened)) ||
       bool_decide (0 < p.(closed)) then
      let totals := default totals_default (read (A := EscrowTotals) db ESCROW_KEY) in
      put_write writes (ESCROW_KEY, Some (to_json
        (MkEscrowTotals (sat_sub (sat_add u64_max totals.(held_uegoc) p.(escrow_in)) p.(escrow_out))
           (sat_sub (sat_add u64_max totals.(active_trades) p.(opened)) p.(closed)))))
    else writes in
  MkPlan writes [].

(** ** Blocks *)

(** [median]: the upper one of an even number. *)
Definition median (stamps : list Z) : Z := default 0 (stable_sort Z.leb stamps !! (length stamps / 2)%nat).

Definition chain_time (stamp : Z -> option Z) (height : Z) : Z :=
  let from := Z.max (sat_sub height CHAIN_TIME_WINDOW) 1 in
  median (omap stamp (seqZ from (height - from))).

(** [activation] is the height of [EGO_MARKET_HEIGHT], or else [ACTIVATION_HEIGHT]. *)
Definition rule_active (activation : option Z) (height : Z) : bool :=
  from_option (fun h => bool_decide (h <= height)) false activation.

Definition touches_market tx : bool := is_escrow_deposit tx || is_market_settle tx.

Definition admit_or_reject (pr : Planner * list string) tx : Planner * list string :=
  match admit_tx pr.1 tx with
  | Ok p => (p, pr.2)
  | Err _ => (pr.1, pr.2 ++ [tx.(tx_hash)])
  end.

Definition plan_block (db : Store) (stamp : Z -> option Z) (activation : option Z) (height : Z) (txs : list LedgerTx) : Plan :=
  let market := filter (fun tx => touches_market tx = true) txs in
  if bool_decide (market = []) then plan_default
  else if negb (rule_active activation height) then MkPlan ∅ (tx_hash <$> market)
  else
    let '(planner, rejected) :=
      foldl admit_or_reject (planner_new db height (chain_time stamp height), [])
        (stable_sort (fun a b => String.leb a.(tx_hash) b.(tx_hash)) market) in
    MkPlan (finish planner).(plan_writes) rejected.

Fixpoint admit_all (committed : string -> bool) (p : Planner) (txs : list LedgerTx) : result Planner string :=
  match txs with
  | [] => Ok p
  | tx :: txs =>
      if committed tx.(tx_hash) then admit_all committed p txs
      else
        match admit_tx p tx with
        | Ok p => admit_all committed p txs
        | Err r => Err ("market tx " +:+ tx.(tx_hash) +:+ " refused: " +:+ reason r)
        end
  end.

Definition validate_block_market_txs (db : Store) (stamp : Z -> option Z) (committed : string -> bool)
    (activation : option Z) (height : Z) (txs : list LedgerTx) : result unit string :=
  if negb (existsb touches_market txs) then Ok tt
  else if negb (rule_active activation height) then
    Err ("block " +:+ pretty height +:+ " carries market transactions but the P2P market is not active")
  else
    let? _ := admit_all committed (planner_new db height (chain_time stamp height)) (filter (fun tx => touches_market tx = true) txs) in
    Ok tt.

(** A transaction from the network: what is unknown here may be known at the tip. *)
Definition verify_incoming (db : Store) (stamp : Z -> option Z) (activation : option Z) (local_height network_tip : Z) tx
    : result unit string :=
  let height := sat_add u64_max local_height 1 in
  if negb (rule_active activation height) then Err "the P2P market is not active on this chain"
  else
    match admit_tx (planner_new db height (chain_time stamp height)) tx with
    | Ok _ => Ok tt
    | Err (Unknown e) => if bool_decide (local_height < network_tip) then Ok tt else Err e
    | Err r => Err (reason r)
    end.

(** [Violation::MarketEscrowMismatch]. *)
Record EscrowMismatch : Type := MkMismatch { mm_height : Z; mm_held_uegoc : Z; mm_on_chain_uegoc : Z }.

(** [check_invariants]: what it remembers of its last report, and what it reports. *)
Definition check_invariants (db : Store) (on_chain : Z) (height : Z) (last : option (Z * Z))
    : option (Z * Z) * list EscrowMismatch :=
  let totals := default totals_default (read (A := EscrowTotals) db ESCROW_KEY) in
  let pair := (totals.(held_uegoc), on_chain) in
  if bool_decide (totals.(held_uegoc) <> on_chain) then
    if bool_decide (last <> Some pair) then (Some pair, [MkMismatch height totals.(held_uegoc) on_chain]) else (last, [])
  else (None, []).

(** [settle_tx]. *)
Definition market_settle_tx (b : SettleBody) (trade : Trade) (timestamp : Z) : LedgerTx :=
  MkTx (settle_tx_hash b) MARKET_ESCROW_ADDR (payout_to trade b.(sb_outcome)) (settle_amount trade) None timestamp "" "Pending"
    None 0 "" "" "" TX_MARKET_SETTLE (settle_fee trade b.(sb_outcome)) 0 "" "" "" (string_of_bytes (to_json b)) "" "" 0
    MARKET_CHAIN_ID "" "" false "" "".
End Plan.

(** ** Writing a plan and taking it back *)

Record Journal : Type := MkJournal {
  prior : list (string * option string);
  j_rejected : list string;
}.
Definition journal_default : Journal := MkJournal [] [].

Section Journal.
Context `{ChainPrims} `{Json Journal}.

(** The entries of a plan, in the order of its [BTreeMap]. *)
Definition write_list (p : Plan) : list (bytes * option bytes) :=
  omap (fun k => pair k <$> p.(plan_writes) !! k) (sorted_keys p.(plan_writes)).

Definition journal_of (db : Store) (p : Plan) : Journal :=
  MkJournal ((fun kv => (hex_encode kv.1, hex_encode <$> db !! kv.1)) <$> write_list p) p.(rejected).

(** The journals at or below the finality floor, until the first above it. *)
Fixpoint old_journals (floor : Z) (keys : list bytes) : list bytes :=
  match keys with
  | [] => []
  | k :: keys =>
      if negb (has_prefix UNDO_PREFIX k) || bool_decide (length k < length UNDO_PREFIX + 8)%nat then []
      else if bool_decide (floor < from_le_bytes (reverse (take 8 (drop (length UNDO_PREFIX) k)))) then []
      else k :: old_journals floor keys
  end.

Definition keys_from (db : Store) (start : bytes) : list bytes := filter (fun k => key_leb start k = true) (sorted_keys db).

Definition prune_journals (db : Store) (floor : Z) : list (bytes * option bytes) :=
  if bool_decide (floor = 0) then [] else (fun k => (k, None)) <$> old_journals floor (keys_from db UNDO_PREFIX).

(** [apply_plan], with the batch written. *)
Definition apply_plan (db : Store) (floor height : Z) (p : Plan) : Store :=
  if plan_is_empty p then db
  else
    foldl batch_op db
      (write_list p ++ [(market_undo_key height, Some (to_json (journal_of db p)))] ++ prune_journals db floor).

Fixpoint while_prefix (prefix : bytes) (keys : list bytes) : list bytes :=
  match keys with
  | [] => []
  | k :: keys => if has_prefix prefix k then k :: while_prefix prefix keys else []
  end.

Definition journals_since (db : Store) (from_height : Z) : list (bytes * Journal) :=
  (fun k => (k, default journal_default (read (A := Journal) db k))) <$>
  while_prefix UNDO_PREFIX (keys_from db (market_undo_key from_height)).

Definition rejected_since (db : Store) (from_height : Z) : gset string :=
  list_to_set (concat (j_rejected <$> (journals_since db from_height).*2)).

Definition undo_op (e : string * option string) : list (bytes * option bytes) :=
  match hex_decode e.1 with
  | None => []
  | Some k => [(k, e.2 ≫= hex_decode)]
  end.

Definition undo_ops (kj : bytes * Journal) : list (bytes * option bytes) :=
  concat (undo_op <$> kj.2.(prior)) ++ [(kj.1, None)].

(** [rollback], with the batch written. *)
Definition rollback (db : Store) (from_height : Z) : Store :=
  foldl batch_op db (concat (undo_ops <$> reverse (journals_since db from_height))).
End Journal.
