(* ===== verification/MarketFacts.v ===== *)
(** * The market: keys and sums

    Which keys of the column hold trades and offers, and how a sum over the
    entries of a store follows the writes of a batch. *)
From S2P Require Import Prelude Crypto Ledger RuleText LedgerFacts Totals Balances MarketData MarketChecks MarketPlan.
Local Open Scope string_scope.
Local Open Scope list_scope.
Local Open Scope Z_scope.
Local Open Scope ego_scope.

(** ** Prefixes *)

Lemma has_prefix_app p q k : (length p <= length q)%nat -> has_prefix p (q ++ k) = has_prefix p q.
Proof. intros Hl. unfold has_prefix. by rewrite take_app_le. Qed.

Lemma has_prefix_self p k : has_prefix p (p ++ k) = true.
Proof. rewrite has_prefix_app by done. unfold has_prefix. rewrite take_ge by done. by apply bool_decide_eq_true_2. Qed.

Lemma has_prefix_inv p k : has_prefix p k = true -> exists r, k = p ++ r.
Proof.
  unfold has_prefix. intros Hp%bool_decide_eq_true_1. exists (drop (length p) k).
  rewrite <-Hp at 1. by rewrite take_drop.
Qed.

(** The keys of trades and of offers. *)
Definition is_trade_key (k : bytes) : bool := has_prefix (ascii_bytes TRADE_PREFIX) k.
Definition is_offer_key (k : bytes) : bool := has_prefix (ascii_bytes OFFER_PREFIX) k.

Definition is_totals_key (k : bytes) : bool := has_prefix (ascii_bytes "market:e") k.

(** Keys of other kinds. *)
Definition plain_key (k : bytes) : bool := negb (is_trade_key k) && negb (is_offer_key k) && negb (is_totals_key k).

Lemma plain_prefix q k :
  (9 <= length q)%nat -> plain_key q = true -> plain_key (q ++ k) = true.
Proof.
  intros Hl. unfold plain_key, is_trade_key, is_offer_key, is_totals_key. by rewrite !has_prefix_app by (cbn; lia).
Qed.

Ltac plain_by_prefix :=
  rewrite ?ascii_bytes_app, <-?(assoc_L (++)); apply plain_prefix; [cbn; lia|by vm_compute].

Lemma trade_key_is id : is_trade_key (trade_key id) = true.
Proof. unfold trade_key. rewrite ascii_bytes_app. apply has_prefix_self. Qed.
Lemma offer_key_is id : is_offer_key (offer_key id) = true.
Proof. unfold offer_key. rewrite ascii_bytes_app. apply has_prefix_self. Qed.
Lemma trade_key_no_offer id : is_offer_key (trade_key id) = false.
Proof. unfold trade_key, is_offer_key. rewrite ascii_bytes_app, has_prefix_app by (cbn; lia). by vm_compute. Qed.
Lemma offer_key_no_trade id : is_trade_key (offer_key id) = false.
Proof. unfold offer_key, is_trade_key. rewrite ascii_bytes_app, has_prefix_app by (cbn; lia). by vm_compute. Qed.

Lemma plain_profile a : plain_key (profile_key a) = true.
Proof. unfold profile_key. plain_by_prefix. Qed.
Lemma plain_feedback id r : plain_key (feedback_key id r) = true.
Proof. unfold feedback_key. plain_by_prefix. Qed.
Lemma plain_pair a b : plain_key (pair_key a b) = true.
Proof. unfold pair_key. case_match. plain_by_prefix. Qed.
Lemma plain_book a f s h id : plain_key (book_key a f s h id) = true.
Proof. unfold book_key, book_prefix. plain_by_prefix. Qed.
Lemma plain_maker_offer m id : plain_key (maker_offer_key m id) = true.
Proof. unfold maker_offer_key, maker_offers_prefix. plain_by_prefix. Qed.
Lemma plain_user_trade a h id : plain_key (user_trade_key a h id) = true.
Proof. unfold user_trade_key, user_trades_prefix. plain_by_prefix. Qed.
Lemma plain_arbiter_addr a : plain_key (arbiter_addr_key a) = true.
Proof. unfold arbiter_addr_key. plain_by_prefix. Qed.
Lemma plain_arbiter_case a h id : plain_key (arbiter_case_key a h id) = true.
Proof. unfold arbiter_case_key, arbiter_cases_prefix. plain_by_prefix. Qed.
Lemma plain_leaderboard n a : plain_key (leaderboard_key n a) = true.
Proof. unfold leaderboard_key, LEADERBOARD_PREFIX. plain_by_prefix. Qed.
Lemma plain_undo k : has_prefix UNDO_PREFIX k = true -> plain_key k = true.
Proof. intros [r ->]%has_prefix_inv. apply plain_prefix; [cbn; lia|by vm_compute]. Qed.
Lemma plain_undo_key h : plain_key (market_undo_key h) = true.
Proof. apply plain_undo. apply has_prefix_self. Qed.

Create HintDb market.
#[export] Hint Resolve trade_key_is offer_key_is plain_profile plain_feedback plain_pair plain_book plain_maker_offer
  plain_user_trade plain_arbiter_addr plain_arbiter_case plain_leaderboard plain_undo plain_undo_key : market.

Lemma plain_not_trade k : plain_key k = true -> is_trade_key k = false.
Proof. unfold plain_key. by intros [[?%negb_true_iff _]%andb_prop _]%andb_prop. Qed.
Lemma plain_not_offer k : plain_key k = true -> is_offer_key k = false.
Proof. unfold plain_key. by intros [[_ ?%negb_true_iff]%andb_prop _]%andb_prop. Qed.
Lemma plain_not_totals k : plain_key k = true -> k <> ESCROW_KEY.
Proof. by intros Hp ->. Qed.

Lemma marked_not_plain k : is_trade_key k = true \/ is_offer_key k = true \/ k = ESCROW_KEY -> plain_key k = false.
Proof. unfold plain_key. by intros [->|[->| ->]]; rewrite ?andb_false_r. Qed.

Lemma trade_key_not_totals id : trade_key id <> ESCROW_KEY.
Proof. intros E. pose proof (trade_key_is id) as Ht. by rewrite E in Ht. Qed.
Lemma offer_key_not_totals id : offer_key id <> ESCROW_KEY.
Proof. intros E. pose proof (offer_key_is id) as Ht. by rewrite E in Ht. Qed.

#[export] Instance trade_key_inj : Inj (=) (=) trade_key.
Proof. unfold trade_key. intros a b E. rewrite !ascii_bytes_app in E. apply (inj (app _)) in E. by apply ascii_bytes_inj. Qed.
#[export] Instance offer_key_inj : Inj (=) (=) offer_key.
Proof. unfold offer_key. intros a b E. rewrite !ascii_bytes_app in E. apply (inj (app _)) in E. by apply ascii_bytes_inj. Qed.

(** ** Sums over a store *)

(** What an entry, or none, counts for. *)
Definition counts (f : bytes -> bytes -> Z) (k : bytes) (ov : option bytes) : Z := from_option (f k) 0 ov.

Definition hsum (f : bytes -> bytes -> Z) (db : Store) : Z := zsum ((fun kv => f kv.1 kv.2) <$> map_to_list db).

(** What the writes [m] add to the sum over [db]. *)
Definition gain_of (f : bytes -> bytes -> Z) (db : Store) (kv : bytes * option bytes) : Z :=
  counts f kv.1 kv.2 - counts f kv.1 (db !! kv.1).
Definition gain (f : bytes -> bytes -> Z) (db : Store) (m : gmap bytes (option bytes)) : Z :=
  zsum (gain_of f db <$> map_to_list m).

Section Sums.
Variable f : bytes -> bytes -> Z.
Implicit Types (db : Store) (m : gmap bytes (option bytes)).

Lemma hsum_delete db k : hsum f (delete k db) = hsum f db - counts f k (db !! k).
Proof.
  destruct (db !! k) as [v|] eqn:E; cbn.
  - unfold hsum. rewrite (zsum_perm _ _ (fmap_Permutation (fun kv => f kv.1 kv.2) _ _ (symmetry (map_to_list_delete db k v E)))).
    rewrite fmap_cons, zsum_cons. cbn. lia.
  - rewrite delete_id by done. lia.
Qed.

Lemma hsum_insert db k v : hsum f (<[ k := v ]> db) = hsum f db - counts f k (db !! k) + f k v.
Proof.
  rewrite <-hsum_delete, <-insert_delete_eq. unfold hsum.
  rewrite (zsum_perm _ _ (fmap_Permutation (fun kv => f kv.1 kv.2) _ _
    (map_to_list_insert (delete k db) k v (lookup_delete_eq db k)))).
  rewrite fmap_cons, zsum_cons. cbn. lia.
Qed.

Lemma hsum_batch l db :
  NoDup l.*1 -> hsum f (foldl batch_op db l) = hsum f db + zsum (gain_of f db <$> l).
Proof.
  revert db. induction l as [|[k ov] l IH]; intros db Hnd; [cbn; lia|].
  apply NoDup_cons in Hnd as [Hk Hnd]. cbn [foldl fst] in *. rewrite IH by done.
  rewrite fmap_cons, zsum_cons.
  assert (gain_of f (batch_op db (k, ov)) <$> l = gain_of f db <$> l) as ->.
  { apply list_fmap_ext. intros i [k' ov'] Hi. unfold gain_of. cbn [fst snd]. f_equal. f_equal.
    assert (k <> k') by (intros ->; apply Hk, list_elem_of_fmap; exists (k', ov'); split; [done|by eapply list_elem_of_lookup_2]).
    unfold batch_op. cbn. destruct ov; [by rewrite lookup_insert_ne|by rewrite lookup_delete_ne]. }
  unfold gain_of at 2. unfold batch_op. cbn [fst snd].
  destruct ov; cbn [counts from_option]; [rewrite hsum_insert|rewrite hsum_delete]; lia.
Qed.

Lemma gain_empty db : gain f db ∅ = 0.
Proof. unfold gain. by rewrite map_to_list_empty. Qed.

Lemma gain_insert db m k ov : m !! k = None -> gain f db (<[ k := ov ]> m) = gain f db m + gain_of f db (k, ov).
Proof.
  intros E. unfold gain. rewrite (zsum_perm _ _ (fmap_Permutation (gain_of f db) _ _ (map_to_list_insert m k ov E))).
  rewrite fmap_cons, zsum_cons. lia.
Qed.

Lemma gain_put db m k ov :
  gain f db (<[ k := ov ]> m) = gain f db m - from_option (fun o => gain_of f db (k, o)) 0 (m !! k) + gain_of f db (k, ov).
Proof.
  destruct (m !! k) as [o|] eqn:E; cbn; [|rewrite gain_insert by done; lia].
  rewrite <-insert_delete_eq, gain_insert by apply lookup_delete_eq.
  rewrite <-(insert_id m k o E) at 2. rewrite <-insert_delete_eq, gain_insert by apply lookup_delete_eq. lia.
Qed.

Lemma gain_insert_zero db m k ov :
  (forall v, f k v = 0) -> gain f db (<[ k := ov ]> m) = gain f db m.
Proof.
  intros Hz. assert (Hg : forall o, gain_of f db (k, o) = 0).
  { intros o. unfold gain_of. cbn. destruct o, (db !! k); cbn; rewrite ?Hz; lia. }
  rewrite gain_put, Hg. destruct (m !! k); cbn; rewrite ?Hg; lia.
Qed.
End Sums.

Lemma hsum_nonneg f db : (forall k v, db !! k = Some v -> 0 <= f k v) -> 0 <= hsum f db.
Proof.
  intros Hf. apply zsum_nonneg, Forall_fmap, Forall_forall. intros [k v] Hin%elem_of_map_to_list. by apply Hf.
Qed.

(** ** The writes of a plan *)

Lemma write_list_keys p : (write_list p).*1 = sorted_keys p.(plan_writes).
Proof. apply (ov_entries_keys (MkOv ∅ p.(plan_writes))). Qed.

Lemma elem_of_write_list p k v : (k, v) ∈ write_list p <-> p.(plan_writes) !! k = Some v.
Proof. apply (elem_of_ov_entries (MkOv ∅ p.(plan_writes))). Qed.

Lemma write_list_perm p : write_list p ≡ₚ map_to_list p.(plan_writes).
Proof.
  apply NoDup_Permutation.
  - apply (NoDup_fmap_1 fst). rewrite write_list_keys. apply NoDup_sorted_keys.
  - apply NoDup_map_to_list.
  - intros [k v]. by rewrite elem_of_write_list, elem_of_map_to_list.
Qed.

(** The entry of a key after writes. *)
Definition after (db : Store) (m : gmap bytes (option bytes)) (k : bytes) : option bytes :=
  match m !! k with Some ov => ov | None => db !! k end.

Lemma written_lookup db (p : Plan) k : foldl batch_op db (write_list p) !! k = after db p.(plan_writes) k.
Proof.
  unfold after. destruct (p.(plan_writes) !! k) as [ov|] eqn:E.
  - apply batch_lookup_in; [rewrite write_list_keys; apply NoDup_sorted_keys|]. by apply elem_of_write_list.
  - apply batch_lookup_notin. intros v Hv%elem_of_write_list. congruence.
Qed.

Lemma old_journals_prefix floor ks k : k ∈ old_journals floor ks -> has_prefix UNDO_PREFIX k = true.
Proof.
  induction ks as [|k' ks IH]; cbn [old_journals]; [set_solver|]. destruct (_ || _) eqn:E; [set_solver|]. destruct (bool_decide (floor < _)); [set_solver|].
  intros [->|Hk]%elem_of_cons; [|auto]. by apply orb_false_iff in E as [?%negb_false_iff _].
Qed.
