(* ===== verification/MarketSteps.v ===== *)
(** * The market: the life of a trade

    The rules by which a trade may change, as a relation; and what the effects of
    an admitted transaction are: at most one trade or one offer is written, a
    trade only by one of the rules, and the coins that enter or leave the escrow
    are those the transaction moves. *)
From S2P Require Import Prelude Crypto Ledger RuleText LedgerFacts Totals Balances MarketData MarketChecks MarketPlan MarketFacts.
Local Open Scope string_scope.
Local Open Scope list_scope.
Local Open Scope Z_scope.
Local Open Scope ego_scope.

Ltac flags :=
  repeat match goal with
  | Hb : negb _ = true |- _ => apply negb_true_iff in Hb
  | Hb : negb _ = false |- _ => apply negb_false_iff in Hb
  | Hb : bool_decide _ = true |- _ => apply bool_decide_eq_true_1 in Hb
  | Hb : bool_decide _ = false |- _ => apply bool_decide_eq_false_1 in Hb
  | Hb : ~ (_ <> _) |- _ => apply dec_stable in Hb
  | Hb : _ || _ = false |- _ => apply orb_false_iff in Hb as [? ?]
  | Hb : _ && _ = true |- _ => apply andb_prop in Hb as [? ?]
  end.

(** Unfold an operation of the market that succeeded. *)
Ltac mk_cases :=
  repeat (progress op_cases ||
    match goal with
    | Hr : invalid _ = Ok _ |- _ => discriminate Hr
    | Hr : or_invalid ?r = Ok _ |- _ => destruct r eqn:?; cbn [or_invalid] in Hr
    end); flags.

(** ** Terms *)

(** What no rule changes of a trade. *)
Record same_terms (t t' : Trade) : Prop := {
  same_id : t'.(t_id) = t.(t_id);
  same_offer : t'.(t_offer_id) = t.(t_offer_id);
  same_maker : t'.(t_maker) = t.(t_maker);
  same_taker : t'.(t_taker) = t.(t_taker);
  same_seller : t'.(t_seller) = t.(t_seller);
  same_buyer : t'.(t_buyer) = t.(t_buyer);
  same_asset : t'.(t_asset) = t.(t_asset);
  same_amount : t'.(t_amount_micro) = t.(t_amount_micro);
  same_fee : t'.(t_maker_fee_micro) = t.(t_maker_fee_micro);
  same_locked : t'.(t_locked_micro) = t.(t_locked_micro);
  same_fiat : t'.(t_fiat_micro) = t.(t_fiat_micro);
  same_price : t'.(t_price_micro) = t.(t_price_micro);
  same_payout : t'.(t_buyer_payout) = t.(t_buyer_payout);
}.

#[export] Instance same_terms_preorder : PreOrder same_terms.
Proof. split; [by intros t|]. intros t u v [] []. split; congruence. Qed.

(** The parties and amounts of a trade: the maker's fee is on top of what a
    selling maker locks, and inside what a buying maker receives. *)
Record fair_terms (t : Trade) : Prop := {
  fair_amount : 1 <= t.(t_amount_micro) <= MAX_TRADE_MICRO;
  fair_fee : t.(t_maker_fee_micro) = trade_fee t.(t_asset) t.(t_amount_micro);
  fair_parties : t.(t_seller) <> t.(t_buyer);
  fair_locked :
    (t.(t_maker) = t.(t_seller) /\ t.(t_taker) = t.(t_buyer) /\
     t.(t_locked_micro) = t.(t_amount_micro) + t.(t_maker_fee_micro)) \/
    (t.(t_maker) = t.(t_buyer) /\ t.(t_taker) = t.(t_seller) /\ t.(t_locked_micro) = t.(t_amount_micro));
}.

Lemma fair_same t t' : same_terms t t' -> fair_terms t -> fair_terms t'.
Proof. intros [] []. split; congruence. Qed.

Lemma maker_fee_range n : 1 <= n <= MAX_TRADE_MICRO -> 1 <= maker_fee n <= n.
Proof.
  unfold maker_fee, MAX_TRADE_MICRO, MAKER_FEE_BPS, u64_max. intros Hn.
  assert (1 <= (n * 100 + 9999) / 10000 <= n).
  { split; [apply Z.div_le_lower_bound; lia|]. transitivity ((n * 10000 + 9999) / 10000); [apply Z.div_le_mono; lia|].
    rewrite Z.div_add_l by lia. change (9999 / 10000) with 0. lia. }
  rewrite Z.mod_small by lia. lia.
Qed.

Lemma trade_fee_range asset n : 1 <= n <= MAX_TRADE_MICRO -> 0 <= trade_fee asset n <= n.
Proof. intros Hn. pose proof (maker_fee_range n Hn). unfold trade_fee. case_match; lia. Qed.

Lemma fair_locked_range t :
  fair_terms t -> 1 <= t.(t_locked_micro) <= 2 * MAX_TRADE_MICRO /\ 0 <= t.(t_maker_fee_micro) <= t.(t_locked_micro).
Proof.
  intros [Ha Hf _ Hl]. pose proof (trade_fee_range t.(t_asset) _ Ha).
  destruct Hl as [(_ & _ & ->)|(_ & _ & ->)]; lia.
Qed.

(** ** The rules *)

Section Steps.
Context `{CryptoPrims} `{ChainPrims} `{MarketPrims} `{MarketJson}.
Implicit Types (c : Ctx) (tx : LedgerTx) (t : Trade).

(** An arbiter on the list who is neither party. *)
Definition impartial c t (a : string) : Prop := a ∈ c.(arbiters) /\ a <> t.(t_buyer) /\ a <> t.(t_seller).

(** Who may dispute, and when. *)
Definition may_dispute c t (r : Role) : Prop :=
  (t.(t_state) = Paid /\ (r = Buyer -> default i64_max (buyer_may_dispute_at t) <= c.(c_now))) \/
  (t_is_egoc t = false /\ t.(t_state) = Locked /\ r = Seller /\ overdue t c.(c_now) = true).

(** Who may end a trade, how, and when. *)
Inductive may_settle (now : Z) t : Outcome -> Role -> Prop :=
| seller_releases : in_escrow t = true -> may_settle now t Release Seller
| buyer_refunds : in_escrow t = true -> may_settle now t Refund Buyer
| arbiter_decides o : t.(t_state) = Disputed -> may_settle now t o Arbiter
| seller_reclaims :
    t_is_egoc t = true -> t.(t_state) = Locked -> default i64_max (payment_due_at t) <= now -> may_settle now t Refund Seller.

Inductive Step c tx : option Trade -> Trade -> Prop :=
| step_open offer t :
    tx.(tx_type) = TX_TRADE_OPEN -> c.(reader) !! trade_key tx.(tx_hash) = None ->
    offer_at c t.(t_offer_id) = Some offer -> is_open offer c.(c_now) = true ->
    t.(t_maker) = offer.(o_maker) -> t.(t_taker) = tx.(tx_from) -> fair_terms t ->
    t.(t_id) = tx.(tx_hash) -> t.(t_asset) = offer.(o_asset) ->
    offer.(o_min_micro) <= t.(t_amount_micro) <= offer.(o_max_micro) ->
    t.(t_state) = (if t_is_egoc t && bool_decide (t.(t_maker) = t.(t_buyer)) then Locked else AwaitingLock) ->
    (forall a, t.(t_arbiter) = Some a -> impartial c t a) ->
    Step c tx None t
| step_lock t escrow :
    tx.(tx_type) = TX_LOCK -> t.(t_state) = AwaitingLock -> c.(c_now) < lock_expires_at t -> tx.(tx_from) = t.(t_seller) ->
    Step c tx (Some t) (lock_trade t c.(c_now) escrow)
| step_cancel t r :
    tx.(tx_type) = TX_TRADE_CANCEL -> t.(t_state) = AwaitingLock -> role_of t tx.(tx_from) = Some r ->
    Step c tx (Some t) (cancel_trade t c.(c_now) c.(c_height) r)
| step_paid t :
    tx.(tx_type) = TX_PAID -> t.(t_state) = Locked -> tx.(tx_from) = t.(t_buyer) ->
    Step c tx (Some t) (pay_trade t c.(c_now))
| step_dispute t r why a :
    tx.(tx_type) = TX_DISPUTE -> role_of t tx.(tx_from) = Some r -> may_dispute c t r ->
    (t.(t_arbiter) = Some a \/ t.(t_arbiter) = None /\ impartial c t a) ->
    Step c tx (Some t) (dispute_trade t c.(c_now) r why a)
| step_settle t b signer :
    tx.(tx_type) = TX_MARKET_SETTLE -> check_settle_shape tx = Ok b -> b.(sb_trade_id) = t.(t_id) ->
    verify_auth b = Ok signer -> entitled t b.(sb_by) signer = true -> may_settle c.(c_now) t b.(sb_outcome) b.(sb_by) ->
    tx.(tx_to) = payout_to t b.(sb_outcome) -> tx.(fee_uegoc) = settle_fee t b.(sb_outcome) ->
    Step c tx (Some t) (settle_trade t b.(sb_outcome) c.(c_now) c.(c_height) b.(sb_by) tx.(tx_hash) b.(sb_native_sig)).

(** A trade that has ended. *)
Definition final t : bool := bool_decide (t.(t_state) ∈ [Cancelled; Released; Refunded]).

Lemma escrow_not_final t : in_escrow t = true -> final t = false.
Proof. unfold in_escrow, final. by destruct t.(t_state). Qed.

Lemma may_settle_escrow n t o r : may_settle n t o r -> in_escrow t = true.
Proof. intros [Hi|Hi|? Hs|_ Hs _]; [done|done|..]; unfold in_escrow; by rewrite Hs. Qed.

Lemma step_not_final c tx t t' : Step c tx (Some t) t' -> final t = false.
Proof.
  unfold final. intros Hs. inversion Hs as [|? ? ? E|? ? ? E|? ? E|? ? ? ? ? ? Hd|? ? ? ? ? ? ? ? Hm]; subst;
    [by rewrite E..| |].
  - by destruct Hd as [[-> _]|(_ & -> & _)].
  - eapply escrow_not_final, may_settle_escrow, Hm.
Qed.

Lemma step_terms c tx t t' : Step c tx (Some t) t' -> same_terms t t'.
Proof. intros Hs. inversion Hs; by split. Qed.

(** ** What the column holds *)

(** Trades and offers are under their own ids, no party is the escrow itself, and
    the terms of every trade are fair. *)
Record sound_column (db : Store) : Prop := {
  sound_trade k t :
    is_trade_key k = true -> read (A := Trade) db k = Some t ->
    k = trade_key t.(t_id) /\ fair_terms t /\ t.(t_seller) <> MARKET_ESCROW_ADDR /\ t.(t_buyer) <> MARKET_ESCROW_ADDR;
  sound_offer k o :
    is_offer_key k = true -> read (A := Offer) db k = Some o -> k = offer_key o.(o_id) /\ o.(o_maker) <> MARKET_ESCROW_ADDR;
}.

Lemma trade_found db id t :
  sound_column db -> read (A := Trade) db (trade_key id) = Some t ->
  t.(t_id) = id /\ fair_terms t /\ t.(t_seller) <> MARKET_ESCROW_ADDR /\ t.(t_buyer) <> MARKET_ESCROW_ADDR.
Proof. intros Hdb [Hk ?]%(sound_trade _ Hdb); [|apply trade_key_is]. by apply (inj trade_key) in Hk as ->. Qed.

Lemma offer_found db id o :
  sound_column db -> read (A := Offer) db (offer_key id) = Some o -> o.(o_id) = id /\ o.(o_maker) <> MARKET_ESCROW_ADDR.
Proof. intros Hdb [Hk ?]%(sound_offer _ Hdb); [|apply offer_key_is]. by apply (inj offer_key) in Hk as ->. Qed.

(** The coins a trade has in escrow on this chain. *)
Definition holds_coins t : bool := t_is_egoc t && in_escrow t.
Definition held_in t : Z := if holds_coins t then t.(t_locked_micro) else 0.
Definition active_in t : Z := Z.b2z (holds_coins t).

(** ** Effects *)

Definition plain_writes (ws : list (bytes * option bytes)) : Prop := Forall (fun kv => plain_key kv.1 = true) ws.

Inductive Shape c tx (fx : Effects) : Prop :=
| shape_trade id told tnew rest :
    told = trade_at c id -> (told = None -> c.(reader) !! trade_key id = None) -> tnew.(t_id) = id ->
    Step c tx told tnew -> fair_terms tnew ->
    tnew.(t_seller) <> MARKET_ESCROW_ADDR -> tnew.(t_buyer) <> MARKET_ESCROW_ADDR ->
    fx.(fx_writes) = (trade_key id, Some (to_json tnew)) :: rest -> plain_writes rest ->
    fx.(touches) = ["trade:" +:+ id] ->
    held_in tnew - from_option held_in 0 told = fx.(fx_escrow_in) - fx.(fx_escrow_out) ->
    active_in tnew - from_option active_in 0 told = fx.(fx_opened) - fx.(fx_closed) ->
    Shape c tx fx
| shape_offer id o pre rest :
    fx.(fx_writes) = pre ++ (offer_key id, Some (to_json o)) :: rest -> plain_writes pre -> plain_writes rest ->
    o.(o_id) = id -> o.(o_maker) <> MARKET_ESCROW_ADDR ->
    fx.(fx_escrow_in) = 0 -> fx.(fx_escrow_out) = 0 -> fx.(fx_opened) = 0 -> fx.(fx_closed) = 0 -> Shape c tx fx
| shape_other :
    plain_writes fx.(fx_writes) ->
    fx.(fx_escrow_in) = 0 -> fx.(fx_escrow_out) = 0 -> fx.(fx_opened) = 0 -> fx.(fx_closed) = 0 -> Shape c tx fx.

(** The effects of an admitted transaction. *)
Record Effected c tx (fx : Effects) : Prop := {
  eff_shape : Shape c tx fx;
  eff_in : fx.(fx_escrow_in) = (if is_market_settle tx then 0 else tx.(tx_amount));
  eff_out : fx.(fx_escrow_out) = (if is_market_settle tx then tx.(tx_amount) else 0);
  eff_opened : fx.(fx_opened) = if is_market_settle tx then 0 else fx.(fx_opened);
  eff_counts : 0 <= fx.(fx_opened) <= 1 /\ 0 <= fx.(fx_closed) <= 1;
  eff_pairs : Forall (fun p => plain_key p.1.1 = true) fx.(fx_pairs);
}.

Lemma not_reserved a : is_reserved_system_source a = false -> a <> MARKET_ESCROW_ADDR.
Proof. by intros Hr ->. Qed.

Lemma plain_nil : plain_writes [].
Proof. by apply Forall_nil. Qed.
Lemma plain_cons k v ws : plain_key k = true -> plain_writes ws -> plain_writes ((k, v) :: ws).
Proof. intros. by apply Forall_cons. Qed.
#[local] Hint Resolve plain_nil plain_cons : market.

Lemma known_trade_Ok c id t :
  sound_column c.(reader) -> known_trade c id = Ok t ->
  trade_at c id = Some t /\ t.(t_id) = id /\ fair_terms t /\
  t.(t_seller) <> MARKET_ESCROW_ADDR /\ t.(t_buyer) <> MARKET_ESCROW_ADDR.
Proof.
  intros Hdb Hk. unfold known_trade in Hk. mk_cases.
  match goal with E : trade_at c id = Some _ |- _ => rename E into Et end.
  destruct (trade_found _ _ _ Hdb Et) as (? & ? & ? & ?). done.
Qed.

(** An operation that rewrites one trade by a rule, keeping its terms. *)
Lemma moves_trade c tx fx id t t' rest :
  sound_column c.(reader) -> known_trade c id = Ok t -> Step c tx (Some t) t' ->
  fx.(fx_writes) = trade_write t' ++ rest -> plain_writes rest -> fx.(touches) = ["trade:" +:+ t.(t_id)] ->
  held_in t' - held_in t = fx.(fx_escrow_in) - fx.(fx_escrow_out) ->
  active_in t' - active_in t = fx.(fx_opened) - fx.(fx_closed) -> Shape c tx fx.
Proof.
  intros Hdb Hk Hs Hw Hr Ht Hh Ha. destruct (known_trade_Ok _ _ _ Hdb Hk) as (Et & <- & Hfair & Hse & Hbu).
  pose proof (step_terms _ _ _ _ Hs) as Hsame. rewrite <-(same_id _ _ Hsame) in Ht.
  eapply (shape_trade c tx fx t'.(t_id) (Some t) t' rest); try done.
  - by rewrite (same_id _ _ Hsame).
  - by eapply fair_same.
  - by rewrite (same_seller _ _ Hsame).
  - by rewrite (same_buyer _ _ Hsame).
Qed.

(** ** Each operation *)

Lemma offer_shape c tx fx :
  is_reserved_system_source tx.(tx_from) = false -> is_market_settle tx = false ->
  offer_effects c tx = Ok fx -> Effected c tx fx.
Proof.
  intros Hres Hset Hfx. unfold offer_effects in Hfx. cbn zeta in Hfx. mk_cases.
  split; rewrite ?Hset; cbn; [|lia..|by apply Forall_nil].
  eapply (shape_offer _ _ _ tx.(tx_hash) _ [_; _] []); cbn; [reflexivity|eauto with market..|].
  all: try done. by apply not_reserved.
Qed.

Lemma offer_close_shape c tx fx :
  sound_column c.(reader) -> is_market_settle tx = false -> offer_close_effects c tx = Ok fx -> Effected c tx fx.
Proof.
  intros Hdb Hset Hfx. unfold offer_close_effects in Hfx. mk_cases.
  split; rewrite ?Hset; cbn; [|lia..|by apply Forall_nil].
  match goal with E : offer_at c _ = Some ?o |- _ => destruct (offer_found _ _ _ Hdb E) as [Hid Hm];
    eapply (shape_offer _ _ _ o.(o_id) (close_offer o c.(c_height)) [] [_; _]) end; cbn; eauto with market.
Qed.

(** Who waits for the seller, may still be funded. *)
Lemma not_expired t n : t.(t_state) = AwaitingLock -> is_lock_expired t n = false -> n < lock_expires_at t.
Proof. intros Es. unfold is_lock_expired. rewrite Es. cbn. intros He%bool_decide_eq_false_1. lia. Qed.

Lemma in_escrow_state t : in_escrow t = match t.(t_state) with Locked | Paid | Disputed => true | _ => false end.
Proof. unfold in_escrow. by destruct t.(t_state). Qed.

(** How the coins in escrow follow the state. *)
Lemma escrow_change t t' :
  same_terms t t' ->
  held_in t' - held_in t =
    (if t_is_egoc t then (Z.b2z (in_escrow t') - Z.b2z (in_escrow t)) * t.(t_locked_micro) else 0) /\
  active_in t' - active_in t = if t_is_egoc t then Z.b2z (in_escrow t') - Z.b2z (in_escrow t) else 0.
Proof.
  intros Hs. unfold held_in, active_in, holds_coins. 
  assert (t_is_egoc t' = t_is_egoc t) as -> by (unfold t_is_egoc; by rewrite (same_asset _ _ Hs)).
  rewrite (same_locked _ _ Hs). destruct (t_is_egoc t), (in_escrow t), (in_escrow t'); cbn; lia.
Qed.

Ltac by_change t' :=
  match goal with
  | |- held_in ?u - _ = _ => rewrite (proj1 (escrow_change t' u ltac:(by split)))
  | |- active_in ?u - _ = _ => rewrite (proj2 (escrow_change t' u ltac:(by split)))
  end.
Ltac escrow_by t' :=
  by_change t'; rewrite !in_escrow_state; cbn [t_state lock_trade cancel_trade pay_trade dispute_trade];
  repeat match goal with E : t_state t' = _ |- _ => rewrite E end; destruct (t_is_egoc t') eqn:?; cbn; first [lia|congruence].

Lemma lock_shape c tx fx :
  sound_column c.(reader) -> is_market_settle tx = false -> tx.(tx_type) = TX_LOCK ->
  lock_effects c tx = Ok fx -> Effected c tx fx.
Proof.
  intros Hdb Hset Hty Hfx. unfold lock_effects in Hfx. mk_cases.
  all: match goal with Hk : known_trade _ _ = Ok ?t |- _ => rename t into t' end.
  all: split; rewrite ?Hset; cbn; [|lia..|by apply Forall_nil].
  all: eapply (moves_trade _ _ _ _ t' _ []); cbn; eauto using step_lock, not_expired with market; escrow_by t'.
Qed.

Lemma cancel_shape c tx fx :
  sound_column c.(reader) -> is_market_settle tx = false -> tx.(tx_type) = TX_TRADE_CANCEL ->
  cancel_effects c tx = Ok fx -> Effected c tx fx.
Proof.
  intros Hdb Hset Hty Hfx. unfold cancel_effects in Hfx. mk_cases.
  match goal with Hk : known_trade c _ = Ok ?t |- _ => rename t into t' end.
  split; rewrite ?Hset; cbn; [|lia..|by apply Forall_nil].
  eapply (moves_trade _ _ _ _ t' _ []); cbn; eauto using step_cancel with market; escrow_by t'.
Qed.

Lemma paid_shape c tx fx :
  sound_column c.(reader) -> is_market_settle tx = false -> tx.(tx_type) = TX_PAID ->
  paid_effects c tx = Ok fx -> Effected c tx fx.
Proof.
  intros Hdb Hset Hty Hfx. unfold paid_effects in Hfx. mk_cases.
  match goal with Hk : known_trade c _ = Ok ?t |- _ => rename t into t' end.
  split; rewrite ?Hset; cbn; [|lia..|by apply Forall_nil].
  eapply (moves_trade _ _ _ _ t' _ []); cbn; eauto using step_paid with market; escrow_by t'.
Qed.

(** The arbiter chosen is on the list and is neither party. *)
Lemma assign_impartial c t a payout : assign_arbiter c t = Some (a, payout) -> impartial c t a.
Proof.
  unfold assign_arbiter. intros Ha.
  assert (exists p, (a, p) ∈ arbiter_candidates c t) as [p Hin].
  { destruct (arbiter_candidates c t) as [|x l] eqn:E; [done|]. exists payout. by eapply list_elem_of_lookup_2. }
  unfold arbiter_candidates in Hin. apply list_elem_of_omap in Hin as (b & Hb & Hs).
  apply list_elem_of_filter in Hb as [[? ?] ?].
  assert (b = a) as ->.
  { destruct (bool_decide _); [congruence|]. destruct (read _ _); [cbn in Hs|done]. destruct (for_family _ _); cbn in Hs; congruence. }
  done.
Qed.

Lemma dispute_shape c tx fx :
  sound_column c.(reader) -> is_market_settle tx = false -> tx.(tx_type) = TX_DISPUTE ->
  dispute_effects c tx = Ok fx -> Effected c tx fx.
Proof.
  intros Hdb Hset Hty Hfx. unfold dispute_effects in Hfx. cbn zeta in Hfx. 
  apply result_bind_Ok in Hfx as (b & Hb & Hfx). destruct (negb _); [done|].
  apply result_bind_Ok in Hfx as (t & Hk & Hfx). apply result_bind_Ok in Hfx as (r & Hr & Hfx).
  destruct (_ && negb _) eqn:Hmay; [done|]. destruct (bool_decide (tx.(tx_amount) <> 0)) eqn:Hamt; [done|].
  destruct (_ && bool_decide (c.(c_now) < _)) eqn:Hwait; [done|].
  apply result_bind_Ok in Hfx as (a & Ha & Hfx). apply Ok_inj in Hfx as <-.
  destruct (role_of t _) as [r'|] eqn:Hrole; [apply Ok_inj in Hr as <-|done]. flags.
  assert (may_dispute c t r') as Hd.
  { apply andb_false_iff in Hmay as [Hst|Hno]; flags.
    - left. split; [done|]. intros ->. cbn in Hwait. apply bool_decide_eq_false_1 in Hwait. lia.
    - by right. }
  split; rewrite ?Hset; cbn; [|lia..|by apply Forall_nil].
  assert (t.(t_state) = Paid \/ t.(t_state) = Locked) as Hst by (destruct Hd as [[? _]|(_ & ? & _)]; auto).
  eapply (moves_trade _ _ _ _ t (dispute_trade t c.(c_now) r' b.(db_reason) a) [_]); cbn; [done|done| |reflexivity|eauto with market..].
  - apply step_dispute; [done..|]. destruct (t_arbiter t); [apply Ok_inj in Ha as ->; by left|right].
    split; [done|]. destruct (assign_arbiter c t) as [[a' p]|] eqn:E; [|done]. apply Ok_inj in Ha as <-. by eapply assign_impartial.
  - destruct Hst; escrow_by t.
  - destruct Hst; escrow_by t.
Qed.

Lemma feedback_shape c tx fx : is_market_settle tx = false -> feedback_effects c tx = Ok fx -> Effected c tx fx.
Proof.
  intros Hset Hfx. unfold feedback_effects in Hfx. cbn zeta in Hfx. mk_cases.
  split; rewrite ?Hset; cbn; [|lia..|by apply Forall_nil]. apply shape_other; cbn; auto with market.
Qed.

Lemma arbiter_shape c tx fx : is_market_settle tx = false -> arbiter_effects c tx = Ok fx -> Effected c tx fx.
Proof.
  intros Hset Hfx. unfold arbiter_effects in Hfx. cbn zeta in Hfx. mk_cases.
  split; rewrite ?Hset; cbn; [|lia..|by apply Forall_nil]. apply shape_other; cbn; auto with market.
Qed.

Lemma settle_allowed_may t n o r : settle_allowed t n o r = Ok true -> may_settle n t o r.
Proof.
  unfold settle_allowed. destruct o, r; try done; intros Ha.
  - apply Ok_inj in Ha. by constructor.
  - apply Ok_inj, bool_decide_eq_true_1 in Ha. by constructor.
  - apply Ok_inj in Ha. by constructor.
  - mk_cases. constructor; [done..|]. lia.
  - apply Ok_inj, bool_decide_eq_true_1 in Ha. by constructor.
Qed.

Lemma settle_shape c tx fx :
  sound_column c.(reader) -> is_market_settle tx = true -> settle_effects c tx = Ok fx -> Effected c tx fx.
Proof.
  intros Hdb Hset Hfx. unfold settle_effects in Hfx. cbn zeta in Hfx. mk_cases.
  all: match goal with Hk : known_trade _ _ = Ok ?t |- _ => rename t into t', Hk into Hk' end.
  all: match goal with Hs : settle_allowed _ _ _ _ = Ok ?a |- _ => destruct a; [|done]; apply settle_allowed_may in Hs; rename Hs into Hm end.
  split; rewrite ?Hset; cbn; [| |unfold settle_amount in *; by symmetry| |case_match; lia|].
  - assert (tx.(tx_type) = TX_MARKET_SETTLE) as Hty.
    { match goal with Hc : check_settle_shape tx = Ok _ |- _ => unfold check_settle_shape in Hc; mk_cases; done end. }
    pose proof (may_settle_escrow _ _ _ _ Hm) as Hi. destruct (known_trade_Ok _ _ _ Hdb Hk') as (_ & Hid & _).
    eapply (moves_trade _ _ _ _ t' _ []); cbn; eauto using step_settle, plain_nil.
    + by_change t'. rewrite Hi, in_escrow_state. cbn [t_state settle_trade].
      match goal with |- context [sb_outcome ?b] => destruct (sb_outcome b), (t_is_egoc t'); cbn; lia end.
    + by_change t'. rewrite Hi, in_escrow_state. cbn [t_state settle_trade].
      match goal with |- context [sb_outcome ?b] => destruct (sb_outcome b), (t_is_egoc t'); cbn; lia end.
  - done.
  - done.
  - unfold settle_pairs. case_match; [|by apply Forall_nil]. apply Forall_singleton. cbn. apply plain_pair.
Qed.

(** ** Opening a trade *)

Lemma asset_info_in a info : asset_info a = Some info -> info ∈ ASSETS /\ info.(a_id) = a.
Proof. intros [Hin Ha%bool_decide_eq_true_1]%List.find_some. by rewrite list_elem_of_In. Qed.

(** Only EGOC is of this chain. *)
Lemma asset_family a info : asset_info a = Some info -> bool_decide (info.(a_family) = Ego) = is_egoc a.
Proof.
  intros [Hin <-]%asset_info_in. revert info Hin. apply Forall_forall.
  apply (bool_decide_eq_true_1 _). by vm_compute.
Qed.

Lemma trade_limits_range a : 1 <= (trade_limits a).1 /\ (trade_limits a).2 <= MAX_TRADE_MICRO.
Proof.
  unfold trade_limits. destruct (is_egoc a); [by vm_compute|]. split; [|done]. cbn [fst].
  destruct (asset_info a) as [info|] eqn:E; [|done]. apply asset_info_in in E as [Hin _]. cbn. revert info Hin.
  apply Forall_forall. apply (bool_decide_eq_true_1 _). by vm_compute.
Qed.

Lemma check_terms_Ok offer b u :
  check_terms offer b = Ok u ->
  offer.(o_min_micro) <= b.(to_amount_micro) <= offer.(o_max_micro) /\ 1 <= b.(to_amount_micro) <= MAX_TRADE_MICRO.
Proof.
  pose proof (trade_limits_range offer.(o_asset)) as Hr. unfold check_terms.
  destruct (trade_limits _) as [lo hi]. cbn in Hr. intros Hc. destruct (_ || _) eqn:E; [done|]. flags. lia.
Qed.

Lemma with_arbiter_terms t a p : same_terms t (with_arbiter t a p).
Proof. by split. Qed.

(** The trade as it is built, before and after the choice of its arbiter. *)
Lemma arbiter_choice c t egoc msg t' :
  match assign_arbiter c t with
  | Some (arbiter, payout) => Ok (with_arbiter t (Some arbiter) payout)
  | None => if negb egoc then invalid msg else Ok t
  end = Ok t' -> t.(t_arbiter) = None ->
  same_terms t t' /\ t'.(t_state) = t.(t_state) /\ (forall a, t'.(t_arbiter) = Some a -> impartial c t' a).
Proof.
  intros Ht Hn. destruct (assign_arbiter c t) as [[a p]|] eqn:E.
  - apply Ok_inj in Ht as <-. split_and!; [by apply with_arbiter_terms|done|]. intros a' [= <-]. by eapply assign_impartial in E.
  - mk_cases. split_and!; [done|done|congruence].
Qed.

Lemma parties_sides offer b tx fee seller buyer sk bk locked :
  parties offer b tx fee = (seller, buyer, sk, bk, locked) ->
  0 <= fee <= b.(to_amount_micro) -> b.(to_amount_micro) <= MAX_TRADE_MICRO ->
  (offer.(o_side) = Sell /\ seller = offer.(o_maker) /\ buyer = tx.(tx_from) /\ locked = b.(to_amount_micro) + fee) \/
  (offer.(o_side) = Buy /\ seller = tx.(tx_from) /\ buyer = offer.(o_maker) /\ locked = b.(to_amount_micro)).
Proof.
  unfold parties, sat_add, MAX_TRADE_MICRO, u64_max. intros Hp Hf Hm.
  destruct offer.(o_side); injection Hp as <- <- _ _ <-; [left|right]; split_and!; lia || done.
Qed.

(** A trade that is new counts what it enters with. *)
Lemma shape_opened c tx fx t rest :
  c.(reader) !! trade_key t.(t_id) = None -> Step c tx None t -> fair_terms t ->
  t.(t_seller) <> MARKET_ESCROW_ADDR -> t.(t_buyer) <> MARKET_ESCROW_ADDR ->
  fx.(fx_writes) = (trade_key t.(t_id), Some (to_json t)) :: rest -> plain_writes rest ->
  fx.(touches) = ["trade:" +:+ t.(t_id)] -> held_in t = fx.(fx_escrow_in) -> active_in t = fx.(fx_opened) ->
  fx.(fx_escrow_out) = 0 -> fx.(fx_closed) = 0 -> Shape c tx fx.
Proof.
  intros Hn. intros. eapply (shape_trade c tx fx t.(t_id) None t rest); try done; [|cbn; lia..].
  unfold trade_at, read. by rewrite Hn.
Qed.

Lemma trade_open_shape c tx fx :
  sound_column c.(reader) -> is_market_settle tx = false -> tx.(tx_type) = TX_TRADE_OPEN ->
  is_reserved_system_source tx.(tx_from) = false -> trade_open_effects c tx = Ok fx -> Effected c tx fx.
Proof.
  intros Hdb Hset Hty Hres Hfx. unfold trade_open_effects in Hfx.
  apply result_bind_Ok in Hfx as (b & _ & Hfx). destruct (negb _) eqn:Hid; [done|]. destruct (negb (valid_method _)); [done|].
  apply result_bind_Ok in Hfx as (offer & Ho & Hfx). destruct (offer_at c _) as [offer'|] eqn:Hoff; [|done].
  apply Ok_inj in Ho as ->. destruct (negb (is_open _ _)) eqn:Hopen; [done|]. destruct (bool_decide (tx_from tx = _)) eqn:Hown; [done|].
  apply result_bind_Ok in Hfx as (info & Hi & Hfx). destruct (asset_info _) as [info'|] eqn:Hinfo; [|done].
  apply Ok_inj in Hi as ->. apply result_bind_Ok in Hfx as (u & Hterms & Hfx). cbn zeta in Hfx.
  destruct (bool_decide (is_Some _)) eqn:Hnew; [done|].
  apply check_terms_Ok in Hterms as [Hlim Hrange]. pose proof (trade_fee_range offer.(o_asset) _ Hrange) as Hfee.
  rewrite (asset_family _ _ Hinfo) in Hfx. destruct (offer_found _ _ _ Hdb Hoff) as [Hoid Hmk]. flags.
  assert (c.(reader) !! trade_key tx.(tx_hash) = None) as Hnone by (by apply eq_None_not_Some).
  destruct (parties _ _ _ _) as [[[[seller buyer] sk] bk] locked] eqn:Hp.
  apply result_bind_Ok in Hfx as (payout & _ & Hfx). destruct (bool_decide (tx_amount tx <> _)) eqn:Hamt; [done|].
  apply result_bind_Ok in Hfx as (t & Ht & Hfx). apply arbiter_choice in Ht as (Hsame & Hst & Harb); [|done].
  apply parties_sides in Hp; [|lia..]. apply not_reserved in Hres as Hfrom. cbn [t_state] in Hst.
  destruct Hsame as [Eid Eoff Emk Etk Ese Ebu Eas Eam Efe Elo Efi Epr _].
  cbn in Eid, Eoff, Emk, Etk, Ese, Ebu, Eas, Eam, Efe, Elo, Efi, Epr. rewrite <-Eid in Hnone, Hfx.
  assert (t_is_egoc t = is_egoc offer.(o_asset)) as Eeg by (unfold t_is_egoc; by rewrite Eas).
  assert (bool_decide (offer.(o_side) = Buy) = bool_decide (t.(t_maker) = t.(t_buyer))) as Eside.
  { rewrite Emk, Ebu. apply bool_decide_ext. destruct Hp as [(-> & _ & -> & _)|(-> & _ & -> & _)]; naive_solver. }
  assert (fair_terms t) as Hfair.
  { split; [by rewrite Eam|by rewrite Efe, Eas, Eam|rewrite Ese, Ebu|rewrite Emk, Ese, Etk, Ebu, Elo, Eam, Efe];
      destruct Hp as [(_ & -> & -> & ->)|(_ & -> & -> & ->)]; auto. }
  rewrite <-Eeg in Hst, Hamt, Hfx.
  assert (Step c tx None t) as Hstep.
  { apply (step_open _ _ offer); [done|by rewrite <-Eid|by rewrite Eoff, Hoid|done|done|done|done|done|done|by rewrite Eam| |done].
    by rewrite <-Eside. }
  assert (t.(t_seller) <> MARKET_ESCROW_ADDR /\ t.(t_buyer) <> MARKET_ESCROW_ADDR) as [Hns Hnb].
  { rewrite Ese, Ebu. destruct Hp as [(_ & -> & -> & _)|(_ & -> & -> & _)]; done. }
  destruct (t_is_egoc t && bool_decide (offer.(o_side) = Buy)) eqn:Estate.
  - change (bool_decide (Locked = Locked)) with true in *. cbn in Hamt, Hfx. apply Ok_inj in Hfx as <-. flags.
    split; rewrite ?Hset; cbn; [|lia..|by apply Forall_nil].
    eapply (shape_opened c tx _ t); cbn; try done; [eauto with market|..];
      unfold held_in, active_in, holds_coins; rewrite in_escrow_state, Hst; flags;
      by match goal with E : t_is_egoc t = true |- _ => rewrite E end.
  - change (bool_decide (AwaitingLock = Locked)) with false in *. cbn in Hamt, Hfx. mk_cases.
    split; rewrite ?Hset; cbn; [|lia..|by apply Forall_nil].
    eapply (shape_opened c tx _ t); cbn; try done; [eauto with market|..];
      unfold held_in, active_in, holds_coins; rewrite in_escrow_state, Hst, andb_false_r; done.
Qed.

(** ** Every transaction *)

Lemma signed_source tx u : check_signed_shape tx = Ok u -> is_reserved_system_source tx.(tx_from) = false.
Proof. intros Hc. unfold check_signed_shape in Hc. mk_cases; done. Qed.

Lemma signed_op tx u : check_signed_shape tx = Ok u -> tx.(tx_type) ∈ SIGNED_OPS.
Proof. intros Hc. unfold check_signed_shape in Hc. mk_cases; done. Qed.

(** What the market does for a transaction it admits. *)
Lemma effects_shape c tx fx :
  sound_column c.(reader) -> effects_of c tx = Ok (Some fx) -> Effected c tx fx.
Proof.
  intros Hdb Hfx. unfold effects_of in Hfx. destruct (is_market_settle tx) eqn:Hset.
  { apply result_bind_Ok in Hfx as (fx' & Hfx' & [= <-]). by apply settle_shape. }
  destruct (is_escrow_deposit tx); [|done]. apply result_bind_Ok in Hfx as (fx' & Hfx' & [= <-]).
  unfold signed_effects in Hfx'. apply result_bind_Ok in Hfx' as (u & Hsh & Hfx').
  destruct (check_signed_shape tx) as [[]|] eqn:Hsig; [|done]. pose proof (signed_source _ _ Hsig) as Hsrc.
  repeat (destruct (bool_decide (tx.(tx_type) = _)) eqn:? in Hfx'; flags); eauto using offer_shape, offer_close_shape,
    trade_open_shape, lock_shape, cancel_shape, paid_shape, dispute_shape, feedback_shape, arbiter_shape.
  done.
Qed.

(** A transaction is the market's when it has effects, and only then. *)
Lemma effects_touches c tx fx : effects_of c tx = Ok (Some fx) -> touches_market tx = true.
Proof.
  unfold effects_of, touches_market. destruct (is_market_settle tx); [intros _; apply orb_true_r|].
  destruct (is_escrow_deposit tx); done.
Qed.

Lemma touches_effects c tx r : touches_market tx = true -> effects_of c tx = Ok r -> exists fx, r = Some fx.
Proof.
  unfold effects_of, touches_market. intros Ht Hr. destruct (is_market_settle tx), (is_escrow_deposit tx); try done;
    apply result_bind_Ok in Hr as (fx & _ & [= <-]); by exists fx.
Qed.
End Steps.
