(* ===== verification/MarketRuns.v ===== *)
(** * The market: runs of the planner

    A run of the planner as the list of transactions it admitted; what the run
    says of the planner's writes and totals; and that whether a run exists does
    not depend on the order of the transactions. *)
From S2P Require Import Prelude Crypto Ledger RuleText LedgerFacts Totals Balances MarketData MarketChecks MarketPlan MarketFacts MarketSteps.
Local Open Scope string_scope.
Local Open Scope list_scope.
Local Open Scope Z_scope.
Local Open Scope ego_scope.

(** ** Writes of other kinds *)

(** A sum that counts trades, offers or totals only. *)
Definition marked (f : bytes -> bytes -> Z) : Prop := forall k v, plain_key k = true -> f k v = 0.

(** [m'] is [m] with writes at plain keys. *)
Definition plain_more (m m' : gmap bytes (option bytes)) : Prop :=
  (forall k, plain_key k = false -> m' !! k = m !! k) /\
  (forall f db, marked f -> gain f db m' = gain f db m).

#[export] Instance plain_more_preorder : PreOrder plain_more.
Proof.
  split; [by split|]. intros m1 m2 m3 [H1 H2] [H3 H4]. split.
  - intros k Hk. by rewrite H3, H1.
  - intros f db Hf. by rewrite H4, H2.
Qed.

Lemma plain_put m k v : plain_key k = true -> plain_more m (put_write m (k, v)).
Proof.
  intros Hk. split.
  - intros k' Hk'. unfold put_write. cbn. rewrite lookup_insert_ne; [done|congruence].
  - intros f db Hf. apply gain_insert_zero. intros w. by apply Hf.
Qed.

Lemma plain_more_put m m' k v :
  plain_key k = false -> plain_more m m' -> plain_more (put_write m (k, v)) (put_write m' (k, v)).
Proof.
  intros Hk [Hl Hg]. unfold put_write. cbn. split.
  - intros k' Hk'. destruct (decide (k = k')) as [->|]; [by rewrite !lookup_insert_eq|]. rewrite !lookup_insert_ne by done. by apply Hl.
  - intros f db Hf. by rewrite !gain_put, Hg, Hl.
Qed.

Lemma plain_puts ws m : plain_writes ws -> plain_more m (foldl put_write m ws).
Proof.
  intros Hw. revert m. induction Hw as [|[k v] ws Hk Hw IH]; intros m; [done|]. cbn [foldl].
  etrans; [by apply plain_put|apply IH].
Qed.

Lemma plain_pairs h ps m :
  Forall (fun p => plain_key p.1.1 = true) ps -> plain_more m.(m_writes) (foldl (merge_pair h) m ps).(m_writes).
Proof.
  intros Hp. revert m. induction Hp as [|[[k a] b] ps Hk Hp IH]; intros m; [done|]. cbn [foldl].
  etrans; [|apply IH]. unfold merge_pair. case_bool_decide; [done|]. by apply plain_put.
Qed.

Section Runs.
Context `{CryptoPrims} `{ChainPrims} `{MarketPrims} `{MarketJson}.
Implicit Types (c : Ctx) (tx : LedgerTx) (p : Planner) (l : list (LedgerTx * Effects)).

Lemma plain_finish_profiles db ads m : plain_more m (foldl (finish_profile db) m ads).
Proof.
  revert m. induction ads as [|[a d] ads IH]; intros m; [done|]. cbn [foldl]. etrans; [|apply IH].
  unfold finish_profile. repeat case_bool_decide; try done;
    repeat (etrans; [|apply plain_put, plain_leaderboard]); apply plain_put, plain_profile.
Qed.

(** ** Runs *)

Definition planner_at c : Planner := MkPlanner c ∅ ∅ ∅ ∅ ∅ ∅ 0 0 0 0 [].

Inductive Run c : list (LedgerTx * Effects) -> Planner -> Prop :=
| run_nil : Run c [] (planner_at c)
| run_snoc l p tx fx :
    Run c l p -> effects_of c tx = Ok (Some fx) -> (forall t, t ∈ fx.(touches) -> t ∉ p.(p_touched)) ->
    over MAX_OPEN_OFFERS_PER_MAKER p.(offers_by_maker) fx.(new_offer) = None ->
    over MAX_PENDING_TRADES_PER_TAKER p.(pending_by_taker) fx.(new_pending) = None ->
    Run c (l ++ [(tx, fx)]) (add_admitted (merge p fx) tx.(tx_hash)).

Lemma run_ctx c l p : Run c l p -> p.(p_ctx) = c.
Proof. induction 1 as [|l p tx fx _ IH]; [done|exact IH]. Qed.

Lemma run_effects c l p : Run c l p -> Forall (fun e => effects_of c e.1 = Ok (Some e.2)) l.
Proof. induction 1 as [|l p tx fx _ IH Hfx]; [by apply Forall_nil|]. apply Forall_app. split; [done|]. by apply Forall_singleton. Qed.

Lemma run_touched c l p : Run c l p -> p.(p_touched) = list_to_set (concat (touches <$> l.*2)).
Proof.
  induction 1 as [|l p tx fx _ IH]; [done|]. cbn. rewrite !fmap_app, concat_app. cbn. rewrite app_nil_r, IH.
  apply leibniz_equiv_iff. set_solver.
Qed.

Lemma run_touches c l p tx fx s : Run c l p -> (tx, fx) ∈ l -> s ∈ fx.(touches) -> s ∈ p.(p_touched).
Proof.
  intros Hrun Hin Hs. rewrite (run_touched _ _ _ Hrun), elem_of_list_to_set. clear Hrun.
  induction l as [|[tx' fx'] l IH]; [set_solver|]. cbn. apply elem_of_app.
  apply elem_of_cons in Hin as [[= <- <-]|Hin]; auto.
Qed.

(** What [find] does not find. *)
Lemma find_none_iff {A} (P : A -> bool) (ts : list A) : List.find P ts = None <-> (forall t, t ∈ ts -> P t = false).
Proof.
  split.
  - intros Hf t Ht. eapply List.find_none in Hf; [done|by apply list_elem_of_In].
  - intros Hf. destruct (List.find _ ts) as [t|] eqn:E; [|done]. apply List.find_some in E as [Ht%list_elem_of_In Hd].
    rewrite Hf in Hd; done.
Qed.

Lemma admit_run c l p tx p' :
  Run c l p -> touches_market tx = true -> admit_tx p tx = Ok p' -> exists fx, Run c (l ++ [(tx, fx)]) p'.
Proof.
  intros Hrun Ht Ha. unfold admit_tx in Ha. rewrite (run_ctx _ _ _ Hrun) in Ha.
  apply result_bind_Ok in Ha as (r & Hr & Ha). destruct (touches_effects c tx r Ht Hr) as [fx ->].
  destruct (List.find _ _) eqn:Hf; [done|]. rewrite find_none_iff in Hf.
  destruct (over _ _ (new_offer fx)) eqn:Ho; [done|]. destruct (over _ _ (new_pending fx)) eqn:Hp; [done|].
  apply Ok_inj in Ha as <-. exists fx. apply run_snoc; try done.
  intros t Hin. eapply bool_decide_eq_false_1, Hf, Hin.
Qed.

(** ** Totals of a run *)

Definition total_of (f : Effects -> Z) l : Z := zsum (f <$> l.*2).

Lemma total_app f l l' : total_of f (l ++ l') = total_of f l + total_of f l'.
Proof. unfold total_of. by rewrite !fmap_app, zsum_app. Qed.

Lemma total_one f tx fx : total_of f [(tx, fx)] = f fx.
Proof. unfold total_of. cbn. lia. Qed.

Lemma sat_add_min m a b : 0 <= b -> sat_add m (Z.min m a) b = Z.min m (a + b).
Proof. unfold sat_add. lia. Qed.

Lemma run_sat c l p :
  Run c l p -> Forall (fun e => 0 <= e.2.(fx_escrow_in) /\ 0 <= e.2.(fx_escrow_out) /\ 0 <= e.2.(fx_opened) /\ 0 <= e.2.(fx_closed)) l ->
  p.(escrow_in) = Z.min u64_max (total_of fx_escrow_in l) /\ p.(escrow_out) = Z.min u64_max (total_of fx_escrow_out l) /\
  p.(opened) = Z.min u64_max (total_of fx_opened l) /\ p.(closed) = Z.min u64_max (total_of fx_closed l) /\
  0 <= total_of fx_escrow_in l /\ 0 <= total_of fx_escrow_out l /\ 0 <= total_of fx_opened l /\ 0 <= total_of fx_closed l.
Proof.
  induction 1 as [|l p tx fx _ IH]; intros Hpos; [by vm_compute|].
  apply Forall_app in Hpos as [Hpos (? & ? & ? & ?)%Forall_singleton]. destruct (IH Hpos) as (E1 & E2 & E3 & E4 & ?).
  rewrite !total_app, !total_one. cbn [fst snd add_admitted merge escrow_in escrow_out opened closed] in *.
  rewrite E1, E2, E3, E4, !sat_add_min by done. split_and!; try done; lia.
Qed.

(** ** Sums over trades *)

Definition tsum (f : Trade -> Z) (k v : bytes) : Z :=
  if is_trade_key k then from_option f 0 (result_ok (from_json v)) else 0.

(** The coins in escrow and the number of trades that hold them. *)
Definition held (db : Store) : Z := hsum (tsum held_in) db.
Definition active (db : Store) : Z := hsum (tsum active_in) db.

Lemma tsum_marked f : marked (tsum f).
Proof. intros k v Hk. unfold tsum. by rewrite plain_not_trade. Qed.

Lemma tsum_trade f db id : counts (tsum f) (trade_key id) (db !! trade_key id) = from_option f 0 (read db (trade_key id)).
Proof. unfold counts, read, tsum. destruct (db !! trade_key id); cbn; [|done]. by rewrite trade_key_is. Qed.

Lemma tsum_new f `{!JsonRoundTrip Trade} id t : tsum f (trade_key id) (to_json t) = f t.
Proof. unfold tsum. by rewrite trade_key_is, from_to_json. Qed.

Lemma tsum_offer f id v : tsum f (offer_key id) v = 0.
Proof. unfold tsum. by rewrite offer_key_no_trade. Qed.

Lemma held_in_nonneg t : fair_terms t -> 0 <= held_in t.
Proof. intros Hf. destruct (fair_locked_range t Hf). unfold held_in. case_match; lia. Qed.

Lemma hsum_tsum_nonneg f db :
  sound_column db -> (forall t, fair_terms t -> 0 <= f t) -> 0 <= hsum (tsum f) db.
Proof.
  intros Hdb Hf. apply hsum_nonneg. intros k v Hk. unfold tsum. destruct (is_trade_key k) eqn:Et; [|done].
  destruct (from_json v) as [t|] eqn:Ev; [|done]. cbn. apply Hf.
  assert (read (A := Trade) db k = Some t) as Hr by (unfold read; rewrite Hk; cbn; by rewrite Ev).
  by destruct (sound_trade _ Hdb _ _ Et Hr) as (_ & ? & _).
Qed.

(** Less in the column keeps it sound. *)
Lemma sound_sub (db db' : Store) : db' ⊆ db -> sound_column db -> sound_column db'.
Proof.
  intros Hsub Hdb. assert (Hread : forall A `{Json A} k (a : A), read db' k = Some a -> read db k = Some a).
  { intros A HA k a. unfold read. destruct (db' !! k) eqn:E; [|done]. by rewrite (lookup_weaken _ _ _ _ E Hsub). }
  split; intros k x Hk Hr%Hread; [by apply (sound_trade _ Hdb)|by apply (sound_offer _ Hdb)].
Qed.

Lemma deletes_sub (ks : list bytes) (db : Store) : foldl batch_op db ((fun k => (k, None)) <$> ks) ⊆ db.
Proof.
  revert db. induction ks as [|k ks IH]; intros db; [done|]. cbn [fmap list_fmap foldl]. etrans; [apply IH|apply delete_subseteq].
Qed.

(** Distinct trades hold no more than the whole. *)
Lemma some_held db (ids : list string) :
  sound_column db -> NoDup ids -> zsum ((fun id => from_option held_in 0 (read db (trade_key id))) <$> ids) <= held db.
Proof.
  intros Hdb Hnd. pose proof (hsum_tsum_nonneg held_in _ (sound_sub _ _ (deletes_sub (trade_key <$> ids) db) Hdb) held_in_nonneg) as Hsub.
  rewrite <-list_fmap_compose, hsum_batch in Hsub by (rewrite <-list_fmap_compose; by apply (NoDup_fmap_2 trade_key)).
  fold (held db) in Hsub. enough (zsum (gain_of (tsum held_in) db <$> ((fun k => (k, None)) ∘ trade_key <$> ids)) =
    - zsum ((fun id => from_option held_in 0 (read db (trade_key id))) <$> ids)) by lia.
  clear. induction ids as [|id ids IH]; [done|]. rewrite !fmap_cons, !zsum_cons, IH.
  unfold gain_of. cbn [compose fst snd]. rewrite tsum_trade. cbn. lia.
Qed.

(** ** The writes of a run *)

Context `{!JsonRoundTrip Trade} `{!JsonRoundTrip Offer}.

(** A trade that the run wrote, and by which rule. *)
Record Wrote c l (t : Trade) (tx : LedgerTx) (fx : Effects) : Prop := {
  wrote_in : (tx, fx) ∈ l;
  wrote_new : trade_at c t.(t_id) = None -> c.(reader) !! trade_key t.(t_id) = None;
  wrote_step : Step c tx (trade_at c t.(t_id)) t;
  wrote_fair : fair_terms t;
  wrote_parties : t.(t_seller) <> MARKET_ESCROW_ADDR /\ t.(t_buyer) <> MARKET_ESCROW_ADDR;
  wrote_touch : fx.(touches) = ["trade:" +:+ t.(t_id)];
}.

Record Wrote_offer (k : bytes) (o : Offer) : Prop := {
  wrote_offer_key : k = offer_key o.(o_id);
  wrote_offer_maker : o.(o_maker) <> MARKET_ESCROW_ADDR;
}.

Record RunInv c l p : Prop := {
  ri_trade k ov : is_trade_key k = true -> p.(p_writes) !! k = Some ov ->
    exists t tx fx, ov = Some (to_json t) /\ k = trade_key t.(t_id) /\ Wrote c l t tx fx;
  ri_offer k ov : is_offer_key k = true -> p.(p_writes) !! k = Some ov ->
    exists o, ov = Some (to_json o) /\ Wrote_offer k o;
  ri_totals : p.(p_writes) !! ESCROW_KEY = None;
  ri_held : gain (tsum held_in) c.(reader) p.(p_writes) = total_of fx_escrow_in l - total_of fx_escrow_out l;
  ri_active : gain (tsum active_in) c.(reader) p.(p_writes) = total_of fx_opened l - total_of fx_closed l;
  ri_out : exists ids, NoDup ids /\ (forall id, id ∈ ids -> "trade:" +:+ id ∈ p.(p_touched)) /\
    total_of fx_escrow_out l <= zsum ((fun id => from_option held_in 0 (trade_at c id)) <$> ids);
}.

Lemma wrote_more c l e t tx fx : Wrote c l t tx fx -> Wrote c (l ++ [e]) t tx fx.
Proof. intros []. split; set_solver. Qed.

(** The writes of [merge]: those of the effects, then plain ones. *)
Lemma merge_writes p fx :
  Forall (fun q => plain_key q.1.1 = true) fx.(fx_pairs) ->
  plain_more (foldl put_write p.(p_writes) fx.(fx_writes)) (merge p fx).(p_writes).
Proof. intros Hp. unfold merge. cbn [p_writes]. etrans; [|by apply plain_pairs]. done. Qed.

Lemma step_inv_plain c l p tx fx :
  RunInv c l p -> plain_more p.(p_writes) (merge p fx).(p_writes) ->
  fx.(fx_escrow_in) = 0 -> fx.(fx_escrow_out) = 0 -> fx.(fx_opened) = 0 -> fx.(fx_closed) = 0 ->
  RunInv c (l ++ [(tx, fx)]) (add_admitted (merge p fx) tx.(tx_hash)).
Proof.
  intros [Ht Ho Hz Hh Ha (ids & Hnd & Hin & Hle)] [Hl Hg] E1 E2 E3 E4. split; cbn [p_writes add_admitted p_touched].
  - intros k ov Hk. rewrite Hl by (apply marked_not_plain; auto). intros (t & tx' & fx' & ? & ? & ?)%Ht; [|done].
    exists t, tx', fx'. eauto using wrote_more.
  - intros k ov Hk. rewrite Hl by (apply marked_not_plain; auto). by apply Ho.
  - by rewrite Hl by (apply marked_not_plain; auto).
  - rewrite Hg by apply tsum_marked. rewrite !total_app, !total_one. lia.
  - rewrite Hg by apply tsum_marked. rewrite !total_app, !total_one. lia.
  - exists ids. rewrite total_app, total_one. split_and!; [done| |lia]. intros id Hid%Hin. cbn. set_solver.
Qed.

Lemma step_inv_offer c l p tx fx id o :
  RunInv c l p -> plain_more (put_write p.(p_writes) (offer_key id, Some (to_json o))) (merge p fx).(p_writes) ->
  o.(o_id) = id -> o.(o_maker) <> MARKET_ESCROW_ADDR ->
  fx.(fx_escrow_in) = 0 -> fx.(fx_escrow_out) = 0 -> fx.(fx_opened) = 0 -> fx.(fx_closed) = 0 ->
  RunInv c (l ++ [(tx, fx)]) (add_admitted (merge p fx) tx.(tx_hash)).
Proof.
  intros [Ht Ho Hz Hh Ha (ids & Hnd & Hin & Hle)] [Hl Hg] Hid Hmk E1 E2 E3 E4.
  assert (forall f, gain (tsum f) c.(reader) (merge p fx).(p_writes) = gain (tsum f) c.(reader) p.(p_writes)) as Hsame.
  { intros f. rewrite Hg by apply tsum_marked. apply gain_insert_zero. intros. apply tsum_offer. }
  unfold put_write in *. cbn [fst snd] in *. split; cbn [p_writes add_admitted p_touched].
  - intros k ov Hk. rewrite Hl by (apply marked_not_plain; auto).
    rewrite lookup_insert_ne by (intros <-; by rewrite offer_key_no_trade in Hk).
    intros (t & tx' & fx' & ? & ? & ?)%Ht; [|done]. exists t, tx', fx'. eauto using wrote_more.
  - intros k ov Hk. rewrite Hl by (apply marked_not_plain; auto).
    intros [[<- <-]|[_ Hr]]%lookup_insert_Some; [|by apply Ho]. exists o. split; [done|]. split; [by rewrite Hid|done].
  - rewrite Hl by (apply marked_not_plain; auto). by rewrite lookup_insert_ne by apply offer_key_not_totals.
  - rewrite Hsame, !total_app, !total_one. lia.
  - rewrite Hsame, !total_app, !total_one. lia.
  - exists ids. rewrite total_app, total_one. split_and!; [done| |lia]. intros id' Hid'%Hin. cbn. set_solver.
Qed.

Lemma step_inv_trade c l p tx fx id t :
  sound_column c.(reader) -> RunInv c l p -> Run c l p ->
  plain_more (put_write p.(p_writes) (trade_key id, Some (to_json t))) (merge p fx).(p_writes) ->
  (forall s, s ∈ fx.(touches) -> s ∉ p.(p_touched)) ->
  t.(t_id) = id -> Wrote c (l ++ [(tx, fx)]) t tx fx ->
  held_in t - from_option held_in 0 (trade_at c id) = fx.(fx_escrow_in) - fx.(fx_escrow_out) ->
  active_in t - from_option active_in 0 (trade_at c id) = fx.(fx_opened) - fx.(fx_closed) ->
  (fx.(fx_escrow_in) = 0 \/ fx.(fx_escrow_out) = 0) ->
  RunInv c (l ++ [(tx, fx)]) (add_admitted (merge p fx) tx.(tx_hash)).
Proof.
  intros Hdb [Ht Ho Hz Hh Ha (ids & Hnd & Hin & Hle)] Hrun [Hl Hg] Hfresh <- Hw Eh Ea Eio.
  assert (Hnew : "trade:" +:+ t.(t_id) ∉ p.(p_touched)) by (apply Hfresh; rewrite (wrote_touch _ _ _ _ _ Hw); set_solver).
  assert (Hnone : p.(p_writes) !! trade_key t.(t_id) = None).
  { destruct (p.(p_writes) !! trade_key t.(t_id)) as [ov|] eqn:E; [|done].
    apply Ht in E as (t' & tx' & fx' & _ & Hk & Hw'); [|apply trade_key_is]. apply (inj trade_key) in Hk.
    destruct Hnew. apply (run_touches _ _ _ _ _ _ Hrun (wrote_in _ _ _ _ _ Hw')).
    rewrite (wrote_touch _ _ _ _ _ Hw'), Hk. set_solver. }
  assert (Hsum : forall f, gain (tsum f) c.(reader) (merge p fx).(p_writes) =
    gain (tsum f) c.(reader) p.(p_writes) + (f t - from_option f 0 (trade_at c t.(t_id)))).
  { intros f. rewrite Hg by apply tsum_marked. unfold put_write. cbn [fst snd]. rewrite gain_insert by done. f_equal.
    unfold gain_of. cbn [fst snd]. rewrite tsum_trade. cbn. by rewrite tsum_new. }
  unfold put_write in *. cbn [fst snd] in *. split; cbn [p_writes add_admitted p_touched].
  - intros k ov Hk. rewrite Hl by (apply marked_not_plain; auto).
    intros [[<- <-]|[_ (t' & tx' & fx' & ? & ? & ?)%Ht]]%lookup_insert_Some; [by exists t, tx, fx| |done].
    exists t', tx', fx'. eauto using wrote_more.
  - intros k ov Hk. rewrite Hl by (apply marked_not_plain; auto).
    rewrite lookup_insert_ne by (intros <-; by rewrite trade_key_no_offer in Hk). by apply Ho.
  - rewrite Hl by (apply marked_not_plain; auto). by rewrite lookup_insert_ne by apply trade_key_not_totals.
  - rewrite Hsum, !total_app, !total_one. lia.
  - rewrite Hsum, !total_app, !total_one. lia.
  - exists (t.(t_id) :: ids). rewrite total_app, total_one, fmap_cons, zsum_cons. split_and!.
    + apply NoDup_cons. split; [|done]. intros Hi%Hin. done.
    + intros id [->|Hid%Hin]%elem_of_cons; cbn; rewrite (wrote_touch _ _ _ _ _ Hw); set_solver.
    + pose proof (held_in_nonneg t (wrote_fair _ _ _ _ _ Hw)).
      assert (0 <= from_option held_in 0 (trade_at c t.(t_id))).
      { destruct (trade_at c t.(t_id)) as [t0|] eqn:E; [|done]. cbn. apply held_in_nonneg.
        by destruct (trade_found _ _ _ Hdb E) as (_ & ? & _). }
      lia.
Qed.

Lemma run_inv c l p : sound_column c.(reader) -> Run c l p -> RunInv c l p.
Proof.
  intros Hdb. induction 1 as [|l p tx fx Hrun IH Hfx Hfresh _ _].
  { split; cbn; try done; try (by rewrite gain_empty).
    exists []. split_and!; [constructor|set_solver|done]. }
  destruct (effects_shape _ _ _ Hdb Hfx) as [Hsh Hi Ho _ _ Hp]. pose proof (merge_writes p fx Hp) as Hmw.
  assert (fx.(fx_escrow_in) = 0 \/ fx.(fx_escrow_out) = 0) as Hio by (destruct (is_market_settle tx); auto).
  destruct Hsh as [id told t rest -> Hn Hid Hs Hf Hse Hbu Hw Hr Ht Eh Ea|id o pre rest Hw Hpre Hr Hid Hmk ? ? ? ?|Hw ? ? ? ?].
  - eapply (step_inv_trade c l p tx fx id t); try done.
    + rewrite Hw in Hmw. cbn [foldl] in Hmw. etrans; [by apply plain_puts|exact Hmw].
    + subst id. split; try done. set_solver.
  - eapply (step_inv_offer c l p tx fx id o); try done.
    rewrite Hw, foldl_app in Hmw. cbn [foldl] in Hmw. etrans; [|exact Hmw]. etrans; [|by apply plain_puts].
    apply plain_more_put; [apply marked_not_plain; right; left; apply offer_key_is|]. by apply plain_puts.
  - apply step_inv_plain; try done. etrans; [by apply plain_puts|exact Hmw].
Qed.

(** ** The planner makes runs *)

Lemma fold_run c txs : forall l p rej p' rej',
  Forall (fun tx => touches_market tx = true) txs -> Run c l p ->
  foldl admit_or_reject (p, rej) txs = (p', rej') ->
  exists l' refused, Run c (l ++ l') p' /\ txs ≡ₚ l'.*1 ++ refused /\ rej' = rej ++ (tx_hash <$> refused).
Proof.
  induction txs as [|tx txs IH]; intros l p rej p' rej' Htx Hrun Hf.
  { injection Hf as <- <-. exists [], []. by rewrite !app_nil_r. }
  apply Forall_cons in Htx as [Ht Htx]. cbn [foldl] in Hf. unfold admit_or_reject at 2 in Hf. cbn [fst snd] in Hf.
  destruct (admit_tx p tx) as [p1|r] eqn:Ha.
  - destruct (admit_run _ _ _ _ _ Hrun Ht Ha) as [fx Hrun1].
    destruct (IH _ _ _ _ _ Htx Hrun1 Hf) as (l' & refused & Hr & Hp & ->).
    exists ((tx, fx) :: l'), refused. split_and!; [by rewrite cons_middle, (assoc_L (++))| |done]. cbn. by rewrite Hp.
  - destruct (IH _ _ _ _ _ Htx Hrun Hf) as (l' & refused & Hr & Hp & ->).
    exists l', (tx :: refused). split_and!; [done| |by rewrite fmap_cons, <-(assoc_L (++))].
    rewrite Hp. by apply Permutation_middle.
Qed.

(** The context in which [plan_block] judges. *)
Definition ctx_at (db : Store) (stamp : Z -> option Z) (height : Z) : Ctx :=
  MkCtx db height (chain_time stamp height) (arbiters_at height).

(** What [plan_block] plans: a run over some of the market's transactions, the
    others rejected. *)
Lemma plan_block_run db stamp activation height txs :
  let plan := plan_block db stamp activation height txs in
  exists l p refused,
    Run (ctx_at db stamp height) l p /\ l.*1 ++ refused ≡ₚ filter (fun tx => touches_market tx = true) txs /\
    plan.(plan_writes) = (finish p).(plan_writes) /\ plan.(rejected) = tx_hash <$> refused.
Proof.
  set (c := ctx_at db stamp height). unfold plan_block. set (market := filter _ txs).
  assert (finish_nil : (finish (planner_at c)).(plan_writes) = ∅) by reflexivity.
  case_bool_decide as Hm.
  { exists [], (planner_at c), []. rewrite Hm. split_and!; [constructor|done..]. }
  destruct (rule_active activation height); cbn [negb].
  2: { exists [], (planner_at c), market. split_and!; [constructor|done..]. }
  set (sorted := stable_sort _ market). assert (Hs : sorted ≡ₚ market) by apply stable_sort_perm.
  destruct (foldl admit_or_reject _ sorted) as [p rej] eqn:E.
  destruct (fold_run c sorted [] (planner_at c) [] p rej) as (l & refused & Hr & Hp & ->); [|constructor|exact E|].
  { apply Forall_forall. intros tx. rewrite Hs. subst market. intros [? _]%list_elem_of_filter. done. }
  exists l, p, refused. split_and!; [done|by rewrite <-Hp|done..].
Qed.
End Runs.

(** ** The market: order

    Which transactions can be admitted together does not depend on the order in
    which they are judged, so what [validate_block_market_txs] accepts,
    [plan_block] admits. *)

Section Order.
Context `{CryptoPrims} `{ChainPrims} `{MarketPrims} `{MarketJson}.
Implicit Types (c : Ctx) (tx : LedgerTx) (p : Planner) (l : list (LedgerTx * Effects)).

(** ** What effects depend on *)

(** One thing is touched, and the counts are those of the column. *)
Record Simple c (fx : Effects) : Prop := {
  simple_touch : exists s, fx.(touches) = [s];
  simple_offer w n : fx.(new_offer) = Some (w, n) -> n = open_offer_count c w;
  simple_pending w n : fx.(new_pending) = Some (w, n) -> n = pending_count c w;
}.

Ltac simple_effects := split; cbn [touches new_offer new_pending]; [by eexists|by intros ?? [= <- <-]..].

Lemma trade_open_simple c tx fx : trade_open_effects c tx = Ok fx -> Simple c fx.
Proof.
  intros Hfx. unfold trade_open_effects in Hfx. cbn zeta in Hfx. mk_cases. 
  all: destruct (parties _ _ _ _) as [[[[? ?] ?] ?] ?]; mk_cases; simple_effects.
Qed.

Lemma effects_simple c tx fx : effects_of c tx = Ok (Some fx) -> Simple c fx.
Proof.
  intros Hfx. unfold effects_of in Hfx. destruct (is_market_settle tx).
  { apply result_bind_Ok in Hfx as (fx' & Hfx & [= <-]). unfold settle_effects in Hfx. cbn zeta in Hfx. mk_cases. simple_effects. }
  destruct (is_escrow_deposit tx); [|done]. apply result_bind_Ok in Hfx as (fx' & Hfx & [= <-]).
  unfold signed_effects in Hfx. apply result_bind_Ok in Hfx as (u & _ & Hfx).
  repeat (case_bool_decide; [first [by eapply trade_open_simple|
    unfold offer_effects, offer_close_effects, lock_effects, cancel_effects, paid_effects, dispute_effects, feedback_effects,
      arbiter_effects in Hfx; cbn zeta in Hfx; mk_cases; simple_effects]|]).
  done.
Qed.

(** ** Transactions that go together *)

Definition cnt (sel : Effects -> option (string * nat)) l (w : string) : nat :=
  length (filter (fun e => fst <$> sel e.2 = Some w) l).

(** No one passes the limit with all of the list. *)
Definition within (max : nat) (sel : Effects -> option (string * nat)) l : Prop :=
  forall e w n, e ∈ l -> sel e.2 = Some (w, n) -> (n + cnt sel l w <= max)%nat.

Record Compat c l : Prop := {
  cp_effects : Forall (fun e => effects_of c e.1 = Ok (Some e.2)) l;
  cp_touches : NoDup (concat (touches <$> l.*2));
  cp_offers : within MAX_OPEN_OFFERS_PER_MAKER new_offer l;
  cp_pending : within MAX_PENDING_TRADES_PER_TAKER new_pending l;
}.

Lemma cnt_perm sel l l' w : l ≡ₚ l' -> cnt sel l w = cnt sel l' w.
Proof. intros Hp. unfold cnt. by rewrite Hp. Qed.

Lemma cnt_app sel l l' w : cnt sel (l ++ l') w = (cnt sel l w + cnt sel l' w)%nat.
Proof. unfold cnt. by rewrite filter_app, length_app. Qed.

Lemma concat_perm {A} (l l' : list (list A)) : l ≡ₚ l' -> concat l ≡ₚ concat l'.
Proof.
  induction 1 as [|x l l' _ IH|x y l|l1 l2 l3 _ IH1 _ IH2]; cbn; [done|by rewrite IH| |by rewrite IH1].
  rewrite !(assoc_L (++)). by rewrite (Permutation_app_comm y x).
Qed.

#[export] Instance compat_perm c : Proper ((≡ₚ) ==> iff) (Compat c).
Proof.
  assert (forall l l', l ≡ₚ l' -> Compat c l -> Compat c l') as Himp; [|intros l l' Hp; split; by apply Himp].
  intros l l' Hp [Hfx Ht Ho Hpe]. split.
  - by rewrite <-Hp.
  - by rewrite <-(concat_perm _ _ (fmap_Permutation touches _ _ (fmap_Permutation snd _ _ Hp))).
  - intros e w n He. rewrite <-Hp in He. rewrite <-(cnt_perm _ _ _ _ Hp). by apply Ho.
  - intros e w n He. rewrite <-Hp in He. rewrite <-(cnt_perm _ _ _ _ Hp). by apply Hpe.
Qed.

Lemma within_app max sel l l' : within max sel (l ++ l') -> within max sel l.
Proof. intros Hw e w n He Hs. specialize (Hw e w n ltac:(set_solver) Hs). rewrite cnt_app in Hw. lia. Qed.

Lemma compat_app c l l' : Compat c (l ++ l') -> Compat c l.
Proof.
  intros [Hfx Ht Ho Hp]. split; [by apply Forall_app in Hfx as []| |by eapply within_app..].
  rewrite fmap_app, fmap_app, concat_app in Ht. by apply NoDup_app in Ht as [].
Qed.

(** ** Runs are over transactions that go together *)

Lemma bump_at (m : gmap string nat) k w :
  default 0%nat (bump m k !! w) = (default 0 (m !! w) + if bool_decide (fst <$> k = Some w) then 1 else 0)%nat.
Proof.
  destruct k as [[k n]|]; cbn; [|rewrite bool_decide_eq_false_2 by done; lia].
  destruct (decide (k = w)) as [->|Hne].
  - rewrite lookup_insert_eq, bool_decide_eq_true_2 by done. cbn. lia.
  - rewrite lookup_insert_ne, bool_decide_eq_false_2 by congruence. lia.
Qed.

Lemma cnt_one sel e w : cnt sel [e] w = if bool_decide (fst <$> sel e.2 = Some w) then 1%nat else 0%nat.
Proof. unfold cnt. rewrite filter_cons, filter_nil. case_decide; case_bool_decide; done. Qed.

Lemma run_counts c l p w :
  Run c l p -> default 0%nat (p.(offers_by_maker) !! w) = cnt new_offer l w /\
  default 0%nat (p.(pending_by_taker) !! w) = cnt new_pending l w.
Proof.
  induction 1 as [|l p tx fx _ [IH1 IH2]]; [done|]. cbn [add_admitted merge offers_by_maker pending_by_taker].
  by rewrite !bump_at, IH1, IH2, !cnt_app, !cnt_one.
Qed.

(** The test of [over], for a count that is the same for all of one person. *)
Lemma over_iff max m k (f : string -> nat) :
  (forall w n, k = Some (w, n) -> n = f w) ->
  over max m k = None <-> (forall w n, k = Some (w, n) -> (n + S (default 0 (m !! w)) <= max)%nat).
Proof.
  intros Hf. destruct k as [[w n]|]; cbn; [|by split]. case_bool_decide as Hd; split; try done.
  - intros Hn. specialize (Hn w n eq_refl). lia.
  - intros _ w' n' [= <- <-]. lia.
Qed.

Lemma within_snoc max sel l e (f : string -> nat) :
  Forall (fun e => forall w n, sel e.2 = Some (w, n) -> n = f w) (l ++ [e]) ->
  within max sel (l ++ [e]) <-> within max sel l /\ (forall w n, sel e.2 = Some (w, n) -> (n + S (cnt sel l w) <= max)%nat).
Proof.
  rewrite Forall_app, Forall_singleton, Forall_forall. intros [Hfl Hfe]. split.
  - intros Hw. split; [by eapply within_app|]. intros w n Hs. specialize (Hw e w n ltac:(set_solver) Hs).
    rewrite cnt_app, cnt_one, Hs, bool_decide_eq_true_2 in Hw by done. lia.
  - intros [Hl He] e' w n [Hin| ->%list_elem_of_singleton]%elem_of_app Hs; rewrite cnt_app, cnt_one; case_bool_decide as Hd.
    + apply fmap_Some in Hd as ([w' n'] & Es & ->). cbn [fst] in *. pose proof (He _ _ Es).
      pose proof (Hfe _ _ Es). pose proof (Hfl _ Hin _ _ Hs). lia.
    + specialize (Hl _ _ _ Hin Hs). lia.
    + specialize (He _ _ Hs). lia.
    + by rewrite Hs in Hd.
Qed.

Lemma concat_touches_snoc l tx fx s :
  fx.(touches) = [s] ->
  NoDup (concat (touches <$> (l ++ [(tx, fx)]).*2)) <-> NoDup (concat (touches <$> l.*2)) /\ s ∉ concat (touches <$> l.*2).
Proof. intros Hs. rewrite !fmap_app, concat_app. cbn. rewrite Hs. cbn. rewrite NoDup_app. pose proof (NoDup_singleton s). set_solver. Qed.

Lemma compat_snoc c l tx fx p :
  Run c l p -> Compat c (l ++ [(tx, fx)]) <->
    Compat c l /\ effects_of c tx = Ok (Some fx) /\ (forall t, t ∈ fx.(touches) -> t ∉ p.(p_touched)) /\
    over MAX_OPEN_OFFERS_PER_MAKER p.(offers_by_maker) fx.(new_offer) = None /\
    over MAX_PENDING_TRADES_PER_TAKER p.(pending_by_taker) fx.(new_pending) = None.
Proof.
  intros Hrun. pose proof (run_effects _ _ _ Hrun) as Hl.
  assert (Hsim : effects_of c tx = Ok (Some fx) -> Forall (fun e => Simple c e.2) (l ++ [(tx, fx)])).
  { intros Hfx. apply Forall_app. split; [|apply Forall_singleton; exact (effects_simple _ _ _ Hfx)].
    eapply Forall_impl; [exact Hl|]. intros e He. exact (effects_simple _ _ _ He). }
  assert (Hcore : effects_of c tx = Ok (Some fx) ->
    (NoDup (concat (touches <$> (l ++ [(tx, fx)]).*2)) <->
       NoDup (concat (touches <$> l.*2)) /\ (forall t, t ∈ fx.(touches) -> t ∉ p.(p_touched))) /\
    (within MAX_OPEN_OFFERS_PER_MAKER new_offer (l ++ [(tx, fx)]) <->
       within MAX_OPEN_OFFERS_PER_MAKER new_offer l /\ over MAX_OPEN_OFFERS_PER_MAKER p.(offers_by_maker) fx.(new_offer) = None) /\
    (within MAX_PENDING_TRADES_PER_TAKER new_pending (l ++ [(tx, fx)]) <->
       within MAX_PENDING_TRADES_PER_TAKER new_pending l /\ over MAX_PENDING_TRADES_PER_TAKER p.(pending_by_taker) fx.(new_pending) = None)).
  { intros Hfx. specialize (Hsim Hfx). destruct (effects_simple _ _ _ Hfx) as [[s Hs] Ho Hp]. split_and!.
    - rewrite (concat_touches_snoc l tx fx s Hs), (run_touched _ _ _ Hrun), Hs. setoid_rewrite elem_of_list_to_set. set_solver.
    - rewrite (within_snoc _ _ _ _ (open_offer_count c)), (over_iff _ _ _ (open_offer_count c)); [|done|].
      + by setoid_rewrite (fun w => proj1 (run_counts _ _ _ w Hrun)).
      + eapply Forall_impl; [exact Hsim|]. intros e []. eauto.
    - rewrite (within_snoc _ _ _ _ (pending_count c)), (over_iff _ _ _ (pending_count c)); [|done|].
      + by setoid_rewrite (fun w => proj2 (run_counts _ _ _ w Hrun)).
      + eapply Forall_impl; [exact Hsim|]. intros e []. eauto. }
  split.
  - intros [Hall Ht Ho Hp]. rewrite Forall_app, Forall_singleton in Hall. destruct Hall as [_ Hfx]. cbn in Hfx. destruct (Hcore Hfx) as (Ct & Co & Cp).
    apply Ct in Ht as [? ?]. apply Co in Ho as [? ?]. apply Cp in Hp as [? ?]. split; [|done]. by split.
  - intros ([_ Ht Ho Hp] & Hfx & Ht' & Ho' & Hp'). destruct (Hcore Hfx) as (Ct & Co & Cp). split.
    + apply Forall_app. split; [done|]. by apply Forall_singleton.
    + by apply Ct.
    + by apply Co.
    + by apply Cp.
Qed.

Lemma run_compat c l p : Run c l p -> Compat c l.
Proof.
  induction 1 as [|l p tx fx Hrun IH]; [|by apply (compat_snoc _ _ _ _ _ Hrun)].
  split; [by apply Forall_nil|constructor|by intros e w n ?%elem_of_nil..].
Qed.

(** ** What goes together is admitted *)

Lemma compat_admit c l p tx fx :
  Run c l p -> Compat c (l ++ [(tx, fx)]) ->
  admit_tx p tx = Ok (add_admitted (merge p fx) tx.(tx_hash)) /\ Run c (l ++ [(tx, fx)]) (add_admitted (merge p fx) tx.(tx_hash)).
Proof.
  intros Hrun Hc. apply (compat_snoc _ _ _ _ _ Hrun) in Hc as (_ & Hfx & Ht & Ho & Hp). split; [|by apply run_snoc].
  unfold admit_tx. rewrite (run_ctx _ _ _ Hrun), Hfx. cbn [result_bind].
  rewrite (proj2 (find_none_iff _ _)), Ho, Hp by (intros t Hin; by apply bool_decide_eq_false_2, Ht). done.
Qed.

Lemma compat_fold c l' : forall l p rej,
  Run c l p -> Compat c (l ++ l') ->
  exists p', foldl admit_or_reject (p, rej) l'.*1 = (p', rej) /\ Run c (l ++ l') p'.
Proof.
  induction l' as [|[tx fx] l' IH]; intros l p rej Hrun Hc; [exists p; by rewrite app_nil_r|].
  rewrite cons_middle, (assoc_L (++)) in Hc. destruct (compat_admit c l p tx fx Hrun) as [Ha Hr]; [by eapply compat_app|].
  destruct (IH _ _ rej Hr Hc) as (p' & Hf & Hr'). exists p'. cbn [fmap list_fmap foldl]. unfold admit_or_reject at 2. cbn [fst snd].
  rewrite Ha. split; [exact Hf|]. by rewrite cons_middle, (assoc_L (++)).
Qed.

Lemma admit_all_run c committed txs : forall l p p',
  Forall (fun tx => touches_market tx = true) txs -> Run c l p -> admit_all committed p txs = Ok p' ->
  exists l', Run c (l ++ l') p' /\ l'.*1 = filter (fun tx => committed tx.(tx_hash) = false) txs.
Proof.
  induction txs as [|tx txs IH]; intros l p p' Ht Hrun Ha; cbn [admit_all] in Ha.
  { injection Ha as <-. exists []. by rewrite app_nil_r. }
  apply Forall_cons in Ht as [Ht1 Ht]. rewrite filter_cons. destruct (committed tx.(tx_hash)); [rewrite decide_False by done; by eapply IH|].
  rewrite decide_True by done. destruct (admit_tx p tx) as [p1|] eqn:E; [|done].
  destruct (admit_run _ _ _ _ _ Hrun Ht1 E) as [fx Hr]. destruct (IH _ _ _ Ht Hr Ha) as (l' & Hr' & El).
  exists ((tx, fx) :: l'). split; [by rewrite cons_middle, (assoc_L (++))|]. cbn. by rewrite El.
Qed.

(** A list of the first components in another order. *)
Lemma perm_fst {A B} (l : list (A * B)) (k : list A) : k ≡ₚ l.*1 -> exists l' : list (A * B), l' ≡ₚ l /\ l'.*1 = k.
Proof.
  revert k. induction l as [|[a b] l IH]; intros k Hk; cbn in Hk.
  - apply Permutation_nil_r in Hk as ->. by exists [].
  - destruct (Permutation_cons_inv_r _ _ _ Hk) as (k1 & k2 & -> & Hk').
    destruct (IH (k1 ++ k2) ltac:(by symmetry)) as (l' & Hp & Hl).
    exists (take (length k1) l' ++ (a, b) :: drop (length k1) l'). split.
    + rewrite <-Permutation_middle, take_drop. by rewrite Hp.
    + rewrite fmap_app, fmap_cons, fmap_take, fmap_drop, Hl. by rewrite take_app_length, drop_app_length.
Qed.
End Order.
