(* ===== verification/MarketBooks.v ===== *)
(** * The market: the books of the escrow

    Applying a plan keeps the column sound and the recorded totals equal to what
    the trades hold; and the balance of the escrow's address follows them. *)
From S2P Require Import Prelude Crypto Ledger RuleText LedgerFacts Totals Balances BalancesFacts BalancesSim MarketData MarketChecks MarketPlan MarketFacts MarketSteps MarketRuns.
Local Open Scope string_scope.
Local Open Scope list_scope.
Local Open Scope Z_scope.
Local Open Scope ego_scope.

Section Books.
Context `{CryptoPrims} `{ChainPrims} `{MarketPrims} `{MarketJson} `{Json Journal}.
Context `{!JsonRoundTrip Trade} `{!JsonRoundTrip Offer} `{!JsonRoundTrip EscrowTotals}.
Implicit Types (c : Ctx) (tx : LedgerTx) (p : Planner) (l : list (LedgerTx * Effects)) (db : Store).

(** ** Finishing *)

Definition totals_in db : EscrowTotals := default totals_default (read (A := EscrowTotals) db ESCROW_KEY).

(** Did coins enter or leave the escrow? *)
Definition moved_coins p : bool :=
  bool_decide (0 < p.(escrow_in)) || bool_decide (0 < p.(escrow_out)) || bool_decide (0 < p.(opened)) || bool_decide (0 < p.(closed)).

Definition new_totals p : EscrowTotals :=
  let t := totals_in p.(p_ctx).(reader) in
  MkEscrowTotals (sat_sub (sat_add u64_max t.(held_uegoc) p.(escrow_in)) p.(escrow_out))
    (sat_sub (sat_add u64_max t.(active_trades) p.(opened)) p.(closed)).

Lemma finish_shape p :
  exists m, plain_more p.(p_writes) m /\
    (finish p).(plan_writes) = if moved_coins p then <[ ESCROW_KEY := Some (to_json (new_totals p)) ]> m else m.
Proof.
  exists (foldl (finish_profile p.(p_ctx).(reader)) p.(p_writes) (btree_map p.(p_profiles))).
  split; [apply plain_finish_profiles|reflexivity].
Qed.

Lemma tsum_totals f v : tsum f ESCROW_KEY v = 0.
Proof. reflexivity. Qed.

Lemma finish_gain p f db : gain (tsum f) db (finish p).(plan_writes) = gain (tsum f) db p.(p_writes).
Proof.
  destruct (finish_shape p) as (m & [_ Hg] & ->). rewrite <-(Hg _ db (tsum_marked f)).
  case_match; [|done]. apply gain_insert_zero. apply tsum_totals.
Qed.

Lemma finish_marked p k : plain_key k = false -> k <> ESCROW_KEY -> (finish p).(plan_writes) !! k = p.(p_writes) !! k.
Proof.
  intros Hk Hne. destruct (finish_shape p) as (m & [Hl _] & ->). rewrite <-Hl by done.
  case_match; [|done]. by rewrite lookup_insert_ne.
Qed.

Lemma finish_totals p :
  p.(p_writes) !! ESCROW_KEY = None ->
  (finish p).(plan_writes) !! ESCROW_KEY = if moved_coins p then Some (Some (to_json (new_totals p))) else None.
Proof.
  intros Hn. destruct (finish_shape p) as (m & [Hl _] & ->). case_match; [apply lookup_insert_eq|]. by rewrite Hl.
Qed.

(** ** Writing a plan *)

Lemma plain_batch_lookup ws db k : plain_writes ws -> plain_key k = false -> foldl batch_op db ws !! k = db !! k.
Proof.
  intros Hw Hk. apply batch_lookup_notin. intros v Hin. unfold plain_writes in Hw. rewrite Forall_forall in Hw.
  apply Hw in Hin. cbn in Hin. congruence.
Qed.

Lemma plain_batch_sum f ws db : plain_writes ws -> marked f -> hsum f (foldl batch_op db ws) = hsum f db.
Proof.
  intros Hw Hf. revert db. induction Hw as [|[k [v|]] ws Hk Hw IH]; intros db; [done|..]; cbn [foldl]; rewrite IH;
    unfold batch_op; cbn [fst snd] in *.
  - rewrite hsum_insert, Hf by done. destruct (db !! k); cbn; rewrite ?Hf by done; lia.
  - rewrite hsum_delete. destruct (db !! k); cbn; rewrite ?Hf by done; lia.
Qed.

(** The journal and what is pruned are plain. *)
Lemma journal_plain db floor height v : plain_writes ([(market_undo_key height, Some v)] ++ prune_journals db floor).
Proof.
  apply Forall_cons. split; [apply plain_undo_key|]. unfold prune_journals. case_bool_decide; [by apply Forall_nil|].
  apply Forall_fmap, Forall_forall. intros k Hk%old_journals_prefix. cbn. by apply plain_undo.
Qed.

Lemma empty_plan (pl : Plan) : plan_is_empty pl = true -> pl.(plan_writes) = ∅.
Proof. unfold plan_is_empty. by intros [?%bool_decide_eq_true_1 _]%andb_prop. Qed.

Lemma apply_marked db floor height (pl : Plan) k :
  plain_key k = false -> apply_plan db floor height pl !! k = after db pl.(plan_writes) k.
Proof.
  intros Hk. unfold apply_plan. destruct (plan_is_empty pl) eqn:E.
  - unfold after. by rewrite (empty_plan _ E), lookup_empty.
  - rewrite foldl_app, plain_batch_lookup by (done || apply journal_plain). apply written_lookup.
Qed.

Lemma apply_sum db floor height (pl : Plan) f :
  marked f -> hsum f (apply_plan db floor height pl) = hsum f db + gain f db pl.(plan_writes).
Proof.
  intros Hf. unfold apply_plan. destruct (plan_is_empty pl) eqn:E.
  - rewrite (empty_plan _ E), gain_empty. lia.
  - rewrite foldl_app, plain_batch_sum by (done || apply journal_plain).
    rewrite hsum_batch by (rewrite write_list_keys; apply NoDup_sorted_keys). unfold gain.
    by rewrite (zsum_perm _ _ (fmap_Permutation (gain_of f db) _ _ (write_list_perm pl))).
Qed.

(** A plan made by a run. *)
Definition planned p (pl : Plan) : Prop := pl.(plan_writes) = (finish p).(plan_writes).

Lemma run_trade c l p pl floor height k t :
  Run c l p -> sound_column c.(reader) -> planned p pl -> is_trade_key k = true ->
  read (A := Trade) (apply_plan c.(reader) floor height pl) k = Some t ->
  read c.(reader) k = Some t \/ exists tx fx, k = trade_key t.(t_id) /\ Wrote c l t tx fx.
Proof.
  intros Hrun Hdb Hpl Hk. unfold read.
  assert (k <> ESCROW_KEY) by (intros ->; by vm_compute in Hk).
  rewrite apply_marked by (apply marked_not_plain; auto). unfold after. rewrite Hpl, finish_marked by (done || apply marked_not_plain; auto).
  destruct (p.(p_writes) !! k) as [ov|] eqn:E; [|by left]. right.
  destruct (ri_trade _ _ _ (run_inv _ _ _ Hdb Hrun) _ _ Hk E) as (t' & tx & fx & -> & -> & Hw).
  cbn in *. rewrite from_to_json in *. cbn in *. simplify_eq. by exists tx, fx.
Qed.

Lemma run_offer c l p pl floor height k o :
  Run c l p -> sound_column c.(reader) -> planned p pl -> is_offer_key k = true ->
  read (A := Offer) (apply_plan c.(reader) floor height pl) k = Some o ->
  read c.(reader) k = Some o \/ Wrote_offer k o.
Proof.
  intros Hrun Hdb Hpl Hk. unfold read.
  assert (k <> ESCROW_KEY) by (intros ->; by vm_compute in Hk).
  rewrite apply_marked by (apply marked_not_plain; auto). unfold after. rewrite Hpl, finish_marked by (done || apply marked_not_plain; auto).
  destruct (p.(p_writes) !! k) as [ov|] eqn:E; [|by left]. right.
  destruct (ri_offer _ _ _ (run_inv _ _ _ Hdb Hrun) _ _ Hk E) as (o' & -> & Hw).
  cbn in *. rewrite from_to_json in *. cbn in *. by simplify_eq.
Qed.

Lemma run_sound c l p pl floor height :
  Run c l p -> sound_column c.(reader) -> planned p pl -> sound_column (apply_plan c.(reader) floor height pl).
Proof.
  intros Hrun Hdb Hpl. split.
  - intros k t Hk [Hr|(tx & fx & -> & Hw)]%(run_trade c l p); try done; [by apply (sound_trade _ Hdb)|].
    split_and!; [done|apply Hw..].
  - intros k o Hk [Hr|[]]%(run_offer c l p); try done. by apply (sound_offer _ Hdb).
Qed.

(** ** Totals *)

(** The column is sound, and the totals it records are those of its trades. *)
Record market_ok db : Prop := {
  ok_sound : sound_column db;
  ok_totals : totals_in db = MkEscrowTotals (held db) (active db);
}.

Lemma active_in_range t : 0 <= active_in t.
Proof. unfold active_in. destruct (holds_coins t); cbn; lia. Qed.

Lemma held_nonneg db : sound_column db -> 0 <= held db.
Proof. intros Hdb. apply hsum_tsum_nonneg; [done|apply held_in_nonneg]. Qed.
Lemma active_nonneg db : sound_column db -> 0 <= active db.
Proof. intros Hdb. apply hsum_tsum_nonneg; [done|]. intros t _. apply active_in_range. Qed.

Lemma effected_positive c tx fx :
  Effected c tx fx -> 0 <= tx.(tx_amount) ->
  0 <= fx.(fx_escrow_in) /\ 0 <= fx.(fx_escrow_out) /\ 0 <= fx.(fx_opened) /\ 0 <= fx.(fx_closed).
Proof. intros [_ -> -> _ [? ?] _] Ha. destruct (is_market_settle tx); lia. Qed.

Lemma run_positive c l p :
  Run c l p -> sound_column c.(reader) -> Forall (fun tx => 0 <= tx.(tx_amount)) l.*1 ->
  Forall (fun e => 0 <= e.2.(fx_escrow_in) /\ 0 <= e.2.(fx_escrow_out) /\ 0 <= e.2.(fx_opened) /\ 0 <= e.2.(fx_closed)) l.
Proof.
  intros Hrun Hdb Ha. pose proof (run_effects _ _ _ Hrun) as He. rewrite Forall_fmap in Ha.
  eapply Forall_impl; [exact (proj2 (Forall_and _ _) (conj Ha He))|]. intros [tx fx] [Hamt Hfx]. cbn in *.
  eapply effected_positive; [by apply effects_shape|done].
Qed.

(** The escrow never pays more than it held before the block. *)
Lemma run_out_le c l p : Run c l p -> sound_column c.(reader) -> total_of fx_escrow_out l <= held c.(reader).
Proof.
  intros Hrun Hdb. destruct (ri_out _ _ _ (run_inv _ _ _ Hdb Hrun)) as (ids & Hnd & _ & Hle).
  etrans; [exact Hle|]. by apply some_held.
Qed.

Lemma run_held c l p pl floor height :
  Run c l p -> sound_column c.(reader) -> planned p pl ->
  held (apply_plan c.(reader) floor height pl) = held c.(reader) + total_of fx_escrow_in l - total_of fx_escrow_out l /\
  active (apply_plan c.(reader) floor height pl) = active c.(reader) + total_of fx_opened l - total_of fx_closed l.
Proof.
  intros Hrun Hdb Hpl. pose proof (run_inv _ _ _ Hdb Hrun) as Hri. unfold held, active.
  rewrite !apply_sum, Hpl, !finish_gain, (ri_held _ _ _ Hri), (ri_active _ _ _ Hri) by apply tsum_marked. lia.
Qed.

Lemma read_after {A} `{Json A} db floor height (pl : Plan) k :
  plain_key k = false -> read (A := A) (apply_plan db floor height pl) k = v ← after db pl.(plan_writes) k; result_ok (from_json v).
Proof. intros Hk. unfold read. by rewrite apply_marked. Qed.

Lemma run_totals c l p pl floor height :
  Run c l p -> market_ok c.(reader) -> planned p pl -> Forall (fun tx => 0 <= tx.(tx_amount)) l.*1 ->
  held c.(reader) + total_of fx_escrow_in l <= u64_max -> active c.(reader) + total_of fx_opened l <= u64_max ->
  market_ok (apply_plan c.(reader) floor height pl).
Proof.
  intros Hrun [Hdb Htot] Hpl Hamt Hfit Hfit'. pose proof (run_sound c l p pl floor height Hrun Hdb Hpl) as Hs.
  split; [done|]. destruct (run_held c l p pl floor height Hrun Hdb Hpl) as [Eh Ea].
  pose proof (held_nonneg _ Hs) as Hh'. pose proof (active_nonneg _ Hs) as Ha'. rewrite Eh in Hh'. rewrite Ea in Ha'. rewrite Eh, Ea.
  destruct (run_sat _ _ _ Hrun (run_positive _ _ _ Hrun Hdb Hamt)) as (Ei & Eo & Eop & Ecl & ? & ? & ? & ?).
  rewrite Z.min_r in Ei by (pose proof (held_nonneg _ Hdb); lia). rewrite Z.min_r in Eop by (pose proof (active_nonneg _ Hdb); lia).
  rewrite Z.min_r in Eo, Ecl by lia.
  unfold totals_in. rewrite read_after by (apply marked_not_plain; auto). unfold after.
  rewrite Hpl, finish_totals by apply (ri_totals _ _ _ (run_inv _ _ _ Hdb Hrun)).
  destruct (moved_coins p) eqn:Em.
  - cbn [mbind option_bind]. rewrite from_to_json. cbn [result_ok default from_option]. unfold new_totals.
    rewrite (run_ctx _ _ _ Hrun), Htot, Ei, Eo, Eop, Ecl. cbn [held_uegoc active_trades]. unfold sat_add, sat_sub.
    rewrite !Z.min_r, !Z.max_r by lia. done.
  - change (totals_in c.(reader) = MkEscrowTotals (held (reader c) + total_of fx_escrow_in l - total_of fx_escrow_out l)
      (active (reader c) + total_of fx_opened l - total_of fx_closed l)). rewrite Htot.
    unfold moved_coins in Em. rewrite Ei, Eo, Eop, Ecl, !orb_false_iff, !bool_decide_eq_false in Em. f_equal; lia.
Qed.

(** The transactions of a block that are the market's, and what they may add. *)
Definition market_txs (txs : list LedgerTx) : list LedgerTx := filter (fun tx => touches_market tx = true) txs.

Definition block_fits db (txs : list LedgerTx) : Prop :=
  Forall (fun tx => 0 <= tx.(tx_amount)) txs /\ held db + zsum (tx_amount <$> market_txs txs) <= u64_max /\
  active db + Z.of_nat (length txs) <= u64_max.

Lemma run_in_le c l p :
  Run c l p -> sound_column c.(reader) -> Forall (fun tx => 0 <= tx.(tx_amount)) l.*1 ->
  total_of fx_escrow_in l <= zsum (tx_amount <$> l.*1) /\ total_of fx_opened l <= Z.of_nat (length l).
Proof.
  intros Hrun Hdb Ha. pose proof (run_effects _ _ _ Hrun) as He. clear Hrun. revert Ha.
  induction He as [|[tx fx] l Hfx _ IH]; intros Ha; [by cbn|]. apply Forall_cons in Ha as [Hamt Ha]. cbn [fst] in *.
  destruct (IH Ha) as [IH1 IH2]. destruct (effects_shape _ _ _ Hdb Hfx) as [_ Ei _ _ [? _] _].
  change ((tx, fx) :: l) with ([(tx, fx)] ++ l). rewrite !total_app, !total_one, fmap_app, fmap_app, zsum_app.
  cbn [fmap list_fmap fst app length]. rewrite (zsum_cons _ []). change (zsum []) with 0.
  cbn [snd] in *. destruct (is_market_settle tx); lia.
Qed.

Lemma block_run_fits db stamp height txs l refused p :
  Run (ctx_at db stamp height) l p -> sound_column db -> block_fits db txs -> l.*1 ++ refused ≡ₚ market_txs txs ->
  Forall (fun tx => 0 <= tx.(tx_amount)) l.*1 /\ held db + total_of fx_escrow_in l <= u64_max /\
  active db + total_of fx_opened l <= u64_max.
Proof.
  intros Hrun Hdb (Hamt & Hfit & Hlen) Hp.
  assert (Forall (fun tx => 0 <= tx.(tx_amount)) (l.*1 ++ refused)) as [Hl Href]%Forall_app.
  { rewrite Hp. rewrite Forall_forall in *. intros tx [_ Hin]%list_elem_of_filter. auto. }
  destruct (run_in_le _ _ _ Hrun Hdb Hl) as [Hi Ho]. split; [done|].
  rewrite <-(zsum_perm _ _ (fmap_Permutation tx_amount _ _ Hp)), fmap_app, zsum_app in Hfit.
  assert (0 <= zsum (tx_amount <$> refused)) by (apply zsum_nonneg; by rewrite Forall_fmap).
  apply Permutation_length in Hp. rewrite length_app, length_fmap in Hp.
  pose proof (length_filter (fun tx => touches_market tx = true) txs). unfold market_txs in *. lia.
Qed.
End Books.

(** ** The market: the balance of the escrow

    What the balances of the chain database do with the transactions of the
    market, and that the balance of the escrow's address is what the trades hold. *)

Section Escrow.
Context `{CryptoPrims} `{ChainPrims} `{ChainRules} `{MarketPrims} `{MarketJson} `{Json Journal}.
Context `{!JsonRoundTrip Trade} `{!JsonRoundTrip Offer} `{!JsonRoundTrip EscrowTotals}.
Implicit Types (db : Db) (tx : LedgerTx) (s : Applying) (c : Ctx).

(** The change of the escrow's balance so far. *)
Definition escrow_delta s : Z := at_ s.(balance_delta) MARKET_ESCROW_ADDR.

Ltac at_escrow := unfold escrow_delta; deltas; rewrite ?bool_decide_eq_false_2 by first [done|congruence]; try lia.

Lemma slash_escrow db tx s : escrow_delta (apply_slash db tx s) = escrow_delta s.
Proof.
  unfold apply_slash. destruct (slash_from_equivocation_tx db tx s) as [s' r] eqn:E.
  apply slash_keeps in E as [Hd _]. destruct r as [[a n]|e]; unfold escrow_delta; deltas; rewrite Hd; [|done].
  rewrite bool_decide_eq_false_2 by done. lia.
Qed.

(** A transaction that is not the market's leaves the escrow alone. *)
Lemma other_tx_escrow db mine tx s : touches_market tx = false -> escrow_delta (apply_tx db mine s tx) = escrow_delta s.
Proof.
  unfold touches_market, is_escrow_deposit, is_market_settle. intros [Hto%bool_decide_eq_false_1 Hfrom%bool_decide_eq_false_1]%orb_false_iff.
  unfold apply_tx. case_bool_decide; [done|]. destruct (negb _); [done|]. destruct (foundation_blocked _ _ _); [done|].
  set (credited := credited_amount db tx s). clearbody credited.
  destruct (is_unstake_tx tx).
  { unfold apply_unstake. case_bool_decide; at_escrow. }
  case_bool_decide; [exact (slash_escrow db tx s)|]. destruct (pays_fee_from_amount tx); [at_escrow|].
  unfold apply_transfer. case_bool_decide; [at_escrow|]. destruct (is_reserved_system_source _); [at_escrow|].
  destruct (is_stake_tx tx); at_escrow.
Qed.

(** A deposit that takes effect adds its amount. *)
Lemma deposit_escrow db mine tx s :
  tx.(tx_hash) ∉ db.(committed_txs) -> takes_effect tx.(tx_hash) = true -> tx.(tx_from) <> FOUNDATION_ADDR ->
  is_reserved_system_source tx.(tx_from) = false -> tx.(tx_type) ∈ SIGNED_OPS -> tx.(tx_to) = MARKET_ESCROW_ADDR ->
  escrow_delta (apply_tx db mine s tx) = escrow_delta s + tx.(tx_amount).
Proof.
  intros Hf He Hfd Hr Hop Hto. unfold apply_tx. rewrite (bool_decide_eq_false_2 _ Hf), He. cbn [negb].
  unfold foundation_blocked, credited_amount. rewrite (bool_decide_eq_false_2 _ Hfd). cbn [andb]. rewrite Hr, andb_false_r. cbn [andb].
  assert (is_unstake_tx tx = false /\ is_stake_tx tx = false) as [-> Hst].
  { unfold is_unstake_tx, is_stake_tx. rewrite Hto. by rewrite !(bool_decide_eq_false_2 (MARKET_ESCROW_ADDR = _)), ?andb_false_r by done. }
  rewrite bool_decide_eq_false_2 by (intros E; rewrite E in Hop; revert Hop; apply (bool_decide_eq_true_1 (~ _)); by vm_compute).
  assert (tx.(tx_from) <> MARKET_ESCROW_ADDR /\ tx.(tx_from) <> SHIELDED_POOL_ADDR /\ tx.(tx_from) <> "") as (Hm & Hs & Hn)
    by (split_and!; intros E; by rewrite E in Hr).
  unfold pays_fee_from_amount, is_unshield, is_market_settle.
  rewrite !(bool_decide_eq_false_2 (tx.(tx_from) = _)) by done. cbn [orb]. unfold apply_transfer.
  rewrite (bool_decide_eq_false_2 (tx.(tx_from) = _)), Hr, Hst, Hto by done. unfold escrow_delta; deltas.
  rewrite bool_decide_eq_true_2, bool_decide_eq_false_2 by done. lia.
Qed.

(** A settlement that takes effect pays its amount, which the escrow has. *)
Lemma settle_escrow db mine tx s :
  tx.(tx_hash) ∉ db.(committed_txs) -> takes_effect tx.(tx_hash) = true ->
  tx.(tx_from) = MARKET_ESCROW_ADDR -> tx.(tx_type) = TX_MARKET_SETTLE -> tx.(tx_to) <> MARKET_ESCROW_ADDR ->
  0 <= tx.(tx_amount) <= now db s MARKET_ESCROW_ADDR -> now db s MARKET_ESCROW_ADDR <= u64_max ->
  escrow_delta (apply_tx db mine s tx) = escrow_delta s - tx.(tx_amount).
Proof.
  intros Hf He Hfrom Hty Hto Hamt Hmax. unfold apply_tx. rewrite (bool_decide_eq_false_2 _ Hf), He. cbn [negb].
  unfold foundation_blocked, is_unstake_tx, pays_fee_from_amount, is_market_settle. rewrite Hfrom, Hty.
  change (bool_decide (MARKET_ESCROW_ADDR = FOUNDATION_ADDR)) with false.
  change (bool_decide (TX_MARKET_SETTLE = "unstake")) with false.
  change (bool_decide (TX_MARKET_SETTLE = "equivocation_proof")) with false. 
  change (bool_decide (MARKET_ESCROW_ADDR = MARKET_ESCROW_ADDR)) with true. rewrite orb_true_r. cbn [andb].
  assert (credited_amount db tx s = tx.(tx_amount)) as ->.
  { unfold credited_amount. destruct (_ && _); [|done]. unfold effective. rewrite Hfrom.
    fold (now db s MARKET_ESCROW_ADDR). rewrite clamp64_id by lia. lia. }
  unfold escrow_delta. deltas. rewrite (bool_decide_eq_false_2 (tx.(tx_to) = _)), bool_decide_eq_true_2 by done. lia.
Qed.

(** ** A block *)

(** What a transaction moves into the escrow, or out of it. *)
Definition flow_in tx : Z := if touches_market tx && negb (is_market_settle tx) && takes_effect tx.(tx_hash) then tx.(tx_amount) else 0.
Definition flow_out tx : Z := if is_market_settle tx && takes_effect tx.(tx_hash) then tx.(tx_amount) else 0.

(** A transaction the market let through, or not the market's at all. *)
Definition judged db tx : Prop :=
  tx.(tx_hash) ∉ db.(committed_txs) /\ 0 <= tx.(tx_amount) /\ tx.(tx_from) <> FOUNDATION_ADDR /\
  (touches_market tx = true -> takes_effect tx.(tx_hash) = true ->
   if is_market_settle tx then tx.(tx_type) = TX_MARKET_SETTLE /\ tx.(tx_to) <> MARKET_ESCROW_ADDR
   else is_reserved_system_source tx.(tx_from) = false /\ tx.(tx_type) ∈ SIGNED_OPS).

Lemma no_effect db mine tx s : takes_effect tx.(tx_hash) = false -> escrow_delta (apply_tx db mine s tx) = escrow_delta s.
Proof. intros He. unfold apply_tx. case_bool_decide; [done|]. by rewrite He. Qed.

Lemma judged_tx db mine tx s :
  judged db tx -> flow_out tx <= now db s MARKET_ESCROW_ADDR <= u64_max ->
  escrow_delta (apply_tx db mine s tx) = escrow_delta s + flow_in tx - flow_out tx.
Proof.
  intros (Hf & Ha & Hfd & Hj) Hnow. unfold flow_in, flow_out in *. destruct (touches_market tx) eqn:Ht.
  - destruct (takes_effect tx.(tx_hash)) eqn:He; [specialize (Hj eq_refl eq_refl)|rewrite no_effect, !andb_false_r by done; lia].
    unfold touches_market, is_escrow_deposit in Ht. destruct (is_market_settle tx) eqn:Hs; cbn in *.
    + destruct Hj. unfold is_market_settle in Hs. apply bool_decide_eq_true_1 in Hs. rewrite settle_escrow by (done || lia). lia.
    + destruct Hj. rewrite orb_false_r in Ht. apply bool_decide_eq_true_1 in Ht. rewrite deposit_escrow by done. lia.
  - rewrite other_tx_escrow by done. unfold touches_market in Ht. apply orb_false_iff in Ht as [_ ->]. cbn. lia.
Qed.

Lemma flows_nonneg db txs :
  Forall (judged db) txs -> 0 <= zsum (flow_in <$> txs) /\ 0 <= zsum (flow_out <$> txs).
Proof.
  intros Hj. split; apply zsum_nonneg, Forall_fmap; (eapply Forall_impl; [exact Hj|]); intros tx (_ & ? & _); cbn;
    unfold flow_in, flow_out; by case_match.
Qed.

Lemma judged_txs db mine txs s :
  Forall (judged db) txs -> zsum (flow_out <$> txs) <= now db s MARKET_ESCROW_ADDR ->
  now db s MARKET_ESCROW_ADDR + zsum (flow_in <$> txs) <= u64_max ->
  escrow_delta (foldl (apply_tx db mine) s txs) = escrow_delta s + zsum (flow_in <$> txs) - zsum (flow_out <$> txs).
Proof.
  intros Hj. revert s. induction Hj as [|tx txs Ht Hj IH]; intros s Ho Hi; [cbn; lia|].
  destruct (flows_nonneg _ _ Hj). destruct (flows_nonneg db [tx]) as [Hi1 Ho1]; [by apply Forall_singleton|].
  rewrite !fmap_cons, !zsum_cons in *. change (zsum (flow_in <$> [])) with 0 in Hi1. change (zsum (flow_out <$> [])) with 0 in Ho1.
  cbn [foldl]. pose proof (judged_tx db mine tx s Ht ltac:(lia)) as E.
  assert (now db (apply_tx db mine s tx) MARKET_ESCROW_ADDR = now db s MARKET_ESCROW_ADDR + flow_in tx - flow_out tx) as En
    by (unfold now; fold (escrow_delta (apply_tx db mine s tx)) (escrow_delta s); lia).
  rewrite IH, E, ?En by lia. lia.
Qed.

(** The payments to nodes and hosts go past the escrow. *)
Definition not_paid : Prop := Forall (fun ap : string * Z => ap.1 <> MARKET_ESCROW_ADDR) (node_due ++ storage_pay).

Lemma cut_pay_hosts left l (a : string) :
  Forall (fun ap : string * Z => ap.1 <> a) l -> Forall (fun ap : string * Z => ap.1 <> a) (cut_pay left l).
Proof.
  intros Hl. revert left. induction Hl as [|[h n] l Hh Hl IH]; intros left; [by apply Forall_nil|]. cbn [cut_pay].
  apply Forall_app. split; [|apply IH]. case_bool_decide; [by apply Forall_singleton|by apply Forall_nil].
Qed.

Lemma pay_list_escrow (l : list (string * Z)) s :
  Forall (fun ap : string * Z => ap.1 <> MARKET_ESCROW_ADDR) l -> escrow_delta (foldl pay_one s l) = escrow_delta s.
Proof.
  intros Hl. revert s. induction Hl as [|[h n] l Hh Hl IH]; intros s; [done|]. cbn [foldl]. rewrite IH.
  unfold pay_one, escrow_delta. deltas. cbn in *. rewrite !bool_decide_eq_false_2 by done. lia.
Qed.

Lemma pay_nodes_escrow db mine height s : not_paid -> escrow_delta (pay_nodes db mine height s) = escrow_delta s.
Proof.
  intros [Hn Hs]%Forall_app. unfold pay_nodes.
  match goal with |- escrow_delta (foldl pay_one ?s0 ?l) = _ => assert (escrow_delta s0 = escrow_delta s) as E end.
  { unfold escrow_delta.
    edestruct (foldl_keeps (fun s (ap : string * Z) => add_event mine ap.1 "storage" ap.2 "" s)) as [-> _].
    { intros ??. by rewrite delta_event, supply_event. }
    edestruct (foldl_keeps (fun s (ap : string * Z) => add_event mine ap.1 "node" ap.2 "" s)) as [-> _].
    { intros ??. by rewrite delta_event, supply_event. }
    done. }
  rewrite pay_list_escrow; [exact E|]. apply Forall_app. split; [by apply cut_pay_hosts|].
  case_bool_decide; [by apply cut_pay_hosts|by apply Forall_nil].
Qed.

Lemma write_exact_at db s a : 0 <= now db s a <= u64_max -> at_ (write_balances db s) a = now db s a.
Proof.
  intros Hr. unfold write_balances. rewrite write_at. case_bool_decide as Hin.
  - unfold new_balance, effective. by apply clamp64_id.
  - rewrite touched_spec in Hin. unfold now. rewrite (at_not_dom s.(balance_delta)) by done. unfold balance_of. lia.
Qed.

Lemma block_escrow db mine height txs :
  Forall (judged db) txs -> not_paid -> zsum (flow_out <$> txs) <= balance_of db MARKET_ESCROW_ADDR ->
  balance_of db MARKET_ESCROW_ADDR + zsum (flow_in <$> txs) <= u64_max ->
  at_ (write_balances db (gather db mine height txs)) MARKET_ESCROW_ADDR =
    balance_of db MARKET_ESCROW_ADDR + zsum (flow_in <$> txs) - zsum (flow_out <$> txs).
Proof.
  intros Hj Hnp Ho Hi. destruct (flows_nonneg _ _ Hj).
  assert (now db (gather db mine height txs) MARKET_ESCROW_ADDR =
    balance_of db MARKET_ESCROW_ADDR + zsum (flow_in <$> txs) - zsum (flow_out <$> txs)) as E.
  { unfold now, gather. fold (escrow_delta (pay_nodes db mine height (apply_txs db mine txs))).
    rewrite pay_nodes_escrow by done. unfold apply_txs.
    rewrite judged_txs; [| done | unfold now; cbn; rewrite at_empty; lia..].
    unfold escrow_delta. cbn. rewrite at_empty. lia. }
  rewrite write_exact_at; [exact E|]. rewrite E. lia.
Qed.

(** ** The plan and the balances agree *)

Lemma admitted_kind c tx fx :
  sound_column c.(reader) -> effects_of c tx = Ok (Some fx) ->
  if is_market_settle tx then tx.(tx_type) = TX_MARKET_SETTLE /\ tx.(tx_to) <> MARKET_ESCROW_ADDR
  else is_reserved_system_source tx.(tx_from) = false /\ tx.(tx_type) ∈ SIGNED_OPS.
Proof.
  intros Hdb Hfx. unfold effects_of in Hfx. destruct (is_market_settle tx) eqn:Hs.
  - apply result_bind_Ok in Hfx as (fx' & Hfx & _). unfold settle_effects in Hfx. cbn zeta in Hfx. mk_cases.
    match goal with Hk : known_trade _ _ = Ok ?t |- _ => destruct (known_trade_Ok _ _ _ Hdb Hk) as (_ & _ & _ & Hse & Hbu) end.
    split.
    + match goal with Hc : check_settle_shape tx = Ok _ |- _ => unfold check_settle_shape in Hc; mk_cases; done end.
    + match goal with E : tx_to tx = _ |- _ => rewrite E end. unfold payout_to. by case_match.
  - destruct (is_escrow_deposit tx); [|done]. apply result_bind_Ok in Hfx as (fx' & Hfx & _). unfold signed_effects in Hfx.
    apply result_bind_Ok in Hfx as (u & Hu & _). destruct (check_signed_shape tx) as [u'|] eqn:Hsh; [|done].
    split; [by eapply signed_source|by eapply signed_op].
Qed.

(** The chain's rule on which transactions take effect is the plan's. *)
Definition follows_plan (plan : Plan) (txs : list LedgerTx) : Prop :=
  Forall (fun tx => takes_effect tx.(tx_hash) = plan_takes_effect plan tx.(tx_hash)) txs.

Section Plan.
Context (column : Store) (stamp : Z -> option Z) (activation : option Z) (height : Z) (txs : list LedgerTx).
Context (l : list (LedgerTx * Effects)) (p : Planner) (refused : list LedgerTx).
Abbreviation plan := (plan_block column stamp activation height txs).
Hypothesis Hrun : Run (ctx_at column stamp height) l p.
Hypothesis Hperm : l.*1 ++ refused ≡ₚ market_txs txs.
Hypothesis Hrej : plan.(rejected) = tx_hash <$> refused.
Hypothesis Hnd : NoDup (tx_hash <$> txs).
Hypothesis Hfollow : follows_plan plan txs.

Lemma market_in tx : tx ∈ l.*1 ++ refused -> tx ∈ txs /\ touches_market tx = true.
Proof. rewrite Hperm. by intros [? ?]%list_elem_of_filter. Qed.

Lemma effect_iff tx : tx ∈ txs -> takes_effect tx.(tx_hash) = negb (bool_decide (tx.(tx_hash) ∈ tx_hash <$> refused)).
Proof.
  intros Hin. unfold follows_plan in Hfollow. rewrite Forall_forall in Hfollow. rewrite (Hfollow tx Hin).
  unfold plan_takes_effect. by rewrite Hrej.
Qed.

Lemma refused_effect tx : tx ∈ refused -> takes_effect tx.(tx_hash) = false.
Proof.
  intros Hin. rewrite effect_iff by (apply market_in; set_solver). rewrite bool_decide_eq_true_2; [done|].
  by apply list_elem_of_fmap_2.
Qed.

Lemma hashes_nodup : NoDup (tx_hash <$> l.*1 ++ refused).
Proof.
  rewrite Hperm. unfold market_txs. clear -Hnd. induction txs as [|tx rest IH]; [done|].
  rewrite fmap_cons, NoDup_cons in Hnd. destruct Hnd as [Hn Hr]. rewrite filter_cons. case_decide; [|by apply IH].
  rewrite fmap_cons. apply NoDup_cons. split; [|by apply IH]. intros Hin. apply Hn.
  apply list_elem_of_fmap in Hin as (tx' & -> & [_ Hin]%list_elem_of_filter). by apply list_elem_of_fmap_2.
Qed.

Lemma admitted_effect tx : tx ∈ l.*1 -> takes_effect tx.(tx_hash) = true.
Proof.
  intros Hin. rewrite effect_iff by (apply market_in; set_solver). rewrite bool_decide_eq_false_2; [done|].
  pose proof hashes_nodup as Hh. rewrite fmap_app in Hh. apply NoDup_app in Hh as (_ & Hdis & _).
  apply Hdis. by apply list_elem_of_fmap_2.
Qed.

Lemma run_judged db :
  sound_column column -> Forall (fun tx => tx.(tx_hash) ∉ db.(committed_txs) /\ 0 <= tx.(tx_amount) /\ tx.(tx_from) <> FOUNDATION_ADDR) txs ->
  Forall (judged db) txs.
Proof.
  intros Hdb. rewrite !Forall_forall. intros Hall tx Hin. destruct (Hall tx Hin) as (? & ? & ?). split_and!; [done..|].
  intros Ht He. assert (tx ∈ l.*1 ++ refused) as Hm by (rewrite Hperm; by apply list_elem_of_filter).
  apply elem_of_app in Hm as [Hm|Hm]; [|rewrite refused_effect in He; done].
  apply list_elem_of_fmap in Hm as ([tx' fx] & -> & Hm). pose proof (run_effects _ _ _ Hrun) as Hfx.
  rewrite Forall_forall in Hfx. apply Hfx in Hm. by eapply (admitted_kind (ctx_at column stamp height)).
Qed.

(** The flows of the block are those of the run. *)
Lemma run_flows :
  sound_column column ->
  zsum (flow_in <$> txs) = total_of fx_escrow_in l /\ zsum (flow_out <$> txs) = total_of fx_escrow_out l.
Proof.
  intros Hdb.
  assert (Hmk : forall f : LedgerTx -> Z, (forall tx, touches_market tx = false -> f tx = 0) ->
    zsum (f <$> txs) = zsum (f <$> l.*1) + zsum (f <$> refused)).
  { intros f Hf. rewrite <-zsum_app, <-fmap_app, (zsum_perm _ _ (fmap_Permutation f _ _ Hperm)). unfold market_txs.
    clear -Hf. induction txs as [|tx rest IH]; [done|]. rewrite filter_cons, fmap_cons, zsum_cons, IH.
    case_decide as Hd; [by rewrite fmap_cons, zsum_cons|]. apply not_true_is_false in Hd. rewrite Hf by done. lia. }
  assert (Hzero : forall f : LedgerTx -> Z, (forall tx, takes_effect tx.(tx_hash) = false -> f tx = 0) -> zsum (f <$> refused) = 0).
  { intros f Hf. rewrite (list_fmap_ext f (fun _ => 0) refused).
    - rewrite zsum_const. lia.
    - intros i tx Hi%list_elem_of_lookup_2. apply Hf. by apply refused_effect. }
  rewrite !Hmk, !Hzero, !Z.add_0_r.
  - pose proof (run_effects _ _ _ Hrun) as Hfx. assert (Hadm : forall e, e ∈ l -> takes_effect e.1.(tx_hash) = true)
      by (intros e He; apply admitted_effect; by apply list_elem_of_fmap_2). revert Hadm. clear -Hfx Hdb.
    induction Hfx as [|[tx fx] l Hfx _ IH]; intros Hadm; [done|].
    destruct IH as [IH1 IH2]; [intros e He; apply Hadm; set_solver|].
    pose proof (Hadm (tx, fx) ltac:(set_solver)) as He. cbn [fst snd] in *.
    destruct (effects_shape (ctx_at column stamp height) _ _ Hdb Hfx) as [_ Ei Eo _ _ _].
    change ((tx, fx) :: l) with ([(tx, fx)] ++ l). rewrite !total_app, !total_one, fmap_app, !fmap_app, !zsum_app, IH1, IH2.
    cbn [fmap list_fmap fst]. rewrite !(zsum_cons _ []). change (zsum []) with 0. unfold flow_in, flow_out.
    rewrite (effects_touches _ _ _ Hfx), He, Ei, Eo, !andb_true_r. destruct (is_market_settle tx); cbn; lia.
  - intros tx He. unfold flow_out. by rewrite He, andb_false_r.
  - intros tx He. unfold flow_in. by rewrite He, andb_false_r.
  - intros tx Ht. unfold flow_out. unfold touches_market in Ht. by apply orb_false_iff in Ht as [_ ->].
  - intros tx Ht. unfold flow_in. by rewrite Ht.
Qed.
End Plan.
End Escrow.
