(* ===== verification/MarketUndo.v ===== *)
(** * The market: taking blocks back

    The journals that [apply_plan] writes are found by [rollback] in the order of
    their heights, and undoing them from the last to the first gives the column
    back. *)
From S2P Require Import Prelude Crypto Ledger RuleText LedgerFacts Totals Balances MarketData MarketChecks MarketPlan MarketFacts MarketSteps MarketRuns MarketBooks.
Local Open Scope string_scope.
Local Open Scope list_scope.
Local Open Scope Z_scope.
Local Open Scope ego_scope.

(** ** The order of journal keys *)

Lemma bytes_compare_app p a b : bytes_compare (p ++ a) (p ++ b) = bytes_compare a b.
Proof. induction p as [|x p IH]; [done|]. cbn. by rewrite Z.compare_refl. Qed.

(** The number of big-endian bytes. *)
Definition from_be (l : bytes) : Z := from_le_bytes (reverse l).

Lemma from_le_app a b : from_le_bytes (a ++ b) = from_le_bytes a + 256 ^ Z.of_nat (length a) * from_le_bytes b.
Proof.
  induction a as [|x a IH]; [cbn; lia|]. cbn [app from_le_bytes length]. rewrite IH, Nat2Z.inj_succ, Z.pow_succ_r by lia. ring.
Qed.

Lemma from_be_cons x l : from_be (x :: l) = from_be l + 256 ^ Z.of_nat (length l) * x.
Proof. unfold from_be. rewrite reverse_cons, from_le_app, length_reverse. cbn [from_le_bytes]. lia. Qed.

Lemma from_be_bound l : Forall in_u8 l -> 0 <= from_be l < 256 ^ Z.of_nat (length l).
Proof. intros Hl. rewrite <-length_reverse. apply from_le_bytes_bound. by rewrite reverse_Permutation. Qed.

(** Big-endian numbers of one length are in the order of their bytes. *)
Lemma be_compare a b :
  length a = length b -> Forall in_u8 a -> Forall in_u8 b -> bytes_compare a b = (from_be a ?= from_be b).
Proof.
  revert b. induction a as [|x a IH]; intros [|y b] Hl Ha Hb; try done. injection Hl as Hl.
  apply Forall_cons in Ha as [Hx Ha], Hb as [Hy Hb]. cbn [bytes_compare]. rewrite !from_be_cons, <-Hl.
  pose proof (from_be_bound a Ha) as Ba. pose proof (from_be_bound b Hb) as Bb. rewrite <-Hl in Bb.
  set (w := 256 ^ Z.of_nat (length a)) in *. symmetry. destruct (Z.compare_spec x y) as [->|Hlt|Hgt].
  - rewrite IH by done. rewrite !(Z.add_comm _ (w * y)). apply Z.add_compare_mono_l.
  - apply Z.compare_lt_iff. nia.
  - apply Z.compare_gt_iff. nia.
Qed.

Lemma be8_bytes v : Forall in_u8 (be8 v).
Proof. unfold be8. rewrite reverse_Permutation. apply to_le_bytes_byte. Qed.

Lemma length_be8 v : length (be8 v) = 8%nat.
Proof. unfold be8. by rewrite length_reverse, length_u64_le. Qed.

Lemma from_be8 v : 0 <= v <= u64_max -> from_be (be8 v) = v.
Proof. intros Hv. unfold from_be, be8. rewrite reverse_involutive. apply from_to_le_bytes. unfold u64_max in Hv. lia. Qed.

Lemma be8_compare a b : 0 <= a <= u64_max -> 0 <= b <= u64_max -> bytes_compare (be8 a) (be8 b) = (a ?= b).
Proof. intros Ha Hb. rewrite be_compare by (rewrite ?length_be8; auto using be8_bytes). by rewrite !from_be8. Qed.

Lemma undo_key_leb a b : 0 <= a <= u64_max -> 0 <= b <= u64_max -> key_leb (market_undo_key a) (market_undo_key b) = (a <=? b).
Proof. intros Ha Hb. unfold key_leb, market_undo_key. rewrite bytes_compare_app, be8_compare by done. reflexivity. Qed.

Lemma undo_key_inj a b : 0 <= a <= u64_max -> 0 <= b <= u64_max -> market_undo_key a = market_undo_key b -> a = b.
Proof. intros Ha Hb E%(inj (app _)). rewrite <-(from_be8 a), <-(from_be8 b) by done. by rewrite E. Qed.

Lemma undo_key_prefix h : has_prefix UNDO_PREFIX (market_undo_key h) = true.
Proof. apply has_prefix_self. Qed.

(** A key with the number of an earlier height comes before. *)
Lemma early_journal (h : Z) k :
  0 <= h <= u64_max -> has_prefix UNDO_PREFIX k = true -> Forall in_u8 k -> (length UNDO_PREFIX + 8 <= length k)%nat ->
  from_le_bytes (reverse (take 8 (drop (length UNDO_PREFIX) k))) < h -> key_leb (market_undo_key h) k = false.
Proof.
  intros Hh [r ->]%has_prefix_inv Hk Hlen. rewrite drop_app_length. fold (from_be (take 8 r)). intros Hlt.
  rewrite length_app in Hlen. apply Forall_app in Hk as [_ Hr].
  unfold key_leb, market_undo_key. rewrite bytes_compare_app. rewrite <-(take_drop 8 r).
  assert (bytes_compare (take 8 r) (be8 h) = Lt) as Hc.
  { rewrite be_compare by (rewrite ?length_be8, ?length_take; (lia || auto using be8_bytes, Forall_take)).
    rewrite from_be8 by done. by apply Z.compare_lt_iff. }
  assert (forall a b c, length a = length b -> bytes_compare a b = Lt -> bytes_compare b (a ++ c) = Gt) as Happ.
  { clear. induction a as [|x a IH]; intros [|y b] c Hl Hc; try done. injection Hl as Hl. cbn [app bytes_compare] in *.
    rewrite (Z.compare_antisym x y). destruct (Z.compare x y); cbn; [by apply IH|done|done]. }
  by rewrite Happ by (rewrite ?length_be8, ?length_take; (lia || done)).
Qed.

(** ** Keys under a prefix *)

Lemma prefix_convex P s k k' :
  has_prefix P s = true -> has_prefix P k' = true -> key_leb s k = true -> key_leb k k' = true -> has_prefix P k = true.
Proof.
  intros [r ->]%has_prefix_inv [r' ->]%has_prefix_inv. revert k. induction P as [|x P IH]; intros k H1 H2; [done|].
  destruct k as [|y k]; [done|]. unfold key_leb in *. cbn [app bytes_compare] in *.
  destruct (Z.compare_spec x y) as [<-|?|?]; [|destruct (Z.compare_spec y x); [lia|lia|done]|done].
  rewrite Z.compare_refl in H2. specialize (IH k H1 H2). apply has_prefix_inv in IH as [q ->].
  apply (has_prefix_self (x :: P) q).
Qed.

Lemma while_prefix_sorted P s l :
  has_prefix P s = true -> Forall (fun k => key_leb s k = true) l -> StronglySorted (fun a b => key_leb a b = true) l ->
  while_prefix P l = filter (fun k => has_prefix P k = true) l.
Proof.
  intros Hs. induction l as [|k l IH]; intros Hge Hsort; [done|]. apply Forall_cons in Hge as [Hk Hge].
  apply StronglySorted_inv in Hsort as [Hsort Hall]. cbn [while_prefix]. rewrite filter_cons.
  destruct (has_prefix P k) eqn:E; [rewrite decide_True by done; by rewrite IH|]. rewrite decide_False by done.
  destruct (filter _ l) as [|k' r] eqn:Ef; [done|]. exfalso.
  assert (k' ∈ k' :: r) as Hin by set_solver. rewrite <-Ef in Hin. apply list_elem_of_filter in Hin as [Hp Hin].
  rewrite Forall_forall in Hall, Hge. rewrite (prefix_convex P s k k') in E by auto. done.
Qed.

Lemma keys_from_sorted (db : Store) start : StronglySorted (fun a b => key_leb a b = true) (keys_from db start).
Proof.
  unfold keys_from. pose proof (sorted_keys_sorted db) as Hs. induction Hs as [|k l Hs IH Hall]; [constructor|].
  rewrite filter_cons. case_decide; [|done]. constructor; [done|]. rewrite Forall_forall in *.
  intros x [_ Hx]%list_elem_of_filter. auto.
Qed.

(** ** Undoing *)

(** Equal outside the journals. *)
Definition agree_outside (db db' : Store) : Prop := forall k, has_prefix UNDO_PREFIX k = false -> db !! k = db' !! k.

#[export] Instance agree_outside_equiv : Equivalence agree_outside.
Proof.
  split; [by intros db k|intros db db' Ha k Hk; symmetry; by apply Ha|].
  intros a b c Hab Hbc k Hk. etrans; [by apply Hab|by apply Hbc].
Qed.

#[export] Instance batch_agree : Proper (agree_outside ==> eq ==> agree_outside) (foldl batch_op).
Proof.
  intros db db' Ha l _ <-. revert db db' Ha. induction l as [|[k [v|]] l IH]; intros db db' Ha; [done|..]; apply IH;
    intros k' Hk'; unfold batch_op; cbn; destruct (decide (k = k')) as [->|Hne].
  - by rewrite !lookup_insert_eq.
  - rewrite !lookup_insert_ne by done. by apply Ha.
  - by rewrite !lookup_delete_eq.
  - rewrite !lookup_delete_ne by done. by apply Ha.
Qed.

Definition store_bytes (db : Store) : Prop := forall k v, db !! k = Some v -> Forall in_u8 k /\ Forall in_u8 v.

(** A write of bytes, not of a journal. *)
Definition good_write (kv : bytes * option bytes) : Prop :=
  Forall in_u8 kv.1 /\ from_option (Forall in_u8) True kv.2 /\ has_prefix UNDO_PREFIX kv.1 = false.

Definition good_plan (p : Plan) : Prop := forall k ov, p.(plan_writes) !! k = Some ov -> good_write (k, ov).

Record Applied : Type := MkApplied { ap_floor : Z; ap_height : Z; ap_plan : Plan }.

Section Undo.
Context `{ChainPrims} `{Json Journal} `{!JsonRoundTrip Journal}.
Hypothesis journal_bytes : forall j : Journal, Forall in_u8 (to_json j).
Hypothesis hex_round : forall b, Forall in_u8 b -> hex_decode (hex_encode b) = Some b.
Implicit Types (db : Store) (p : Plan).

Definition apply_one db (s : Applied) : Store := apply_plan db s.(ap_floor) s.(ap_height) s.(ap_plan).

(** The journals that plans leave. *)
Fixpoint left_by db (steps : list Applied) : list (bytes * Journal) :=
  match steps with
  | [] => []
  | s :: steps =>
      (if plan_is_empty s.(ap_plan) then [] else [(market_undo_key s.(ap_height), journal_of db s.(ap_plan))]) ++
      left_by (apply_one db s) steps
  end.

Lemma write_list_good p k ov : good_plan p -> (k, ov) ∈ write_list p -> good_write (k, ov).
Proof. intros Hp Hin%elem_of_write_list. by apply Hp. Qed.

(** The operations of one journal put back what the plan overwrote. *)
Lemma undo_ops_of db p key :
  store_bytes db -> good_plan p ->
  undo_ops (key, journal_of db p) = ((fun kv => (kv.1, db !! kv.1)) <$> write_list p) ++ [(key, None)].
Proof.
  intros Hdb Hp. unfold undo_ops, journal_of. cbn [snd prior]. f_equal.
  assert (Hall : Forall (fun kv : bytes * option bytes => good_write kv) (write_list p)).
  { apply Forall_forall. intros [k ov]. by apply write_list_good. }
  induction Hall as [|[k ov] l (Hk & _ & _) _ IH]; [done|]. cbn [fmap list_fmap concat fst snd] in *.
  assert (undo_op (hex_encode k, hex_encode <$> db !! k) = [(k, db !! k)]) as Eop.
  { unfold undo_op. cbn [fst snd]. rewrite hex_round by done. destruct (db !! k) as [v|] eqn:E; [|done].
    cbn. rewrite hex_round; [done|]. by destruct (Hdb k v E). }
  change (undo_op (hex_encode k, hex_encode <$> db !! k) ++ concat (undo_op <$> ((fun kv => (hex_encode kv.1, hex_encode <$> db !! kv.1)) <$> l)) =
    (k, db !! k) :: ((fun kv => (kv.1, db !! kv.1)) <$> l)).
  rewrite Eop. cbn [app]. f_equal. exact IH.
Qed.

Lemma undo_one_plan db floor height p :
  store_bytes db -> good_plan p -> plan_is_empty p = false ->
  agree_outside (foldl batch_op (apply_plan db floor height p) (undo_ops (market_undo_key height, journal_of db p))) db.
Proof.
  intros Hdb Hp He k Hk. rewrite undo_ops_of, foldl_app by done. cbn [foldl]. unfold batch_op at 1. cbn [fst snd].
  rewrite lookup_delete_ne by (intros <-; by rewrite undo_key_prefix in Hk).
  assert (Hkeys : ((fun kv => (kv.1, db !! kv.1)) <$> write_list p).*1 = (write_list p).*1)
    by (rewrite <-list_fmap_compose; by apply list_fmap_ext).
  destruct (p.(plan_writes) !! k) as [ov|] eqn:E.
  - apply batch_lookup_in; [rewrite Hkeys, write_list_keys; apply NoDup_sorted_keys|].
    apply list_elem_of_fmap. exists (k, ov). split; [done|]. by apply elem_of_write_list.
  - rewrite batch_lookup_notin.
    2: { intros v ([k' ov'] & [= -> ->] & Hin%elem_of_write_list)%list_elem_of_fmap. congruence. }
    unfold apply_plan. rewrite He, foldl_app. rewrite batch_lookup_notin.
    + rewrite written_lookup. unfold after. by rewrite E.
    + intros v [[= -> ->]|Hin]%elem_of_cons; [by rewrite undo_key_prefix in Hk|].
      unfold prune_journals in Hin. case_bool_decide; [set_solver|].
      apply list_elem_of_fmap in Hin as (k' & [= -> ->] & Hin%old_journals_prefix). congruence.
Qed.

Lemma batch_bytes db l :
  store_bytes db -> Forall (fun kv : bytes * option bytes => Forall in_u8 kv.1 /\ from_option (Forall in_u8) True kv.2) l ->
  store_bytes (foldl batch_op db l).
Proof.
  intros Hdb Hl. revert db Hdb. induction Hl as [|[k [v|]] l [Hk Hv] _ IH]; intros db Hdb; [done|..]; apply IH;
    intros k' v'; unfold batch_op; cbn in *.
  - intros [[<- <-]|[_ ?]]%lookup_insert_Some; eauto.
  - intros [_ ?]%lookup_delete_Some; eauto.
Qed.

Lemma undo_key_bytes h : Forall in_u8 (market_undo_key h).
Proof. apply Forall_app. split; [apply (bool_decide_eq_true_1 _); by vm_compute|apply be8_bytes]. Qed.

Lemma old_journals_in floor ks k : k ∈ old_journals floor ks -> k ∈ ks.
Proof.
  induction ks as [|k' ks IH]; cbn [old_journals]; [done|]. destruct (_ || _); [set_solver|]. destruct (bool_decide (floor < _)); [set_solver|].
  intros [->|Hk]%elem_of_cons; set_solver.
Qed.

Lemma pruned_in db floor k v : (k, v) ∈ prune_journals db floor -> v = None /\ is_Some (db !! k) /\ has_prefix UNDO_PREFIX k = true.
Proof.
  unfold prune_journals. case_bool_decide; [set_solver|]. intros (k' & [= -> ->] & Hin)%list_elem_of_fmap. split_and!; [done| |].
  - apply old_journals_in in Hin. unfold keys_from in Hin. apply list_elem_of_filter in Hin as [_ Hin]. by apply elem_of_sorted_keys.
  - by apply old_journals_prefix in Hin.
Qed.

Lemma apply_bytes db floor height p : store_bytes db -> good_plan p -> store_bytes (apply_plan db floor height p).
Proof.
  intros Hdb Hp. unfold apply_plan. destruct (plan_is_empty p); [done|]. apply batch_bytes; [done|].
  apply Forall_app. split; [|apply Forall_cons; split].
  - apply Forall_forall. intros [k ov] Hin. by destruct (write_list_good p k ov Hp Hin) as (? & ? & _).
  - split; [apply undo_key_bytes|apply journal_bytes].
  - apply Forall_forall. intros [k v] (-> & [w Hw] & _)%pruned_in. split; [by destruct (Hdb k w Hw)|done].
Qed.

(** Undoing what the plans left, from the last to the first. *)
Lemma undo_all db steps :
  store_bytes db -> Forall (fun s => good_plan s.(ap_plan)) steps ->
  agree_outside (foldl batch_op (foldl apply_one db steps) (concat (undo_ops <$> reverse (left_by db steps)))) db.
Proof.
  intros Hdb Hs. revert db Hdb. induction Hs as [|s steps Hp _ IH]; intros db Hdb; [done|]. cbn [foldl left_by].
  assert (Hdb1 : store_bytes (apply_one db s)) by (by apply apply_bytes).
  rewrite reverse_app, fmap_app, concat_app, foldl_app. rewrite (IH _ Hdb1).
  destruct (plan_is_empty s.(ap_plan)) eqn:E.
  - cbn. unfold apply_one, apply_plan. by rewrite E.
  - rewrite reverse_singleton. cbn [fmap list_fmap concat]. rewrite app_nil_r. by apply undo_one_plan.
Qed.

(** ** Finding the journals *)

Section Since.
Variable from_height : Z.
Hypothesis from_range : 0 <= from_height <= u64_max.

(** A journal of a height from [from_height] on. *)
Definition recent (k : bytes) : Prop := has_prefix UNDO_PREFIX k = true /\ key_leb (market_undo_key from_height) k = true.

Definition step_ok (s : Applied) : Prop :=
  good_plan s.(ap_plan) /\ from_height <= s.(ap_height) <= u64_max /\ s.(ap_floor) < from_height.

Lemma pruned_not_recent db floor k v :
  store_bytes db -> floor < from_height -> (k, v) ∈ prune_journals db floor -> ~ recent k.
Proof.
  intros Hdb Hf Hin [Hp Hge]. pose proof (pruned_in _ _ _ _ Hin) as (_ & [w Hw] & _). destruct (Hdb k w Hw) as [Hk _].
  unfold prune_journals in Hin. case_bool_decide; [set_solver|]. apply list_elem_of_fmap in Hin as (k' & [= -> ->] & Hin).
  clear Hw. induction (keys_from db UNDO_PREFIX) as [|k1 ks IH]; cbn [old_journals] in Hin; [set_solver|].
  destruct (_ || _) eqn:E; [set_solver|]. apply orb_false_iff in E as [_ Hlen%bool_decide_eq_false_1].
  destruct (bool_decide (floor < _)) eqn:Ef; [set_solver|]. apply bool_decide_eq_false_1 in Ef.
  apply elem_of_cons in Hin as [<-|Hin]; [|auto]. rewrite early_journal in Hge; [done|done|done|done|lia|lia].
Qed.

Lemma recent_lookup db s k :
  store_bytes db -> step_ok s -> recent k ->
  apply_one db s !! k =
    if plan_is_empty s.(ap_plan) then db !! k
    else if bool_decide (k = market_undo_key s.(ap_height)) then Some (to_json (journal_of db s.(ap_plan))) else db !! k.
Proof.
  intros Hdb (Hp & Hh & Hf) Hr. unfold apply_one, apply_plan. destruct (plan_is_empty _); [done|].
  rewrite foldl_app. cbn [foldl app]. rewrite batch_lookup_notin by (intros v Hin; by eapply pruned_not_recent in Hin).
  unfold batch_op at 1. cbn [fst snd]. case_bool_decide as Hk; [subst k; apply lookup_insert_eq|].
  rewrite lookup_insert_ne, written_lookup by done. unfold after.
  destruct (plan_writes _ !! k) as [ov|] eqn:E; [|done]. destruct (Hp _ _ E) as (_ & _ & Hn). destruct Hr as [Hr _]. cbn [fst] in Hn. by rewrite Hr in Hn.
Qed.

(** Heights only go up. *)
Fixpoint ascending (h : Z) (steps : list Applied) : Prop :=
  match steps with
  | [] => True
  | s :: steps => h <= s.(ap_height) /\ ascending (s.(ap_height) + 1) steps
  end.

Lemma left_by_height db steps h k j :
  ascending h steps -> (k, j) ∈ left_by db steps -> exists h', h <= h' /\ k = market_undo_key h' /\ h' ∈ ap_height <$> steps.
Proof.
  revert db h. induction steps as [|s steps IH]; intros db h Ha Hin; [cbn in Hin; set_solver|]. destruct Ha as [Hh Ha].
  cbn [left_by] in Hin. apply elem_of_app in Hin as [Hin|Hin].
  - destruct (plan_is_empty _); [set_solver|]. apply list_elem_of_singleton in Hin as [= -> ->]. exists s.(ap_height). set_solver.
  - destruct (IH _ _ Ha Hin) as (h' & ? & -> & ?). exists h'. split_and!; [lia|done|set_solver].
Qed.

Lemma undo_key_recent h : from_height <= h <= u64_max -> recent (market_undo_key h).
Proof. intros Hh. split; [apply has_prefix_self|]. rewrite undo_key_leb by lia. lia. Qed.

Lemma left_lookup steps : forall db h,
  store_bytes db -> Forall step_ok steps -> ascending h steps ->
  (forall k j, (k, j) ∈ left_by db steps -> foldl apply_one db steps !! k = Some (to_json j)) /\
  (forall k, recent k -> k ∉ (left_by db steps).*1 -> foldl apply_one db steps !! k = db !! k).
Proof.
  induction steps as [|s steps IH]; intros db h Hdb Hs Ha; [by split; [set_solver|]|].
  apply Forall_cons in Hs as [Hs1 Hs]. destruct Ha as [Hh Ha]. cbn [foldl left_by].
  assert (Hdb1 : store_bytes (apply_one db s)) by (apply apply_bytes; [done|apply Hs1]).
  destruct (IH _ _ Hdb1 Hs Ha) as [IH1 IH2]. split.
  - intros k j [Hin|Hin]%elem_of_app; [|by apply IH1]. destruct (plan_is_empty _) eqn:E; [set_solver|].
    apply list_elem_of_singleton in Hin as [= -> ->]. destruct Hs1 as (Hp & Hr & Hf) eqn:Es.
    rewrite IH2; [|by apply undo_key_recent|].
    + rewrite recent_lookup, E, bool_decide_eq_true_2 by (done || by apply undo_key_recent). done.
    + intros ([k j] & Ek & Hin)%list_elem_of_fmap. cbn in Ek. subst k.
      destruct (left_by_height _ _ _ _ _ Ha Hin) as (h' & Hh' & Ek & Hin'). apply undo_key_inj in Ek; [lia|lia|].
      apply list_elem_of_fmap in Hin' as (s' & -> & Hin'). rewrite Forall_forall in Hs. destruct (Hs s' Hin') as (_ & ? & _). lia.
  - intros k Hr Hn. rewrite IH2 by (done || set_solver). rewrite recent_lookup by done. destruct (plan_is_empty _); [done|].
    rewrite bool_decide_eq_false_2; [done|]. set_solver.
Qed.

Lemma left_by_sorted steps : forall db h,
  Forall step_ok steps -> ascending h steps ->
  StronglySorted (fun a b => key_leb a b = true) (left_by db steps).*1 /\ NoDup (left_by db steps).*1.
Proof.
  induction steps as [|s steps IH]; intros db h Hs Ha; [by split; constructor|].
  apply Forall_cons in Hs as [Hs1 Hs]. destruct Ha as [Hh Ha]. cbn [left_by].
  destruct (IH (apply_one db s) _ Hs Ha) as [Hsort Hnd]. destruct (plan_is_empty _); [done|]. cbn [fmap list_fmap app fst].
  assert (Hlater : forall k, k ∈ (left_by (apply_one db s) steps).*1 ->
    exists h', s.(ap_height) < h' <= u64_max /\ k = market_undo_key h').
  { intros k ([k' j] & -> & Hin)%list_elem_of_fmap. destruct (left_by_height _ _ _ _ _ Ha Hin) as (h' & Hh' & Ek & Hin').
    apply list_elem_of_fmap in Hin' as (s' & -> & Hin'). rewrite Forall_forall in Hs. destruct (Hs s' Hin') as (_ & ? & _).
    exists s'.(ap_height). split; [lia|done]. }
  destruct Hs1 as (_ & Hr & _). split.
  - apply SSorted_cons; [done|]. apply Forall_forall. intros k (h' & Hh' & ->)%Hlater. rewrite undo_key_leb by lia. lia.
  - apply NoDup_cons. split; [|done]. intros (h' & Hh' & E)%Hlater. apply undo_key_inj in E; lia.
Qed.

(** No journals from [from_height] on. *)
Definition none_since db : Prop := forall k, recent k -> db !! k = None.

Lemma journals_found steps db h :
  store_bytes db -> none_since db -> Forall step_ok steps -> ascending h steps ->
  journals_since (foldl apply_one db steps) from_height = left_by db steps.
Proof.
  intros Hdb Hnone Hs Ha. destruct (left_lookup steps db h Hdb Hs Ha) as [Hin Hout].
  destruct (left_by_sorted steps db h Hs Ha) as [Hsort Hnd]. unfold journals_since. set (db' := foldl apply_one db steps) in *.
  assert (while_prefix UNDO_PREFIX (keys_from db' (market_undo_key from_height)) = (left_by db steps).*1) as ->.
  { rewrite (while_prefix_sorted _ (market_undo_key from_height)); [|apply undo_key_prefix| |apply keys_from_sorted].
    2: { apply Forall_forall. unfold keys_from. by intros k [? _]%list_elem_of_filter. }
    apply (StronglySorted_unique_strong (fun a b => key_leb a b = true)).
    - intros a b _ _. apply key_leb_antisym.
    - pose proof (keys_from_sorted db' (market_undo_key from_height)) as Hk. induction Hk as [|k l Hk IH Hall]; [constructor|].
      rewrite filter_cons. case_decide; [|done]. constructor; [done|]. rewrite Forall_forall in *.
      intros x [_ Hx]%list_elem_of_filter. auto.
    - done.
    - apply NoDup_Permutation; [apply NoDup_filter; unfold keys_from; apply NoDup_filter, NoDup_sorted_keys|done|].
      intros k. unfold keys_from. rewrite !list_elem_of_filter, elem_of_sorted_keys. split.
      + intros (Hp & Hge & [v Hv]). destruct (decide (k ∈ (left_by db steps).*1)) as [|Hn]; [done|].
        rewrite Hout in Hv by done. by rewrite Hnone in Hv.
      + intros Hk. apply list_elem_of_fmap in Hk as ([k' j] & -> & Hk). cbn [fst].
        destruct (left_by_height _ _ _ _ _ Ha Hk) as (h' & _ & -> & Hin'). apply list_elem_of_fmap in Hin' as (s' & -> & Hin').
        rewrite Forall_forall in Hs. destruct (Hs s' Hin') as (_ & ? & _).
        destruct (undo_key_recent s'.(ap_height)) as [? ?]; [lia|]. split_and!; [done..|]. exists (to_json j). by apply Hin. }
  rewrite <-list_fmap_compose. rewrite <-(list_fmap_id (left_by db steps)) at 2. apply list_fmap_ext.
  intros i [k j] Hi%list_elem_of_lookup_2. cbn. f_equal. unfold read. rewrite (Hin k j Hi). cbn [mbind option_bind].
  by rewrite from_to_json.
Qed.

Lemma rollback_plans steps db :
  store_bytes db -> none_since db -> Forall step_ok steps -> ascending from_height steps ->
  agree_outside (rollback (foldl apply_one db steps) from_height) db.
Proof.
  intros Hdb Hnone Hs Ha. unfold rollback. rewrite (journals_found steps db from_height) by done.
  apply undo_all; [done|]. eapply Forall_impl; [exact Hs|]. by intros s (? & _).
Qed.
End Since.
End Undo.

(** ** The plans of blocks *)

(** [serde_json] writes bytes. *)
Class JsonBytes (A : Type) `{Json A} : Prop := to_json_bytes : forall a : A, Forall in_u8 (to_json a).

Lemma ascii_bytes_u8 s : Forall in_u8 (ascii_bytes s).
Proof.
  induction s as [|x s IH]; [by apply Forall_nil|]. apply Forall_cons. split; [|done]. unfold in_u8, u8_max.
  pose proof (Ascii.nat_ascii_bounded x). lia.
Qed.

(** Prefixes that differ where both are. *)
Definition clash (p q : bytes) : bool := negb (bool_decide (take (length q) p = take (length p) q)).

Lemma clash_prefix p q k : clash p q = true -> has_prefix p (q ++ k) = false.
Proof.
  intros Hc%negb_true_iff%bool_decide_eq_false_1. apply not_true_is_false. intros [r E]%has_prefix_inv. apply Hc.
  assert (take (length q) (take (length p) (q ++ k)) = take (length q) p) as E1 by by rewrite E, take_app_length.
  rewrite <-E1, take_take, (Nat.min_comm _ (length p)), <-take_take, take_app_length. done.
Qed.

Definition good_key (k : bytes) : Prop := Forall in_u8 k /\ has_prefix UNDO_PREFIX k = false.

Lemma good_parts (prefix : string) rest :
  clash UNDO_PREFIX (ascii_bytes prefix) = true -> Forall in_u8 rest -> good_key (ascii_bytes prefix ++ rest).
Proof. intros Hc Hr. split; [apply Forall_app; split; [apply ascii_bytes_u8|done]|by apply clash_prefix]. Qed.

Ltac good_by_prefix :=
  rewrite ?ascii_bytes_app, <-?(assoc_L (++)); apply good_parts; [by vm_compute|];
  repeat (apply Forall_app; split); auto using ascii_bytes_u8, be8_bytes.

Lemma good_offer_key id : good_key (offer_key id).
Proof. unfold offer_key. good_by_prefix. Qed.
Lemma good_trade_key id : good_key (trade_key id).
Proof. unfold trade_key. good_by_prefix. Qed.
Lemma good_profile_key a : good_key (profile_key a).
Proof. unfold profile_key. good_by_prefix. Qed.
Lemma good_feedback_key id r : good_key (feedback_key id r).
Proof. unfold feedback_key. good_by_prefix. Qed.
Lemma good_pair_key a b : good_key (pair_key a b).
Proof. unfold pair_key. case_match. good_by_prefix. Qed.
Lemma good_book_key a f s h id : good_key (book_key a f s h id).
Proof. unfold book_key, book_prefix. good_by_prefix. Qed.
Lemma good_maker_offer_key m id : good_key (maker_offer_key m id).
Proof. unfold maker_offer_key, maker_offers_prefix. good_by_prefix. Qed.
Lemma good_user_trade_key a h id : good_key (user_trade_key a h id).
Proof. unfold user_trade_key, user_trades_prefix. good_by_prefix. Qed.
Lemma good_arbiter_addr_key a : good_key (arbiter_addr_key a).
Proof. unfold arbiter_addr_key. good_by_prefix. Qed.
Lemma good_arbiter_case_key a h id : good_key (arbiter_case_key a h id).
Proof. unfold arbiter_case_key, arbiter_cases_prefix. good_by_prefix. Qed.
Lemma good_leaderboard_key n a : good_key (leaderboard_key n a).
Proof. unfold leaderboard_key, LEADERBOARD_PREFIX. good_by_prefix. Qed.
Lemma good_escrow_key : good_key ESCROW_KEY.
Proof. rewrite <-(app_nil_r ESCROW_KEY). unfold ESCROW_KEY. apply good_parts; [by vm_compute|by apply Forall_nil]. Qed.

#[export] Hint Resolve good_offer_key good_trade_key good_profile_key good_feedback_key good_pair_key good_book_key good_maker_offer_key
  good_user_trade_key good_arbiter_addr_key good_arbiter_case_key good_leaderboard_key good_escrow_key : market.

Lemma good_some k v : good_key k -> Forall in_u8 v -> good_write (k, Some v).
Proof. by intros [? ?] ?. Qed.
Lemma good_none k : good_key k -> good_write (k, None).
Proof. by intros [? ?]. Qed.
Lemma u8_nil : Forall in_u8 [].
Proof. by apply Forall_nil. Qed.
Lemma u8_json {A} `{JsonBytes A} (a : A) : Forall in_u8 (to_json a).
Proof. apply to_json_bytes. Qed.
#[export] Hint Resolve good_some good_none u8_nil u8_json : market.

(** All writes are good. *)
Definition good_map (m : gmap bytes (option bytes)) : Prop := map_Forall (fun k ov => good_write (k, ov)) m.

Lemma good_put m k ov : good_map m -> good_write (k, ov) -> good_map (put_write m (k, ov)).
Proof. intros Hm Hw. by apply map_Forall_insert_2. Qed.

Lemma good_puts ws m : good_map m -> Forall good_write ws -> good_map (foldl put_write m ws).
Proof. intros Hm Hw. revert m Hm. induction Hw as [|[k ov] ws Hk _ IH]; intros m Hm; [done|]. cbn [foldl]. by apply IH, good_put. Qed.

Lemma good_pairs h ps m :
  good_map m.(m_writes) -> Forall (fun p => good_key p.1.1) ps -> good_map (foldl (merge_pair h) m ps).(m_writes).
Proof.
  intros Hm Hp. revert m Hm. induction Hp as [|[[k a] b] ps Hk _ IH]; intros m Hm; [done|]. cbn [foldl]. apply IH.
  unfold merge_pair. case_bool_decide; [done|]. apply good_put; [done|]. apply good_some; [done|apply to_le_bytes_byte].
Qed.

Section GoodPlans.
Context `{CryptoPrims} `{ChainPrims} `{MarketPrims} `{MarketJson}.
Context `{!JsonBytes Offer} `{!JsonBytes Trade} `{!JsonBytes Feedback} `{!JsonBytes ArbiterAddresses} `{!JsonBytes Profile} `{!JsonBytes EscrowTotals}.
Implicit Types (c : Ctx) (tx : LedgerTx) (p : Planner).

Record GoodEffects (fx : Effects) : Prop := {
  good_writes : Forall good_write fx.(fx_writes);
  good_fx_pairs : Forall (fun q => good_key q.1.1) fx.(fx_pairs);
}.

Ltac good_effects := split; cbn [fx_writes fx_pairs]; repeat (apply Forall_cons; split); eauto 6 with market; try by apply Forall_nil.

Lemma trade_open_good c tx fx : trade_open_effects c tx = Ok fx -> GoodEffects fx.
Proof.
  intros Hfx. unfold trade_open_effects in Hfx. cbn zeta in Hfx. mk_cases.
  all: destruct (parties _ _ _ _) as [[[[? ?] ?] ?] ?]; mk_cases; good_effects.
Qed.

Lemma effects_good c tx fx : effects_of c tx = Ok (Some fx) -> GoodEffects fx.
Proof.
  intros Hfx. unfold effects_of in Hfx. destruct (is_market_settle tx).
  { apply result_bind_Ok in Hfx as (fx' & Hfx & [= <-]). unfold settle_effects in Hfx. cbn zeta in Hfx. mk_cases.
    unfold trade_write. good_effects. unfold settle_pairs. case_match; [apply Forall_singleton; cbn; auto with market|by apply Forall_nil]. }
  destruct (is_escrow_deposit tx); [|done]. apply result_bind_Ok in Hfx as (fx' & Hfx & [= <-]).
  unfold signed_effects in Hfx. apply result_bind_Ok in Hfx as (u & _ & Hfx).
  repeat (case_bool_decide; [first [by eapply trade_open_good|
    unfold offer_effects, offer_close_effects, lock_effects, cancel_effects, paid_effects, dispute_effects, feedback_effects,
      arbiter_effects, trade_write in Hfx; cbn zeta in Hfx; mk_cases; good_effects]|]).
  done.
Qed.

Lemma run_good c l p : Run c l p -> good_map p.(p_writes).
Proof.
  induction 1 as [|l p tx fx _ IH Hfx]; [apply map_Forall_empty|]. destruct (effects_good _ _ _ Hfx) as [Hw Hp].
  cbn [add_admitted merge p_writes]. apply good_pairs; [|done]. cbn [m_writes]. by apply good_puts.
Qed.

Lemma finish_good p : good_map p.(p_writes) -> good_map (finish p).(plan_writes).
Proof.
  intros Hm. assert (Hf : forall ads m, good_map m -> good_map (foldl (finish_profile p.(p_ctx).(reader)) m ads)).
  { induction ads as [|[a d] ads IH]; intros m Hg; [done|]. cbn [foldl]. apply IH. unfold finish_profile.
    repeat case_bool_decide; try done; repeat apply good_put; eauto with market. }
  unfold finish. cbn [plan_writes]. case_match; [|by apply Hf]. apply good_put; [by apply Hf|]. auto with market.
Qed.

Lemma block_good db stamp activation height txs : good_plan (plan_block db stamp activation height txs).
Proof.
  destruct (plan_block_run db stamp activation height txs) as (l & p & refused & Hrun & _ & Hw & _).
  intros k ov. rewrite Hw. intros Hk. by apply (finish_good p (run_good _ _ _ Hrun)).
Qed.
End GoodPlans.
