(* ===== verification/MarketTheorems.v ===== *)
(** * The market: theorems

    The coins of the escrow are those of the open trades, in the totals the
    column records and in the balance of the escrow's address; what a block is
    checked for is what it does; a trade changes only by the rules; a settlement
    pays what the terms say, and one that the rules allow is admitted. *)
From S2P Require Import Prelude Crypto Ledger RuleText LedgerFacts Totals Balances BalancesFacts BalancesSim MarketData MarketChecks MarketPlan MarketFacts MarketSteps MarketRuns MarketBooks MarketUndo.
Local Open Scope string_scope.
Local Open Scope list_scope.
Local Open Scope Z_scope.
Local Open Scope ego_scope.

Section Theorems.
Context `{CryptoPrims} `{ChainPrims} `{MarketPrims} `{MarketJson} `{Json Journal}.
Context `{!JsonRoundTrip Trade} `{!JsonRoundTrip Offer} `{!JsonRoundTrip EscrowTotals}.
Implicit Types (c : Ctx) (tx : LedgerTx) (t : Trade) (txs : list LedgerTx).

(** ** Blocks *)

Record MarketBlock : Type := MkMarketBlock { mb_floor : Z; mb_height : Z; mb_txs : list LedgerTx }.

(** The plan of a block, and the column after it. *)
Definition block_plan (stamp : Z -> option Z) (activation : option Z) (db : Store) (b : MarketBlock) : Plan :=
  plan_block db stamp activation b.(mb_height) b.(mb_txs).

Definition apply_block (stamp : Z -> option Z) (activation : option Z) (db : Store) (b : MarketBlock) : Store :=
  apply_plan db b.(mb_floor) b.(mb_height) (block_plan stamp activation db b).

(** The coins that each block could bring in fit. *)
Fixpoint blocks_fit (stamp : Z -> option Z) (activation : option Z) (db : Store) (blocks : list MarketBlock) : Prop :=
  match blocks with
  | [] => True
  | b :: blocks => block_fits db b.(mb_txs) /\ blocks_fit stamp activation (apply_block stamp activation db b) blocks
  end.

Lemma block_books stamp activation db b :
  market_ok db -> block_fits db b.(mb_txs) -> market_ok (apply_block stamp activation db b).
Proof.
  intros Hok Hfit. pose proof (ok_sound _ Hok) as Hdb. unfold apply_block, block_plan.
  destruct (plan_block_run db stamp activation b.(mb_height) b.(mb_txs)) as (l & p & refused & Hrun & Hp & Hw & _).
  destruct (block_run_fits db stamp b.(mb_height) b.(mb_txs) l refused p) as (Ha & Hi & Ho); try done.
  by eapply (run_totals (ctx_at db stamp b.(mb_height)) l p).
Qed.

(** C26: the escrow's books are kept.  When every trade and offer is under its own
    id with fair terms, and the recorded totals are the coins and the number of
    the EGOC trades in escrow, then the same holds after any blocks are planned
    and their plans applied, whatever transactions they carry, as long as the
    coins a block could bring in fit in a [u64]. *)
Theorem escrow_books stamp activation (blocks : list MarketBlock) db :
  market_ok db -> blocks_fit stamp activation db blocks -> market_ok (foldl (apply_block stamp activation) db blocks).
Proof.
  revert db. induction blocks as [|b blocks IH]; intros db Hok Hfit; [done|]. destruct Hfit as [Hfit Hrest].
  cbn [foldl]. apply IH; [by apply block_books|done].
Qed.

(** C3: the escrow is solvent.  Let the balance of the escrow's address be the
    coins of the trades in escrow.  After a block of new transactions with
    different hashes, of which those the plan rejects take no effect, the balance
    written by [write_block_batch] is again the coins of the trades in escrow
    after [apply_plan], so no settlement is paid short and no coins are left over,
    and [check_invariants], which compares it with the recorded totals, reports
    nothing. *)
Theorem escrow_solvent `{ChainRules} (column : Store) stamp activation floor (db : Db) mine height txs last :
  market_ok column -> balance_of db MARKET_ESCROW_ADDR = held column -> block_fits column txs ->
  NoDup (tx_hash <$> txs) -> follows_plan (plan_block column stamp activation height txs) txs -> not_paid ->
  Forall (fun tx => tx.(tx_hash) ∉ db.(committed_txs) /\ 0 <= tx.(tx_amount) /\ tx.(tx_from) <> FOUNDATION_ADDR) txs ->
  let column' := apply_plan column floor height (plan_block column stamp activation height txs) in
  let balance' := at_ (write_balances db (gather db mine height txs)) MARKET_ESCROW_ADDR in
  balance' = held column' /\ check_invariants column' balance' height last = (None, []).
Proof.
  intros Hok Hbal Hfit Hnd Hfollow Hnp Hall. pose proof (ok_sound _ Hok) as Hdb. cbn zeta.
  destruct (plan_block_run column stamp activation height txs) as (l & p & refused & Hrun & Hp & Hw & Hrej).
  destruct (run_flows column stamp activation height txs l p refused Hrun Hp Hrej Hnd Hfollow Hdb) as [Ei Eo].
  destruct (block_run_fits column stamp height txs l refused p Hrun Hdb Hfit Hp) as (Ha & Hi & _).
  pose proof (run_out_le _ _ _ Hrun Hdb) as Hout. destruct (run_held _ _ _ _ floor height Hrun Hdb Hw) as [Eh _].
  cbn [ctx_at reader] in *.
  assert (at_ (write_balances db (gather db mine height txs)) MARKET_ESCROW_ADDR =
    held (apply_plan column floor height (plan_block column stamp activation height txs))) as E.
  { rewrite Eh, block_escrow, Ei, Eo, Hbal by (rewrite ?Ei, ?Eo, ?Hbal; done || by eapply run_judged). done. }
  split; [exact E|]. rewrite E. unfold check_invariants. fold (totals_in (apply_plan column floor height (plan_block column stamp activation height txs))).
  pose proof (ok_totals _ (block_books stamp activation column (MkMarketBlock floor height txs) Hok Hfit)) as Ht.
  unfold apply_block, block_plan in Ht. cbn [mb_floor mb_height mb_txs] in Ht. rewrite Ht. cbn [held_uegoc].
  by rewrite bool_decide_eq_false_2 by (intros Hne; by apply Hne).
Qed.

(** C27: what a block is checked for is what it does.  When
    [validate_block_market_txs] accepts a block, the plan for its new
    transactions rejects none of them: although [plan_block] judges them in the
    order of their hashes and not in the block's, all take effect. *)
Theorem validated_market_applies db stamp committed activation height txs :
  validate_block_market_txs db stamp committed activation height txs = Ok tt ->
  (plan_block db stamp activation height (filter (fun tx => committed tx.(tx_hash) = false) txs)).(rejected) = [].
Proof.
  set (fresh := filter _ txs). unfold validate_block_market_txs, plan_block. intros Hv.
  case_bool_decide as Hm; [done|].
  assert (Hcomm : filter (fun tx => committed tx.(tx_hash) = false) (filter (fun tx => touches_market tx = true) txs) =
    filter (fun tx => touches_market tx = true) fresh).
  { subst fresh. rewrite !list_filter_filter. apply list_filter_iff. intros tx. tauto. }
  destruct (existsb touches_market txs) eqn:Ex; cbn [negb] in Hv.
  2: { destruct Hm. destruct (filter (fun tx => touches_market tx = true) fresh) as [|tx r] eqn:Ef; [done|].
       assert (touches_market tx = true /\ tx ∈ txs) as [Ht Hin].
       { assert (tx ∈ tx :: r) as Hin by set_solver. rewrite <-Ef in Hin. subst fresh. rewrite !list_elem_of_filter in Hin. naive_solver. }
       enough (existsb touches_market txs = true) by congruence. apply existsb_exists. exists tx. by rewrite <-list_elem_of_In. }
  destruct (rule_active activation height); cbn [negb] in *; [|done].
  apply result_bind_Ok in Hv as (p & Hv & _). set (c := ctx_at db stamp height).
  destruct (admit_all_run c committed (filter (fun tx => touches_market tx = true) txs) [] (planner_at c) p) as (l & Hrun & El);
    [|constructor|exact Hv|].
  { apply Forall_forall. by intros tx [? _]%list_elem_of_filter. }
  set (sorted := stable_sort _ _). assert (Hs : sorted ≡ₚ l.*1) by (rewrite El, Hcomm; apply stable_sort_perm).
  destruct (perm_fst l sorted Hs) as (l' & Hp & <-).
  destruct (compat_fold c l' [] (planner_at c) []) as (p' & Hf & _); [apply run_nil|cbn [app]; rewrite Hp; by eapply run_compat|].
  change (planner_new db height (chain_time stamp height)) with (planner_at c). by rewrite Hf.
Qed.

(** ** Trades *)

Definition trade_in (db : Store) (id : string) : option Trade := read db (trade_key id).

Lemma block_trade db stamp activation floor height txs id :
  sound_column db ->
  let db' := apply_plan db floor height (plan_block db stamp activation height txs) in
  trade_in db' id = trade_in db id \/
  exists tx t, tx ∈ txs /\ trade_in db' id = Some t /\ Step (ctx_at db stamp height) tx (trade_in db id) t.
Proof.
  intros Hdb. cbn zeta. destruct (plan_block_run db stamp activation height txs) as (l & p & refused & Hrun & Hp & Hw & _).
  set (c := ctx_at db stamp height) in *. unfold trade_in.
  rewrite (read_after (A := Trade)) by (apply marked_not_plain; left; apply trade_key_is). unfold after.
  rewrite Hw, finish_marked by first [apply trade_key_not_totals|apply marked_not_plain; left; apply trade_key_is].
  destruct (p.(p_writes) !! trade_key id) as [ov|] eqn:E; [right|by left].
  destruct (ri_trade _ _ _ (run_inv c l p Hdb Hrun) _ _ (trade_key_is id) E) as (t & tx & fx & -> & Hk & Hwr).
  apply (inj trade_key) in Hk as ->. exists tx, t. split_and!.
  - assert (tx ∈ l.*1 ++ refused) as Hin by (apply elem_of_app; left; apply list_elem_of_fmap; exists (tx, fx); split; [done|apply Hwr]).
    rewrite Hp in Hin. by apply list_elem_of_filter in Hin as [_ ?].
  - cbn [mbind option_bind]. by rewrite from_to_json.
  - apply (wrote_step _ _ _ _ _ Hwr).
Qed.

(** C28: a trade changes only by the rules.  What a block leaves under a trade's id
    is what was there, or the result of one rule applied by one transaction of the
    block, in the state and at the time of the block: opened by a taker of an open
    offer on its terms, funded in time by the seller, cancelled by a party before it
    is funded, marked paid by the buyer, disputed by a party when its time has come,
    or settled on the signature of someone who may. *)
Theorem trade_moves_by_rule db stamp activation floor height txs id :
  sound_column db ->
  let db' := apply_plan db floor height (plan_block db stamp activation height txs) in
  trade_in db' id = trade_in db id \/
  exists tx t, tx ∈ txs /\ trade_in db' id = Some t /\ Step (ctx_at db stamp height) tx (trade_in db id) t.
Proof. apply block_trade. Qed.

Lemma block_sound db stamp activation floor height txs :
  sound_column db -> sound_column (apply_plan db floor height (plan_block db stamp activation height txs)).
Proof.
  intros Hdb. destruct (plan_block_run db stamp activation height txs) as (l & p & refused & Hrun & Hp & Hw & _).
  by eapply (run_sound (ctx_at db stamp height) l p).
Qed.

(** the terms of a trade are fixed, and a trade that has ended stays as it is.
    Through any blocks, a trade stays on record with its parties, amounts, fee and
    payout address, and one that was cancelled, released or refunded is not
    changed again. *)
Theorem ended_trade_stays stamp activation (blocks : list MarketBlock) db id t :
  sound_column db -> trade_in db id = Some t ->
  exists t', trade_in (foldl (apply_block stamp activation) db blocks) id = Some t' /\ same_terms t t' /\
    (final t = true -> t' = t).
Proof.
  revert db t. induction blocks as [|b blocks IH]; intros db t Hdb Ht; [by exists t|]. cbn [foldl].
  set (db1 := apply_block stamp activation db b). assert (Hdb1 : sound_column db1) by by apply block_sound.
  assert (exists t1, trade_in db1 id = Some t1 /\ same_terms t t1 /\ (final t = true -> t1 = t)) as (t1 & Ht1 & Hs1 & Hf1).
  { destruct (block_trade db stamp activation b.(mb_floor) b.(mb_height) b.(mb_txs) id Hdb) as [E|(tx & t1 & _ & E & Hs)].
    - exists t. split_and!; [by unfold db1, apply_block, block_plan; rewrite E|done..].
    - rewrite Ht in Hs. exists t1. split_and!; [done|by eapply step_terms|]. intros Hf. apply step_not_final in Hs. congruence. }
  destruct (IH db1 t1 Hdb1 Ht1) as (t' & E & Hs & Hf). exists t'. split_and!; [done|by etrans|].
  intros Hfin. specialize (Hf1 Hfin). subst t1. auto.
Qed.

(** ** Settlements *)

(** a settlement pays what the terms say.  A settlement of an EGOC trade that
    is admitted takes exactly the locked coins out of the escrow.  A release credits
    the buyer with the traded amount when the maker sold, and with the amount less
    the fee when the maker bought, so that the maker bears the fee; a refund credits
    the seller with all that was locked. *)
Theorem settlement_pays c tx fx :
  sound_column c.(reader) -> is_market_settle tx = true -> effects_of c tx = Ok (Some fx) ->
  exists b t, check_settle_shape tx = Ok b /\ trade_in c.(reader) b.(sb_trade_id) = Some t /\
    (t_is_egoc t = true ->
     fx.(fx_escrow_out) = t.(t_locked_micro) /\ tx.(tx_amount) = t.(t_locked_micro) /\
     match b.(sb_outcome) with
     | Release =>
         tx.(tx_to) = t.(t_buyer) /\ tx.(fee_uegoc) = trade_fee EGOC t.(t_amount_micro) /\
         credited_to_recipient tx =
           (if bool_decide (t.(t_maker) = t.(t_seller)) then t.(t_amount_micro)
            else t.(t_amount_micro) - trade_fee EGOC t.(t_amount_micro))
     | Refund => tx.(tx_to) = t.(t_seller) /\ tx.(fee_uegoc) = 0 /\ credited_to_recipient tx = t.(t_locked_micro)
     end).
Proof.
  intros Hdb Hset Hfx. unfold effects_of in Hfx. rewrite Hset in Hfx. apply result_bind_Ok in Hfx as (fx' & Hfx & [= ->]).
  unfold settle_effects in Hfx. cbn zeta in Hfx. mk_cases.
  match goal with Hk : known_trade _ _ = Ok ?t, Hb : check_settle_shape tx = Ok ?b |- _ =>
    destruct (known_trade_Ok _ _ _ Hdb Hk) as (Et & _ & Hf & _); exists b, t; split_and!; [done|exact Et|] end.
  intros Heg. cbn [fx_escrow_out]. rewrite Heg. destruct (fair_locked_range _ Hf) as [Hl Hfee]. destruct Hf as [Ha Ef Hne Hlo].
  unfold settle_amount, settle_fee, t_is_egoc in *. rewrite Heg in *. unfold is_egoc in Heg. apply bool_decide_eq_true_1 in Heg.
  rewrite Heg in Ef. unfold credited_to_recipient, pays_fee_from_amount. rewrite Hset, orb_true_r.
  split_and!; [done..|]. unfold sat_sub. destruct (sb_outcome _); cbn [payout_to payout_fee] in *; split_and!; try congruence; [|lia].
  rewrite <-Ef. case_bool_decide; destruct Hlo as [(? & ? & ?)|(? & ? & ?)]; first [congruence|lia].
Qed.

Lemma ascii_string_of_bytes b : Forall in_u8 b -> ascii_bytes (string_of_bytes b) = b.
Proof.
  induction 1 as [|x b Hx _ IH]; [done|]. cbn. rewrite IH. f_equal. unfold in_u8 in Hx.
  rewrite Ascii.nat_ascii_embedding by (unfold u8_max in *; lia). lia.
Qed.

(** no coins are stuck.  A settlement made by [settle_tx] for an EGOC trade in
    escrow is admitted as soon as its body is signed by someone entitled to it and
    the rules allow it: the seller can always release, the buyer can always give the
    coins back, and when the payment is overdue the seller can take them. *)
Theorem allowed_settlement_admitted `{!JsonRoundTrip SettleBody} c (b : SettleBody) t signer timestamp :
  trade_in c.(reader) b.(sb_trade_id) = Some t -> t_is_egoc t = true ->
  valid_id b.(sb_trade_id) = true -> b.(sb_native_sig) = None ->
  Forall in_u8 (to_json b) -> (length (to_json b) <= 1024)%nat ->
  verify_auth b = Ok signer -> entitled t b.(sb_by) signer = true -> may_settle c.(c_now) t b.(sb_outcome) b.(sb_by) ->
  exists fx, effects_of c (market_settle_tx b t timestamp) = Ok (Some fx) /\ fx.(fx_escrow_out) = t.(t_locked_micro).
Proof.
  intros Ht Heg Hid Hnat Hu8 Hlen Hauth Hent Hmay. set (tx := market_settle_tx b t timestamp).
  assert (Hargs : ascii_bytes tx.(call_args) = to_json b) by by apply ascii_string_of_bytes.
  assert (Hstrlen : forall s, String.length s = length (ascii_bytes s)) by (induction s as [|x s IH]; cbn; congruence).
  assert (check_settle_shape tx = Ok b) as Hshape.
  { unfold check_settle_shape. subst tx. cbn [market_settle_tx tx_type tx_signature tx_public_key_ed25519 tx_dilithium_signature tx_nonce].
    rewrite !bool_decide_eq_false_2 by (rewrite ?Hstrlen, ?Hargs; first [done|lia|naive_solver]). cbn [orb].
    unfold from_str. rewrite Hargs, from_to_json. cbn [prefix_err result_bind]. rewrite bool_decide_eq_false_2 by naive_solver.
    rewrite bool_decide_eq_false_2 by naive_solver. by rewrite Hid, Hnat. }
  assert (Hall : settle_allowed t c.(c_now) b.(sb_outcome) b.(sb_by) = Ok true).
  { unfold settle_allowed. destruct Hmay as [Hi|Hi|o Hd|He Hl Hd]; [by rewrite Hi..| |].
    - rewrite bool_decide_eq_true_2 by done. by destruct o.
    - rewrite He. cbn [negb]. by rewrite bool_decide_eq_false_2, bool_decide_eq_false_2 by (lia || naive_solver). }
  assert (settle_effects c tx = Ok (MkEffects ["trade:" +:+ t.(t_id)]
    (trade_write (settle_trade t b.(sb_outcome) c.(c_now) c.(c_height) b.(sb_by) tx.(tx_hash) b.(sb_native_sig)))
    (settle_profiles t c.(c_now) b.(sb_outcome) b.(sb_by)) None None (settle_pairs c t b.(sb_outcome)) 0 t.(t_locked_micro) 0 1)) as E.
  { unfold settle_effects. rewrite Hshape. cbn [or_invalid result_bind]. unfold known_trade. rewrite Hid. cbn [negb].
    change (trade_at c b.(sb_trade_id)) with (trade_in c.(reader) b.(sb_trade_id)). rewrite Ht. cbn [ok_or result_bind].
    rewrite Hauth. cbn [or_invalid result_bind]. rewrite Hent, Hall. cbn [negb result_bind]. unfold check_native. rewrite Hnat. cbn [result_bind].
    rewrite !bool_decide_eq_false_2 by (subst tx; naive_solver). cbn [orb]. by rewrite Heg. }
  unfold effects_of. assert (is_market_settle tx = true) as -> by (subst tx; by apply bool_decide_eq_true_2).
  rewrite E. by eexists.
Qed.

(** ** Reorganisations *)

Fixpoint applied (stamp : Z -> option Z) (activation : option Z) (db : Store) (blocks : list MarketBlock) : list Applied :=
  match blocks with
  | [] => []
  | b :: blocks =>
      MkApplied b.(mb_floor) b.(mb_height) (block_plan stamp activation db b) ::
      applied stamp activation (apply_block stamp activation db b) blocks
  end.

Lemma applied_all stamp activation blocks : forall db,
  foldl apply_one db (applied stamp activation db blocks) = foldl (apply_block stamp activation) db blocks.
Proof. induction blocks as [|b blocks IH]; intros db; [done|]. cbn [applied foldl]. apply IH. Qed.

(** Blocks from [h] on, one height after the other. *)
Fixpoint blocks_from (h : Z) (blocks : list MarketBlock) : Prop :=
  match blocks with
  | [] => True
  | b :: blocks => h <= b.(mb_height) /\ blocks_from (b.(mb_height) + 1) blocks
  end.

(** C29: a reorganisation gives the market back.  Let the column hold no journal
    from a height on, and let blocks from that height on be applied, none of which
    has made the height final.  Then [rollback] to that height finds all their
    journals and leaves every entry of the column, journals aside, as it was. *)
Theorem market_rollback_restores `{!JsonRoundTrip Journal} `{!JsonBytes Journal} `{!JsonBytes Offer} `{!JsonBytes Trade}
    `{!JsonBytes Feedback} `{!JsonBytes ArbiterAddresses} `{!JsonBytes Profile} `{!JsonBytes EscrowTotals}
    stamp activation (blocks : list MarketBlock) db from_height k :
  (forall b, Forall in_u8 b -> hex_decode (hex_encode b) = Some b) ->
  0 <= from_height <= u64_max -> store_bytes db -> none_since from_height db ->
  blocks_from from_height blocks -> Forall (fun b => b.(mb_height) <= u64_max /\ b.(mb_floor) < from_height) blocks ->
  has_prefix UNDO_PREFIX k = false ->
  rollback (foldl (apply_block stamp activation) db blocks) from_height !! k = db !! k.
Proof.
  intros Hhex Hr Hdb Hnone Hasc Hall Hk. rewrite <-applied_all. apply rollback_plans; try done; try exact (to_json_bytes (A := Journal)).
  - assert (forall h db, from_height <= h -> blocks_from h blocks -> Forall (step_ok from_height) (applied stamp activation db blocks)) as Hs;
      [|by apply (Hs from_height)]. clear -Hall JsonBytes0 JsonBytes1 JsonBytes2 JsonBytes3 JsonBytes4 JsonBytes5 JsonBytes6.
    induction Hall as [|b blocks [Hh Hf] _ IH]; intros h db Hle Hasc; [by apply Forall_nil|]. destruct Hasc as [Hb Hasc].
    cbn [applied]. apply Forall_cons. split; [|apply (IH (b.(mb_height) + 1)); [lia|done]].
    split_and!; cbn; [apply block_good|lia..].
  - clear -Hasc. revert Hasc. generalize from_height. revert db. induction blocks as [|b blocks IH]; intros db h Hasc; [done|].
    destruct Hasc as [Hb Hasc]. cbn. split; [done|]. by apply IH.
Qed.
End Theorems.
