(* ===== verification/MarketDemo.v ===== *)
(** * The market: examples

    An encoding of the bodies and records of the market into bytes that reads
    back what it writes, as [serde_json] does, and a market that runs with it. *)
From stdpp Require Import pretty.
From S2P Require Import Prelude Crypto Ledger RuleText Balances MarketData MarketChecks MarketPlan MarketUndo MarketTheorems LedgerFacts Totals BalancesSim MarketFacts MarketSteps MarketRuns MarketBooks.
Local Open Scope string_scope.
Local Open Scope list_scope.
Local Open Scope Z_scope.
Local Open Scope ego_scope.

(** ** Enumerations *)

#[export] Instance Side_countable : Countable Side.
Proof. refine (inj_countable' (fun s => bool_decide (s = Sell)) (fun b : bool => if b then Sell else Buy) _). by intros []. Defined.

#[export] Instance Price_eq_dec : EqDecision Price.
Proof. solve_decision. Defined.
#[export] Instance Price_countable : Countable Price.
Proof.
  refine (inj_countable' (fun p => match p with Fixed p => inl p | MarginBps m => inr m end)
    (fun p : Z + Z => match p with inl p => Fixed p | inr m => MarginBps m end) _). by intros [].
Defined.

#[export] Instance Role_countable : Countable Role.
Proof.
  refine (inj_countable' (fun r => match r with Buyer => 0 | Seller => 1 | Arbiter => 2 end)
    (fun n => if n =? 0 then Buyer else if n =? 1 then Seller else Arbiter) _). by intros [].
Defined.

#[export] Instance Outcome_countable : Countable Outcome.
Proof.
  refine (inj_countable' (fun s => bool_decide (s = Release)) (fun b : bool => if b then Release else Refund) _). by intros [].
Defined.

#[export] Instance Rating_eq_dec : EqDecision Rating.
Proof. solve_decision. Defined.
#[export] Instance Rating_countable : Countable Rating.
Proof.
  refine (inj_countable' (fun r => match r with Positive => 0 | Neutral => 1 | Negative => 2 end)
    (fun n => if n =? 0 then Positive else if n =? 1 then Neutral else Negative) _). by intros [].
Defined.

#[export] Instance TradeState_countable : Countable TradeState.
Proof.
  refine (inj_countable'
    (fun s => match s with AwaitingLock => 0 | Locked => 1 | Paid => 2 | Disputed => 3 | Cancelled => 4 | Released => 5 | Refunded => 6 end)
    (fun n => default Refunded ([AwaitingLock; Locked; Paid; Disputed; Cancelled; Released] !! Z.to_nat n)) _). by intros [].
Defined.

(** ** Numbers as bytes *)

Definition pack (p : Pos.t) : bytes := to_le_bytes (S (Pos.size_nat p / 8)) (Z.pos p).
Definition unpack (b : bytes) : option Pos.t := match from_le_bytes b with Z.pos p => Some p | _ => None end.

Lemma size_bound p : Z.pos p < 2 ^ Z.of_nat (Pos.size_nat p).
Proof.
  induction p as [p IH|p IH|]; cbn [Pos.size_nat]; rewrite ?Nat2Z.inj_succ, ?Z.pow_succ_r by lia; [lia..|]. cbn. lia.
Qed.

Lemma unpack_pack p : unpack (pack p) = Some p.
Proof.
  unfold unpack, pack. rewrite from_to_le_bytes; [done|]. split; [lia|].
  eapply Z.lt_le_trans; [apply size_bound|]. change 256 with (2 ^ 8). rewrite <-Z.pow_mul_r by lia.
  apply Z.pow_le_mono_r; [lia|]. pose proof (Nat.div_mod_eq (Pos.size_nat p) 8). pose proof (Nat.mod_upper_bound (Pos.size_nat p) 8). lia.
Qed.

(** ** Fields *)

(** What encodes a field: it reads what it writes, which is bytes. *)
Class Enc (A : Type) : Type := {
  enc : A -> bytes;
  dec : bytes -> option A;
  dec_enc : forall a, dec (enc a) = Some a;
  enc_bytes : forall a, Forall in_u8 (enc a);
}.

#[export] Instance enc_string : Enc string.
Proof.
  refine {| enc := ascii_bytes; dec b := Some (string_of_bytes b) |}; [|apply ascii_bytes_u8].
  intros s. f_equal. apply ascii_bytes_inj, ascii_string_of_bytes, ascii_bytes_u8.
Defined.

Definition enc_count {A} `{Countable A} : Enc A.
Proof.
  refine {| enc a := pack (encode a); dec b := p ← unpack b; decode p |}.
  - intros a. rewrite unpack_pack. apply decode_encode.
  - intros a. apply to_le_bytes_byte.
Defined.

#[export] Instance enc_Z : Enc Z := enc_count.
#[export] Instance enc_Side : Enc Side := enc_count.
#[export] Instance enc_Price : Enc Price := enc_count.
#[export] Instance enc_Role : Enc Role := enc_count.
#[export] Instance enc_Outcome : Enc Outcome := enc_count.
#[export] Instance enc_Rating : Enc Rating := enc_count.
#[export] Instance enc_TradeState : Enc TradeState := enc_count.

#[export] Instance enc_option {A} `{Enc A} : Enc (option A).
Proof.
  refine {| enc o := match o with Some a => 1 :: enc a | None => [] end;
            dec b := match b with [] => Some None | _ :: b => Some <$> dec b end |}.
  - intros [a|]; [|done]. by rewrite dec_enc.
  - intros [a|]; [|by apply Forall_nil]. apply Forall_cons. split; [by vm_compute|apply enc_bytes].
Defined.

(** ** Lists of fields *)

(** A field with each byte announced, and an end. *)
Fixpoint esc (b : bytes) : bytes :=
  match b with
  | [] => [0]
  | x :: b => 1 :: x :: esc b
  end.
Definition flat (l : list bytes) : bytes := concat (esc <$> l).

Fixpoint unflat (acc : bytes) (b : bytes) : option (list bytes) :=
  match b with
  | [] => Some []
  | 0 :: b => cons (reverse acc) <$> unflat [] b
  | _ :: x :: b => unflat (x :: acc) b
  | _ => None
  end.

Lemma unflat_flat l : unflat [] (flat l) = Some l.
Proof.
  unfold flat. induction l as [|f l IH]; [done|]. cbn [fmap list_fmap concat].
  enough (forall acc, unflat acc (esc f ++ concat (esc <$> l)) = Some ((reverse acc ++ f) :: l)) as E by (by rewrite E).
  induction f as [|x f IHf]; intros acc; cbn [esc app unflat].
  - change (list_fmap bytes bytes esc l) with (esc <$> l). by rewrite IH, app_nil_r.
  - rewrite IHf, reverse_cons. by rewrite <-(assoc_L (++)).
Qed.

Lemma flat_bytes l : Forall (Forall in_u8) l -> Forall in_u8 (flat l).
Proof.
  assert (in_u8 0 /\ in_u8 1) as [H0 H1] by by vm_compute.
  unfold flat. induction 1 as [|f l Hf _ IH]; [by apply Forall_nil|]. cbn. apply Forall_app. split; [|done].
  induction Hf as [|x f Hx _ IHf]; cbn; repeat (apply Forall_cons; split); done.
Qed.

#[export] Instance enc_list {A} `{Enc A} : Enc (list A).
Proof.
  refine {| enc l := flat (enc <$> l); dec b := l ← unflat [] b; mapM dec l |}.
  - intros l. rewrite unflat_flat. cbn [mbind option_bind]. induction l as [|a l IH]; [done|]. cbn. rewrite dec_enc. cbn.
    change (list_fmap A bytes enc l) with (enc <$> l). by rewrite IH.
  - intros l. apply flat_bytes, Forall_fmap, Forall_forall. intros a _. apply enc_bytes.
Defined.

#[export] Instance enc_pair {A B} `{Enc A} `{Enc B} : Enc (A * B).
Proof.
  refine {| enc p := flat [enc p.1; enc p.2];
            dec b := l ← unflat [] b; match l with [x; y] => a ← dec x; b ← dec y; Some (a, b) | _ => None end |}.
  - intros [a b]. rewrite unflat_flat. cbn [mbind option_bind fst snd]. rewrite dec_enc. cbn [mbind option_bind]. by rewrite dec_enc.
  - intros p. apply flat_bytes. repeat (apply Forall_cons; split; [apply enc_bytes|]). by apply Forall_nil.
Defined.

(** ** Records as lists of fields *)

Record Fields (A : Type) : Type := MkFields { to_fields : A -> list bytes; of_fields : list bytes -> option A }.
Arguments to_fields {A} _ _.
Arguments of_fields {A} _ _.

Definition FieldsOk {A} (F : Fields A) : Prop :=
  forall a, F.(of_fields) (F.(to_fields) a) = Some a /\ Forall (Forall in_u8) (F.(to_fields) a).

Ltac fields_ok :=
  match goal with |- FieldsOk ?F => unfold F end; intros r; cbn [to_fields of_fields]; split;
  [repeat (rewrite dec_enc; cbn [mbind option_bind]); by destruct r
  |repeat (apply Forall_cons; split; [apply enc_bytes|]); by apply Forall_nil].

Definition enc_fields {A} (F : Fields A) (ok : FieldsOk F) : Enc A.
Proof.
  refine {| enc a := flat (F.(to_fields) a); dec b := l ← unflat [] b; F.(of_fields) l |}.
  - intros a. rewrite unflat_flat. apply ok.
  - intros a. apply flat_bytes, ok.
Defined.

Definition fields_json {A} (F : Fields A) : Json A :=
  {| to_json a := flat (F.(to_fields) a);
     from_json b := ok_or (l ← unflat [] b; F.(of_fields) l) "unreadable" |}.

Lemma fields_rt {A} (F : Fields A) : FieldsOk F -> @JsonRoundTrip A (fields_json F).
Proof.
  intros HF a. unfold from_json, to_json, fields_json. rewrite unflat_flat. cbn [mbind option_bind]. by rewrite (proj1 (HF a)).
Qed.

Lemma fields_bytes {A} (F : Fields A) : FieldsOk F -> @JsonBytes A (fields_json F).
Proof. intros HF a. apply flat_bytes, HF. Qed.

Definition EscrowRef_fields : Fields EscrowRef :=
  {| to_fields r :=
        [enc r.(contract); enc r.(funder); enc r.(er_tx)];
     of_fields l :=
       match l with
       | [x0; x1; x2] =>
           x0 ← dec x0; x1 ← dec x1; x2 ← dec x2;
           Some (MkEscrowRef x0 x1 x2)
       | _ => None
       end |}.
Lemma EscrowRef_fields_ok : FieldsOk EscrowRef_fields.
Proof. fields_ok. Qed.

#[export] Instance enc_EscrowRef : Enc EscrowRef := enc_fields EscrowRef_fields EscrowRef_fields_ok.

Definition OfferBody_fields : Fields OfferBody :=
  {| to_fields r :=
        [enc r.(ob_side); enc r.(ob_asset); enc r.(ob_fiat); enc r.(ob_price); enc
        r.(ob_min_micro); enc r.(ob_max_micro); enc r.(ob_methods); enc r.(ob_country); enc
        r.(ob_terms); enc r.(ob_payment_window_secs); enc r.(ob_payout_address)];
     of_fields l :=
       match l with
       | [x0; x1; x2; x3; x4; x5; x6; x7; x8; x9; x10] =>
           x0 ← dec x0; x1 ← dec x1; x2 ← dec x2; x3 ← dec x3; x4 ← dec x4; x5 ← dec x5; x6 ←
           dec x6; x7 ← dec x7; x8 ← dec x8; x9 ← dec x9; x10 ← dec x10;
           Some (MkOfferBody x0 x1 x2 x3 x4 x5 x6 x7 x8 x9 x10)
       | _ => None
       end |}.
Lemma OfferBody_fields_ok : FieldsOk OfferBody_fields.
Proof. fields_ok. Qed.

Definition OfferRef_fields : Fields OfferRef :=
  {| to_fields r :=
        [enc r.(or_offer_id)];
     of_fields l :=
       match l with
       | [x0] =>
           x0 ← dec x0;
           Some (MkOfferRef x0)
       | _ => None
       end |}.
Lemma OfferRef_fields_ok : FieldsOk OfferRef_fields.
Proof. fields_ok. Qed.

Definition TradeOpenBody_fields : Fields TradeOpenBody :=
  {| to_fields r :=
        [enc r.(to_offer_id); enc r.(to_amount_micro); enc r.(to_price_micro); enc
        r.(to_fiat_micro); enc r.(to_method); enc r.(to_payout_address)];
     of_fields l :=
       match l with
       | [x0; x1; x2; x3; x4; x5] =>
           x0 ← dec x0; x1 ← dec x1; x2 ← dec x2; x3 ← dec x3; x4 ← dec x4; x5 ← dec x5;
           Some (MkTradeOpenBody x0 x1 x2 x3 x4 x5)
       | _ => None
       end |}.
Lemma TradeOpenBody_fields_ok : FieldsOk TradeOpenBody_fields.
Proof. fields_ok. Qed.

Definition TradeRef_fields : Fields TradeRef :=
  {| to_fields r :=
        [enc r.(tr_trade_id)];
     of_fields l :=
       match l with
       | [x0] =>
           x0 ← dec x0;
           Some (MkTradeRef x0)
       | _ => None
       end |}.
Lemma TradeRef_fields_ok : FieldsOk TradeRef_fields.
Proof. fields_ok. Qed.

Definition LockBody_fields : Fields LockBody :=
  {| to_fields r :=
        [enc r.(lk_trade_id); enc r.(lk_escrow)];
     of_fields l :=
       match l with
       | [x0; x1] =>
           x0 ← dec x0; x1 ← dec x1;
           Some (MkLockBody x0 x1)
       | _ => None
       end |}.
Lemma LockBody_fields_ok : FieldsOk LockBody_fields.
Proof. fields_ok. Qed.

Definition ArbiterBody_fields : Fields ArbiterBody :=
  {| to_fields r :=
        [enc r.(ab_evm); enc r.(ab_tron); enc r.(ab_sol); enc r.(ab_ada)];
     of_fields l :=
       match l with
       | [x0; x1; x2; x3] =>
           x0 ← dec x0; x1 ← dec x1; x2 ← dec x2; x3 ← dec x3;
           Some (MkArbiterBody x0 x1 x2 x3)
       | _ => None
       end |}.
Lemma ArbiterBody_fields_ok : FieldsOk ArbiterBody_fields.
Proof. fields_ok. Qed.

Definition DisputeBody_fields : Fields DisputeBody :=
  {| to_fields r :=
        [enc r.(db_trade_id); enc r.(db_reason)];
     of_fields l :=
       match l with
       | [x0; x1] =>
           x0 ← dec x0; x1 ← dec x1;
           Some (MkDisputeBody x0 x1)
       | _ => None
       end |}.
Lemma DisputeBody_fields_ok : FieldsOk DisputeBody_fields.
Proof. fields_ok. Qed.

Definition FeedbackBody_fields : Fields FeedbackBody :=
  {| to_fields r :=
        [enc r.(fb_trade_id); enc r.(fb_rating); enc r.(fb_comment)];
     of_fields l :=
       match l with
       | [x0; x1; x2] =>
           x0 ← dec x0; x1 ← dec x1; x2 ← dec x2;
           Some (MkFeedbackBody x0 x1 x2)
       | _ => None
       end |}.
Lemma FeedbackBody_fields_ok : FieldsOk FeedbackBody_fields.
Proof. fields_ok. Qed.

Definition SettleBody_fields : Fields SettleBody :=
  {| to_fields r :=
        [enc r.(sb_trade_id); enc r.(sb_outcome); enc r.(sb_by); enc r.(sb_pubkey); enc
        r.(sb_signature); enc r.(sb_native_sig)];
     of_fields l :=
       match l with
       | [x0; x1; x2; x3; x4; x5] =>
           x0 ← dec x0; x1 ← dec x1; x2 ← dec x2; x3 ← dec x3; x4 ← dec x4; x5 ← dec x5;
           Some (MkSettleBody x0 x1 x2 x3 x4 x5)
       | _ => None
       end |}.
Lemma SettleBody_fields_ok : FieldsOk SettleBody_fields.
Proof. fields_ok. Qed.

Definition Offer_fields : Fields Offer :=
  {| to_fields r :=
        [enc r.(o_id); enc r.(o_maker); enc r.(o_side); enc r.(o_asset); enc r.(o_fiat); enc
        r.(o_price); enc r.(o_min_micro); enc r.(o_max_micro); enc r.(o_methods); enc r.(o_country);
        enc r.(o_terms); enc r.(o_payment_window_secs); enc r.(o_created_height); enc
        r.(o_created_at); enc r.(o_expires_at); enc r.(o_closed_height); enc r.(o_maker_key); enc
        r.(o_payout_address)];
     of_fields l :=
       match l with
       | [x0; x1; x2; x3; x4; x5; x6; x7; x8; x9; x10; x11; x12; x13; x14; x15; x16; x17] =>
           x0 ← dec x0; x1 ← dec x1; x2 ← dec x2; x3 ← dec x3; x4 ← dec x4; x5 ← dec x5; x6 ←
           dec x6; x7 ← dec x7; x8 ← dec x8; x9 ← dec x9; x10 ← dec x10; x11 ← dec x11; x12 ←
           dec x12; x13 ← dec x13; x14 ← dec x14; x15 ← dec x15; x16 ← dec x16; x17 ← dec x17;
           Some (MkOffer x0 x1 x2 x3 x4 x5 x6 x7 x8 x9 x10 x11 x12 x13 x14 x15 x16 x17)
       | _ => None
       end |}.
Lemma Offer_fields_ok : FieldsOk Offer_fields.
Proof. fields_ok. Qed.

Definition Trade_fields : Fields Trade :=
  {| to_fields r :=
        [enc r.(t_id); enc r.(t_offer_id); enc r.(t_maker); enc r.(t_taker); enc r.(t_seller);
        enc r.(t_buyer); enc r.(t_seller_key); enc r.(t_buyer_key); enc r.(t_asset); enc
        r.(t_amount_micro); enc r.(t_maker_fee_micro); enc r.(t_locked_micro); enc r.(t_fiat); enc
        r.(t_fiat_micro); enc r.(t_price_micro); enc r.(t_method); enc r.(t_payment_window_secs);
        enc r.(t_state); enc r.(t_opened_height); enc r.(t_opened_at); enc r.(t_locked_at); enc
        r.(t_paid_at); enc r.(t_disputed_at); enc r.(t_disputed_by); enc r.(t_dispute_reason); enc
        r.(t_arbiter); enc r.(t_closed_at); enc r.(t_closed_height); enc r.(t_closed_by); enc
        r.(t_settle_tx); enc r.(t_buyer_payout); enc r.(t_arbiter_payout); enc r.(t_escrow); enc
        r.(t_native_sig)];
     of_fields l :=
       match l with
       | [x0; x1; x2; x3; x4; x5; x6; x7; x8; x9; x10; x11; x12; x13; x14; x15; x16; x17; x18; x19; x20; x21;
         x22; x23; x24; x25; x26; x27; x28; x29; x30; x31; x32; x33] =>
           x0 ← dec x0; x1 ← dec x1; x2 ← dec x2; x3 ← dec x3; x4 ← dec x4; x5 ← dec x5; x6 ←
           dec x6; x7 ← dec x7; x8 ← dec x8; x9 ← dec x9; x10 ← dec x10; x11 ← dec x11; x12 ←
           dec x12; x13 ← dec x13; x14 ← dec x14; x15 ← dec x15; x16 ← dec x16; x17 ← dec x17;
           x18 ← dec x18; x19 ← dec x19; x20 ← dec x20; x21 ← dec x21; x22 ← dec x22; x23 ←
           dec x23; x24 ← dec x24; x25 ← dec x25; x26 ← dec x26; x27 ← dec x27; x28 ← dec x28;
           x29 ← dec x29; x30 ← dec x30; x31 ← dec x31; x32 ← dec x32; x33 ← dec x33;
           Some (MkTrade x0 x1 x2 x3 x4 x5 x6 x7 x8 x9 x10 x11 x12 x13 x14 x15 x16 x17 x18 x19 x20 x21 x22 x23 x24 x25 x26 x27 x28 x29 x30 x31 x32 x33)
       | _ => None
       end |}.
Lemma Trade_fields_ok : FieldsOk Trade_fields.
Proof. fields_ok. Qed.

Definition Profile_fields : Fields Profile :=
  {| to_fields r :=
        [enc r.(completed); enc r.(as_buyer); enc r.(as_seller); enc r.(volume_uegoc); enc
        r.(partners); enc r.(cancelled); enc r.(timed_out); enc r.(disputes_opened); enc
        r.(disputes_won); enc r.(disputes_lost); enc r.(positive); enc r.(neutral); enc
        r.(negative); enc r.(first_trade_at); enc r.(last_trade_at)];
     of_fields l :=
       match l with
       | [x0; x1; x2; x3; x4; x5; x6; x7; x8; x9; x10; x11; x12; x13; x14] =>
           x0 ← dec x0; x1 ← dec x1; x2 ← dec x2; x3 ← dec x3; x4 ← dec x4; x5 ← dec x5; x6 ←
           dec x6; x7 ← dec x7; x8 ← dec x8; x9 ← dec x9; x10 ← dec x10; x11 ← dec x11; x12 ←
           dec x12; x13 ← dec x13; x14 ← dec x14;
           Some (MkProfile x0 x1 x2 x3 x4 x5 x6 x7 x8 x9 x10 x11 x12 x13 x14)
       | _ => None
       end |}.
Lemma Profile_fields_ok : FieldsOk Profile_fields.
Proof. fields_ok. Qed.

Definition Feedback_fields : Fields Feedback :=
  {| to_fields r :=
        [enc r.(f_trade_id); enc r.(f_from); enc r.(f_about); enc r.(f_rating); enc
        r.(f_comment); enc r.(f_height); enc r.(f_at)];
     of_fields l :=
       match l with
       | [x0; x1; x2; x3; x4; x5; x6] =>
           x0 ← dec x0; x1 ← dec x1; x2 ← dec x2; x3 ← dec x3; x4 ← dec x4; x5 ← dec x5; x6 ←
           dec x6;
           Some (MkFeedback x0 x1 x2 x3 x4 x5 x6)
       | _ => None
       end |}.
Lemma Feedback_fields_ok : FieldsOk Feedback_fields.
Proof. fields_ok. Qed.

Definition ArbiterAddresses_fields : Fields ArbiterAddresses :=
  {| to_fields r :=
        [enc r.(aa_evm); enc r.(aa_tron); enc r.(aa_sol); enc r.(aa_ada); enc r.(aa_height)];
     of_fields l :=
       match l with
       | [x0; x1; x2; x3; x4] =>
           x0 ← dec x0; x1 ← dec x1; x2 ← dec x2; x3 ← dec x3; x4 ← dec x4;
           Some (MkArbiterAddresses x0 x1 x2 x3 x4)
       | _ => None
       end |}.
Lemma ArbiterAddresses_fields_ok : FieldsOk ArbiterAddresses_fields.
Proof. fields_ok. Qed.

Definition EscrowTotals_fields : Fields EscrowTotals :=
  {| to_fields r :=
        [enc r.(held_uegoc); enc r.(active_trades)];
     of_fields l :=
       match l with
       | [x0; x1] =>
           x0 ← dec x0; x1 ← dec x1;
           Some (MkEscrowTotals x0 x1)
       | _ => None
       end |}.
Lemma EscrowTotals_fields_ok : FieldsOk EscrowTotals_fields.
Proof. fields_ok. Qed.

Definition Journal_fields : Fields Journal :=
  {| to_fields r :=
        [enc r.(prior); enc r.(j_rejected)];
     of_fields l :=
       match l with
       | [x0; x1] =>
           x0 ← dec x0; x1 ← dec x1;
           Some (MkJournal x0 x1)
       | _ => None
       end |}.
Lemma Journal_fields_ok : FieldsOk Journal_fields.
Proof. fields_ok. Qed.

Definition market_json : MarketJson :=
  {| offer_body_json := fields_json OfferBody_fields; offer_ref_json := fields_json OfferRef_fields;
     trade_open_json := fields_json TradeOpenBody_fields; trade_ref_json := fields_json TradeRef_fields;
     lock_json := fields_json LockBody_fields; arbiter_json := fields_json ArbiterBody_fields;
     dispute_json := fields_json DisputeBody_fields; feedback_body_json := fields_json FeedbackBody_fields;
     settle_json := fields_json SettleBody_fields; offer_json := fields_json Offer_fields;
     trade_json := fields_json Trade_fields; profile_json := fields_json Profile_fields;
     feedback_json := fields_json Feedback_fields; arbiter_addresses_json := fields_json ArbiterAddresses_fields;
     totals_json := fields_json EscrowTotals_fields |}.

Definition journal_json : Json Journal := fields_json Journal_fields.

(** ** The market: a concrete run

    An offer, a trade on it, its funding and its release, with concrete functions
    for the libraries, and the theorems applied to it. *)

Module MarketRun.
#[export] Instance crypto : CryptoPrims :=
  {| blake2s d := reverse d; blake3 d := d; ed25519_verify _ _ _ := Ok false; ml_dsa_verify _ _ _ := false;
     slh_dsa_verify _ _ _ := Ok false; ed25519_sign _ _ := []; ml_dsa_sign _ _ := [] |}.
#[export] Instance chain : ChainPrims :=
  {| hex_encode := Hex.encode; hex_decode := Hex.decode; bech32m_encode hrp b := Some (hrp +:+ "1" +:+ Hex.encode b);
     dalek_verify _ _ _ := false |}.
#[export] Instance prims : MarketPrims :=
  {| bs58_decode _ := None; bech32_bytes _ := None; sha256 b := b; blake2b_224 b := b; on_curve _ := false;
     ed25519_key_ok _ := true; verify_strict pk _ sig := bool_decide (take 32 sig = pk) |}.
#[export] Existing Instances market_json journal_json.

#[export] Instance trade_rt : JsonRoundTrip Trade := fields_rt _ Trade_fields_ok.
#[export] Instance offer_rt : JsonRoundTrip Offer := fields_rt _ Offer_fields_ok.
#[export] Instance totals_rt : JsonRoundTrip EscrowTotals := fields_rt _ EscrowTotals_fields_ok.
#[export] Instance settle_rt : JsonRoundTrip SettleBody := fields_rt _ SettleBody_fields_ok.
#[export] Instance journal_rt : JsonRoundTrip Journal := fields_rt _ Journal_fields_ok.

Definition key (n : Z) : bytes := replicate 32 n.
Definition MAKER : string := market_address_of (key 17).
Definition TAKER : string := market_address_of (key 18).
Definition id_of (n : Z) : string := "0x" +:+ Hex.encode (replicate 31 0 ++ [n]).
Definition OFFER : string := id_of 1.
Definition TRADE : string := id_of 2.

Definition args {A} `{Json A} (a : A) : string := string_of_bytes (to_json a).

(** An operation signed by the owner of [key n]. *)
Definition op {A} `{Json A} (hash : string) (n : Z) (type : string) (body : A) (amount nonce : Z) : LedgerTx :=
  MkTx hash (market_address_of (key n)) MARKET_ESCROW_ADDR amount (op_memo type (args body)) 1700 "s" "Pending" None nonce
    (Hex.encode (key n)) "" "" type 1000 0 "" "" "" (args body) "" "" 2 1 "" "" false "" "".

Definition offer_tx : LedgerTx :=
  op OFFER 17 TX_OFFER
    (MkOfferBody Sell EGOC "EUR" (Fixed 2000000) 1000000 100000000 ["sepa"] None "no third parties" 3600 None) 0 1.
Definition open_tx : LedgerTx := op TRADE 18 TX_TRADE_OPEN (MkTradeOpenBody OFFER 50000000 2000000 100000000 "sepa" None) 0 1.
Definition lock_tx : LedgerTx := op (id_of 3) 17 TX_LOCK (MkLockBody TRADE None) 50500000 2.
Definition paid_tx : LedgerTx := op (id_of 4) 18 TX_PAID (MkTradeRef TRADE) 0 2.

Definition next_offer : LedgerTx :=
  op (id_of 0) 18 TX_OFFER (MkOfferBody Buy EGOC "EUR" (MarginBps (-150)) 1000000 2000000 ["sepa"; "cash"] None "" 900 None) 0 3.

Definition release : SettleBody := MkSettleBody TRADE Release Seller (Hex.encode (key 17)) (Hex.encode (key 17 ++ key 17)) None.

Definition stamp (h : Z) : option Z := Some (1000000 + 10 * h).
Definition active_from : option Z := Some 5.
Definition after_blocks : Store -> list MarketBlock -> Store := foldl (apply_block stamp active_from).

Definition b10 : MarketBlock := MkMarketBlock 0 10 [offer_tx].
Definition b11 : MarketBlock := MkMarketBlock 0 11 [open_tx].
Definition b12 : MarketBlock := MkMarketBlock 9 12 [lock_tx].
Definition b13 : MarketBlock := MkMarketBlock 9 13 [paid_tx].

(** The columns with the offer, with the trade opened, and with it funded. *)
Definition offered : Store := apply_block stamp active_from ∅ b10.
Definition opened : Store := apply_block stamp active_from offered b11.
Definition funded : Store := apply_block stamp active_from opened b12.

Ltac by_compute := apply (bool_decide_eq_true_1 _); vm_compute; reflexivity.

Lemma empty_ok : market_ok ∅.
Proof. split; [split; intros k x _; unfold read; by rewrite lookup_empty|]. vm_compute. reflexivity. Qed.

Lemma fit_opened : blocks_fit stamp active_from ∅ [b10; b11].
Proof. split; [by_compute|]. split; [by_compute|exact I]. Qed.
Lemma fit_funded : block_fits opened [lock_tx].
Proof. by_compute. Qed.

Lemma opened_ok : market_ok opened.
Proof.
  destruct fit_opened as (Hfit & Hfit' & _).
  exact (block_books stamp active_from offered b11 (block_books stamp active_from ∅ b10 empty_ok Hfit) Hfit').
Qed.
Lemma funded_ok : market_ok funded.
Proof. exact (block_books stamp active_from opened b12 opened_ok fit_funded). Qed.

(** The transactions already in the chain. *)
Definition seen (h : string) : bool := bool_decide (h = OFFER).

(** Only the maker's coins move. *)
Definition bank : Db := MkDb {[ MAKER := 60000000; NODE_POOL_ADDR := 1000000000 ]} ∅ ∅ ∅ ∅ ∅ ∅ ∅.
#[export] Instance rules : ChainRules :=
  {| escrow_rule_enabled := false; emission_v2_active _ := true; expected_block_reward _ _ _ _ _ := 0;
     faucet_address := FAUCET_ADDR_FULL; verify_confirmed_tx_sig _ := Ok tt; equivocation_accused _ _ := Err "no proof";
     takes_effect := plan_takes_effect (plan_block opened stamp active_from 12 [lock_tx]); vested_uegoc := 0;
     node_due := [("egot1node", 7)]; storage_pay := [] |}.

Definition ctx13 : Ctx := ctx_at funded stamp 13.

(** The settlement by which the seller releases the coins. *)
Definition release_tx : LedgerTx :=
  match trade_in funded TRADE with
  | Some t => market_settle_tx release t 1700
  | None => lock_tx
  end.
End MarketRun.

Import MarketRun.

Lemma escrow_books_witness :
  market_ok (after_blocks ∅ [b10; b11]) /\ totals_in (after_blocks ∅ [b10; b11; b12]) = MkEscrowTotals 50500000 1.
Proof. split; [exact (escrow_books stamp active_from [b10; b11] ∅ empty_ok fit_opened)|vm_compute; reflexivity]. Defined.

Lemma escrow_solvent_witness :
  let balance' := at_ (write_balances bank (gather bank ∅ 12 [lock_tx])) MARKET_ESCROW_ADDR in
  (balance' = held funded /\ check_invariants funded balance' 12 None = (None, [])) /\ balance' = 50500000.
Proof.
  split; [|vm_compute; reflexivity].
  apply (escrow_solvent opened stamp active_from 9 bank ∅ 12 [lock_tx] None); [apply opened_ok|by_compute..].
Defined.

(** The margin whose absolute value is no [i32]: a release build lets it pass. *)
Example wild_margin_passes :
  validate_offer_body (MkOfferBody Buy EGOC "EUR" (MarginBps (- 2 ^ 31)) 1000000 2000000 ["sepa"] None "" 900 None) = Ok tt.
Proof. vm_compute. reflexivity. Qed.

Lemma validated_market_applies_witness :
  (plan_block opened stamp active_from 12
    (filter (fun tx => seen tx.(tx_hash) = false) [lock_tx; offer_tx; next_offer])).(rejected) = [].
Proof.
  apply (validated_market_applies opened stamp seen active_from 12 [lock_tx; offer_tx; next_offer]).
  vm_compute. reflexivity.
Defined.

Lemma trade_moves_by_rule_witness :
  exists tx t, tx ∈ [lock_tx] /\ trade_in funded TRADE = Some t /\ Step (ctx_at opened stamp 12) tx (trade_in opened TRADE) t.
Proof.
  destruct (trade_moves_by_rule opened stamp active_from 9 12 [lock_tx] TRADE (ok_sound _ opened_ok)) as [E|Hs]; [|exact Hs].
  exfalso. apply (f_equal (fmap t_state)) in E. vm_compute in E. discriminate.
Defined.

Lemma ended_trade_stays_witness :
  exists t t', trade_in opened TRADE = Some t /\ trade_in (after_blocks opened [b12; b13]) TRADE = Some t' /\ same_terms t t' /\
    t.(t_state) = AwaitingLock /\ t'.(t_state) = Paid.
Proof.
  destruct (trade_in opened TRADE) as [t|] eqn:E; [|vm_compute in E; discriminate].
  destruct (ended_trade_stays stamp active_from [b12; b13] opened TRADE t (ok_sound _ opened_ok) E) as (t' & E' & Hs & _).
  exists t, t'. split_and!; [done|exact E'|exact Hs|..].
  - apply (inj Some). change (Some (t_state t)) with (t_state <$> Some t). rewrite <-E. vm_compute. reflexivity.
  - apply (inj Some). change (Some (t_state t')) with (t_state <$> Some t'). rewrite <-E'. vm_compute. reflexivity.
Defined.

Lemma settlement_pays_witness :
  exists fx b t, effects_of ctx13 release_tx = Ok (Some fx) /\ check_settle_shape release_tx = Ok b /\
    trade_in ctx13.(reader) b.(sb_trade_id) = Some t /\ fx.(fx_escrow_out) = 50500000 /\ credited_to_recipient release_tx = 50000000.
Proof.
  destruct (effects_of ctx13 release_tx) as [[fx|]|] eqn:E; [|vm_compute in E; discriminate..].
  destruct (settlement_pays ctx13 release_tx fx (ok_sound _ funded_ok) ltac:(vm_compute; reflexivity) E) as (b & t & Hb & Ht & _).
  exists fx, b, t. split_and!; [done|exact Hb|exact Ht| |vm_compute; reflexivity].
  assert (fx.(fx_escrow_out) = match effects_of ctx13 release_tx with Ok (Some fx) => fx.(fx_escrow_out) | _ => 0 end) as -> by (by rewrite E).
  vm_compute. reflexivity.
Defined.

Lemma allowed_settlement_admitted_witness :
  exists t fx, trade_in funded TRADE = Some t /\ effects_of ctx13 (market_settle_tx release t 1700) = Ok (Some fx) /\
    fx.(fx_escrow_out) = t.(t_locked_micro).
Proof.
  destruct (trade_in funded TRADE) as [t|] eqn:E; [|vm_compute in E; discriminate].
  assert (Hf : forall A (f : Trade -> A) d, f t = from_option f d (trade_in funded TRADE)) by (intros; by rewrite E).
  destruct (allowed_settlement_admitted ctx13 release t MAKER 1700) as (fx & Hfx & Hout).
  - exact E.
  - rewrite (Hf _ t_is_egoc false). vm_compute. reflexivity.
  - vm_compute. reflexivity.
  - reflexivity.
  - by_compute.
  - by_compute.
  - vm_compute. reflexivity.
  - rewrite (Hf _ (fun t => entitled t release.(sb_by) MAKER) false). vm_compute. reflexivity.
  - apply seller_releases. rewrite (Hf _ in_escrow false). vm_compute. reflexivity.
  - exists t, fx. split_and!; [reflexivity|exact Hfx|exact Hout].
Defined.

Lemma market_rollback_restores_witness :
  rollback (after_blocks opened [b12; b13]) 12 !! trade_key TRADE = opened !! trade_key TRADE /\
  after_blocks opened [b12; b13] !! trade_key TRADE <> opened !! trade_key TRADE.
Proof.
  split; [|by_compute].
  refine (market_rollback_restores (JsonBytes0 := fields_bytes _ Journal_fields_ok) (JsonBytes1 := fields_bytes _ Offer_fields_ok)
    (JsonBytes2 := fields_bytes _ Trade_fields_ok) (JsonBytes3 := fields_bytes _ Feedback_fields_ok)
    (JsonBytes4 := fields_bytes _ ArbiterAddresses_fields_ok) (JsonBytes5 := fields_bytes _ Profile_fields_ok)
    (JsonBytes6 := fields_bytes _ EscrowTotals_fields_ok) stamp active_from [b12; b13] opened 12 (trade_key TRADE) Hex.decode_encode _ _ _ _ _ _).
  - by_compute.
  - assert (map_Forall (fun k v => Forall in_u8 k /\ Forall in_u8 v) opened) as Hb by by_compute. exact Hb.
  - intros k [Hp Hge]. destruct (opened !! k) as [v|] eqn:E; [|done]. exfalso.
    assert (map_Forall (fun k _ => has_prefix UNDO_PREFIX k && key_leb (market_undo_key 12) k = false) opened) as Hb by by_compute.
    pose proof (Hb k v E) as Hkv. cbv beta in Hkv. rewrite Hp, Hge in Hkv. discriminate.
  - split; [by_compute|]. split; [by_compute|exact I].
  - by_compute.
  - vm_compute. reflexivity.
Defined.
