(* ===== verification/Dao.v ===== *)
(** * The DAO

    Model of [ego-desktop/src-tauri/src/dao_chain.rs]: proposals with options,
    votes by stake, votes by knowledge with committed answers that are revealed
    after the vote, and reports that stop a proposer for a time.

    The percentages of [results] and [score] are floating point and shown to the
    user only; of [results] the quorum is modelled.  The mempool check [admit]
    reads the clock and the database of the process and changes nothing. *)
From stdpp Require Import pretty.
From Stdlib Require Import Ascii.
From S2P Require Import Prelude Crypto Ledger RuleText.
Local Open Scope string_scope.
Local Open Scope list_scope.
Local Open Scope Z_scope.
Local Open Scope ego_scope.

Definition ACTIVATION_HEIGHT : option Z := Some 65103.
Definition KNOW_TALLY_FROM : option Z := Some 67922.

Definition TX_PROPOSE : string := "dao_propose".
Definition TX_VOTE : string := "dao_vote".
Definition TX_KNOW : string := "dao_know".
Definition TX_REVEAL : string := "dao_reveal".
Definition TX_WITHDRAW : string := "dao_withdraw".
Definition TX_KNOW_REVEAL : string := "dao_know_reveal".
Definition TX_REPORT : string := "dao_report".
Definition DAO_TYPES : list string :=
  [TX_PROPOSE; TX_VOTE; TX_KNOW; TX_REVEAL; TX_WITHDRAW; TX_KNOW_REVEAL; TX_REPORT].
Definition KINDS : list string := ["protocol"; "resource"; "feature"; "parameter"; "tender"].

Definition MAX_BODY_BYTES : nat := 16384%nat.
Definition MAX_TITLE_BYTES : nat := 200.
Definition MAX_DESCRIPTION_BYTES : nat := 4000.
Definition MAX_OPTIONS : nat := 10.
Definition MAX_OPTION_BYTES : nat := 100.
Definition MAX_QUESTIONS : nat := 10.
Definition MAX_QUESTION_BYTES : nat := 300.
Definition MAX_QUESTION_OPTIONS : nat := 4.
Definition MIN_DAYS : Z := 1.
Definition MAX_DAYS : Z := 30.
Definition DAY_SECS : Z := 86400.
Definition PROPOSALS_PER_WINDOW : nat := 5.
Definition WINDOW_SECS : Z := 30 * DAY_SECS.
Definition REVEAL_WINDOW_SECS : Z := 7 * DAY_SECS.
Definition MIN_STAKE_VOTERS : Z := 3.
Definition MIN_STAKE_PERCENT : Z := 1.
Definition REPORT_SECS : Z := 30 * DAY_SECS.
Definition MAX_REPORTS : nat := 256.
Definition MIN_REPORTERS : nat := 3.

Definition BODY_DOMAIN : bytes := ascii_bytes "ego/dao/body/v1:".
Definition ANSWERS_DOMAIN : bytes := ascii_bytes "ego/dao/answers/v1:".
Definition VOTE_ANSWERS_DOMAIN : bytes := ascii_bytes "ego/dao/vote-answers/v1:".
Definition ID_DOMAIN : bytes := ascii_bytes "ego/dao/id/v1:".

(** ** Data

    The number of an option, a [u32], is only compared and used as an index. *)

Record Question : Type := MkQuestion { question : string; q_options : list string }.

Record ProposeBody : Type := MkProposeBody {
  pb_title : string;
  pb_description : string;
  pb_kind : string;
  pb_options : list string;
  pb_duration_days : Z;
  pb_questions : list Question;
  pb_answers_commit : string;
}.

Record VoteBody : Type := MkVoteBody { vb_id : string; vb_option : nat }.
Record KnowBody : Type := MkKnowBody { kb_id : string; kb_option : nat; kb_commit : string }.
Record ReportBody : Type := MkReportBody { target : string }.
Record Report : Type := MkReport { reporter : string; r_weight : Z; r_at : Z }.
Record RevealBody : Type := MkRevealBody { rb_id : string; rb_salt : string; rb_answers : bytes }.
Record WithdrawBody : Type := MkWithdrawBody { wb_id : string }.

Record Proposal : Type := MkProposal {
  p_id : string;
  p_title : string;
  p_description : string;
  p_kind : string;
  p_options : list string;
  p_creator : string;
  p_created_at : Z;
  p_ends_at : Z;
  p_height : Z;
  p_questions : list Question;
  p_answers_commit : string;
  p_answers : option bytes;
  p_withdrawn : bool;
  p_revealed_at : option Z;
}.

Record StakeVote : Type := MkStakeVote { sv_option : nat; sv_weight : Z }.
Record KnowVote : Type := MkKnowVote { kv_option : nat; kv_commit : string; kv_answers : option bytes }.

(** The updates of a proposal and of a knowledge vote. *)
Definition set_answers (a : bytes) (at_ : option Z) (p : Proposal) : Proposal :=
  MkProposal p.(p_id) p.(p_title) p.(p_description) p.(p_kind) p.(p_options) p.(p_creator) p.(p_created_at) p.(p_ends_at)
    p.(p_height) p.(p_questions) p.(p_answers_commit) (Some a) p.(p_withdrawn) at_.
Definition set_withdrawn (p : Proposal) : Proposal :=
  MkProposal p.(p_id) p.(p_title) p.(p_description) p.(p_kind) p.(p_options) p.(p_creator) p.(p_created_at) p.(p_ends_at)
    p.(p_height) p.(p_questions) p.(p_answers_commit) p.(p_answers) true p.(p_revealed_at).
Definition set_know_answers (a : bytes) (v : KnowVote) : KnowVote := MkKnowVote v.(kv_option) v.(kv_commit) (Some a).

Definition rule_active (height : Z) : bool := from_option (fun h => bool_decide (h <= height)) false ACTIVATION_HEIGHT.
Definition tally_active (height : Z) : bool := from_option (fun h => bool_decide (h <= height)) false KNOW_TALLY_FROM.
Definition is_dao_tx (tx : LedgerTx) : bool := bool_decide (tx.(tx_type) ∈ DAO_TYPES).

(** ** Checks *)

Definition lower_hex (b : Z) : bool := is_digit b || ((97 <=? b) && (b <=? 102)).
Definition is_hex64 (s : string) : bool := bool_decide (String.length s = 64%nat) && all_bytes lower_hex s.
Definition is_id (s : string) : bool :=
  bool_decide (String.length s = 19%nat) && starts_with s "dao" && all_bytes lower_hex (skip 3 s).
Definition text_ok (s : string) (max : nat) : bool := negb (blank s) && bool_decide (String.length s <= max)%nat.

Fixpoint check_questions (i : nat) (qs : list Question) : result unit string :=
  match qs with
  | [] => Ok tt
  | q :: qs =>
      if negb (text_ok q.(question) MAX_QUESTION_BYTES) then
        Err ("question " +:+ pretty (S i) +:+ " needs text, at most 300 bytes")
      else if bool_decide (length q.(q_options) < 2)%nat || bool_decide (MAX_QUESTION_OPTIONS < length q.(q_options))%nat then
        Err ("question " +:+ pretty (S i) +:+ " needs 2 to 4 answers")
      else if existsb (fun o => negb (text_ok o MAX_OPTION_BYTES)) q.(q_options) then
        Err ("every answer to question " +:+ pretty (S i) +:+ " needs text, at most 100 bytes")
      else check_questions (S i) qs
  end.

Definition check_propose (b : ProposeBody) : result unit string :=
  if negb (text_ok b.(pb_title) MAX_TITLE_BYTES) then Err "a title is needed, at most 200 bytes"
  else if bool_decide (MAX_DESCRIPTION_BYTES < String.length b.(pb_description))%nat then
    Err "the description is longer than 4000 bytes"
  else if negb (bool_decide (b.(pb_kind) ∈ KINDS)) then
    Err ("unknown type '" +:+ b.(pb_kind) +:+ "'; use protocol, resource, feature, parameter, tender")
  else if bool_decide (length b.(pb_options) < 2)%nat || bool_decide (MAX_OPTIONS < length b.(pb_options))%nat then
    Err "a proposal needs 2 to 10 options"
  else if existsb (fun o => negb (text_ok o MAX_OPTION_BYTES)) b.(pb_options) then
    Err "every option needs text, at most 100 bytes"
  else if bool_decide (b.(pb_duration_days) < MIN_DAYS) || bool_decide (MAX_DAYS < b.(pb_duration_days)) then
    Err "voting lasts 1 to 30 days"
  else if bool_decide (MAX_QUESTIONS < length b.(pb_questions))%nat then
    Err "a knowledge test has at most 10 questions"
  else
    let? _ := check_questions 0 b.(pb_questions) in
    if bool_decide (b.(pb_questions) = []) then
      if bool_decide (b.(pb_answers_commit) <> "") then Err "a proposal without questions commits to no answers" else Ok tt
    else if negb (is_hex64 b.(pb_answers_commit)) then Err "a knowledge test must commit to its answers"
    else Ok tt.

Definition answers_shape_ok (questions : list Question) (answers : bytes) : bool :=
  bool_decide (length answers = length questions) &&
  forallb (fun qa : Question * Z => bool_decide (qa.2 < Z.of_nat (length qa.1.(q_options)))) (zip questions answers).

Definition right_answers (questions : list Question) (key answers : bytes) : Z :=
  if bool_decide (questions = []) || negb (answers_shape_ok questions answers) then 0
  else Z.of_nat (length (filter (fun ab : Z * Z => ab.1 = ab.2) (zip key answers))).

(** ** Keys *)

Definition key (parts : string) : bytes := ascii_bytes ("dao:" +:+ parts).

(** [{:020}] of a number below [10^20]. *)
Definition pad20 (n : Z) : string :=
  let s := pretty n in string_of_bytes (replicate (20 - String.length s) 48) +:+ s.

Definition p_key (id : string) : bytes := key ("p:" +:+ id).
Definition idx_key (created_at : Z) (id : string) : bytes :=
  key ("i:" +:+ pad20 (u64_max - Z.max created_at 0) +:+ ":" +:+ id).
Definition tally_key (id : string) : bytes := key ("st:" +:+ id).
Definition stake_count_key (id : string) : bytes := key ("sc:" +:+ id).
Definition stake_vote_key (id voter : string) : bytes := key ("sv:" +:+ id +:+ ":" +:+ voter).
Definition know_vote_key (id voter : string) : bytes := key ("kv:" +:+ id +:+ ":" +:+ voter).
Definition know_count_key (id : string) : bytes := key ("kc:" +:+ id).
Definition know_tally_key (id : string) : bytes := key ("kt:" +:+ id).
Definition created_key (creator : string) : bytes := key ("pc:" +:+ creator).
Definition lock_key (addr : string) : bytes := key ("lock:" +:+ addr).
Definition report_key (t : string) : bytes := key ("rt:" +:+ t).

(** [put_u64] of this file writes zeros too. *)
Definition dao_put_u64 (ov : Ov) (k : bytes) (v : Z) : Ov := ov_put k (u64_le v) ov.

Definition stake_of (ov : Ov) (addr : string) : Z := u64_at ov (ascii_bytes ("stake:" +:+ addr)).
Definition locked_until (ov : Ov) (addr : string) : Z := as_signed (u64_at ov (lock_key addr)).

(** The bodies and records in JSON; [Vec<u64>] and [Vec<i64>] are lists of numbers. *)
Class DaoJson : Type := {
  propose_json :: Json ProposeBody;
  vote_json :: Json VoteBody;
  know_json :: Json KnowBody;
  report_body_json :: Json ReportBody;
  reveal_json :: Json RevealBody;
  withdraw_json :: Json WithdrawBody;
  proposal_json :: Json Proposal;
  stake_vote_json :: Json StakeVote;
  know_vote_json :: Json KnowVote;
  reports_json :: Json (list Report);
  numbers_json :: Json (list Z);
}.

Section Dao.
Context `{CryptoPrims} `{ChainPrims} `{DaoJson}.
Implicit Types (ov : Ov) (block : LedgerBlock) (tx : LedgerTx).

Definition body_hash (args : string) : string := hex_encode (blake3 (BODY_DOMAIN ++ ascii_bytes args)).

Definition memo_for (type args : string) : option string :=
  if negb (bool_decide (type ∈ DAO_TYPES)) then None
  else op ← strip_prefix "dao_" type; Some ("dao:" +:+ op +:+ ":" +:+ body_hash args).

Definition proposal_id (hash : string) : string :=
  "dao" +:+ String.substring 0 16 (hex_encode (blake3 (ID_DOMAIN ++ ascii_bytes hash))).

Definition answers_commit (salt : string) (answers : bytes) : string :=
  hex_encode (blake3 (ANSWERS_DOMAIN ++ ascii_bytes salt ++ [58] ++ answers)).

Definition vote_commit (id voter salt : string) (answers : bytes) : string :=
  hex_encode (blake3 (VOTE_ANSWERS_DOMAIN ++ (ascii_bytes id ++ [58]) ++ (ascii_bytes voter ++ [58]) ++
                      (ascii_bytes salt ++ [58]) ++ answers)).

Definition unreadable {A} (r : result A string) : result A string :=
  match r with
  | Ok a => Ok a
  | Err e => Err ("the body is not readable: " +:+ e)
  end.

Definition well_formed tx : result unit string :=
  if negb (is_dao_tx tx) then Err (tx.(tx_type) +:+ " is not a DAO transaction")
  else if bool_decide (tx.(tx_from) = "") || bool_decide (tx.(tx_to) <> tx.(tx_from)) || bool_decide (tx.(tx_amount) <> 0) then
    Err "a DAO transaction is a zero-amount transaction to the sender itself"
  else if bool_decide (MAX_BODY_BYTES < String.length tx.(call_args))%nat then Err "the body is longer than 16384 bytes"
  else if negb (bool_decide (tx.(tx_memo) = memo_for tx.(tx_type) tx.(call_args))) then
    Err "the memo does not commit to the body"
  else if bool_decide (tx.(tx_type) = TX_PROPOSE) then
    let? b := unreadable (from_str (A := ProposeBody) tx.(call_args)) in check_propose b
  else if bool_decide (tx.(tx_type) = TX_VOTE) then
    let? b := unreadable (from_str (A := VoteBody) tx.(call_args)) in
    if negb (is_id b.(vb_id)) || bool_decide (MAX_OPTIONS <= b.(vb_option))%nat then
      Err "the vote names no proposal or option"
    else Ok tt
  else if bool_decide (tx.(tx_type) = TX_KNOW) then
    let? b := unreadable (from_str (A := KnowBody) tx.(call_args)) in
    if negb (is_id b.(kb_id)) || bool_decide (MAX_OPTIONS <= b.(kb_option))%nat then
      Err "the vote names no proposal or option"
    else if negb (is_hex64 b.(kb_commit)) then Err "a knowledge vote commits to its answers"
    else Ok tt
  else if bool_decide (tx.(tx_type) = TX_REPORT) then
    let? b := unreadable (from_str (A := ReportBody) tx.(call_args)) in
    if bool_decide (b.(target) = "") || bool_decide (128 < String.length b.(target))%nat || bool_decide (b.(target) = tx.(tx_from)) then
      Err "a report names someone else"
    else Ok tt
  else if bool_decide (tx.(tx_type) = TX_REVEAL) || bool_decide (tx.(tx_type) = TX_KNOW_REVEAL) then
    let? b := unreadable (from_str (A := RevealBody) tx.(call_args)) in
    if negb (is_id b.(rb_id)) || negb (is_hex64 b.(rb_salt)) || bool_decide (b.(rb_answers) = []) ||
       bool_decide (MAX_QUESTIONS < length b.(rb_answers))%nat then
      Err "the reveal names no proposal, salt or answers"
    else Ok tt
  else
    let? b := unreadable (from_str (A := WithdrawBody) tx.(call_args)) in
    if negb (is_id b.(wb_id)) then Err "the withdrawal names no proposal" else Ok tt.

(** ** Reading *)

Definition load_proposal ov (id : string) : option Proposal := load ov (p_key id).
Definition know_vote ov (id voter : string) : option KnowVote := load ov (know_vote_key id voter).

Definition created_in_window ov (creator : string) (now : Z) : list Z :=
  filter (fun t => as_signed (now - WINDOW_SECS) < t) (default [] (load (A := list Z) ov (created_key creator))).

Definition open_proposal ov (id : string) (now : Z) : result Proposal string :=
  let? p := ok_or (load_proposal ov id) "no such proposal" in
  if p.(p_withdrawn) then Err "the proposal was withdrawn"
  else if bool_decide (p.(p_ends_at) <= now) then Err "voting has ended"
  else Ok p.

Definition active_reports ov (t : string) (now : Z) : list Report :=
  filter (fun r => as_signed (now - REPORT_SECS) < r.(r_at)) (default [] (load (A := list Report) ov (report_key t))).

Definition banned (reports : list Report) (network_stake : Z) : bool :=
  bool_decide (MIN_REPORTERS <= length reports)%nat && bool_decide (0 < network_stake) &&
  bool_decide (network_stake * MIN_STAKE_PERCENT <= zsum (r_weight <$> reports) * 100).

(** ** Operations *)

(** [if locked_until(ov, addr) < until { put_u64(ov, lock_key(addr), until as u64) }]. *)
Definition extend_lock ov (addr : string) (until : Z) : Ov :=
  if bool_decide (locked_until ov addr < until) then dao_put_u64 ov (lock_key addr) (until mod (u64_max + 1)) else ov.

Definition report ov block tx : result Ov string :=
  let? b := from_str (A := ReportBody) tx.(call_args) in
  let weight := stake_of ov tx.(tx_from) in
  if bool_decide (weight = 0) then Err "only staked EGOC can report"
  else
    let reports := active_reports ov b.(target) block.(b_timestamp) in
    if existsb (fun r => bool_decide (r.(reporter) = tx.(tx_from))) reports then Err "already reported"
    else
      let reports := reports ++ [MkReport tx.(tx_from) weight block.(b_timestamp)] in
      let reports := drop (length reports - MAX_REPORTS) reports in
      let ov := save ov (report_key b.(target)) reports in
      Ok (extend_lock ov tx.(tx_from) (iadd block.(b_timestamp) REPORT_SECS)).

Definition propose ov block tx (network_stake : Z) : result Ov string :=
  let? b := from_str (A := ProposeBody) tx.(call_args) in
  let id := proposal_id tx.(tx_hash) in
  if bool_decide (is_Some (ov_get (p_key id) ov)) then Err "a proposal with this id exists"
  else if banned (active_reports ov tx.(tx_from) block.(b_timestamp)) network_stake then
    Err "the community reported this address; it cannot propose for now"
  else
    let times := created_in_window ov tx.(tx_from) block.(b_timestamp) in
    if bool_decide (PROPOSALS_PER_WINDOW <= length times)%nat then Err "at most 5 proposals in 30 days"
    else
      let ov := save ov (created_key tx.(tx_from)) (times ++ [block.(b_timestamp)]) in
      let p := MkProposal id b.(pb_title) b.(pb_description) b.(pb_kind) b.(pb_options) tx.(tx_from) block.(b_timestamp)
                 (iadd block.(b_timestamp) (b.(pb_duration_days) * DAY_SECS)) block.(b_height) b.(pb_questions)
                 b.(pb_answers_commit) None false None in
      let ov := save ov (tally_key id) (replicate (length p.(p_options)) 0) in
      let ov := ov_put (idx_key p.(p_created_at) id) [] ov in
      Ok (save ov (p_key id) p).

(** An entry changed at an index, when the list has it. *)
Definition at_index (i : nat) (f : Z -> Z) (l : list Z) : list Z := alter f i l.

Definition stake_vote ov block tx : result Ov string :=
  let? b := from_str (A := VoteBody) tx.(call_args) in
  let? p := open_proposal ov b.(vb_id) block.(b_timestamp) in
  let n := length p.(p_options) in
  if bool_decide (n <= b.(vb_option))%nat then Err "no such option"
  else
    let weight := stake_of ov tx.(tx_from) in
    if bool_decide (weight = 0) then Err "only staked EGOC votes"
    else
      let tallies := resize n 0 (default (replicate n 0) (load (A := list Z) ov (tally_key p.(p_id)))) in
      let '(tallies, ov) :=
        match load (A := StakeVote) ov (stake_vote_key p.(p_id) tx.(tx_from)) with
        | Some prev => (at_index prev.(sv_option) (fun t => sat_sub t prev.(sv_weight)) tallies, ov)
        | None => (tallies, dao_put_u64 ov (stake_count_key p.(p_id))
                              (wrapping_add64 (u64_at ov (stake_count_key p.(p_id))) 1))
        end in
      let tallies := at_index b.(vb_option) (fun t => sat_add u64_max t weight) tallies in
      let ov := save ov (tally_key p.(p_id)) tallies in
      let ov := save ov (stake_vote_key p.(p_id) tx.(tx_from)) (MkStakeVote b.(vb_option) weight) in
      Ok (extend_lock ov tx.(tx_from) p.(p_ends_at)).

Definition knowledge_vote ov block tx : result Ov string :=
  let? b := from_str (A := KnowBody) tx.(call_args) in
  let? p := open_proposal ov b.(kb_id) block.(b_timestamp) in
  if bool_decide (p.(p_questions) = []) then Err "the proposal has no knowledge test"
  else if bool_decide (length p.(p_options) <= b.(kb_option))%nat then Err "the vote does not fit the proposal"
  else
    let ov := if bool_decide (ov_get (know_vote_key p.(p_id) tx.(tx_from)) ov = None)
              then dao_put_u64 ov (know_count_key p.(p_id)) (wrapping_add64 (u64_at ov (know_count_key p.(p_id))) 1)
              else ov in
    Ok (save ov (know_vote_key p.(p_id) tx.(tx_from)) (MkKnowVote b.(kb_option) b.(kb_commit) None)).

Definition reveal_closes (p : Proposal) : result Z string :=
  match tally_active p.(p_height), p.(p_revealed_at) with
  | false, _ => Ok (iadd p.(p_ends_at) REVEAL_WINDOW_SECS)
  | true, Some at_ => Ok (iadd at_ REVEAL_WINDOW_SECS)
  | true, None => Err "voters reveal after the creator has revealed the correct answers"
  end.

Definition know_reveal ov block tx : result Ov string :=
  let? b := from_str (A := RevealBody) tx.(call_args) in
  let? p := ok_or (load_proposal ov b.(rb_id)) "no such proposal" in
  let? v := ok_or (know_vote ov p.(p_id) tx.(tx_from)) "no knowledge vote to reveal" in
  if bool_decide (is_Some v.(kv_answers)) then Err "already revealed"
  else
    let? closes := reveal_closes p in
    if bool_decide (block.(b_timestamp) < p.(p_ends_at)) || bool_decide (closes <= block.(b_timestamp)) then
      Err "answers are revealed in the 7 days after the correct answers are out"
    else if negb (answers_shape_ok p.(p_questions) b.(rb_answers)) ||
            negb (bool_decide (vote_commit p.(p_id) tx.(tx_from) b.(rb_salt) b.(rb_answers) = v.(kv_commit))) then
      Err "the answers do not match the vote"
    else
      let ov :=
        if tally_active p.(p_height) then
          let key := default [] p.(p_answers) in
          let tally := resize (length p.(p_options)) 0 (default [] (load (A := list Z) ov (know_tally_key p.(p_id)))) in
          save ov (know_tally_key p.(p_id))
            (at_index v.(kv_option) (fun slot => wrapping_add64 slot (right_answers p.(p_questions) key b.(rb_answers))) tally)
        else ov in
      Ok (save ov (know_vote_key p.(p_id) tx.(tx_from)) (set_know_answers b.(rb_answers) v)).

Definition reveal ov block tx : result Ov string :=
  let? b := from_str (A := RevealBody) tx.(call_args) in
  let? p := ok_or (load_proposal ov b.(rb_id)) "no such proposal" in
  if bool_decide (p.(p_creator) <> tx.(tx_from)) then Err "only the creator reveals the answers"
  else if bool_decide (p.(p_questions) = []) || bool_decide (is_Some p.(p_answers)) then Err "there is nothing to reveal"
  else if bool_decide (block.(b_timestamp) < p.(p_ends_at)) ||
          bool_decide (iadd p.(p_ends_at) REVEAL_WINDOW_SECS <= block.(b_timestamp)) then
    Err "answers are revealed in the 7 days after voting ends"
  else if negb (answers_shape_ok p.(p_questions) b.(rb_answers)) ||
          negb (bool_decide (answers_commit b.(rb_salt) b.(rb_answers) = p.(p_answers_commit))) then
    Err "the answers do not match the commitment"
  else
    let revealed_at := if tally_active p.(p_height) then Some block.(b_timestamp) else p.(p_revealed_at) in
    Ok (save ov (p_key p.(p_id)) (set_answers b.(rb_answers) revealed_at p)).

Definition withdraw ov block tx : result Ov string :=
  let? b := from_str (A := WithdrawBody) tx.(call_args) in
  let? p := open_proposal ov b.(wb_id) block.(b_timestamp) in
  if bool_decide (p.(p_creator) <> tx.(tx_from)) then Err "only the creator withdraws a proposal"
  else Ok (save ov (p_key p.(p_id)) (set_withdrawn p)).

Definition apply_tx ov block tx (network_stake : Z) : result Ov string :=
  let? _ := well_formed tx in
  if bool_decide (tx.(tx_type) = TX_PROPOSE) then propose ov block tx network_stake
  else if bool_decide (tx.(tx_type) = TX_VOTE) then stake_vote ov block tx
  else if bool_decide (tx.(tx_type) = TX_KNOW) then knowledge_vote ov block tx
  else if bool_decide (tx.(tx_type) = TX_REVEAL) then reveal ov block tx
  else if bool_decide (tx.(tx_type) = TX_KNOW_REVEAL) then know_reveal ov block tx
  else if bool_decide (tx.(tx_type) = TX_REPORT) then report ov block tx
  else withdraw ov block tx.

Definition locks_stake tx : bool := bool_decide (tx.(tx_type) = TX_VOTE) || bool_decide (tx.(tx_type) = TX_REPORT).

(** One turn of the loop of [apply_block]: a transaction that fails has no effect. *)
Definition try_tx block (network_stake : Z) ov tx : Ov :=
  match apply_tx ov block tx network_stake with
  | Ok ov => ov
  | Err _ => ov
  end.

Definition apply_block ov block (txs : list LedgerTx) (network_stake : Z) : Ov :=
  if negb (rule_active block.(b_height)) then ov
  else foldl (try_tx block network_stake) ov (filter (fun tx => is_dao_tx tx = true) txs).

(** ** Judging a block *)

(** The first loop of [validate]. *)
Fixpoint check_ops (active : bool) block (txs : list LedgerTx) (voters : gset string) : result (gset string) string :=
  match txs with
  | [] => Ok voters
  | tx :: txs =>
      if negb active then
        Err (tx.(tx_type) +:+ " " +:+ tx.(tx_hash) +:+ " refused: DAO transactions are not active at block " +:+
             pretty block.(b_height))
      else
        match well_formed tx with
        | Err e => Err (tx.(tx_type) +:+ " " +:+ tx.(tx_hash) +:+ " rejected: " +:+ e)
        | Ok _ => check_ops active block txs (if locks_stake tx then {[ tx.(tx_from) ]} ∪ voters else voters)
        end
  end.

(** The second loop: the unstakes of the block. *)
Fixpoint check_unstakes ov block (voters : gset string) (txs : list LedgerTx) : result unit string :=
  match txs with
  | [] => Ok tt
  | tx :: txs =>
      if bool_decide (tx.(tx_from) ∈ voters) then
        Err ("unstake " +:+ tx.(tx_hash) +:+ " refused: " +:+ tx.(tx_from) +:+ " votes or reports with this stake in the same block")
      else
        let until := locked_until ov tx.(tx_from) in
        if bool_decide (block.(b_timestamp) < until) then
          Err ("unstake " +:+ tx.(tx_hash) +:+ " refused: " +:+ tx.(tx_from) +:+ " voted with this stake and it stays locked until " +:+
               pretty until)
        else check_unstakes ov block voters txs
  end.

Definition validate ov block (txs : list LedgerTx) : result unit string :=
  let active := rule_active block.(b_height) in
  let? voters := check_ops active block (filter (fun tx => is_dao_tx tx = true) txs) ∅ in
  if negb active then Ok tt
  else check_unstakes ov block voters (filter (fun tx => is_unstake_tx tx = true) txs).

Definition proposal_fit ov tx (height timestamp : Z) (unstakers : gset string) : Fit :=
  let unstake :=
    if rule_active height && is_unstake_tx tx && bool_decide (timestamp < locked_until ov tx.(tx_from)) then
      FitLater "the stake is locked by a DAO vote"
    else FitYes in
  if is_dao_tx tx then
    if negb (rule_active height) then FitLater "DAO transactions start at block Some(65103)"
    else
      match well_formed tx with
      | Err e => FitNever e
      | Ok _ =>
          if locks_stake tx && bool_decide (tx.(tx_from) ∈ unstakers) then FitLater "the sender unstakes in this block"
          else unstake
      end
  else unstake.

(** ** Results *)

Definition status (p : Proposal) (now : Z) : string :=
  if p.(p_withdrawn) then "withdrawn" else if bool_decide (now < p.(p_ends_at)) then "active" else "expired".

(** [stake_by_opt] and [quorum_reached] of [results]; the sum of the tallies wraps. *)
Definition stake_by_opt ov (p : Proposal) : list Z :=
  let n := length p.(p_options) in
  resize n 0 (default (replicate n 0) (load (A := list Z) ov (tally_key p.(p_id)))).

Definition quorum_reached ov (p : Proposal) (network_stake : Z) : bool :=
  let total_stake := foldl wrapping_add64 0 (stake_by_opt ov p) in
  bool_decide (MIN_STAKE_VOTERS <= u64_at ov (stake_count_key p.(p_id))) &&
  bool_decide (network_stake * MIN_STAKE_PERCENT <= total_stake * 100).
End Dao.
