(* ===== verification/DaoFacts.v ===== *)
(** * The DAO: keys, books and steps

    Every key of the DAO is one of [DaoKey]; [reads] says that the entries of a
    proposal are those of an abstract book ([Book]): the proposal, the stake votes
    and the knowledge votes, each by its voter.  [Step] has the rules by which a
    book changes, and the operations of the DAO are such steps. *)
From stdpp Require Import pretty.
From S2P Require Import Prelude Crypto Ledger RuleText LedgerFacts Totals Dao.
Local Open Scope string_scope.
Local Open Scope list_scope.
Local Open Scope Z_scope.
Local Open Scope ego_scope.

(** ** Keys *)

Inductive DaoKey : Type :=
| KProposal (id : string)
| KIndex (at_ : Z) (id : string)
| KTally (id : string)
| KCount (id : string)
| KVote (id voter : string)
| KKnow (id voter : string)
| KKnowCount (id : string)
| KKnowTally (id : string)
| KCreated (creator : string)
| KLock (addr : string)
| KReport (t : string)
| KStake (addr : string).

#[export] Instance dao_key_eq : EqDecision DaoKey.
Proof. solve_decision. Defined.

Definition key_bytes (k : DaoKey) : bytes :=
  match k with
  | KProposal id => p_key id
  | KIndex t id => idx_key t id
  | KTally id => tally_key id
  | KCount id => stake_count_key id
  | KVote id voter => stake_vote_key id voter
  | KKnow id voter => know_vote_key id voter
  | KKnowCount id => know_count_key id
  | KKnowTally id => know_tally_key id
  | KCreated a => created_key a
  | KLock a => lock_key a
  | KReport t => report_key t
  | KStake a => ascii_bytes ("stake:" +:+ a)
  end.

(** The ids in the keys of votes have one length; the index is never read. *)
Definition key_ok (k : DaoKey) : Prop :=
  match k with
  | KVote id _ | KKnow id _ => String.length id = 19%nat
  | KIndex _ _ => False
  | _ => True
  end.

Lemma app_same_length (a b x y : string) :
  String.length a = String.length b -> a +:+ x = b +:+ y -> a = b /\ x = y.
Proof.
  revert b. induction a as [|c a IH]; intros [|d b] Hl E; cbn in Hl; try done. cbn in E.
  injection E as -> E. injection Hl as Hl. by destruct (IH b Hl E) as [-> ->].
Qed.

Lemma key_bytes_inj k k' : key_ok k -> key_ok k' -> key_bytes k = key_bytes k' -> k = k'.
Proof.
  intros Hk Hk' E. destruct k, k'; cbn [key_ok] in Hk, Hk'; try done; apply ascii_bytes_inj in E; cbn in E;
    first [discriminate E|injection E as E]; try (f_equal; exact E).
  all: destruct (app_same_length id id0 (":" +:+ voter) (":" +:+ voter0) (eq_trans Hk (eq_sym Hk')) E) as [-> Ev].
  all: f_equal; injection Ev as Ev; exact Ev.
Qed.

(** The index is apart from all other keys. *)
Lemma key_index_ne t id k : key_ok k -> key_bytes (KIndex t id) <> key_bytes k.
Proof. intros Hk E. destruct k; cbn [key_ok] in Hk; try done; apply ascii_bytes_inj in E; cbn in E; discriminate E. Qed.

(** The proposal a key belongs to. *)
Definition key_id (k : DaoKey) : option string :=
  match k with
  | KProposal id | KTally id | KCount id | KVote id _ | KKnow id _ | KKnowCount id | KKnowTally id => Some id
  | _ => None
  end.

(** ** The overlay through its keys *)

Definition kget (k : DaoKey) (ov : Ov) : option bytes := ov_get (key_bytes k) ov.

Lemma kget_put k k' v ov :
  key_ok k -> key_ok k' -> kget k' (ov_put (key_bytes k) v ov) = if bool_decide (k = k') then Some v else kget k' ov.
Proof.
  intros Hk Hk'. unfold kget. rewrite ov_get_put. destruct (decide (k = k')) as [->|Hne].
  - by rewrite !bool_decide_true.
  - rewrite !bool_decide_false; [done|done|]. intros E. by apply key_bytes_inj in E.
Qed.

Lemma kget_put_eq k v ov : kget k (ov_put (key_bytes k) v ov) = Some v.
Proof. apply ov_get_put_eq. Qed.

Lemma kget_put_ne k k' v ov : key_ok k -> key_ok k' -> k <> k' -> kget k' (ov_put (key_bytes k) v ov) = kget k' ov.
Proof. intros. by rewrite kget_put, bool_decide_false. Qed.

Lemma kget_put_index t id k v ov : key_ok k -> kget k (ov_put (idx_key t id) v ov) = kget k ov.
Proof. intros. unfold kget. apply ov_get_put_ne. by apply (key_index_ne t id k). Qed.

(** ** Numbers *)

Lemma u64_at_put ov k v : 0 <= v <= u64_max -> u64_at (dao_put_u64 ov k v) k = v.
Proof.
  intros Hv. unfold u64_at, dao_put_u64. rewrite ov_get_put_eq. cbn [mbind option_bind].
  rewrite bool_decide_true by (by rewrite length_u64_le).
  rewrite take_ge by (by rewrite length_u64_le). cbn [default]. apply from_to_le_bytes. unfold u64_max in *. lia.
Qed.

Lemma u64_at_same ov ov' k : ov_get k ov' = ov_get k ov -> u64_at ov' k = u64_at ov k.
Proof. unfold u64_at. by intros ->. Qed.

Lemma as_signed_range x : in_i64 (as_signed x).
Proof.
  unfold as_signed, in_i64. pose proof (Z.mod_pos_bound (x - i64_min) (u64_max + 1)). unfold u64_max, i64_min, i64_max in *. lia.
Qed.

Lemma as_signed_id x : in_i64 x -> as_signed x = x.
Proof. intros Hx. unfold as_signed. rewrite Z.mod_small; unfold in_i64, i64_max, i64_min, u64_max in *; lia. Qed.

Lemma as_signed_mod x : in_i64 x -> as_signed (x mod (u64_max + 1)) = x.
Proof.
  intros Hx. rewrite <-(as_signed_id x Hx) at 2. unfold as_signed. f_equal. by rewrite Zminus_mod_idemp_l.
Qed.

(** A lock only grows. *)
Lemma locked_until_extend ov a until b :
  in_i64 until ->
  locked_until (extend_lock ov a until) b = if bool_decide (a = b) then Z.max (locked_until ov a) until else locked_until ov b.
Proof.
  intros Hu. unfold extend_lock. case_bool_decide as Hlt; case_bool_decide as Hab; subst; [| |lia|done].
  - unfold locked_until at 1. change (lock_key b) with (key_bytes (KLock b)).
    pose proof (Z.mod_pos_bound until (u64_max + 1) ltac:(unfold u64_max; lia)). rewrite u64_at_put by lia.
    rewrite as_signed_mod by done. lia.
  - unfold locked_until. f_equal. apply u64_at_same. apply (kget_put_ne (KLock a) (KLock b)); [done..|congruence].
Qed.

Lemma kget_extend_lock ov a until k : key_ok k -> k <> KLock a -> kget k (extend_lock ov a until) = kget k ov.
Proof.
  intros Hk Hne. unfold extend_lock. case_bool_decide; [|done]. apply (kget_put_ne (KLock a)); [done..|congruence].
Qed.

(** ** Books *)

(** A proposal with its votes, by voter. *)
Record Book : Type := MkBook {
  bk_proposal : Proposal;
  bk_votes : gmap string StakeVote;
  bk_knows : gmap string KnowVote;
}.

(** The sum of what [f] gives for the entries of a map. *)
Definition msum {A} (f : A -> Z) (m : gmap string A) : Z := mtotal (f <$> m).

Definition weight_for (o : nat) (v : StakeVote) : Z := if bool_decide (v.(sv_option) = o) then v.(sv_weight) else 0.
Definition right_for (p : Proposal) (o : nat) (v : KnowVote) : Z :=
  if bool_decide (v.(kv_option) = o)
  then from_option (right_answers p.(p_questions) (default [] p.(p_answers))) 0 v.(kv_answers) else 0.

(** The tallies a book has: by option, the weights of the votes for it, and the
    right answers of the revealed votes for it. *)
Definition stake_tally (b : Book) : list Z :=
  (fun o => msum (weight_for o) b.(bk_votes)) <$> seq 0 (length b.(bk_proposal).(p_options)).
Definition know_tally (b : Book) : list Z :=
  (fun o => msum (right_for b.(bk_proposal) o) b.(bk_knows)) <$> seq 0 (length b.(bk_proposal).(p_options)).

Lemma fmap_insert_at {A} (f : A -> Z) (m : gmap string A) k a :
  msum f (<[ k := a ]> m) = msum f m - from_option f 0 (m !! k) + f a.
Proof.
  unfold msum. rewrite fmap_insert. destruct (m !! k) as [v|] eqn:E; cbn [from_option].
  - apply mtotal_insert. by rewrite lookup_fmap, E.
  - rewrite (mtotal_delete (<[ k := f a ]> (f <$> m)) k (f a)) by apply lookup_insert_eq.
    rewrite delete_insert_id by (by rewrite lookup_fmap, E). lia.
Qed.

Lemma msum_bounds {A} (f : A -> Z) (m : gmap string A) lo hi :
  (forall k a, m !! k = Some a -> lo <= f a <= hi) -> lo * Z.of_nat (size m) <= msum f m <= hi * Z.of_nat (size m).
Proof.
  induction m as [|k a m Hk IH] using map_ind; intros Hf.
  - unfold msum. rewrite fmap_empty, mtotal_empty, map_size_empty. lia.
  - rewrite fmap_insert_at, Hk, map_size_insert_None by done. cbn [from_option].
    pose proof (Hf k a (lookup_insert_eq _ _ _)).
    assert (lo * Z.of_nat (size m) <= msum f m <= hi * Z.of_nat (size m)); [|lia].
    apply IH. intros k' a' E. apply (Hf k'). rewrite lookup_insert_ne; [done|]. intros ->. congruence.
Qed.

Lemma msum_le {A} (f g : A -> Z) (m : gmap string A) :
  (forall k a, m !! k = Some a -> f a <= g a) -> msum f m <= msum g m.
Proof.
  induction m as [|k a m Hk IH] using map_ind; intros Hf; [unfold msum; by rewrite !fmap_empty|].
  rewrite !fmap_insert_at, Hk. cbn [from_option]. pose proof (Hf k a (lookup_insert_eq _ _ _)).
  assert (msum f m <= msum g m); [|lia].
  apply IH. intros k' a' E. apply (Hf k'). rewrite lookup_insert_ne; [done|]. intros ->. congruence.
Qed.

Lemma msum_nonneg {A} (f : A -> Z) (m : gmap string A) :
  (forall k a, m !! k = Some a -> 0 <= f a) -> 0 <= msum f m.
Proof.
  intros Hf. transitivity (msum (fun _ : A => 0) m); [|by apply msum_le].
  pose proof (msum_bounds (fun _ : A => 0) m 0 0 ltac:(lia)). lia.
Qed.

Lemma msum_elem {A} (f : A -> Z) (m : gmap string A) k a :
  (forall k a, m !! k = Some a -> 0 <= f a) -> m !! k = Some a -> f a <= msum f m.
Proof.
  intros Hf E. unfold msum. rewrite (mtotal_delete _ k (f a)) by (by rewrite lookup_fmap, E).
  rewrite <-fmap_delete. enough (0 <= msum f (delete k m)) by (unfold msum in *; lia).
  apply msum_nonneg. intros k' a' [_ E']%lookup_delete_Some. eauto.
Qed.

(** ** The DAO: books and steps

    What the column holds of a proposal ([reads]), the rules by which a book
    changes ([Step]), and that every operation of the DAO is such a step. *)

Definition open_at (p : Proposal) (now : Z) : Prop := p.(p_withdrawn) = false /\ now < p.(p_ends_at).

Definition set_votes (v : gmap string StakeVote) (b : Book) : Book := MkBook b.(bk_proposal) v b.(bk_knows).
Definition set_knows (k : gmap string KnowVote) (b : Book) : Book := MkBook b.(bk_proposal) b.(bk_votes) k.
Definition set_proposal (p : Proposal) (b : Book) : Book := MkBook p b.(bk_votes) b.(bk_knows).

Section Books.
Context `{CryptoPrims} `{ChainPrims} `{DaoJson}.
Context `{!JsonRoundTrip Proposal} `{!JsonRoundTrip StakeVote} `{!JsonRoundTrip KnowVote} `{!JsonRoundTrip (list Z)}.
Implicit Types (ov : Ov) (block : LedgerBlock) (tx : LedgerTx) (b : Book) (ob : option Book) (p : Proposal).

(** What always holds of a book. *)
Record good b : Prop := {
  g_ends : in_i64 b.(bk_proposal).(p_ends_at);
  g_questions : (length b.(bk_proposal).(p_questions) <= MAX_QUESTIONS)%nat;
  g_votes : forall voter v, b.(bk_votes) !! voter = Some v ->
    (v.(sv_option) < length b.(bk_proposal).(p_options))%nat /\ 1 <= v.(sv_weight);
  g_knows : forall voter v, b.(bk_knows) !! voter = Some v -> (v.(kv_option) < length b.(bk_proposal).(p_options))%nat;
  g_opened : forall voter v a, b.(bk_knows) !! voter = Some v -> v.(kv_answers) = Some a ->
    (exists salt, vote_commit b.(bk_proposal).(p_id) voter salt a = v.(kv_commit)) /\
    (tally_active b.(bk_proposal).(p_height) = true -> is_Some b.(bk_proposal).(p_answers));
  g_revealed : is_Some b.(bk_proposal).(p_revealed_at) -> is_Some b.(bk_proposal).(p_answers);
  g_key : forall a, b.(bk_proposal).(p_answers) = Some a ->
    exists salt, answers_commit salt a = b.(bk_proposal).(p_answers_commit);
}.

(** The entries of the column for a proposal are those of its book; the stake of
    every voter is locked until the vote ends. *)
Record reads_book ov (id : string) b : Prop := {
  rd_id : b.(bk_proposal).(p_id) = id;
  rd_proposal : kget (KProposal id) ov = Some (to_json b.(bk_proposal));
  rd_tally : kget (KTally id) ov = Some (to_json (stake_tally b));
  rd_count : u64_at ov (key_bytes (KCount id)) = Z.of_nat (size b.(bk_votes));
  rd_votes : forall voter, kget (KVote id voter) ov = to_json <$> b.(bk_votes) !! voter;
  rd_knows : forall voter, kget (KKnow id voter) ov = to_json <$> b.(bk_knows) !! voter;
  rd_know_count : u64_at ov (key_bytes (KKnowCount id)) = Z.of_nat (size b.(bk_knows));
  rd_know_tally : tally_active b.(bk_proposal).(p_height) = true ->
    resize (length b.(bk_proposal).(p_options)) 0 (default [] (load (A := list Z) ov (key_bytes (KKnowTally id)))) = know_tally b;
  rd_good : good b;
  rd_locks : forall voter v, b.(bk_votes) !! voter = Some v -> b.(bk_proposal).(p_ends_at) <= locked_until ov voter;
}.

Definition reads ov (id : string) ob : Prop :=
  match ob with
  | None => forall k, key_id k = Some id -> key_ok k -> kget k ov = None
  | Some b => reads_book ov id b
  end.

Definition is_short (id : string) : Prop := String.length id = 19%nat.

(** Every id of the length of an id is in one of these two states. *)
Definition booked ov : Prop := forall id, is_short id -> exists ob, reads ov id ob.

(** ** The rules *)

(** How a transaction of a block changes the book of a proposal; [stake] is what
    its sender has staked. *)
Inductive Step block tx (stake : Z) : option Book -> Book -> Prop :=
| step_propose p days :
    p.(p_id) = proposal_id tx.(tx_hash) -> p.(p_creator) = tx.(tx_from) -> p.(p_created_at) = block.(b_timestamp) ->
    p.(p_height) = block.(b_height) -> MIN_DAYS <= days <= MAX_DAYS -> p.(p_ends_at) = iadd block.(b_timestamp) (days * DAY_SECS) ->
    (2 <= length p.(p_options) <= MAX_OPTIONS)%nat -> (length p.(p_questions) <= MAX_QUESTIONS)%nat ->
    p.(p_answers) = None -> p.(p_withdrawn) = false -> p.(p_revealed_at) = None ->
    Step block tx stake None (MkBook p ∅ ∅)
| step_vote b o :
    locks_stake tx = true -> open_at b.(bk_proposal) block.(b_timestamp) -> (o < length b.(bk_proposal).(p_options))%nat -> stake <> 0 ->
    Step block tx stake (Some b) (set_votes (<[ tx.(tx_from) := MkStakeVote o stake ]> b.(bk_votes)) b)
| step_know b o commit :
    open_at b.(bk_proposal) block.(b_timestamp) -> (o < length b.(bk_proposal).(p_options))%nat ->
    b.(bk_proposal).(p_questions) <> [] ->
    Step block tx stake (Some b) (set_knows (<[ tx.(tx_from) := MkKnowVote o commit None ]> b.(bk_knows)) b)
| step_know_reveal b v salt answers :
    b.(bk_knows) !! tx.(tx_from) = Some v -> v.(kv_answers) = None -> b.(bk_proposal).(p_ends_at) <= block.(b_timestamp) ->
    (tally_active b.(bk_proposal).(p_height) = true -> is_Some b.(bk_proposal).(p_revealed_at)) ->
    answers_shape_ok b.(bk_proposal).(p_questions) answers = true ->
    vote_commit b.(bk_proposal).(p_id) tx.(tx_from) salt answers = v.(kv_commit) ->
    Step block tx stake (Some b) (set_knows (<[ tx.(tx_from) := set_know_answers answers v ]> b.(bk_knows)) b)
| step_reveal b salt answers at_ :
    b.(bk_proposal).(p_creator) = tx.(tx_from) -> b.(bk_proposal).(p_answers) = None ->
    b.(bk_proposal).(p_ends_at) <= block.(b_timestamp) -> answers_shape_ok b.(bk_proposal).(p_questions) answers = true ->
    answers_commit salt answers = b.(bk_proposal).(p_answers_commit) ->
    Step block tx stake (Some b) (set_proposal (set_answers answers at_ b.(bk_proposal)) b)
| step_withdraw b :
    b.(bk_proposal).(p_creator) = tx.(tx_from) -> open_at b.(bk_proposal) block.(b_timestamp) ->
    Step block tx stake (Some b) (set_proposal (set_withdrawn b.(bk_proposal)) b).

(** ** Frames *)

Lemma reads_frame ov ov' id ob :
  (forall k, key_id k = Some id -> key_ok k -> kget k ov' = kget k ov) ->
  (forall a, locked_until ov a <= locked_until ov' a) -> is_short id -> reads ov id ob -> reads ov' id ob.
Proof.
  intros Hk Hl Hid Hr. destruct ob as [b|]; cbn in *.
  - destruct Hr as [? Hp Ht Hc Hv Hkn Hkc Hkt ? Hlk]. split; try done.
    + by rewrite Hk.
    + by rewrite Hk.
    + rewrite <-Hc. apply u64_at_same. by apply (Hk (KCount id)).
    + intros voter. by rewrite Hk.
    + intros voter. by rewrite Hk.
    + rewrite <-Hkc. apply u64_at_same. by apply (Hk (KKnowCount id)).
    + intros Ha. rewrite <-(Hkt Ha). do 2 f_equal. apply load_same. by apply (Hk (KKnowTally id)).
    + intros voter v E. specialize (Hlk voter v E). specialize (Hl voter). lia.
  - intros k Ek Ok. rewrite Hk by done. by apply Hr.
Qed.

Lemma reads_load ov id b : reads_book ov id b -> load_proposal ov id = Some b.(bk_proposal).
Proof.
  intros Hr. unfold load_proposal, load. change (ov_get (p_key id) ov) with (kget (KProposal id) ov).
  rewrite (rd_proposal _ _ _ Hr). cbn. by rewrite from_to_json.
Qed.

(** A proposal that loads has a book. *)
Lemma booked_load ov id p :
  booked ov -> is_short id -> load_proposal ov id = Some p -> exists b, reads_book ov id b /\ b.(bk_proposal) = p.
Proof.
  intros Hb Hid Hp. destruct (Hb id Hid) as [[b|] Hr]; cbn in Hr.
  - exists b. split; [done|]. rewrite (reads_load _ _ _ Hr) in Hp. congruence.
  - unfold load_proposal, load in Hp. change (ov_get (p_key id) ov) with (kget (KProposal id) ov) in Hp.
    by rewrite (Hr (KProposal id)) in Hp.
Qed.

(** ** Operations as writes *)

Definition kput (k : DaoKey) (v : bytes) ov : Ov := ov_put (key_bytes k) v ov.

Lemma kget_kput_ne k k' v ov : key_ok k -> key_ok k' -> k <> k' -> kget k' (kput k v ov) = kget k' ov.
Proof. apply kget_put_ne. Qed.
Lemma kget_kput_eq k v ov : kget k (kput k v ov) = Some v.
Proof. apply kget_put_eq. Qed.

Lemma save_proposal ov id (p : Proposal) : save ov (p_key id) p = kput (KProposal id) (to_json p) ov.
Proof. done. Qed.
Lemma save_tally ov id (l : list Z) : save ov (tally_key id) l = kput (KTally id) (to_json l) ov.
Proof. done. Qed.
Lemma save_vote ov id a (v : StakeVote) : save ov (stake_vote_key id a) v = kput (KVote id a) (to_json v) ov.
Proof. done. Qed.
Lemma save_know ov id a (v : KnowVote) : save ov (know_vote_key id a) v = kput (KKnow id a) (to_json v) ov.
Proof. done. Qed.
Lemma save_know_tally ov id (l : list Z) : save ov (know_tally_key id) l = kput (KKnowTally id) (to_json l) ov.
Proof. done. Qed.
Lemma save_created ov a (l : list Z) : save ov (created_key a) l = kput (KCreated a) (to_json l) ov.
Proof. done. Qed.
Lemma save_report ov t (l : list Report) : save ov (report_key t) l = kput (KReport t) (to_json l) ov.
Proof. done. Qed.
Lemma put_count ov id n : dao_put_u64 ov (stake_count_key id) n = kput (KCount id) (u64_le n) ov.
Proof. done. Qed.
Lemma put_know_count ov id n : dao_put_u64 ov (know_count_key id) n = kput (KKnowCount id) (u64_le n) ov.
Proof. done. Qed.

Lemma lock_kput k v ov a : key_ok k -> k <> KLock a -> locked_until (kput k v ov) a = locked_until ov a.
Proof. intros Hk Hne. unfold locked_until. f_equal. apply u64_at_same. apply (kget_kput_ne k (KLock a)); done. Qed.
Lemma lock_index t id v ov a : locked_until (ov_put (idx_key t id) v ov) a = locked_until ov a.
Proof. unfold locked_until. f_equal. apply u64_at_same. by apply (kget_put_index t id (KLock a)). Qed.

Lemma u64_kput k v ov : 0 <= v <= u64_max -> u64_at (kput k (u64_le v) ov) (key_bytes k) = v.
Proof. apply u64_at_put. Qed.
Lemma u64_kput_ne k k' v ov :
  key_ok k -> key_ok k' -> k <> k' -> u64_at (kput k v ov) (key_bytes k') = u64_at ov (key_bytes k').
Proof. intros. apply u64_at_same. by apply kget_kput_ne. Qed.
Lemma load_kput {A} `{Json A} `{!JsonRoundTrip A} k (a : A) ov : load (kput k (to_json a) ov) (key_bytes k) = Some a.
Proof. apply load_save. Qed.
End Books.

#[export] Hint Rewrite @save_proposal @save_tally @save_vote @save_know @save_know_tally @save_created @save_report
  @put_count @put_know_count : dao_keys.

(** Two keys are different; a key does not belong to the proposal. *)
Ltac key_ne := solve [discriminate|congruence|intros ->; cbn [key_id] in *; congruence|intros <-; cbn [key_id] in *; congruence].

(** Read past writes to other keys. *)
Ltac kget_past :=
  repeat first [rewrite kget_extend_lock by first [done|key_ne]
               |rewrite kget_kput_eq
               |rewrite kget_kput_ne by first [done|key_ne]
               |rewrite kget_put_index by done].
