(* ===== verification/DaoSteps.v ===== *)
(** * The DAO: every operation is a step

    What an operation changes ([moves]): no lock gets shorter, no stake changes,
    the entries of one proposal follow a rule and those of all others stay. *)
From stdpp Require Import pretty.
From S2P Require Import Prelude Crypto Ledger RuleText LedgerFacts Totals Dao DaoFacts.
Local Open Scope string_scope.
Local Open Scope list_scope.
Local Open Scope Z_scope.
Local Open Scope ego_scope.

Section Moves.
Context `{CryptoPrims} `{ChainPrims} `{DaoJson}.
Context `{!JsonRoundTrip Proposal} `{!JsonRoundTrip StakeVote} `{!JsonRoundTrip KnowVote} `{!JsonRoundTrip (list Z)}.
Implicit Types (ov : Ov) (block : LedgerBlock) (tx : LedgerTx) (b : Book) (ob : option Book) (p : Proposal).

Definition weights ob : Z := from_option (fun b => msum sv_weight b.(bk_votes)) 0 ob.
Definition knows ob : Z := from_option (fun b => Z.of_nat (size b.(bk_knows))) 0 ob.

(** No answers are out before the vote has ended. *)
Definition timely (now : Z) ob : Prop := forall b, ob = Some b ->
  (is_Some b.(bk_proposal).(p_answers) -> b.(bk_proposal).(p_ends_at) <= now) /\
  forall voter v, b.(bk_knows) !! voter = Some v -> is_Some v.(kv_answers) -> b.(bk_proposal).(p_ends_at) <= now.

(** One more vote fits in the tallies, and none was revealed too early. *)
Definition fits block ob (stake : Z) : Prop :=
  0 <= stake /\ weights ob + stake <= u64_max /\ 10 * (knows ob + 1) <= u64_max /\ timely block.(b_timestamp) ob.

Record moves ov block tx ov' (id0 : string) : Prop := {
  mv_locks : forall a, locked_until ov a <= locked_until ov' a;
  mv_stakes : forall a, kget (KStake a) ov' = kget (KStake a) ov;
  mv_frame : forall id k, is_short id -> id <> id0 -> key_id k = Some id -> key_ok k -> kget k ov' = kget k ov;
  mv_created :
    ((forall a, kget (KCreated a) ov' = kget (KCreated a) ov) /\ (is_short id0 -> is_Some (kget (KProposal id0) ov))) \/
    (kget (KProposal id0) ov = None /\ (length (created_in_window ov tx.(tx_from) block.(b_timestamp)) < PROPOSALS_PER_WINDOW)%nat /\
     kget (KCreated tx.(tx_from)) ov' = Some (to_json (created_in_window ov tx.(tx_from) block.(b_timestamp) ++ [block.(b_timestamp)])) /\
     forall a, a <> tx.(tx_from) -> kget (KCreated a) ov' = kget (KCreated a) ov);
  mv_step : is_short id0 -> forall ob, reads ov id0 ob -> fits block ob (stake_of ov tx.(tx_from)) ->
    exists b, reads_book ov' id0 b /\ Step block tx (stake_of ov tx.(tx_from)) ob b;
}.

Lemma open_proposal_Ok ov id now p :
  open_proposal ov id now = Ok p -> load_proposal ov id = Some p /\ open_at p now.
Proof.
  unfold open_proposal. intros Hp. op_cases. split; [done|]. split; [done|].
  match goal with Hb : bool_decide (_ <= now) = false |- _ => apply bool_decide_eq_false_1 in Hb; lia end.
Qed.

Lemma is_id_short id : is_id id = true -> is_short id.
Proof. unfold is_id. rewrite !andb_true_iff. intros [[Hl _] _]. by apply bool_decide_eq_true_1 in Hl. Qed.

(** ** Tallies *)

Lemma lookup_tally b o : (o < length b.(bk_proposal).(p_options))%nat ->
  stake_tally b !! o = Some (msum (weight_for o) b.(bk_votes)).
Proof. intros Ho. unfold stake_tally. rewrite list_lookup_fmap, lookup_seq_lt by done. done. Qed.

Lemma length_stake_tally b : length (stake_tally b) = length b.(bk_proposal).(p_options).
Proof. unfold stake_tally. by rewrite length_fmap, length_seq. Qed.

Lemma weight_for_nonneg b o : good b -> forall k v, b.(bk_votes) !! k = Some v -> 0 <= weight_for o v.
Proof. intros Hg k v E. destruct (g_votes _ Hg k v E). unfold weight_for. case_bool_decide; lia. Qed.

Lemma weight_for_le b o : good b -> 0 <= msum (weight_for o) b.(bk_votes) <= msum sv_weight b.(bk_votes).
Proof.
  intros Hg. split; [by apply msum_nonneg, weight_for_nonneg|].
  apply msum_le. intros k v E. destruct (g_votes _ Hg k v E). unfold weight_for. case_bool_decide; lia.
Qed.

(** What [stake_vote] makes of the tallies: the earlier vote of the sender taken
    off, the new one put on. *)
Definition moved_tally (prev : option StakeVote) (o : nat) (w : Z) (tallies : list Z) : list Z :=
  at_index o (fun t => sat_add u64_max t w)
    (match prev with
     | Some v => at_index v.(sv_option) (fun t => sat_sub t v.(sv_weight)) tallies
     | None => tallies
     end).

Lemma lookup_at_index i f (l : list Z) j : at_index i f l !! j = if bool_decide (i = j) then f <$> l !! j else l !! j.
Proof. unfold at_index. case_bool_decide; subst; [by rewrite list_lookup_alter_eq|by rewrite list_lookup_alter_ne]. Qed.

Lemma moved_tally_ok b voter o w :
  good b -> (o < length b.(bk_proposal).(p_options))%nat -> 0 <= w -> msum sv_weight b.(bk_votes) + w <= u64_max ->
  moved_tally (b.(bk_votes) !! voter) o w (stake_tally b) = stake_tally (set_votes (<[ voter := MkStakeVote o w ]> b.(bk_votes)) b).
Proof.
  intros Hg Ho Hw Hmax. apply list_eq. intros i. destruct (decide (i < length b.(bk_proposal).(p_options))%nat) as [Hi|Hi].
  2: { rewrite !lookup_ge_None_2; [done|by rewrite length_stake_tally; cbn; lia|].
       unfold moved_tally, at_index. destruct (b.(bk_votes) !! voter); rewrite !length_alter, length_stake_tally; lia. }
  rewrite (lookup_tally (set_votes _ b)) by done. cbn [set_votes bk_votes]. rewrite fmap_insert_at.
  pose proof (weight_for_le b i Hg) as Hle. pose proof (weight_for_le b o Hg) as Hleo.
  unfold moved_tally. rewrite lookup_at_index. destruct (b.(bk_votes) !! voter) as [v|] eqn:Ev; cbn [from_option].
  - rewrite lookup_at_index, lookup_tally by done.
    assert (weight_for i v <= msum (weight_for i) b.(bk_votes)) as Hvle.
    { by apply msum_elem with voter; [apply weight_for_nonneg|]. }
    destruct (g_votes _ Hg voter v Ev) as [_ Hv1].
    change (weight_for i (MkStakeVote o w)) with (if bool_decide (o = i) then w else 0).
    assert (weight_for i v = if bool_decide (v.(sv_option) = i) then v.(sv_weight) else 0) as Evi by done.
    unfold sat_add, sat_sub. destruct (bool_decide_reflect (o = i)), (bool_decide_reflect (v.(sv_option) = i)); cbn; f_equal; lia.
  - rewrite lookup_tally by done. change (weight_for i (MkStakeVote o w)) with (if bool_decide (o = i) then w else 0).
    unfold sat_add. destruct (bool_decide_reflect (o = i)); cbn; f_equal; lia.
Qed.

(** ** Votes by stake *)

Lemma resize_same n (l : list Z) : length l = n -> resize n 0 l = l.
Proof. intros <-. apply resize_all. Qed.

Lemma load_vote ov id b voter :
  reads_book ov id b -> load (A := StakeVote) ov (stake_vote_key id voter) = b.(bk_votes) !! voter.
Proof.
  intros Hr. unfold load. change (ov_get (stake_vote_key id voter) ov) with (kget (KVote id voter) ov).
  rewrite (rd_votes _ _ _ Hr). destruct (b.(bk_votes) !! voter); cbn; [by rewrite from_to_json|done].
Qed.

Lemma load_tally ov id b : reads_book ov id b -> load (A := list Z) ov (tally_key id) = Some (stake_tally b).
Proof.
  intros Hr. unfold load. change (ov_get (tally_key id) ov) with (kget (KTally id) ov).
  rewrite (rd_tally _ _ _ Hr). cbn. by rewrite from_to_json.
Qed.

Lemma stake_of_same ov ov' a : kget (KStake a) ov' = kget (KStake a) ov -> stake_of ov' a = stake_of ov a.
Proof. apply u64_at_same. Qed.

(** A vote keeps the book good. *)
Lemma good_vote b voter o w :
  good b -> (o < length b.(bk_proposal).(p_options))%nat -> 1 <= w ->
  good (set_votes (<[ voter := MkStakeVote o w ]> b.(bk_votes)) b).
Proof.
  intros [? ? Hv ? ? ? ?] Ho Hw. split; try done. cbn [set_votes bk_votes bk_proposal]. intros k v.
  rewrite lookup_insert_Some. intros [[_ <-]|[_ E]]; [done|by eapply Hv].
Qed.

(** The overlay after a vote, as writes. *)
Definition after_vote ov (p : Proposal) (o : nat) (voter : string) (w : Z) (prev : option StakeVote) (tally : list Z) : Ov :=
  let ov := match prev with
            | Some _ => ov
            | None => kput (KCount p.(p_id)) (u64_le (wrapping_add64 (u64_at ov (key_bytes (KCount p.(p_id)))) 1)) ov
            end in
  extend_lock (kput (KVote p.(p_id) voter) (to_json (MkStakeVote o w)) (kput (KTally p.(p_id)) (to_json tally) ov)) voter p.(p_ends_at).

Lemma kget_after_vote ov p o voter w prev tally k :
  key_ok k -> is_short p.(p_id) -> k <> KCount p.(p_id) -> k <> KTally p.(p_id) -> k <> KVote p.(p_id) voter -> k <> KLock voter ->
  kget k (after_vote ov p o voter w prev tally) = kget k ov.
Proof.
  intros Hk Hid H1' H2 H3 H4. unfold after_vote. rewrite kget_extend_lock by done.
  rewrite !kget_kput_ne by first [done|congruence]. destruct prev; [done|]. by rewrite kget_kput_ne by first [done|congruence].
Qed.

Lemma lock_after_vote ov p o voter w prev tally a :
  in_i64 p.(p_ends_at) -> is_short p.(p_id) ->
  locked_until (after_vote ov p o voter w prev tally) a =
    if bool_decide (voter = a) then Z.max (locked_until ov a) p.(p_ends_at) else locked_until ov a.
Proof.
  intros Hi Hid. unfold after_vote. rewrite locked_until_extend by done.
  case_bool_decide; subst; rewrite !lock_kput by first [done|key_ne]; destruct prev; try done; by rewrite lock_kput.
Qed.

Lemma stake_vote_writes ov block tx ov' :
  booked ov -> stake_vote ov block tx = Ok ov' -> (forall body, from_str (A := VoteBody) tx.(call_args) = Ok body -> is_id body.(vb_id) = true) ->
  exists o b, reads_book ov b.(bk_proposal).(p_id) b /\ is_short b.(bk_proposal).(p_id) /\
    open_at b.(bk_proposal) block.(b_timestamp) /\ (o < length b.(bk_proposal).(p_options))%nat /\ stake_of ov tx.(tx_from) <> 0 /\
    ov' = after_vote ov b.(bk_proposal) o tx.(tx_from) (stake_of ov tx.(tx_from)) (b.(bk_votes) !! tx.(tx_from))
            (moved_tally (b.(bk_votes) !! tx.(tx_from)) o (stake_of ov tx.(tx_from)) (stake_tally b)).
Proof.
  intros Hb Hs Hwf. unfold stake_vote in Hs. apply result_bind_Ok in Hs as (body & Hbody & Hs).
  apply result_bind_Ok in Hs as (p & Hp & Hs). apply open_proposal_Ok in Hp as [Hp Hopen].
  pose proof (is_id_short _ (Hwf _ Hbody)) as Hid. destruct (booked_load _ _ _ Hb Hid Hp) as (b & Hr & Hbp).
  destruct (bool_decide (length p.(p_options) <= body.(vb_option))%nat) eqn:Ho; [done|]. apply bool_decide_eq_false_1 in Ho.
  destruct (bool_decide (stake_of ov tx.(tx_from) = 0)) eqn:Hw; [done|]. apply bool_decide_eq_false_1 in Hw.
  exists body.(vb_option), b. pose proof (rd_id _ _ _ Hr) as Eid. subst p.
  rewrite Eid in *. split_and!; try done; [lia|].
  rewrite (load_tally _ _ _ Hr), (load_vote _ _ _ _ Hr) in Hs. cbn [default from_option] in Hs.
  rewrite resize_same in Hs by apply length_stake_tally. unfold after_vote, moved_tally. rewrite Eid.
  destruct (b.(bk_votes) !! tx.(tx_from)) as [v|]; apply Ok_inj in Hs; by rewrite <-Hs.
Qed.

(** A vote that is counted reads as the book with the vote. *)
Lemma reads_after_vote ov b o voter w :
  reads_book ov b.(bk_proposal).(p_id) b -> is_short b.(bk_proposal).(p_id) -> (o < length b.(bk_proposal).(p_options))%nat ->
  1 <= w -> msum sv_weight b.(bk_votes) + w <= u64_max ->
  reads_book (after_vote ov b.(bk_proposal) o voter w (b.(bk_votes) !! voter) (moved_tally (b.(bk_votes) !! voter) o w (stake_tally b)))
    b.(bk_proposal).(p_id) (set_votes (<[ voter := MkStakeVote o w ]> b.(bk_votes)) b).
Proof.
  intros Hr Hid Ho Hw Hmax. pose proof (rd_good _ _ _ Hr) as Hg. rewrite moved_tally_ok by first [done|lia].
  set (id := b.(bk_proposal).(p_id)) in *. set (ov' := after_vote _ _ _ _ _ _ _).
  assert (Hk : forall k, key_ok k -> k <> KCount id -> k <> KTally id -> k <> KVote id voter -> k <> KLock voter -> kget k ov' = kget k ov)
    by (intros; by apply kget_after_vote).
  split; cbn [set_votes bk_proposal bk_votes bk_knows]; try done.
  - rewrite Hk by first [done|key_ne]. apply (rd_proposal _ _ _ Hr).
  - unfold ov', after_vote. rewrite kget_extend_lock by first [done|key_ne]. rewrite kget_kput_ne by first [done|key_ne]. apply kget_kput_eq.
  - assert (u64_at ov (key_bytes (KCount id)) = Z.of_nat (size b.(bk_votes))) as Hc by apply (rd_count _ _ _ Hr).
    pose proof (msum_bounds sv_weight b.(bk_votes) 1 u64_max) as Hb.
    assert (Z.of_nat (size b.(bk_votes)) <= msum sv_weight b.(bk_votes)) as Hsz.
    { transitivity (msum (fun _ : StakeVote => 1) b.(bk_votes)).
      - pose proof (msum_bounds (fun _ : StakeVote => 1) b.(bk_votes) 1 1 ltac:(lia)). lia.
      - apply msum_le. intros k v E. by destruct (g_votes _ Hg k v E). }
    unfold ov', after_vote. fold id. erewrite u64_at_same by (apply (kget_extend_lock _ _ _ (KCount id)); [done|key_ne]).
    rewrite !u64_kput_ne by first [done|key_ne]. destruct (b.(bk_votes) !! voter) eqn:Ev.
    + rewrite map_size_insert_Some by done. done.
    + rewrite map_size_insert_None by done. rewrite Hc. unfold wrapping_add64. rewrite Z.mod_small by lia.
      rewrite u64_kput by lia. lia.
  - intros a. unfold ov', after_vote. rewrite kget_extend_lock by first [done|key_ne]. destruct (decide (a = voter)) as [->|Hne].
    + by rewrite kget_kput_eq, lookup_insert_eq.
    + rewrite lookup_insert_ne, <-(rd_votes _ _ _ Hr) by done. rewrite !kget_kput_ne by first [done|congruence].
      destruct (b.(bk_votes) !! voter); [done|]. by rewrite kget_kput_ne by first [done|congruence].
  - intros a. rewrite Hk by first [done|key_ne]. apply (rd_knows _ _ _ Hr).
  - rewrite <-(rd_know_count _ _ _ Hr). apply u64_at_same. by apply (Hk (KKnowCount id)).
  - intros Ha. etrans; [|exact (rd_know_tally _ _ _ Hr Ha)]. do 2 f_equal.
    apply load_same. by apply (Hk (KKnowTally id)).
  - by apply good_vote.
  - intros a v E. unfold ov'. rewrite lock_after_vote by first [done|apply (g_ends _ Hg)].
    case_bool_decide as Ha; [lia|]. rewrite lookup_insert_ne in E by done. by apply (rd_locks _ _ _ Hr a v).
Qed.

(** The id of the length of an id has one book. *)
Lemma reads_same_book ov id b ob : is_short id -> reads_book ov id b -> reads ov id ob ->
  exists b', ob = Some b' /\ b'.(bk_proposal) = b.(bk_proposal) /\ b'.(bk_votes) = b.(bk_votes) /\ b'.(bk_knows) = b.(bk_knows).
Proof.
  intros Hid Hr Hr'. destruct ob as [b'|]; cbn in Hr'.
  2: { pose proof (rd_proposal _ _ _ Hr) as E. by rewrite (Hr' (KProposal id)) in E. }
  exists b'. split; [done|]. split_and!.
  - apply (inj Some). by rewrite <-(reads_load _ _ _ Hr), <-(reads_load _ _ _ Hr').
  - apply map_eq. intros a. by rewrite <-(load_vote _ _ _ a Hr), <-(load_vote _ _ _ a Hr').
  - apply map_eq. intros a. pose proof (rd_knows _ _ _ Hr a) as E. rewrite (rd_knows _ _ _ Hr' a) in E.
    destruct (b'.(bk_knows) !! a), (b.(bk_knows) !! a); try done. apply (inj Some) in E.
    f_equal. apply (f_equal (from_json (A := KnowVote))) in E. rewrite !from_to_json in E. by apply Ok_inj in E.
Qed.

Lemma reads_unique ov id b ob : is_short id -> reads_book ov id b -> reads ov id ob -> ob = Some b.
Proof.
  intros Hid Hr Hr'. destruct (reads_same_book _ _ _ _ Hid Hr Hr') as ([p v k] & -> & ? & ? & ?). destruct b. cbn in *. congruence.
Qed.

Lemma stake_vote_moves ov block tx ov' :
  booked ov -> stake_vote ov block tx = Ok ov' -> locks_stake tx = true ->
  (forall body, from_str (A := VoteBody) tx.(call_args) = Ok body -> is_id body.(vb_id) = true) -> exists id, moves ov block tx ov' id.
Proof.
  intros Hb Hs Hlock Hwf. destruct (stake_vote_writes _ _ _ _ Hb Hs Hwf) as (o & b & Hr & Hid & Hopen & Ho & Hw & ->).
  exists b.(bk_proposal).(p_id). split.
  - intros a. rewrite lock_after_vote by first [done|apply (g_ends _ (rd_good _ _ _ Hr))]. case_bool_decide; lia.
  - intros a. by apply kget_after_vote.
  - intros id k Hs' Hne Hk Hok. apply kget_after_vote; first [done|key_ne].
  - left. split; [intros a; by apply kget_after_vote|]. intros _. by rewrite (rd_proposal _ _ _ Hr).
  - intros _ ob Hrb (H0' & Hmax & _ & _). apply reads_unique with (b := b) in Hrb as ->; [|done..].
    cbn [weights from_option] in Hmax. eexists. split; [apply reads_after_vote; try done; lia|]. by apply step_vote.
Qed.

(** ** Votes by knowledge *)

Lemma know_vote_reads ov id b voter : reads_book ov id b -> know_vote ov id voter = b.(bk_knows) !! voter.
Proof.
  intros Hr. unfold know_vote, load. change (ov_get (know_vote_key id voter) ov) with (kget (KKnow id voter) ov).
  rewrite (rd_knows _ _ _ Hr). destruct (b.(bk_knows) !! voter); cbn; [by rewrite from_to_json|done].
Qed.

Lemma right_answers_bound qs key answers : 0 <= right_answers qs key answers <= Z.of_nat (length qs).
Proof.
  unfold right_answers, answers_shape_ok. destruct (bool_decide (qs = [])); cbn [orb]; [lia|].
  destruct (bool_decide_reflect (length answers = length qs)) as [Hl|]; cbn [andb negb]; [|lia].
  destruct (forallb _ _); cbn [negb]; [|lia].
  pose proof (length_filter (fun ab : Z * Z => ab.1 = ab.2) (zip key answers)) as Hf.
  rewrite length_zip_with in Hf. lia.
Qed.

Lemma right_for_bound b o voter v : good b -> b.(bk_knows) !! voter = Some v -> 0 <= right_for b.(bk_proposal) o v <= 10.
Proof.
  intros Hg E. unfold right_for. case_bool_decide; [|lia]. destruct v.(kv_answers) as [a|]; cbn [from_option]; [|lia].
  pose proof (right_answers_bound b.(bk_proposal).(p_questions) (default [] b.(bk_proposal).(p_answers)) a).
  pose proof (g_questions _ Hg). unfold MAX_QUESTIONS in *. lia.
Qed.

Lemma lookup_know_tally b o : (o < length b.(bk_proposal).(p_options))%nat ->
  know_tally b !! o = Some (msum (right_for b.(bk_proposal) o) b.(bk_knows)).
Proof. intros Ho. unfold know_tally. rewrite list_lookup_fmap, lookup_seq_lt by done. done. Qed.

Lemma length_know_tally b : length (know_tally b) = length b.(bk_proposal).(p_options).
Proof. unfold know_tally. by rewrite length_fmap, length_seq. Qed.

(** A vote without answers, in the place of none or of one without, counts nothing. *)
Lemma know_tally_blank b voter v :
  v.(kv_answers) = None -> (forall u, b.(bk_knows) !! voter = Some u -> u.(kv_answers) = None) ->
  know_tally (set_knows (<[ voter := v ]> b.(bk_knows)) b) = know_tally b.
Proof.
  intros Hv Hprev. unfold know_tally. apply list_fmap_ext. intros _ o _. cbn [set_knows bk_proposal bk_knows].
  rewrite fmap_insert_at. unfold right_for at 3. rewrite Hv. cbn [from_option].
  assert (from_option (right_for b.(bk_proposal) o) 0 (b.(bk_knows) !! voter) = 0) as ->.
  { destruct (b.(bk_knows) !! voter) as [u|]; [|done]. cbn. unfold right_for. rewrite (Hprev u eq_refl). by case_bool_decide. }
  case_bool_decide; lia.
Qed.

(** Answers that are revealed count where their vote is. *)
Lemma know_tally_reveal b voter v answers :
  good b -> b.(bk_knows) !! voter = Some v -> v.(kv_answers) = None -> 10 * (Z.of_nat (size b.(bk_knows)) + 1) <= u64_max ->
  at_index v.(kv_option)
    (fun slot => wrapping_add64 slot (right_answers b.(bk_proposal).(p_questions) (default [] b.(bk_proposal).(p_answers)) answers))
    (know_tally b) = know_tally (set_knows (<[ voter := set_know_answers answers v ]> b.(bk_knows)) b).
Proof.
  intros Hg Ev Hv Hmax. apply list_eq. intros o. destruct (decide (o < length b.(bk_proposal).(p_options))%nat) as [Ho|Ho].
  2: { rewrite !lookup_ge_None_2; [done|by rewrite length_know_tally; cbn; lia|].
       unfold at_index. rewrite length_alter, length_know_tally. lia. }
  rewrite lookup_at_index, lookup_know_tally, (lookup_know_tally (set_knows _ b)) by done. cbn [set_knows bk_knows bk_proposal].
  rewrite fmap_insert_at, Ev. cbn [from_option]. unfold right_for at 4. rewrite Hv. cbn [from_option set_know_answers kv_option kv_answers].
  assert ((if bool_decide (v.(kv_option) = o) then 0 else 0) = 0) as -> by by case_bool_decide.
  pose proof (msum_bounds (right_for b.(bk_proposal) o) b.(bk_knows) 0 10 (fun k a E => right_for_bound b o k a Hg E)) as Hb.
  pose proof (right_answers_bound b.(bk_proposal).(p_questions) (default [] b.(bk_proposal).(p_answers)) answers) as Hra.
  pose proof (g_questions _ Hg) as Hq. unfold MAX_QUESTIONS in Hq.
  unfold right_for at 4. cbn [set_know_answers kv_option kv_answers from_option].
  destruct (bool_decide_reflect (v.(kv_option) = o)); cbn; f_equal; [|lia].
  unfold wrapping_add64. rewrite Z.mod_small by lia. lia.
Qed.
End Moves.

(** ** The DAO: knowledge votes, proposals and reports as steps *)

Section Moves.
Context `{CryptoPrims} `{ChainPrims} `{DaoJson}.
Context `{!JsonRoundTrip Proposal} `{!JsonRoundTrip StakeVote} `{!JsonRoundTrip KnowVote} `{!JsonRoundTrip (list Z)}.
Implicit Types (ov : Ov) (block : LedgerBlock) (tx : LedgerTx) (b : Book) (ob : option Book) (p : Proposal).

(** Bodies of transactions that are well formed name a proposal by an id. *)
Definition named {A} `{Json A} (f : A -> string) tx : Prop :=
  forall body, from_str (A := A) tx.(call_args) = Ok body -> is_id (f body) = true.

(** ** Writing one knowledge vote *)

Lemma reads_after_know ov ov' id b voter v :
  reads_book ov id b -> is_short id ->
  (forall k, key_id k = Some id -> key_ok k -> k <> KKnow id voter -> k <> KKnowCount id -> k <> KKnowTally id -> kget k ov' = kget k ov) ->
  (forall a, locked_until ov' a = locked_until ov a) ->
  kget (KKnow id voter) ov' = Some (to_json v) ->
  u64_at ov' (key_bytes (KKnowCount id)) = Z.of_nat (size (<[ voter := v ]> b.(bk_knows))) ->
  (tally_active b.(bk_proposal).(p_height) = true ->
    resize (length b.(bk_proposal).(p_options)) 0 (default [] (load (A := list Z) ov' (key_bytes (KKnowTally id)))) =
      know_tally (set_knows (<[ voter := v ]> b.(bk_knows)) b)) ->
  good (set_knows (<[ voter := v ]> b.(bk_knows)) b) ->
  reads_book ov' id (set_knows (<[ voter := v ]> b.(bk_knows)) b).
Proof.
  intros Hr Hid Hk Hl Hv Hc Ht Hg. split; cbn [set_knows bk_proposal bk_votes bk_knows]; try done.
  - apply (rd_id _ _ _ Hr).
  - rewrite Hk by done. apply (rd_proposal _ _ _ Hr).
  - rewrite Hk by done. apply (rd_tally _ _ _ Hr).
  - rewrite <-(rd_count _ _ _ Hr). apply u64_at_same. by apply (Hk (KCount id)).
  - intros a. rewrite Hk by done. apply (rd_votes _ _ _ Hr).
  - intros a. destruct (decide (a = voter)) as [->|Hne].
    + by rewrite lookup_insert_eq, Hv.
    + rewrite lookup_insert_ne, <-(rd_knows _ _ _ Hr) by done. apply Hk; first [done|congruence].
  - intros a w E. rewrite Hl. by eapply (rd_locks _ _ _ Hr).
Qed.

Lemma good_know b voter v :
  good b -> (v.(kv_option) < length b.(bk_proposal).(p_options))%nat ->
  (forall a, v.(kv_answers) = Some a ->
    (exists salt, vote_commit b.(bk_proposal).(p_id) voter salt a = v.(kv_commit)) /\
    (tally_active b.(bk_proposal).(p_height) = true -> is_Some b.(bk_proposal).(p_answers))) ->
  good (set_knows (<[ voter := v ]> b.(bk_knows)) b).
Proof.
  intros [? ? ? Hk Ho ? ?] Hv Ha. split; try done; cbn [set_knows bk_proposal bk_knows].
  - intros k u. rewrite lookup_insert_Some. intros [[_ <-]|[_ E]]; [done|by eapply Hk].
  - intros k u a. rewrite lookup_insert_Some. intros [[<- <-]|[_ E]] Eu; [by apply Ha|by eapply Ho].
Qed.

Lemma know_room b : good b -> 10 * (Z.of_nat (size b.(bk_knows)) + 1) <= u64_max -> Z.of_nat (size b.(bk_knows)) + 1 <= u64_max.
Proof. lia. Qed.

Lemma knowledge_vote_moves ov block tx ov' :
  booked ov -> knowledge_vote ov block tx = Ok ov' -> named kb_id tx -> exists id, moves ov block tx ov' id.
Proof.
  intros Hb Hs Hwf. unfold knowledge_vote in Hs. apply result_bind_Ok in Hs as (body & Hbody & Hs).
  apply result_bind_Ok in Hs as (p & Hp & Hs). apply open_proposal_Ok in Hp as [Hp Hopen].
  pose proof (is_id_short _ (Hwf _ Hbody)) as Hid. destruct (booked_load _ _ _ Hb Hid Hp) as (b & Hr & <-).
  destruct (bool_decide (b.(bk_proposal).(p_questions) = [])) eqn:Hq; [done|]. apply bool_decide_eq_false_1 in Hq.
  destruct (bool_decide (length b.(bk_proposal).(p_options) <= body.(kb_option))%nat) eqn:Ho; [done|]. apply bool_decide_eq_false_1 in Ho.
  apply Ok_inj in Hs. set (id := body.(kb_id)) in *. rewrite (rd_id _ _ _ Hr) in Hs. fold id in Hs.
  change (ov_get (know_vote_key id tx.(tx_from)) ov) with (kget (KKnow id tx.(tx_from)) ov) in Hs.
  rewrite (rd_knows _ _ _ Hr) in Hs. autorewrite with dao_keys in Hs. set (v := MkKnowVote _ _ _) in Hs.
  set (ov1 := if bool_decide _ then _ else ov) in Hs.
  assert (Hk1 : forall k, key_ok k -> k <> KKnowCount id -> kget k ov1 = kget k ov).
  { intros k Hk Hne. unfold ov1. case_bool_decide; [|done]. by rewrite kget_kput_ne by first [done|congruence]. }
  subst ov'. exists id. split.
  - intros a. rewrite lock_kput by done. unfold ov1. case_bool_decide; [by rewrite lock_kput|done].
  - intros a. rewrite kget_kput_ne by done. by apply Hk1.
  - intros id' k Hs' Hne Hk Hok. rewrite kget_kput_ne by first [done|key_ne]. apply Hk1; [done|key_ne].
  - left. split; [intros a; rewrite kget_kput_ne by done; by apply Hk1|]. intros _. by rewrite (rd_proposal _ _ _ Hr).
  - intros _ ob Hrb (_ & _ & Hroom & Htime). apply reads_unique with (b := b) in Hrb as ->; [|done..].
    cbn [knows from_option] in Hroom. pose proof (rd_good _ _ _ Hr) as Hg.
    assert (Hprev : forall u, b.(bk_knows) !! tx.(tx_from) = Some u -> u.(kv_answers) = None).
    { intros u E. destruct u.(kv_answers) as [a|] eqn:Ea; [|done].
      pose proof (proj2 (Htime b eq_refl) tx.(tx_from) u E ltac:(by rewrite Ea)). destruct Hopen. lia. }
    eexists. split; [|apply (step_know block tx _ b body.(kb_option) body.(kb_commit)); [done|lia|done]].
    apply (reads_after_know ov); try done.
    + intros k Hk Hok H2 H3 H4. rewrite kget_kput_ne by first [done|congruence]. by apply Hk1.
    + intros a. rewrite lock_kput by done. unfold ov1. case_bool_decide; [by rewrite lock_kput|done].
    + apply kget_kput_eq.
    + rewrite u64_kput_ne by first [done|key_ne]. pose proof (rd_know_count _ _ _ Hr) as Hc. unfold ov1.
      destruct (b.(bk_knows) !! tx.(tx_from)) as [u|] eqn:E; cbn [fmap option_fmap option_map].
      * rewrite bool_decide_false, map_size_insert_Some by done. done.
      * rewrite bool_decide_true, map_size_insert_None by done.
        change (know_count_key id) with (key_bytes (KKnowCount id)). rewrite Hc. unfold wrapping_add64.
        rewrite Z.mod_small, u64_kput by lia. lia.
    + intros Ha. rewrite know_tally_blank by done. rewrite <-(rd_know_tally _ _ _ Hr Ha). do 2 f_equal.
      apply load_same. change (kget (KKnowTally id) (kput (KKnow id tx.(tx_from)) (to_json v) ov1) = kget (KKnowTally id) ov).
      rewrite kget_kput_ne by first [done|key_ne]. by apply Hk1.
    + apply good_know; [done|cbn; lia|done].
Qed.

(** ** Revealing answers *)

Lemma reveal_closes_Ok p closes :
  reveal_closes p = Ok closes -> tally_active p.(p_height) = true -> is_Some p.(p_revealed_at).
Proof. unfold reveal_closes. intros E Ha. rewrite Ha in E. destruct p.(p_revealed_at); [done|discriminate]. Qed.

Lemma know_reveal_moves ov block tx ov' :
  booked ov -> know_reveal ov block tx = Ok ov' -> named rb_id tx -> exists id, moves ov block tx ov' id.
Proof.
  intros Hb Hs Hwf. unfold know_reveal in Hs. apply result_bind_Ok in Hs as (body & Hbody & Hs).
  apply result_bind_Ok in Hs as (p & Hp & Hs). destruct (load_proposal ov body.(rb_id)) as [p'|] eqn:El; [|done].
  apply Ok_inj in Hp as ->. pose proof (is_id_short _ (Hwf _ Hbody)) as Hid.
  destruct (booked_load _ _ _ Hb Hid El) as (b & Hr & <-). set (id := body.(rb_id)) in *. set (p := b.(bk_proposal)) in *.
  pose proof (rd_id _ _ _ Hr) as Eid. fold p in Eid. rewrite Eid in Hs. fold id in Hs.
  apply result_bind_Ok in Hs as (v & Hv & Hs). rewrite (know_vote_reads _ _ _ _ Hr) in Hv.
  destruct (b.(bk_knows) !! tx.(tx_from)) as [v'|] eqn:Ev; [|done]. apply Ok_inj in Hv as ->.
  destruct (bool_decide (is_Some v.(kv_answers))) eqn:Hn; [done|]. apply bool_decide_eq_false_1, eq_None_not_Some in Hn.
  apply result_bind_Ok in Hs as (closes & Hcl & Hs). pose proof (reveal_closes_Ok _ _ Hcl) as Hact.
  destruct (bool_decide (block.(b_timestamp) < p.(p_ends_at)) || bool_decide (closes <= block.(b_timestamp))) eqn:Ht; [done|].
  apply orb_false_iff in Ht as [Ht _]. apply bool_decide_eq_false_1 in Ht.
  destruct (negb (answers_shape_ok p.(p_questions) body.(rb_answers)) || _) eqn:Hc; [done|].
  apply orb_false_iff in Hc as [Hsh Hc]. apply negb_false_iff in Hsh. apply negb_false_iff, bool_decide_eq_true_1 in Hc.
  apply Ok_inj in Hs. autorewrite with dao_keys in Hs. set (v2 := set_know_answers _ v) in Hs. set (ov1 := if tally_active _ then _ else ov) in Hs.
  assert (Hk1 : forall k, key_ok k -> k <> KKnowTally id -> kget k ov1 = kget k ov).
  { intros k Hk Hne. unfold ov1. destruct (tally_active _); [|done]. by rewrite kget_kput_ne by first [done|congruence]. }
  assert (Hl1 : forall a, locked_until ov1 a = locked_until ov a).
  { intros a. unfold ov1. destruct (tally_active _); [by rewrite lock_kput|done]. }
  subst ov'. exists id. split.
  - intros a. by rewrite lock_kput, Hl1.
  - intros a. rewrite kget_kput_ne by done. by apply Hk1.
  - intros id' k Hs' Hne Hk Hok. rewrite kget_kput_ne by first [done|key_ne]. apply Hk1; [done|key_ne].
  - left. split; [intros a; rewrite kget_kput_ne by done; by apply Hk1|]. intros _. by rewrite (rd_proposal _ _ _ Hr).
  - intros _ ob Hrb (_ & _ & Hroom & Htime). apply reads_unique with (b := b) in Hrb as ->; [|done..].
    cbn [knows from_option] in Hroom. pose proof (rd_good _ _ _ Hr) as Hg.
    eexists. split; [|apply (step_know_reveal block tx _ b v body.(rb_salt) body.(rb_answers)); try done; [fold p; lia|by fold p; rewrite Eid]].
    apply (reads_after_know ov); try done.
    + intros k Hk Hok H2 H3 H4. rewrite kget_kput_ne by first [done|congruence]. by apply Hk1.
    + intros a. by rewrite lock_kput, Hl1.
    + apply kget_kput_eq.
    + rewrite map_size_insert_Some by done. rewrite <-(rd_know_count _ _ _ Hr). apply u64_at_same.
      change (kget (KKnowCount id) (kput (KKnow id tx.(tx_from)) (to_json v2) ov1) = kget (KKnowCount id) ov).
      rewrite kget_kput_ne by first [done|key_ne]. by apply Hk1.
    + intros Ha. unfold v2. rewrite <-(know_tally_reveal b tx.(tx_from) v) by done. fold p.
      rewrite <-(rd_know_tally _ _ _ Hr Ha). fold p.
      erewrite load_same by (apply (kget_kput_ne (KKnow id tx.(tx_from)) (KKnowTally id)); first [done|key_ne]).
      unfold ov1. fold p in Ha. rewrite Ha. rewrite (load_kput (A := list Z)). cbn [default from_option]. apply resize_same.
      unfold at_index. rewrite length_alter. apply length_resize.
    + apply good_know; [done|apply (g_knows _ Hg _ _ Ev)|]. intros a [= <-]. fold p. split.
      * exists body.(rb_salt). rewrite Eid. done.
      * intros Ha. by apply (g_revealed _ Hg), Hact.
Qed.

(** ** Writing a proposal *)

Lemma reads_after_proposal ov id b p :
  reads_book ov id b -> is_short id -> p.(p_id) = id -> p.(p_options) = b.(bk_proposal).(p_options) ->
  p.(p_ends_at) = b.(bk_proposal).(p_ends_at) -> p.(p_height) = b.(bk_proposal).(p_height) ->
  (tally_active p.(p_height) = true -> know_tally (set_proposal p b) = know_tally b) ->
  good (set_proposal p b) -> reads_book (kput (KProposal id) (to_json p) ov) id (set_proposal p b).
Proof.
  intros Hr Hid Ei Eo Ee Eh Ht Hg. split; cbn [set_proposal bk_proposal bk_votes bk_knows]; try done.
  - apply kget_kput_eq.
  - rewrite kget_kput_ne, (rd_tally _ _ _ Hr) by first [done|key_ne]. unfold stake_tally. cbn. by rewrite Eo.
  - rewrite <-(rd_count _ _ _ Hr). apply u64_at_same, (kget_kput_ne (KProposal id) (KCount id)); first [done|key_ne].
  - intros a. rewrite kget_kput_ne by first [done|key_ne]. apply (rd_votes _ _ _ Hr).
  - intros a. rewrite kget_kput_ne by first [done|key_ne]. apply (rd_knows _ _ _ Hr).
  - rewrite <-(rd_know_count _ _ _ Hr). apply u64_at_same, (kget_kput_ne (KProposal id) (KKnowCount id)); first [done|key_ne].
  - intros Ha. rewrite (Ht Ha), Eo. rewrite Eh in Ha. rewrite <-(rd_know_tally _ _ _ Hr Ha). do 2 f_equal.
    apply load_same, (kget_kput_ne (KProposal id) (KKnowTally id)); first [done|key_ne].
  - intros a v E. rewrite lock_kput by done. rewrite Ee. by eapply (rd_locks _ _ _ Hr).
Qed.

Lemma proposal_moves ov block tx id b p :
  reads_book ov id b -> is_short id -> p.(p_id) = id -> p.(p_options) = b.(bk_proposal).(p_options) ->
  p.(p_ends_at) = b.(bk_proposal).(p_ends_at) -> p.(p_height) = b.(bk_proposal).(p_height) ->
  (tally_active p.(p_height) = true -> know_tally (set_proposal p b) = know_tally b) ->
  good (set_proposal p b) -> (forall stake, Step block tx stake (Some b) (set_proposal p b)) ->
  moves ov block tx (kput (KProposal id) (to_json p) ov) id.
Proof.
  intros Hr Hid Ei Eo Ee Eh Ht Hg Hst. split.
  - intros a. by rewrite lock_kput.
  - intros a. by rewrite kget_kput_ne.
  - intros id' k Hs' Hne Hk Hok. rewrite kget_kput_ne by first [done|key_ne]. done.
  - left. split; [intros a; by rewrite kget_kput_ne|]. intros _. by rewrite (rd_proposal _ _ _ Hr).
  - intros _ ob Hrb _. apply reads_unique with (b := b) in Hrb as ->; [|done..].
    exists (set_proposal p b). split; [by apply reads_after_proposal|done].
Qed.

Lemma reveal_moves ov block tx ov' :
  booked ov -> reveal ov block tx = Ok ov' -> named rb_id tx -> exists id, moves ov block tx ov' id.
Proof.
  intros Hb Hs Hwf. unfold reveal in Hs. apply result_bind_Ok in Hs as (body & Hbody & Hs).
  apply result_bind_Ok in Hs as (p & Hp & Hs). destruct (load_proposal ov body.(rb_id)) as [p'|] eqn:El; [|done].
  apply Ok_inj in Hp as ->. pose proof (is_id_short _ (Hwf _ Hbody)) as Hid.
  destruct (booked_load _ _ _ Hb Hid El) as (b & Hr & <-). set (id := body.(rb_id)) in *. set (p := b.(bk_proposal)) in *.
  destruct (bool_decide (p.(p_creator) <> tx.(tx_from))) eqn:Hcr; [done|]. apply bool_decide_eq_false_1, dec_stable in Hcr.
  destruct (bool_decide (p.(p_questions) = []) || bool_decide (is_Some p.(p_answers))) eqn:Hn; [done|].
  apply orb_false_iff in Hn as [_ Hn]. apply bool_decide_eq_false_1, eq_None_not_Some in Hn.
  destruct (bool_decide (block.(b_timestamp) < p.(p_ends_at)) || _) eqn:Ht; [done|].
  apply orb_false_iff in Ht as [Ht _]. apply bool_decide_eq_false_1 in Ht.
  destruct (negb (answers_shape_ok p.(p_questions) body.(rb_answers)) || _) eqn:Hc; [done|].
  apply orb_false_iff in Hc as [Hsh Hc]. apply negb_false_iff in Hsh. apply negb_false_iff, bool_decide_eq_true_1 in Hc.
  apply Ok_inj in Hs. autorewrite with dao_keys in Hs. set (at_ := if tally_active _ then _ else _) in Hs.
  pose proof (rd_id _ _ _ Hr) as Eid. fold p in Eid. rewrite Eid in Hs. fold id in Hs. subst ov'. exists id.
  pose proof (rd_good _ _ _ Hr) as Hg. apply (proposal_moves ov block tx id b); try done.
  - intros Ha. unfold know_tally. apply list_fmap_ext. intros _ o _. cbn [set_proposal bk_proposal bk_knows]. unfold msum. f_equal.
    apply map_fmap_ext. intros voter v E. unfold right_for. cbn [p_questions p_answers set_answers].
    destruct v.(kv_answers) as [a|] eqn:Ea; [|done]. exfalso.
    destruct (g_opened _ Hg voter v a E Ea) as [_ Hsome]. destruct (Hsome Ha) as [? E']. fold p in E'. congruence.
  - destruct Hg as [? ? ? ? Ho ? ?]. split; try done; cbn [set_proposal bk_proposal bk_knows set_answers p_answers p_revealed_at p_id p_answers_commit p_height].
    + intros voter v a E Ea. split; [by eapply Ho|done].
    + intros a [= <-]. by exists body.(rb_salt).
  - intros stake. apply (step_reveal block tx stake b body.(rb_salt)); try done. fold p. lia.
Qed.

Lemma withdraw_moves ov block tx ov' :
  booked ov -> withdraw ov block tx = Ok ov' -> named wb_id tx -> exists id, moves ov block tx ov' id.
Proof.
  intros Hb Hs Hwf. unfold withdraw in Hs. apply result_bind_Ok in Hs as (body & Hbody & Hs).
  apply result_bind_Ok in Hs as (p & Hp & Hs). apply open_proposal_Ok in Hp as [Hp Hopen].
  pose proof (is_id_short _ (Hwf _ Hbody)) as Hid. destruct (booked_load _ _ _ Hb Hid Hp) as (b & Hr & <-).
  destruct (bool_decide (_ <> tx.(tx_from))) eqn:Hcr; [done|]. apply bool_decide_eq_false_1, dec_stable in Hcr.
  apply Ok_inj in Hs. autorewrite with dao_keys in Hs. rewrite (rd_id _ _ _ Hr) in Hs. subst ov'. exists body.(wb_id).
  pose proof (rd_good _ _ _ Hr) as Hg. apply (proposal_moves ov block tx _ b); try done.
  - apply (rd_id _ _ _ Hr).
  - by destruct Hg.
  - intros stake. by apply step_withdraw.
Qed.

(** ** New proposals *)

Lemma seq_zeros (f : nat -> Z) n : (forall o, f o = 0) -> f <$> seq 0 n = replicate n 0.
Proof. intros Hf. rewrite (list_fmap_ext f (fun _ => 0)) by auto. generalize 0%nat. induction n as [|n IH]; intros i; [done|]. cbn. by f_equal. Qed.

Lemma msum_empty {A} (f : A -> Z) : msum f ∅ = 0.
Proof. unfold msum. by rewrite fmap_empty, mtotal_empty. Qed.

Lemma u64_at_none ov k : kget k ov = None -> u64_at ov (key_bytes k) = 0.
Proof. unfold kget, u64_at. by intros ->. Qed.

Lemma check_propose_Ok (body : ProposeBody) :
  check_propose body = Ok tt ->
  (2 <= length body.(pb_options) <= MAX_OPTIONS)%nat /\ MIN_DAYS <= body.(pb_duration_days) <= MAX_DAYS /\
  (length body.(pb_questions) <= MAX_QUESTIONS)%nat.
Proof.
  unfold check_propose. intros Hc.
  repeat match type of Hc with (if ?c then _ else _) = _ => destruct c eqn:?; [discriminate Hc|] end.
  repeat match goal with Hx : _ || _ = false |- _ => apply orb_false_iff in Hx as [? ?] end.
  repeat match goal with Hx : bool_decide _ = false |- _ => apply bool_decide_eq_false_1 in Hx end. lia.
Qed.

Lemma propose_moves ov block tx stake ov' :
  propose ov block tx stake = Ok ov' -> (forall body, from_str (A := ProposeBody) tx.(call_args) = Ok body -> check_propose body = Ok tt) ->
  moves ov block tx ov' (proposal_id tx.(tx_hash)).
Proof.
  intros Hs Hwf. unfold propose in Hs. apply result_bind_Ok in Hs as (body & Hbody & Hs).
  destruct (check_propose_Ok _ (Hwf _ Hbody)) as (Hopt & Hdays & Hqs). set (id := proposal_id tx.(tx_hash)) in *.
  destruct (bool_decide (is_Some (ov_get (p_key id) ov))) eqn:Hn; [done|]. apply bool_decide_eq_false_1, eq_None_not_Some in Hn.
  destruct (banned _ _); [done|]. destruct (bool_decide (_ <= _)%nat) eqn:Hmany; [done|]. apply bool_decide_eq_false_1 in Hmany.
  apply Ok_inj in Hs. autorewrite with dao_keys in Hs. cbn zeta in Hs. set (p := MkProposal _ _ _ _ _ _ _ _ _ _ _ _ _ _) in Hs.
  assert (Hkeep : forall k, key_ok k -> k <> KCreated tx.(tx_from) -> k <> KTally id -> k <> KProposal id -> kget k ov' = kget k ov).
  { intros k Hk H1' H2 H3. subst ov'. rewrite kget_kput_ne by first [done|congruence].
    rewrite kget_put_index by done. by rewrite !kget_kput_ne by first [done|congruence]. }
  split.
  - intros a. subst ov'. rewrite lock_kput, lock_index, !lock_kput by done. done.
  - intros a. by apply Hkeep.
  - intros id' k Hs' Hne Hk Hok. apply Hkeep; first [done|key_ne].
  - right. split_and!; [exact Hn|lia| |].
    + subst ov'. rewrite kget_kput_ne by done. rewrite kget_put_index by done. rewrite kget_kput_ne by done. apply kget_kput_eq.
    + intros a Ha. apply Hkeep; [done|congruence|done|done].
  - intros Hid ob Hrb _. destruct ob as [b|]; cbn in Hrb.
    { pose proof (rd_proposal _ _ _ Hrb) as E. unfold kget in E. cbn [key_bytes] in E. congruence. }
    exists (MkBook p ∅ ∅). split.
    2: { apply (step_propose block tx _ p body.(pb_duration_days)); done. }
    assert (Hnone : forall k, key_id k = Some id -> key_ok k -> k <> KTally id -> k <> KProposal id -> kget k ov' = None).
    { intros k Hk Hok ? ?. rewrite Hkeep by first [done|key_ne]. by apply Hrb. }
    split; cbn [bk_proposal bk_votes bk_knows].
    + done.
    + subst ov'. apply kget_kput_eq.
    + subst ov'. rewrite kget_kput_ne by first [done|key_ne]. rewrite kget_put_index by done. rewrite kget_kput_eq.
      unfold stake_tally. cbn [bk_proposal bk_votes]. rewrite seq_zeros; [done|]. intros o. apply msum_empty.
    + apply u64_at_none. by apply Hnone.
    + intros a. by rewrite Hnone.
    + intros a. by rewrite Hnone.
    + apply u64_at_none. by apply Hnone.
    + intros _. unfold know_tally. cbn [bk_proposal bk_knows]. rewrite seq_zeros; [|intros o; apply msum_empty].
      unfold load. change (ov_get (key_bytes (KKnowTally id)) ov') with (kget (KKnowTally id) ov'). rewrite Hnone by done. apply resize_nil.
    + split; cbn [bk_proposal bk_votes bk_knows]; try done; try apply as_signed_range.
      by intros [? ?].
    + intros a v E. by rewrite lookup_empty in E.
Qed.

(** ** Reports *)

Lemma report_moves ov block tx ov' : report ov block tx = Ok ov' -> moves ov block tx ov' "".
Proof.
  intros Hs. unfold report in Hs. apply result_bind_Ok in Hs as (body & Hbody & Hs).
  destruct (bool_decide (stake_of ov tx.(tx_from) = 0)); [done|]. destruct (existsb _ _); [done|].
  apply Ok_inj in Hs. autorewrite with dao_keys in Hs. subst ov'. split.
  - intros a. rewrite locked_until_extend by apply as_signed_range. case_bool_decide; subst; rewrite lock_kput by done; lia.
  - intros a. rewrite kget_extend_lock by done. by rewrite kget_kput_ne.
  - intros id k Hid Hne Hk Hok. rewrite kget_extend_lock by first [done|key_ne]. by rewrite kget_kput_ne by first [done|key_ne].
  - left. split; [|done]. intros a. rewrite kget_extend_lock by done. by rewrite kget_kput_ne.
  - done.
Qed.

(** ** Any transaction *)

(** The body of a transaction that is well formed. *)
Ltac body_of Hwf :=
  let body := fresh in let Hb := fresh in
  intros body Hb; unfold well_formed in Hwf; rewrite Hb in Hwf; cbn [unreadable] in Hwf; op_cases; try done;
  repeat match goal with Hx : _ || _ = false |- _ => apply orb_false_iff in Hx as [? ?] end;
  repeat match goal with Hx : negb _ = false |- _ => apply negb_false_iff in Hx end; try done;
  repeat match goal with Hx : _ || _ = true |- _ => apply orb_true_iff in Hx as [Hx|Hx] end;
  repeat match goal with Hx : bool_decide (tx_type _ = _) = true |- _ => apply bool_decide_eq_true_1 in Hx
                    | Hx : bool_decide (tx_type _ = _) = false |- _ => apply bool_decide_eq_false_1 in Hx end;
  unfold TX_PROPOSE, TX_VOTE, TX_KNOW, TX_REVEAL, TX_KNOW_REVEAL, TX_REPORT in *; congruence.

Lemma apply_tx_moves ov block tx stake ov' :
  booked ov -> apply_tx ov block tx stake = Ok ov' -> exists id, moves ov block tx ov' id.
Proof.
  intros Hb Hs. unfold apply_tx in Hs. apply result_bind_Ok in Hs as ([] & Hwf & Hs).
  destruct (bool_decide (tx.(tx_type) = TX_PROPOSE)) eqn:E1.
  { eexists. apply (propose_moves _ _ _ _ _ Hs). body_of Hwf. }
  destruct (bool_decide (tx.(tx_type) = TX_VOTE)) eqn:E2.
  { apply (stake_vote_moves _ _ _ _ Hb Hs); [by unfold locks_stake; rewrite E2|]. body_of Hwf. }
  destruct (bool_decide (tx.(tx_type) = TX_KNOW)) eqn:E3.
  { apply (knowledge_vote_moves _ _ _ _ Hb Hs). body_of Hwf. }
  destruct (bool_decide (tx.(tx_type) = TX_REVEAL)) eqn:E4.
  { apply (reveal_moves _ _ _ _ Hb Hs). body_of Hwf. }
  destruct (bool_decide (tx.(tx_type) = TX_KNOW_REVEAL)) eqn:E5.
  { apply (know_reveal_moves _ _ _ _ Hb Hs). body_of Hwf. }
  destruct (bool_decide (tx.(tx_type) = TX_REPORT)) eqn:E6.
  { eexists. apply (report_moves _ _ _ _ Hs). }
  apply (withdraw_moves _ _ _ _ Hb Hs). body_of Hwf.
Qed.
End Moves.
