(* ===== verification/DaoRuns.v ===== *)
(** * The DAO: blocks and runs

    What a block does to every book, and the chain: blocks that were accepted,
    whose DAO transactions were applied and whose stakes were written. *)
From stdpp Require Import pretty.
From S2P Require Import Prelude Crypto Ledger RuleText LedgerFacts Totals Dao DaoFacts DaoSteps.
Local Open Scope string_scope.
Local Open Scope list_scope.
Local Open Scope Z_scope.
Local Open Scope ego_scope.

Section Runs.
Context `{CryptoPrims} `{ChainPrims} `{DaoJson}.
Context `{!JsonRoundTrip Proposal} `{!JsonRoundTrip StakeVote} `{!JsonRoundTrip KnowVote} `{!JsonRoundTrip (list Z)}.
Implicit Types (ov : Ov) (block : LedgerBlock) (tx : LedgerTx) (b : Book) (ob : option Book) (p : Proposal).

(** ** What a step keeps *)

Lemma step_weights block tx stake ob b : 0 <= stake -> Step block tx stake ob b ->
  (forall b0, ob = Some b0 -> good b0) -> weights (Some b) <= weights ob + stake.
Proof.
  intros Hs Hst Hg. destruct Hst as [| b o | | | |]; cbn [weights from_option bk_votes set_votes set_knows set_proposal];
    rewrite ?msum_empty; try lia.
  rewrite fmap_insert_at. cbn [sv_weight]. destruct (b.(bk_votes) !! tx.(tx_from)) as [v|] eqn:E; cbn [from_option]; [|lia].
  destruct (g_votes _ (Hg b eq_refl) _ _ E). lia.
Qed.

Lemma step_knows block tx stake ob b : Step block tx stake ob b -> knows (Some b) <= knows ob + 1.
Proof.
  intros Hst. destruct Hst as [| | b o | b v | |]; cbn [knows from_option bk_knows set_votes set_knows set_proposal]; try lia.
  - rewrite map_size_empty. lia.
  - destruct (b.(bk_knows) !! tx.(tx_from)) eqn:E; [rewrite map_size_insert_Some by done|rewrite map_size_insert_None by done]; lia.
  - rewrite map_size_insert_Some by done. lia.
Qed.

Lemma step_timely block tx stake ob b : Step block tx stake ob b -> timely block.(b_timestamp) ob -> timely block.(b_timestamp) (Some b).
Proof.
  intros Hst Ht b' Eb. apply (inj Some) in Eb as <-. destruct Hst as [p ? ? ? ? ? ? ? ? ? Hn| b o | b o | b v | b | b];
    cbn [bk_proposal bk_knows set_votes set_knows set_proposal set_answers set_withdrawn p_answers p_ends_at];
    try (destruct (Ht b eq_refl) as [Hp Hk]); try (split; [done|]); try done.
  - split; [rewrite Hn; by intros []|]. intros voter u E. by rewrite lookup_empty in E.
  - intros voter u [[_ <-]|[_ E]]%lookup_insert_Some Hu; [by destruct Hu|by eapply Hk].
Qed.

(** ** Proposals of one creator *)

Definition by_creator ov (a : string) (ids : list string) : Prop :=
  NoDup ids /\ forall id, id ∈ ids -> is_short id /\ exists p, load_proposal ov id = Some p /\ p.(p_creator) = a.

Definition created_of ov (id : string) : Z := from_option p_created_at 0 (load_proposal ov id).

(** The times on record cover the proposals of the window. *)
Definition rated (now : Z) ov : Prop := forall a,
  (length (created_in_window ov a now) <= PROPOSALS_PER_WINDOW)%nat /\
  forall ids, by_creator ov a ids -> filter (fun t => as_signed (now - WINDOW_SECS) < t) (created_of ov <$> ids) ⊆+ created_in_window ov a now.

Lemma window_later now now' : 0 <= now <= now' -> now' <= i64_max -> as_signed (now - WINDOW_SECS) <= as_signed (now' - WINDOW_SECS).
Proof. intros H1' H2. rewrite !as_signed_id; unfold in_i64, WINDOW_SECS, DAY_SECS, i64_min, i64_max in *; lia. Qed.

Lemma filter_later (l : list Z) w w' : w <= w' -> filter (fun t => w' < t) (filter (fun t => w < t) l) = filter (fun t => w' < t) l.
Proof. intros Hle. rewrite list_filter_filter. apply list_filter_iff. intros t. lia. Qed.

Lemma filter_submseteq (P : Z -> Prop) `{!forall x, Decision (P x)} (l k : list Z) : l ⊆+ k -> filter P l ⊆+ filter P k.
Proof.
  induction 1 as [|x l k _ IH|x y l|x l k _ IH|l k j _ IH1 _ IH2].
  - done.
  - rewrite !filter_cons. case_decide; [by apply submseteq_skip|done].
  - rewrite !filter_cons. repeat case_decide; try done. by apply submseteq_swap.
  - rewrite !filter_cons. case_decide; [by apply submseteq_cons|done].
  - by etrans.
Qed.

Lemma rated_later now now' ov : 0 <= now <= now' -> now' <= i64_max -> rated now ov -> rated now' ov.
Proof.
  intros H1' H2 Hr a. destruct (Hr a) as [Hl Hc]. pose proof (window_later _ _ H1' H2) as Hw.
  assert (E : created_in_window ov a now' = filter (fun t => as_signed (now' - WINDOW_SECS) < t) (created_in_window ov a now)).
  { unfold created_in_window. by rewrite filter_later. }
  split.
  - rewrite E. etrans; [apply length_filter|done].
  - intros ids Hids. rewrite E. rewrite <-(filter_later _ _ _ Hw). by apply filter_submseteq, Hc.
Qed.

(** ** A block *)

(** All books are in order, with at most [w] coins and [k] knowledge votes each,
    and the times of the last proposals are kept for every creator. *)
Definition within (now w k : Z) ov : Prop :=
  booked ov /\ (forall id ob, is_short id -> reads ov id ob -> weights ob <= w /\ knows ob <= k /\ timely now ob) /\ rated now ov.

(** The terms of a proposal: all of it but the withdrawal and the answers. *)
Definition same_terms (p p' : Proposal) : Prop :=
  set_withdrawn (set_answers [] None p) = set_withdrawn (set_answers [] None p').

Lemma book_step_terms block tx stake b b' : Step block tx stake (Some b) b' -> same_terms b.(bk_proposal) b'.(bk_proposal).
Proof. intros Hs. by inversion Hs; subst. Qed.

Lemma same_terms_fields p p' :
  same_terms p p' -> p'.(p_id) = p.(p_id) /\ p'.(p_creator) = p.(p_creator) /\ p'.(p_created_at) = p.(p_created_at) /\
    p'.(p_ends_at) = p.(p_ends_at) /\ p'.(p_options) = p.(p_options) /\ p'.(p_questions) = p.(p_questions) /\
    p'.(p_answers_commit) = p.(p_answers_commit) /\ p'.(p_height) = p.(p_height).
Proof. unfold same_terms, set_withdrawn, set_answers. cbn. intros [=]. split_and!; congruence. Qed.

Definition book_step block (stake : string -> Z) tx ob ob' : Prop := exists b, ob' = Some b /\ Step block tx (stake tx.(tx_from)) ob b.

(** A proposal that is there after a transaction was there, or is the new one. *)
Lemma loaded_back ov block tx ov' id0 id p' :
  booked ov -> moves ov block tx ov' id0 -> is_short id -> load_proposal ov' id = Some p' ->
  (forall ob, reads ov id ob -> exists ob', reads ov' id ob' /\ (ob' = ob \/ book_step block (stake_of ov) tx ob ob')) ->
  (exists p, load_proposal ov id = Some p /\ same_terms p p') \/
  (id = id0 /\ load_proposal ov id = None /\ p'.(p_creator) = tx.(tx_from) /\ p'.(p_created_at) = block.(b_timestamp)).
Proof.
  intros Hb Hm Hid Hp Hall. destruct (Hb id Hid) as [ob Hr]. destruct (Hall ob Hr) as (ob' & Hr' & Hor).
  destruct ob' as [b'|]; cbn in Hr'.
  2: { unfold load_proposal, load in Hp. change (ov_get (p_key id) ov') with (kget (KProposal id) ov') in Hp. by rewrite (Hr' (KProposal id)) in Hp. }
  rewrite (reads_load _ _ _ Hr') in Hp. apply (inj Some) in Hp as <-. destruct ob as [b|]; cbn in Hr.
  - left. exists b.(bk_proposal). split; [by apply reads_load|]. destruct Hor as [[= <-]|(b2 & [= <-] & Hs)]; [done|by eapply book_step_terms].
  - right. destruct Hor as [?|(b2 & [= <-] & Hs)]; [done|]. inversion Hs; subst; cbn [bk_proposal].
    assert (kget (KProposal id) ov = None) as Hnone by by apply Hr. split_and!; try done.
    + destruct (decide (id = id0)) as [|Hne]; [done|]. pose proof (rd_proposal _ _ _ Hr') as E.
      rewrite (mv_frame _ _ _ _ _ Hm id (KProposal id)) in E by done. congruence.
    + unfold load_proposal, load. change (ov_get (p_key id) ov) with (kget (KProposal id) ov). by rewrite Hnone.
Qed.

Lemma window_same ov ov' a now : kget (KCreated a) ov' = kget (KCreated a) ov -> created_in_window ov' a now = created_in_window ov a now.
Proof. intros E. unfold created_in_window. do 2 f_equal. by apply load_same. Qed.

Lemma moves_rated ov block tx ov' id0 :
  booked ov -> moves ov block tx ov' id0 -> in_i64 block.(b_timestamp) -> 0 <= block.(b_timestamp) ->
  (forall id ob, is_short id -> reads ov id ob -> exists ob', reads ov' id ob' /\ (ob' = ob \/ book_step block (stake_of ov) tx ob ob')) ->
  rated block.(b_timestamp) ov -> rated block.(b_timestamp) ov'.
Proof.
  intros Hb Hm Hts Hpos Hall Hrate a. destruct (Hrate a) as [Hlen Hcov]. set (now := block.(b_timestamp)) in *.
  (* ids whose proposals were there before *)
  assert (Hold : forall ids, by_creator ov' a ids -> (forall id, id ∈ ids -> is_Some (load_proposal ov id)) ->
    by_creator ov a ids /\ created_of ov' <$> ids = created_of ov <$> ids).
  { intros ids [Hnd Hids] Hsome. split.
    - split; [done|]. intros id Hin. destruct (Hids id Hin) as (Hid & p' & Hp' & Hc). split; [done|].
      destruct (loaded_back _ _ _ _ _ id p' Hb Hm Hid Hp' (fun ob => Hall id ob Hid)) as [(p & Hp & Ht)|(_ & Hn & _)].
      + exists p. split; [done|]. apply same_terms_fields in Ht. destruct Ht as (_ & E & _). congruence.
      + destruct (Hsome id Hin). congruence.
    - apply list_fmap_ext. intros i id Hin%list_elem_of_lookup_2. destruct (Hids id Hin) as (Hid & p' & Hp' & _).
      destruct (loaded_back _ _ _ _ _ id p' Hb Hm Hid Hp' (fun ob => Hall id ob Hid)) as [(p & Hp & Ht)|(_ & Hn & _)].
      + unfold created_of. rewrite Hp, Hp'. cbn. apply same_terms_fields in Ht. by destruct Ht as (_ & _ & E & _).
      + destruct (Hsome id Hin). congruence. }
  (* what is new *)
  assert (Hnew : forall ids, by_creator ov' a ids -> forall id, id ∈ ids -> is_Some (load_proposal ov id) \/ (id = id0 /\ a = tx.(tx_from) /\ created_of ov' id = now)).
  { intros ids [_ Hids] id Hin. destruct (Hids id Hin) as (Hid & p' & Hp' & Hc).
    destruct (loaded_back _ _ _ _ _ id p' Hb Hm Hid Hp' (fun ob => Hall id ob Hid)) as [(p & Hp & _)|(E & _ & Ec & Et)]; [left; by rewrite Hp|].
    right. split_and!; [done|congruence|]. unfold created_of. by rewrite Hp'. }
  destruct (mv_created _ _ _ _ _ Hm) as [[Hsame Hex]|(Hnone & Hroom & Hput & Hoth)].
  - rewrite (window_same ov ov' a now) by apply Hsame. split; [done|]. intros ids Hids.
    destruct (Hold ids Hids) as [Hby ->]; [|by apply Hcov]. intros id Hin. destruct (Hnew ids Hids id Hin) as [?|(-> & _ & _)]; [done|].
    destruct Hids as [_ Hids]. destruct (Hids id0 Hin) as [Hid _]. destruct (Hb id0 Hid) as [[b|] Hr].
    + by rewrite (reads_load _ _ _ Hr).
    + destruct (Hex Hid) as [v Ev]. by rewrite (Hr (KProposal id0)) in Ev.
  - destruct (decide (a = tx.(tx_from))) as [->|Hne].
    2: { rewrite (window_same ov ov' a now) by by apply Hoth. split; [done|]. intros ids Hids.
         destruct (Hold ids Hids) as [Hby ->]; [|by apply Hcov]. intros id Hin. by destruct (Hnew ids Hids id Hin) as [?|(_ & ? & _)]. }
    assert (Ew : created_in_window ov' tx.(tx_from) now = created_in_window ov tx.(tx_from) now ++ [now]).
    { unfold created_in_window at 1, load. change (ov_get (created_key tx.(tx_from)) ov') with (kget (KCreated tx.(tx_from)) ov').
      rewrite Hput. cbn [mbind option_bind]. rewrite from_to_json. cbn [result_ok default from_option]. unfold id. rewrite filter_app. f_equal.
      - unfold created_in_window. rewrite list_filter_filter. apply list_filter_iff. intros t. fold now. tauto.
      - rewrite filter_cons, decide_True; [done|]. rewrite as_signed_id; unfold in_i64, WINDOW_SECS, DAY_SECS, i64_min, i64_max in *; lia. }
    rewrite Ew. split; [rewrite length_app; cbn; fold now in Hroom; lia|]. intros ids Hids.
    destruct (decide (id0 ∈ ids)) as [Hin|Hnin].
    2: { destruct (Hold ids Hids) as [Hby ->]; [|by apply submseteq_inserts_r, Hcov].
         intros id Hin'. destruct (Hnew ids Hids id Hin') as [?|(-> & _)]; [done|done]. }
    apply elem_of_Permutation in Hin as [ids' Hperm]. destruct Hids as [Hnd Hids]. rewrite Hperm in Hnd. apply NoDup_cons in Hnd as [Hn0 Hnd].
    assert (by_creator ov' tx.(tx_from) ids') as Hids' by (split; [done|]; intros id Hin'; apply Hids; rewrite Hperm; set_solver).
    destruct (Hold ids' Hids') as [Hby Ec]; [intros id Hin'; destruct (Hnew ids' Hids' id Hin') as [?|(-> & _)]; done|].
    assert (Hsub : filter (fun t => as_signed (now - WINDOW_SECS) < t) (created_of ov' <$> ids) ≡ₚ
      filter (fun t => as_signed (now - WINDOW_SECS) < t) (created_of ov' id0 :: (created_of ov <$> ids'))).
    { rewrite Hperm, fmap_cons, Ec. done. }
    rewrite Hsub, filter_cons, (Permutation_app_comm _ [now]). specialize (Hcov ids' Hby). cbn [app].
    assert (is_Some (load_proposal ov id0) \/ created_of ov' id0 = now) as [Hs| ->].
    { destruct (Hnew (id0 :: ids')) with (id := id0) as [?|(_ & _ & ?)]; auto; [|set_solver]. split; [by apply NoDup_cons|].
      intros id Hin'. apply Hids. by rewrite Hperm. }
    + destruct Hs as [p Hp]. unfold load_proposal, load in Hp. change (ov_get (p_key id0) ov) with (kget (KProposal id0) ov) in Hp. by rewrite Hnone in Hp.
    + case_decide; [by apply submseteq_skip|by apply submseteq_cons].
Qed.

Lemma try_tx_step block network ov tx w k :
  in_i64 block.(b_timestamp) -> 0 <= block.(b_timestamp) ->
  within block.(b_timestamp) w k ov -> 0 <= stake_of ov tx.(tx_from) -> w + stake_of ov tx.(tx_from) <= u64_max -> 10 * (k + 1) <= u64_max ->
  within block.(b_timestamp) (w + stake_of ov tx.(tx_from)) (k + 1) (try_tx block network ov tx) /\
  (forall a, locked_until ov a <= locked_until (try_tx block network ov tx) a) /\
  (forall a, stake_of (try_tx block network ov tx) a = stake_of ov a) /\
  forall id ob, is_short id -> reads ov id ob ->
    exists ob', reads (try_tx block network ov tx) id ob' /\ (ob' = ob \/ book_step block (stake_of ov) tx ob ob').
Proof.
  intros Hts Hts0 (Hb & Hw & Hrate) Hpos Hroom Hk. unfold try_tx. destruct (apply_tx ov block tx network) as [ov'|] eqn:Ha.
  2: { split_and!; [|done|done|]; [|intros id ob ? ?; exists ob; eauto]. split_and!; [done| |done].
       intros id ob Hid Hr. destruct (Hw id ob Hid Hr) as (? & ? & ?). split_and!; [lia|lia|done]. }
  destruct (apply_tx_moves _ _ _ _ _ Hb Ha) as [id0 Hm]. pose proof Hm as [Hl Hst Hframe _ Hstep].
  assert (Hall : forall id ob, is_short id -> reads ov id ob ->
    exists ob', reads ov' id ob' /\ (ob' = ob \/ book_step block (stake_of ov) tx ob ob')).
  { intros id ob Hid Hr. destruct (decide (id = id0)) as [->|Hne].
    - destruct (Hw id0 ob Hid Hr) as (? & ? & ?).
      destruct (Hstep Hid ob Hr) as (b & Hr' & Hs); [by split_and!; try lia|]. exists (Some b). split; [done|]. right. by exists b.
    - exists ob. split; [|by left]. apply (reads_frame ov); [|done|done|done]. intros k' Hk' Hok. by apply (Hframe id). }
  split_and!; try done.
  - split_and!; [| |by eapply moves_rated].
    + intros id Hid. destruct (Hb id Hid) as [ob Hr]. destruct (Hall id ob Hid Hr) as (ob' & Hr' & _). by exists ob'.
    + intros id ob' Hid Hr'. destruct (Hb id Hid) as [ob Hr]. destruct (Hall id ob Hid Hr) as (ob2 & Hr2 & Hor).
      destruct (Hw id ob Hid Hr) as (Hw1 & Hk1 & Ht1).
      assert (weights ob2 <= w + stake_of ov tx.(tx_from) /\ knows ob2 <= k + 1 /\ timely block.(b_timestamp) ob2) as Hok.
      { destruct Hor as [->|(b & -> & Hs)]; [split_and!; [lia|lia|done]|].
        assert (forall b0, ob = Some b0 -> good b0) by (intros b0 ->; apply (rd_good _ _ _ Hr)).
        pose proof (step_weights _ _ _ _ _ Hpos Hs ltac:(done)). pose proof (step_knows _ _ _ _ _ Hs).
        split_and!; [lia|lia|]. by eapply step_timely. }
      destruct ob2 as [b2|].
      * by apply reads_unique with (b := b2) in Hr' as ->.
      * destruct ob' as [b'|]; [|done]. apply reads_unique with (b := b') in Hr2; done.
  - intros a. apply stake_of_same, Hst.
Qed.

(** The coins of the senders of the transactions, counted once for each. *)
Definition staked_by (stake : string -> Z) (txs : list LedgerTx) : Z := zsum ((fun tx => stake tx.(tx_from)) <$> txs).

Lemma fold_txs block network txs ov w k :
  in_i64 block.(b_timestamp) -> 0 <= block.(b_timestamp) ->
  within block.(b_timestamp) w k ov -> (forall a, 0 <= stake_of ov a) -> w + staked_by (stake_of ov) txs <= u64_max ->
  10 * (k + Z.of_nat (length txs)) <= u64_max ->
  let ov' := foldl (try_tx block network) ov txs in
  within block.(b_timestamp) (w + staked_by (stake_of ov) txs) (k + Z.of_nat (length txs)) ov' /\
  (forall a, locked_until ov a <= locked_until ov' a) /\ (forall a, stake_of ov' a = stake_of ov a) /\
  forall id ob, is_short id -> reads ov id ob ->
    exists ob', reads ov' id ob' /\ rtc (fun x y => exists tx, tx ∈ txs /\ book_step block (stake_of ov) tx x y) ob ob'.
Proof.
  intros Hts Hts0. revert ov w k. induction txs as [|tx txs IH]; intros ov w k Hw Hpos Hroom Hk; cbn [foldl].
  - unfold staked_by. cbn. rewrite !Z.add_0_r. split_and!; [done..|]. intros id ob ? ?. exists ob. split; [done|]. apply rtc_refl.
  - unfold staked_by in Hroom. rewrite fmap_cons, zsum_cons in Hroom. fold (staked_by (stake_of ov) txs) in Hroom.
    assert (0 <= staked_by (stake_of ov) txs).
    { unfold staked_by. apply zsum_nonneg, Forall_fmap, Forall_forall. intros x _. apply Hpos. }
    cbn [length] in Hk. destruct (try_tx_step block network ov tx w k) as (Hw' & Hl & Hs & Hr); [done..|apply Hpos|lia|lia|].
    set (ov1 := try_tx block network ov tx) in *.
    assert (Es : staked_by (stake_of ov1) txs = staked_by (stake_of ov) txs) by (unfold staked_by; f_equal; apply list_fmap_ext; intros; apply Hs).
    destruct (IH ov1 (w + stake_of ov tx.(tx_from)) (k + 1)) as (Hw2 & Hl2 & Hs2 & Hr2); [done|intros a; rewrite Hs; apply Hpos|rewrite Es; lia|lia|].
    rewrite Es in Hw2. split_and!.
    + unfold staked_by. rewrite fmap_cons, zsum_cons. fold (staked_by (stake_of ov) txs). cbn [length].
      replace (w + (stake_of ov (tx_from tx) + staked_by (stake_of ov) txs)) with (w + stake_of ov (tx_from tx) + staked_by (stake_of ov) txs) by lia.
      replace (k + Z.of_nat (S (length txs))) with (k + 1 + Z.of_nat (length txs)) by lia. done.
    + intros a. etrans; [apply Hl|apply Hl2].
    + intros a. by rewrite Hs2.
    + intros id ob Hid Hob. destruct (Hr id ob Hid Hob) as (ob1 & Hob1 & Hor). destruct (Hr2 id ob1 Hid Hob1) as (ob2 & Hob2 & Hrtc).
      exists ob2. split; [done|].
      assert (rtc (fun x y => exists tx', tx' ∈ tx :: txs /\ book_step block (stake_of ov) tx' x y) ob1 ob2) as Hrtc'.
      { eapply rtc_subrel; [|exact Hrtc]. intros x y (tx' & Hin & b & -> & Hs'). rewrite Hs in Hs'. exists tx'. split; [set_solver|by exists b]. }
      destruct Hor as [->|Hb]; [done|]. eapply rtc_l; [|exact Hrtc']. exists tx. split; [set_solver|done].
Qed.
End Runs.
