(* ===== verification/DaoChain.v ===== *)
(** * The DAO and the chain

    The chain the DAO runs on: a block is accepted by [validate], its DAO
    transactions are applied to the column, and the stakes that [write_block_batch]
    computes are written beside them.  Stakes that voted stay while the vote is
    open. *)
From stdpp Require Import pretty.
From S2P Require Import Prelude Crypto Ledger RuleText LedgerFacts Totals Dao DaoFacts DaoSteps DaoRuns Balances BalancesFacts.
Local Open Scope string_scope.
Local Open Scope list_scope.
Local Open Scope Z_scope.
Local Open Scope ego_scope.

(** ** Stakes through a block *)

Section Stakes.
Context `{ChainRules}.
Implicit Types (db : Db) (s : Applying) (tx : LedgerTx).

(** A stake does not shrink, or its owner has been slashed. *)
Definition stake_kept db (a : string) s s' : Prop :=
  s.(slashed_seen) ⊆ s'.(slashed_seen) /\ (a ∉ s'.(slashed_seen) -> stake_now db s a <= stake_now db s' a).

Lemma stake_kept_refl db a s : stake_kept db a s s.
Proof. split; [done|lia]. Qed.

Lemma stake_kept_trans db a s1 s2 s3 : stake_kept db a s1 s2 -> stake_kept db a s2 s3 -> stake_kept db a s1 s3.
Proof. intros [Ha Hb] [Hc Hd]. split; [by etrans|]. intros Hn. specialize (Hd Hn). assert (a ∉ s2.(slashed_seen)) by set_solver. specialize (Hb ltac:(done)). lia. Qed.

(** Operations that touch neither the stakes nor the slashed. *)
Lemma stake_kept_same db a s s' : s'.(stake_sim) = s.(stake_sim) -> s'.(slashed_seen) = s.(slashed_seen) -> stake_kept db a s s'.
Proof. intros Es Ex. split; [by rewrite Ex|]. intros _. unfold stake_now. rewrite Es. lia. Qed.

Lemma stake_now_set db b n s a : stake_now db (set_stake_sim b n s) a = if bool_decide (b = a) then n else stake_now db s a.
Proof.
  unfold stake_now, entry_or. cbn [set_stake_sim stake_sim]. case_bool_decide; subst; [by rewrite lookup_insert_eq|by rewrite lookup_insert_ne].
Qed.

Lemma stake_kept_set db b n s a : (b = a -> stake_now db s a <= n) -> stake_kept db a s (set_stake_sim b n s).
Proof. intros Hn. split; [done|]. intros _. rewrite stake_now_set. case_bool_decide; [auto|lia]. Qed.

Definition stakes_fit db s : Prop := forall b, in_u64 (stake_now db s b).

Lemma stakes_fit_set db b n s : stakes_fit db s -> in_u64 n -> stakes_fit db (set_stake_sim b n s).
Proof. intros Hs Hn a. rewrite stake_now_set. case_bool_decide; auto. Qed.

Lemma stakes_fit_same db s s' : s'.(stake_sim) = s.(stake_sim) -> stakes_fit db s -> stakes_fit db s'.
Proof. intros E Hs a. specialize (Hs a). unfold stake_now in *. by rewrite E. Qed.

Lemma event_stakes mine a kind n h s :
  (add_event mine a kind n h s).(stake_sim) = s.(stake_sim) /\ (add_event mine a kind n h s).(slashed_seen) = s.(slashed_seen).
Proof. unfold add_event. by case_bool_decide. Qed.

(** An unstake changes the stake of its sender only. *)
Lemma apply_unstake_stakes db mine tx s a :
  tx.(tx_from) <> a -> 0 <= tx.(tx_amount) -> stakes_fit db s ->
  stake_kept db a s (apply_unstake db mine tx s) /\ stakes_fit db (apply_unstake db mine tx s).
Proof.
  intros Hne Ha Hs. unfold apply_unstake.
  set (s1 := if bool_decide _ then _ else _).
  assert (E : s1.(stake_sim) = s.(stake_sim) /\ s1.(slashed_seen) = s.(slashed_seen)).
  { unfold s1. case_bool_decide; [|done].
    match goal with |- context [add_event ?m ?a ?k ?n ?h ?x] => destruct (event_stakes m a k n h x) as [-> ->] end. done. }
  destruct E as [E1 E2]. pose proof (stakes_fit_same db s s1 E1 Hs) as Hs1. split.
  - eapply stake_kept_trans; [by apply (stake_kept_same db a s s1)|].
    eapply stake_kept_trans; [apply (stake_kept_set db tx.(tx_from)); intros; congruence|]. by apply stake_kept_same.
  - eapply stakes_fit_same; [reflexivity|]. apply stakes_fit_set; [done|]. pose proof (Hs1 tx.(tx_from)). machine_lia.
Qed.

Lemma apply_slash_stakes db tx s a :
  stakes_fit db s -> stake_kept db a s (apply_slash db tx s) /\ stakes_fit db (apply_slash db tx s).
Proof.
  intros Hs. unfold apply_slash, slash_from_equivocation_tx.
  destruct (equivocation_accused db tx) as [accused|]; [|by split; [apply stake_kept_refl|]].
  case_bool_decide; [by split; [apply stake_kept_refl|]|]. set (stake := stake_now db s accused).
  set (amount := sat_mul u64_max stake SLASH_BPS / 10000). set (s1 := set_stake_sim accused stake s).
  assert (Hs1 : stakes_fit db s1) by (apply stakes_fit_set; [done|apply Hs]).
  assert (Hk1 : stake_kept db a s s1) by (apply stake_kept_set; intros ->; unfold stake; lia).
  case_bool_decide; [done|]. split.
  - destruct Hk1 as [Hsub Hk1]. split; [cbn; set_solver|]. intros Hn. cbn in Hn.
    assert (accused <> a) by set_solver. specialize (Hk1 ltac:(cbn; set_solver)).
    change (stake_now db s a <= stake_now db (set_stake_sim accused (sat_sub stake amount) s1) a).
    rewrite stake_now_set, bool_decide_false by done. done.
  - eapply stakes_fit_same; [reflexivity|]. apply stakes_fit_set; [done|].
    assert (0 <= amount).
    { apply Z.div_pos; [|lia]. pose proof (Hs accused) as Hr. fold stake in Hr. unfold sat_mul, SLASH_BPS, in_u64, u64_max in *. lia. }
    pose proof (Hs accused) as Hr. fold stake in Hr. machine_lia.
Qed.

Lemma apply_tx_stakes db mine tx s a :
  (is_unstake_tx tx = true -> tx.(tx_from) <> a) -> 0 <= tx.(tx_amount) -> stakes_fit db s ->
  stake_kept db a s (apply_tx db mine s tx) /\ stakes_fit db (apply_tx db mine s tx).
Proof.
  intros Hu Ha Hs. unfold apply_tx. case_bool_decide; [by split; [apply stake_kept_refl|]|].
  destruct (negb _); [by split; [apply stake_kept_same|eapply stakes_fit_same]|].
  destruct (foundation_blocked _ _ _); [by split; [apply stake_kept_refl|]|].
  set (s1 := if is_unstake_tx tx then _ else _).
  assert (stake_kept db a s s1 /\ stakes_fit db s1) as [Hk Hf].
  { unfold s1. destruct (is_unstake_tx tx) eqn:Eu; [by apply apply_unstake_stakes; auto|].
    case_bool_decide; [by apply apply_slash_stakes|]. destruct (pays_fee_from_amount tx); [by split; [apply stake_kept_same|eapply stakes_fit_same]|].
    unfold apply_transfer. case_bool_decide; [by split; [apply stake_kept_same|eapply stakes_fit_same]|].
    destruct (is_reserved_system_source _); [by split; [apply stake_kept_same|eapply stakes_fit_same]|].
    destruct (is_stake_tx tx); [|by split; [apply stake_kept_same|eapply stakes_fit_same]].
    set (s2 := with_supply _ _). assert (Hs2 : stakes_fit db s2) by by eapply stakes_fit_same. split.
    - eapply stake_kept_trans; [by apply (stake_kept_same db a s s2)|]. apply stake_kept_set. intros <-.
      pose proof (Hs2 tx.(tx_from)). machine_lia.
    - apply stakes_fit_set; [done|]. pose proof (Hs2 tx.(tx_from)). machine_lia. }
  split; [|by eapply stakes_fit_same]. eapply stake_kept_trans; [exact Hk|by apply stake_kept_same].
Qed.

Lemma fold_stakes {A} db a (f : Applying -> A -> Applying) (l : list A) s :
  (forall s x, (f s x).(stake_sim) = s.(stake_sim) /\ (f s x).(slashed_seen) = s.(slashed_seen)) ->
  (foldl f s l).(stake_sim) = s.(stake_sim) /\ (foldl f s l).(slashed_seen) = s.(slashed_seen) /\ stake_now db (foldl f s l) a = stake_now db s a.
Proof.
  intros Hf. revert s. induction l as [|x l IH]; intros s; [done|]. cbn [foldl]. destruct (IH (f s x)) as (-> & -> & ->), (Hf s x) as [E1 E2].
  unfold stake_now. by rewrite E1, E2.
Qed.

(** Who does not unstake in a block and is not slashed keeps the stake. *)
Lemma block_keeps_stake db mine height txs a :
  Forall (fun tx => 0 <= tx.(tx_amount)) txs -> (forall tx, tx ∈ txs -> is_unstake_tx tx = true -> tx.(tx_from) <> a) ->
  (forall b, in_u64 (at_ db.(stakes) b)) ->
  db.(slashed) ⊆ (gather db mine height txs).(slashed_seen) /\
  (a ∉ (gather db mine height txs).(slashed_seen) -> at_ db.(stakes) a <= stake_now db (gather db mine height txs) a).
Proof.
  intros Hpos Hu Hin. unfold gather, pay_nodes. set (s0 := apply_txs db mine txs). cbn zeta.
  do 3 (match goal with |- context [foldl ?f ?s ?l] => destruct (fold_stakes db a f l s) as (_ & E1 & E2) end;
    [intros s x; first [apply event_stakes|done]|rewrite E1, E2; clear E1 E2]).
  assert (stake_kept db a (applying_new db) s0 /\ stakes_fit db s0) as [[Hsub Hk] _]; [|split; [exact Hsub|exact Hk]].
  unfold s0, apply_txs. assert (stakes_fit db (applying_new db)) as Hfit by exact Hin. revert Hfit.
  generalize (applying_new db). induction Hpos as [|tx txs Hp _ IH]; intros s Hfit; [by split; [apply stake_kept_refl|]|]. cbn [foldl].
  destruct (apply_tx_stakes db mine tx s a) as [Hk1 Hf1]; [apply Hu; set_solver|done|done|].
  destruct (IH ltac:(intros; apply Hu; set_solver) (apply_tx db mine s tx) Hf1) as [Hk2 Hf2].
  split; [by eapply stake_kept_trans|done].
Qed.
End Stakes.

(** ** The chain *)

Record DaoBlock : Type := MkDaoBlock { d_block : LedgerBlock; d_txs : list LedgerTx; d_network : Z }.

Definition dao_txs (d : DaoBlock) : list LedgerTx := filter (fun tx => is_dao_tx tx = true) d.(d_txs).

(** The column, the validators slashed so far, the time of the last block, and
    what the senders of all DAO transactions so far had staked, with their number. *)
Record Chain : Type := MkChain {
  c_db : Store;
  c_slashed : gset string;
  c_time : Z;
  c_weight : Z;
  c_count : Z;
}.

Definition is_dao_key (k : bytes) : Prop := has_prefix (ascii_bytes "dao:") k = true.

Section Chains.
Context `{CryptoPrims} `{ChainPrims} `{DaoJson} `{ChainRules}.
Context `{!JsonRoundTrip Proposal} `{!JsonRoundTrip StakeVote} `{!JsonRoundTrip KnowVote} `{!JsonRoundTrip (list Z)}.
Implicit Types (c : Chain) (d : DaoBlock) (b : Book) (ob : option Book).

(** Before the DAO was activated there are no entries of it. *)
Record chain_start c : Prop := {
  st_empty : forall k, is_dao_key k -> c.(c_db) !! k = None;
  st_time : 0 <= c.(c_time) <= i64_max;
  st_weight : c.(c_weight) = 0;
  st_count : c.(c_count) = 0;
}.

(** One block since the activation: accepted, no earlier than the last one, its DAO transactions applied
    to the column and the stakes written that the balances of the block come to.
    Other entries of the column may change in any way.  The weights and numbers of
    votes stay in the range of their integers. *)
Record chain_step c d c' : Prop := {
  cs_active : Dao.rule_active d.(d_block).(b_height) = true;
  cs_valid : Dao.validate (ov_new c.(c_db)) d.(d_block) d.(d_txs) = Ok tt;
  cs_time : 0 <= c.(c_time) <= d.(d_block).(b_timestamp) /\ d.(d_block).(b_timestamp) <= i64_max;
  cs_time' : c'.(c_time) = d.(d_block).(b_timestamp);
  cs_dao : forall k, is_dao_key k ->
    c'.(c_db) !! k = flush (Dao.apply_block (ov_new c.(c_db)) d.(d_block) d.(d_txs) d.(d_network)) !! k;
  cs_stakes : exists db mine, (forall a, at_ db.(stakes) a = stake_of (ov_new c.(c_db)) a) /\ db.(slashed) = c.(c_slashed) /\
    let s := gather db mine d.(d_block).(b_height) d.(d_txs) in
    c'.(c_slashed) = s.(slashed_seen) /\ forall a, stake_of (ov_new c'.(c_db)) a = stake_now db s a;
  cs_amounts : Forall (fun tx => 0 <= tx.(tx_amount)) d.(d_txs);
  cs_typed : forall a, in_u64 (stake_of (ov_new c.(c_db)) a);
  cs_weight : c'.(c_weight) = c.(c_weight) + staked_by (stake_of (ov_new c.(c_db))) (dao_txs d);
  cs_count : c'.(c_count) = c.(c_count) + Z.of_nat (length (dao_txs d));
  cs_room : c'.(c_weight) <= u64_max /\ 10 * c'.(c_count) <= u64_max;
}.

Inductive reached : Chain -> Prop :=
| reached_start c : chain_start c -> reached c
| reached_block c d c' : reached c -> chain_step c d c' -> reached c'.

Definition later : Chain -> Chain -> Prop := rtc (fun c c' => exists d, chain_step c d c').

(** ** Books along the chain *)

Lemma dao_key_prefix k : (forall a, k <> KStake a) -> is_dao_key (key_bytes k).
Proof. intros Hk. unfold is_dao_key, has_prefix. destruct k; try (apply bool_decide_eq_true_2; reflexivity). by destruct (Hk addr). Qed.

Lemma key_id_dao k id : key_id k = Some id -> is_dao_key (key_bytes k).
Proof. intros Hk. apply dao_key_prefix. intros a ->. discriminate. Qed.

Lemma reads_agree ov ov' id ob :
  (forall k, is_dao_key k -> ov_get k ov' = ov_get k ov) -> is_short id -> reads ov id ob -> reads ov' id ob.
Proof.
  intros Hk Hid. apply reads_frame; [|intros a|done].
  - intros k E _. by apply Hk, (key_id_dao k id).
  - unfold locked_until. erewrite (u64_at_same ov ov'); [done|]. apply (Hk (key_bytes (KLock a))). by apply dao_key_prefix.
Qed.

Lemma within_agree now w k ov ov' :
  (forall k, is_dao_key k -> ov_get k ov' = ov_get k ov) -> within now w k ov -> within now w k ov'.
Proof.
  intros Hk (Hb & Hw & Hrate). split_and!.
  - intros id Hid. destruct (Hb id Hid) as [ob Hr]. exists ob. by apply (reads_agree ov).
  - intros id ob Hid Hr. apply (Hw id); [done|]. apply (reads_agree ov'); [|done|done]. intros k' Hk'. by rewrite Hk.
  - assert (Hp : forall id, load_proposal ov' id = load_proposal ov id) by (intros id; by apply load_same, Hk, (dao_key_prefix (KProposal id))).
    assert (Ec : forall a, created_in_window ov' a now = created_in_window ov a now) by (intros a; by apply window_same, Hk, (dao_key_prefix (KCreated a))).
    intros a. rewrite Ec. destruct (Hrate a) as [Hl Hc]. split; [done|]. intros ids [Hnd Hids].
    rewrite (list_fmap_ext (created_of ov') (created_of ov)) by (intros; unfold created_of; by rewrite Hp).
    apply Hc. split; [done|]. intros id Hin. rewrite <-Hp. by apply Hids.
Qed.

Lemma within_later now now' w k ov : 0 <= now <= now' /\ now' <= i64_max -> within now w k ov -> within now' w k ov.
Proof.
  intros [Hle Hmax] (Hb & Hw & Hrate). split_and!; [done| |by eapply rated_later]. intros id ob Hid Hr. destruct (Hw id ob Hid Hr) as (? & ? & Ht). split_and!; try done.
  intros b E. destruct (Ht b E) as [Hp Hk]. split; [intros Hs; specialize (Hp Hs); lia|]. intros voter v Ev Hv. specialize (Hk voter v Ev Hv). lia.
Qed.

(** The rules by which the transactions of a block change a book. *)
Definition block_step c d : relation (option Book) :=
  fun ob ob' => exists tx, tx ∈ dao_txs d /\ book_step d.(d_block) (stake_of (ov_new c.(c_db))) tx ob ob'.

Lemma chain_step_books c d c' :
  chain_step c d c' -> within c.(c_time) c.(c_weight) c.(c_count) (ov_new c.(c_db)) ->
  within c'.(c_time) c'.(c_weight) c'.(c_count) (ov_new c'.(c_db)) /\
  (forall a, locked_until (ov_new c.(c_db)) a <= locked_until (ov_new c'.(c_db)) a) /\
  forall id ob, is_short id -> reads (ov_new c.(c_db)) id ob ->
    exists ob', reads (ov_new c'.(c_db)) id ob' /\ rtc (block_step c d) ob ob'.
Proof.
  intros Hs Hw. set (ov := ov_new c.(c_db)) in *. set (ov1 := Dao.apply_block ov d.(d_block) d.(d_txs) d.(d_network)).
  assert (Hag : forall k, is_dao_key k -> ov_get k (ov_new c'.(c_db)) = ov_get k ov1).
  { intros k Hk. change (ov_get k (ov_new c'.(c_db))) with (c'.(c_db) !! k). rewrite (cs_dao _ _ _ Hs k Hk). apply flush_lookup. }
  assert (Hpos : forall a, 0 <= stake_of ov a) by (intros a; apply (cs_typed _ _ _ Hs)).
  assert (Hsum : 0 <= staked_by (stake_of ov) (dao_txs d)) by (apply zsum_nonneg, Forall_fmap, Forall_forall; intros x _; apply Hpos).
  pose proof (cs_room _ _ _ Hs) as [Hroom Hcnt]. rewrite (cs_weight _ _ _ Hs) in Hroom. rewrite (cs_count _ _ _ Hs) in Hcnt.
  apply (within_later _ _ _ _ _ (cs_time _ _ _ Hs)) in Hw.
  rewrite (cs_time' _ _ _ Hs), (cs_weight _ _ _ Hs), (cs_count _ _ _ Hs). fold ov.
  assert (within d.(d_block).(b_timestamp) (c.(c_weight) + staked_by (stake_of ov) (dao_txs d)) (c.(c_count) + Z.of_nat (length (dao_txs d))) ov1 /\
    (forall a, locked_until ov a <= locked_until ov1 a) /\
    forall id ob, is_short id -> reads ov id ob -> exists ob', reads ov1 id ob' /\ rtc (block_step c d) ob ob') as (Hw1 & Hl1 & Hr1).
  { unfold ov1, Dao.apply_block. rewrite (cs_active _ _ _ Hs).
    pose proof (cs_time _ _ _ Hs) as Htime.
    destruct (fold_txs d.(d_block) d.(d_network) (dao_txs d) ov c.(c_weight) c.(c_count)) as (? & ? & _ & ?); try done;
      unfold in_i64, i64_min, i64_max in *; lia. }
  split_and!.
  - by apply (within_agree _ _ _ ov1).
  - intros a. etrans; [apply Hl1|]. apply Z.eq_le_incl. unfold locked_until. f_equal. symmetry. apply u64_at_same, Hag. by apply (dao_key_prefix (KLock a)).
  - intros id ob Hid Hr. destruct (Hr1 id ob Hid Hr) as (ob' & Hr' & Hrtc). exists ob'. split; [by apply (reads_agree ov1)|done].
Qed.

Lemma reached_within c : reached c -> within c.(c_time) c.(c_weight) c.(c_count) (ov_new c.(c_db)).
Proof.
  induction 1 as [c [He _ Hw Hc]|c d c' _ IH Hs]; [|by apply (chain_step_books c d c' Hs)]. rewrite Hw, Hc.
  assert (Hnone : forall id k, key_id k = Some id -> kget k (ov_new c.(c_db)) = None).
  { intros id k Hk. apply (He (key_bytes k)). by apply (key_id_dao k id). }
  split_and!.
  - intros id Hid. exists None. intros k Hk _. by apply (Hnone id).
  - intros id [b|] Hid Hr; [|cbn; split_and!; [lia|lia|done]]. exfalso. pose proof (rd_proposal _ _ _ Hr) as E. by rewrite (Hnone id) in E.
  - intros a. assert (created_in_window (ov_new c.(c_db)) a c.(c_time) = []) as ->.
    { unfold created_in_window, load. change (ov_get (created_key a) (ov_new c.(c_db))) with (c.(c_db) !! key_bytes (KCreated a)).
      by rewrite He by by apply dao_key_prefix. }
    split; [cbn; lia|]. intros [|id ids] [_ Hids]; [done|]. exfalso. destruct (Hids id) as (Hid & p & Hp & _); [set_solver|].
    unfold load_proposal, load in Hp. change (ov_get (p_key id) (ov_new c.(c_db))) with (kget (KProposal id) (ov_new c.(c_db))) in Hp.
    by rewrite (Hnone id) in Hp.
Qed.

Lemma later_reached c c' : reached c -> later c c' -> reached c'.
Proof. intros Hr. induction 1 as [|c c1 c' [d Hs] _ IH]; [done|]. apply IH. by eapply reached_block. Qed.

(** ** Stakes that voted *)

Lemma check_ops_voters block txs voters0 voters :
  check_ops true block txs voters0 = Ok voters ->
  voters0 ⊆ voters /\ Forall (fun tx => well_formed tx = Ok tt) txs /\ forall tx, tx ∈ txs -> locks_stake tx = true -> tx.(tx_from) ∈ voters.
Proof.
  revert voters0. induction txs as [|tx txs IH]; intros voters0 Hc; cbn [check_ops negb] in Hc.
  - apply Ok_inj in Hc as ->. split_and!; [done|by apply Forall_nil|]. intros ? []%not_elem_of_nil.
  - destruct (well_formed tx) as [[]|] eqn:Hw; [|done]. destruct (IH _ Hc) as (Hsub & Hall & Hin). split_and!.
    + destruct (locks_stake tx); set_solver.
    + by apply Forall_cons.
    + intros tx' [->|Hin']%elem_of_cons Hl; [rewrite Hl in Hsub; set_solver|by apply Hin].
Qed.

Lemma check_unstakes_Ok ov block voters txs :
  check_unstakes ov block voters txs = Ok tt <->
  Forall (fun tx => tx.(tx_from) ∉ voters /\ locked_until ov tx.(tx_from) <= block.(b_timestamp)) txs.
Proof.
  induction txs as [|tx txs IH]; cbn [check_unstakes]; [split; [by intros _; apply Forall_nil|done]|].
  rewrite Forall_cons, <-IH. case_bool_decide; [naive_solver|]. case_bool_decide; [split; [done|lia]|]. split; [|naive_solver]. intros; split_and!; [done|lia|done].
Qed.

Lemma validate_unstake ov block txs tx :
  Dao.validate ov block txs = Ok tt -> Dao.rule_active block.(b_height) = true -> tx ∈ txs -> is_unstake_tx tx = true ->
  locked_until ov tx.(tx_from) <= block.(b_timestamp) /\
  forall tx', tx' ∈ txs -> is_dao_tx tx' = true -> locks_stake tx' = true -> tx'.(tx_from) <> tx.(tx_from).
Proof.
  intros Hv Ha Hin Hu. unfold Dao.validate in Hv. rewrite Ha in Hv. apply result_bind_Ok in Hv as (voters & Hc & Hv).
  apply check_ops_voters in Hc as (_ & _ & Hvot). cbn [negb] in Hv. apply check_unstakes_Ok in Hv. rewrite Forall_forall in Hv.
  destruct (Hv tx) as [Hn Hl]; [by apply list_elem_of_filter|]. split; [done|].
  intros tx' Hin' Hd Hlk E. apply Hn. rewrite <-E. apply Hvot; [by apply list_elem_of_filter|done].
Qed.

(** Where a vote of a book comes from. *)
Lemma block_steps_vote c d ob ob' b' voter v :
  rtc (block_step c d) ob ob' -> ob' = Some b' -> b'.(bk_votes) !! voter = Some v ->
  (exists b, ob = Some b /\ b.(bk_votes) !! voter = Some v /\ same_terms b.(bk_proposal) b'.(bk_proposal)) \/
  (exists tx, tx ∈ dao_txs d /\ tx.(tx_from) = voter /\ locks_stake tx = true /\ v.(sv_weight) = stake_of (ov_new c.(c_db)) voter).
Proof.
  intros Hr. revert b' v. pattern ob'. revert ob' Hr. apply rtc_ind_r; [|intros ob1 ob' Hr Hs IH]; intros b' v -> E.
  - left. by exists b'.
  - destruct Hs as (tx & Hin & b2 & [= <-] & Hs).
    inversion Hs as [p|b o Hlk|b|b|b|b]; subst; cbn [bk_votes set_votes set_knows set_proposal] in E.
    + by rewrite lookup_empty in E.
    + apply lookup_insert_Some in E as [[<- <-]|[Hne E]]; [right; by exists tx|].
      destruct (IH b v eq_refl E) as [(b0 & ? & ? & ?)|?]; [left; by exists b0|by right].
    + destruct (IH b v eq_refl E) as [(b0 & ? & ? & ?)|?]; [left; by exists b0|by right].
    + destruct (IH b v eq_refl E) as [(b0 & ? & ? & ?)|?]; [left; by exists b0|by right].
    + destruct (IH b v eq_refl E) as [(b0 & ? & ? & Ht)|?]; [left; exists b0; split_and!; try done|by right].
    + destruct (IH b v eq_refl E) as [(b0 & ? & ? & Ht)|?]; [left; exists b0; split_and!; try done|by right].
Qed.

Lemma backed_step c d c' id b' voter v :
  reached c -> chain_step c d c' -> is_short id -> reads (ov_new c'.(c_db)) id (Some b') -> b'.(bk_votes) !! voter = Some v ->
  c'.(c_time) < b'.(bk_proposal).(p_ends_at) -> voter ∉ c'.(c_slashed) ->
  (forall b, reads (ov_new c.(c_db)) id (Some b) -> b.(bk_votes) !! voter = Some v -> c.(c_time) < b.(bk_proposal).(p_ends_at) ->
    voter ∉ c.(c_slashed) -> v.(sv_weight) <= stake_of (ov_new c.(c_db)) voter) ->
  v.(sv_weight) <= stake_of (ov_new c'.(c_db)) voter.
Proof.
  intros Hreach Hs Hid Hr' Ev Htime Hsl IH. pose proof (reached_within _ Hreach) as Hw. destruct (Hw) as [Hb _].
  destruct (Hb id Hid) as [ob Hr]. destruct (chain_step_books _ _ _ Hs Hw) as (_ & _ & Hsteps).
  destruct (Hsteps id ob Hid Hr) as (ob' & Hr2 & Hrtc). apply (reads_unique _ _ b') in Hr2 as ->; [|done..].
  destruct (cs_stakes _ _ _ Hs) as (db & mine & Hst & Hsd & Hsl' & Hst'). rewrite Hst'.
  rewrite (cs_time' _ _ _ Hs) in Htime. rewrite Hsl' in Hsl.
  assert (v.(sv_weight) <= at_ db.(stakes) voter /\ (forall tx, tx ∈ d.(d_txs) -> is_unstake_tx tx = true -> tx.(tx_from) <> voter)) as [Hle Hno].
  - destruct (block_steps_vote _ _ _ _ _ _ _ Hrtc eq_refl Ev) as [(b & -> & Evb & Ht)|(tx & Hin & <- & Hlk & Hwt)].
    + assert (b'.(bk_proposal).(p_ends_at) = b.(bk_proposal).(p_ends_at)) as Ee by (apply same_terms_fields in Ht; tauto). split.
      * rewrite Hst. apply (IH b); [done..| |]; [pose proof (cs_time _ _ _ Hs); lia|].
        rewrite <-Hsd. intros Hin. apply Hsl.
        destruct (block_keeps_stake db mine d.(d_block).(b_height) d.(d_txs) "") as [Hsub _]; [..|by apply Hsub].
        -- apply (cs_amounts _ _ _ Hs).
        -- intros tx _ Hu E. unfold is_unstake_tx in Hu. rewrite E in Hu. by rewrite andb_false_r in Hu.
        -- intros a. rewrite Hst. apply (cs_typed _ _ _ Hs).
      * intros tx Hin Hu E. destruct (validate_unstake _ _ _ _ (cs_valid _ _ _ Hs) (cs_active _ _ _ Hs) Hin Hu) as [Hl _].
        pose proof (rd_locks _ _ _ Hr voter v Evb). rewrite E in Hl. lia.
    + rewrite Hwt, Hst. split; [done|]. apply list_elem_of_filter in Hin as [Hd Hin].
      intros tx' Hin' Hu E. destruct (validate_unstake _ _ _ _ (cs_valid _ _ _ Hs) (cs_active _ _ _ Hs) Hin' Hu) as [_ Hn]. by apply (Hn tx).
  - etrans; [exact Hle|]. apply block_keeps_stake; try done; [apply (cs_amounts _ _ _ Hs)|]. intros a. rewrite Hst. apply (cs_typed _ _ _ Hs).
Qed.
End Chains.
