(* ===== verification/DaoTheorems.v ===== *)
(** * The DAO: theorems

    The stored tallies are those of the votes, which change only by the rules;
    stake that voted stays until the vote ends; a closed vote stays as it is;
    answers are bound before they are known; nobody floods the list; and a block
    builder and the judge of blocks agree. *)
From stdpp Require Import pretty.
From S2P Require Import Prelude Crypto Ledger RuleText LedgerFacts Totals Dao DaoFacts DaoSteps DaoRuns Balances BalancesFacts DaoChain.
Local Open Scope string_scope.
Local Open Scope list_scope.
Local Open Scope Z_scope.
Local Open Scope ego_scope.

Section Theorems.
Context `{CryptoPrims} `{ChainPrims} `{DaoJson} `{ChainRules}.
Context `{!JsonRoundTrip Proposal} `{!JsonRoundTrip StakeVote} `{!JsonRoundTrip KnowVote} `{!JsonRoundTrip (list Z)}.
Implicit Types (c : Chain) (d : DaoBlock) (b : Book) (ob : option Book) (p : Proposal).

(** The state the DAO reads. *)
Definition ov_of c : Ov := ov_new c.(c_db).

(** ** Books *)

(** C30: the DAO keeps true books.  Along the chain the entries of every proposal
    are those of a book: its tallies are, option by option, the sums of the weights
    of the recorded votes and of the right answers of the revealed ones, its counts
    their numbers.  The transactions of a block change the book only by the rules,
    each with what its sender has staked. *)
Theorem dao_books_refine c d c' id :
  reached c -> chain_step c d c' -> is_id id = true ->
  exists ob ob', reads (ov_of c) id ob /\ reads (ov_of c') id ob' /\ rtc (block_step c d) ob ob'.
Proof.
  intros Hreach Hs Hid%is_id_short. pose proof (reached_within _ Hreach) as Hw. destruct Hw as [Hb ?]. destruct (Hb id Hid) as [ob Hr].
  destruct (chain_step_books _ _ _ Hs) as (_ & _ & Hsteps); [by apply reached_within|].
  destruct (Hsteps id ob Hid Hr) as (ob' & Hr' & Hrtc). by exists ob, ob'.
Qed.

Lemma reached_book c id p :
  reached c -> is_short id -> load_proposal (ov_of c) id = Some p -> exists b, reads_book (ov_of c) id b /\ b.(bk_proposal) = p.
Proof. intros Hr Hid Hp. destruct (reached_within _ Hr) as [Hb _]. by apply booked_load. Qed.

Lemma backed c id b voter v :
  reached c -> is_short id -> reads_book (ov_of c) id b -> b.(bk_votes) !! voter = Some v ->
  c.(c_time) < b.(bk_proposal).(p_ends_at) -> voter ∉ c.(c_slashed) -> v.(sv_weight) <= stake_of (ov_of c) voter.
Proof.
  intros Hreach Hid. revert b v. induction Hreach as [c Hs|c d c' Hreach IH Hs]; intros b v Hr Ev Ht Hn.
  - exfalso. pose proof (rd_proposal _ _ _ Hr) as E. unfold ov_of, kget, ov_new, ov_get, ov_committed in E. cbn in E.
    by rewrite (st_empty _ Hs) in E by by apply (key_id_dao (KProposal id) id).
  - apply (backed_step c d c' id b); try done. intros b0 Hr0 Ev0 Ht0 Hn0. by apply (IH b0).
Qed.

(** C4: stake that voted stays.  While a vote is open, the weight of every recorded
    vote is covered by what the voter has staked now, unless the voter was slashed:
    the same coins cannot be moved to another address to vote again. *)
Theorem votes_backed c id p voter v :
  reached c -> is_id id = true -> load_proposal (ov_of c) id = Some p -> c.(c_time) < p.(p_ends_at) ->
  load (ov_of c) (stake_vote_key id voter) = Some v -> voter ∉ c.(c_slashed) ->
  v.(sv_weight) <= stake_of (ov_of c) voter.
Proof.
  intros Hreach Hid%is_id_short Hp Ht Hv Hn. destruct (reached_book _ _ _ Hreach Hid Hp) as (b & Hr & <-).
  rewrite (load_vote _ _ _ _ Hr) in Hv. by apply (backed c id b).
Qed.

(** ** After the vote *)

Definition closed p (now : Z) : Prop := p.(p_withdrawn) = true \/ p.(p_ends_at) <= now.

(** What is left of a knowledge vote without its answers. *)
Definition choice (v : KnowVote) : nat * string := (v.(kv_option), v.(kv_commit)).

Lemma step_closed block tx stake b b' :
  Step block tx stake (Some b) b' -> closed b.(bk_proposal) block.(b_timestamp) ->
  b'.(bk_votes) = b.(bk_votes) /\ choice <$> b'.(bk_knows) = choice <$> b.(bk_knows) /\ closed b'.(bk_proposal) block.(b_timestamp).
Proof.
  intros Hs Hc. inversion Hs as [|? ? ? Hopen|? ? ? Hopen|? v ? ? Ev|? ? ? ? ? ? Hend|? ? Hopen]; subst;
    cbn [bk_votes bk_knows bk_proposal set_votes set_knows set_proposal];
    try (destruct Hopen as [Hw Ho], Hc as [Hc|Hc]; [congruence|lia]).
  - split_and!; [done| |done]. rewrite fmap_insert. apply insert_id. rewrite lookup_fmap, Ev. done.
  - split_and!; [done|done|]. by right.
Qed.

Lemma later_closed c c' id b :
  reached c -> later c c' -> is_short id -> reads_book (ov_of c) id b -> closed b.(bk_proposal) c.(c_time) ->
  exists b', reads_book (ov_of c') id b' /\ same_terms b.(bk_proposal) b'.(bk_proposal) /\
    b'.(bk_votes) = b.(bk_votes) /\ choice <$> b'.(bk_knows) = choice <$> b.(bk_knows).
Proof.
  intros Hreach Hl Hid. revert b. induction Hl as [c|c c1 c' [d Hs] Hl IH]; intros b Hr Hc; [by exists b|].
  destruct (chain_step_books _ _ _ Hs) as (_ & _ & Hsteps); [by apply reached_within|].
  destruct (Hsteps id (Some b) Hid Hr) as (ob1 & Hr1 & Hrtc). pose proof (cs_time _ _ _ Hs) as Htime.
  assert (exists b1, ob1 = Some b1 /\ same_terms b.(bk_proposal) b1.(bk_proposal) /\ b1.(bk_votes) = b.(bk_votes) /\
    choice <$> b1.(bk_knows) = choice <$> b.(bk_knows) /\ closed b1.(bk_proposal) d.(d_block).(b_timestamp)) as (b1 & -> & Ht1 & Ev1 & Ek1 & Hc1).
  { clear Hr1. pattern ob1. revert ob1 Hrtc. apply rtc_ind_r.
    - exists b. split_and!; try done. destruct Hc as [?|?]; [by left|right; lia].
    - intros ob1 ob2 _ (tx & _ & b2 & -> & Hstep) (b1 & -> & Ht1 & Ev1 & Ek1 & Hc1). exists b2.
      destruct (step_closed _ _ _ _ _ Hstep Hc1) as (E1 & E2 & E3). split_and!; try done; [|congruence|congruence].
      pose proof (book_step_terms _ _ _ _ _ Hstep). unfold same_terms in *. congruence. }
  destruct (IH (reached_block _ _ _ Hreach Hs) b1 Hr1) as (b' & Hr' & Ht' & Ev' & Ek'); [by rewrite (cs_time' _ _ _ Hs)|].
  exists b'. split_and!; [done| |congruence|congruence]. unfold same_terms in *. congruence.
Qed.

(** C31: a closed vote stays closed.  Once a vote has ended or was withdrawn, no later
    block changes its tallies by stake, its counts, a stake vote, or the option and
    the commitment of a knowledge vote. *)
Theorem voting_closes c c' id p :
  reached c -> later c c' -> is_id id = true -> load_proposal (ov_of c) id = Some p -> closed p c.(c_time) ->
  load (A := list Z) (ov_of c') (tally_key id) = load (ov_of c) (tally_key id) /\
  u64_at (ov_of c') (stake_count_key id) = u64_at (ov_of c) (stake_count_key id) /\
  u64_at (ov_of c') (know_count_key id) = u64_at (ov_of c) (know_count_key id) /\
  forall voter, load (A := StakeVote) (ov_of c') (stake_vote_key id voter) = load (ov_of c) (stake_vote_key id voter) /\
    choice <$> know_vote (ov_of c') id voter = choice <$> know_vote (ov_of c) id voter.
Proof.
  intros Hreach Hl Hid%is_id_short Hp Hc. destruct (reached_book _ _ _ Hreach Hid Hp) as (b & Hr & <-).
  destruct (later_closed _ _ _ _ Hreach Hl Hid Hr Hc) as (b' & Hr' & Ht & Ev & Ek).
  destruct (same_terms_fields _ _ Ht) as (_ & _ & _ & _ & Eo & _). split_and!.
  - rewrite (load_tally _ _ _ Hr), (load_tally _ _ _ Hr'). unfold stake_tally. by rewrite Eo, Ev.
  - pose proof (rd_count _ _ _ Hr) as E1. pose proof (rd_count _ _ _ Hr') as E2. cbn [key_bytes] in *. by rewrite E1, E2, Ev.
  - pose proof (rd_know_count _ _ _ Hr) as E1. pose proof (rd_know_count _ _ _ Hr') as E2. cbn [key_bytes] in *. rewrite E1, E2.
    rewrite <-(map_size_fmap choice b'.(bk_knows)), Ek, map_size_fmap. done.
  - intros voter. rewrite (load_vote _ _ _ _ Hr), (load_vote _ _ _ _ Hr'), Ev. split; [done|].
    rewrite (know_vote_reads _ _ _ _ Hr), (know_vote_reads _ _ _ _ Hr'), <-!lookup_fmap. by rewrite Ek.
Qed.

(** C32: answers are bound before they are known.  No answers, of the creator or of
    a voter, are on the chain before the vote has ended.  Answers recorded later open
    the commitment that the voter made while the vote was open, and the right
    answers open the commitment in the proposal. *)
Theorem answers_bound c c' id p voter v a :
  reached c -> later c c' -> is_id id = true -> load_proposal (ov_of c) id = Some p ->
  (is_Some p.(p_answers) \/ (exists u, know_vote (ov_of c) id voter = Some u /\ is_Some u.(kv_answers)) -> p.(p_ends_at) <= c.(c_time)) /\
  (p.(p_ends_at) <= c.(c_time) -> know_vote (ov_of c') id voter = Some v -> v.(kv_answers) = Some a ->
    exists u salt, know_vote (ov_of c) id voter = Some u /\ choice u = choice v /\ vote_commit id voter salt a = u.(kv_commit)) /\
  (forall p' key, load_proposal (ov_of c') id = Some p' -> p'.(p_answers) = Some key -> p.(p_ends_at) <= c.(c_time) ->
    exists salt, answers_commit salt key = p.(p_answers_commit)).
Proof.
  intros Hreach Hl Hid%is_id_short Hp. destruct (reached_book _ _ _ Hreach Hid Hp) as (b & Hr & <-). split_and!.
  - destruct (reached_within _ Hreach) as (_ & Hw & _). destruct (Hw id (Some b) Hid Hr) as (_ & _ & Ht).
    destruct (Ht b eq_refl) as [Hp1 Hk1]. intros [Ha|(u & Hu & Ha)]; [by apply Hp1|].
    rewrite (know_vote_reads _ _ _ _ Hr) in Hu. by apply (Hk1 voter u).
  - intros Hend Hv Ha. destruct (later_closed _ _ _ _ Hreach Hl Hid Hr) as (b' & Hr' & Ht & _ & Ek); [by right|].
    rewrite (know_vote_reads _ _ _ _ Hr') in Hv. destruct (g_opened _ (rd_good _ _ _ Hr') voter v a Hv Ha) as [[salt Hs] _].
    rewrite (know_vote_reads _ _ _ _ Hr). assert (choice <$> b.(bk_knows) !! voter = Some (choice v)) as E.
    { rewrite <-lookup_fmap, <-Ek, lookup_fmap, Hv. done. }
    destruct (b.(bk_knows) !! voter) as [u|]; [|done]. apply (inj Some) in E. exists u, salt. split_and!; [done|done|].
    rewrite <-(rd_id _ _ _ Hr'). unfold choice in E. congruence.
  - intros p' key Hp' Hk Hend. destruct (later_closed _ _ _ _ Hreach Hl Hid Hr) as (b' & Hr' & Ht & _ & _); [by right|].
    rewrite (reads_load _ _ _ Hr') in Hp'. apply (inj Some) in Hp' as <-.
    destruct (g_key _ (rd_good _ _ _ Hr') key Hk) as [salt Hs]. exists salt. destruct (same_terms_fields _ _ Ht) as (_ & _ & _ & _ & _ & _ & E & _). congruence.
Qed.

(** ** Who may propose *)

(** five proposals a month.  At any time, the chain has at most five proposals of
    one creator that are less than 30 days old. *)
Theorem proposal_rate c creator ids :
  reached c -> NoDup ids ->
  (forall id, id ∈ ids -> is_id id = true /\ exists p, load_proposal (ov_of c) id = Some p /\ p.(p_creator) = creator /\
    c.(c_time) - WINDOW_SECS < p.(p_created_at)) ->
  (length ids <= PROPOSALS_PER_WINDOW)%nat.
Proof.
  intros Hreach Hnd Hids. destruct (reached_within _ Hreach) as (_ & _ & Hrate). destruct (Hrate creator) as [Hlen Hcov].
  assert (Hby : by_creator (ov_of c) creator ids).
  { split; [done|]. intros id Hin. destruct (Hids id Hin) as (Hid & p & Hp & Hc & _). split; [by apply is_id_short|by exists p]. }
  specialize (Hcov ids Hby). apply submseteq_length in Hcov. etrans; [|exact Hlen]. etrans; [|exact Hcov].
  rewrite filter_all; [by rewrite length_fmap|]. intros t (id & -> & Hin)%list_elem_of_fmap. destruct (Hids id Hin) as (_ & p & Hp & _ & Ht).
  unfold created_of. change (ov_new c.(c_db)) with (ov_of c). rewrite Hp. cbn [from_option].
  rewrite as_signed_id; [done|]. assert (0 <= c.(c_time) <= i64_max) as Hc.
  { clear -Hreach. destruct Hreach as [c Hs|c d c' _ Hs]; [apply (st_time _ Hs)|]. rewrite (cs_time' _ _ _ Hs). pose proof (cs_time _ _ _ Hs). lia. }
  unfold in_i64, WINDOW_SECS, DAY_SECS, i64_min, i64_max in *. lia.
Qed.

(** ** Building and judging a block *)

Definition unstakers (txs : list LedgerTx) : gset string :=
  list_to_set (tx_from <$> filter (fun tx => is_unstake_tx tx = true) txs).

Lemma unstake_not_dao tx : is_unstake_tx tx = true -> is_dao_tx tx = false.
Proof.
  unfold is_unstake_tx, is_dao_tx. intros Hu. apply andb_prop in Hu as [Hu _]. apply andb_prop in Hu as [Hu _].
  apply bool_decide_eq_true_1 in Hu. rewrite Hu. reflexivity.
Qed.

Lemma check_ops_Ok block txs voters0 :
  (exists voters, check_ops true block txs voters0 = Ok voters) <-> Forall (fun tx => well_formed tx = Ok tt) txs.
Proof.
  revert voters0. induction txs as [|tx txs IH]; intros voters0; cbn [check_ops negb]; [split; [by intros _; apply Forall_nil|by eexists]|].
  rewrite Forall_cons. destruct (well_formed tx) as [[]|] eqn:Hw; [rewrite IH; naive_solver|]. split; [by intros [? ?]|by intros [? _]].
Qed.

(** The senders the first loop of [validate] gathers. *)
Lemma check_ops_set block txs voters0 voters :
  check_ops true block txs voters0 = Ok voters ->
  forall a, a ∈ voters <-> a ∈ voters0 \/ exists tx, tx ∈ txs /\ locks_stake tx = true /\ tx.(tx_from) = a.
Proof.
  revert voters0. induction txs as [|tx txs IH]; intros voters0 Hc a; cbn [check_ops negb] in Hc.
  - apply Ok_inj in Hc as ->. split; [by left|]. by intros [?|(? & []%not_elem_of_nil & _)].
  - destruct (well_formed tx) as [[]|]; [|done]. rewrite (IH _ Hc a). setoid_rewrite elem_of_cons.
    destruct (locks_stake tx) eqn:El; [rewrite elem_of_union, elem_of_singleton|]; split.
    + intros [[->|?]|(x & ? & ? & ?)]; [right; exists tx|by left|right; exists x]; auto.
    + intros [?|(x & [->|?] & ? & ?)]; [auto|left; by left|right; by exists x].
    + intros [?|(x & ? & ? & ?)]; [by left|right; exists x]; auto.
    + intros [?|(x & [->|?] & ? & ?)]; [by left|congruence|right; by exists x].
Qed.

(** who builds a block and who judges it agree.  If every transaction of a block
    passes [proposal_fit] with the senders of all unstakes that were candidates, then
    [validate] accepts the block; and every transaction of a block that [validate]
    accepts passes [proposal_fit] with the senders of its own unstakes. *)
Theorem fit_iff_valid ov block txs :
  Dao.rule_active block.(b_height) = true ->
  (forall candidates, unstakers txs ⊆ candidates ->
    Forall (fun tx => proposal_fit ov tx block.(b_height) block.(b_timestamp) candidates = FitYes) txs -> Dao.validate ov block txs = Ok tt) /\
  (Dao.validate ov block txs = Ok tt ->
    Forall (fun tx => proposal_fit ov tx block.(b_height) block.(b_timestamp) (unstakers txs) = FitYes) txs).
Proof.
  intros Ha. split.
  - intros cands Hsub Hall. rewrite Forall_forall in Hall. unfold Dao.validate. rewrite Ha.
    destruct (proj2 (check_ops_Ok block (filter (fun tx => is_dao_tx tx = true) txs) ∅)) as [voters Hv].
    { apply Forall_forall. intros tx [Hd Hin]%list_elem_of_filter. specialize (Hall tx Hin). unfold proposal_fit in Hall.
      rewrite Hd, Ha in Hall. cbn [negb] in Hall. by destruct (well_formed tx) as [[]|]. }
    rewrite Hv. cbn [result_bind negb]. apply check_unstakes_Ok, Forall_forall. intros tx [Hu Hin]%list_elem_of_filter. split.
    + intros Hvot. apply (check_ops_set _ _ _ _ Hv) in Hvot as [?|(tx' & [Hd Hin']%list_elem_of_filter & Hl & E)]; [set_solver|].
      specialize (Hall tx' Hin'). unfold proposal_fit in Hall. rewrite Hd, Ha, Hl in Hall. cbn [negb andb] in Hall.
      destruct (well_formed tx') as [[]|]; [|done]. rewrite bool_decide_true in Hall; [done|]. apply Hsub. rewrite E.
      unfold unstakers. apply elem_of_list_to_set, list_elem_of_fmap. exists tx. split; [done|]. by apply list_elem_of_filter.
    + specialize (Hall tx Hin). unfold proposal_fit in Hall. rewrite (unstake_not_dao _ Hu), Ha, Hu in Hall. cbn [andb] in Hall.
      case_bool_decide; [done|]. lia.
  - intros Hv. apply Forall_forall. intros tx Hin. unfold Dao.validate in Hv. rewrite Ha in Hv.
    apply result_bind_Ok in Hv as (voters & Hc & Hv). cbn [negb] in Hv. apply check_unstakes_Ok in Hv. rewrite Forall_forall in Hv.
    pose proof (proj1 (check_ops_Ok block (filter (fun tx => is_dao_tx tx = true) txs) ∅) ltac:(by eexists)) as Hwf. rewrite Forall_forall in Hwf.
    unfold proposal_fit. rewrite Ha. cbn [andb negb]. destruct (is_dao_tx tx) eqn:Hd.
    + rewrite (Hwf tx) by by apply list_elem_of_filter. assert (is_unstake_tx tx = false) as Hnu.
      { destruct (is_unstake_tx tx) eqn:Hu; [|done]. by rewrite (unstake_not_dao _ Hu) in Hd. }
      rewrite Hnu. cbn [andb]. destruct (locks_stake tx) eqn:Hl; [|done]. cbn [andb]. rewrite bool_decide_false; [done|].
      unfold unstakers. rewrite elem_of_list_to_set, list_elem_of_fmap. intros (tx' & E & Hin'). destruct (Hv tx' Hin') as [Hn _]. apply Hn.
      apply (check_ops_set _ _ _ _ Hc). right. exists tx. split_and!; [by apply list_elem_of_filter|done|congruence].
    + destruct (is_unstake_tx tx) eqn:Hu; [|done]. cbn [andb]. rewrite bool_decide_false; [done|].
      destruct (Hv tx) as [_ Hl]; [by apply list_elem_of_filter|]. lia.
Qed.
End Theorems.
