(* ===== verification/DaoDemo.v ===== *)
(** * The DAO: examples

    A chain on which Alice proposes with a knowledge test, Bob votes with his stake
    and Carol with her knowledge; the properties on it, and what a crowd of small
    reports can do. *)
From stdpp Require Import pretty.
From S2P Require Import Prelude Crypto Ledger RuleText LedgerFacts Totals Dao DaoFacts DaoSteps DaoRuns Balances BalancesFacts DaoChain DaoTheorems.
Local Open Scope string_scope.
Local Open Scope list_scope.
Local Open Scope Z_scope.
Local Open Scope ego_scope.

(** ** Blocks that move no stake *)

Section Quiet.
Context `{CryptoPrims} `{ChainPrims} `{DaoJson} `{ChainRules}.
Context `{!JsonRoundTrip Proposal} `{!JsonRoundTrip StakeVote} `{!JsonRoundTrip KnowVote} `{!JsonRoundTrip (list Z)}.
Implicit Types (c : Chain) (d : DaoBlock).

Definition next c d : Chain :=
  MkChain (flush (Dao.apply_block (ov_of c) d.(d_block) d.(d_txs) d.(d_network))) c.(c_slashed) d.(d_block).(b_timestamp)
    (c.(c_weight) + staked_by (stake_of (ov_of c)) (dao_txs d)) (c.(c_count) + Z.of_nat (length (dao_txs d))).

Definition quiet_db c (m : gmap string Z) : Db := MkDb ∅ ∅ m ∅ ∅ c.(c_slashed) ∅ ∅.

(** What is to be checked for such a block. *)
Definition quiet c (m : gmap string Z) d : bool :=
  let s := gather (quiet_db c m) ∅ d.(d_block).(b_height) d.(d_txs) in
  Dao.rule_active d.(d_block).(b_height) &&
  match Dao.validate (ov_of c) d.(d_block) d.(d_txs) with Ok _ => true | Err _ => false end &&
  bool_decide (0 <= c.(c_time) <= d.(d_block).(b_timestamp)) && bool_decide (d.(d_block).(b_timestamp) <= i64_max) &&
  bool_decide (s.(stake_sim) = ∅) && bool_decide (s.(slashed_seen) = c.(c_slashed)) &&
  bool_decide (Forall (fun tx => 0 <= tx.(tx_amount)) d.(d_txs)) &&
  bool_decide ((next c d).(c_weight) <= u64_max) && bool_decide (10 * (next c d).(c_count) <= u64_max).

Lemma quiet_step c (m : gmap string Z) d :
  reached c -> (forall a, stake_of (ov_of c) a = at_ m a) -> map_Forall (fun _ n => in_u64 n) m -> quiet c m d = true ->
  chain_step c d (next c d) /\ forall a, stake_of (ov_of (next c d)) a = at_ m a.
Proof.
  intros Hreach Hm Hin Hq. unfold quiet in Hq. rewrite !andb_true_iff, !bool_decide_eq_true in Hq.
  destruct Hq as ((((((((Ha & Hv) & Ht) & Hmax) & Hsim) & Hsl) & Hpos) & Hw) & Hc).
  assert (Hu : forall a, in_u64 (stake_of (ov_of c) a)).
  { intros a. rewrite Hm. unfold at_. destruct (m !! a) eqn:E; [by apply (Hin a)|]. unfold in_u64, u64_max. cbn. lia. }
  assert (Hsum : 0 <= staked_by (stake_of (ov_of c)) (dao_txs d)) by (apply zsum_nonneg, Forall_fmap, Forall_forall; intros x _; apply Hu).
  assert (Hst : forall a, stake_of (ov_of (next c d)) a = at_ m a).
  { intros a. rewrite <-Hm. transitivity (stake_of (Dao.apply_block (ov_of c) d.(d_block) d.(d_txs) d.(d_network)) a).
    { apply (u64_at_same _ _ (key_bytes (KStake a))). apply flush_lookup. }
    unfold Dao.apply_block. rewrite Ha. cbn [negb]. fold (dao_txs d). cbn [next c_weight c_count] in Hw, Hc.
    destruct (fold_txs d.(d_block) d.(d_network) (dao_txs d) (ov_of c) c.(c_weight) c.(c_count)) as (_ & _ & E & _); try done;
      try (intros x; apply Hu); try (unfold in_i64, i64_min, i64_max in *; lia).
    apply (within_later c.(c_time)); [lia|]. by apply reached_within. }
  split; [|done]. split; try done; cbn [next c_db c_slashed c_time c_weight c_count].
  - destruct (Dao.validate _ _ _) as [[]|]; done.
  - exists (quiet_db c m), ∅. split; [intros a; by rewrite <-Hm|]. split; [done|]. cbn zeta. split; [done|].
    intros a. rewrite Hst. unfold stake_now, entry_or. by rewrite Hsim, lookup_empty.
Qed.

(** A store that has stakes only. *)
Definition stake_store (m : gmap string Z) : Store := kmap (fun a => key_bytes (KStake a)) (u64_le <$> m).

#[local] Instance stake_key_inj : Inj (=) (=) (fun a => key_bytes (KStake a)).
Proof. intros a a' E. by apply (key_bytes_inj (KStake a) (KStake a')) in E as [= ->]. Qed.

Lemma stake_of_store m a : map_Forall (fun _ n => in_u64 n) m -> stake_of (ov_new (stake_store m)) a = at_ m a.
Proof.
  intros Hm. unfold stake_of, u64_at. change (ov_get (ascii_bytes ("stake:" +:+ a)) (ov_new (stake_store m))) with (stake_store m !! key_bytes (KStake a)).
  unfold stake_store, at_. rewrite (lookup_kmap (fun a => key_bytes (KStake a))), lookup_fmap. destruct (m !! a) as [n|] eqn:E; [|done].
  cbn [fmap option_fmap option_map mbind option_bind]. rewrite bool_decide_true by (by rewrite length_u64_le). rewrite take_ge by (by rewrite length_u64_le).
  cbn [default from_option]. apply from_to_le_bytes. pose proof (Hm a n E) as Hn. cbn in Hn. unfold in_u64, u64_max in Hn. unfold id. lia.
Qed.

Lemma stake_store_start (m : gmap string Z) time :
  0 <= time <= i64_max -> chain_start (MkChain (stake_store m) ∅ time 0 0).
Proof.
  intros Ht. split; try done. intros k Hk. cbn. unfold stake_store. apply lookup_kmap_None; [apply _|]. intros a E. exfalso.
  unfold is_dao_key, has_prefix in Hk. apply bool_decide_eq_true_1 in Hk. rewrite E in Hk. discriminate Hk.
Qed.
End Quiet.

(** ** A concrete chain *)

Module DaoRun.
#[local] Instance Question_eq_dec : EqDecision Question.
Proof. solve_decision. Defined.
#[local] Instance Question_countable : Countable Question.
Proof. refine (inj_countable' (fun q => (question q, q_options q)) (fun '(a, b) => MkQuestion a b) _). by intros []. Defined.
#[local] Instance Proposal_eq_dec : EqDecision Proposal.
Proof. solve_decision. Defined.
#[local] Instance Proposal_countable : Countable Proposal.
Proof.
  refine (inj_countable' (fun p =>
      (((p_id p, p_title p), (p_description p, p_kind p)), ((p_options p, p_creator p), (p_created_at p, p_ends_at p)),
       ((p_height p, p_questions p), (p_answers_commit p, (p_answers p, (p_withdrawn p, p_revealed_at p))))))
    (fun '(((a, b), (c, d)), ((e, f), (g, h)), ((i, j), (k, (l, (m, n))))) => MkProposal a b c d e f g h i j k l m n) _). by intros [].
Defined.
#[local] Instance StakeVote_eq_dec : EqDecision StakeVote.
Proof. solve_decision. Defined.
#[local] Instance StakeVote_countable : Countable StakeVote.
Proof. refine (inj_countable' (fun v => (sv_option v, sv_weight v)) (fun '(a, b) => MkStakeVote a b) _). by intros []. Defined.
#[local] Instance KnowVote_eq_dec : EqDecision KnowVote.
Proof. solve_decision. Defined.
#[local] Instance KnowVote_countable : Countable KnowVote.
Proof. refine (inj_countable' (fun v => (kv_option v, (kv_commit v, kv_answers v))) (fun '(a, (b, c)) => MkKnowVote a b c) _). by intros []. Defined.
#[local] Instance Report_eq_dec : EqDecision Report.
Proof. solve_decision. Defined.
#[local] Instance Report_countable : Countable Report.
Proof. refine (inj_countable' (fun r => (reporter r, (r_weight r, r_at r))) (fun '(a, (b, c)) => MkReport a b c) _). by intros []. Defined.

#[export] Instance crypto : CryptoPrims :=
  {| blake2s d := []; blake3 d := to_le_bytes 32 (foldl (fun a x => a * 31 + x) 7 d);
     ed25519_verify _ _ _ := Ok false; ml_dsa_verify _ _ _ := false; slh_dsa_verify _ _ _ := Ok false;
     ed25519_sign _ _ := []; ml_dsa_sign _ _ := [] |}.
#[export] Instance chain : ChainPrims :=
  {| hex_encode := Hex.encode; hex_decode := Hex.decode; bech32m_encode _ _ := None; dalek_verify _ _ _ := false |}.
#[export] Instance rules : ChainRules :=
  {| escrow_rule_enabled := false; emission_v2_active _ := true; expected_block_reward _ _ _ _ _ := 0;
     faucet_address := FAUCET_ADDR_FULL; verify_confirmed_tx_sig _ := Ok tt; equivocation_accused _ _ := Err "no proof";
     takes_effect _ := true; vested_uegoc := 0; node_due := []; storage_pay := [] |}.

Definition ALICE : string := "egot1alice".
Definition BOB : string := "egot1bob".
Definition CAROL : string := "egot1carol".

Definition HASH : string := "0x01".
Definition ID : string := proposal_id HASH.
Definition SALT : string := "5555555555555555555555555555555555555555555555555555555555555555".
Definition CAROL_SALT : string := "6666666666666666666666666666666666666666666666666666666666666666".
Definition QUIZ : list Question := [MkQuestion "Block time?" ["1 s"; "10 s"]; MkQuestion "Ticker?" ["EGO"; "EGOC"; "EGOT"]].

(** A body is read by its name. *)
Definition table_json {A} (l : list (string * A)) : Json A :=
  {| to_json _ := [];
     from_json b := ok_or (ina ← list_find (fun na : string * A => b = ascii_bytes na.1) l; Some ina.2.2) "unreadable" |}.

#[export] Instance json : DaoJson := {|
  propose_json := table_json [("propose", MkProposeBody "Raise the rate" "Pay hosts more" "parameter" ["Yes"; "No"] 7 QUIZ (answers_commit SALT [1; 1]))];
  vote_json := table_json [("no", MkVoteBody ID 1); ("yes", MkVoteBody ID 0)];
  know_json := table_json [("know", MkKnowBody ID 0 (vote_commit ID CAROL CAROL_SALT [1; 0]))];
  report_body_json := table_json [("report", MkReportBody ALICE)];
  reveal_json := table_json [("key", MkRevealBody ID SALT [1; 1]); ("answers", MkRevealBody ID CAROL_SALT [1; 0])];
  withdraw_json := table_json [("withdraw", MkWithdrawBody ID)];
  proposal_json := count_json;
  stake_vote_json := count_json;
  know_vote_json := count_json;
  reports_json := count_json;
  numbers_json := count_json;
|}.
#[export] Instance proposal_rt : JsonRoundTrip Proposal := count_json_rt.
#[export] Instance stake_vote_rt : JsonRoundTrip StakeVote := count_json_rt.
#[export] Instance know_vote_rt : JsonRoundTrip KnowVote := count_json_rt.
#[export] Instance numbers_rt : JsonRoundTrip (list Z) := count_json_rt.

Definition tx_ (hash from type args : string) : LedgerTx :=
  MkTx hash from from 0 (memo_for type args) 1700 "" "Confirmed" None 1 "" "" "" type 0 0 "" "" "" args "" "" 3 1 "" "" false "" "".

Definition propose_tx : LedgerTx := tx_ HASH ALICE TX_PROPOSE "propose".
Definition yes_tx : LedgerTx := tx_ "0x02" BOB TX_VOTE "yes".
Definition no_tx : LedgerTx := tx_ "0x03" BOB TX_VOTE "no".
Definition know_tx : LedgerTx := tx_ "0x04" CAROL TX_KNOW "know".
Definition key_tx : LedgerTx := tx_ "0x05" ALICE TX_REVEAL "key".
Definition answers_tx : LedgerTx := tx_ "0x06" CAROL TX_KNOW_REVEAL "answers".

Definition staked : gmap string Z := {[ ALICE := 700; BOB := 300 ]}.

Definition c0 : Chain := MkChain (stake_store staked) ∅ 1000 0 0.
Definition d1 : DaoBlock := MkDaoBlock (MkBlock 70000 "h1" 2000) [propose_tx; yes_tx; know_tx; no_tx] 1000.
Definition c1 : Chain := next c0 d1.
(** The vote ends 604800 seconds after the proposal. *)
Definition d2 : DaoBlock := MkDaoBlock (MkBlock 70001 "h2" 606800) [key_tx] 1000.
Definition c2 : Chain := next c1 d2.
Definition d3 : DaoBlock := MkDaoBlock (MkBlock 70002 "h3" 606900) [answers_tx; yes_tx] 1000.
Definition c3 : Chain := next c2 d3.
End DaoRun.
Import DaoRun.

(** ** The properties on it *)

Ltac by_compute := apply (bool_decide_eq_true_1 _); vm_compute; reflexivity.

Lemma staked_typed : map_Forall (fun _ n => in_u64 n) staked.
Proof. by_compute. Qed.

Lemma reached_c0 : reached c0.
Proof. apply reached_start. by apply stake_store_start. Qed.
Lemma stakes_c0 a : stake_of (ov_of c0) a = at_ staked a.
Proof. apply stake_of_store, staked_typed. Qed.

Lemma step_c1 : chain_step c0 d1 c1 /\ forall a, stake_of (ov_of c1) a = at_ staked a.
Proof. apply quiet_step; [apply reached_c0|apply stakes_c0|apply staked_typed|vm_compute; reflexivity]. Qed.
Lemma reached_c1 : reached c1.
Proof. eapply reached_block; [apply reached_c0|apply step_c1]. Qed.

Lemma step_c2 : chain_step c1 d2 c2 /\ forall a, stake_of (ov_of c2) a = at_ staked a.
Proof. apply quiet_step; [apply reached_c1|apply step_c1|apply staked_typed|vm_compute; reflexivity]. Qed.
Lemma reached_c2 : reached c2.
Proof. eapply reached_block; [apply reached_c1|apply step_c2]. Qed.

Lemma step_c3 : chain_step c2 d3 c3 /\ forall a, stake_of (ov_of c3) a = at_ staked a.
Proof. apply quiet_step; [apply reached_c2|apply step_c2|apply staked_typed|vm_compute; reflexivity]. Qed.
Lemma later_c3 : later c2 c3.
Proof. eapply rtc_once. exists d3. apply step_c3. Qed.

Definition proposal_of (c : Chain) : Proposal :=
  default (MkProposal "" "" "" "" [] "" 0 0 0 [] "" None false None) (load_proposal (ov_of c) ID).

Lemma dao_books_refine_witness :
  is_id ID = true /\ exists ob ob', reads (ov_of c0) ID ob /\ reads (ov_of c1) ID ob' /\ rtc (block_step c0 d1) ob ob'.
Proof.
  assert (is_id ID = true) as Hid by (vm_compute; reflexivity). split; [exact Hid|].
  apply (dao_books_refine c0 d1 c1 ID); [apply reached_c0|apply step_c1|exact Hid].
Defined.

Lemma votes_backed_witness :
  load (A := StakeVote) (ov_of c1) (stake_vote_key ID BOB) = Some (MkStakeVote 1 300) /\ 300 <= stake_of (ov_of c1) BOB.
Proof.
  assert (load (A := StakeVote) (ov_of c1) (stake_vote_key ID BOB) = Some (MkStakeVote 1 300)) as Hv by (vm_compute; reflexivity).
  split; [exact Hv|].
  apply (votes_backed c1 ID (proposal_of c1) BOB (MkStakeVote 1 300)).
  - apply reached_c1.
  - vm_compute; reflexivity.
  - vm_compute; reflexivity.
  - apply (bool_decide_eq_true_1 (c1.(c_time) < (proposal_of c1).(p_ends_at))). vm_compute. reflexivity.
  - exact Hv.
  - apply (bool_decide_eq_true_1 (BOB ∉ c1.(c_slashed))). vm_compute. reflexivity.
Defined.

Lemma voting_closes_witness :
  closed (proposal_of c2) c2.(c_time) /\ load (A := list Z) (ov_of c3) (tally_key ID) = load (ov_of c2) (tally_key ID).
Proof.
  assert (closed (proposal_of c2) c2.(c_time)) as Hc.
  { right. apply (bool_decide_eq_true_1 ((proposal_of c2).(p_ends_at) <= c2.(c_time))). vm_compute. reflexivity. }
  split; [exact Hc|].
  apply (voting_closes c2 c3 ID (proposal_of c2)); [apply reached_c2|apply later_c3|vm_compute; reflexivity|vm_compute; reflexivity|exact Hc].
Defined.

Lemma answers_bound_witness :
  (proposal_of c2).(p_ends_at) <= c2.(c_time) /\
  exists u salt, know_vote (ov_of c2) ID CAROL = Some u /\ vote_commit ID CAROL salt [1; 0] = u.(kv_commit).
Proof.
  assert ((proposal_of c2).(p_ends_at) <= c2.(c_time)) as Hend
    by (apply (bool_decide_eq_true_1 ((proposal_of c2).(p_ends_at) <= c2.(c_time))); vm_compute; reflexivity).
  split; [exact Hend|]. set (v := MkKnowVote 0 (vote_commit ID CAROL CAROL_SALT [1; 0]) (Some [1; 0])).
  destruct (answers_bound c2 c3 ID (proposal_of c2) CAROL v [1; 0]) as (_ & Hv & _);
    [apply reached_c2|apply later_c3|vm_compute; reflexivity|vm_compute; reflexivity|].
  destruct (Hv Hend) as (u & salt & Hu & _ & Hs); [vm_compute; reflexivity|reflexivity|]. exists u, salt. split; [exact Hu|exact Hs].
Defined.

Lemma proposal_rate_witness : NoDup [ID] /\ (length [ID] <= PROPOSALS_PER_WINDOW)%nat.
Proof.
  assert (NoDup [ID]) as Hnd by apply NoDup_singleton. split; [exact Hnd|].
  apply (proposal_rate c1 ALICE [ID]); [apply reached_c1|exact Hnd|]. intros id Hin. apply list_elem_of_singleton in Hin as ->.
  split; [vm_compute; reflexivity|]. exists (proposal_of c1). split_and!; [vm_compute; reflexivity|vm_compute; reflexivity|].
  apply (bool_decide_eq_true_1 (c1.(c_time) - WINDOW_SECS < (proposal_of c1).(p_created_at))). vm_compute. reflexivity.
Defined.

Lemma fit_iff_valid_witness :
  Dao.validate (ov_of c1) d2.(d_block) d2.(d_txs) = Ok tt /\
  Forall (fun tx => proposal_fit (ov_of c1) tx 70001 606800 (unstakers d2.(d_txs)) = FitYes) d2.(d_txs).
Proof.
  assert (Dao.validate (ov_of c1) d2.(d_block) d2.(d_txs) = Ok tt) as Hv by (vm_compute; reflexivity). split; [exact Hv|].
  apply (fit_iff_valid (ov_of c1) d2.(d_block) d2.(d_txs)); [vm_compute; reflexivity|exact Hv].
Defined.

(** ** A crowd of small reports *)

Module Crowd.
Definition heavy (i : nat) : string := "egot1heavy" +:+ pretty i.
Definition dust (i : nat) : string := "egot1dust" +:+ pretty i.
Definition crowd : gmap string Z :=
  list_to_map (((fun i => (heavy i, 20000)) <$> seq 0 3) ++ ((fun i => (dust i, 1)) <$> seq 0 256)).
Definition NETWORK : Z := 3000000.
Definition reports_by (l : list string) (ov : Ov) : Ov :=
  foldl (try_tx (MkBlock 70000 "h" 2000) NETWORK) ov ((fun a => tx_ a a TX_REPORT "report") <$> l).
Definition reported : Ov := reports_by (heavy <$> seq 0 3) (ov_new (stake_store crowd)).
Definition flooded : Ov := reports_by (dust <$> seq 0 256) reported.
End Crowd.

(** Three reporters with two percent of the stake stop Alice; 256 reports that weigh one
    unit each push theirs out of the list, which keeps the last 256, and she is free. *)
Example dust_reports_lift_ban :
  (banned (active_reports Crowd.reported ALICE 2000) Crowd.NETWORK,
   banned (active_reports Crowd.flooded ALICE 2000) Crowd.NETWORK) = (true, false).
Proof. vm_compute. reflexivity. Qed.
